(* ===== verification/_CoqProject ===== *)
-Q . S2P
Prelude.v
KList.v
Config.v
RingBuf.v
Fifo.v
Bitmap.v
Cpu.v
Atomic.v
Mem.v
MmBlk.v
Mm.v
MmClass.v
MmList.v
MmGeom.v
MmHole.v
MmAlloc.v
MmFree.v
MmRealloc.v
MmRep.v
MmInit.v
MmUse.v
HeapProps.v
UartBus.v
Rwlock.v
SkMonitor.v
State.v
Sched.v
Inv.v
Tick.v
Pend.v
PriChange.v
KInv.v
Mutex.v
Sem.v
Event.v
Queue.v
BufQueue.v
Task.v
Frame.v
TaskDel.v
Time.v
Timer.v
Sys.v
TimerTask.v
WorkQueue.v
Csi.v
Kernel.v
WorkInv.v
CsiSys.v
CsiTimer.v
Demo.v
Properties.v
UartProps.v
CsiProps.v
RwProps.v
WorkProps.v
SkProps.v
