(* ===== verification/Prelude.v ===== *)
(** * The Rhino kernel of the TXW8301 FMAC SDK

    The firmware of the SDK runs on the Rhino real-time kernel of
    [src/csky/csi_kernel/rhino]; everything else in the repository is built on
    it, is third-party code, or calls libraries whose sources are not there.
    This library models the kernel as this SDK configures it ([k_config.h],
    [csky/configs/csi_config.h]: one CPU, 64-bit ticks, dynamic objects, timers,
    round robin), the kernel's own heap and block pools, the work queues, the CSI
    interface the SDK programs against, a driver built on it, the framing of the
    UART bus, and the readers-writer lock of the POSIX layer; it proves that they do what their calls promise.

    ** How the code is modelled

    A kernel routine is a function of type [K A]: from the state of the kernel
    to [Ok (result, state)], to [Reset e] where the code calls [k_err_proc(e)],
    which resets the machine, or to [Undef] where it would use a pointer to
    nothing, leave the bounds of an array or loop for ever.  [wp m Q s] says that
    [m] ends normally from [s] with [Q]: every theorem stated with it is one of
    total correctness.  Objects ([ktask], [kobj]) have natural numbers as
    addresses and live in finite maps; the intrusive lists of the code are
    sequences of addresses in the state, and [KList] proves that the pointer
    operations implement the operations on sequences.  Integers are in [Z] with
    the reduction of their C type written out ([u8], [u32], [u64], [i64]).

    A call that blocks its caller ends with [Blocked] after the scheduler has
    chosen another task; what the code does when the caller runs again is the
    function [..._resume].  Interrupts are disabled in the critical sections, so
    the calls are steps; an interrupt is a sequence of the steps [IntrptEnter],
    [TickProc] or any call allowed in interrupts, and [IntrptExit].  The calls
    with two critical sections in a row ([krhino_task_dyn_del]) are taken as one
    step.

    ** The files, and the code they model

    - [Prelude]: the state monad and its rules, sequences, integers.
    - [KList] ([k_list.h]): nodes with their two pointers, every write of the
      list operations; [klist_rep] relates a store to a sequence.
    - [Config] ([k_config.h], [k_err.h], [k_obj.h]): constants and enumerations.
    - [RingBuf] ([k_ringbuf.c]), [Fifo] ([k_fifo.c]), [Bitmap] ([k_bitmap.h],
      [k_ffs.c]): the data structures, byte by byte and bit by bit.
    - [Cpu] ([arch/include/port.h], [port_s.S]): code as a sequence of accesses to
      memory, with the interrupt flag, on a processor that may leave a context for
      another one between any two of them while the flag is set; code that keeps
      the flag clear around its accesses is as good as one step.
    - [Atomic] ([k_atomic.c], [k_cpuset.h]): the atomic operations as such code, and
      the sets of CPUs, on words that tasks share.
    - [State] ([k_obj.c], [k_internal.h]): the control blocks, the globals and
      the checks every call begins with.
    - [Sched] ([k_sched.c]), [Tick] ([k_tick.c]), [Pend] ([k_pend.c]),
      [PriChange] (the priority part of [k_mutex.c] and [k_task.c]): the run
      queue with its bitmap, the tick list, the waiting lists, and the loop that
      carries an inherited priority along the owners of mutexes.
    - [Inv], [KInv]: the invariant.  [core] relates the tasks, the objects, the
      run queue and the tick list; [kpre] adds the inherited priorities and the
      scheduler; [wf] adds that the task that runs is the one that should.  The
      lemmas on how a step of a task or an object keeps it are here.
    - [Mutex], [Sem], [Event], [Queue], [BufQueue], [Task], [TaskDel], [Time],
      [Sys] (the files [k_*.c] of the same names): one function per call, and for
      each an inductive specification ([lock_spec], [take_spec], ...) with one
      case per result.
    - [Frame]: [Follows R m] says that the states before and after [m] are in the
      relation [R]; it is a class solved by the structure of the code, for any
      [R] of the class [KRel].  Its two uses: the scheduler's globals are left
      alone ([Frames m]), no object is made or deleted ([same_kinds]).
    - [Timer], [TimerTask] ([k_timer.c]): the software timers, the messages of
      their calls and the task that serves them, which runs on the kernel.
    - [Mem], [MmBlk] ([k_mm_blk.c]), [Mm] ([k_mm.c]): the allocators.  They write
      their own structures into the memory they manage, so here memory is a map
      from addresses to words.
    - [MmClass], [MmList], [MmGeom], [MmHole]: the parts of the heap: the classes
      of sizes with their bitmaps, the lists of free blocks, the blocks and their
      headers in the order of their addresses ([heap]), and the same with one
      header being rewritten ([hole]), which is the state in the middle of every
      operation.
    - [MmAlloc], [MmFree], [MmRealloc], [MmInit]: what the operations do to the
      sequence of blocks: [taken], [freed], [resized], and the first heap.
    - [MmRep], [MmUse]: what a client sees.  [mm_rep] relates a heap to the map of
      its live allocations, and [heap_call_ok] proves that the calls implement
      the operations of such a map; [HeapProps]: the theorems.
    - [UartBus] ([sdk/lib/bus/macbus/uart_bus.c], [rbuffer.h]): the reception of
      frames over the UART, a client of the kernel: an interrupt handler, a timer
      and a task that share a ring.  [frames] is the abstract machine, whose state
      is the bytes cut in chunks, and [uart_rep] relates the two;
      [UartProps]: the theorem.
    - [Kernel]: the calls as the labels of a transition system.  [legal s c] is
      what a caller owes: pointers to objects, memory of the stated size,
      blocking calls outside the idle task, room in the counting semaphore of the
      task that frees memory.  [prepared] are the states of a program that has
      called [krhino_init] and creates its tasks and objects, [started] those
      [krhino_start] makes of them, [reachable] all that follow.
    - [Csi] ([adapter/csi_rhino.c], [driver/systick.c]): the calls [csi_kernel_*],
      most of them one or two calls of the kernel with the status translated.
      Those that make and delete objects work on [csys], a kernel and a heap.
    - [CsiSys]: the interface as a transition system.  [csi_ok] says that kernel
      and heap are whole and that every object in the heap has a block of its
      own; the fresh memory that [legal] asks of a caller is what the allocator
      gives.
    - [CsiTimer]: the timers of the interface, on the kernel with its timers and
      the heap: a handle is two blocks and a timer of the kernel.  The calls are
      cut where the timer task may run in between.  [CsiProps]: the theorems.
    - [Rwlock] ([sdk/lib/posix/pthread_rwlock.c]): the lock as a monitor.  The
      condition variables ([pthread_cond.c] calls [os_condv_*], whose source is not
      in the repository) are a class [CondVar] with what POSIX says of them and the
      results of the calls that wake threads; a call is cut where it waits.
      [RwProps]: the theorem.
    - [WorkQueue] ([k_workqueue.c]): the queues with their worker, a client of
      the kernel and of its timers.  [WorkInv]: the steps of inserters and
      workers, cut at the critical sections; the invariant counts the units of
      each semaphore against the works in its list.  [spares] is what a step of
      the rest of the kernel owes the queues.  [WorkProps]: the theorem.
    - [SkMonitor] ([lib/net/skmonitor/skmonitor.c]): the watched sockets, a linked
      list in memory, with the task in [select], the work that calls the sockets'
      functions and the threads that change the list as steps; [spec_step] is
      what they do to the list of the sockets.  [SkProps]: the theorem.
    - [Demo]: reachable states of a small system; [Properties]: the theorems.

    ** What is proved

    - Of every reachable state: the invariant, hence that the running task has
      the highest priority of the ready ones, that every task has the priority it
      should inherit, that waiting lists and the tick list are exact, that no
      two tasks own a mutex and who waits for one waits for its owner, that nobody
      waits for what is there.  A legal call
      in a reachable state ends, and is never undefined.
    - Of every call: its result and its effect in each case.
    - Of the start: whatever tasks and objects were created before it, the kernel
      starts on the ready task of the highest priority.
    - Of time: a timeout lasts exactly its ticks; a timer is called when due; the
      timer task executes its commands in order and leaves the timers as
      [timers_after] computes.
    - Of the data structures: the rings refine queues of messages, the fifo
      gives back what it was given, the bitmap finds the first bit; the atomic
      operations, preempted between any two accesses while interrupts are enabled,
      take effect one after the other.
    - Of the heap: over any history of legal calls the blocks of the clients are
      apart, aligned, inside the heap, and keep their contents; an allocation
      fails only when no free block is large enough for its class; the block
      pools are stacks of free blocks.
    - Of the CSI interface: a program that uses its calls on the kernel and the
      heap together keeps both whole, and a new handle is never one in use; what
      is shown of priorities is what was set; the list of tasks is right for an
      array with room for all of them, and writes past a smaller one; a timer
      calls the function it was made for, after the ticks it was started with.
    - Of the UART bus: in any interleaving of the interrupts and the task in
      which the task keeps up, the frames go to the bus whole and in order.
    - Of the readers-writer lock: in any interleaving one writer or any number of
      readers have it, the counters are right, and while no wait and no signal
      fails the lock is not left free while threads sleep for it.
    - Of the work queues: in any interleaving the works a queue accepted are run
      in order and once each time; a worker never finds its list empty, and when
      it sleeps everything was run.
    - Of the socket monitor: in any interleaving the calls that change the list
      do to the list of sockets what their names say, the task and the work take
      turns, and a round calls the sockets that are ready, in order and once.

    ** Loops

    A loop of the code is structural where it walks a sequence, else it has a
    fuel that its caller computes from the state: for the chain of mutex owners
    the number of tasks times that of priorities, as each turn moves a priority
    in the same direction; for the loops over waiting lists and the tick list
    their length, as each turn takes a task from them.  [legal_call_returns] shows that this fuel is never used up.  The
    fuel of the timer task is an argument: one more than the commands and the due
    timers together is enough ([timer_task_correct]).

    ** Not modelled

    The heap of [k_mm.c] and the pools of [k_mm_blk.c] are compiled unless
    [MPOOL_ALLOC] is defined.  The one project of the repository
    ([project/txw4002a.cdkproj]) defines it: its [krhino_mm_alloc] and
    [krhino_mm_free] are then those of [csky/hgic/malloc.c], which call
    [sysheap_alloc] and [os_free], whose source is not in the repository.  The
    theorems about the heap, and those of [CsiProps] that put the objects of the
    interface in it, are about a build without that macro.

    The [krhino_*_dyn_create] calls take the address the allocator returned as an
    argument; the calls of [CsiSys] take it from the heap.  The contents of an
    object are in the state of the kernel, its block in the heap is only
    reserved.  Of the interface, the measurement of stacks and the names of tasks
    are not modelled; the memory of message queues and tasks is an
    argument; [csi_kernel_*_del] and the [krhino_mm_free] it ends with are one
    step.  The heap is that of
    [RHINO_CONFIG_MM_TLF] without the debug words; the sizes its clients may ask
    for are 0 and those from 2 to 0xFC000000 bytes ([size_ok]: 1 byte makes the
    statistics read past a word, more wraps).  [krhino_add_mm_region] is modelled
    and not proved: the theorems are about a heap of one region.  Not modelled:
    the measurement of stacks and the dump of tasks; statistics,
    trace and hooks (compiled out or printing); the loop of the task that frees the
    memory of deleted tasks; the code of callbacks and task
    entries, which is the user's; register save and restore; the attributes of a
    readers-writer lock and the race of two first calls on a static one.  The
    making and deletion of work queues are modelled and not steps of [WorkInv],
    whose queues are there from the start.  A task that is
    deleted keeps its address until it is created again. *)

From stdpp Require Export base option list sorting gmap.
From Stdlib Require Export ZArith Lia.

#[export] Set Default Goal Selector "!".

(** ** Fixed-width integers

    The C types are modelled as [Z] with the reduction written out. *)

Declare Scope c_scope.
Delimit Scope c_scope with C.
Open Scope Z_scope.

Definition u8 (x : Z) : Z := x mod 2 ^ 8.
Definition u16 (x : Z) : Z := x mod 2 ^ 16.
Definition u32 (x : Z) : Z := x mod 2 ^ 32.
Definition u64 (x : Z) : Z := x mod 2 ^ 64.
(** the value of a 64-bit word read as a signed number *)
Definition i64 (x : Z) : Z := (x + 2 ^ 63) mod 2 ^ 64 - 2 ^ 63.

Ltac unfold_width := unfold u8, u16, u32, u64, i64 in *.

Lemma u32_small x : 0 <= x < 2 ^ 32 -> u32 x = x.
Proof. apply Z.mod_small. Qed.

Lemma u8_small x : 0 <= x < 2 ^ 8 -> u8 x = x.
Proof. apply Z.mod_small. Qed.

Lemma u64_small x : 0 <= x < 2 ^ 64 -> u64 x = x.
Proof. apply Z.mod_small. Qed.

Lemma u64_range x : 0 <= u64 x < 2 ^ 64.
Proof. apply Z.mod_pos_bound. lia. Qed.

Lemma u32_range x : 0 <= u32 x < 2 ^ 32.
Proof. apply Z.mod_pos_bound. lia. Qed.

(** the difference of two 64-bit counters does not depend on the wrap *)
Lemma u64_sub_l x y : u64 (u64 x - y) = u64 (x - y).
Proof. unfold u64. by rewrite Zminus_mod_idemp_l. Qed.

Lemma u64_sub_r x y : u64 (x - u64 y) = u64 (x - y).
Proof. unfold u64. by rewrite Zminus_mod_idemp_r. Qed.

Lemma i64_u64 x : i64 (u64 x) = i64 x.
Proof. unfold i64, u64. by rewrite Zplus_mod_idemp_l. Qed.

Lemma i64_small x : - 2 ^ 63 <= x < 2 ^ 63 -> i64 x = x.
Proof. intros H. unfold i64. rewrite Z.mod_small; lia. Qed.

(** ** State transformers that may stop

    A kernel routine is a function from the kernel state to an outcome.
    [Ok] carries the result and the new state; [Reset e] is a call of
    [k_err_proc(e)], which resets the MCU and does not return; [Undef] is an
    access through a pointer that designates no live object, an access out of
    the bounds of an array, or a loop that did not end within its fuel. *)

Inductive res (E A : Type) : Type :=
  | Ok (a : A)
  | Reset (e : E)
  | Undef.
Arguments Ok {E A} a.
Arguments Reset {E A} e.
Arguments Undef {E A}.

Definition M (E S A : Type) : Type := S -> res E (A * S).

#[export] Instance M_ret E S : MRet (M E S) := fun A a s => Ok (a, s).
#[export] Instance M_bind E S : MBind (M E S) := fun A B f m s =>
  match m s with
  | Ok (a, s') => f a s'
  | Reset e => Reset e
  | Undef => Undef
  end.

Section ops.
Context {E S : Type}.

Definition gets {A} (f : S -> A) : M E S A := fun s => Ok (f s, s).
Definition modify (f : S -> S) : M E S unit := fun s => Ok (tt, f s).
Definition stop {A} (e : E) : M E S A := fun _ => Reset e.
Definition undef {A} : M E S A := fun _ => Undef.
Definition lift {A} (o : option A) : M E S A :=
  match o with Some a => mret a | None => undef end.

(** Total correctness: [m] ends normally from [s], with a result and a state
    in [Q]. *)
Definition wp {A} (m : M E S A) (Q : A -> S -> Prop) (s : S) : Prop :=
  match m s with Ok (a, s') => Q a s' | _ => False end.

Lemma wp_ret {A} (a : A) Q s : Q a s -> wp (mret a) Q s.
Proof. done. Qed.

Lemma wp_bind {A B} (m : M E S A) (f : A -> M E S B) Q s :
  wp m (fun a s' => wp (f a) Q s') s -> wp (m ≫= f) Q s.
Proof. unfold wp, mbind, M_bind. by destruct (m s) as [[a s']| |]. Qed.

Lemma wp_mono {A} (m : M E S A) (P Q : A -> S -> Prop) s :
  (forall a s', P a s' -> Q a s') -> wp m P s -> wp m Q s.
Proof. unfold wp. destruct (m s) as [[a s']| |]; eauto. Qed.

Lemma wp_gets {A} (f : S -> A) Q s : Q (f s) s -> wp (gets f) Q s.
Proof. done. Qed.

Lemma wp_modify f (Q : unit -> S -> Prop) s : Q tt (f s) -> wp (modify f) Q s.
Proof. done. Qed.

Lemma wp_lift {A} (o : option A) a (Q : A -> S -> Prop) s :
  o = Some a -> Q a s -> wp (lift o) Q s.
Proof. by intros ->. Qed.

Lemma wp_elim {A} (m : M E S A) Q s a s' : wp m Q s -> m s = Ok (a, s') -> Q a s'.
Proof. unfold wp. intros H Hm. by rewrite Hm in H. Qed.

Lemma wp_Ok {A} (m : M E S A) Q s :
  wp m Q s <-> exists a s', m s = Ok (a, s') /\ Q a s'.
Proof.
  unfold wp. destruct (m s) as [[a s']|e|]; split.
  - eauto.
  - by intros (? & ? & [= -> ->] & ?).
  - done.
  - by intros (? & ? & ? & _).
  - done.
  - by intros (? & ? & ? & _).
Qed.
End ops.

(** ** Intrusive lists as sequences

    [insert_before stop x l] is what the loop
    [for (q = head->next; q != head; q = q->next) if (stop(q)) break;]
    followed by [klist_insert(q, x)] does to the sequence of the nodes.
    [stop] reads memory and may fail. *)

Fixpoint insert_beforeM {A} (stop : A -> option bool) (x : A) (l : list A) : option (list A) :=
  match l with
  | [] => Some [x]
  | y :: l' =>
      match stop y with
      | None => None
      | Some true => Some (x :: y :: l')
      | Some false => match insert_beforeM stop x l' with
                      | None => None
                      | Some l'' => Some (y :: l'')
                      end
      end
  end.

Fixpoint insert_before {A} (stop : A -> bool) (x : A) (l : list A) : list A :=
  match l with
  | [] => [x]
  | y :: l' => if stop y then x :: y :: l' else y :: insert_before stop x l'
  end.

(** [klist_rm] of a node that occurs in the sequence. *)
Definition klist_del (x : nat) (l : list nat) : list nat := filter (fun y => y <> x) l.

Section insert_before.
Context {A : Type}.
Implicit Types (x y : A) (l : list A).

Lemma insert_beforeM_total (stop : A -> option bool) (b : A -> bool) x l :
  (forall y, y ∈ l -> stop y = Some (b y)) ->
  insert_beforeM stop x l = Some (insert_before b x l).
Proof.
  induction l as [|y l IH]; intros Hs; simpl; [done|].
  rewrite (Hs y) by set_solver. destruct (b y); [done|].
  rewrite IH by set_solver. done.
Qed.

Lemma insert_before_Permutation (b : A -> bool) x l : insert_before b x l ≡ₚ x :: l.
Proof.
  induction l as [|y l IH]; simpl; [done|].
  destruct (b y); [done|]. rewrite IH. constructor.
Qed.

Lemma elem_of_insert_before (b : A -> bool) x y l : y ∈ insert_before b x l <-> y = x \/ y ∈ l.
Proof. rewrite insert_before_Permutation. set_solver. Qed.

Lemma NoDup_insert_before (b : A -> bool) x l :
  NoDup l -> x ∉ l -> NoDup (insert_before b x l).
Proof. intros. rewrite insert_before_Permutation. by constructor. Qed.

Lemma insert_before_ext (b b' : A -> bool) x l :
  (forall y, y ∈ l -> b y = b' y) -> insert_before b x l = insert_before b' x l.
Proof.
  induction l as [|y l IH]; intros Hb; simpl; [done|].
  rewrite (Hb y) by set_solver. destruct (b' y); [done|].
  f_equal. apply IH. set_solver.
Qed.

(** the sequence is kept sorted, equal keys in order of arrival *)
Lemma insert_before_sorted (key : A -> Z) x l :
  StronglySorted (fun a b => key a <= key b) l ->
  StronglySorted (fun a b => key a <= key b) (insert_before (fun y => key x <? key y) x l).
Proof.
  induction 1 as [|y l Hl IH Hy]; simpl; [repeat constructor|].
  destruct (Z.ltb_spec (key x) (key y)).
  - constructor; [by constructor|].
    constructor; [lia|]. eapply Forall_impl; [exact Hy|]. simpl; lia.
  - constructor; [done|]. rewrite Forall_forall in Hy |- *.
    intros z Hz%elem_of_insert_before. destruct Hz as [->|Hz]; [lia|auto].
Qed.
End insert_before.

Lemma elem_of_klist_del x y l : y ∈ klist_del x l <-> y <> x /\ y ∈ l.
Proof. unfold klist_del. by rewrite list_elem_of_filter. Qed.

Lemma klist_del_NoDup x l : NoDup l -> NoDup (klist_del x l).
Proof. apply NoDup_filter. Qed.

Lemma klist_del_notin x l : x ∉ l -> klist_del x l = l.
Proof.
  induction l as [|y l IH]; intros Hx; [done|]. unfold klist_del in *.
  rewrite filter_cons_True by set_solver. f_equal. apply IH. set_solver.
Qed.

Lemma klist_del_head x l : x ∉ l -> klist_del x (x :: l) = l.
Proof.
  intros. unfold klist_del. rewrite filter_cons_False by naive_solver.
  by apply klist_del_notin.
Qed.

Lemma klist_del_length x l : NoDup l -> x ∈ l -> S (length (klist_del x l)) = length l.
Proof.
  induction 1 as [|y l Hy Hl IH]; intros Hx; [set_solver|].
  destruct (decide (y = x)) as [->|Hne].
  - by rewrite klist_del_head.
  - unfold klist_del in *. rewrite filter_cons_True by done. simpl.
    f_equal. apply IH. set_solver.
Qed.

Lemma StronglySorted_filter {A} (R : A -> A -> Prop) (P : A -> Prop) `{!forall x, Decision (P x)} l :
  StronglySorted R l -> StronglySorted R (filter P l).
Proof.
  induction 1 as [|y l Hl IH Hy]; [constructor|].
  rewrite filter_cons. case_decide; [|done].
  constructor; [done|]. rewrite Forall_forall in Hy |- *.
  intros z [_ Hz]%list_elem_of_filter. auto.
Qed.

Lemma StronglySorted_weaken {A} (R R' : A -> A -> Prop) l :
  (forall x y, x ∈ l -> y ∈ l -> R x y -> R' x y) -> StronglySorted R l -> StronglySorted R' l.
Proof.
  intros HR. induction 1 as [|y l Hl IH Hy]; [constructor|].
  constructor; [apply IH; set_solver|]. rewrite Forall_forall in Hy |- *.
  intros z Hz. apply HR; [set_solver|set_solver|auto].
Qed.

(** ** Pointwise updates

    The invariants speak of the tasks through total functions (where a task is
    ready, what it is blocked on), compared pointwise. *)

Definition fupd {A} (f : nat -> A) (t : nat) (v : A) : nat -> A :=
  fun u => if decide (u = t) then v else f u.

Lemma fupd_eq {A} (f : nat -> A) t v : fupd f t v t = v.
Proof. unfold fupd. by case_decide. Qed.

Lemma fupd_ne {A} (f : nat -> A) t u v : u <> t -> fupd f t v u = f u.
Proof. intros. unfold fupd. by case_decide. Qed.

Notation "f ≐ g" := (pointwise_relation nat eq f g) (at level 70, no associativity).

#[export] Instance fupd_Proper {A} :
  Proper (pointwise_relation nat eq ==> eq ==> eq ==> pointwise_relation nat eq) (@fupd A).
Proof. intros f g Hfg t ? <- v ? <- u. unfold fupd. case_decide; auto. Qed.

Lemma fupd_id {A} (f : nat -> A) t v : f t = v -> fupd f t v ≐ f.
Proof. intros H u. unfold fupd. case_decide; congruence. Qed.

Lemma fupd_fupd {A} (f : nat -> A) t v w : fupd (fupd f t v) t w ≐ fupd f t w.
Proof. intros u. unfold fupd. by case_decide. Qed.

Create HintDb rhino.
#[export] Hint Resolve klist_del_NoDup NoDup_insert_before : rhino.

(** ** Bit operations as arithmetic *)

(** [lia] with division and remainder *)
Ltac zlia := Z.to_euclidean_division_equations; lia.

Lemma land_ones_mod x n : 0 <= n -> Z.land x (Z.ones n) = x mod 2 ^ n.
Proof. apply Z.land_ones. Qed.

Lemma land_shiftl_small a b k : 0 <= k -> 0 <= a < 2 ^ k -> Z.land a (Z.shiftl b k) = 0.
Proof.
  intros Hk Ha. apply Z.bits_inj'. intros i Hi. rewrite Z.land_spec, Z.bits_0.
  destruct (Z.lt_ge_cases i k).
  - rewrite Z.shiftl_spec_low by done. apply andb_false_r.
  - replace (Z.testbit a i) with false; [done|]. symmetry.
    rewrite <- (Z.mod_small a (2 ^ k)) by done. apply Z.mod_pow2_bits_high. lia.
Qed.

(** an or of disjoint fields is a sum *)
Lemma lor_shiftl_add a b k : 0 <= k -> 0 <= a < 2 ^ k -> Z.lor a (Z.shiftl b k) = a + b * 2 ^ k.
Proof.
  intros Hk Ha. rewrite <- Z.shiftl_mul_pow2 by done.
  rewrite Z.add_nocarry_lxor by (by apply land_shiftl_small).
  symmetry. apply Z.lxor_lor. by apply land_shiftl_small.
Qed.

Lemma land_field x n k : 0 <= k -> 0 <= n ->
  Z.land x (Z.shiftl (Z.ones n) k) = ((x / 2 ^ k) mod 2 ^ n) * 2 ^ k.
Proof.
  intros Hk Hn. rewrite <- Z.shiftr_div_pow2, <- Z.land_ones, <- Z.shiftl_mul_pow2 by done.
  apply Z.bits_inj'. intros i Hi. rewrite Z.land_spec.
  destruct (Z.lt_ge_cases i k).
  - rewrite !Z.shiftl_spec_low by done. apply andb_false_r.
  - rewrite !Z.shiftl_spec_high, Z.land_spec, Z.shiftr_spec by lia.
    f_equal. f_equal. lia.
Qed.

(** ** Bit fields of a given width *)

Lemma in_width x n : 0 <= n -> 0 <= x < 2 ^ n <-> Z.land x (Z.ones n) = x.
Proof.
  intros Hn. rewrite land_ones_mod by done. split.
  - apply Z.mod_small.
  - intros <-. apply Z.mod_pos_bound. lia.
Qed.

Lemma lor_width x y n : 0 <= n -> 0 <= x < 2 ^ n -> 0 <= y < 2 ^ n -> 0 <= Z.lor x y < 2 ^ n.
Proof.
  intros Hn Hx Hy. apply in_width in Hx, Hy; [|done..]. apply in_width; [done|].
  by rewrite Z.land_lor_distr_l, Hx, Hy.
Qed.

Lemma land_width x y n : 0 <= n -> 0 <= x < 2 ^ n -> 0 <= Z.land x y < 2 ^ n.
Proof.
  intros Hn Hx. apply in_width in Hx; [|done]. apply in_width; [done|].
  by rewrite <- Z.land_assoc, (Z.land_comm y), Z.land_assoc, Hx.
Qed.

Lemma sum_list_with_const {A} (b : nat) (l : list A) : sum_list_with (fun _ => b) l = (length l * b)%nat.
Proof. induction l as [|x l IH]; [done|]. cbn. by rewrite IH. Qed.
