(* ===== verification/KList.v ===== *)
(** * The doubly linked list ([core/include/k_list.h])

    The lists of the kernel are circular, the head being a node of the list, and
    their nodes lie in the objects they link.  A store maps the address of a node
    to its two pointers; the operations are the writes of the code, in its order.
    [klist_rep h head l] says that the nodes [l] hang on [head] in this order.
    The other files work on the sequences; the theorems here say that the
    pointer operations do what [++], [klist_del] and [insert_before] do. *)

From S2P Require Import Prelude.

Record klist_t := mkNode { k_next : nat; k_prev : nat }.

Abbreviation store := (gmap nat klist_t).

(** ** The code *)

(** [a->next], [a->prev] and the writes to them *)
Definition next (h : store) (a : nat) : option nat := k_next <$> h !! a.
Definition prev (h : store) (a : nat) : option nat := k_prev <$> h !! a.
Definition set_next (a v : nat) (h : store) : option store :=
  n ← h !! a; Some (<[a := mkNode v (k_prev n)]> h).
Definition set_prev (a v : nat) (h : store) : option store :=
  n ← h !! a; Some (<[a := mkNode (k_next n) v]> h).

Definition klist_init (head : nat) (h : store) : option store :=
  h ← set_next head head h; set_prev head head h.

Definition is_klist_empty (head : nat) (h : store) : option bool :=
  n ← next h head; Some (bool_decide (n = head)).

Definition klist_insert (head element : nat) (h : store) : option store :=
  p ← prev h head;
  h ← set_prev element p h;
  h ← set_next element head h;
  p ← prev h head;
  h ← set_next p element h;
  set_prev head element h.

Definition klist_add (head element : nat) (h : store) : option store :=
  h ← set_prev element head h;
  n ← next h head;
  h ← set_next element n h;
  n ← next h head;
  h ← set_prev n element h;
  set_next head element h.

Definition klist_rm (element : nat) (h : store) : option store :=
  p ← prev h element;
  n ← next h element;
  h ← set_next p n h;
  n ← next h element;
  p ← prev h element;
  set_prev n p h.

Definition klist_rm_init (element : nat) (h : store) : option store :=
  h ← klist_rm element h;
  h ← set_prev element element h;
  set_next element element h.

(** [for (q = head->next; q != head; q = q->next) if (stop(q)) break;], the
    search of [tick_list_pri_insert], [pend_list_add] and [timer_list_pri_insert] *)
Fixpoint klist_search (fuel : nat) (stop : nat -> bool) (head q : nat) (h : store) : option nat :=
  match fuel with
  | O => None
  | S fuel =>
      if bool_decide (q = head) then Some q
      else if stop q then Some q
      else n ← next h q; klist_search fuel stop head n h
  end.

Definition klist_pri_insert (fuel : nat) (stop : nat -> bool) (head element : nat) (h : store) : option store :=
  q ← next h head;
  q ← klist_search fuel stop head q h;
  klist_insert q element h.

(** ** What a list represents *)

(** the nodes [l] lie between [x] and [y] *)
Fixpoint seg (h : store) (x : nat) (l : list nat) (y : nat) : Prop :=
  match l with
  | [] => next h x = Some y /\ prev h y = Some x
  | z :: l => next h x = Some z /\ prev h z = Some x /\ seg h z l y
  end.

Definition klist_rep (h : store) (head : nat) (l : list nat) : Prop :=
  NoDup (head :: l) /\ seg h head l head.

Fixpoint last_of (x : nat) (l : list nat) : nat :=
  match l with [] => x | z :: l => last_of z l end.

Lemma last_of_in x l : last_of x l ∈ x :: l.
Proof. revert x. induction l as [|z l IH]; intros x; cbn; [left|right; apply IH]. Qed.

Lemma seg_app h x l1 z l2 y : seg h x (l1 ++ z :: l2) y <-> seg h x l1 z /\ seg h z l2 y.
Proof. revert x. induction l1 as [|w l1 IH]; intros x; cbn; [tauto|]. rewrite IH. tauto. Qed.

Lemma seg_last h x l y : seg h x l y -> next h (last_of x l) = Some y /\ prev h y = Some (last_of x l).
Proof. revert x. induction l as [|z l IH]; intros x; cbn; [done|]. intros (_ & _ & H). by apply IH. Qed.

Lemma seg_first h x l y : seg h x l y -> next h x = Some (default y (head l)).
Proof. destruct l; cbn; tauto. Qed.

Lemma seg_ext h h' x l y :
  (forall a, a ∈ x :: l -> next h' a = next h a) -> (forall a, a ∈ l ++ [y] -> prev h' a = prev h a) ->
  seg h x l y -> seg h' x l y.
Proof.
  revert x. induction l as [|z l IH]; intros x Hn Hp; cbn.
  - intros [? ?]. rewrite Hn, Hp by set_solver. done.
  - intros (? & ? & ?). rewrite Hn, Hp by set_solver. split_and!; [done|done|]. apply IH; [set_solver|set_solver|done].
Qed.

(** the end of a segment is linked to another node *)
Lemma seg_retarget h h' x l y y' :
  seg h x l y -> NoDup (x :: l) -> next h' (last_of x l) = Some y' -> prev h' y' = Some (last_of x l) ->
  (forall a, a ∈ x :: l -> a <> last_of x l -> next h' a = next h a) -> (forall a, a ∈ l -> prev h' a = prev h a) ->
  seg h' x l y'.
Proof.
  revert x. induction l as [|z l IH]; intros x; cbn; [done|]. intros (H1 & H2 & H3) [Hx Hnd]%NoDup_cons Hln Hlp Hn Hp.
  assert (x <> last_of z l) by (intros ->; apply Hx, last_of_in).
  rewrite Hn, Hp by (done || set_solver). split_and!; [done|done|]. apply IH; try done.
  - intros a Ha. apply Hn. set_solver.
  - intros a Ha. apply Hp. set_solver.
Qed.

Lemma next_insert h a n b : next (<[a := n]> h) b = if decide (b = a) then Some (k_next n) else next h b.
Proof. unfold next. case_decide; subst; [by rewrite lookup_insert_eq|by rewrite lookup_insert_ne]. Qed.

Lemma prev_insert h a n b : prev (<[a := n]> h) b = if decide (b = a) then Some (k_prev n) else prev h b.
Proof. unfold prev. case_decide; subst; [by rewrite lookup_insert_eq|by rewrite lookup_insert_ne]. Qed.

(** the writes to the two fields, seen by the two reads *)
Lemma set_next_spec a v h : is_Some (h !! a) -> exists h', set_next a v h = Some h' /\
  (forall b, next h' b = if decide (b = a) then Some v else next h b) /\ (forall b, prev h' b = prev h b) /\
  (forall b, is_Some (h !! b) -> is_Some (h' !! b)).
Proof.
  intros [n Hn]. unfold set_next. rewrite Hn. eexists. split; [done|]. split_and!; intros b.
  - apply next_insert.
  - rewrite prev_insert. case_decide; [subst|done]. unfold prev. by rewrite Hn.
  - intros Hb. apply lookup_insert_is_Some'. by right.
Qed.

Lemma set_prev_spec a v h : is_Some (h !! a) -> exists h', set_prev a v h = Some h' /\
  (forall b, prev h' b = if decide (b = a) then Some v else prev h b) /\ (forall b, next h' b = next h b) /\
  (forall b, is_Some (h !! b) -> is_Some (h' !! b)).
Proof.
  intros [n Hn]. unfold set_prev. rewrite Hn. eexists. split; [done|]. split_and!; intros b.
  - apply prev_insert.
  - rewrite next_insert. case_decide; [subst|done]. unfold next. by rewrite Hn.
  - intros Hb. apply lookup_insert_is_Some'. by right.
Qed.

Lemma next_alloc h a b : next h a = Some b -> is_Some (h !! a).
Proof. unfold next. intros H. by destruct (h !! a). Qed.
Lemma prev_alloc h a b : prev h a = Some b -> is_Some (h !! a).
Proof. unfold prev. intros H. by destruct (h !! a). Qed.

(** membership goals; what is known of the store does not matter to them *)
Ltac lsolve :=
  repeat match goal with
  | H : seg _ _ _ _ |- _ => clear H
  | H : klist_rep _ _ _ |- _ => clear H
  | H : is_Some _ |- _ => clear H
  | H : _ = Some _ |- _ => clear H
  | H : forall b, _ = (if _ then _ else _) |- _ => clear H
  | H : forall b, is_Some _ -> _ |- _ => clear H
  | H := _ : nat |- _ => clearbody H
  | H : NoDup _ |- _ => clear H
  end; set_unfold; repeat split; intros; intuition (subst; eauto; congruence).

(** ** Insertion *)

Lemma klist_insert_writes h q p el :
  prev h q = Some p -> is_Some (h !! p) -> is_Some (h !! el) -> el <> q -> el <> p ->
  exists h', klist_insert q el h = Some h' /\
    (forall b, next h' b = if decide (b = p) then Some el else if decide (b = el) then Some q else next h b) /\
    (forall b, prev h' b = if decide (b = q) then Some el else if decide (b = el) then Some p else prev h b) /\
    (forall b, is_Some (h !! b) -> is_Some (h' !! b)).
Proof.
  intros Hq Hp He Heq Hep. unfold klist_insert. rewrite Hq. cbn [mbind option_bind].
  destruct (set_prev_spec el p h He) as (h1 & -> & P1 & N1 & A1). cbn [mbind option_bind].
  destruct (set_next_spec el q h1 (A1 _ He)) as (h2 & -> & N2 & P2 & A2). cbn [mbind option_bind].
  rewrite P2, P1, decide_False, Hq by congruence. cbn [mbind option_bind].
  destruct (set_next_spec p el h2 (A2 _ (A1 _ Hp))) as (h3 & -> & N3 & P3 & A3). cbn [mbind option_bind].
  destruct (set_prev_spec q el h3) as (h4 & -> & P4 & N4 & A4).
  { apply A3, A2, A1. by eapply prev_alloc. }
  exists h4. split; [done|]. split_and!; intros b.
  - rewrite N4, N3, N2, N1. done.
  - rewrite P4, P3, P2, P1. done.
  - intros Hb. by apply A4, A3, A2, A1.
Qed.

(** the node [q] before which a node is inserted when [l2] follows *)
Definition first_of (hd : nat) (l : list nat) : nat := default hd (head l).

Lemma klist_insert_rep h hd l1 l2 el :
  klist_rep h hd (l1 ++ l2) -> el ∉ hd :: l1 ++ l2 -> is_Some (h !! el) ->
  exists h', klist_insert (first_of hd l2) el h = Some h' /\ klist_rep h' hd (l1 ++ el :: l2) /\
    (forall b, b ∉ el :: hd :: l1 ++ l2 -> next h' b = next h b /\ prev h' b = prev h b) /\
    (forall b, is_Some (h !! b) -> is_Some (h' !! b)).
Proof.
  intros [Hnd Hseg] Hel He. set (q := first_of hd l2).
  assert (Hs1 : seg h hd l1 q) by (destruct l2; [by rewrite app_nil_r in Hseg|by apply seg_app in Hseg as [? _]]).
  destruct (seg_last _ _ _ _ Hs1) as [Hpn Hqp]. set (p := last_of hd l1) in *.
  assert (Hp : p ∈ hd :: l1) by apply last_of_in.
  assert (Hq : q ∈ hd :: l2) by (destruct l2; [left|right; left]).
  apply NoDup_cons in Hnd as [Hhd Hnd]. apply NoDup_app in Hnd as (Hnd1 & Hdis & Hnd2).
  destruct (klist_insert_writes h q p el) as (h' & E & N & P & A); [done|by eapply next_alloc|done|lsolve..|].
  assert (Hnd1' : NoDup (hd :: l1)) by (apply NoDup_cons; split; [lsolve|done]).
  assert (Hq1 : q ∉ l1) by (destruct l2; lsolve).
  exists h'. split; [done|]. split_and!; [|intros b Hb; rewrite N, P, !decide_False by lsolve; done|done].
  split.
  { rewrite <- Permutation_middle. apply NoDup_cons. split; [lsolve|]. apply NoDup_cons. split; [lsolve|].
    by apply NoDup_app. }
  apply seg_app. split.
  - eapply seg_retarget; [exact Hs1|done| | | |].
    + rewrite N. by rewrite decide_True.
    + rewrite P, decide_False by lsolve. by rewrite decide_True.
    + intros a Ha Hap. fold p in Hap. rewrite N, !decide_False by lsolve. done.
    + intros a Ha. rewrite P, !decide_False by lsolve. done.
  - subst q. destruct l2 as [|z l2]; cbn in P |- *.
    + rewrite N, P, decide_False by lsolve. rewrite !decide_True by done. done.
    + rewrite N, P, decide_False by lsolve. rewrite !decide_True by done. split_and!; [done|done|].
      apply seg_app in Hseg as [_ Hs2]. apply NoDup_cons in Hnd2 as [Hz Hnd2]. eapply seg_ext; [| |exact Hs2].
      * intros a Ha. rewrite N, !decide_False by lsolve. done.
      * intros a Ha. rewrite P, !decide_False by lsolve. done.
Qed.

(** ** Removal *)

Lemma klist_rm_writes h el p n :
  prev h el = Some p -> next h el = Some n -> is_Some (h !! p) -> is_Some (h !! n) -> el <> p ->
  exists h', klist_rm el h = Some h' /\
    (forall b, next h' b = if decide (b = p) then Some n else next h b) /\
    (forall b, prev h' b = if decide (b = n) then Some p else prev h b) /\
    (forall b, is_Some (h !! b) -> is_Some (h' !! b)).
Proof.
  intros Hp Hn Hpa Hna Hne. unfold klist_rm. rewrite Hp, Hn. cbn [mbind option_bind].
  destruct (set_next_spec p n h Hpa) as (h1 & -> & N1 & P1 & A1). cbn [mbind option_bind].
  rewrite N1, P1, decide_False, Hn, Hp by done. cbn [mbind option_bind].
  destruct (set_prev_spec n p h1 (A1 _ Hna)) as (h2 & -> & P2 & N2 & A2).
  exists h2. split; [done|]. split_and!; intros b; [by rewrite N2, N1|by rewrite P2, P1|auto].
Qed.

Lemma klist_rm_rep h hd l1 el l2 :
  klist_rep h hd (l1 ++ el :: l2) ->
  exists h', klist_rm el h = Some h' /\ klist_rep h' hd (l1 ++ l2) /\
    (forall b, b ∉ hd :: l1 ++ l2 -> next h' b = next h b /\ prev h' b = prev h b) /\
    (forall b, is_Some (h !! b) -> is_Some (h' !! b)).
Proof.
  intros [Hnd Hseg]. apply seg_app in Hseg as [Hs1 Hs2].
  destruct (seg_last _ _ _ _ Hs1) as [Hpn Hep]. set (p := last_of hd l1) in *.
  assert (Hp : p ∈ hd :: l1) by apply last_of_in. pose proof (seg_first _ _ _ _ Hs2) as Hen.
  set (n := default hd (head l2)) in *. assert (Hn : n ∈ hd :: l2) by (destruct l2; [left|right; left]).
  apply NoDup_cons in Hnd as [Hhd Hnd]. apply NoDup_app in Hnd as (Hnd1 & Hdis & [Hel2 Hnd2]%NoDup_cons).
  destruct (klist_rm_writes h el p n) as (h' & E & N & P & A); [done|done|by eapply next_alloc| |lsolve|].
  { destruct l2 as [|z l2]; cbn in Hs2; [destruct Hs2 as [_ Hs2]|destruct Hs2 as (_ & Hs2 & _)]; by eapply prev_alloc. }
  assert (Hnd1' : NoDup (hd :: l1)) by (apply NoDup_cons; split; [lsolve|done]).
  assert (Hn1 : n ∉ l1) by (destruct l2; lsolve).
  exists h'. split; [done|]. split_and!; [|intros b Hb; rewrite N, P, !decide_False by lsolve; done|done].
  assert (Hs1' : seg h' hd l1 n).
  { eapply seg_retarget; [exact Hs1|done| | | |].
    - rewrite N. by rewrite decide_True.
    - rewrite P. by rewrite decide_True.
    - intros a Ha Hap. rewrite N, decide_False by done. done.
    - intros a Ha. rewrite P, decide_False by lsolve. done. }
  split.
  { apply NoDup_cons. split; [lsolve|]. apply NoDup_app. split_and!; [done|lsolve|done]. }
  destruct l2 as [|z l2]; [by rewrite app_nil_r|]. apply seg_app. split; [done|]. assert (Enz : n = z) by done. clearbody n.
  destruct Hs2 as (_ & _ & Hs2). apply NoDup_cons in Hnd2 as [Hz Hnd2]. eapply seg_ext; [| |exact Hs2].
  - intros a Ha. rewrite N, decide_False by lsolve. done.
  - intros a Ha. rewrite P, decide_False by lsolve. done.
Qed.

(** ** The sequences of the other files *)

Lemma klist_init_rep h hd : is_Some (h !! hd) -> exists h', klist_init hd h = Some h' /\ klist_rep h' hd [].
Proof.
  intros Ha. unfold klist_init. destruct (set_next_spec hd hd h Ha) as (h1 & -> & N1 & P1 & A1). cbn [mbind option_bind].
  destruct (set_prev_spec hd hd h1 (A1 _ Ha)) as (h2 & -> & P2 & N2 & A2). exists h2. split; [done|].
  split; [apply NoDup_singleton|]. cbn. by rewrite N2, N1, P2, !decide_True.
Qed.

Lemma is_klist_empty_rep h hd l : klist_rep h hd l -> is_klist_empty hd h = Some (bool_decide (l = [])).
Proof.
  intros [Hnd Hs]. unfold is_klist_empty. rewrite (seg_first _ _ _ _ Hs). cbn. f_equal.
  destruct l as [|z l]; [by rewrite !bool_decide_eq_true_2|]. rewrite !bool_decide_eq_false_2; [done|done|].
  cbn. intros ->. apply NoDup_cons in Hnd as [Hn _]. lsolve.
Qed.

(** [klist_insert(head, x)] puts [x] at the end *)
Lemma klist_insert_tail h hd l el : klist_rep h hd l -> el ∉ hd :: l -> is_Some (h !! el) ->
  exists h', klist_insert hd el h = Some h' /\ klist_rep h' hd (l ++ [el]).
Proof.
  intros H Hel Ha. destruct (klist_insert_rep h hd l [] el) as (h' & E & H' & _); [by rewrite app_nil_r..|done|].
  by exists h'.
Qed.

Lemma klist_del_split l1 x l2 : NoDup (l1 ++ x :: l2) -> klist_del x (l1 ++ x :: l2) = l1 ++ l2.
Proof.
  intros Hnd. apply NoDup_app in Hnd as (_ & Hdis & [Hx _]%NoDup_cons).
  unfold klist_del. rewrite filter_app. fold (klist_del x l1) (klist_del x (x :: l2)).
  rewrite klist_del_head by done. f_equal. apply klist_del_notin. intros H. apply (Hdis x H). left.
Qed.

(** [klist_rm(x)] is [klist_del x] *)
Lemma klist_rm_del h hd l el : klist_rep h hd l -> el ∈ l ->
  exists h', klist_rm el h = Some h' /\ klist_rep h' hd (klist_del el l).
Proof.
  intros H (l1 & l2 & ->)%list_elem_of_split. destruct (klist_rm_rep _ _ _ _ _ H) as (h' & E & H' & _). exists h'.
  split; [done|]. rewrite klist_del_split; [done|]. destruct H as [Hnd _]. by apply NoDup_cons in Hnd as [_ ?].
Qed.

(** the search stops where [insert_before] does *)
Lemma klist_search_spec h hd stop l1 l2 fuel :
  klist_rep h hd (l1 ++ l2) -> (length l2 < fuel)%nat ->
  exists m1 m2, l2 = m1 ++ m2 /\ klist_search fuel stop hd (first_of hd l2) h = Some (first_of hd m2) /\
    forall el, insert_before stop el l2 = m1 ++ el :: m2.
Proof.
  revert l1 l2. induction fuel as [|fuel IH]; intros l1 l2 H Hf; [lia|]. cbn [klist_search].
  destruct l2 as [|z l2]; [change (first_of hd []) with hd|change (first_of hd (z :: l2)) with z].
  - rewrite bool_decide_eq_true_2 by done. by exists [], [].
  - destruct H as [Hnd Hs]. rewrite bool_decide_eq_false_2.
    2: { intros ->. apply NoDup_cons in Hnd as [Hn _]. lsolve. }
    destruct (stop z) eqn:Ez.
    + exists [], (z :: l2). split_and!; try done. intros el. cbn. by rewrite Ez.
    + pose proof Hs as Hs'. apply seg_app in Hs' as [_ Hs']. rewrite (seg_first _ _ _ _ Hs'). cbn [mbind option_bind].
      destruct (IH (l1 ++ [z]) l2) as (m1 & m2 & -> & E & Hi); [by split; rewrite <- app_assoc|cbn in Hf; lia|].
      exists (z :: m1), m2. split_and!; [done|exact E|]. intros el. cbn. by rewrite Ez, Hi.
Qed.

(** the sorted insertions of the kernel are [insert_before] *)
Lemma klist_pri_insert_rep h hd stop l el fuel :
  klist_rep h hd l -> el ∉ hd :: l -> is_Some (h !! el) -> (length l < fuel)%nat ->
  exists h', klist_pri_insert fuel stop hd el h = Some h' /\ klist_rep h' hd (insert_before stop el l).
Proof.
  intros H Hel Ha Hf. unfold klist_pri_insert. rewrite (seg_first _ _ _ _ (proj2 H)). cbn [mbind option_bind].
  destruct (klist_search_spec h hd stop [] l fuel H Hf) as (m1 & m2 & -> & E & Hi). fold (first_of hd (m1 ++ m2)). rewrite E.
  cbn [mbind option_bind]. destruct (klist_insert_rep h hd m1 m2 el H Hel Ha) as (h' & E' & H' & _). exists h'.
  split; [done|]. by rewrite Hi.
Qed.

(** [klist_add(head, x)] puts [x] in front *)
Lemma klist_add_rep h hd l el : klist_rep h hd l -> el ∉ hd :: l -> is_Some (h !! el) ->
  exists h', klist_add hd el h = Some h' /\ klist_rep h' hd (el :: l).
Proof.
  intros [Hnd Hs] Hel Ha. pose proof (seg_first _ _ _ _ Hs) as Hn. set (n := default hd (head l)) in *.
  assert (Hnin : n ∈ hd :: l) by (destruct l; [left|right; left]).
  assert (Hna : is_Some (h !! n)).
  { destruct l as [|z l]; cbn in Hs; [destruct Hs as [_ Hs]|destruct Hs as (_ & Hs & _)]; by eapply prev_alloc. }
  unfold klist_add. destruct (set_prev_spec el hd h Ha) as (h1 & -> & P1 & N1 & A1). cbn [mbind option_bind].
  rewrite N1, Hn. cbn [mbind option_bind].
  destruct (set_next_spec el n h1 (A1 _ Ha)) as (h2 & -> & N2 & P2 & A2). cbn [mbind option_bind].
  rewrite N2, N1, decide_False, Hn by lsolve. cbn [mbind option_bind].
  destruct (set_prev_spec n el h2 (A2 _ (A1 _ Hna))) as (h3 & -> & P3 & N3 & A3). cbn [mbind option_bind].
  destruct (set_next_spec hd el h3) as (h4 & -> & N4 & P4 & A4); [by eapply A3, A2, A1, next_alloc|].
  exists h4. split; [done|]. split.
  { apply NoDup_cons in Hnd as [? ?]. apply NoDup_cons. split; [lsolve|]. apply NoDup_cons. split; [lsolve|done]. }
  assert (HN : forall b, next h4 b = if decide (b = hd) then Some el else if decide (b = el) then Some n else next h b)
    by (intros b; by rewrite N4, N3, N2, N1).
  assert (HP : forall b, prev h4 b = if decide (b = n) then Some el else if decide (b = el) then Some hd else prev h b)
    by (intros b; by rewrite P4, P3, P2, P1).
  apply NoDup_cons in Hnd as [Hhd Hnd]. cbn [seg]. rewrite HN, HP, decide_True by done. rewrite decide_False, decide_True by (done || lsolve).
  split_and!; [done|done|]. destruct l as [|z l]; cbn in Hs |- *;
    [assert (En : n = hd) by done|assert (En : n = z) by done]; clearbody n.
  - rewrite HN, HP, decide_False by lsolve. rewrite !decide_True by done. by rewrite ?En.
  - rewrite HN, HP, decide_False by lsolve. rewrite !decide_True by done. split_and!; [by rewrite ?En..|].
    destruct Hs as (_ & _ & Hs). apply NoDup_cons in Hnd as [Hz Hnd]. eapply seg_ext; [| |exact Hs].
    + intros a Ha'. rewrite HN, !decide_False by lsolve. done.
    + intros a Ha'. rewrite HP, !decide_False by lsolve. done.
Qed.
