(* ===== verification/Config.v ===== *)
(** * Configuration, status codes and enumerations of the kernel

    The values of [csky/csi_kernel/rhino/arch/include/k_config.h], of
    [csky/configs/csi_config.h], which it includes, and of the
    enumerations of [core/include/k_err.h], [k_obj.h], [k_task.h] and
    [k_sched.h].  The build has one CPU ([RHINO_CONFIG_CPU_NUM] = 1). *)

From S2P Require Import Prelude.

Definition RHINO_CONFIG_PRI_MAX : Z := 62.
Definition RHINO_IDLE_PRI : Z := RHINO_CONFIG_PRI_MAX - 1.
Definition RHINO_CONFIG_TIME_SLICE_DEFAULT : Z := 5.
Definition RHINO_CONFIG_INTRPT_MAX_NESTED_LEVEL : Z := 188.
Definition RHINO_CONFIG_TICKS_PER_SECOND : Z := 1000.
Definition SCHED_MAX_LOCK_COUNT : Z := 200.
Definition KSCHED_FIFO : Z := 0.
Definition KSCHED_RR : Z := 1.
Definition K_OBJ_STATIC_ALLOC : Z := 1.
Definition K_OBJ_DYN_ALLOC : Z := 2.
Definition RHINO_NO_WAIT : Z := 0.
(** [RHINO_CONFIG_64_BIT_TYPE] is 1: [tick_t] and [sys_time_t] have 64 bits. *)
Definition RHINO_WAIT_FOREVER : Z := 2 ^ 64 - 1.

(** [kstat_t], [k_err.h] *)
Inductive kstat_t : Set :=
  | RHINO_SUCCESS
  | RHINO_SYS_FATAL_ERR
  | RHINO_SYS_SP_ERR
  | RHINO_RUNNING
  | RHINO_STOPPED
  | RHINO_INV_PARAM
  | RHINO_NULL_PTR
  | RHINO_INV_ALIGN
  | RHINO_KOBJ_TYPE_ERR
  | RHINO_KOBJ_DEL_ERR
  | RHINO_KOBJ_DOCKER_EXIST
  | RHINO_KOBJ_BLK
  | RHINO_KOBJ_SET_FULL
  | RHINO_NOTIFY_FUNC_EXIST
  | RHINO_MM_POOL_SIZE_ERR
  | RHINO_MM_ALLOC_SIZE_ERR
  | RHINO_MM_FREE_ADDR_ERR
  | RHINO_MM_CORRUPT_ERR
  | RHINO_DYN_MEM_PROC_ERR
  | RHINO_NO_MEM
  | RHINO_RINGBUF_FULL
  | RHINO_RINGBUF_EMPTY
  | RHINO_SCHED_DISABLE
  | RHINO_SCHED_ALREADY_ENABLED
  | RHINO_SCHED_LOCK_COUNT_OVF
  | RHINO_INV_SCHED_WAY
  | RHINO_TASK_INV_STACK_SIZE
  | RHINO_TASK_NOT_SUSPENDED
  | RHINO_TASK_DEL_NOT_ALLOWED
  | RHINO_TASK_SUSPEND_NOT_ALLOWED
  | RHINO_SUSPENDED_COUNT_OVF
  | RHINO_BEYOND_MAX_PRI
  | RHINO_PRI_CHG_NOT_ALLOWED
  | RHINO_INV_TASK_STATE
  | RHINO_IDLE_TASK_EXIST
  | RHINO_NO_PEND_WAIT
  | RHINO_BLK_ABORT
  | RHINO_BLK_TIMEOUT
  | RHINO_BLK_DEL
  | RHINO_BLK_INV_STATE
  | RHINO_BLK_POOL_SIZE_ERR
  | RHINO_TIMER_STATE_INV
  | RHINO_NO_THIS_EVENT_OPT
  | RHINO_BUF_QUEUE_INV_SIZE
  | RHINO_BUF_QUEUE_SIZE_ZERO
  | RHINO_BUF_QUEUE_FULL
  | RHINO_BUF_QUEUE_MSG_SIZE_OVERFLOW
  | RHINO_QUEUE_FULL
  | RHINO_QUEUE_NOT_FULL
  | RHINO_SEM_OVF
  | RHINO_SEM_TASK_WAITING
  | RHINO_MUTEX_NOT_RELEASED_BY_OWNER
  | RHINO_MUTEX_OWNER_NESTED
  | RHINO_MUTEX_NESTED_OVF
  | RHINO_INTRPT_NESTED_LEVEL_OVERFLOW
  | RHINO_INV_INTRPT_NESTED_LEVEL
  | RHINO_NOT_CALLED_BY_INTRPT
  | RHINO_TRY_AGAIN
  | RHINO_WORKQUEUE_EXIST
  | RHINO_WORKQUEUE_NOT_EXIST
  | RHINO_WORKQUEUE_WORK_EXIST
  | RHINO_WORKQUEUE_BUSY
  | RHINO_WORKQUEUE_WORK_RUNNING
  | RHINO_TASK_STACK_OVF
  | RHINO_INTRPT_STACK_OVF.

#[export] Instance kstat_eq_dec : EqDecision kstat_t.
Proof. solve_decision. Defined.

(** the numeric value the enumeration gives each status *)
Definition kstat_code (e : kstat_t) : Z :=
  match e with
  | RHINO_SUCCESS => 0
  | RHINO_SYS_FATAL_ERR => 1
  | RHINO_SYS_SP_ERR => 2
  | RHINO_RUNNING => 3
  | RHINO_STOPPED => 4
  | RHINO_INV_PARAM => 5
  | RHINO_NULL_PTR => 6
  | RHINO_INV_ALIGN => 7
  | RHINO_KOBJ_TYPE_ERR => 8
  | RHINO_KOBJ_DEL_ERR => 9
  | RHINO_KOBJ_DOCKER_EXIST => 10
  | RHINO_KOBJ_BLK => 11
  | RHINO_KOBJ_SET_FULL => 12
  | RHINO_NOTIFY_FUNC_EXIST => 13
  | RHINO_MM_POOL_SIZE_ERR => 100
  | RHINO_MM_ALLOC_SIZE_ERR => 101
  | RHINO_MM_FREE_ADDR_ERR => 102
  | RHINO_MM_CORRUPT_ERR => 103
  | RHINO_DYN_MEM_PROC_ERR => 104
  | RHINO_NO_MEM => 105
  | RHINO_RINGBUF_FULL => 106
  | RHINO_RINGBUF_EMPTY => 107
  | RHINO_SCHED_DISABLE => 200
  | RHINO_SCHED_ALREADY_ENABLED => 201
  | RHINO_SCHED_LOCK_COUNT_OVF => 202
  | RHINO_INV_SCHED_WAY => 203
  | RHINO_TASK_INV_STACK_SIZE => 300
  | RHINO_TASK_NOT_SUSPENDED => 301
  | RHINO_TASK_DEL_NOT_ALLOWED => 302
  | RHINO_TASK_SUSPEND_NOT_ALLOWED => 303
  | RHINO_SUSPENDED_COUNT_OVF => 304
  | RHINO_BEYOND_MAX_PRI => 305
  | RHINO_PRI_CHG_NOT_ALLOWED => 306
  | RHINO_INV_TASK_STATE => 307
  | RHINO_IDLE_TASK_EXIST => 308
  | RHINO_NO_PEND_WAIT => 400
  | RHINO_BLK_ABORT => 401
  | RHINO_BLK_TIMEOUT => 402
  | RHINO_BLK_DEL => 403
  | RHINO_BLK_INV_STATE => 404
  | RHINO_BLK_POOL_SIZE_ERR => 405
  | RHINO_TIMER_STATE_INV => 500
  | RHINO_NO_THIS_EVENT_OPT => 600
  | RHINO_BUF_QUEUE_INV_SIZE => 700
  | RHINO_BUF_QUEUE_SIZE_ZERO => 701
  | RHINO_BUF_QUEUE_FULL => 702
  | RHINO_BUF_QUEUE_MSG_SIZE_OVERFLOW => 703
  | RHINO_QUEUE_FULL => 704
  | RHINO_QUEUE_NOT_FULL => 705
  | RHINO_SEM_OVF => 800
  | RHINO_SEM_TASK_WAITING => 801
  | RHINO_MUTEX_NOT_RELEASED_BY_OWNER => 900
  | RHINO_MUTEX_OWNER_NESTED => 901
  | RHINO_MUTEX_NESTED_OVF => 902
  | RHINO_INTRPT_NESTED_LEVEL_OVERFLOW => 1000
  | RHINO_INV_INTRPT_NESTED_LEVEL => 1001
  | RHINO_NOT_CALLED_BY_INTRPT => 1002
  | RHINO_TRY_AGAIN => 1003
  | RHINO_WORKQUEUE_EXIST => 1100
  | RHINO_WORKQUEUE_NOT_EXIST => 1101
  | RHINO_WORKQUEUE_WORK_EXIST => 1102
  | RHINO_WORKQUEUE_BUSY => 1103
  | RHINO_WORKQUEUE_WORK_RUNNING => 1104
  | RHINO_TASK_STACK_OVF => 1200
  | RHINO_INTRPT_STACK_OVF => 1201
  end.

Lemma kstat_code_inj : Inj eq eq kstat_code.
Proof. intros a b H. destruct a, b; (reflexivity || discriminate H). Qed.

(** [task_stat_t], [k_task.h] *)
Inductive task_stat_t : Set :=
  | K_SEED | K_RDY | K_PEND | K_SUSPENDED | K_PEND_SUSPENDED
  | K_SLEEP | K_SLEEP_SUSPENDED | K_DELETED.

#[export] Instance task_stat_eq_dec : EqDecision task_stat_t.
Proof. solve_decision. Defined.

(** [blk_policy_t], [blk_state_t], [kobj_type_t], [k_obj.h] *)
Inductive blk_policy_t : Set := BLK_POLICY_PRI | BLK_POLICY_FIFO.

#[export] Instance blk_policy_eq_dec : EqDecision blk_policy_t.
Proof. solve_decision. Defined.

Inductive blk_state_t : Set :=
  | BLK_FINISH | BLK_ABORT | BLK_TIMEOUT | BLK_DEL | BLK_INVALID.

#[export] Instance blk_state_eq_dec : EqDecision blk_state_t.
Proof. solve_decision. Defined.

Inductive kobj_type_t : Set :=
  | RHINO_OBJ_TYPE_NONE | RHINO_SEM_OBJ_TYPE | RHINO_MUTEX_OBJ_TYPE
  | RHINO_QUEUE_OBJ_TYPE | RHINO_BUF_QUEUE_OBJ_TYPE | RHINO_TIMER_OBJ_TYPE
  | RHINO_EVENT_OBJ_TYPE | RHINO_MM_BLK_OBJ_TYPE | RHINO_MM_OBJ_TYPE.

#[export] Instance kobj_type_eq_dec : EqDecision kobj_type_t.
Proof. solve_decision. Defined.
