(* ===== verification/RingBuf.v ===== *)
(** * The byte ring buffer of the message queues ([core/k_ringbuf.c])

    A [k_ringbuf_t] is a byte array with a head and a tail.  In mode
    [RINGBUF_TYPE_FIX] it holds blocks of one size, in mode [RINGBUF_TYPE_DYN]
    messages preceded by a one- to three-byte length.  Pointers into the array
    are offsets from [buf]; [end - buf] is the length of the array.  A [memcpy]
    outside the array (or past the end of the caller's buffer) gives [None].
    The theorems say that both modes implement a first-in first-out queue. *)

From S2P Require Import Prelude Config.

#[local] Open Scope nat_scope.

Inductive ringbuf_type : Set := RINGBUF_TYPE_FIX | RINGBUF_TYPE_DYN.

(** [sizeof(void * )] on the target *)
Definition sizeof_ptr : nat := 4.

Definition RINGBUF_LEN_MAX_SIZE : nat := 3.
Definition RINGBUF_LEN_MASK_ONEBIT : Z := 0x80.
Definition RINGBUF_LEN_MASK_TWOBIT : Z := 0xC0.
Definition RINGBUF_LEN_MASK_CLEAN_TWOBIT : Z := 0x3f.
Definition RINGBUF_LEN_VLE_2BYTES : Z := 0x80.
Definition RINGBUF_LEN_VLE_3BYTES : Z := 0xC0.
Definition RINGBUF_LEN_1BYTE_MAXVALUE : Z := 0x7f.
Definition RINGBUF_LEN_2BYTES_MAXVALUE : Z := 0x3fff.
Definition RINGBUF_LEN_3BYTES_MAXVALUE : Z := 0x3fffff.

Record k_ringbuf_t := mkRing {
  rb_mem : list Z;       (** the bytes from [buf] to [end] *)
  rb_head : nat;         (** [head - buf] *)
  rb_tail : nat;         (** [tail - buf] *)
  rb_freesize : nat;
  rb_type : ringbuf_type;
  rb_blk_size : nat
}.

Definition rb_end (r : k_ringbuf_t) : nat := length (rb_mem r).
Definition with_mem m r := mkRing m (rb_head r) (rb_tail r) (rb_freesize r) (rb_type r) (rb_blk_size r).
Definition with_head h r := mkRing (rb_mem r) h (rb_tail r) (rb_freesize r) (rb_type r) (rb_blk_size r).
Definition with_tail t r := mkRing (rb_mem r) (rb_head r) t (rb_freesize r) (rb_type r) (rb_blk_size r).
Definition with_free f r := mkRing (rb_mem r) (rb_head r) (rb_tail r) f (rb_type r) (rb_blk_size r).

(** [memcpy] into and out of a byte array *)
Definition mem_write (m : list Z) (off : nat) (d : list Z) : option (list Z) :=
  if off + length d <=? length m then Some (take off m ++ d ++ drop (off + length d) m) else None.
Definition mem_read (m : list Z) (off n : nat) : option (list Z) :=
  if off + n <=? length m then Some (take n (drop off m)) else None.

Definition memcpy_in (r : k_ringbuf_t) (off : nat) (d : list Z) : option k_ringbuf_t :=
  m ← mem_write (rb_mem r) off d; Some (with_mem m r).

Definition ringbuf_reset (r : k_ringbuf_t) : kstat_t * k_ringbuf_t :=
  (RHINO_SUCCESS, with_free (rb_end r) (with_tail 0 (with_head 0 r))).

Definition ringbuf_init (buf : list Z) (type : ringbuf_type) (block_size : nat) : k_ringbuf_t :=
  snd (ringbuf_reset (mkRing buf 0 0 0 type block_size)).

Definition ringbuf_is_full (r : k_ringbuf_t) : bool :=
  match rb_type r with
  | RINGBUF_TYPE_DYN => rb_freesize r <? 2
  | RINGBUF_TYPE_FIX => rb_freesize r <? rb_blk_size r
  end.

Definition ringbuf_is_empty (r : k_ringbuf_t) : bool := rb_freesize r =? rb_end r.

(** ** The length header *)

(** [krhino_ntohl] on a little-endian CPU, [k_endian.h] *)
Definition krhino_ntohl (x : Z) : Z :=
  Z.lor (Z.lor (u32 (Z.shiftl (Z.land x 0x000000ff) 24)) (Z.shiftl (Z.land x 0x0000ff00) 8))
        (Z.lor (Z.shiftr (Z.land x 0x00ff0000) 8) (Z.shiftr (Z.land x 0xff000000) 24)).

(** byte [i] of a 32-bit word in memory *)
Definition byte_of (x : Z) (i : nat) : Z := Z.land (Z.shiftr x (8 * Z.of_nat i)) 0xff.

(** the 32-bit word stored in four bytes *)
Definition word_of (b : list Z) : Z :=
  match b with
  | [b0; b1; b2; b3] => Z.lor (Z.lor b0 (Z.shiftl b1 8)) (Z.lor (Z.shiftl b2 16) (Z.shiftl b3 24))
  | _ => 0%Z
  end.

(** [COMPRESS_LEN]: over three bytes it is the status code [RHINO_INV_PARAM] *)
Definition COMPRESS_LEN (x : Z) : nat :=
  if (x <=? RINGBUF_LEN_1BYTE_MAXVALUE)%Z then 1
  else if (x <=? RINGBUF_LEN_2BYTES_MAXVALUE)%Z then 2
  else if (x <=? RINGBUF_LEN_3BYTES_MAXVALUE)%Z then 3
  else Z.to_nat (kstat_code RHINO_INV_PARAM).

Definition ringbuf_headlen_compress (head_len : Z) : nat * list Z :=
  let be_len := krhino_ntohl head_len in
  let p_len := byte_of be_len in
  let len_bytes := COMPRESS_LEN head_len in
  (len_bytes,
   if len_bytes =? 1 then [Z.land RINGBUF_LEN_1BYTE_MAXVALUE (p_len 3); 0%Z; 0%Z]
   else if len_bytes =? 2 then [Z.lor RINGBUF_LEN_VLE_2BYTES (p_len 2); p_len 3; 0%Z]
   else if len_bytes =? 3 then [Z.lor RINGBUF_LEN_VLE_3BYTES (p_len 1); p_len 2; p_len 3]
   else [0%Z; 0%Z; 0%Z]).

Definition ringbuf_headlen_decompress (buf_len : nat) (cmp_buf : list Z) : Z :=
  let len_buf := replicate (4 - buf_len) 0%Z ++ take buf_len cmp_buf in
  let len_buf := if 1 <? buf_len
                 then alter (fun b => Z.land b RINGBUF_LEN_MASK_CLEAN_TWOBIT) (4 - buf_len) len_buf
                 else len_buf in
  krhino_ntohl (word_of len_buf).

(** ** Push and pop *)

(** if (tail == end) tail = buf *)
Definition wrap_tail (r : k_ringbuf_t) : k_ringbuf_t :=
  if rb_tail r =? rb_end r then with_tail 0 r else r.
Definition wrap_head (r : k_ringbuf_t) : k_ringbuf_t :=
  if rb_head r =? rb_end r then with_head 0 r else r.

(** "copy length data to buffer" *)
Definition ringbuf_push_header (r : k_ringbuf_t) (c_len : list Z) (len_bytes : nat)
    : option k_ringbuf_t :=
  let split_len := rb_end r - rb_tail r in
  '(r, len_bytes, split_len) ←
    (if (rb_head r <=? rb_tail r) && (split_len <? len_bytes) && (0 <? split_len) then
       r ← memcpy_in r (rb_tail r) (take split_len c_len);
       let r := with_tail 0 r in
       Some (with_free (rb_freesize r - split_len) r, len_bytes - split_len, split_len)
     else Some (r, len_bytes, 0));
  if 0 <? len_bytes then
    r ← memcpy_in r (rb_tail r) (take len_bytes (drop split_len c_len));
    let r := with_free (rb_freesize r - len_bytes) r in
    Some (with_tail (rb_tail r + len_bytes) r)
  else Some r.

(** "copy data to ringbuf, if break by buffer end, split data and copy to buffer head" *)
Definition ringbuf_push_data (r : k_ringbuf_t) (data : list Z) (len : nat) : option k_ringbuf_t :=
  let r := wrap_tail r in
  let split_len := rb_end r - rb_tail r in
  '(r, data, len) ←
    (if (rb_head r <=? rb_tail r) && (split_len <? len) && (0 <? split_len) then
       d ← mem_read data 0 split_len;
       r ← memcpy_in r (rb_tail r) d;
       let r := with_tail 0 r in
       Some (with_free (rb_freesize r - split_len) r, drop split_len data, len - split_len)
     else Some (r, data, len));
  d ← mem_read data 0 len;
  r ← memcpy_in r (rb_tail r) d;
  let r := with_tail (rb_tail r + len) r in
  Some (with_free (rb_freesize r - len) r).

Definition ringbuf_push (r : k_ringbuf_t) (data : list Z) (len : nat)
    : option (kstat_t * k_ringbuf_t) :=
  if ringbuf_is_full r then Some (RHINO_RINGBUF_FULL, r) else
  match rb_type r with
  | RINGBUF_TYPE_FIX =>
      let r := wrap_tail r in
      d ← mem_read data 0 (rb_blk_size r);
      r ← memcpy_in r (rb_tail r) d;
      let r := with_tail (rb_tail r + rb_blk_size r) r in
      let r := with_free (rb_freesize r - rb_blk_size r) r in
      Some (RHINO_SUCCESS, r)
  | RINGBUF_TYPE_DYN =>
      let '(len_bytes, c_len) := ringbuf_headlen_compress (Z.of_nat len) in
      if (len_bytes =? 0) || (RINGBUF_LEN_MAX_SIZE <? len_bytes) then Some (RHINO_INV_PARAM, r)
      else if rb_freesize r <? len_bytes + len then Some (RHINO_RINGBUF_FULL, r)
      else
        r ← ringbuf_push_header (wrap_tail r) c_len len_bytes;
        r ← ringbuf_push_data r data len;
        Some (RHINO_SUCCESS, r)
  end.

(** how many bytes the length takes, from its first byte *)
Definition ringbuf_len_bytes (h0 : Z) : option nat :=
  if (Z.land h0 RINGBUF_LEN_MASK_ONEBIT =? 0)%Z then Some 1
  else if (Z.land h0 RINGBUF_LEN_MASK_TWOBIT =? RINGBUF_LEN_VLE_2BYTES)%Z then Some 2
  else if (Z.land h0 RINGBUF_LEN_MASK_TWOBIT =? RINGBUF_LEN_VLE_3BYTES)%Z then Some 3
  else None.

(** the bytes of the length, read around the end of the array *)
Definition ringbuf_pop_header (r : k_ringbuf_t) (len_bytes : nat) : option (k_ringbuf_t * list Z) :=
  let split_len := rb_end r - rb_head r in
  '(r, c_len, split_len) ←
    (if (split_len <? len_bytes) && (0 <? split_len) then
       c ← mem_read (rb_mem r) (rb_head r) split_len;
       let r := with_head 0 r in
       Some (with_free (rb_freesize r + split_len) r, c, split_len)
     else Some (r, [], 0));
  if 0 <? len_bytes - split_len then
    c ← mem_read (rb_mem r) (rb_head r) (len_bytes - split_len);
    let r := with_head (rb_head r + (len_bytes - split_len)) r in
    Some (with_free (rb_freesize r + (len_bytes - split_len)) r, c_len ++ c)
  else Some (r, c_len).

(** the [len] bytes of the message *)
Definition ringbuf_pop_data (r : k_ringbuf_t) (len : nat) : option (k_ringbuf_t * list Z) :=
  let r := wrap_head r in
  let split_len := rb_end r - rb_head r in
  '(r, data, len) ←
    (if (rb_tail r <? rb_head r) && (split_len <? len) then
       d ← mem_read (rb_mem r) (rb_head r) split_len;
       let r := with_head 0 r in
       Some (with_free (rb_freesize r + split_len) r, d, len - split_len)
     else Some (r, [], len));
  d ← mem_read (rb_mem r) (rb_head r) len;
  let r := with_head (rb_head r + len) r in
  Some (with_free (rb_freesize r + len) r, data ++ d).

(** [Some (stat, r, data, len)]: the bytes stored through [pdata] and the value
    stored through [plen] (both [None] where the code stores nothing). *)
Definition ringbuf_pop (r : k_ringbuf_t)
    : option (kstat_t * k_ringbuf_t * option (list Z) * option nat) :=
  if ringbuf_is_empty r then Some (RHINO_RINGBUF_EMPTY, r, None, None) else
  match rb_type r with
  | RINGBUF_TYPE_FIX =>
      let r := wrap_head r in
      d ← mem_read (rb_mem r) (rb_head r) (rb_blk_size r);
      let r := with_head (rb_head r + rb_blk_size r) r in
      let r := with_free (rb_freesize r + rb_blk_size r) r in
      Some (RHINO_SUCCESS, r, Some d, Some (rb_blk_size r))
  | RINGBUF_TYPE_DYN =>
      let r := wrap_head r in
      (* decode length *)
      h0 ← rb_mem r !! rb_head r;
      match ringbuf_len_bytes h0 with
      | None => Some (RHINO_INV_PARAM, r, None, None)
      | Some len_bytes =>
          '(r, c_len) ← ringbuf_pop_header r len_bytes;
          let plen := Z.to_nat (ringbuf_headlen_decompress len_bytes c_len) in
          '(r, data) ← ringbuf_pop_data r plen;
          Some (RHINO_SUCCESS, r, Some data, Some plen)
      end
  end.

Example dyn_roundtrip :
  let r := ringbuf_init (replicate 8 0%Z) RINGBUF_TYPE_DYN 0 in
  (r ← snd <$> ringbuf_push r [1; 2; 3; 4]%Z 4;
   r ← (fun x => x.1.1.2) <$> ringbuf_pop r;
   r ← snd <$> ringbuf_push r [5; 6; 7; 8; 9]%Z 5;
   ringbuf_pop r) =
  Some (RHINO_SUCCESS, mkRing [7; 8; 9; 3; 4; 5; 5; 6]%Z 3 3 8 RINGBUF_TYPE_DYN 0,
        Some [5; 6; 7; 8; 9]%Z, Some 5).
Proof. vm_compute. reflexivity. Qed.

(** ** What the array holds

    [rb_ok r bytes]: reading from [head] around the end of the array gives
    [bytes], and [tail] is where they stop. *)

Definition ring_idx (n x : nat) : nat := if x <? n then x else x - n.

Record rb_ok (r : k_ringbuf_t) (bytes : list Z) : Prop := {
  ok_size : 0 < rb_end r;
  ok_head : rb_head r <= rb_end r;
  ok_tail : rb_tail r <= rb_end r;
  ok_free : length bytes + rb_freesize r = rb_end r;
  ok_wrap : rb_head r + length bytes = rb_tail r
            \/ rb_head r + length bytes = rb_tail r + rb_end r
            \/ rb_head r + length bytes = rb_tail r + 2 * rb_end r
            \/ rb_head r + length bytes + rb_end r = rb_tail r;
  ok_bytes : forall i, i < length bytes ->
             rb_mem r !! ring_idx (rb_end r) (rb_head r + i) = bytes !! i
}.

Ltac ring_cases := unfold ring_idx in *; repeat case_match;
  repeat match goal with
  | H : (_ <? _) = true |- _ => apply Nat.ltb_lt in H
  | H : (_ <? _) = false |- _ => apply Nat.ltb_ge in H
  | H : (_ =? _) = true |- _ => apply Nat.eqb_eq in H
  | H : (_ =? _) = false |- _ => apply Nat.eqb_neq in H
  end.

Lemma mem_write_spec m off d :
  off + length d <= length m ->
  exists m', mem_write m off d = Some m' /\ length m' = length m /\
    (forall i, off <= i < off + length d -> m' !! i = d !! (i - off)) /\
    (forall i, ~ (off <= i < off + length d) -> m' !! i = m !! i).
Proof.
  intros Hl. unfold mem_write. rewrite (proj2 (Nat.leb_le _ _) Hl).
  eexists; split; [done|]. split_and!.
  - rewrite !length_app, length_take, length_drop. lia.
  - intros i Hi. rewrite lookup_app_r by (rewrite length_take; lia).
    rewrite length_take, lookup_app_l by lia. f_equal. lia.
  - intros i Hi. destruct (decide (i < off)).
    + rewrite lookup_app_l by (rewrite length_take; lia). by rewrite lookup_take_lt.
    + rewrite lookup_app_r by (rewrite length_take; lia).
      rewrite length_take, lookup_app_r by lia. rewrite lookup_drop. f_equal. lia.
Qed.

Lemma mem_read_spec m off n :
  off + n <= length m -> mem_read m off n = Some (take n (drop off m)).
Proof. intros H. unfold mem_read. by rewrite (proj2 (Nat.leb_le _ _) H). Qed.

(** writing a chunk at the tail appends it *)
Lemma rb_put r bytes d :
  rb_ok r bytes -> rb_tail r + length d <= rb_end r -> rb_tail r < rb_end r ->
  length d <= rb_freesize r ->
  exists m, memcpy_in r (rb_tail r) d = Some (with_mem m r) /\ length m = rb_end r /\
    rb_ok (mkRing m (rb_head r) (rb_tail r + length d) (rb_freesize r - length d)
             (rb_type r) (rb_blk_size r)) (bytes ++ d).
Proof.
  intros [Hs Hh Ht Hf Hw Hb] Hl Hlt Hd.
  destruct (mem_write_spec (rb_mem r) (rb_tail r) d Hl) as (m & E & Hlen & Hin & Hout).
  exists m. unfold memcpy_in. rewrite E. split; [done|]. split; [done|].
  unfold rb_end in *. split; simpl in *; unfold rb_end; simpl; rewrite ?length_app, ?Hlen; [lia..|].
  intros i Hi. destruct (decide (i < length bytes)) as [Hlo|Hlo].
  - rewrite lookup_app_l, <- Hb by done. apply Hout. ring_cases; lia.
  - rewrite lookup_app_r by lia. rewrite Hin by (ring_cases; lia).
    f_equal. ring_cases; lia.
Qed.

(** reading a chunk at the head removes it *)
Lemma rb_get r d bytes :
  rb_ok r (d ++ bytes) -> rb_head r + length d <= rb_end r ->
  mem_read (rb_mem r) (rb_head r) (length d) = Some d /\
  rb_ok (mkRing (rb_mem r) (rb_head r + length d) (rb_tail r) (rb_freesize r + length d)
           (rb_type r) (rb_blk_size r)) bytes.
Proof.
  intros [Hs Hh Ht Hf Hw Hb] Hl. rewrite length_app in *. split.
  - rewrite mem_read_spec by done. f_equal. apply list_eq_same_length with (length d).
    + done.
    + rewrite length_take, length_drop. unfold rb_end in *. lia.
    + intros i x y Hi Hx Hy. rewrite lookup_take_lt, lookup_drop in Hx by done.
      specialize (Hb i ltac:(lia)). rewrite lookup_app_l in Hb by done.
      replace (ring_idx (rb_end r) (rb_head r + i)) with (rb_head r + i) in Hb
        by (ring_cases; lia). congruence.
  - unfold rb_end in *. split; unfold rb_end in *; simpl in *; [lia..|].
    intros i Hi. specialize (Hb (length d + i) ltac:(lia)).
    rewrite lookup_app_r in Hb by lia. replace (length d + i - length d) with i in Hb by lia.
    rewrite <- Hb. f_equal. ring_cases; lia.
Qed.

Lemma rb_wrap_tail r bytes :
  rb_ok r bytes -> rb_ok (wrap_tail r) bytes /\ rb_tail (wrap_tail r) < rb_end (wrap_tail r).
Proof.
  intros H. pose proof H as [Hs Hh Ht Hf Hw Hb]. unfold wrap_tail.
  destruct (Nat.eqb_spec (rb_tail r) (rb_end r)) as [E|E].
  - split; [|done]. split; simpl; unfold rb_end in *; simpl in *; (lia || done).
  - split; [done|lia].
Qed.

Lemma rb_wrap_head r bytes :
  rb_ok r bytes -> rb_ok (wrap_head r) bytes /\ rb_head (wrap_head r) < rb_end (wrap_head r).
Proof.
  intros H. pose proof H as [Hs Hh Ht Hf Hw Hb]. unfold wrap_head.
  destruct (Nat.eqb_spec (rb_head r) (rb_end r)) as [E|E]; [|split; [done|lia]].
  split; [|done]. split; simpl; unfold rb_end in *; simpl in *; [lia..|].
  intros i Hi. rewrite <- Hb by done. f_equal. ring_cases; lia.
Qed.

(** a head left at the end of the array, moved to the start *)
Lemma rb_head_end r bytes :
  rb_ok r bytes -> rb_head r = rb_end r -> rb_ok (with_head 0 r) bytes.
Proof.
  intros H E. destruct (rb_wrap_head r bytes H) as [H' _]. unfold wrap_head in H'.
  by rewrite (proj2 (Nat.eqb_eq _ _) E) in H'.
Qed.

Lemma rb_tail_end r bytes :
  rb_ok r bytes -> rb_tail r = rb_end r -> rb_ok (with_tail 0 r) bytes.
Proof.
  intros H E. destruct (rb_wrap_tail r bytes H) as [H' _]. unfold wrap_tail in H'.
  by rewrite (proj2 (Nat.eqb_eq _ _) E) in H'.
Qed.

Lemma wrap_fields r :
  rb_end (wrap_tail r) = rb_end r /\ rb_freesize (wrap_tail r) = rb_freesize r /\
  rb_type (wrap_tail r) = rb_type r /\ rb_blk_size (wrap_tail r) = rb_blk_size r /\
  rb_end (wrap_head r) = rb_end r /\ rb_freesize (wrap_head r) = rb_freesize r /\
  rb_type (wrap_head r) = rb_type r /\ rb_blk_size (wrap_head r) = rb_blk_size r.
Proof. unfold wrap_tail, wrap_head. by repeat case_match. Qed.

Lemma ringbuf_init_ok buf type blk :
  0 < length buf -> rb_ok (ringbuf_init buf type blk) [].
Proof. intros. split; simpl; unfold rb_end; simpl; lia. Qed.

Lemma ringbuf_reset_ok r bytes : rb_ok r bytes -> rb_ok (snd (ringbuf_reset r)) [].
Proof. intros [? ? ? ? ? ?]. split; simpl; unfold rb_end in *; simpl; lia. Qed.

Lemma ringbuf_is_empty_spec r bytes : rb_ok r bytes -> ringbuf_is_empty r = true <-> bytes = [].
Proof.
  intros [? ? ? ? ? ?]. unfold ringbuf_is_empty. rewrite Nat.eqb_eq.
  rewrite <- length_zero_iff_nil. lia.
Qed.

(** ** The header determines the length *)

(** the four bytes of a word, least significant first *)
Lemma ntohl_bytes b0 b1 b2 b3 :
  (0 <= b0 < 256 -> 0 <= b1 < 256 -> 0 <= b2 < 256 -> 0 <= b3 < 256 ->
   krhino_ntohl (b0 + b1 * 2 ^ 8 + b2 * 2 ^ 16 + b3 * 2 ^ 24) =
   b3 + b2 * 2 ^ 8 + b1 * 2 ^ 16 + b0 * 2 ^ 24)%Z.
Proof.
  intros H0 H1 H2 H3. unfold krhino_ntohl, u32.
  change 0xff%Z with (Z.shiftl (Z.ones 8) 0). change 0xff00%Z with (Z.shiftl (Z.ones 8) 8).
  change 0xff0000%Z with (Z.shiftl (Z.ones 8) 16). change 0xff000000%Z with (Z.shiftl (Z.ones 8) 24).
  rewrite !land_field by lia.
  set (x := (b0 + _ + _ + _)%Z).
  replace (x / 2 ^ 0 mod 2 ^ 8)%Z with b0 by (subst x; zlia).
  replace (x / 2 ^ 8 mod 2 ^ 8)%Z with b1 by (subst x; zlia).
  replace (x / 2 ^ 16 mod 2 ^ 8)%Z with b2 by (subst x; zlia).
  replace (x / 2 ^ 24 mod 2 ^ 8)%Z with b3 by (subst x; zlia).
  rewrite !Z.shiftr_div_pow2 by lia.
  replace (b3 * 2 ^ 24 / 2 ^ 24)%Z with b3 by zlia.
  replace (b2 * 2 ^ 16 / 2 ^ 8)%Z with (Z.shiftl b2 8) by (rewrite Z.shiftl_mul_pow2; zlia).
  replace (Z.shiftl (b0 * 2 ^ 0) 24 mod 2 ^ 32)%Z with (Z.shiftl b0 24)
    by (rewrite !Z.shiftl_mul_pow2 by lia; zlia).
  replace (Z.shiftl (b1 * 2 ^ 8) 8) with (Z.shiftl b1 16) by (rewrite !Z.shiftl_mul_pow2; lia).
  rewrite (Z.lor_comm (Z.shiftl b2 8)), (Z.lor_comm (Z.shiftl b0 24)), Z.lor_comm.
  rewrite (lor_shiftl_add b3 b2 8) by lia.
  rewrite Z.lor_assoc, (lor_shiftl_add _ b1 16) by lia.
  rewrite lor_shiftl_add by lia. lia.
Qed.

Lemma byte_of_bytes b0 b1 b2 b3 i b :
  (0 <= b0 < 256)%Z -> (0 <= b1 < 256)%Z -> (0 <= b2 < 256)%Z -> (0 <= b3 < 256)%Z ->
  [b0; b1; b2; b3] !! i = Some b ->
  byte_of (b0 + b1 * 2 ^ 8 + b2 * 2 ^ 16 + b3 * 2 ^ 24)%Z i = b.
Proof.
  intros H0 H1 H2 H3. unfold byte_of. change 0xff%Z with (Z.ones 8).
  rewrite Z.land_ones, Z.shiftr_div_pow2 by lia.
  destruct i as [|[|[|[|i]]]]; simpl; intros [= <-]; zlia.
Qed.

Lemma word_of_bytes b0 b1 b2 b3 :
  (0 <= b0 < 256 -> 0 <= b1 < 256 -> 0 <= b2 < 256 -> 0 <= b3 < 256 ->
   word_of [b0; b1; b2; b3] = b0 + b1 * 2 ^ 8 + b2 * 2 ^ 16 + b3 * 2 ^ 24)%Z.
Proof.
  intros H0 H1 H2 H3. simpl. rewrite Z.lor_assoc.
  rewrite (lor_shiftl_add b0 b1 8), (lor_shiftl_add _ b2 16), lor_shiftl_add by lia. lia.
Qed.

Lemma split_bytes x : (0 <= x < 2 ^ 22)%Z ->
  exists b0 b1 b2, (0 <= b0 < 256 /\ 0 <= b1 < 256 /\ 0 <= b2 < 64 /\
    x = b0 + b1 * 2 ^ 8 + b2 * 2 ^ 16 + 0 * 2 ^ 24)%Z.
Proof.
  intros Hx. exists (x mod 256)%Z, (x / 256 mod 256)%Z, (x / 65536)%Z. zlia.
Qed.

(** the tag bits of the first byte *)
Lemma tag_byte tag b : (tag = 0x80 \/ tag = 0xC0)%Z -> (0 <= b < 64)%Z ->
  Z.lor tag b = (tag + b)%Z /\ Z.land (tag + b) RINGBUF_LEN_MASK_CLEAN_TWOBIT = b /\
  Z.land (tag + b) RINGBUF_LEN_MASK_TWOBIT = tag /\ Z.land (tag + b) RINGBUF_LEN_MASK_ONEBIT = 0x80%Z.
Proof.
  intros Ht Hb. unfold RINGBUF_LEN_MASK_CLEAN_TWOBIT, RINGBUF_LEN_MASK_TWOBIT, RINGBUF_LEN_MASK_ONEBIT.
  change 0x3f%Z with (Z.ones 6). rewrite Z.land_ones by lia.
  replace 0xC0%Z with (Z.shiftl (Z.ones 2) 6) by done.
  replace 0x80%Z with (Z.shiftl (Z.ones 1) 7) at 1 by done.
  rewrite !land_field by lia. split; [|zlia].
  rewrite Z.lor_comm. destruct Ht as [-> | ->].
  - replace 0x80%Z with (Z.shiftl 2 6) by done. rewrite lor_shiftl_add by lia.
    rewrite Z.shiftl_mul_pow2; lia.
  - replace 0xC0%Z with (Z.shiftl 3 6) by done. rewrite lor_shiftl_add by lia.
    rewrite Z.shiftl_mul_pow2; lia.
Qed.

(** the first [len_bytes] bytes of the header determine its size and the length *)
Lemma headlen_spec len :
  (Z.of_nat len <= RINGBUF_LEN_3BYTES_MAXVALUE)%Z ->
  exists n c h0 c', ringbuf_headlen_compress (Z.of_nat len) = (n, c) /\ 1 <= n <= 3 /\ length c = 3 /\
    take n c = h0 :: c' /\ ringbuf_len_bytes h0 = Some n /\
    ringbuf_headlen_decompress n (take n c) = Z.of_nat len.
Proof.
  unfold RINGBUF_LEN_3BYTES_MAXVALUE. intros Hl.
  destruct (split_bytes (Z.of_nat len)) as (b0 & b1 & b2 & H0 & H1 & H2 & E); [lia|].
  unfold ringbuf_headlen_compress, COMPRESS_LEN, RINGBUF_LEN_1BYTE_MAXVALUE,
    RINGBUF_LEN_2BYTES_MAXVALUE, RINGBUF_LEN_3BYTES_MAXVALUE.
  rewrite (proj2 (Z.leb_le _ 0x3fffff)) by lia.
  assert (Hp : forall i b, [0; b2; b1; b0]%Z !! i = Some b -> byte_of (krhino_ntohl (Z.of_nat len)) i = b).
  { intros i b Hi. rewrite E, ntohl_bytes by lia. apply byte_of_bytes; [lia..|done]. }
  rewrite (Hp 3 b0), (Hp 2 b1), (Hp 1 b2) by done.
  destruct (Z.leb_spec (Z.of_nat len) 0x7f); [|destruct (Z.leb_spec (Z.of_nat len) 0x3fff)]; simpl.
  - assert (Hb : Z.land 0x7f b0 = b0).
    { rewrite Z.land_comm. change 0x7f%Z with (Z.ones 7). rewrite Z.land_ones by lia. zlia. }
    rewrite Hb. exists 1, [b0; 0%Z; 0%Z], b0, []. split_and!; try done; try lia.
    + unfold ringbuf_len_bytes, RINGBUF_LEN_MASK_ONEBIT.
      change 0x80%Z with (Z.shiftl (Z.ones 1) 7). rewrite land_field by lia.
      by replace ((b0 / 2 ^ 7) mod 2 ^ 1 * 2 ^ 7)%Z with 0%Z by zlia.
    + cbv [ringbuf_headlen_decompress]. simpl app. cbn [Nat.ltb Nat.leb].
      rewrite word_of_bytes, ntohl_bytes by lia. lia.
  - destruct (tag_byte 0x80 b1) as (T1 & T2 & T3 & T4); [by left|lia|].
    unfold RINGBUF_LEN_VLE_2BYTES. rewrite T1.
    exists 2, [0x80 + b1; b0; 0]%Z, (0x80 + b1)%Z, [b0]. split_and!; try done; try lia.
    + unfold ringbuf_len_bytes. by rewrite T4, T3.
    + cbv [ringbuf_headlen_decompress]. simpl app. cbn [Nat.ltb Nat.leb Nat.sub alter list_alter].
      rewrite T2, word_of_bytes, ntohl_bytes by lia. lia.
  - destruct (tag_byte 0xC0 b2) as (T1 & T2 & T3 & T4); [by right|lia|].
    unfold RINGBUF_LEN_VLE_3BYTES. rewrite T1.
    exists 3, [0xC0 + b2; b1; b0]%Z, (0xC0 + b2)%Z, [b1; b0]. split_and!; try done; try lia.
    + unfold ringbuf_len_bytes. by rewrite T4, T3.
    + cbv [ringbuf_headlen_decompress]. simpl app. cbn [Nat.ltb Nat.leb Nat.sub alter list_alter].
      rewrite T2, word_of_bytes, ntohl_bytes by lia. lia.
Qed.

(** ** First in, first out *)

Lemma rb_put_mem r bytes d :
  rb_ok r bytes -> rb_tail r + length d <= rb_end r -> rb_tail r < rb_end r ->
  length d <= rb_freesize r ->
  exists m, mem_write (rb_mem r) (rb_tail r) d = Some m /\ length m = rb_end r /\
    rb_ok (mkRing m (rb_head r) (rb_tail r + length d) (rb_freesize r - length d)
             (rb_type r) (rb_blk_size r)) (bytes ++ d).
Proof.
  intros H Hl Ht Hd. destruct (rb_put r bytes d H Hl Ht Hd) as (m & E & Hm & Hok).
  exists m. unfold memcpy_in in E. by destruct (mem_write _ _ _) as [m'|]; simplify_eq/=.
Qed.

(** a chunk that does not fit before the end of the array goes in two pieces *)
Lemma rb_put_split r bytes d :
  rb_ok r bytes -> rb_tail r < rb_end r -> length d <= rb_freesize r ->
  if (rb_head r <=? rb_tail r) && (rb_end r - rb_tail r <? length d) && (0 <? rb_end r - rb_tail r)
  then exists m1 m2,
    mem_write (rb_mem r) (rb_tail r) (take (rb_end r - rb_tail r) d) = Some m1 /\ length m1 = rb_end r /\
    mem_write m1 0 (drop (rb_end r - rb_tail r) d) = Some m2 /\ length m2 = rb_end r /\
    rb_ok (mkRing m2 (rb_head r) (length d - (rb_end r - rb_tail r)) (rb_freesize r - length d)
             (rb_type r) (rb_blk_size r)) (bytes ++ d)
  else exists m,
    mem_write (rb_mem r) (rb_tail r) d = Some m /\ length m = rb_end r /\
    rb_ok (mkRing m (rb_head r) (rb_tail r + length d) (rb_freesize r - length d)
             (rb_type r) (rb_blk_size r)) (bytes ++ d).
Proof.
  intros H Ht Hd. pose proof H as [Hs Hh Ht' Hf Hw Hb].
  destruct ((rb_head r <=? rb_tail r) && _ && _) eqn:C.
  - apply andb_true_iff in C as [[C1%Nat.leb_le C2%Nat.ltb_lt]%andb_true_iff C3%Nat.ltb_lt].
    set (s := rb_end r - rb_tail r) in *.
    assert (Hlen : length (take s d) = s) by (rewrite length_take; lia).
    destruct (rb_put_mem r bytes (take s d)) as (m1 & E1 & Hm1 & H1); [done|lia..|].
    rewrite Hlen in H1. apply rb_tail_end in H1; [|unfold rb_end in *; simpl; lia].
    unfold with_tail in H1; simpl in H1.
    destruct (rb_put_mem _ _ (drop s d) H1) as (m2 & E2 & Hm2 & H2);
      unfold rb_end in *; simpl in *; rewrite ?length_drop in *; [lia..|].
    exists m1, m2. split_and!; [done..|lia|].
    rewrite <- app_assoc, take_drop in H2.
    replace (rb_freesize r - length d) with (rb_freesize r - s - (length d - s)) by lia. done.
  - apply rb_put_mem; [done| |done|done].
    destruct (Nat.leb_spec (rb_head r) (rb_tail r)); simpl in C; [|lia].
    destruct (Nat.ltb_spec (rb_end r - rb_tail r) (length d)); simpl in C; [|lia].
    apply Nat.ltb_ge in C. lia.
Qed.

(** the bytes of a message in mode [RINGBUF_TYPE_DYN] *)
Definition dyn_header (len : nat) : list Z :=
  let '(n, c) := ringbuf_headlen_compress (Z.of_nat len) in take n c.
Definition dyn_encode (m : list Z) : list Z := dyn_header (length m) ++ m.

Definition dyn_msg (m : list Z) : Prop :=
  1 <= length m /\ (Z.of_nat (length m) <= RINGBUF_LEN_3BYTES_MAXVALUE)%Z.

(** [dyn_rep r ms]: the ring holds the messages [ms], oldest first *)
Definition dyn_rep (r : k_ringbuf_t) (ms : list (list Z)) : Prop :=
  rb_type r = RINGBUF_TYPE_DYN /\ Forall dyn_msg ms /\ rb_ok r (mjoin (dyn_encode <$> ms)).

Definition fix_rep (r : k_ringbuf_t) (ms : list (list Z)) : Prop :=
  rb_type r = RINGBUF_TYPE_FIX /\ 0 < rb_blk_size r /\
  (rb_blk_size r | rb_end r) /\ (rb_blk_size r | rb_head r) /\ (rb_blk_size r | rb_tail r) /\
  Forall (fun m => length m = rb_blk_size r) ms /\ rb_ok r (mjoin ms).

Lemma mjoin_snoc {A} (ls : list (list A)) l : mjoin (ls ++ [l]) = mjoin ls ++ l.
Proof. induction ls as [|l' ls IH]; simpl; [by rewrite app_nil_r|]. by rewrite IH, app_assoc. Qed.

Lemma take_drop_take {A} (a b : nat) (l : list A) : a <= b -> drop a (take b l) = take (b - a) (drop a l).
Proof.
  intros. replace b with (a + (b - a)) at 1 by lia. symmetry. apply firstn_skipn_comm.
Qed.

Lemma push_header_spec r bytes c n :
  rb_ok r bytes -> rb_tail r < rb_end r -> n <= rb_freesize r -> 1 <= n <= length c ->
  exists r', ringbuf_push_header r c n = Some r' /\ rb_ok r' (bytes ++ take n c) /\
    rb_freesize r' = rb_freesize r - n /\ rb_type r' = rb_type r.
Proof.
  intros Hok Ht Hf Hn. assert (Hlt : length (take n c) = n) by (rewrite length_take; lia).
  pose proof (rb_put_split r bytes (take n c) Hok Ht ltac:(lia)) as Hp. rewrite Hlt in Hp.
  unfold ringbuf_push_header. set (s := rb_end r - rb_tail r) in *.
  destruct (_ && _ && _) eqn:C.
  - apply andb_true_iff in C as [[C1%Nat.leb_le C2%Nat.ltb_lt]%andb_true_iff C3%Nat.ltb_lt].
    destruct Hp as (m1 & m2 & E1 & L1 & E2 & L2 & Hr).
    rewrite take_take, Nat.min_l in E1 by lia. rewrite take_drop_take in E2 by lia.
    unfold memcpy_in. rewrite E1. cbn -[Nat.ltb]. rewrite (proj2 (Nat.ltb_lt 0 (n - s))) by lia. cbn. rewrite E2. cbn.
    eexists; split; [done|]. split; [|split; [simpl; lia|done]].
    by replace (rb_freesize r - s - (n - s)) with (rb_freesize r - n) by lia.
  - destruct Hp as (m & E & L & Hr). cbn -[Nat.ltb]. rewrite (proj2 (Nat.ltb_lt 0 n)) by lia.
    unfold memcpy_in. rewrite drop_0, E. cbn. eauto.
Qed.

Lemma push_data_spec r bytes d :
  rb_ok r bytes -> length d <= rb_freesize r ->
  exists r', ringbuf_push_data r d (length d) = Some r' /\ rb_ok r' (bytes ++ d) /\
    rb_freesize r' = rb_freesize r - length d /\ rb_type r' = rb_type r.
Proof.
  intros Hok0 Hf. destruct (rb_wrap_tail r _ Hok0) as [Hok Ht].
  destruct (wrap_fields r) as (F1 & F2 & F3 & F4 & _).
  unfold ringbuf_push_data. rewrite <- F3. rewrite <- F2 in Hf |- *. set (r1 := wrap_tail r) in *. clearbody r1.
  pose proof (rb_put_split r1 bytes d Hok Ht ltac:(lia)) as Hp.
  set (s := rb_end r1 - rb_tail r1) in *. destruct (_ && _ && _) eqn:C.
  - apply andb_true_iff in C as [[C1%Nat.leb_le C2%Nat.ltb_lt]%andb_true_iff C3%Nat.ltb_lt].
    destruct Hp as (m1 & m2 & E1 & L1 & E2 & L2 & Hr).
    rewrite mem_read_spec by lia. cbn -[mem_read]. rewrite drop_0. unfold memcpy_in. rewrite E1. cbn -[mem_read].
    rewrite mem_read_spec by (rewrite length_drop; lia). cbn. rewrite drop_0.
    rewrite take_ge by (rewrite length_drop; lia). rewrite E2. cbn.
    eexists; split; [done|]. split; [|split; [simpl; lia|done]].
    by replace (rb_freesize r1 - s - (length d - s)) with (rb_freesize r1 - length d) by lia.
  - destruct Hp as (m & E & L & Hr). cbn -[mem_read]. rewrite mem_read_spec by lia. cbn.
    rewrite drop_0, take_ge by lia. unfold memcpy_in. rewrite E. cbn. eauto.
Qed.

Lemma dyn_push_spec r ms m :
  dyn_rep r ms -> dyn_msg m ->
  if length (dyn_encode m) <=? rb_freesize r
  then exists r', ringbuf_push r m (length m) = Some (RHINO_SUCCESS, r') /\ dyn_rep r' (ms ++ [m]) /\
       rb_freesize r' = rb_freesize r - length (dyn_encode m)
  else ringbuf_push r m (length m) = Some (RHINO_RINGBUF_FULL, r).
Proof.
  intros (Hty & Hms & Hok) [Hm1 Hm2].
  destruct (headlen_spec (length m) Hm2) as (n & c & h0 & c' & E & Hn & Hc & Hh & Hcl & Hdec).
  assert (Henc : dyn_encode m = take n c ++ m) by (unfold dyn_encode, dyn_header; by rewrite E).
  assert (Hlen : length (dyn_encode m) = n + length m).
  { rewrite Henc, length_app, length_take. lia. }
  rewrite Hlen. unfold ringbuf_push, ringbuf_is_full. rewrite Hty, E. unfold RINGBUF_LEN_MAX_SIZE.
  rewrite (proj2 (Nat.eqb_neq n 0)), (proj2 (Nat.ltb_ge 3 n)) by lia. cbn [orb].
  destruct (Nat.leb_spec (n + length m) (rb_freesize r)) as [Hfit|Hfit]; last first.
  { destruct (Nat.ltb_spec (rb_freesize r) 2); [done|]. by rewrite (proj2 (Nat.ltb_lt _ _) Hfit). }
  rewrite (proj2 (Nat.ltb_ge _ 2)), (proj2 (Nat.ltb_ge _ _) Hfit) by lia.
  destruct (rb_wrap_tail r _ Hok) as [Hok1 Ht1]. destruct (wrap_fields r) as (_ & F2 & F3 & _).
  destruct (push_header_spec (wrap_tail r) _ c n Hok1 Ht1) as (r2 & E2 & Hok2 & G2 & G3); [lia..|].
  rewrite E2. cbn [mbind option_bind].
  destruct (push_data_spec r2 _ m Hok2) as (r3 & E3 & Hok3 & I2 & I3); [lia|].
  rewrite E3. cbn. exists r3. split; [done|]. split; [|lia]. split; [congruence|].
  split; [by apply Forall_app; repeat constructor|].
  rewrite fmap_app, list_fmap_singleton, mjoin_snoc, Henc. by rewrite app_assoc.
Qed.

Lemma pop_header_spec r h bytes n :
  rb_ok r (h ++ bytes) -> rb_head r < rb_end r -> length h = n -> 1 <= n ->
  exists r', ringbuf_pop_header r n = Some (r', h) /\ rb_ok r' bytes /\
    rb_freesize r' = rb_freesize r + n /\ rb_type r' = rb_type r /\ rb_end r' = rb_end r.
Proof.
  intros Hok Hlt Hn Hn1. unfold ringbuf_pop_header. set (s := rb_end r - rb_head r) in *.
  destruct (Nat.ltb_spec s n) as [C|C]; cbn [andb].
  - rewrite (proj2 (Nat.ltb_lt 0 s)) by lia.
    rewrite <- (take_drop s h), <- app_assoc in Hok.
    assert (Hls : length (take s h) = s) by (rewrite length_take; lia).
    destruct (rb_get _ _ _ Hok) as [G1 G2]; [lia|]. rewrite Hls in G1, G2. rewrite G1.
    cbn -[Nat.ltb mem_read]. rewrite (proj2 (Nat.ltb_lt 0 (n - s))) by lia.
    apply rb_head_end in G2; [|unfold rb_end in *; simpl; lia]. unfold with_head in G2; simpl in G2.
    destruct (rb_get _ _ _ G2) as [G3 G4].
    { simpl. unfold rb_end in *; simpl. destruct Hok. rewrite !length_app, Hls in ok_free0.
      unfold rb_end in *. lia. }
    rewrite length_drop, Hn in G3, G4. simpl in G3, G4. rewrite G3. cbn. rewrite take_drop.
    eexists; split; [done|]. split_and!; [done|simpl; lia|done|done].
  - cbn -[Nat.ltb mem_read]. rewrite Nat.sub_0_r, (proj2 (Nat.ltb_lt 0 n)) by lia.
    destruct (rb_get _ _ _ Hok) as [G1 G2]; [lia|]. rewrite Hn in G1, G2. rewrite G1. cbn.
    eexists; split; [done|]. by split_and!.
Qed.

Lemma pop_data_spec r d bytes :
  rb_ok r (d ++ bytes) -> 1 <= length d -> 1 <= rb_freesize r ->
  exists r', ringbuf_pop_data r (length d) = Some (r', d) /\ rb_ok r' bytes /\
    rb_freesize r' = rb_freesize r + length d /\ rb_type r' = rb_type r /\ rb_end r' = rb_end r.
Proof.
  intros Hok0 Hd Hf. destruct (rb_wrap_head r _ Hok0) as [Hok Hlt].
  destruct (wrap_fields r) as (_ & _ & _ & _ & F1 & F2 & F3 & F4).
  unfold ringbuf_pop_data. rewrite <- F3. rewrite <- F2 in Hf |- *. rewrite <- F1.
  set (r1 := wrap_head r) in *. clearbody r1. clear F1 F2 F3 F4 Hok0.
  pose proof Hok as [Hs Hh Ht Hfr Hw _]. rewrite length_app in *.
  set (s := rb_end r1 - rb_head r1) in *.
  destruct ((rb_tail r1 <? rb_head r1) && (s <? length d)) eqn:C.
  - apply andb_true_iff in C as [C1%Nat.ltb_lt C2%Nat.ltb_lt].
    rewrite <- (take_drop s d), <- app_assoc in Hok.
    assert (Hls : length (take s d) = s) by (rewrite length_take; lia).
    destruct (rb_get _ _ _ Hok) as [G1 G2]; [lia|]. rewrite Hls in G1, G2. rewrite G1. cbn -[mem_read].
    apply rb_head_end in G2; [|unfold rb_end in *; simpl; lia]. unfold with_head in G2; simpl in G2.
    destruct (rb_get _ _ _ G2) as [G3 G4].
    { unfold rb_end in *; simpl. rewrite length_drop. lia. }
    rewrite length_drop in G3, G4. simpl in G3, G4. rewrite G3. cbn. rewrite take_drop.
    eexists; split; [done|]. split_and!; [done|simpl; lia|done|done].
  - cbn -[mem_read]. assert (Hroom : rb_head r1 + length d <= rb_end r1).
    { destruct (Nat.ltb_spec (rb_tail r1) (rb_head r1)); simpl in C; [|lia].
      apply Nat.ltb_ge in C. lia. }
    destruct (rb_get _ _ _ Hok Hroom) as [G1 G2]. rewrite G1. cbn.
    eexists; split; [done|]. by split_and!.
Qed.

Lemma dyn_pop_spec r m ms :
  dyn_rep r (m :: ms) ->
  exists r', ringbuf_pop r = Some (RHINO_SUCCESS, r', Some m, Some (length m)) /\ dyn_rep r' ms /\
    rb_freesize r' = rb_freesize r + length (dyn_encode m).
Proof.
  intros (Hty & Hms & Hok). apply Forall_cons in Hms as [[Hm1 Hm2] Hms].
  destruct (headlen_spec (length m) Hm2) as (n & c & h0 & c' & E & Hn & Hc & Hh & Hcl & Hdec).
  assert (Henc : dyn_encode m = take n c ++ m) by (unfold dyn_encode, dyn_header; by rewrite E).
  assert (Hlc : length (take n c) = n) by (rewrite length_take; lia).
  assert (Hl : length (dyn_encode m) = n + length m) by (rewrite Henc, length_app; lia).
  rewrite Hl. rewrite fmap_cons in Hok. simpl in Hok. rewrite Henc, <- app_assoc in Hok.
  unfold ringbuf_pop. destruct (ringbuf_is_empty r) eqn:Eemp.
  { apply (ringbuf_is_empty_spec _ _ Hok) in Eemp. rewrite Hh in Eemp. done. }
  rewrite Hty. destruct (rb_wrap_head r _ Hok) as [Hok1 Hlt].
  destruct (wrap_fields r) as (_ & _ & _ & _ & F1 & F2 & F3 & _).
  assert (E0 : rb_mem (wrap_head r) !! rb_head (wrap_head r) = Some h0).
  { pose proof (ok_bytes _ _ Hok1 0) as H0. rewrite Nat.add_0_r, Hh in H0. unfold ring_idx in H0.
    rewrite (proj2 (Nat.ltb_lt _ _) Hlt) in H0. apply H0. simpl; lia. }
  rewrite E0. cbn [mbind option_bind]. rewrite Hcl.
  destruct (pop_header_spec _ _ _ n Hok1 Hlt Hlc) as (r2 & E2 & Hok2 & G1 & G2 & G3); [lia|].
  rewrite E2. cbn [mbind option_bind]. rewrite Hdec, Nat2Z.id.
  destruct (pop_data_spec r2 m _ Hok2 Hm1) as (r3 & E3 & Hok3 & I1 & I2 & I3); [lia|].
  rewrite E3. cbn. exists r3. split; [done|]. split.
  - split; [congruence|]. done.
  - lia.
Qed.

(** a block boundary before the end leaves room for a block *)
Lemma divide_room b x y : 0 < b -> (b | x) -> (b | y) -> x < y -> x + b <= y.
Proof. intros Hb [i ->] [j ->] H. assert (S i <= j) by nia. nia. Qed.

Lemma fix_push_spec r ms m data :
  fix_rep r ms -> mem_read data 0 (rb_blk_size r) = Some m ->
  if rb_blk_size r <=? rb_freesize r
  then exists r', (forall n, ringbuf_push r data n = Some (RHINO_SUCCESS, r')) /\ fix_rep r' (ms ++ [m]) /\
       rb_freesize r' = rb_freesize r - rb_blk_size r /\ rb_blk_size r' = rb_blk_size r
  else forall n, ringbuf_push r data n = Some (RHINO_RINGBUF_FULL, r).
Proof.
  intros (Hty & Hb & D1 & D2 & D3 & Hms & Hok) Hdata. unfold ringbuf_push, ringbuf_is_full. rewrite Hty.
  destruct (Nat.leb_spec (rb_blk_size r) (rb_freesize r)) as [Hfit|Hfit]; last first.
  { intros n. by rewrite (proj2 (Nat.ltb_lt _ _) Hfit). }
  rewrite (proj2 (Nat.ltb_ge _ _) Hfit). destruct (rb_wrap_tail r _ Hok) as [Hok1 Ht1].
  destruct (wrap_fields r) as (F1 & F2 & F3 & F4 & _).
  assert (D3' : (rb_blk_size r | rb_tail (wrap_tail r))).
  { unfold wrap_tail. case_match; [apply Nat.divide_0_r|done]. }
  assert (D2' : (rb_blk_size r | rb_head (wrap_tail r))) by (unfold wrap_tail; by case_match).
  rewrite <- F1 in D1. rewrite <- F2, <- F3, <- F4 in *. set (r1 := wrap_tail r) in *. clearbody r1.
  assert (Hm : length m = rb_blk_size r1).
  { unfold mem_read in Hdata. case_match eqn:C; [|done]. apply Nat.leb_le in C.
    injection Hdata as <-. rewrite length_take, length_drop. lia. }
  pose proof (divide_room _ _ _ Hb D3' D1 Ht1) as Hroom. rewrite <- Hm in Hroom.
  destruct (rb_put_mem r1 _ m Hok1 Hroom Ht1) as (mm & E & Hmm & Hok2); [lia|].
  eexists. split.
  { intros _. rewrite Hdata. cbn. unfold memcpy_in. rewrite E. cbn. done. }
  split; [|done]. rewrite Hm in Hok2. split_and!; simpl; try done.
  - by rewrite <- Hmm in D1.
  - by apply Nat.divide_add_r; [|exists 1; lia].
  - apply Forall_app; by repeat constructor.
  - by rewrite mjoin_snoc.
Qed.

Lemma fix_pop_spec r m ms :
  fix_rep r (m :: ms) ->
  exists r', ringbuf_pop r = Some (RHINO_SUCCESS, r', Some m, Some (rb_blk_size r)) /\ fix_rep r' ms /\
    rb_freesize r' = rb_freesize r + rb_blk_size r /\ rb_blk_size r' = rb_blk_size r.
Proof.
  intros (Hty & Hb & D1 & D2 & D3 & Hms & Hok). apply Forall_cons in Hms as [Hm Hms]. simpl in Hok.
  unfold ringbuf_pop. destruct (ringbuf_is_empty r) eqn:Eemp.
  { apply (ringbuf_is_empty_spec _ _ Hok), app_eq_nil in Eemp as [-> _]. simpl in Hm. lia. }
  rewrite Hty. destruct (rb_wrap_head r _ Hok) as [Hok1 Hlt].
  destruct (wrap_fields r) as (_ & _ & _ & _ & F1 & F2 & F3 & F4).
  assert (D2' : (rb_blk_size r | rb_head (wrap_head r))).
  { unfold wrap_head. case_match; [apply Nat.divide_0_r|done]. }
  assert (D3' : (rb_blk_size r | rb_tail (wrap_head r))) by (unfold wrap_head; by case_match).
  rewrite <- F1 in D1. rewrite <- F2, <- F3, <- F4 in *. set (r1 := wrap_head r) in *. clearbody r1.
  pose proof (divide_room _ _ _ Hb D2' D1 Hlt) as Hroom. rewrite <- Hm in Hroom.
  destruct (rb_get _ _ _ Hok1 Hroom) as [G1 G2]. rewrite Hm in G1, G2. rewrite G1. cbn.
  eexists; split; [done|]. split; [|done]. split_and!; simpl; try done.
  by apply Nat.divide_add_r; [|exists 1; lia].
Qed.

(** ** The contract of a message ring

    What the message queues rely on, whatever the mode of the ring: [rep cap r
    ms] says that [r], an array of [cap] bytes, holds the messages [ms]. *)

Class MsgRing (rep : nat -> k_ringbuf_t -> list (list Z) -> Prop)
    (msg_ok : list Z -> Prop) (cost : list Z -> nat) : Prop := {
  ring_push : forall cap r ms m, rep cap r ms -> msg_ok m ->
    if sum_list_with cost ms + cost m <=? cap
    then exists r', ringbuf_push r m (length m) = Some (RHINO_SUCCESS, r') /\ rep cap r' (ms ++ [m])
    else ringbuf_push r m (length m) = Some (RHINO_RINGBUF_FULL, r);
  ring_pop : forall cap r m ms, rep cap r (m :: ms) ->
    exists r', ringbuf_pop r = Some (RHINO_SUCCESS, r', Some m, Some (length m)) /\ rep cap r' ms;
  ring_empty : forall cap r ms, rep cap r ms -> ringbuf_is_empty r = true <-> ms = [];
  ring_reset : forall cap r ms, rep cap r ms -> rep cap (snd (ringbuf_reset r)) [];
  ring_free : forall cap r ms, rep cap r ms -> sum_list_with cost ms + rb_freesize r = cap
}.

Definition dyn_ring (cap : nat) (r : k_ringbuf_t) (ms : list (list Z)) : Prop :=
  dyn_rep r ms /\ rb_end r = cap.

Definition fix_ring (b cap : nat) (r : k_ringbuf_t) (ms : list (list Z)) : Prop :=
  fix_rep r ms /\ rb_blk_size r = b /\ rb_end r = cap.

Lemma length_mjoin {A B} (f : A -> list B) (ls : list A) :
  length (mjoin (f <$> ls)) = sum_list_with (fun l => length (f l)) ls.
Proof. induction ls as [|l ls IH]; [done|]. csimpl. by rewrite length_app, IH. Qed.

Lemma dyn_free r ms :
  dyn_rep r ms -> sum_list_with (fun m => length (dyn_encode m)) ms + rb_freesize r = rb_end r.
Proof. intros (_ & _ & H). rewrite <- length_mjoin. apply (ok_free _ _ H). Qed.

Lemma fix_free r ms :
  fix_rep r ms -> sum_list_with (fun _ => rb_blk_size r) ms + rb_freesize r = rb_end r.
Proof.
  intros (_ & _ & _ & _ & _ & Hms & H). rewrite <- (ok_free _ _ H). f_equal.
  clear H. induction Hms as [|m ms Hm _ IH]; [done|]. csimpl. by rewrite length_app, IH, Hm.
Qed.

#[export] Instance dyn_MsgRing : MsgRing dyn_ring dyn_msg (fun m => length (dyn_encode m)).
Proof.
  split.
  - intros cap r ms m [H <-] Hm. pose proof (dyn_push_spec r ms m H Hm) as Hp.
    pose proof (dyn_free _ _ H) as Hf. destruct (Nat.leb_spec (length (dyn_encode m)) (rb_freesize r)).
    + rewrite (proj2 (Nat.leb_le _ _)) by lia. destruct Hp as (r' & E & H' & F).
      exists r'. split; [done|]. split; [done|]. pose proof (dyn_free _ _ H') as Hf'.
      rewrite sum_list_with_app in Hf'. csimpl in *. lia.
    + by rewrite (proj2 (Nat.leb_gt _ _)) by lia.
  - intros cap r m ms [H <-]. destruct (dyn_pop_spec r m ms H) as (r' & E & H' & F).
    exists r'. split; [done|]. split; [done|].
    pose proof (dyn_free _ _ H). pose proof (dyn_free _ _ H'). csimpl in *. lia.
  - intros cap r ms [(_ & Hms & H) _]. rewrite (ringbuf_is_empty_spec _ _ H).
    destruct ms as [|m ms]; [done|]. apply Forall_cons in Hms as [[Hm _] _]. split; [|done].
    intros Hn%(f_equal length). simpl in Hn. unfold dyn_encode in Hn. rewrite !length_app in Hn.
    simpl in Hn. lia.
  - intros cap r ms [(Ht & _ & H) <-]. split; [|done]. split_and!; [done|done|].
    by apply (ringbuf_reset_ok r _ H).
  - intros cap r ms [H <-]. by apply dyn_free.
Qed.

#[export] Instance fix_MsgRing b : MsgRing (fix_ring b) (fun m => length m = b) (fun _ => b).
Proof.
  split.
  - intros cap r ms m (H & <- & <-) Hm. pose proof (fix_free _ _ H) as Hf.
    assert (Hr : mem_read m 0 (rb_blk_size r) = Some m).
    { rewrite mem_read_spec by lia. by rewrite drop_0, take_ge by lia. }
    pose proof (fix_push_spec r ms m m H Hr) as Hp.
    destruct (Nat.leb_spec (rb_blk_size r) (rb_freesize r)).
    + rewrite (proj2 (Nat.leb_le _ _)) by lia. destruct Hp as (r' & E & H' & F & G).
      exists r'. split; [done|]. split; [done|]. split; [done|]. pose proof (fix_free _ _ H') as Hf'.
      rewrite sum_list_with_app, G in Hf'. csimpl in *. lia.
    + by rewrite (proj2 (Nat.leb_gt _ _)) by lia.
  - intros cap r m ms (H & <- & <-). destruct (fix_pop_spec r m ms H) as (r' & E & H' & F & G).
    exists r'. split.
    + rewrite E. do 2 f_equal. by destruct H as (_ & _ & _ & _ & _ & [-> _]%Forall_cons & _).
    + split; [done|]. split; [done|].
      pose proof (fix_free _ _ H). pose proof (fix_free _ _ H') as Hf. rewrite G in Hf. csimpl in *. lia.
  - intros cap r ms [(_ & Hb & _ & _ & _ & Hms & H) _]. rewrite (ringbuf_is_empty_spec _ _ H).
    destruct ms as [|m ms]; [done|]. apply Forall_cons in Hms as [Hm _]. split; [|done].
    intros Hn%(f_equal length). simpl in Hn. rewrite length_app in Hn. simpl in Hn. lia.
  - intros cap r ms ((Ht & Hb & D1 & D2 & D3 & _ & H) & <- & <-). split; [|done].
    split_and!; simpl; try done; [apply Nat.divide_0_r..|]. by apply (ringbuf_reset_ok r _ H).
  - intros cap r ms (H & <- & <-). by apply fix_free.
Qed.

(** a fresh ring is empty *)
Lemma dyn_init buf b : 0 < length buf -> dyn_ring (length buf) (ringbuf_init buf RINGBUF_TYPE_DYN b) [].
Proof. intros. split; [|done]. split_and!; [done|done|]. by apply ringbuf_init_ok. Qed.

Lemma fix_init buf b : 0 < b -> 0 < length buf -> (b | length buf) ->
  fix_ring b (length buf) (ringbuf_init buf RINGBUF_TYPE_FIX b) [].
Proof.
  intros. split; [|done]. split_and!; try done; [apply Nat.divide_0_r..|]. by apply ringbuf_init_ok.
Qed.

(** ** Any sequence of calls behaves as on a bounded queue *)

Inductive ring_call := CPush (m : list Z) | CPop | CReset.
Inductive ring_answer := APush (s : kstat_t) | APop (s : kstat_t) (m : option (list Z)) | AReset.

Definition ring_step (r : k_ringbuf_t) (c : ring_call) : option (k_ringbuf_t * ring_answer) :=
  match c with
  | CPush m => '(s, r) ← ringbuf_push r m (length m); Some (r, APush s)
  | CPop => '(s, r, m, _) ← ringbuf_pop r; Some (r, APop s m)
  | CReset => Some (snd (ringbuf_reset r), AReset)
  end.

Fixpoint ring_run (r : k_ringbuf_t) (cs : list ring_call) : option (list ring_answer) :=
  match cs with
  | [] => Some []
  | c :: cs => '(r, a) ← ring_step r c; l ← ring_run r cs; Some (a :: l)
  end.

(** the bounded queue *)
Definition spec_step (cost : list Z -> nat) (cap : nat) (ms : list (list Z)) (c : ring_call)
    : list (list Z) * ring_answer :=
  match c with
  | CPush m => if sum_list_with cost ms + cost m <=? cap then (ms ++ [m], APush RHINO_SUCCESS)
               else (ms, APush RHINO_RINGBUF_FULL)
  | CPop => match ms with
            | [] => ([], APop RHINO_RINGBUF_EMPTY None)
            | m :: ms => (ms, APop RHINO_SUCCESS (Some m))
            end
  | CReset => ([], AReset)
  end.

Fixpoint spec_run cost cap (ms : list (list Z)) (cs : list ring_call) : list ring_answer :=
  match cs with
  | [] => []
  | c :: cs => let '(ms, a) := spec_step cost cap ms c in a :: spec_run cost cap ms cs
  end.

Definition call_ok (msg_ok : list Z -> Prop) (c : ring_call) : Prop :=
  match c with CPush m => msg_ok m | _ => True end.

Section refinement.
Context {rep msg_ok cost} `{R : !MsgRing rep msg_ok cost}.

Lemma ring_run_spec cap r ms cs :
  rep cap r ms -> Forall (call_ok msg_ok) cs -> ring_run r cs = Some (spec_run cost cap ms cs).
Proof.
  intros Hr Hcs. revert r ms Hr. induction Hcs as [|c cs Hc _ IH]; intros r ms Hr; [done|].
  destruct c as [m| |]; cbn -[ringbuf_reset Nat.leb].
  - pose proof (ring_push cap r ms m Hr Hc) as Hp. case_match.
    + destruct Hp as (r' & -> & Hr'). cbn. by rewrite (IH _ _ Hr').
    + rewrite Hp. cbn. by rewrite (IH _ _ Hr).
  - destruct ms as [|m ms].
    + unfold ringbuf_pop. rewrite (proj2 (ring_empty cap r [] Hr) eq_refl). cbn. by rewrite (IH _ _ Hr).
    + destruct (ring_pop cap r m ms Hr) as (r' & -> & Hr'). cbn. by rewrite (IH _ _ Hr').
  - rewrite (IH _ [] (ring_reset cap r ms Hr)). done.
Qed.
End refinement.
