(* ===== verification/Fifo.v ===== *)
(** * The byte fifo ([common/k_fifo.c])

    A power-of-two array with free-running 32-bit indices: [in] and [out] wrap
    at [2^32] and are reduced to the array by the mask.  [fifo_rep f q] says
    that the fifo holds the bytes [q]; every operation is an operation on [q]. *)

From S2P Require Import Prelude Config RingBuf.

Record k_fifo := mkFifo {
  f_in : Z; f_out : Z; f_mask : Z; f_data : list Z; f_free_bytes : Z; f_size : Z
}.

Definition set_f_in (v : Z) (f : k_fifo) := mkFifo v (f_out f) (f_mask f) (f_data f) (f_free_bytes f) (f_size f).
Definition set_f_out (v : Z) (f : k_fifo) := mkFifo (f_in f) v (f_mask f) (f_data f) (f_free_bytes f) (f_size f).
Definition set_f_data (v : list Z) (f : k_fifo) := mkFifo (f_in f) (f_out f) (f_mask f) v (f_free_bytes f) (f_size f).
Definition set_f_free_bytes (v : Z) (f : k_fifo) := mkFifo (f_in f) (f_out f) (f_mask f) (f_data f) v (f_size f).

(** ** The code *)

Definition fifo_min (x y : Z) : Z := if y <? x then y else x.

Definition fifo_unused (f : k_fifo) : Z := u32 (u32 (f_mask f + 1) - u32 (f_in f - f_out f)).

Definition is_power_of_2 (n : Z) : bool := negb (n =? 0) && (Z.land n (u32 (n - 1)) =? 0).

(** the status (0 is success) and the fifo; [buffer] is the memory at the pointer *)
Definition fifo_init (f : k_fifo) (buffer : list Z) (size : Z) : Z * k_fifo :=
  if negb (is_power_of_2 size) then (1, f)
  else if size <? 2 then (1, mkFifo 0 0 0 buffer (f_free_bytes f) (f_size f))
  else (0, mkFifo 0 0 (size - 1) buffer size size).

Definition fifo_copy_in (f : k_fifo) (src : list Z) (len off : Z) : option k_fifo :=
  let size := u32 (f_mask f + 1) in
  let off := Z.land off (f_mask f) in
  let l := fifo_min len (u32 (size - off)) in
  d1 ← mem_read src 0 (Z.to_nat l);
  m1 ← mem_write (f_data f) (Z.to_nat off) d1;
  d2 ← mem_read src (Z.to_nat l) (Z.to_nat (u32 (len - l)));
  m2 ← mem_write m1 0 d2;
  Some (set_f_data m2 f).

Definition fifo_in (f : k_fifo) (buf : list Z) (len : Z) : option (Z * k_fifo) :=
  let l := fifo_unused f in
  let len := if l <? len then l else len in
  f ← fifo_copy_in f buf len (f_in f);
  let f := set_f_in (u32 (f_in f + len)) f in
  Some (len, set_f_free_bytes (u32 (f_free_bytes f - len)) f).

Definition kfifo_copy_out (f : k_fifo) (len off : Z) : option (list Z) :=
  let size := u32 (f_mask f + 1) in
  let off := Z.land off (f_mask f) in
  let l := fifo_min len (u32 (size - off)) in
  d1 ← mem_read (f_data f) (Z.to_nat off) (Z.to_nat l);
  d2 ← mem_read (f_data f) 0 (Z.to_nat (u32 (len - l)));
  Some (d1 ++ d2).

Definition internal_fifo_out_peek (f : k_fifo) (len : Z) : option (Z * list Z) :=
  let l := u32 (f_in f - f_out f) in
  let len := if l <? len then l else len in
  d ← kfifo_copy_out f len (f_out f);
  Some (len, d).

Definition fifo_out_peek (f : k_fifo) (len : Z) : option (Z * list Z) := internal_fifo_out_peek f len.

Definition fifo_take (f : k_fifo) (len : Z) : k_fifo :=
  let f := set_f_out (u32 (f_out f + len)) f in
  set_f_free_bytes (u32 (f_free_bytes f + len)) f.

Definition fifo_out (f : k_fifo) (len : Z) : option (Z * list Z * k_fifo) :=
  '(len, d) ← internal_fifo_out_peek f len;
  Some (len, d, fifo_take f len).

Definition fifo_out_all (f : k_fifo) : option (Z * list Z * k_fifo) :=
  let len := u32 (f_size f - f_free_bytes f) in
  if len =? 0 then Some (0, [], f) else
  '(len, d) ← internal_fifo_out_peek f len;
  Some (len, d, fifo_take f len).

(** ** What the fifo holds *)

Record fifo_rep (f : k_fifo) (q : list Z) : Prop := {
  fr_pow : exists k, 1 <= k < 32 /\ f_size f = 2 ^ k;
  fr_mask : f_mask f = f_size f - 1;
  fr_data : Z.of_nat (length (f_data f)) = f_size f;
  fr_out : 0 <= f_out f < 2 ^ 32;
  fr_in : f_in f = u32 (f_out f + Z.of_nat (length q));
  fr_fits : Z.of_nat (length q) <= f_size f;
  fr_free : f_free_bytes f = f_size f - Z.of_nat (length q);
  fr_bytes : forall i, (i < length q)%nat ->
    f_data f !! Z.to_nat ((f_out f + Z.of_nat i) mod f_size f) = q !! i
}.

(** an index of the array *)
Definition ring_at (size o i : Z) : Z := if o + i <? size then o + i else o + i - size.

Lemma ring_at_mod size a i : 0 < size -> 0 <= i < size -> (a + i) mod size = ring_at size (a mod size) i.
Proof.
  intros Hs Hi. unfold ring_at. pose proof (Z.mod_pos_bound a size Hs). rewrite <- Z.add_mod_idemp_l by lia.
  destruct (Z.ltb_spec (a mod size + i) size); [by apply Z.mod_small; lia|].
  symmetry. apply (Z.mod_unique_pos _ _ 1); lia.
Qed.

(** reducing an index modulo [2^32] first changes nothing, the size divides [2^32] *)
Lemma u32_mod_pow a k : 0 <= k <= 32 -> u32 a mod 2 ^ k = a mod 2 ^ k.
Proof.
  intros Hk. unfold u32. replace (2 ^ 32) with (2 ^ k * 2 ^ (32 - k)) by (rewrite <- Z.pow_add_r by lia; f_equal; lia).
  rewrite Z.rem_mul_r by (try apply Z.pow_nonzero; lia). rewrite Z.mul_comm, Z.mod_add by (apply Z.pow_nonzero; lia).
  apply Z.mod_mod, Z.pow_nonzero; lia.
Qed.

Section rep.
Context (f : k_fifo) (q : list Z) (H : fifo_rep f q).
Abbreviation size := (f_size f).
Abbreviation n := (Z.of_nat (length q)).

Lemma rep_size : 2 <= size < 2 ^ 32 /\ u32 (f_mask f + 1) = size.
Proof using H.
  rewrite (fr_mask _ _ H). destruct (fr_pow _ _ H) as (k & Hk & ->).
  assert (2 ^ 1 <= 2 ^ k) by (apply Z.pow_le_mono_r; lia). assert (2 ^ k < 2 ^ 32) by (apply Z.pow_lt_mono_r; lia).
  split; [lia|]. rewrite Z.sub_add. apply u32_small. lia.
Qed.

Lemma rep_off a : Z.land a (f_mask f) = a mod size.
Proof using H.
  rewrite (fr_mask _ _ H). destruct (fr_pow _ _ H) as (k & Hk & ->).
  rewrite <- Z.land_ones by lia. f_equal. rewrite Z.ones_equiv. lia.
Qed.

Lemma rep_used : u32 (f_in f - f_out f) = n /\ fifo_unused f = size - n.
Proof using H.
  destruct rep_size as [Hs Hm]. pose proof (fr_fits _ _ H). assert (Hu : u32 (f_in f - f_out f) = n).
  { rewrite (fr_in _ _ H). unfold u32. rewrite Zminus_mod_idemp_l. replace (_ - _) with n by lia. apply Z.mod_small. lia. }
  split; [done|]. unfold fifo_unused. rewrite Hu, Hm. apply u32_small. lia.
Qed.

Lemma rep_tail : f_in f mod size = (f_out f + n) mod size.
Proof using H. rewrite (fr_in _ _ H). destruct (fr_pow _ _ H) as (k & Hk & ->). apply u32_mod_pow. lia. Qed.
Lemma rep_index i : 0 <= i < size -> (f_out f + i) mod size = ring_at size (f_out f mod size) i.
Proof using H. destruct rep_size. apply ring_at_mod. lia. Qed.

(** the bytes written after the last one *)
Lemma copy_in_spec src len :
  0 <= len <= size - n -> len <= Z.of_nat (length src) ->
  exists m, fifo_copy_in f src len (f_in f) = Some (set_f_data m f) /\ Z.of_nat (length m) = size /\
    forall i, (i < length (q ++ take (Z.to_nat len) src))%nat ->
      m !! Z.to_nat ((f_out f + Z.of_nat i) mod size) = (q ++ take (Z.to_nat len) src) !! i.
Proof using H.
  intros Hl Hsrc. destruct rep_size as [Hs Hm]. unfold fifo_copy_in. rewrite Hm, rep_off, rep_tail.
  pose proof (fr_data _ _ H) as Hd. pose proof (fr_fits _ _ H) as Hfit.
  set (o := f_out f mod size). assert (Ho : 0 <= o < size) by (apply Z.mod_pos_bound; lia).
  set (p := (f_out f + n) mod size). assert (Hp : 0 <= p < size) by (apply Z.mod_pos_bound; lia).
  rewrite (u32_small (size - p)) by lia. set (l := fifo_min len (size - p)).
  assert (Hmin : 0 <= l <= len /\ l <= size - p /\ (l = len \/ l = size - p)).
  { subst l. unfold fifo_min. destruct (Z.ltb_spec (size - p) len); lia. }
  clearbody l. rewrite (u32_small (len - l)) by lia.
  rewrite (mem_read_spec src 0), (mem_read_spec src (Z.to_nat l)), drop_0 by lia. cbn [mbind option_bind].
  assert (Hlen1 : length (take (Z.to_nat l) src) = Z.to_nat l) by (rewrite length_take; lia).
  destruct (mem_write_spec (f_data f) (Z.to_nat p) (take (Z.to_nat l) src)) as (m1 & -> & Hm1 & Hin1 & Hout1); [lia|].
  cbn [mbind option_bind].
  set (d2 := take _ (drop _ src)).
  assert (Hlen2 : length d2 = Z.to_nat (len - l)) by (subst d2; rewrite length_take, length_drop; lia).
  destruct (mem_write_spec m1 0 d2) as (m2 & -> & Hm2 & Hin2 & Hout2); [lia|].
  exists m2. split; [done|]. split; [lia|]. rewrite Hlen1 in *. rewrite Hlen2 in *.
  intros i Hi. rewrite length_app, length_take in Hi. assert (Hat := rep_index (Z.of_nat i) ltac:(lia)).
  fold o in Hat. rewrite Hat. destruct (decide (i < length q)%nat) as [Hq|Hq].
  - rewrite lookup_app_l by done. rewrite <- (fr_bytes _ _ H i Hq), Hat.
    assert (Hpn : p = ring_at size o n \/ n = size).
    { destruct (Z.eq_dec n size) as [|Hne]; [by right|left]. subst p. apply rep_index. lia. }
    assert (Hoi : 0 <= ring_at size o (Z.of_nat i) < size) by (unfold ring_at; case_match; lia).
    rewrite Hout2, Hout1; [done| |]; destruct Hpn as [Hpn|Hpn]; try lia; unfold ring_at in *; repeat case_match; lia.
  - rewrite lookup_app_r by lia. rewrite lookup_take_lt by lia.
    assert (Hpn : p = ring_at size o n) by (apply rep_index; lia).
    assert (Hcase : ring_at size o (Z.of_nat i) = p + (Z.of_nat i - n) /\ Z.of_nat i - n < l \/
                    ring_at size o (Z.of_nat i) = Z.of_nat i - n - l /\ l <= Z.of_nat i - n /\ l = size - p).
    { unfold ring_at in *. repeat case_match; lia. }
    destruct Hcase as [[-> Hlt]|(-> & Hge & El)].
    + rewrite Hout2 by lia. rewrite Hin1 by lia. rewrite lookup_take_lt by lia. f_equal. lia.
    + rewrite Hin2 by lia. subst d2. rewrite lookup_take_lt, lookup_drop by lia. f_equal. lia.
Qed.

(** the bytes read from the first one *)
Lemma copy_out_spec len : 0 <= len <= n -> kfifo_copy_out f len (f_out f) = Some (take (Z.to_nat len) q).
Proof using H.
  intros Hl. destruct rep_size as [Hs Hm]. unfold kfifo_copy_out. rewrite Hm, rep_off.
  pose proof (fr_data _ _ H) as Hd. pose proof (fr_fits _ _ H) as Hfit.
  set (o := f_out f mod size). assert (Ho : 0 <= o < size) by (apply Z.mod_pos_bound; lia).
  rewrite (u32_small (size - o)) by lia. set (l := fifo_min len (size - o)).
  assert (Hmin : 0 <= l <= len /\ l <= size - o /\ (l = len \/ l = size - o)).
  { subst l. unfold fifo_min. destruct (Z.ltb_spec (size - o) len); lia. }
  clearbody l. rewrite (u32_small (len - l)) by lia.
  rewrite (mem_read_spec _ (Z.to_nat o)), (mem_read_spec _ 0), drop_0 by lia. cbn [mbind option_bind]. f_equal.
  apply list_eq_same_length with (Z.to_nat len).
  - rewrite length_take. lia.
  - rewrite length_app, !length_take, length_drop. lia.
  - intros i x y Hi Hx Hy. rewrite lookup_take_lt in Hy by lia.
    pose proof (fr_bytes _ _ H i ltac:(lia)) as Hb. rewrite rep_index in Hb by lia. fold o in Hb.
    destruct (decide (i < Z.to_nat l)%nat) as [Hlt|Hge].
    + rewrite lookup_app_l in Hx by (rewrite length_take, length_drop; lia). rewrite lookup_take_lt, lookup_drop in Hx by lia.
      replace (Z.to_nat (ring_at size o (Z.of_nat i))) with (Z.to_nat o + i)%nat in Hb
        by (unfold ring_at; case_match; lia). congruence.
    + rewrite lookup_app_r in Hx by (rewrite length_take, length_drop; lia).
      rewrite length_take, length_drop, lookup_take_lt in Hx by lia.
      replace (Z.to_nat (ring_at size o (Z.of_nat i))) with (i - Z.to_nat l `min` (length (f_data f) - Z.to_nat o))%nat in Hb
        by (unfold ring_at; case_match; lia). congruence.
Qed.

Lemma peek_spec len : 0 <= len < 2 ^ 32 ->
  internal_fifo_out_peek f len = Some (Z.min len n, take (Z.to_nat len) q).
Proof using H.
  intros Hl. unfold internal_fifo_out_peek. destruct rep_used as [-> _].
  replace (if n <? len then n else len) with (Z.min len n) by (case_match; lia).
  rewrite copy_out_spec by lia. cbn. do 2 f_equal. destruct (Z.le_gt_cases len n).
  - f_equal. lia.
  - rewrite !take_ge; [done|lia|lia].
Qed.

Lemma take_rep len : 0 <= len <= n -> fifo_rep (fifo_take f len) (drop (Z.to_nat len) q).
Proof using H.
  intros Hl. destruct rep_size as [Hs Hm]. pose proof (fr_fits _ _ H) as Hfit. pose proof (fr_free _ _ H) as Hfree.
  destruct H as [Hpow Hmask Hdata Hout Hin _ _ Hbytes].
  split; unfold fifo_take; cbn; rewrite ?length_drop; try done; [apply u32_range| |lia| |].
  - rewrite Hin. unfold u32. rewrite Zplus_mod_idemp_l. f_equal. lia.
  - rewrite Hfree, u32_small by lia. lia.
  - intros i Hi. rewrite lookup_drop, <- Hbytes by lia. do 2 f_equal. destruct Hpow as (k & Hk & ->).
    unfold u32. rewrite <- (u32_mod_pow (f_out f + Z.of_nat (Z.to_nat len + i)) k) by lia.
    rewrite <- (u32_mod_pow ((f_out f + len) mod 2 ^ 32 + Z.of_nat i) k) by lia.
    unfold u32. rewrite Zplus_mod_idemp_l. do 2 f_equal. lia.
Qed.
End rep.

(** ** The operations on the bytes held *)

Lemma fifo_in_spec f q src len :
  fifo_rep f q -> 0 <= len < 2 ^ 32 -> len <= Z.of_nat (length src) ->
  let n := Z.min len (f_size f - Z.of_nat (length q)) in
  exists f', fifo_in f src len = Some (n, f') /\ fifo_rep f' (q ++ take (Z.to_nat n) src).
Proof.
  intros H Hl Hsrc n. destruct (rep_size f q H) as [Hs Hm]. destruct (rep_used f q H) as [_ Hun].
  pose proof (fr_fits _ _ H) as Hfit. unfold fifo_in. rewrite Hun.
  replace (if f_size f - Z.of_nat (length q) <? len then f_size f - Z.of_nat (length q) else len) with n
    by (subst n; case_match; lia).
  destruct (copy_in_spec f q H src n) as (m & -> & Hlen & Hbytes); [lia|lia|]. cbn. eexists. split; [done|].
  destruct H as [Hpow Hmask Hdata Hout Hin _ Hfree _].
  split; cbn; rewrite ?length_app, ?length_take in *; try done.
  - rewrite Hin. unfold u32. rewrite Zplus_mod_idemp_l. f_equal. lia.
  - lia.
  - rewrite Hfree, u32_small by lia. lia.
Qed.

Lemma fifo_out_spec f q len : fifo_rep f q -> 0 <= len < 2 ^ 32 ->
  exists f', fifo_out f len = Some (Z.min len (Z.of_nat (length q)), take (Z.to_nat len) q, f') /\
    fifo_rep f' (drop (Z.to_nat len) q).
Proof.
  intros H Hl. unfold fifo_out, fifo_out_peek. rewrite (peek_spec f q H) by done. cbn. eexists. split; [done|].
  destruct (Z.le_gt_cases len (Z.of_nat (length q))).
  - rewrite Z.min_l by done. apply take_rep; [done|lia].
  - rewrite Z.min_r by lia. rewrite (drop_ge q (Z.to_nat len)) by lia.
    rewrite <- (drop_ge q (Z.to_nat (Z.of_nat (length q)))) by lia. apply take_rep; [done|lia].
Qed.

Lemma fifo_out_all_spec f q : fifo_rep f q ->
  exists f', fifo_out_all f = Some (Z.of_nat (length q), q, f') /\ fifo_rep f' [].
Proof.
  intros H. destruct (rep_size f q H) as [Hs _]. pose proof (fr_fits _ _ H). unfold fifo_out_all.
  rewrite (fr_free _ _ H). replace (f_size f - (f_size f - _)) with (Z.of_nat (length q)) by lia.
  rewrite u32_small by lia. destruct (Z.eqb_spec (Z.of_nat (length q)) 0) as [Hz|Hz].
  - destruct q; [|done]. by exists f.
  - rewrite (peek_spec f q H) by lia. rewrite Z.min_l, take_ge by lia. cbn. eexists. split; [done|].
    rewrite <- (drop_ge q (Z.to_nat (Z.of_nat (length q)))) by lia. apply take_rep; [done|lia].
Qed.

Lemma is_power_of_2_pow k : 0 <= k < 32 -> is_power_of_2 (2 ^ k) = true.
Proof.
  intros Hk. assert (Hr : 0 < 2 ^ k <= 2 ^ 31) by (split; [apply Z.pow_pos_nonneg; lia|apply Z.pow_le_mono_r; lia]).
  unfold is_power_of_2. rewrite (proj2 (Z.eqb_neq _ _)) by lia. cbn. apply Z.eqb_eq. rewrite u32_small by lia.
  rewrite <- Z.ones_equiv || (replace (2 ^ k - 1) with (Z.ones k) by (rewrite Z.ones_equiv; lia)).
  rewrite Z.land_ones by lia. apply Z_mod_same_full.
Qed.

Lemma fifo_init_spec f buffer k : 1 <= k < 32 -> Z.of_nat (length buffer) = 2 ^ k ->
  exists f', fifo_init f buffer (2 ^ k) = (0, f') /\ f_size f' = 2 ^ k /\ fifo_rep f' [].
Proof.
  intros Hk Hb. unfold fifo_init. rewrite is_power_of_2_pow by lia. cbn [negb].
  assert (2 ^ 1 <= 2 ^ k) by (apply Z.pow_le_mono_r; lia). rewrite (proj2 (Z.ltb_ge _ _)) by lia.
  eexists. split; [done|]. split; [done|]. split; cbn; try done; try lia. by exists k.
Qed.
