(* ===== verification/Bitmap.v ===== *)
(** * The priority bitmap ([core/include/k_bitmap.h], [common/k_ffs.c])

    A bitmap is an array of 32-bit words; bit [nr] of the bitmap is bit
    [31 - nr % 32] of word [nr / 32].  An access outside the array gives
    [None].  [RHINO_CONFIG_BITMAP_HW] is 0 and the CPU is little endian, so
    [krhino_find_first_bit] is the software search. *)

From S2P Require Import Prelude Config.

Definition BITMAP_UNIT_SIZE : Z := 32.
Definition BITMAP_UNIT_MASK : Z := 0x1F.
Definition BITMAP_UNIT_BITS : Z := 5.

Definition BITMAP_MASK (nr : Z) : Z :=
  Z.shiftl 1 (BITMAP_UNIT_SIZE - 1 - Z.land nr BITMAP_UNIT_MASK).
Definition BITMAP_WORD (nr : Z) : nat := Z.to_nat (Z.shiftr nr BITMAP_UNIT_BITS).

Definition krhino_bitmap_set (bitmap : list Z) (nr : Z) : option (list Z) :=
  w ← bitmap !! BITMAP_WORD nr; Some (<[BITMAP_WORD nr := Z.lor w (BITMAP_MASK nr)]> bitmap).

Definition krhino_bitmap_clear (bitmap : list Z) (nr : Z) : option (list Z) :=
  w ← bitmap !! BITMAP_WORD nr;
  Some (<[BITMAP_WORD nr := Z.land w (Z.lnot (BITMAP_MASK nr))]> bitmap).

(** one test of the search: [if (!(tmp & mask)) { tmp <<= sh; nr += sh; }] *)
Definition clz_step (mask sh : Z) (tn : Z * Z) : Z * Z :=
  let '(tmp, nr) := tn in
  if Z.land tmp mask =? 0 then (u32 (Z.shiftl tmp sh), nr + sh) else (tmp, nr).

(** the position of the highest bit of a word, from the top *)
Definition word_first_bit (tmp : Z) : Z :=
  let '(tmp, nr) := clz_step 0xFFFF0000 16 (tmp, 0) in
  let '(tmp, nr) := clz_step 0xFF000000 8 (tmp, nr) in
  let '(tmp, nr) := clz_step 0xF0000000 4 (tmp, nr) in
  let '(tmp, nr) := clz_step 0xC0000000 2 (tmp, nr) in
  if Z.land tmp 0x80000000 =? 0 then nr + 1 else nr.

(** [while ( *bitmap == 0) { nr += 32; bitmap++; }] runs off the array when no
    bit is set *)
Fixpoint krhino_find_first_bit (bitmap : list Z) : option Z :=
  match bitmap with
  | [] => None
  | w :: bitmap => if w =? 0 then (fun nr => BITMAP_UNIT_SIZE + nr) <$> krhino_find_first_bit bitmap
                   else Some (word_first_bit w)
  end.

(** find most significant bit set *)
Definition ffs32_msb (bitmap : Z) : option Z :=
  if bitmap =? 0 then Some 0 else (fun nr => 32 - nr) <$> krhino_find_first_bit [bitmap].

(** find least significant bit set *)
Definition ffs32_lsb (bitmap : Z) : option Z :=
  if bitmap =? 0 then Some 0
  else let x := Z.land bitmap (u32 (- bitmap)) in
       (fun lsbit => 32 - lsbit) <$> krhino_find_first_bit [x].

(** ** What the operations do to the bits *)

Definition words_ok (bitmap : list Z) : Prop := Forall (fun w => 0 <= w < 2 ^ 32) bitmap.

(** bit [nr] of the bitmap *)
Definition bm_bit (bitmap : list Z) (nr : Z) : bool :=
  match bitmap !! BITMAP_WORD nr with
  | Some w => Z.testbit w (31 - nr mod 32)
  | None => false
  end.

Lemma BITMAP_MASK_eq nr : BITMAP_MASK nr = Z.shiftl 1 (31 - nr mod 32).
Proof.
  unfold BITMAP_MASK, BITMAP_UNIT_SIZE, BITMAP_UNIT_MASK. change 0x1F with (Z.ones 5).
  rewrite Z.land_ones by lia. f_equal.
Qed.

Lemma BITMAP_WORD_eq nr : BITMAP_WORD nr = Z.to_nat (nr / 32).
Proof. unfold BITMAP_WORD, BITMAP_UNIT_BITS. by rewrite Z.shiftr_div_pow2 by lia. Qed.

Lemma mask_testbit k i : 0 <= k -> Z.testbit (Z.shiftl 1 k) i = bool_decide (i = k).
Proof.
  intros Hk. rewrite Z.shiftl_1_l, Z.pow2_bits_eqb by done.
  case_bool_decide; [subst; apply Z.eqb_refl|]. apply Z.eqb_neq. lia.
Qed.

Lemma word_range_testbit w : 0 <= w < 2 ^ 32 <-> 0 <= w /\ forall i, 32 <= i -> Z.testbit w i = false.
Proof.
  split.
  - intros [H1 H2]. split; [done|]. intros i Hi.
    rewrite <- (Z.mod_small w (2 ^ 32)) by done. by apply Z.mod_pow2_bits_high.
  - intros [H1 H2]. split; [done|]. destruct (decide (w = 0)) as [->|]; [lia|].
    apply Z.log2_lt_pow2; [lia|]. destruct (Z.lt_ge_cases (Z.log2 w) 32) as [|Hge]; [done|].
    specialize (H2 _ Hge). rewrite Z.bit_log2 in H2 by lia. done.
Qed.

Lemma krhino_bitmap_set_spec bm nr :
  words_ok bm -> 0 <= nr < 32 * Z.of_nat (length bm) ->
  exists bm', krhino_bitmap_set bm nr = Some bm' /\ words_ok bm' /\ length bm' = length bm /\
    forall i, 0 <= i -> bm_bit bm' i = bool_decide (i = nr) || bm_bit bm i.
Proof.
  intros Hw Hnr. unfold krhino_bitmap_set. rewrite BITMAP_WORD_eq, BITMAP_MASK_eq.
  destruct (bm !! Z.to_nat (nr / 32)) as [w|] eqn:E; cbn; last first.
  { apply lookup_ge_None in E. zlia. }
  pose proof (proj1 (Forall_lookup _ _) Hw _ _ E) as Hwr. apply word_range_testbit in Hwr as [Hw0 Hwr].
  assert (Hm : 0 <= nr mod 32 < 32) by zlia.
  eexists; split; [done|]. split_and!.
  - apply Forall_insert; [done|]. apply word_range_testbit. split.
    + apply Z.lor_nonneg. split; [done|]. apply Z.shiftl_nonneg. lia.
    + intros i Hi. rewrite Z.lor_spec, Hwr, mask_testbit by lia. case_bool_decide; [lia|done].
  - by rewrite length_insert.
  - intros i Hi. unfold bm_bit. rewrite BITMAP_WORD_eq.
    destruct (decide (Z.to_nat (i / 32) = Z.to_nat (nr / 32))) as [He|Hne].
    + rewrite He, list_lookup_insert_eq, E by (by eapply lookup_lt_Some).
      rewrite Z.lor_spec, mask_testbit, orb_comm by lia. f_equal.
      apply bool_decide_ext. zlia.
    + rewrite list_lookup_insert_ne by done. rewrite bool_decide_false; [done|]. intros ->. done.
Qed.

Lemma krhino_bitmap_clear_spec bm nr :
  words_ok bm -> 0 <= nr < 32 * Z.of_nat (length bm) ->
  exists bm', krhino_bitmap_clear bm nr = Some bm' /\ words_ok bm' /\ length bm' = length bm /\
    forall i, 0 <= i -> bm_bit bm' i = negb (bool_decide (i = nr)) && bm_bit bm i.
Proof.
  intros Hw Hnr. unfold krhino_bitmap_clear. rewrite BITMAP_WORD_eq, BITMAP_MASK_eq.
  destruct (bm !! Z.to_nat (nr / 32)) as [w|] eqn:E; cbn; last first.
  { apply lookup_ge_None in E. zlia. }
  pose proof (proj1 (Forall_lookup _ _) Hw _ _ E) as Hwr. apply word_range_testbit in Hwr as [Hw0 Hwr].
  assert (Hm : 0 <= nr mod 32 < 32) by zlia.
  eexists; split; [done|]. split_and!.
  - apply Forall_insert; [done|]. apply word_range_testbit. split.
    + apply Z.land_nonneg. by left.
    + intros i Hi. rewrite Z.land_spec, Hwr by lia. done.
  - by rewrite length_insert.
  - intros i Hi. unfold bm_bit. rewrite BITMAP_WORD_eq.
    destruct (decide (Z.to_nat (i / 32) = Z.to_nat (nr / 32))) as [He|Hne].
    + rewrite He, list_lookup_insert_eq, E by (by eapply lookup_lt_Some).
      rewrite Z.land_spec, Z.lnot_spec, mask_testbit, andb_comm by zlia. f_equal. f_equal.
      apply bool_decide_ext. zlia.
    + rewrite list_lookup_insert_ne by done. rewrite bool_decide_false; [done|]. intros ->. done.
Qed.

(** ** The search finds the first set bit *)

Lemma clz_step_spec tmp nr s :
  0 < s -> s < 32 -> 0 < tmp < 2 ^ 32 ->
  let '(tmp', nr') := clz_step (Z.shiftl (Z.ones s) (32 - s)) s (tmp, nr) in
  0 < tmp' < 2 ^ 32 /\ nr' - Z.log2 tmp' = nr - Z.log2 tmp /\
  (2 ^ (32 - s) <= tmp -> tmp' = tmp) /\ (tmp < 2 ^ (32 - s) -> tmp' = tmp * 2 ^ s).
Proof.
  intros Hs1 Hs2 Ht. unfold clz_step. rewrite land_field by lia.
  assert (Hp : 2 ^ 32 = 2 ^ (32 - s) * 2 ^ s) by (rewrite <- Z.pow_add_r by lia; f_equal; lia).
  assert (H0 : 0 < 2 ^ (32 - s)) by (apply Z.pow_pos_nonneg; lia).
  assert (H1 : 0 < 2 ^ s) by (apply Z.pow_pos_nonneg; lia).
  destruct (Z.eqb_spec ((tmp / 2 ^ (32 - s)) mod 2 ^ s * 2 ^ (32 - s)) 0) as [E|E].
  - assert (Hlt : tmp < 2 ^ (32 - s)).
    { rewrite Z.mod_small in E by (split; [apply Z.div_pos; lia|apply Z.div_lt_upper_bound; nia]).
      apply Z.mul_eq_0 in E as [E|E]; [|lia]. apply Z.div_small_iff in E; lia. }
    rewrite Z.shiftl_mul_pow2 by lia. rewrite u32_small by nia.
    split_and!; [nia|nia| |lia|done].
    rewrite Z.log2_mul_pow2 by lia. lia.
  - split_and!; [lia|lia|lia|done|]. intros Hlt. rewrite Z.div_small in E by lia.
    rewrite Z.mod_0_l in E by lia. lia.
Qed.

(** the search computes the number of leading zeros *)
Lemma word_first_bit_log2 w : 0 < w < 2 ^ 32 -> word_first_bit w = 31 - Z.log2 w.
Proof.
  intros Hw. unfold word_first_bit.
  pose proof (clz_step_spec w 0 16 ltac:(lia) ltac:(lia) Hw) as S1.
  change 0xFFFF0000 with (Z.shiftl (Z.ones 16) (32 - 16)).
  destruct (clz_step _ 16 (w, 0)) as [t1 n1]. destruct S1 as (R1 & L1 & A1 & B1).
  pose proof (clz_step_spec t1 n1 8 ltac:(lia) ltac:(lia) R1) as S2.
  change 0xFF000000 with (Z.shiftl (Z.ones 8) (32 - 8)).
  destruct (clz_step _ 8 _) as [t2 n2]. destruct S2 as (R2 & L2 & A2 & B2).
  pose proof (clz_step_spec t2 n2 4 ltac:(lia) ltac:(lia) R2) as S3.
  change 0xF0000000 with (Z.shiftl (Z.ones 4) (32 - 4)).
  destruct (clz_step _ 4 _) as [t3 n3]. destruct S3 as (R3 & L3 & A3 & B3).
  pose proof (clz_step_spec t3 n3 2 ltac:(lia) ltac:(lia) R3) as S4.
  change 0xC0000000 with (Z.shiftl (Z.ones 2) (32 - 2)).
  destruct (clz_step _ 2 _) as [t4 n4]. destruct S4 as (R4 & L4 & A4 & B4).
  assert (2 ^ 30 <= t4) by lia.
  change 0x80000000 with (Z.shiftl (Z.ones 1) 31). rewrite land_field by lia.
  destruct (Z.lt_ge_cases t4 (2 ^ 31)).
  - rewrite (Z.div_small t4) by lia. simpl.
    assert (Z.log2 t4 = 30) by (apply Z.log2_unique; lia). lia.
  - replace (t4 / 2 ^ 31) with 1 by zlia. simpl.
    assert (Z.log2 t4 = 31) by (apply Z.log2_unique; lia). lia.
Qed.

Lemma word_first_bit_spec w :
  0 < w < 2 ^ 32 ->
  0 <= word_first_bit w < 32 /\ Z.testbit w (31 - word_first_bit w) = true /\
  forall i, 0 <= i < word_first_bit w -> Z.testbit w (31 - i) = false.
Proof.
  intros Hw. rewrite word_first_bit_log2 by done.
  pose proof (Z.log2_nonneg w). assert (Z.log2 w < 32) by (apply Z.log2_lt_pow2; lia).
  split; [lia|]. split.
  - replace (31 - (31 - Z.log2 w)) with (Z.log2 w) by lia. apply Z.bit_log2. lia.
  - intros i Hi. apply Z.bits_above_log2; lia.
Qed.

(** the first set bit of the bitmap, when one is set *)
Lemma krhino_find_first_bit_spec bm nr :
  words_ok bm -> 0 <= nr -> bm_bit bm nr = true ->
  exists k, krhino_find_first_bit bm = Some k /\ 0 <= k <= nr /\ bm_bit bm k = true /\
    forall i, 0 <= i < k -> bm_bit bm i = false.
Proof.
  intros Hw Hnr Hb. revert nr Hnr Hb. induction Hw as [|w bm Hw Hbm IH]; intros nr Hnr Hb.
  { unfold bm_bit in Hb. by rewrite lookup_nil in Hb. }
  assert (Hcons : forall i, 0 <= i -> bm_bit (w :: bm) i =
    if decide (i < 32) then Z.testbit w (31 - i) else bm_bit bm (i - 32)).
  { intros i Hi. unfold bm_bit. rewrite !BITMAP_WORD_eq. case_decide.
    - rewrite Z.div_small, Z.mod_small by lia. done.
    - replace (Z.to_nat (i / 32)) with (S (Z.to_nat ((i - 32) / 32))) by zlia. simpl.
      by replace ((i - 32) mod 32) with (i mod 32) by zlia. }
  simpl. destruct (Z.eqb_spec w 0) as [->|Hw0].
  - rewrite Hcons in Hb by done. case_decide; [by rewrite Z.bits_0 in Hb|].
    destruct (IH (nr - 32) ltac:(lia) Hb) as (k & -> & Hk1 & Hk2 & Hk3). cbn.
    exists (32 + k). split; [done|]. split; [lia|]. split.
    + rewrite Hcons, decide_False by lia. by replace (32 + k - 32) with k by lia.
    + intros i Hi. rewrite Hcons by lia. case_decide; [by rewrite Z.bits_0|]. apply Hk3. lia.
  - destruct (word_first_bit_spec w) as (R & T & F); [lia|].
    exists (word_first_bit w). split; [done|]. split_and!; [lia| | |].
    + destruct (Z.lt_ge_cases nr (word_first_bit w)) as [Hlt|]; [|done].
      rewrite Hcons, decide_True, F in Hb by lia. done.
    + by rewrite Hcons, decide_True by lia.
    + intros i Hi. rewrite Hcons, decide_True by lia. by apply F.
Qed.
