(* ===== verification/Cpu.v ===== *)
(** * One processor with interrupts ([arch/include/port.h], [port_s.S])

    Code that shares words of memory with interrupt handlers and other tasks: a
    sequence of accesses, with the interrupt flag of the processor saved and
    cleared by [cpu_intrpt_save] and written back by [cpu_intrpt_restore].  The
    machine runs one context at a time, access by access, and may leave it for
    another one between any two of them, but only while the flag is set.  Code
    that keeps the flag clear around its accesses ([protected]) is then as good as
    one step: its calls have an order in which each sees what the ones before
    it left ([runs_linear]). *)

From S2P Require Import Prelude.

Abbreviation mem := (gmap nat Z).

(** ** Code *)

Inductive code (A : Type) : Type :=
  | Done (a : A)
  | Load (p : nat) (k : Z -> code A)
  | Store (p : nat) (v : Z) (k : code A)
  (** [mfcr r0, psr; psrclr ie] *)
  | IntSave (k : bool -> code A)
  (** [mtcr r0, psr]; a switch that is pending comes then *)
  | IntRestore (psr : bool) (k : code A).
Arguments Done {A} a.
Arguments Load {A} p k.
Arguments Store {A} p v k.
Arguments IntSave {A} k.
Arguments IntRestore {A} psr k.

Fixpoint code_bind {A B} (f : A -> code B) (c : code A) : code B :=
  match c with
  | Done a => f a
  | Load p k => Load p (fun v => code_bind f (k v))
  | Store p v k => Store p v (code_bind f k)
  | IntSave k => IntSave (fun psr => code_bind f (k psr))
  | IntRestore psr k => IntRestore psr (code_bind f k)
  end.
#[export] Instance code_ret : MRet code := @Done.
#[export] Instance code_mbind : MBind code := @code_bind.

Definition load (target : nat) : code Z := Load target Done.
Definition store (target : nat) (v : Z) : code unit := Store target v (Done tt).
Definition cpu_intrpt_save : code bool := IntSave Done.
Definition cpu_intrpt_restore (psr : bool) : code unit := IntRestore psr (Done tt).

(** [RHINO_CPU_INTRPT_DISABLE] and [RHINO_CPU_INTRPT_ENABLE]; [psr] is the
    variable of [CPSR_ALLOC] *)
Definition RHINO_CPU_INTRPT_DISABLE : code bool := cpu_intrpt_save.
Definition RHINO_CPU_INTRPT_ENABLE (psr : bool) : code unit := cpu_intrpt_restore psr.

(** the code run without an interruption, from the flag [b]; [None] when it
    accesses a word that is not there *)
Fixpoint alone {A} (c : code A) (b : bool) (m : mem) : option (A * bool * mem) :=
  match c with
  | Done a => Some (a, b, m)
  | Load p k => v ← m !! p; alone (k v) b m
  | Store p v k => _ ← m !! p; alone k b (<[p := v]> m)
  | IntSave k => alone (k b) false m
  | IntRestore psr k => alone k psr m
  end.

(** the flag is clear up to the end, where it becomes [psr] again *)
Fixpoint in_section (psr : bool) {A} (c : code A) : Prop :=
  match c with
  | Done _ | IntSave _ => False
  | Load _ k => forall v, in_section psr (k v)
  | Store _ _ k => in_section psr k
  | IntRestore b k => b = psr /\ exists a, k = Done a
  end.

(** at most one access, or all of them with the flag clear *)
Definition protected {A} (c : code A) : Prop :=
  (exists p k, c = Load p (fun v => Done (k v))) \/ (exists k, c = IntSave k /\ forall psr, in_section psr (k psr)).

(** ** The machine *)

Section machine.
Context {call : Type} (prog : call -> code Z).

(** a task or an interrupt: the calls it has still to make, the one it is in, its
    interrupt flag and what its calls returned *)
Record context := mkCtx { todo : list call; running : option (call * code Z); ie : bool; returned : list (call * Z) }.
Record machine := mkMach { memory : mem; ctxs : gmap nat context; cur : nat }.

(** one access, call or return of a context *)
Definition ctx_step (m : mem) (c : context) : option (mem * context) :=
  match running c with
  | None => match todo c with [] => None | x :: l => Some (m, mkCtx l (Some (x, prog x)) (ie c) (returned c)) end
  | Some (x, Done r) => Some (m, mkCtx (todo c) None (ie c) (returned c ++ [(x, r)]))
  | Some (x, Load p k) => v ← m !! p; Some (m, mkCtx (todo c) (Some (x, k v)) (ie c) (returned c))
  | Some (x, Store p v k) => _ ← m !! p; Some (<[p := v]> m, mkCtx (todo c) (Some (x, k)) (ie c) (returned c))
  | Some (x, IntSave k) => Some (m, mkCtx (todo c) (Some (x, k (ie c))) false (returned c))
  | Some (x, IntRestore psr k) => Some (m, mkCtx (todo c) (Some (x, k)) psr (returned c))
  end.

Definition finished (c : context) : bool :=
  match running c, todo c with None, [] => true | _, _ => false end.

(** [Switch j]: an interrupt comes, returns, or makes another task run *)
Inductive event := Run | Switch (j : nat).

Definition mstep (e : event) (s : machine) : option machine :=
  c ← ctxs s !! cur s;
  match e with
  | Run => '(m, c) ← ctx_step (memory s) c; Some (mkMach m (<[cur s := c]> (ctxs s)) (cur s))
  | Switch j => _ ← ctxs s !! j; if ie c || finished c then Some (mkMach (memory s) (ctxs s) j) else None
  end.

Fixpoint mruns (es : list event) (s : machine) : option machine :=
  match es with [] => Some s | e :: es => s ← mstep e s; mruns es s end.

(** the contexts before their first call, with their interrupt flags *)
Definition mstart (m : mem) (P : gmap nat (bool * list call)) (first : nat) : machine :=
  mkMach m ((fun p => mkCtx p.2 None p.1 []) <$> P) first.

(** ** An order of the calls *)

(** a call of the context [who] that returns [what] *)
Record done_call := mkDone { who : nat; which : call; what : Z }.

(** the calls one after the other, each alone *)
Inductive in_order (m : mem) : list done_call -> mem -> Prop :=
  | in_order_nil : in_order m [] m
  | in_order_snoc l m1 d m2 : in_order m l m1 -> (forall b, alone (prog (which d)) b m1 = Some (what d, b, m2)) ->
      in_order m (l ++ [d]) m2.

(** the call that is done and has not returned yet *)
Definition pending (c : context) : list (call * Z) :=
  match running c with Some (x, Done r) => [(x, r)] | _ => [] end.
Definition current_call (c : context) : list call :=
  match running c with Some (x, _) => [x] | None => [] end.

Definition calls_of (i : nat) (l : list done_call) : list (call * Z) :=
  (fun d => (which d, what d)) <$> filter (fun d => who d = i) l.

(** between two calls *)
Definition between (c : context) : Prop := match running c with None | Some (_, Done _) => True | _ => False end.

(** [l] is an order of the calls that have taken effect: those of each context
    are those it made, in its order and with the results it got, and the memory
    is what they leave one after the other *)
Record linear (m0 : mem) (P : gmap nat (bool * list call)) (l : list done_call) (s : machine) : Prop := {
  li_ctx : forall i c, ctxs s !! i = Some c -> calls_of i l = returned c ++ pending c;
  li_none : forall i, P !! i = None -> ctxs s !! i = None /\ calls_of i l = [];
  li_prog : forall i p, P !! i = Some p -> exists c, ctxs s !! i = Some c /\ (returned c).*1 ++ current_call c ++ todo c = p.2;
  li_order : exists m, in_order m0 l m /\ ((forall c, ctxs s !! cur s = Some c -> between c) -> memory s = m)
}.

(** the calls are those of the contexts *)
Lemma linear_calls m0 P l s d : linear m0 P l s -> d ∈ l -> exists p, P !! who d = Some p /\ which d ∈ p.2.
Proof using.
  intros [H1 H2 H3 _] Hd. assert (Hin : (which d, what d) ∈ calls_of (who d) l).
  { unfold calls_of. apply list_elem_of_fmap. exists d. split; [done|]. by apply list_elem_of_filter. }
  destruct (P !! who d) as [p|] eqn:Hp; [|destruct (H2 _ Hp) as [_ E]; rewrite E in Hin; by apply elem_of_nil in Hin].
  destruct (H3 _ _ Hp) as (c & Hc & E). exists p. split; [done|]. rewrite <- E. rewrite (H1 _ _ Hc) in Hin.
  apply elem_of_app in Hin as [Hin|Hin].
  - apply elem_of_app. left. apply list_elem_of_fmap. by exists (which d, what d).
  - apply elem_of_app. right. apply elem_of_app. left. unfold pending, current_call in *.
    destruct (running c) as [[x [r|? ?|? ? ?|?|? ?]]|]; try by apply elem_of_nil in Hin.
    apply list_elem_of_singleton in Hin as [= -> _]. left.
Qed.

(** ** Protected calls *)

Context (good : call -> Prop) (D : gset nat).
(** the calls are protected, and each returns what it would alone *)
Context (Hprot : forall x, good x -> protected (prog x)).
Context (Hsafe : forall x m, good x -> dom m = D -> exists r m', dom m' = D /\ forall b, alone (prog x) b m = Some (r, b, m')).

(** what a context is doing when it does not run: nothing that others could see *)
Inductive at_rest (c : context) : Prop :=
  | rest_idle : running c = None -> at_rest c
  | rest_start x : running c = Some (x, prog x) -> at_rest c
  | rest_done x r : running c = Some (x, Done r) -> at_rest c.

(** the context that runs may be inside a call: the flag is clear, and what is
    left of the call makes of the memory what the whole call makes of [g], the
    memory the calls before it left *)
Definition inside (g m : mem) (c : context) : Prop := exists x k psr r m',
  running c = Some (x, k) /\ in_section psr k /\ ie c = false /\ good x /\
  alone k false m = Some (r, psr, m') /\ (forall b, alone (prog x) b g = Some (r, b, m')) /\ dom m' = D.

Record minv (m0 : mem) (P : gmap nat (bool * list call)) (l : list done_call) (s : machine) : Prop := {
  mi_ctx : forall i c, ctxs s !! i = Some c -> calls_of i l = returned c ++ pending c;
  mi_none : forall i, P !! i = None -> ctxs s !! i = None /\ calls_of i l = [];
  mi_prog : forall i p, P !! i = Some p -> exists c, ctxs s !! i = Some c /\ (returned c).*1 ++ current_call c ++ todo c = p.2;
  mi_good : forall i c, ctxs s !! i = Some c -> Forall good (current_call c ++ todo c);
  mi_rest : forall i c, ctxs s !! i = Some c -> i <> cur s -> at_rest c;
  mi_cur : exists c g, ctxs s !! cur s = Some c /\ in_order m0 l g /\ dom g = D /\
    ((at_rest c /\ memory s = g) \/ inside g (memory s) c)
}.

Lemma calls_of_app i l d : calls_of i (l ++ [d]) = calls_of i l ++ (if decide (who d = i) then [(which d, what d)] else []).
Proof using. unfold calls_of. rewrite filter_app, fmap_app. f_equal. rewrite filter_cons, filter_nil. by case_decide. Qed.

(** a step of the context that runs, with the call [d] taking effect or none *)
Lemma minv_run m0 P l s c m' c' g' ds :
  minv m0 P l s -> ctxs s !! cur s = Some c ->
  (ds = [] \/ exists d, ds = [d] /\ who d = cur s) ->
  returned c' ++ pending c' = returned c ++ pending c ++ ((fun d => (which d, what d)) <$> ds) ->
  (returned c').*1 ++ current_call c' ++ todo c' = (returned c).*1 ++ current_call c ++ todo c ->
  Forall good (current_call c' ++ todo c') ->
  in_order m0 (l ++ ds) g' -> dom g' = D -> ((at_rest c' /\ m' = g') \/ inside g' m' c') ->
  minv m0 P (l ++ ds) (mkMach m' (<[cur s := c']> (ctxs s)) (cur s)).
Proof using.
  intros [H1 H2 H3 H4 H5 H6] Hc Hds Hr Hp Hg Ho Hd Hi.
  assert (Hof : forall i, calls_of i (l ++ ds) = calls_of i l ++ (if decide (i = cur s) then (fun d => (which d, what d)) <$> ds else [])).
  { intros i. destruct Hds as [->|(d & -> & Hw)]; [rewrite app_nil_r; case_decide; by rewrite app_nil_r|]. rewrite calls_of_app, Hw.
    destruct (decide (cur s = i)), (decide (i = cur s)); done. }
  split; cbn [ctxs cur memory].
  - intros i ci [[<- <-]|[Hne Hi']]%lookup_insert_Some; rewrite Hof.
    + rewrite decide_True by done. rewrite (H1 _ _ Hc), Hr. by rewrite app_assoc.
    + rewrite decide_False by done. rewrite app_nil_r. by apply H1.
  - intros i Hi'. destruct (H2 i Hi') as [E1 E2]. assert (i <> cur s) by congruence.
    by rewrite lookup_insert_ne, Hof, decide_False, app_nil_r.
  - intros i p Hpi. destruct (H3 i p Hpi) as (ci & Hci & E). destruct (decide (i = cur s)) as [->|Hne].
    + exists c'. rewrite lookup_insert_eq. split; [done|]. assert (ci = c) as -> by congruence. by rewrite Hp.
    + exists ci. by rewrite lookup_insert_ne.
  - intros i ci [[<- <-]|[Hne Hi']]%lookup_insert_Some; [done|by apply (H4 i)].
  - intros i ci [[<- <-]|[Hne Hi']]%lookup_insert_Some Hn; [done|by apply (H5 i)].
  - exists c', g'. rewrite lookup_insert_eq. done.
Qed.
Lemma section_pending psr (k : code Z) : in_section psr k -> match k with Done _ => False | _ => True end.
Proof using. by destruct k. Qed.

Lemma protected_start x : good x -> match prog x with Done _ => False | _ => True end.
Proof using Hprot. intros Hx. by destruct (Hprot x Hx) as [(p & k & ->)|(k & -> & _)]. Qed.

Lemma protected_pending x t b rs : good x -> pending (mkCtx t (Some (x, prog x)) b rs) = [].
Proof using Hprot. intros Hx. pose proof (protected_start x Hx). unfold pending. cbn. by destruct (prog x). Qed.

Lemma pending_section psr x k t b rs : in_section psr k -> pending (mkCtx t (Some (x, k)) b rs) = [].
Proof using. intros Hk. pose proof (section_pending _ _ Hk). unfold pending. cbn. by destruct k. Qed.

Ltac one_step H c Hc := eapply (minv_run _ _ _ _ c); [exact H|exact Hc|..]; cbn [returned todo running fmap list_fmap].

(** the context that runs, between two calls, starts one or returns *)
Lemma rest_step m0 P l s c g m' c' :
  minv m0 P l s -> ctxs s !! cur s = Some c -> at_rest c -> memory s = g -> in_order m0 l g -> dom g = D ->
  ctx_step (memory s) c = Some (m', c') -> exists ds, minv m0 P (l ++ ds) (mkMach m' (<[cur s := c']> (ctxs s)) (cur s)).
Proof using Hprot Hsafe.
  intros H Hc Hr Em Ho Hd E. pose proof (mi_good _ _ _ _ H _ _ Hc) as Hg. unfold ctx_step in E. destruct c as [td ru b rs].
  destruct Hr as [Hru|x Hru|x r Hru]; cbn [running todo ie returned] in *; subst ru.
  - destruct td as [|x td]; [done|]. injection E as <- <-. pose proof (Forall_inv Hg) as Hx. exists [].
    one_step H (mkCtx (x :: td) None b rs) Hc; [by left| |done|exact Hg|by rewrite app_nil_r|done|].
    + rewrite protected_pending by done. done.
    + left. split; [by eapply rest_start|done].
  - pose proof (Forall_inv Hg) as Hx. destruct (Hsafe x g Hx Hd) as (r & m2 & Hd2 & Ha).
    pose proof (protected_pending x td b rs Hx) as Hpe. destruct (Hprot x Hx) as [(p & k & Ep)|(k & Ep & Hk)]; rewrite Ep in E, Ha.
    + rewrite Em in E. pose proof (Ha b) as Hb. cbn in Hb. destruct (g !! p) as [v|] eqn:Ev; [|done]. cbn in E, Hb.
      injection E as <- <-. injection Hb as <- <-. exists [mkDone (cur s) x (k v)].
      one_step H (mkCtx td (Some (x, prog x)) b rs) Hc; [right; by eexists|by rewrite Hpe|done|exact Hg| |exact Hd2|].
      * eapply in_order_snoc; [exact Ho|]. cbn. intros b'. rewrite Ep. cbn. by rewrite Ev.
      * left. split; [by eapply rest_done|done].
    + injection E as <- <-. exists []. one_step H (mkCtx td (Some (x, prog x)) b rs) Hc; [by left| |done|exact Hg|by rewrite app_nil_r|exact Hd|].
      * rewrite Hpe. by rewrite (pending_section b) by apply Hk.
      * right. exists x, (k b), b, r, m2. split_and!; [done|apply Hk|done|done| | |done].
        -- rewrite Em. apply (Ha b).
        -- intros b'. rewrite Ep. apply Ha.
  - injection E as <- <-. exists []. one_step H (mkCtx td (Some (x, Done r)) b rs) Hc; [by left|cbn; by rewrite app_nil_r| | |by rewrite app_nil_r|done|].
    + cbn. rewrite fmap_app. cbn. by rewrite <- app_assoc.
    + by apply Forall_inv_tail in Hg.
    + left. split; [by apply rest_idle|done].
Qed.

(** inside a call it makes one of its accesses, or ends it *)
Lemma inside_step m0 P l s c g m' c' :
  minv m0 P l s -> ctxs s !! cur s = Some c -> inside g (memory s) c -> in_order m0 l g -> dom g = D ->
  ctx_step (memory s) c = Some (m', c') -> exists ds, minv m0 P (l ++ ds) (mkMach m' (<[cur s := c']> (ctxs s)) (cur s)).
Proof using.
  intros H Hc (x & k & psr & r & m2 & Hru & Hk & Hie & Hx & Ha & Hall & Hd2) Ho Hd E. pose proof (mi_good _ _ _ _ H _ _ Hc) as Hg.
  unfold ctx_step in E. destruct c as [td ru b rs]. cbn [running todo ie returned] in *. subst ru b.
  assert (Hpe := pending_section psr x k td false rs Hk).
  assert (Hin : forall m1 k1, in_section psr k1 -> alone k1 false m1 = Some (r, psr, m2) -> m' = m1 -> c' = mkCtx td (Some (x, k1)) false rs ->
    exists ds, minv m0 P (l ++ ds) (mkMach m' (<[cur s := c']> (ctxs s)) (cur s))).
  { intros m1 k1 Hk1 Ha1 -> ->. exists []. one_step H (mkCtx td (Some (x, k)) false rs) Hc; [by left| |done|exact Hg|by rewrite app_nil_r|exact Hd|].
    - rewrite Hpe. by rewrite (pending_section psr).
    - right. by exists x, k1, psr, r, m2. }
  destruct k as [a|p k|p v k|k|b k]; cbn in Hk, Ha; try done.
  - destruct (memory s !! p) as [v|]; [|done]. cbn in E, Ha. injection E as <- <-. by eapply Hin.
  - destruct (memory s !! p) as [w|]; [|done]. cbn in E, Ha. injection E as <- <-. by eapply Hin.
  - destruct Hk as [-> [a ->]]. cbn in Ha. injection Ha as -> <-. injection E as <- <-. exists [mkDone (cur s) x r].
    one_step H (mkCtx td (Some (x, IntRestore psr (Done r))) false rs) Hc; [right; by eexists|by rewrite Hpe|done|exact Hg| |exact Hd2|].
    + by eapply in_order_snoc.
    + left. split; [by eapply rest_done|done].
Qed.

Lemma minv_step m0 P l s e s' : minv m0 P l s -> mstep e s = Some s' -> exists ds, minv m0 P (l ++ ds) s'.
Proof using Hprot Hsafe.
  intros H E. destruct (mi_cur _ _ _ _ H) as (c & g & Hc & Ho & Hd & Hcase). unfold mstep in E. rewrite Hc in E. cbn in E. destruct e as [|j].
  - destruct (ctx_step (memory s) c) as [[m' c']|] eqn:Es; [|done]. cbn in E. injection E as <-.
    destruct Hcase as [[Hr Em]|Hin]; [by eapply rest_step|by eapply inside_step].
  - destruct (ctxs s !! j) as [cj|] eqn:Hj; [|done]. cbn in E. destruct (ie c || finished c) eqn:Hl; [|done]. injection E as <-.
    destruct Hcase as [[Hr Em]|(x & k & psr & r & m2 & Hru & _ & Hie & _)].
    2: { unfold finished in Hl. by rewrite Hru, Hie in Hl. }
    exists []. rewrite app_nil_r. destruct H as [H1 H2 H3 H4 H5 H6]. split; cbn [ctxs cur memory]; try done.
    + intros i ci Hi Hne. destruct (decide (i = cur s)) as [->|Hi']; [assert (ci = c) as -> by congruence; done|by apply (H5 i)].
    + exists cj, g. split_and!; [done..|]. left. split; [|done].
      destruct (decide (j = cur s)) as [->|Hne]; [assert (cj = c) as -> by congruence; done|by apply (H5 j)].
Qed.

Lemma minv_runs m0 P es : forall l s s', minv m0 P l s -> mruns es s = Some s' -> exists ds, minv m0 P (l ++ ds) s'.
Proof using Hprot Hsafe.
  induction es as [|e es IH]; intros l s s' H E; cbn in E; [simplify_eq; exists []; by rewrite app_nil_r|].
  destruct (mstep e s) as [s1|] eqn:Es; [|done]. cbn in E. destruct (minv_step _ _ _ _ _ _ H Es) as (ds & H1).
  destruct (IH _ _ _ H1 E) as (ds2 & H2). exists (ds ++ ds2). by rewrite app_assoc.
Qed.

Lemma minv_start m0 P first : dom m0 = D -> is_Some (P !! first) -> (forall i b cs, P !! i = Some (b, cs) -> Forall good cs) ->
  minv m0 P [] (mstart m0 P first).
Proof using.
  intros Hd [p Hp] Hg. assert (Hl : forall i, ctxs (mstart m0 P first) !! i = (fun p => mkCtx p.2 None p.1 []) <$> P !! i) by (intros; apply lookup_fmap).
  split.
  - intros i c Hc. rewrite Hl in Hc. destruct (P !! i); [|done]. by injection Hc as <-.
  - intros i Hi. by rewrite Hl, Hi.
  - intros i q Hq. eexists. rewrite Hl, Hq. done.
  - intros i c Hc. rewrite Hl in Hc. destruct (P !! i) as [[b cs]|] eqn:E; [|done]. injection Hc as <-. by eapply Hg.
  - intros i c Hc _. rewrite Hl in Hc. destruct (P !! i); [|done]. injection Hc as <-. by apply rest_idle.
  - eexists _, m0. rewrite Hl. cbn. rewrite Hp. split_and!; [done|constructor|done|]. left. split; [by apply rest_idle|done].
Qed.

Lemma minv_linear m0 P l s : minv m0 P l s -> linear m0 P l s.
Proof using Hprot.
  intros H. pose proof H as [H1 H2 H3 H4 _ (c & g & Hc & Ho & Hd & Hcase)]. split; try done. exists g. split; [done|].
  intros Hb. specialize (Hb c Hc). destruct Hcase as [[_ ?]|(x & k & psr & r & m2 & Hru & Hk & _)]; [done|].
  unfold between in Hb. rewrite Hru in Hb. pose proof (section_pending _ _ Hk). by destruct k.
Qed.

(** the context that runs is not stuck *)
Lemma minv_progress m0 P l s c : minv m0 P l s -> ctxs s !! cur s = Some c -> finished c = false -> is_Some (mstep Run s).
Proof using Hprot Hsafe.
  intros H Hc Hf. destruct (mi_cur _ _ _ _ H) as (c' & g & Hc' & _ & Hd & Hcase). assert (c' = c) as -> by congruence.
  unfold mstep. rewrite Hc. cbn. assert (Hs : is_Some (ctx_step (memory s) c)); [|destruct Hs as [[m' c2] ->]; by eexists].
  pose proof (mi_good _ _ _ _ H _ _ Hc) as Hg. unfold ctx_step, finished in *. destruct c as [td ru b rs].
  destruct Hcase as [[[Hru|x Hru|x r Hru] Em]|(x & k & psr & r & m2 & Hru & Hk & Hie & Hx & Ha & _)]; cbn [running todo ie returned] in *; subst ru.
  - destruct td; [done|by eexists].
  - pose proof (Forall_inv Hg) as Hx. destruct (Hsafe x g Hx Hd) as (r & m2 & _ & Ha). specialize (Ha b).
    destruct (Hprot x Hx) as [(p & k & Ep)|(k & Ep & Hk)]; rewrite Ep in *; [|by eexists]. rewrite Em. cbn in Ha. destruct (g !! p); [by eexists|done].
  - by eexists.
  - destruct k as [a|p k|p v k|k|b' k]; cbn in Hk, Ha; try done; try by eexists.
    + destruct (memory s !! p); [by eexists|done].
    + destruct (memory s !! p); [by eexists|done].
Qed.

(** however the contexts interleave, the calls that have taken effect have an
    order, which only grows at its end; and the machine is never stuck inside a
    call *)
Lemma runs_linear m0 P first es s : dom m0 = D -> is_Some (P !! first) -> (forall i b cs, P !! i = Some (b, cs) -> Forall good cs) ->
  mruns es (mstart m0 P first) = Some s ->
  (forall c, ctxs s !! cur s = Some c -> finished c = false -> is_Some (mstep Run s)) /\
  exists l, linear m0 P l s /\ forall es' s', mruns es' s = Some s' -> exists l', linear m0 P (l ++ l') s'.
Proof using Hprot Hsafe.
  intros Hd Hp Hg E. destruct (minv_runs _ _ _ _ _ _ (minv_start m0 P first Hd Hp Hg) E) as (l & H). split.
  - intros c Hc Hf. by eapply minv_progress.
  - exists l. split; [by apply minv_linear|]. intros es' s' E'. destruct (minv_runs _ _ _ _ _ _ H E') as (l' & H').
    exists l'. by apply minv_linear.
Qed.
End machine.
