(* ===== verification/Atomic.v ===== *)
(** * Atomic operations ([common/k_atomic.c], [common/k_cpuset.h])

    Words of 32 bits that tasks and interrupts share.  The operations are code of
    [Cpu]: an access at a time, with the interrupts saved and disabled before and
    restored after, as the source writes them ([*target += value] reads the word
    a second time).  [after] and [answer] are what they promise: a change in one
    step. *)

From S2P Require Import Prelude Config Bitmap Cpu.

(** ** The operations *)

Definition rhino_atomic_add (target : nat) (value : Z) : code Z :=
  psr ← RHINO_CPU_INTRPT_DISABLE; old_value ← load target; v ← load target;
  store target (u32 (v + value));; RHINO_CPU_INTRPT_ENABLE psr;; mret old_value.
Definition rhino_atomic_sub (target : nat) (value : Z) : code Z :=
  psr ← RHINO_CPU_INTRPT_DISABLE; old_value ← load target; v ← load target;
  store target (u32 (v - value));; RHINO_CPU_INTRPT_ENABLE psr;; mret old_value.
Definition rhino_atomic_inc (target : nat) : code Z :=
  psr ← RHINO_CPU_INTRPT_DISABLE; old_value ← load target; v ← load target;
  store target (u32 (v + 1));; RHINO_CPU_INTRPT_ENABLE psr;; mret old_value.
Definition rhino_atomic_dec (target : nat) : code Z :=
  psr ← RHINO_CPU_INTRPT_DISABLE; old_value ← load target; v ← load target;
  store target (u32 (v - 1));; RHINO_CPU_INTRPT_ENABLE psr;; mret old_value.
Definition rhino_atomic_set (target : nat) (value : Z) : code Z :=
  psr ← RHINO_CPU_INTRPT_DISABLE; old_value ← load target;
  store target value;; RHINO_CPU_INTRPT_ENABLE psr;; mret old_value.
Definition rhino_atomic_get (target : nat) : code Z := load target.
Definition rhino_atomic_or (target : nat) (value : Z) : code Z :=
  psr ← RHINO_CPU_INTRPT_DISABLE; old_value ← load target; v ← load target;
  store target (Z.lor v value);; RHINO_CPU_INTRPT_ENABLE psr;; mret old_value.
Definition rhino_atomic_xor (target : nat) (value : Z) : code Z :=
  psr ← RHINO_CPU_INTRPT_DISABLE; old_value ← load target; v ← load target;
  store target (Z.lxor v value);; RHINO_CPU_INTRPT_ENABLE psr;; mret old_value.
Definition rhino_atomic_and (target : nat) (value : Z) : code Z :=
  psr ← RHINO_CPU_INTRPT_DISABLE; old_value ← load target; v ← load target;
  store target (Z.land v value);; RHINO_CPU_INTRPT_ENABLE psr;; mret old_value.
Definition rhino_atomic_nand (target : nat) (value : Z) : code Z :=
  psr ← RHINO_CPU_INTRPT_DISABLE; old_value ← load target; v ← load target;
  store target (u32 (Z.lnot (Z.land v value)));; RHINO_CPU_INTRPT_ENABLE psr;; mret old_value.
Definition rhino_atomic_clear (target : nat) : code Z :=
  psr ← RHINO_CPU_INTRPT_DISABLE; old_value ← load target;
  store target 0;; RHINO_CPU_INTRPT_ENABLE psr;; mret old_value.
Definition rhino_atomic_cas (target : nat) (old_value new_value : Z) : code Z :=
  psr ← RHINO_CPU_INTRPT_DISABLE; v ← load target;
  if v =? old_value then store target new_value;; RHINO_CPU_INTRPT_ENABLE psr;; mret 1
  else RHINO_CPU_INTRPT_ENABLE psr;; mret 0.

Definition CPUSET_ATOMIC_SET (cpuset : nat) (n : Z) : code unit :=
  rhino_atomic_or cpuset (Z.shiftl 1 n);; mret tt.
Definition CPUSET_ATOMIC_CLR (cpuset : nat) (n : Z) : code unit :=
  rhino_atomic_and cpuset (u32 (Z.lnot (Z.shiftl 1 n)));; mret tt.
Definition CPUSET_ATOMIC_COPY (cpusetDst : nat) (cpusetSrc : Z) : code unit :=
  rhino_atomic_set cpusetDst cpusetSrc;; mret tt.
(** the same on a set of the caller's own *)
Definition CPUSET_CLR (cpuset n : Z) : Z := Z.land cpuset (u32 (Z.lnot (Z.shiftl 1 n))).
Definition CPUSET_ZERO : Z := 0.
Definition CPUSET_IS_ZERO (cpuset : Z) : bool := cpuset =? 0.
Definition CPUSET_SET (cpuset n : Z) : Z := Z.lor cpuset (Z.shiftl 1 n).
Definition CPUSET_ISSET (cpuset n : Z) : bool := negb (Z.land cpuset (Z.shiftl 1 n) =? 0).

(** ** Calls *)

Inductive atomic_op :=
  | AtAdd (v : Z) | AtSub (v : Z) | AtInc | AtDec | AtSet (v : Z) | AtGet | AtOr (v : Z) | AtXor (v : Z)
  | AtAnd (v : Z) | AtNand (v : Z) | AtClear | AtCas (old new : Z).

Definition atomic_do (t : nat) (op : atomic_op) : code Z :=
  match op with
  | AtAdd v => rhino_atomic_add t v
  | AtSub v => rhino_atomic_sub t v
  | AtInc => rhino_atomic_inc t
  | AtDec => rhino_atomic_dec t
  | AtSet v => rhino_atomic_set t v
  | AtGet => rhino_atomic_get t
  | AtOr v => rhino_atomic_or t v
  | AtXor v => rhino_atomic_xor t v
  | AtAnd v => rhino_atomic_and t v
  | AtNand v => rhino_atomic_nand t v
  | AtClear => rhino_atomic_clear t
  | AtCas old new => rhino_atomic_cas t old new
  end.

(** a call: the word and the operation *)
Definition atomic_call (c : nat * atomic_op) : code Z := atomic_do c.1 c.2.

(** ** The specification: a word that is changed in one step *)

Definition after (op : atomic_op) (v : Z) : Z :=
  match op with
  | AtAdd d => u32 (v + d)
  | AtSub d => u32 (v - d)
  | AtInc => u32 (v + 1)
  | AtDec => u32 (v - 1)
  | AtSet x => x
  | AtGet => v
  | AtOr x => Z.lor v x
  | AtXor x => Z.lxor v x
  | AtAnd x => Z.land v x
  | AtNand x => u32 (Z.lnot (Z.land v x))
  | AtClear => 0
  | AtCas old new => if v =? old then new else v
  end.

Definition answer (op : atomic_op) (v : Z) : Z :=
  match op with AtCas old _ => if v =? old then 1 else 0 | _ => v end.

(** what a sequence of operations on one word answers *)
Fixpoint answers (ops : list atomic_op) (v : Z) : list Z :=
  match ops with [] => [] | op :: ops => answer op v :: answers ops (after op v) end.

Definition finally (ops : list atomic_op) (v : Z) : Z := foldl (fun v op => after op v) v ops.

(** the operations on the word [t], and their results *)
Definition on_word (t : nat) (l : list (done_call (call := nat * atomic_op))) := filter (fun d => (which d).1 = t) l.
Definition ops_on (t : nat) (l : list (done_call (call := nat * atomic_op))) : list atomic_op := (fun d => (which d).2) <$> on_word t l.
Definition results_on (t : nat) (l : list (done_call (call := nat * atomic_op))) : list Z := what <$> on_word t l.

Lemma answers_snoc ops op v : answers (ops ++ [op]) v = answers ops v ++ [answer op (finally ops v)].
Proof. revert v. induction ops as [|o ops IH]; intros v; [done|]. cbn. f_equal. apply IH. Qed.

Lemma finally_snoc ops op v : finally (ops ++ [op]) v = after op (finally ops v).
Proof. unfold finally. by rewrite foldl_app. Qed.

(** ** The operations keep interrupts away *)

Lemma atomic_protected c : protected (atomic_call c).
Proof.
  destruct c as [t op]. unfold atomic_call. cbn [fst snd].
  destruct op; first [left; exists t, (fun x => x); reflexivity|right; eexists; split; [reflexivity|]; cbn; intros psr x].
  all: try (case_match; (split; [reflexivity|by eexists])).
  all: try intros y; (split; [reflexivity|by eexists]).
Qed.

(** a call alone does what the specification says *)
Lemma atomic_alone t op b m v : m !! t = Some v -> alone (atomic_call (t, op)) b m = Some (answer op v, b, <[t := after op v]> m).
Proof.
  intros Hv. destruct op; unfold atomic_call; cbn; rewrite ?Hv; cbn; rewrite ?Hv; cbn; rewrite ?Hv; try done; [by rewrite insert_id|].
  destruct (v =? old); cbn; rewrite ?Hv; cbn; [done|by rewrite insert_id].
Qed.

Lemma atomic_alone_word t op b m r : alone (atomic_call (t, op)) b m = Some r -> is_Some (m !! t).
Proof. destruct (m !! t) eqn:Hv; [by eexists|]. destruct op; unfold atomic_call; cbn; by rewrite Hv. Qed.

(** every word goes its own way *)
Lemma order_words m0 l m : in_order atomic_call m0 l m -> forall t v, m0 !! t = Some v ->
  m !! t = Some (finally (ops_on t l) v) /\ results_on t l = answers (ops_on t l) v.
Proof.
  induction 1 as [|l m1 [i [u op] r] m2 _ IH Ha]; intros t v Hv; [done|]. destruct (IH t v Hv) as [E1 E2].
  specialize (Ha true). cbn in Ha. destruct (atomic_alone_word _ _ _ _ _ Ha) as [w Hw]. rewrite (atomic_alone _ _ _ _ _ Hw) in Ha. injection Ha as <- <-.
  unfold ops_on, results_on, on_word in *. rewrite filter_app, !fmap_app, filter_cons, filter_nil. cbn [which fst].
  destruct (decide (u = t)) as [->|Hne]; cbn [fmap list_fmap which what snd].
  - rewrite lookup_insert_eq, answers_snoc, finally_snoc, E2. assert (w = finally ((fun d => (which d).2) <$> filter (fun d => (which d).1 = t) l) v) as -> by congruence. done.
  - rewrite lookup_insert_ne, !app_nil_r by done. done.
Qed.

Lemma atomic_safe (D : gset nat) x m : x.1 ∈ D -> dom m = D -> exists r m', dom m' = D /\ forall b, alone (atomic_call x) b m = Some (r, b, m').
Proof.
  destruct x as [t op]. cbn. intros Ht <-. apply elem_of_dom in Ht as [v Hv]. exists (answer op v), (<[t := after op v]> m).
  split; [rewrite dom_insert_L; apply elem_of_dom_2 in Hv; set_solver|]. intros b. by apply atomic_alone.
Qed.

(** ** Without it, an update is lost *)

(** [rhino_atomic_inc] without [RHINO_CPU_INTRPT_DISABLE] *)
Definition unprotected_inc (target : nat) : code Z :=
  old_value ← load target; v ← load target; store target (u32 (v + 1));; mret old_value.

(** two tasks increment a counter; the second one comes between the read and
    the write of the first *)
Definition lossy_events : list event := [Run; Run; Run; Switch 1; Run; Run; Run; Run; Run; Switch 0; Run; Run].

Example unprotected_loses : exists s,
  mruns (fun _ : unit => unprotected_inc 0) lossy_events (mstart {[0%nat := 0]} {[0%nat := (true, [tt]); 1%nat := (true, [tt])]} 0) = Some s /\
  map_Forall (fun _ c => finished c = true) (ctxs s) /\ memory s !! 0%nat = Some 1.
Proof.
  eexists. split; [vm_compute; reflexivity|]. split; [|reflexivity]. apply map_Forall_to_list. vm_compute. repeat constructor.
Qed.

(** ** Ranges *)

Definition word (v : Z) : Prop := 0 <= v < 2 ^ 32.

Definition op_ok (op : atomic_op) : Prop :=
  match op with AtSet v | AtOr v | AtXor v | AtAnd v | AtCas _ v => word v | _ => True end.

Lemma word_bits v : word v <-> 0 <= v /\ forall i, 32 <= i -> Z.testbit v i = false.
Proof. apply word_range_testbit. Qed.

Lemma word_combine (f : Z -> Z -> Z) (g : bool -> bool -> bool) a b : (forall i, Z.testbit (f a b) i = g (Z.testbit a i) (Z.testbit b i)) ->
  g false false = false -> 0 <= f a b -> word a -> word b -> word (f a b).
Proof.
  intros Hf Hg H0 [_ Ha]%word_bits [_ Hb]%word_bits. apply word_bits. split; [done|]. intros i Hi. by rewrite Hf, Ha, Hb.
Qed.

Lemma after_word op v : op_ok op -> word v -> word (after op v).
Proof.
  intros Hx Hv. pose proof (proj1 Hv) as H0. destruct op; cbn in *; try apply u32_range; try done; try (by case_match); pose proof (proj1 Hx).
  - apply (word_combine Z.lor orb); [intros; apply Z.lor_spec|done|by apply Z.lor_nonneg|done..].
  - apply (word_combine Z.lxor xorb); [intros; apply Z.lxor_spec|done|by apply Z.lxor_nonneg|done..].
  - apply (word_combine Z.land andb); [intros; apply Z.land_spec|done|apply Z.land_nonneg; auto|done..].
Qed.

Lemma finally_word ops v : Forall op_ok ops -> word v -> word (finally ops v).
Proof. intros Hops. revert v. induction Hops as [|op ops H _ IH]; intros v Hv; [done|]. by apply IH, after_word. Qed.

(** ** Counters, tickets, locks and sets *)

Definition delta (op : atomic_op) : option Z :=
  match op with AtAdd d => Some d | AtSub d => Some (- d) | AtInc => Some 1 | AtDec => Some (-1) | AtGet => Some 0 | _ => None end.

Lemma after_delta op v d : delta op = Some d -> word v -> after op v = u32 (v + d).
Proof. destruct op; cbn; intros [= <-] Hv; try done. by rewrite Z.add_0_r, u32_small. Qed.

(** no addition is lost, and their order does not matter *)
Lemma finally_counts ops ds v : mapM delta ops = Some ds -> word v -> finally ops v = u32 (v + foldr Z.add 0 ds).
Proof.
  intros Hds%mapM_Some_1 Hv. revert v Hv. induction Hds as [|op d ops ds Hd _ IH]; intros v Hv; [by rewrite Z.add_0_r, u32_small|].
  change (finally (op :: ops) v) with (finally ops (after op v)). rewrite (after_delta _ _ _ Hd Hv), IH by apply u32_range.
  unfold u32. rewrite Zplus_mod_idemp_l. f_equal. cbn. lia.
Qed.

Lemma answers_inc n v : word v -> answers (replicate n AtInc) v = (fun i => u32 (v + Z.of_nat i)) <$> seq 0 n.
Proof.
  intros Hv. revert v Hv. induction n as [|n IH]; intros v Hv; [done|]. cbn [replicate answers answer after seq]. rewrite IH by apply u32_range.
  cbn. f_equal; [by rewrite Z.add_0_r, u32_small|]. rewrite <- fmap_S_seq, <- list_fmap_compose. apply list_fmap_ext. intros _ i _. cbn.
  unfold u32. rewrite Zplus_mod_idemp_l. f_equal. lia.
Qed.

Lemma tickets_differ n v : word v -> Z.of_nat n <= 2 ^ 32 -> NoDup (answers (replicate n AtInc) v).
Proof.
  intros Hv Hn. rewrite answers_inc by done. apply NoDup_fmap_2_strong; [|apply NoDup_seq].
  intros i j [_ Hi]%elem_of_seq [_ Hj]%elem_of_seq E. unfold u32 in E. unfold word in Hv.
  assert (D : (Z.of_nat i - Z.of_nat j) mod 2 ^ 32 = 0).
  { replace (Z.of_nat i - Z.of_nat j) with ((v + Z.of_nat i) - (v + Z.of_nat j)) by lia. by rewrite Zminus_mod, E, Z.sub_diag. }
  apply Z.mod_divide in D as [k D]; [|done]. nia.
Qed.

(** of those who try to replace the value [a] by another, the first one wins *)
Lemma cas_once a ops v : Forall (fun op => exists b, op = AtCas a b /\ b <> a) ops ->
  answers ops v = match ops with [] => [] | _ :: ops' => (if v =? a then 1 else 0) :: replicate (length ops') 0 end.
Proof.
  intros H. revert v. induction H as [|op ops (b & -> & Hb) Hops IH]; intros v; [done|]. cbn. f_equal. rewrite IH. destruct ops as [|op' ops]; [done|].
  cbn. f_equal. destruct (Z.eqb_spec v a) as [_|Hv]; [by destruct (Z.eqb_spec b a)|by destruct (Z.eqb_spec v a)].
Qed.

Lemma CPUSET_ISSET_bit w n : 0 <= n -> CPUSET_ISSET w n = Z.testbit w n.
Proof.
  intros Hn. unfold CPUSET_ISSET. destruct (Z.testbit w n) eqn:E.
  - apply negb_true_iff, Z.eqb_neq. intros H0. assert (Hb : Z.testbit (Z.land w (Z.shiftl 1 n)) n = false) by by rewrite H0, Z.bits_0.
    rewrite Z.land_spec, E, mask_testbit, bool_decide_eq_true_2 in Hb; done.
  - apply negb_false_iff, Z.eqb_eq, Z.bits_inj'. intros i Hi. rewrite Z.land_spec, mask_testbit, Z.bits_0 by done.
    case_bool_decide; [subst i; by rewrite E|by rewrite andb_false_r].
Qed.

Lemma cpuset_set_run m c n v b : m !! c = Some v -> 0 <= n ->
  alone (CPUSET_ATOMIC_SET c n) b m = Some (tt, b, <[c := CPUSET_SET v n]> m) /\
  forall i, 0 <= i -> CPUSET_ISSET (CPUSET_SET v n) i = bool_decide (i = n) || CPUSET_ISSET v i.
Proof.
  intros Hv Hn. unfold CPUSET_SET. split.
  - unfold CPUSET_ATOMIC_SET. cbn. by rewrite !Hv.
  - intros i Hi. cbn. by rewrite !CPUSET_ISSET_bit, Z.lor_spec, mask_testbit, orb_comm by done.
Qed.

Lemma cpuset_clr_run m c n v b : m !! c = Some v -> word v -> 0 <= n < 32 ->
  alone (CPUSET_ATOMIC_CLR c n) b m = Some (tt, b, <[c := CPUSET_CLR v n]> m) /\
  forall i, 0 <= i -> CPUSET_ISSET (CPUSET_CLR v n) i = negb (bool_decide (i = n)) && CPUSET_ISSET v i.
Proof.
  intros Hv [_ Hw]%word_bits Hn. unfold CPUSET_CLR. split.
  - unfold CPUSET_ATOMIC_CLR. cbn. by rewrite !Hv.
  - intros i Hi. cbn. rewrite !CPUSET_ISSET_bit, Z.land_spec by done. unfold u32. destruct (decide (i < 32)).
    + rewrite Z.mod_pow2_bits_low, Z.lnot_spec, mask_testbit by lia. apply andb_comm.
    + rewrite Hw by lia. by rewrite andb_false_r.
Qed.
