(* ===== verification/Mem.v ===== *)
(** * Memory of the allocators

    The allocators of [k_mm_blk.c] and [k_mm.c] write their own structures into
    the memory they manage, so here memory is a map from the addresses of words
    (multiples of 4) to their 32 bits; an access to an address that is not in
    the map is undefined.  Pointers are addresses, [NULL] is 0. *)

From S2P Require Import Prelude Config.
Open Scope Z_scope.

Abbreviation mem := (gmap Z Z).

(** the head of the heap, [k_mm_head]; [mm_tbl] has a row for each first-level
    index *)
Record k_mm_head := mkHead {
  regioninfo : Z;
  fixedmblk : Z;
  used_size : Z;
  maxused_size : Z;
  free_size : Z;
  mm_size_stats : list Z;
  fl_bitmap : Z;
  sl_bitmap : list Z;
  mm_tbl : list (list Z)
}.

Record hstate := mkH {
  h_mem : mem;
  mblkpool_head : list Z;
  mmhead : k_mm_head
}.

Definition set_h_mem v s := mkH v (mblkpool_head s) (mmhead s).
Definition set_mblkpool_head v s := mkH (h_mem s) v (mmhead s).
Definition set_mmhead v s := mkH (h_mem s) (mblkpool_head s) v.

Abbreviation H := (M kstat_t hstate).

Definition ld (a : Z) : H Z := m ← gets h_mem; lift (m !! a).
Definition st (a v : Z) : H unit := _ ← ld a; modify (fun s => set_h_mem (<[a := v]> (h_mem s)) s).

(** ** Rules *)

Section rules.
Context (m : mem) (pl : list Z) (h : k_mm_head).

Lemma wp_ld a v (Q : Z -> hstate -> Prop) : m !! a = Some v -> Q v (mkH m pl h) -> wp (ld a) Q (mkH m pl h).
Proof using. intros Ha HQ. unfold ld, wp, mbind, M_bind, gets, lift. cbn. by rewrite Ha. Qed.

Lemma wp_st a v (Q : unit -> hstate -> Prop) :
  is_Some (m !! a) -> Q tt (mkH (<[a := v]> m) pl h) -> wp (st a v) Q (mkH m pl h).
Proof using. intros [w Ha] HQ. unfold st. apply wp_bind. eapply wp_ld; [exact Ha|]. by apply wp_modify. Qed.
End rules.

(** the words of [m] outside [P] are those of [m0] *)
Definition mem_frame (P : Z -> Prop) (m0 m : mem) : Prop :=
  (dom m : gset Z) = dom m0 /\ forall a, ~ P a -> m !! a = m0 !! a.

Lemma mem_frame_refl P m : mem_frame P m m.
Proof. by split. Qed.

Lemma mem_frame_trans P m1 m2 m3 : mem_frame P m1 m2 -> mem_frame P m2 m3 -> mem_frame P m1 m3.
Proof. intros [D1 F1] [D2 F2]. split; [by rewrite D2|]. intros a Ha. by rewrite F2, F1. Qed.

Lemma mem_frame_mono (P P' : Z -> Prop) m1 m2 : (forall a, P a -> P' a) -> mem_frame P m1 m2 -> mem_frame P' m1 m2.
Proof. intros HP [D F]. split; [done|]. intros a Ha. apply F. naive_solver. Qed.

Lemma mem_frame_st (P : Z -> Prop) m0 m a v : P a -> is_Some (m !! a) -> mem_frame P m0 m -> mem_frame P m0 (<[a := v]> m).
Proof.
  intros Ha Hs [D F]. split.
  - rewrite dom_insert_L, <- D. apply elem_of_dom in Hs. set_solver.
  - intros b Hb. rewrite lookup_insert_ne; [by apply F|]. naive_solver.
Qed.

Lemma mem_frame_some P m0 m a : mem_frame P m0 m -> is_Some (m0 !! a) -> is_Some (m !! a).
Proof. intros [D _]. rewrite <- !elem_of_dom, D. done. Qed.
