(* ===== verification/MmBlk.v ===== *)
(** * Block pools ([core/k_mm_blk.c])

    The free blocks of a pool are linked through their first words.  [pool] is
    the address of a [mblk_pool_t], whose fields are words of the memory. *)

From S2P Require Import Prelude Config Mem.
Open Scope Z_scope.

(** ** The code *)

(** the fields of [mblk_pool_t] *)
Definition mp_obj_type (pool : Z) : Z := pool + 0.
Definition mp_pool_name (pool : Z) : Z := pool + 4.
Definition mp_blk_size (pool : Z) : Z := pool + 8.
Definition mp_blk_avail (pool : Z) : Z := pool + 12.
Definition mp_blk_whole (pool : Z) : Z := pool + 16.
Definition mp_avail_list (pool : Z) : Z := pool + 20.
Definition sizeof_mblk_pool_t : Z := 32.

(** the numbers of [kobj_type_t] *)
Definition MM_BLK_OBJ_TYPE : Z := 7.

Definition addr_align_mask : Z := 4 - 1.

(** [while (blk_next < pool_end)]: the pointers and the count at the end *)
Fixpoint pool_link (fuel : nat) (blk_cur blk_next pool_end blk_size blks : Z) : H (Z * Z * Z) :=
  if blk_next <? pool_end then
    match fuel with
    | O => undef
    | S n =>
        st blk_cur blk_next;;
        pool_link n blk_next (u32 (blk_next + blk_size)) pool_end blk_size (u32 (blks + 1))
    end
  else mret (blk_cur, blk_next, blks).

(** each turn moves by a block, of a word or more *)
Definition krhino_mblk_pool_init (pool name pool_start blk_size pool_size : Z) : H kstat_t :=
  if pool =? 0 then mret RHINO_NULL_PTR else
  if name =? 0 then mret RHINO_NULL_PTR else
  if pool_start =? 0 then mret RHINO_NULL_PTR else
  (* over one block at least *)
  if pool_size <? u32 (Z.shiftl blk_size 1) then mret RHINO_BLK_POOL_SIZE_ERR else
  (* check address & size alignment *)
  if 0 <? Z.land pool_start addr_align_mask then mret RHINO_INV_ALIGN else
  if 0 <? Z.land blk_size addr_align_mask then mret RHINO_INV_ALIGN else
  if 0 <? Z.land pool_size addr_align_mask then mret RHINO_INV_ALIGN else
    let pool_end := u32 (pool_start + pool_size) in
    '(blk_cur, blk_next, blks) ←
      pool_link (Z.to_nat (pool_size / 4)) pool_start (u32 (pool_start + blk_size)) pool_end blk_size 0;
    let blks := if blk_next =? pool_end then u32 (blks + 1) else blks in
    (* the last one *)
    st blk_cur 0;;
    st (mp_pool_name pool) name;;
    st (mp_blk_whole pool) blks;;
    st (mp_blk_avail pool) blks;;
    st (mp_blk_size pool) blk_size;;
    st (mp_avail_list pool) pool_start;;
    st (mp_obj_type pool) MM_BLK_OBJ_TYPE;;
    modify (fun s => set_mblkpool_head (mblkpool_head s ++ [pool]) s);;
    mret RHINO_SUCCESS.

(** the second component is stored through [blk] *)
Definition krhino_mblk_alloc (pool : Z) (blk : option nat) : H (kstat_t * option Z) :=
  if pool =? 0 then mret (RHINO_NULL_PTR, None) else
  match blk with
  | None => mret (RHINO_NULL_PTR, None)
  | Some _ =>
      ty ← ld (mp_obj_type pool);
      if negb (ty =? MM_BLK_OBJ_TYPE) then mret (RHINO_KOBJ_TYPE_ERR, None) else
      avail ← ld (mp_blk_avail pool);
      if 0 <? avail then
        avail_blk ← ld (mp_avail_list pool);
        (* the first 4 byte is the pointer for next block *)
        next ← ld avail_blk;
        st (mp_avail_list pool) next;;
        st (mp_blk_avail pool) (u32 (avail - 1));;
        mret (RHINO_SUCCESS, Some avail_blk)
      else mret (RHINO_NO_MEM, Some 0)
  end.

Definition krhino_mblk_free (pool blk : Z) : H kstat_t :=
  if pool =? 0 then mret RHINO_NULL_PTR else
  if blk =? 0 then mret RHINO_NULL_PTR else
  ty ← ld (mp_obj_type pool);
  if negb (ty =? MM_BLK_OBJ_TYPE) then mret RHINO_KOBJ_TYPE_ERR else
  (* use the first 4 byte of the free block point to head of avail list *)
  l ← ld (mp_avail_list pool);
  st blk l;;
  st (mp_avail_list pool) blk;;
  avail ← ld (mp_blk_avail pool);
  st (mp_blk_avail pool) (u32 (avail + 1));;
  mret RHINO_SUCCESS.

(** ** What a pool is *)

(** the blocks [L], linked from [p], the last one pointing to [z] *)
Fixpoint chain (m : mem) (p : Z) (L : list Z) (z : Z) : Prop :=
  match L with
  | [] => p = z
  | b :: L => p = b /\ exists q, m !! b = Some q /\ chain m q L z
  end.

Lemma chain_app m p L1 L2 q z : chain m p L1 q -> chain m q L2 z -> chain m p (L1 ++ L2) z.
Proof.
  revert p. induction L1 as [|b L1 IH]; intros p; cbn; [by intros ->|]. intros (-> & x & Hx & H1) H2.
  split; [done|]. exists x. split; [done|by apply IH].
Qed.

Lemma chain_frame m m' p L z : (forall b, b ∈ L -> m' !! b = m !! b) -> chain m p L z -> chain m' p L z.
Proof.
  revert p. induction L as [|b L IH]; intros p Hf; cbn; [done|]. intros (-> & q & Hq & H). split; [done|]. exists q.
  split; [rewrite Hf; [done|left]|]. apply IH; [|done]. intros x Hx. apply Hf. by right.
Qed.

(** the pool at [pool] has [n] blocks of [size] bytes from [start] on, of which
    those of [L] are free *)
Record pool_rep (m : mem) (pool start size n : Z) (L : list Z) : Prop := {
  pr_type : m !! mp_obj_type pool = Some MM_BLK_OBJ_TYPE;
  pr_size : m !! mp_blk_size pool = Some size;
  pr_whole : m !! mp_blk_whole pool = Some n;
  pr_avail : m !! mp_blk_avail pool = Some (Z.of_nat (length L));
  pr_list : exists p z, m !! mp_avail_list pool = Some p /\ chain m p L z;
  pr_n : 0 <= n;
  pr_nodup : NoDup L;
  pr_blocks : forall b, b ∈ L -> exists i, 0 <= i < n /\ b = start + i * size;
  pr_null : 0 < pool /\ 0 < start;
  pr_fits : 4 <= size /\ start + n * size < 2 ^ 32;
  pr_apart : pool + sizeof_mblk_pool_t <= start \/ start + n * size <= pool
}.

(** the fields that the operations change *)
Definition pool_fields (pool a : Z) : Prop := a = mp_blk_avail pool \/ a = mp_avail_list pool.

(** no more blocks are free than there are *)
Lemma free_count start size n L : 0 <= n -> NoDup L ->
  (forall b, b ∈ L -> exists i, 0 <= i < n /\ b = start + i * size) -> Z.of_nat (length L) <= n.
Proof.
  intros Hn Hnd Hb. assert (length L <= length ((fun i => start + i * size)%Z <$> seqZ 0 n))%nat.
  { apply submseteq_length, NoDup_submseteq; [done|]. intros b HbL.
    destruct (Hb _ HbL) as (i & Hi & ->). apply list_elem_of_fmap. exists i. split; [done|]. apply elem_of_seqZ. lia. }
  rewrite length_fmap, length_seqZ in *. lia.
Qed.

Section pool.
Context (m : mem) (pl : list Z) (h : k_mm_head) (pool start size n : Z) (L : list Z).
Context (Hp : pool_rep m pool start size n L).

(** a block is apart from the fields of the pool *)
Lemma block_apart b : (exists i, 0 <= i < n /\ b = start + i * size) -> 0 < b < 2 ^ 32 /\ (b + 4 <= pool \/ pool + sizeof_mblk_pool_t <= b).
Proof using Hp.
  intros (i & Hi & ->). destruct (pr_null _ _ _ _ _ _ Hp), (pr_fits _ _ _ _ _ _ Hp) as [H1 H2].
  assert (0 <= i * size) by nia. assert ((i + 1) * size <= n * size) by (apply Z.mul_le_mono_nonneg_r; lia).
  split; [lia|]. pose proof (pr_apart _ _ _ _ _ _ Hp) as Ha. unfold sizeof_mblk_pool_t in *. destruct Ha; [right|left]; lia.
Qed.

Lemma free_count_u32 k : 0 <= k <= n -> u32 k = k.
Proof using Hp. intros Hk. destruct (pr_fits _ _ _ _ _ _ Hp), (pr_null _ _ _ _ _ _ Hp). apply u32_small. nia. Qed.

(** the pool after its list and its count changed, and words of its blocks *)
Lemma pool_rep_update m' L' p z :
  (forall a, pool <= a < pool + sizeof_mblk_pool_t -> ~ pool_fields pool a -> m' !! a = m !! a) ->
  m' !! mp_avail_list pool = Some p -> m' !! mp_blk_avail pool = Some (Z.of_nat (length L')) -> chain m' p L' z ->
  NoDup L' -> (forall b, b ∈ L' -> exists i, 0 <= i < n /\ b = start + i * size) ->
  pool_rep m' pool start size n L'.
Proof using Hp.
  intros Hf Hl Ha Hc Hn Hb. destruct Hp as [P1 P2 P3 P4 P5 P6 P7 P8 P9 P10 P11].
  assert (Hne : forall k, 0 <= k < 32 -> k <> 12 -> k <> 20 -> m' !! (pool + k) = m !! (pool + k)).
  { intros k Hk H1 H2. apply Hf; unfold pool_fields, mp_blk_avail, mp_avail_list, sizeof_mblk_pool_t; lia. }
  split; try done.
  - unfold mp_obj_type. by rewrite Hne by lia.
  - unfold mp_blk_size. by rewrite Hne by lia.
  - unfold mp_blk_whole. by rewrite Hne by lia.
  - by exists p, z.
Qed.

Ltac fields := unfold pool_fields, mp_obj_type, mp_pool_name, mp_blk_size, mp_blk_avail, mp_blk_whole, mp_avail_list, sizeof_mblk_pool_t in *.

Lemma wp_mblk_alloc x (Q : kstat_t * option Z -> hstate -> Prop) :
  (L = [] -> Q (RHINO_NO_MEM, Some 0) (mkH m pl h)) ->
  (forall b L' m', L = b :: L' -> pool_rep m' pool start size n L' -> mem_frame (pool_fields pool) m m' ->
     Q (RHINO_SUCCESS, Some b) (mkH m' pl h)) ->
  wp (krhino_mblk_alloc pool (Some x)) Q (mkH m pl h).
Proof using Hp.
  intros HQ1 HQ2. destruct (pr_null _ _ _ _ _ _ Hp) as [Hnz Hs]. unfold krhino_mblk_alloc.
  rewrite (proj2 (Z.eqb_neq _ _)) by lia. apply wp_bind. eapply wp_ld; [apply Hp|]. change (negb _) with false. cbv iota.
  apply wp_bind. eapply wp_ld; [apply Hp|]. pose proof free_count_u32 as Hu32. pose proof block_apart as Hap.
  pose proof pool_rep_update as Hup. destruct L as [|b L'] eqn:EL; [by apply wp_ret, HQ1|].
  rewrite (proj2 (Z.ltb_lt _ _)) by (cbn; lia). destruct (pr_list _ _ _ _ _ _ Hp) as (p & z & Hl & Hc).
  cbn [chain] in Hc. destruct Hc as (-> & q & Hq & Hc). apply wp_bind. eapply wp_ld; [exact Hl|].
  apply wp_bind. eapply wp_ld; [exact Hq|]. apply wp_bind, wp_st; [by eexists|].
  pose proof (pr_avail _ _ _ _ _ _ Hp) as Hav. pose proof (pr_nodup _ _ _ _ _ _ Hp) as Hnd. apply NoDup_cons in Hnd as [Hb Hnd].
  apply wp_bind, wp_st; [apply lookup_insert_is_Some'; right; by eexists|]. apply wp_ret.
  assert (Hcnt : Z.of_nat (length (b :: L')) <= n).
  { eapply (free_count start size); [apply Hp|by apply NoDup_cons|apply Hp]. }
  cbn [length] in *. rewrite Hu32 by lia.
  assert (Hbl : forall x, x ∈ L' -> ~ pool_fields pool x).
  { intros y Hy. destruct (Hap y) as [_ Hy']; [apply (pr_blocks _ _ _ _ _ _ Hp); by right|]. fields. lia. }
  eapply HQ2; [done| |].
  - eapply Hup; [..|exact Hnd|].
    + intros a _ Ha. rewrite !lookup_insert_ne; [done|..]; fields; naive_solver.
    + rewrite lookup_insert_ne by (fields; lia). apply lookup_insert_eq.
    + rewrite lookup_insert_eq. f_equal. lia.
    + eapply chain_frame; [|exact Hc]. intros y Hy. specialize (Hbl y Hy). rewrite !lookup_insert_ne; [done|..]; fields; naive_solver.
    + intros y Hy. apply (pr_blocks _ _ _ _ _ _ Hp). by right.
  - apply mem_frame_st; [by left|apply lookup_insert_is_Some'; right; by eexists|].
    apply mem_frame_st; [by right|by eexists|]. apply mem_frame_refl.
Qed.

Lemma wp_mblk_free b (Q : kstat_t -> hstate -> Prop) :
  (exists i, 0 <= i < n /\ b = start + i * size) -> b ∉ L -> is_Some (m !! b) ->
  (forall m', pool_rep m' pool start size n (b :: L) -> mem_frame (fun a => pool_fields pool a \/ a = b) m m' ->
     Q RHINO_SUCCESS (mkH m' pl h)) ->
  wp (krhino_mblk_free pool b) Q (mkH m pl h).
Proof using Hp.
  intros Hb Hn [w Hw] HQ. destruct (pr_null _ _ _ _ _ _ Hp) as [Hnz Hs]. destruct (block_apart b Hb) as [Hb0 Hap].
  unfold krhino_mblk_free. rewrite !(proj2 (Z.eqb_neq _ _)) by lia. apply wp_bind. eapply wp_ld; [apply Hp|].
  change (negb _) with false. cbv iota. destruct (pr_list _ _ _ _ _ _ Hp) as (p & z & Hl & Hc).
  pose proof (pr_avail _ _ _ _ _ _ Hp) as Hav. apply wp_bind. eapply wp_ld; [exact Hl|].
  apply wp_bind, wp_st; [by eexists|]. apply wp_bind, wp_st; [apply lookup_insert_is_Some'; right; by eexists|].
  apply wp_bind. eapply wp_ld; [rewrite !lookup_insert_ne by (fields; lia); exact Hav|].
  apply wp_bind, wp_st; [do 2 (apply lookup_insert_is_Some'; right); by eexists|]. apply wp_ret.
  assert (Hnd : NoDup (b :: L)) by (apply NoDup_cons; split; [done|apply Hp]).
  assert (Hbs : forall y, y ∈ b :: L -> exists i, 0 <= i < n /\ y = start + i * size).
  { intros y [->|Hy]%elem_of_cons; [done|]. by apply (pr_blocks _ _ _ _ _ _ Hp). }
  assert (Hcnt := free_count start size n (b :: L) (pr_n _ _ _ _ _ _ Hp) Hnd Hbs). cbn [length] in Hcnt.
  rewrite free_count_u32 by lia. apply HQ.
  - eapply pool_rep_update; [..|exact Hnd|exact Hbs].
    + intros a Ha Hf. fields. rewrite !lookup_insert_ne by lia. done.
    + rewrite lookup_insert_ne by (fields; lia). apply lookup_insert_eq.
    + rewrite lookup_insert_eq. f_equal. cbn. lia.
    + cbn. split; [done|]. exists p. split; [rewrite !lookup_insert_ne by (fields; lia); apply lookup_insert_eq|].
      eapply chain_frame; [|exact Hc]. intros y Hy. destruct (block_apart y) as [_ Hy']; [by apply (pr_blocks _ _ _ _ _ _ Hp)|].
      rewrite !lookup_insert_ne; [done|..]; first [by intros ->|fields; lia].
  - apply mem_frame_st; [left; by left|do 2 (apply lookup_insert_is_Some'; right); by eexists|].
    apply mem_frame_st; [left; by right|apply lookup_insert_is_Some'; right; by eexists|].
    apply mem_frame_st; [by right|by eexists|]. apply mem_frame_refl.
Qed.
End pool.

(** ** Making a pool *)

Section init.
Context (pl : list Z) (h : k_mm_head) (start size : Z).
Abbreviation blk i := (start + i * size).
Context (Hs : 4 <= size).

(** [k] blocks are linked by the loop, the last one is left to the caller *)
Lemma wp_pool_link (k pool_end : Z) (Q : Z * Z * Z -> hstate -> Prop) fuel : forall i m,
  0 <= i < k -> blk (k - 1) < pool_end <= blk k -> blk k < 2 ^ 32 -> 0 <= start -> (Z.to_nat (k - 1 - i) <= fuel)%nat ->
  (forall j, i <= j < k -> is_Some (m !! blk j)) ->
  (forall m', mem_frame (fun a => exists j, i <= j < k /\ a = blk j) m m' ->
     (forall j, i <= j < k - 1 -> m' !! blk j = Some (blk (j + 1))) ->
     Q (blk (k - 1), blk k, k - 1) (mkH m' pl h)) ->
  wp (pool_link fuel (blk i) (blk (i + 1)) pool_end size i) Q (mkH m pl h).
Proof using Hs.
  induction fuel as [|fuel IH]; intros i m Hi He Hk Hst Hf Hm HQ; cbn [pool_link].
  - assert (i = k - 1) as -> by lia. replace (k - 1 + 1) with k in * by lia. rewrite (proj2 (Z.ltb_ge _ _)) by lia.
    apply wp_ret, HQ; [apply mem_frame_refl|]. intros j ?; lia.
  - destruct (Z.ltb_spec (blk (i + 1)) pool_end) as [Hlt|Hge].
    + assert (i + 1 < k) by nia. apply wp_bind, wp_st; [apply Hm; lia|].
      assert (Hik : blk (i + 2) <= blk k) by nia.
      rewrite (u32_small (blk (i + 1) + size)), (u32_small (i + 1)) by nia. replace (blk (i + 1) + size) with (blk (i + 1 + 1)) by lia.
      apply IH; [lia..| |].
      * intros j Hj. apply lookup_insert_is_Some'. right. apply Hm. lia.
      * intros m' Hfr Hl. apply HQ.
        -- eapply mem_frame_trans; [|eapply mem_frame_mono; [|exact Hfr]]; [|intros a (j & Hj & ->); exists j; split; [lia|done]].
           apply mem_frame_st; [exists i; split; [lia|done]|apply Hm; lia|apply mem_frame_refl].
        -- intros j Hj. destruct (decide (j = i)) as [->|]; [|apply Hl; lia].
           rewrite (proj2 Hfr); [apply lookup_insert_eq|]. intros (j & Hj' & E). nia.
    + assert (i = k - 1) as -> by nia. replace (k - 1 + 1) with k in * by lia.
      apply wp_ret, HQ; [apply mem_frame_refl|]. intros j ?; lia.
Qed.

Lemma wp_pool_link_all (k pool_end : Z) (Q : Z * Z * Z -> hstate -> Prop) fuel m :
  0 < k -> blk (k - 1) < pool_end <= blk k -> blk k < 2 ^ 32 -> 0 <= start -> (Z.to_nat (k - 1) <= fuel)%nat ->
  (forall j, 0 <= j < k -> is_Some (m !! blk j)) ->
  (forall m', mem_frame (fun a => exists j, 0 <= j < k /\ a = blk j) m m' ->
     (forall j, 0 <= j < k - 1 -> m' !! blk j = Some (blk (j + 1))) ->
     Q (blk (k - 1), blk k, k - 1) (mkH m' pl h)) ->
  wp (pool_link fuel start (start + size) pool_end size 0) Q (mkH m pl h).
Proof using Hs.
  intros. replace (start + size) with (blk (0 + 1)) by lia.
  replace (pool_link fuel start) with (pool_link fuel (blk 0)) by (f_equal; lia). eapply wp_pool_link; eauto; lia.
Qed.

(** the blocks from the [i]th on *)
Fixpoint blocks_from (i : Z) (n : nat) : list Z :=
  match n with O => [] | S n => blk i :: blocks_from (i + 1) n end.

Lemma blocks_from_chain m n : forall i,
  (forall j, i <= j < i + Z.of_nat n -> m !! blk j = Some (blk (j + 1))) -> chain m (blk i) (blocks_from i n) (blk (i + Z.of_nat n)).
Proof using.
  induction n as [|n IH]; intros i Hm; cbn [blocks_from chain].
  - f_equal. lia.
  - split; [done|]. eexists. split; [apply Hm; lia|].
    replace (i + Z.of_nat (S n)) with (i + 1 + Z.of_nat n) by lia. apply IH. intros j Hj. apply Hm. lia.
Qed.

Lemma elem_of_blocks_from b n : forall i, b ∈ blocks_from i n <-> exists j, i <= j < i + Z.of_nat n /\ b = blk j.
Proof using.
  induction n as [|n IH]; intros i; cbn [blocks_from].
  - split; [by intros ?%elem_of_nil|]. intros (j & ? & _). lia.
  - rewrite elem_of_cons, IH. split.
    + intros [->|(j & ? & ->)]; [exists i|exists j]; split; (lia || done).
    + intros (j & Hj & ->). destruct (decide (j = i)) as [->|]; [by left|right]. exists j. split; [lia|done].
Qed.

Lemma blocks_from_NoDup n : forall i, NoDup (blocks_from i n).
Proof using Hs.
  induction n as [|n IH]; intros i; cbn [blocks_from]; [constructor|]. apply NoDup_cons. split; [|done].
  rewrite elem_of_blocks_from. intros (j & Hj & E). nia.
Qed.

Lemma length_blocks_from n i : length (blocks_from i n) = n.
Proof using. revert i. induction n; cbn; auto. Qed.

Lemma blocks_from_snoc n i : blocks_from i (S n) = blocks_from i n ++ [blk (i + Z.of_nat n)].
Proof using.
  revert i. induction n as [|n IH]; intros i; [cbn [blocks_from app]; by rewrite Z.add_0_r|].
  change (blocks_from i (S (S n))) with (blk i :: blocks_from (i + 1) (S n)). rewrite IH. cbn [blocks_from app]. do 4 f_equal. lia.
Qed.
End init.

Lemma land_align a : Z.land a addr_align_mask = a mod 4.
Proof. change addr_align_mask with (Z.ones 2). by rewrite Z.land_ones. Qed.

(** what a pool is made of: memory apart from the structure of the pool *)
Record pool_memory (m : mem) (pool start size psize : Z) : Prop := {
  pm_null : 0 < pool /\ 0 < start;
  pm_align : start mod 4 = 0 /\ size mod 4 = 0 /\ psize mod 4 = 0;
  pm_size : 4 <= size /\ 2 * size <= psize /\ start + psize + size < 2 ^ 32;
  pm_words : forall a, start <= a < start + psize -> a mod 4 = 0 -> is_Some (m !! a);
  pm_fields : forall k, 0 <= k < 6 -> is_Some (m !! (pool + 4 * k));
  pm_apart : pool + sizeof_mblk_pool_t <= start \/ start + psize <= pool
}.

Definition pool_region (pool start psize a : Z) : Prop := pool <= a < pool + sizeof_mblk_pool_t \/ start <= a < start + psize.

Lemma wp_mblk_pool_init m pl h pool name start size psize (Q : kstat_t -> hstate -> Prop) :
  pool_memory m pool start size psize -> name <> 0 ->
  (forall m', pool_rep m' pool start size (psize / size) (blocks_from start size 0 (Z.to_nat (psize / size))) ->
     mem_frame (pool_region pool start psize) m m' -> Q RHINO_SUCCESS (mkH m' (pl ++ [pool]) h)) ->
  wp (krhino_mblk_pool_init pool name start size psize) Q (mkH m pl h).
Proof.
  intros [[P1 P2] (A1 & A2 & A3) (S1 & S2 & S3) Hw Hf Hap] Hname HQ. unfold krhino_mblk_pool_init.
  rewrite !(proj2 (Z.eqb_neq _ _)), !land_align, A1, A2, A3 by lia. rewrite Z.shiftl_mul_pow2, u32_small by lia.
  rewrite (proj2 (Z.ltb_ge _ _)) by lia. cbn [Z.ltb Z.compare]. rewrite !u32_small by lia.
  set (n := psize / size). set (k := (psize + size - 1) / size).
  assert (Hn : n * size <= psize < (n + 1) * size) by (subst n; zlia).
  assert (Hk : (k - 1) * size < psize <= k * size) by (subst k; zlia).
  assert (Hn2 : 2 <= n) by nia. assert (Hkn : k = n \/ k = n + 1 /\ n * size < psize) by nia.
  assert (Hmod : forall i, (start + i * size) mod 4 = 0).
  { intros i. rewrite Z.add_mod, Z.mul_mod, A1, A2 by lia. rewrite Z.mul_0_r. done. }
  assert (Hwb : forall i, 0 <= i < k -> is_Some (m !! (start + i * size))) by (intros i Hi; apply Hw; [nia|apply Hmod]).
  assert (Hfuel : k - 1 <= psize / 4) by (apply Z.div_le_lower_bound; nia).
  apply wp_bind. eapply (wp_pool_link_all pl h start size S1 k); [lia|lia|nia|lia|lia|exact Hwb|].
  intros m1 Hfr Hl. set (blks := if _ =? _ then _ else _).
  assert (Hblks : blks = n).
  { subst blks. destruct (Z.eqb_spec (start + k * size) (start + psize)) as [E|E]; [|nia].
    assert (k = n) as -> by nia. rewrite u32_small by nia. lia. }
  rewrite Hblks. clear Hblks blks.
  assert (Hm1 : forall a, is_Some (m !! a) -> is_Some (m1 !! a)) by (intros a; by eapply mem_frame_some).
  assert (Hb1 : is_Some (m1 !! (start + (k - 1) * size))) by (apply Hm1, Hwb; lia).
  assert (Hf1 : forall d, d ∈ [0; 4; 8; 12; 16; 20] -> is_Some (m1 !! (pool + d))).
  { intros d Hd. apply Hm1. replace d with (4 * (d / 4)); [apply Hf|]; set_unfold; destruct_or!; subst; try done; lia. }
  assert (Hin : forall j, 0 <= j < k -> start <= start + j * size < start + psize) by (intros j Hj; nia).
  assert (Hpf : forall j, 0 <= j < k -> forall d, 0 <= d < 32 -> pool + d <> start + j * size).
  { intros j Hj d Hd. specialize (Hin j Hj). unfold sizeof_mblk_pool_t in *. lia. }
  set (mf := <[mp_obj_type pool := MM_BLK_OBJ_TYPE]> (<[mp_avail_list pool := start]> (<[mp_blk_size pool := size]>
    (<[mp_blk_avail pool := n]> (<[mp_blk_whole pool := n]> (<[mp_pool_name pool := name]> (<[start + (k - 1) * size := 0]> m1))))))).
  assert (Hmf : forall j, 0 <= j < k - 1 -> mf !! (start + j * size) = Some (start + (j + 1) * size)).
  { intros j Hj. subst mf. unfold mp_pool_name, mp_blk_whole, mp_blk_avail, mp_blk_size, mp_avail_list.
    rewrite !lookup_insert_ne by (apply Hpf; lia). rewrite lookup_insert_ne by nia. by apply Hl. }
  assert (Hml : mf !! (start + (k - 1) * size) = Some 0).
  { subst mf. unfold mp_pool_name, mp_blk_whole, mp_blk_avail, mp_blk_size, mp_avail_list.
    rewrite !lookup_insert_ne by (apply Hpf; lia). apply lookup_insert_eq. }
  assert (Hfr1 : mem_frame (pool_region pool start psize) m m1).
  { eapply mem_frame_mono; [|exact Hfr]. intros a (j & Hj & ->). right. by apply Hin. }
  assert (Hpr : forall d, 0 <= d < 32 -> pool_region pool start psize (pool + d)).
  { intros d Hd. left. unfold sizeof_mblk_pool_t. lia. }
  assert (Hpl : pool_region pool start psize (start + (k - 1) * size)) by (right; apply Hin; lia).
  unfold mp_pool_name, mp_blk_whole, mp_blk_avail, mp_blk_size, mp_avail_list, mp_obj_type in *.
  pose proof (Hf1 0 ltac:(by apply (bool_decide_unpack _))). pose proof (Hf1 4 ltac:(by apply (bool_decide_unpack _))). pose proof (Hf1 8 ltac:(by apply (bool_decide_unpack _))).
  pose proof (Hf1 12 ltac:(by apply (bool_decide_unpack _))). pose proof (Hf1 16 ltac:(by apply (bool_decide_unpack _))). pose proof (Hf1 20 ltac:(by apply (bool_decide_unpack _))).
  assert (Hfr2 : mem_frame (pool_region pool start psize) m mf).
  { repeat (apply mem_frame_st; [first [assumption|apply Hpr; lia]|repeat (apply lookup_insert_is_Some'; right); assumption|]). done. }
  do 7 (apply wp_bind, wp_st; [repeat (apply lookup_insert_is_Some'; right); assumption|]).
  apply wp_bind, wp_modify, wp_ret. change (Q RHINO_SUCCESS (mkH mf (pl ++ [pool]) h)). apply HQ; [fold n|exact Hfr2].
  assert (Hof : forall i, 0 <= i < n -> i < k) by lia.
  split; unfold mp_pool_name, mp_blk_whole, mp_blk_avail, mp_blk_size, mp_avail_list, mp_obj_type.
  1-4: rewrite ?length_blocks_from, ?Z2Nat.id by lia; subst mf; repeat (rewrite lookup_insert_ne by lia); apply lookup_insert_eq.
  - exists start, (if decide (k = n) then 0 else start + n * size).
    split; [unfold mf; rewrite lookup_insert_ne by lia; apply lookup_insert_eq|].
    replace (chain mf start) with (chain mf (start + 0 * size)) by (f_equal; lia). case_decide as Hkn'.
    + replace (Z.to_nat n) with (S (Z.to_nat (n - 1))) by lia. rewrite blocks_from_snoc.
      eapply chain_app; [apply blocks_from_chain; intros j Hj; apply Hmf; lia|]. cbn. split; [done|]. exists 0.
      split; [|done]. rewrite <- Hml. do 2 f_equal. lia.
    + replace (start + n * size) with (start + (0 + Z.of_nat (Z.to_nat n)) * size) by lia.
      apply blocks_from_chain. intros j Hj. apply Hmf. lia.
  - lia.
  - by apply blocks_from_NoDup.
  - intros b (j & Hj & ->)%elem_of_blocks_from. exists j. split; [lia|done].
  - done.
  - split; [done|nia].
  - destruct Hap; [by left|right]. nia.
Qed.

(** ** The pool as a stack of free blocks *)

Inductive pool_op := PAlloc | PFree (b : Z).

(** what an operation returns, and the free blocks after it; the blocks of the
    pool are those of [B], and a free block is not freed again *)
Definition pool_abs (B : list Z) (op : pool_op) (L : list Z) : option (kstat_t * option Z * list Z) :=
  match op, L with
  | PAlloc, [] => Some (RHINO_NO_MEM, Some 0, [])
  | PAlloc, b :: L => Some (RHINO_SUCCESS, Some b, L)
  | PFree b, L => if decide (b ∈ B) then if decide (b ∈ L) then None else Some (RHINO_SUCCESS, None, b :: L) else None
  end.

Fixpoint pool_abs_run (B : list Z) (ops : list pool_op) (L : list Z) : option (list (kstat_t * option Z) * list Z) :=
  match ops with
  | [] => Some ([], L)
  | op :: ops =>
      '(r, L) ← pool_abs B op L;
      '(rs, L) ← pool_abs_run B ops L;
      Some (r :: rs, L)
  end.

Definition pool_call (pool : Z) (op : pool_op) : H (kstat_t * option Z) :=
  match op with
  | PAlloc => krhino_mblk_alloc pool (Some 0%nat)
  | PFree b => r ← krhino_mblk_free pool b; mret (r, None)
  end.

Fixpoint pool_run (pool : Z) (ops : list pool_op) : H (list (kstat_t * option Z)) :=
  match ops with
  | [] => mret []
  | op :: ops => r ← pool_call pool op; rs ← pool_run pool ops; mret (r :: rs)
  end.

Section run.
Context (pool start size : Z) (n : nat) (Hs : 0 < size).

Abbreviation B := (blocks_from start size 0 n).

Lemma wp_pool_call m pl h L op r L' (Q : kstat_t * option Z -> hstate -> Prop) :
  pool_rep m pool start size (Z.of_nat n) L -> (forall b, b ∈ B -> is_Some (m !! b)) -> pool_abs B op L = Some (r, L') ->
  (forall m', pool_rep m' pool start size (Z.of_nat n) L' -> (forall b, b ∈ B -> is_Some (m' !! b)) -> Q r (mkH m' pl h)) ->
  wp (pool_call pool op) Q (mkH m pl h).
Proof using.
  intros Hp Hb E HQ. destruct op as [|b]; cbn [pool_abs pool_call] in *.
  - eapply wp_mblk_alloc; [exact Hp|..].
    + intros ->. injection E as <- <-. by apply HQ.
    + intros b L1 m' -> Hp' Hf. injection E as <- <-. apply HQ; [done|]. intros x Hx. eapply mem_frame_some; [exact Hf|by apply Hb].
  - case_decide as Hin; [|done]. case_decide as Hn; [done|]. injection E as <- <-. apply wp_bind. eapply wp_mblk_free; [exact Hp| |done|by apply Hb|].
    + apply elem_of_blocks_from in Hin as (j & Hj & ->). exists j. split; [lia|done].
    + intros m' Hp' Hf. apply wp_ret, HQ; [done|]. intros x Hx. eapply mem_frame_some; [exact Hf|by apply Hb].
Qed.

Lemma wp_pool_run ops : forall m pl h L rs L' (Q : list (kstat_t * option Z) -> hstate -> Prop),
  pool_rep m pool start size (Z.of_nat n) L -> (forall b, b ∈ B -> is_Some (m !! b)) -> pool_abs_run B ops L = Some (rs, L') ->
  (forall m', pool_rep m' pool start size (Z.of_nat n) L' -> Q rs (mkH m' pl h)) ->
  wp (pool_run pool ops) Q (mkH m pl h).
Proof using.
  induction ops as [|op ops IH]; intros m pl h L rs L' Q Hp Hb E HQ; cbn [pool_run pool_abs_run] in *.
  - injection E as <- <-. by apply wp_ret, HQ.
  - apply bind_Some in E as ([r L1] & E1 & E). apply bind_Some in E as ([rs1 L2] & E2 & E). injection E as <- <-.
    apply wp_bind. eapply wp_pool_call; [exact Hp|exact Hb|exact E1|]. intros m1 Hp1 Hb1.
    apply wp_bind. eapply IH; [exact Hp1|exact Hb1|exact E2|]. intros m2 Hp2. by apply wp_ret, HQ.
Qed.
End run.
