(* ===== verification/Mm.v ===== *)
(** * The heap ([core/k_mm.c]): the code

    A two-level segregated fit: the free blocks of a class of sizes are linked
    from [mm_tbl], two levels of bitmaps tell which classes have one.  Every
    block begins with a header of two words, [prev] and [size]; the two low bits
    of [size] tell whether the block and the one before it are free.  The build
    has no debug words, no mutex of its own ([RHINO_CONFIG_MM_REGION_MUTEX] is 0:
    the calls are critical sections), and keeps the statistics. *)

From S2P Require Import Prelude Config Bitmap Mem MmBlk.
Open Scope Z_scope.

Definition MAX_MM_BIT : Z := 20.
Definition MAX_MM_SIZE : Z := Z.shiftl 1 MAX_MM_BIT.
Definition FIX_BLK_BIT : Z := 5.
Definition DEF_FIX_BLK_SIZE : Z := Z.shiftl 1 FIX_BLK_BIT.
Definition MIN_FLT_BIT : Z := 7.
Definition MIN_FLT_SIZE : Z := Z.shiftl 1 MIN_FLT_BIT.
Definition MAX_LOG2_SLT : Z := 5.
Definition SLT_SIZE : Z := Z.shiftl 1 MAX_LOG2_SLT.
Definition FLT_SIZE : Z := MAX_MM_BIT - MIN_FLT_BIT + 1.
Definition MM_ALIGN_MASK : Z := 4 - 1.
Definition MM_ALIGN_UP (a : Z) : Z := Z.land (u32 (a + MM_ALIGN_MASK)) (Z.lnot MM_ALIGN_MASK).
Definition MM_ALIGN_DOWN (a : Z) : Z := Z.land a (Z.lnot MM_ALIGN_MASK).
Definition RHINO_MM_BLKSIZE_MASK : Z := 0xFFFFFFFF - MM_ALIGN_MASK.
Definition MIN_FREE_MEMORY_SIZE : Z := 1024.
Definition RHINO_CONFIG_MM_TLF_BLK_SIZE : Z := 4096.
Definition RHINO_MM_PRESTAT_MASK : Z := 2.
Definition RHINO_MM_FREE : Z := 1.
Definition RHINO_MM_ALLOCED : Z := 0.
Definition RHINO_MM_PREVFREE : Z := 2.
Definition RHINO_MM_PREVALLOCED : Z := 0.
Definition sizeof_k_mm_list_t : Z := 16.
Definition MMLIST_HEAD_SIZE : Z := sizeof_k_mm_list_t - 8.
Definition sizeof_k_mm_region_info_t : Z := 8.
Definition MMREGION_USED_SIZE : Z := MM_ALIGN_UP sizeof_k_mm_region_info_t + 3 * MMLIST_HEAD_SIZE.
Definition AOS_MM_TLF_ALLOC_MIN_LENGTH : Z := 2 * 4.
Definition sizeof_k_mm_head : Z := 4 * (5 + MAX_MM_BIT + 1 + FLT_SIZE + FLT_SIZE * SLT_SIZE).

(** the fields of [k_mm_list_t] *)
Definition mb_prev (b : Z) : Z := b.
Definition mb_size (b : Z) : Z := b + 4.
Definition mb_fprev (b : Z) : Z := b + 8.
Definition mb_fnext (b : Z) : Z := b + 12.
Definition mb_buffer (b : Z) : Z := b + MMLIST_HEAD_SIZE.

Definition NEXT_MM_BLK (addr r : Z) : Z := u32 (addr + r).
Definition blksize (w : Z) : Z := Z.land w RHINO_MM_BLKSIZE_MASK.

Definition upd_head (f : k_mm_head -> k_mm_head) : H unit := modify (fun s => set_mmhead (f (mmhead s)) s).

Definition set_regioninfo v h := mkHead v (fixedmblk h) (used_size h) (maxused_size h) (free_size h) (mm_size_stats h)
  (fl_bitmap h) (sl_bitmap h) (mm_tbl h).
Definition set_fixedmblk v h := mkHead (regioninfo h) v (used_size h) (maxused_size h) (free_size h) (mm_size_stats h)
  (fl_bitmap h) (sl_bitmap h) (mm_tbl h).
Definition set_stats u x f s h := mkHead (regioninfo h) (fixedmblk h) u x f s (fl_bitmap h) (sl_bitmap h) (mm_tbl h).
Definition set_fl_bitmap v h := mkHead (regioninfo h) (fixedmblk h) (used_size h) (maxused_size h) (free_size h) (mm_size_stats h)
  v (sl_bitmap h) (mm_tbl h).
Definition set_sl_bitmap v h := mkHead (regioninfo h) (fixedmblk h) (used_size h) (maxused_size h) (free_size h) (mm_size_stats h)
  (fl_bitmap h) v (mm_tbl h).
Definition set_mm_tbl v h := mkHead (regioninfo h) (fixedmblk h) (used_size h) (maxused_size h) (free_size h) (mm_size_stats h)
  (fl_bitmap h) (sl_bitmap h) v.

(** [mmhead->mm_tbl[fl][sl]], [mmhead->sl_bitmap[fl]] *)
Definition tbl_at (fl sl : Z) (h : k_mm_head) : option Z := row ← mm_tbl h !! Z.to_nat fl; row !! Z.to_nat sl.
Definition get_tbl (fl sl : Z) : H Z := h ← gets mmhead; lift (tbl_at fl sl h).
Definition put_tbl (fl sl b : Z) : H unit :=
  _ ← get_tbl fl sl;
  upd_head (fun h => set_mm_tbl (alter (fun row => <[Z.to_nat sl := b]> row) (Z.to_nat fl) (mm_tbl h)) h).
Definition get_sl (fl : Z) : H Z := h ← gets mmhead; lift (sl_bitmap h !! Z.to_nat fl).
Definition put_sl (fl w : Z) : H unit := upd_head (fun h => set_sl_bitmap (<[Z.to_nat fl := w]> (sl_bitmap h)) h).

(** [krhino_bitmap_set(&word, nr)] on one word *)
Definition word_set (w nr : Z) : H Z := bm ← lift (krhino_bitmap_set [w] nr); lift (head bm).
Definition word_clear (w nr : Z) : H Z := bm ← lift (krhino_bitmap_clear [w] nr); lift (head bm).

(** ** Statistics *)

Definition sizetoindex (size : Z) : H Z := fb ← lift (krhino_find_first_bit [size]); mret (u32 (31 - fb)).

Definition addsize (size req_size : Z) : H unit :=
  h ← gets mmhead;
  let free := if size <? free_size h then u32 (free_size h - size) else 0 in
  let used := u32 (used_size h + size) in
  let mx := if maxused_size h <? used then used else maxused_size h in
  index ← sizetoindex (u32 (req_size - 1));
  let index := if MAX_MM_BIT <? index then MAX_MM_BIT else index in
  let index := if index <? 1 then 1 else index in
  upd_head (set_stats used mx free (alter (fun c => u32 (c + 1)) (Z.to_nat (index - 1)) (mm_size_stats h))).

Definition removesize (size : Z) : H unit :=
  h ← gets mmhead;
  upd_head (set_stats (if size <? used_size h then u32 (used_size h - size) else 0) (maxused_size h)
              (u32 (free_size h + size)) (mm_size_stats h)).

(** ** Blocks of the fixed size *)

(** [ISFIXEDBLK(mh, ptr)] *)
Definition ISFIXEDBLK (fixed ptr : Z) : H bool :=
  if fixed =? 0 then mret false else
  sz ← ld (mb_size fixed);
  mret ((mb_buffer fixed <? ptr) && (ptr <? u32 (mb_buffer fixed + sz))).

Definition k_mm_smallblk_alloc (mh size : Z) : H Z :=
  if mh =? 0 then mret 0 else
  h ← gets mmhead;
  '(sta, tmp) ← krhino_mblk_alloc (mb_buffer (fixedmblk h)) (Some 0%nat);
  if negb (bool_decide (sta = RHINO_SUCCESS)) then mret 0 else
  tmp ← lift tmp;
  addsize DEF_FIX_BLK_SIZE size;;
  mret tmp.

Definition k_mm_smallblk_free (mh ptr : Z) : H unit :=
  if (mh =? 0) || (ptr =? 0) then mret tt else
  h ← gets mmhead;
  sta ← krhino_mblk_free (mb_buffer (fixedmblk h)) ptr;
  (if negb (bool_decide (sta = RHINO_SUCCESS)) then stop RHINO_SYS_FATAL_ERR else mret tt);;
  removesize DEF_FIX_BLK_SIZE.

(** ** Classes *)

Inductive SEARCH_ACTION := ACTION_INSERT | ACTION_GET.

Definition first_bit (size : Z) : H Z := fb ← lift (krhino_find_first_bit [size]); mret (u32 (31 - fb)).

(** shifting by [firstbit - MAX_LOG2_SLT] needs a bit at that place at least *)
Definition bitmap_search (size : Z) (action : SEARCH_ACTION) : H (kstat_t * Z * Z) :=
  '(flt, slt) ← (
    if size <? MIN_FLT_SIZE then mret (0, Z.shiftr size (MIN_FLT_BIT - MAX_LOG2_SLT))
    else
      firstbit ← first_bit size;
      '(firstbit, tmp_size) ← (
        match action with
        | ACTION_INSERT => mret (firstbit, size)
        | ACTION_GET =>
            let padding_size := Z.shiftl 1 (firstbit - MAX_LOG2_SLT) - 1 in
            let tmp_size := u32 (size + padding_size) in
            firstbit ← first_bit tmp_size;
            mret (firstbit, tmp_size)
        end);
      if firstbit <? MAX_LOG2_SLT then undef else
        let tmp_size := u32 (tmp_size - Z.shiftl 1 firstbit) in
        mret (u32 (firstbit - MIN_FLT_BIT + 1), Z.shiftr tmp_size (firstbit - MAX_LOG2_SLT)));
  if (FLT_SIZE <=? flt) || (SLT_SIZE <=? slt) then mret (RHINO_MM_FREE_ADDR_ERR, flt, slt)
  else mret (RHINO_SUCCESS, flt, slt).

Definition find_last_bit (bitmap : Z) : H Z :=
  if bitmap =? 0 then mret 0 else
  lsbit ← lift (krhino_find_first_bit [Z.land bitmap (u32 (- bitmap))]);
  mret (31 - lsbit).

(** ** The lists of free blocks *)

(** the bits of a class that has a block *)
Definition set_class (flt slt : Z) : H unit :=
  sl ← get_sl flt;
  sl ← word_set sl (31 - slt);
  put_sl flt sl;;
  fl ← gets (fun s => fl_bitmap (mmhead s));
  fl ← word_set fl (31 - flt);
  upd_head (set_fl_bitmap fl).

(** the bits of an empty class *)
Definition clear_class (flt slt : Z) : H unit :=
  sl ← get_sl flt;
  sl ← word_clear sl (31 - slt);
  put_sl flt sl;;
  if sl =? 0 then
    fl ← gets (fun s => fl_bitmap (mmhead s));
    fl ← word_clear fl (31 - flt);
    upd_head (set_fl_bitmap fl)
  else mret tt.

Definition insert_block (blk flt slt : Z) : H unit :=
  st (mb_fprev blk) 0;;
  b ← get_tbl flt slt;
  st (mb_fnext blk) b;;
  (if b =? 0 then mret tt else st (mb_fprev b) blk);;
  put_tbl flt slt blk;;
  set_class flt slt.

Definition get_block (blk flt slt : Z) : H unit :=
  next ← ld (mb_fnext blk);
  (if next =? 0 then mret tt else prev ← ld (mb_fprev blk); st (mb_fprev next) prev);;
  prev ← ld (mb_fprev blk);
  (if prev =? 0 then mret tt else next ← ld (mb_fnext blk); st (mb_fnext prev) next);;
  b ← get_tbl flt slt;
  (if b =? blk then
     next ← ld (mb_fnext blk);
     put_tbl flt slt next;;
     if next =? 0 then clear_class flt slt else mret tt
   else mret tt);;
  st (mb_fprev blk) 0;;
  st (mb_fnext blk) 0.

(** a free block leaves the list of its class *)
Definition unlink_free (blk w : Z) : H unit :=
  '(_, fl, sl) ← bitmap_search (blksize w) ACTION_INSERT;
  get_block blk fl sl.

(** the block found, with its class *)
Definition findblk_byidx (flt slt : Z) : H (Z * Z * Z) :=
  sl ← get_sl flt;
  let tmp := Z.land sl (u32 (Z.shiftl (-1) slt)) in
  if negb (tmp =? 0) then
    slt ← find_last_bit tmp;
    find ← get_tbl flt slt;
    mret (find, flt, slt)
  else
    fl ← gets (fun s => fl_bitmap (mmhead s));
    flt ← find_last_bit (Z.land fl (u32 (Z.shiftl (-1) (flt + 1))));
    if 0 <? flt then
      sl ← get_sl flt;
      slt ← find_last_bit sl;
      find ← get_tbl flt slt;
      mret (find, flt, slt)
    else mret (0, flt, slt).

(** ** Allocating *)

(** the end of a cut: what is left of [b] behind [size] bytes, [b2], goes to its
    class and the header of [b] is written *)
Definition finish_split (b size b2 tmp_size : Z) : H unit :=
  '(_, fl, sl) ← bitmap_search tmp_size ACTION_INSERT;
  insert_block b2 fl sl;;
  bs ← ld (mb_size b);
  st (mb_size b) (Z.lor size (Z.land bs RHINO_MM_PRESTAT_MASK)).

(** [b], the first block of its class, leaves its list *)
Definition take_first (b fl sl : Z) : H unit :=
  next ← ld (mb_fnext b);
  put_tbl fl sl next;;
  (if negb (next =? 0) then st (mb_fprev next) 0 else clear_class fl sl);;
  st (mb_fprev b) 0;;
  st (mb_fnext b) 0.

Definition k_mm_alloc_large (size req_size : Z) : H Z :=
  let size := MM_ALIGN_UP size in
  let size := if size <? AOS_MM_TLF_ALLOC_MIN_LENGTH then AOS_MM_TLF_ALLOC_MIN_LENGTH else size in
  '(sta, fl, sl) ← bitmap_search size ACTION_GET;
  if negb (bool_decide (sta = RHINO_SUCCESS)) then mret 0 else
  '(b, fl, sl) ← findblk_byidx fl sl;
  if b =? 0 then mret 0 else
  take_first b fl sl;;
  bs ← ld (mb_size b);
  let next_b := NEXT_MM_BLK (mb_buffer b) (blksize bs) in
  (* Should the block be split? *)
  let tmp_size := u32 (blksize bs - size) in
  (if sizeof_k_mm_list_t <=? tmp_size then
     let tmp_size := tmp_size - MMLIST_HEAD_SIZE in
     let b2 := NEXT_MM_BLK (mb_buffer b) size in
     st (mb_size b2) (Z.lor (Z.lor tmp_size RHINO_MM_FREE) RHINO_MM_PREVALLOCED);;
     st (mb_prev next_b) b2;;
     finish_split b size b2 tmp_size
   else
     ns ← ld (mb_size next_b);
     st (mb_size next_b) (Z.land ns (Z.lnot RHINO_MM_PREVFREE));;
     bs ← ld (mb_size b);
     st (mb_size b) (Z.land bs (Z.lnot RHINO_MM_FREE)));;
  bs ← ld (mb_size b);
  addsize (blksize bs + MMLIST_HEAD_SIZE) req_size;;
  mret (mb_buffer b).

(** [mh] is the address of the head *)
Definition k_mm_alloc (mh size : Z) : H Z :=
  if mh =? 0 then mret 0 else
  if size =? 0 then mret 0 else
  fixed ← gets (fun s => fixedmblk (mmhead s));
  avail ← (if fixed =? 0 then mret 0 else
           if size <=? DEF_FIX_BLK_SIZE then ld (mp_blk_avail (mb_buffer fixed)) else mret 0);
  retptr ← (if 0 <? avail then k_mm_smallblk_alloc mh size else mret 0);
  if negb (retptr =? 0) then mret retptr else k_mm_alloc_large size size.

(** ** Freeing *)

(** [b] goes back to the lists, with its free neighbours *)
Definition k_mm_free_large (ptr : Z) : H unit :=
  let b := u32 (ptr - MMLIST_HEAD_SIZE) in
  bs ← ld (mb_size b);
  st (mb_size b) (Z.lor bs RHINO_MM_FREE);;
  bs ← ld (mb_size b);
  removesize (blksize bs + MMLIST_HEAD_SIZE);;
  let tmp_b := NEXT_MM_BLK (mb_buffer b) (blksize bs) in
  ts ← ld (mb_size tmp_b);
  (if negb (Z.land ts RHINO_MM_FREE =? 0) then
     unlink_free tmp_b ts;;
     bs ← ld (mb_size b);
     ts ← ld (mb_size tmp_b);
     st (mb_size b) (u32 (bs + (blksize ts + MMLIST_HEAD_SIZE)))
   else mret tt);;
  bs ← ld (mb_size b);
  b ← (if negb (Z.land bs RHINO_MM_PREVFREE =? 0) then
         tmp_b ← ld (mb_prev b);
         ts ← ld (mb_size tmp_b);
         unlink_free tmp_b ts;;
         ts ← ld (mb_size tmp_b);
         bs ← ld (mb_size b);
         st (mb_size tmp_b) (u32 (ts + (blksize bs + MMLIST_HEAD_SIZE)));;
         mret tmp_b
       else mret b);
  bs ← ld (mb_size b);
  '(_, fl, sl) ← bitmap_search (blksize bs) ACTION_INSERT;
  insert_block b fl sl;;
  let tmp_b := NEXT_MM_BLK (mb_buffer b) (blksize bs) in
  ts ← ld (mb_size tmp_b);
  st (mb_size tmp_b) (Z.lor ts RHINO_MM_PREVFREE);;
  st (mb_prev tmp_b) b.

Definition k_mm_free (mh ptr : Z) : H unit :=
  if (ptr =? 0) || (mh =? 0) then mret tt else
  fixed ← gets (fun s => fixedmblk (mmhead s));
  is_fixed ← ISFIXEDBLK fixed ptr;
  if is_fixed : bool then k_mm_smallblk_free mh ptr else
  k_mm_free_large ptr.

(** ** Reallocating *)

(** [memcpy] of [n] words *)
Fixpoint copy_words (n : nat) (dst src : Z) : H unit :=
  match n with
  | O => mret tt
  | S n => w ← ld src; st dst w;; copy_words n (dst + 4) (src + 4)
  end.

(** the block [b] keeps [new_size] bytes, what is left before [next_b] is freed *)
Definition realloc_rest (b new_size tmp_size next_b : Z) : H unit :=
  if sizeof_k_mm_list_t <=? tmp_size then
    let tmp_size := tmp_size - MMLIST_HEAD_SIZE in
    let tmp_b := NEXT_MM_BLK (mb_buffer b) new_size in
    st (mb_size tmp_b) (Z.lor (Z.lor tmp_size RHINO_MM_FREE) RHINO_MM_PREVALLOCED);;
    st (mb_prev next_b) tmp_b;;
    ns ← ld (mb_size next_b);
    st (mb_size next_b) (Z.lor ns RHINO_MM_PREVFREE);;
    finish_split b new_size tmp_b tmp_size
  else mret tt.

(** within the block and a free one behind it; 0 when it does not fit *)
Definition realloc_in_place (b new_size req_size : Z) : H Z :=
  bs ← ld (mb_size b);
  let tmp_size := blksize bs in
  let next_b := NEXT_MM_BLK (mb_buffer b) (blksize bs) in
  ns ← ld (mb_size next_b);
  let next_free := negb (Z.land ns RHINO_MM_FREE =? 0) in
  if new_size <=? tmp_size then
    removesize (blksize bs + MMLIST_HEAD_SIZE);;
    '(tmp_size, next_b) ← (
      if next_free then
        unlink_free next_b ns;;
        ns ← ld (mb_size next_b);
        mret (u32 (tmp_size + (blksize ns + MMLIST_HEAD_SIZE)), NEXT_MM_BLK (mb_buffer next_b) (blksize ns))
      else mret (tmp_size, next_b));
    realloc_rest b new_size (tmp_size - new_size) next_b;;
    bs ← ld (mb_size b);
    addsize (blksize bs + MMLIST_HEAD_SIZE) req_size;;
    mret (mb_buffer b)
  else if next_free && (new_size <=? u32 (tmp_size + blksize ns)) then
    removesize (blksize bs + MMLIST_HEAD_SIZE);;
    unlink_free next_b ns;;
    bs ← ld (mb_size b);
    ns ← ld (mb_size next_b);
    let bs := u32 (bs + (blksize ns + MMLIST_HEAD_SIZE)) in
    st (mb_size b) bs;;
    let next_b := NEXT_MM_BLK (mb_buffer b) (blksize bs) in
    st (mb_prev next_b) b;;
    ns ← ld (mb_size next_b);
    st (mb_size next_b) (Z.land ns (Z.lnot RHINO_MM_PREVFREE));;
    realloc_rest b new_size (blksize bs - new_size) next_b;;
    bs ← ld (mb_size b);
    addsize (blksize bs + MMLIST_HEAD_SIZE) req_size;;
    mret (mb_buffer b)
  else mret 0.

Definition k_mm_realloc (mh oldmem new_size : Z) : H Z :=
  if oldmem =? 0 then
    if negb (new_size =? 0) then k_mm_alloc mh new_size else mret 0
  else if new_size =? 0 then k_mm_free mh oldmem;; mret 0
  else
  let req_size := new_size in
  fixed ← gets (fun s => fixedmblk (mmhead s));
  is_fixed ← ISFIXEDBLK fixed oldmem;
  if is_fixed : bool then
    if new_size <=? DEF_FIX_BLK_SIZE then mret oldmem
    else
      ptr_aux ← k_mm_alloc mh new_size;
      (if negb (ptr_aux =? 0) then
         copy_words (Z.to_nat (DEF_FIX_BLK_SIZE / 4)) ptr_aux oldmem;; k_mm_smallblk_free mh oldmem
       else mret tt);;
      mret ptr_aux
  else
    let b := u32 (oldmem - MMLIST_HEAD_SIZE) in
    let new_size := if new_size <? sizeof_k_mm_list_t then sizeof_k_mm_list_t else MM_ALIGN_UP new_size in
    ptr_aux ← realloc_in_place b new_size req_size;
    if negb (ptr_aux =? 0) then mret ptr_aux else
    ptr_aux ← k_mm_alloc mh new_size;
    if ptr_aux =? 0 then mret 0 else
    bs ← ld (mb_size b);
    let cpsize := if new_size <? blksize bs then new_size else blksize bs in
    copy_words (Z.to_nat (cpsize / 4)) ptr_aux oldmem;;
    k_mm_free mh oldmem;;
    mret ptr_aux.

(** ** Making a heap *)

Definition init_mm_region (regionaddr len : Z) : H Z :=
  let firstblk := regionaddr in
  st (mb_size firstblk) (Z.lor (Z.lor (MM_ALIGN_UP sizeof_k_mm_region_info_t) RHINO_MM_ALLOCED) RHINO_MM_PREVALLOCED);;
  fs ← ld (mb_size firstblk);
  let curblk := u32 (mb_buffer firstblk + blksize fs) in
  st (mb_size curblk) (Z.lor (Z.lor (MM_ALIGN_DOWN (u32 (len - MMREGION_USED_SIZE))) RHINO_MM_ALLOCED) RHINO_MM_PREVALLOCED);;
  st (mb_fnext curblk) 0;;
  st (mb_fprev curblk) 0;;
  cs ← ld (mb_size curblk);
  let lastblk := NEXT_MM_BLK (mb_buffer curblk) (blksize cs) in
  st (mb_prev lastblk) curblk;;
  st (mb_size lastblk) (Z.lor (Z.lor 0 RHINO_MM_ALLOCED) RHINO_MM_PREVFREE);;
  (* region->next, region->end *)
  st (mb_buffer firstblk + 4) 0;;
  st (mb_buffer firstblk) lastblk;;
  mret firstblk.

Definition zero_head : k_mm_head :=
  mkHead 0 0 0 0 0 (replicate (Z.to_nat MAX_MM_BIT) 0) 0 (replicate (Z.to_nat FLT_SIZE) 0)
    (replicate (Z.to_nat FLT_SIZE) (replicate (Z.to_nat SLT_SIZE) 0)).

(** [name] is the address of the name of the pool; the second component is
    stored in [*ppmmhead] *)
Definition krhino_init_mm_head (ppmmhead : option nat) (addr len name : Z) : H (kstat_t * option Z) :=
  match ppmmhead with
  | None => mret (RHINO_NULL_PTR, None)
  | Some _ =>
      if addr =? 0 then mret (RHINO_NULL_PTR, None) else
      let orig_addr := addr in
      let addr := MM_ALIGN_UP addr in
      let len := u32 (len - u32 (addr - orig_addr)) in
      let len := MM_ALIGN_DOWN len in
      if negb (Z.land addr MM_ALIGN_MASK =? 0) || negb (len =? MM_ALIGN_DOWN len) then mret (RHINO_INV_ALIGN, None) else
      if (len =? 0) || (len <? MIN_FREE_MEMORY_SIZE + RHINO_CONFIG_MM_TLF_BLK_SIZE) || (MAX_MM_SIZE <? len)
      then mret (RHINO_MM_POOL_SIZE_ERR, None) else
      let pmmhead := addr in
      upd_head (fun _ => zero_head);;
      firstblk ← init_mm_region (u32 (addr + MM_ALIGN_UP sizeof_k_mm_head)) (MM_ALIGN_DOWN (u32 (len - sizeof_k_mm_head)));
      upd_head (set_regioninfo (mb_buffer firstblk));;
      fs ← ld (mb_size firstblk);
      let nextblk := NEXT_MM_BLK (mb_buffer firstblk) (blksize fs) in
      k_mm_free pmmhead (mb_buffer nextblk);;
      ns ← ld (mb_size nextblk);
      upd_head (fun h => set_stats (u32 (len - blksize ns)) (u32 (len - blksize ns)) (blksize ns) (mm_size_stats h) h);;
      upd_head (set_fixedmblk 0);;
      mmblk_pool ← k_mm_alloc pmmhead (RHINO_CONFIG_MM_TLF_BLK_SIZE + MM_ALIGN_UP sizeof_mblk_pool_t);
      (if negb (mmblk_pool =? 0) then
         let curblk := u32 (mmblk_pool - MMLIST_HEAD_SIZE) in
         stat ← krhino_mblk_pool_init mmblk_pool name (mmblk_pool + MM_ALIGN_UP sizeof_mblk_pool_t)
                  DEF_FIX_BLK_SIZE RHINO_CONFIG_MM_TLF_BLK_SIZE;
         (if bool_decide (stat = RHINO_SUCCESS) then upd_head (set_fixedmblk curblk) else k_mm_free pmmhead mmblk_pool);;
         removesize RHINO_CONFIG_MM_TLF_BLK_SIZE
       else mret tt);;
      mret (RHINO_SUCCESS, Some pmmhead)
  end.

(** ** More memory *)

(** [memset(addr, 0, 4 * n)] *)
Fixpoint zero_mem (n : nat) (addr : Z) : H unit :=
  match n with O => mret tt | S n => st addr 0;; zero_mem n (addr + 4) end.

(** the fields of [k_mm_region_info_t] *)
Definition ri_end (r : Z) : Z := r.
Definition ri_next (r : Z) : Z := r + 4.

(** [ptr] leaves the list of the regions *)
Definition unlink_region (ptr ptr_prev : Z) : H Z :=
  info ← gets (fun s => regioninfo (mmhead s));
  next ← ld (ri_next ptr);
  (if info =? ptr then upd_head (set_regioninfo next) else st (ri_next ptr_prev) next);;
  mret next.

(** [while (ptr)]: a region next to the new one, whose blocks are [ib0] to [lb0],
    becomes part of it *)
Fixpoint merge_regions (fuel : nat) (ptr ptr_prev ib0 b0 lb0 : Z) : H (Z * Z * Z) :=
  if ptr =? 0 then mret (ib0, b0, lb0) else
  match fuel with
  | O => undef
  | S n =>
      let ib1 := u32 (ptr - MMLIST_HEAD_SIZE) in
      i1 ← ld (mb_size ib1);
      let b1 := NEXT_MM_BLK (mb_buffer ib1) (blksize i1) in
      lb1 ← ld (ri_end ptr);
      if ib1 =? u32 (lb0 + MMLIST_HEAD_SIZE) then
        (* the new area with the next one *)
        ptr ← unlink_region ptr ptr_prev;
        s0 ← ld (mb_size b0);
        s1 ← ld (mb_size ib1);
        st (mb_size b0) (Z.lor (Z.lor (MM_ALIGN_DOWN (u32 (blksize s0 + blksize s1 + 2 * MMLIST_HEAD_SIZE))) RHINO_MM_ALLOCED) RHINO_MM_PREVALLOCED);;
        st (mb_prev b1) b0;;
        merge_regions n ptr ptr_prev ib0 b0 lb1
      else if mb_buffer lb1 =? ib0 then
        (* the new area with the previous one *)
        ptr ← unlink_region ptr ptr_prev;
        s0 ← ld (mb_size b0);
        i0 ← ld (mb_size ib0);
        l1 ← ld (mb_size lb1);
        st (mb_size lb1) (Z.lor (Z.lor (MM_ALIGN_DOWN (u32 (blksize s0 + blksize i0 + 2 * MMLIST_HEAD_SIZE))) RHINO_MM_ALLOCED)
                            (Z.land l1 RHINO_MM_PRESTAT_MASK));;
        l1 ← ld (mb_size lb1);
        let next_b := NEXT_MM_BLK (mb_buffer lb1) (blksize l1) in
        st (mb_prev next_b) lb1;;
        merge_regions n ptr ptr_prev ib1 lb1 lb0
      else
        next ← ld (ri_next ptr);
        merge_regions n next ptr ib0 b0 lb0
  end.

(** the list of the regions does not hold [fuel] of them *)
Definition krhino_add_mm_region (fuel : nat) (mh addr len : Z) : H kstat_t :=
  if mh =? 0 then mret RHINO_NULL_PTR else
  if addr =? 0 then mret RHINO_NULL_PTR else
  if negb (Z.land addr MM_ALIGN_MASK =? 0) || negb (len =? MM_ALIGN_DOWN len) then mret RHINO_INV_ALIGN else
  if (len =? 0) || (len <? sizeof_k_mm_region_info_t + sizeof_k_mm_list_t * 2) then mret RHINO_MM_POOL_SIZE_ERR else
  zero_mem (Z.to_nat (len / 4)) addr;;
  ptr ← gets (fun s => regioninfo (mmhead s));
  ib0 ← init_mm_region addr len;
  s ← ld (mb_size ib0);
  let b0 := NEXT_MM_BLK (mb_buffer ib0) (blksize s) in
  s ← ld (mb_size b0);
  let lb0 := NEXT_MM_BLK (mb_buffer b0) (blksize s) in
  '(ib0, b0, lb0) ← merge_regions fuel ptr 0 ib0 b0 lb0;
  let ai := mb_buffer ib0 in
  info ← gets (fun s => regioninfo (mmhead s));
  st (ri_next ai) info;;
  st (ri_end ai) lb0;;
  upd_head (set_regioninfo ai);;
  s ← ld (mb_size b0);
  upd_head (fun h => set_stats (u32 (used_size h + (blksize s + MMLIST_HEAD_SIZE))) (maxused_size h) (free_size h) (mm_size_stats h) h);;
  k_mm_free mh (mb_buffer b0);;
  mret RHINO_SUCCESS.

Definition krhino_deinit_mm_head : H kstat_t := upd_head (fun _ => zero_head);; mret RHINO_SUCCESS.

(** [g_kmm_head] is [mh] *)
Definition krhino_mm_alloc (mh size : Z) : H Z := if size =? 0 then mret 0 else k_mm_alloc mh size.
Definition krhino_mm_free (mh ptr : Z) : H unit := k_mm_free mh ptr.
Definition krhino_mm_realloc (mh oldmem newsize : Z) : H Z := k_mm_realloc mh oldmem newsize.
