(* ===== verification/MmClass.v ===== *)
(** * The heap: classes of sizes

    [bitmap_search] computes the class of a size; the class found for a request
    has no smaller block.  The class [(i, j)] begins at the size [lower i j]. *)

From S2P Require Import Prelude Config Bitmap Mem MmBlk Mm.
Open Scope Z_scope.

(** ** One word of a bitmap *)

Lemma bm_bit_word w j : 0 <= j < 32 -> bm_bit [w] (31 - j) = Z.testbit w j.
Proof.
  intros Hj. unfold bm_bit. rewrite BITMAP_WORD_eq. replace (Z.to_nat ((31 - j) / 32)) with 0%nat by zlia. cbn [lookup list_lookup].
  f_equal. zlia.
Qed.

Lemma words_ok_word w : 0 <= w < 2 ^ 32 -> words_ok [w].
Proof. intros. by apply Forall_singleton. Qed.

Lemma word_set_spec w j : 0 <= w < 2 ^ 32 -> 0 <= j < 32 ->
  exists w', krhino_bitmap_set [w] (31 - j) = Some [w'] /\ 0 <= w' < 2 ^ 32 /\
    forall i, 0 <= i < 32 -> Z.testbit w' i = bool_decide (i = j) || Z.testbit w i.
Proof.
  intros Hw Hj. destruct (krhino_bitmap_set_spec [w] (31 - j)) as (bm & -> & Hok & Hlen & Hb);
    [by apply words_ok_word|cbn; lia|]. destruct bm as [|w' [|]]; try done. exists w'. split; [done|].
  split; [by inversion Hok|]. intros i Hi. rewrite <- (bm_bit_word w'), <- (bm_bit_word w), Hb by lia. f_equal.
  apply bool_decide_ext. lia.
Qed.

Lemma word_clear_spec w j : 0 <= w < 2 ^ 32 -> 0 <= j < 32 ->
  exists w', krhino_bitmap_clear [w] (31 - j) = Some [w'] /\ 0 <= w' < 2 ^ 32 /\
    forall i, 0 <= i < 32 -> Z.testbit w' i = negb (bool_decide (i = j)) && Z.testbit w i.
Proof.
  intros Hw Hj. destruct (krhino_bitmap_clear_spec [w] (31 - j)) as (bm & -> & Hok & Hlen & Hb);
    [by apply words_ok_word|cbn; lia|]. destruct bm as [|w' [|]]; try done. exists w'. split; [done|].
  split; [by inversion Hok|]. intros i Hi. rewrite <- (bm_bit_word w'), <- (bm_bit_word w), Hb by lia. do 2 f_equal.
  apply bool_decide_ext. lia.
Qed.
Lemma wp_word_set w j (Q : Z -> hstate -> Prop) s : 0 <= w < 2 ^ 32 -> 0 <= j < 32 ->
  (forall w', 0 <= w' < 2 ^ 32 -> (forall i, 0 <= i < 32 -> Z.testbit w' i = bool_decide (i = j) || Z.testbit w i) -> Q w' s) ->
  wp (word_set w (31 - j)) Q s.
Proof.
  intros Hw Hj HQ. destruct (word_set_spec w j Hw Hj) as (w' & E & Hw' & Hb). unfold word_set. rewrite E.
  by apply HQ.
Qed.

Lemma wp_word_clear w j (Q : Z -> hstate -> Prop) s : 0 <= w < 2 ^ 32 -> 0 <= j < 32 ->
  (forall w', 0 <= w' < 2 ^ 32 -> (forall i, 0 <= i < 32 -> Z.testbit w' i = negb (bool_decide (i = j)) && Z.testbit w i) -> Q w' s) ->
  wp (word_clear w (31 - j)) Q s.
Proof.
  intros Hw Hj HQ. destruct (word_clear_spec w j Hw Hj) as (w' & E & Hw' & Hb). unfold word_clear. rewrite E.
  by apply HQ.
Qed.

(** a word is 0 when none of its bits is set *)
Lemma word_zero w : 0 <= w < 2 ^ 32 -> (forall i, 0 <= i < 32 -> Z.testbit w i = false) -> w = 0.
Proof.
  intros Hw Hb. apply Z.bits_inj'. intros i Hi. rewrite Z.bits_0. destruct (Z.lt_ge_cases i 32); [by apply Hb|].
  apply word_range_testbit in Hw as [_ Hw]. by apply Hw.
Qed.

Lemma word_first_set w : 0 < w < 2 ^ 32 -> exists t, 0 <= t < 32 /\ Z.testbit w t = true /\ forall i, 0 <= i < t -> Z.testbit w i = false.
Proof.
  intros Hw. assert (Hex : exists t, 0 <= t < 32 /\ Z.testbit w t = true).
  { exists (Z.log2 w). rewrite Z.bit_log2 by lia. pose proof (Z.log2_nonneg w). split; [|done]. split; [done|].
    apply Z.log2_lt_pow2; lia. }
  destruct Hex as (t & Ht & Htb). revert Htb. assert (0 <= t) by lia. revert Ht. pattern t.
  apply Zlt_0_ind; [|done]. clear t H. intros t IH _ Ht Htb.
  destruct (decide (Exists (fun i => Z.testbit w i = true) (seqZ 0 t))) as [He|Hne].
  - apply Exists_exists in He as (i & Hi%elem_of_seqZ & Hib). apply (IH i); lia || done.
  - exists t. split; [done|]. split; [done|]. intros i Hi. apply not_true_is_false. intros Hib. apply Hne, Exists_exists.
    exists i. split; [apply elem_of_seqZ; lia|done].
Qed.

(** [bitmap & -bitmap] is the lowest bit *)
Lemma lowest_bit w t : 0 < w < 2 ^ 32 -> 0 <= t < 32 -> Z.testbit w t = true -> (forall i, 0 <= i < t -> Z.testbit w i = false) ->
  Z.land w (u32 (- w)) = 2 ^ t.
Proof.
  intros Hw Ht Htb Hlow.
  assert (Hlt : w mod 2 ^ t = 0).
  { apply Z.bits_inj'. intros i Hi. rewrite Z.bits_0. destruct (Z.lt_ge_cases i t).
    - rewrite Z.mod_pow2_bits_low by done. by apply Hlow.
    - by rewrite Z.mod_pow2_bits_high by lia. }
  assert (Hodd : (w / 2 ^ t) mod 2 = 1).
  { rewrite <- Z.shiftr_div_pow2, <- Z.bit0_mod, Z.shiftr_spec by lia. replace (0 + t) with t by lia. by rewrite Htb. }
  assert (Hp : 0 < 2 ^ t) by (apply Z.pow_pos_nonneg; lia).
  assert (Hw1 : w = 2 ^ t + 2 ^ (t + 1) * (w / 2 ^ t / 2)).
  { rewrite Z.pow_add_r by lia. change (2 ^ 1) with 2. pose proof (Z.div_mod w (2 ^ t)). pose proof (Z.div_mod (w / 2 ^ t) 2). nia. }
  set (q := w / 2 ^ t / 2) in *.
  assert (Hup : forall i, t < i -> Z.testbit (w - 1) i = Z.testbit w i).
  { intros i Hi. assert (Hd : (w - 1) / 2 ^ (t + 1) = w / 2 ^ (t + 1)).
    { rewrite Hw1. rewrite Z.pow_add_r by lia. change (2 ^ 1) with 2.
      replace (2 ^ t + 2 ^ t * 2 * q - 1) with (2 ^ t - 1 + q * (2 ^ t * 2)) by lia.
      replace (2 ^ t + 2 ^ t * 2 * q) with (2 ^ t + q * (2 ^ t * 2)) by lia.
      rewrite !Z.div_add by lia. rewrite !Z.div_small by lia. done. }
    replace i with (i - (t + 1) + (t + 1)) by lia. rewrite <- !Z.shiftr_spec by lia. by rewrite !Z.shiftr_div_pow2, Hd by lia. }
  apply Z.bits_inj'. intros i Hi. rewrite Z.land_spec, Z.pow2_bits_eqb by lia.
  destruct (Z.lt_trichotomy i t) as [Hlt'|[->|Hgt]].
  - rewrite Hlow, (proj2 (Z.eqb_neq _ _)) by lia. done.
  - rewrite Z.eqb_refl, Htb. unfold u32. rewrite Z.mod_pow2_bits_low by lia. cbn [andb].
    replace (- w) with (Z.lnot (w - 1)) by (unfold Z.lnot; lia). rewrite Z.lnot_spec by lia.
    replace (Z.testbit (w - 1) t) with false; [done|]. symmetry.
    replace (w - 1) with (2 ^ t - 1 + 2 ^ (t + 1) * q) by lia. rewrite Z.pow_add_r by lia. change (2 ^ 1) with 2.
    rewrite Z.testbit_eqb by lia. replace (2 ^ t - 1 + 2 ^ t * 2 * q) with (2 ^ t - 1 + 2 * q * 2 ^ t) by lia.
    rewrite Z.div_add by lia. rewrite (Z.div_small (2 ^ t - 1)) by lia.
    replace (0 + 2 * q) with (q * 2) by lia. rewrite Z.mod_mul by lia. done.
  - rewrite (proj2 (Z.eqb_neq _ _)) by lia. destruct (Z.lt_ge_cases i 32) as [Hi32|Hi32].
    + unfold u32. rewrite Z.mod_pow2_bits_low by lia. replace (- w) with (Z.lnot (w - 1)) by (unfold Z.lnot; lia).
      rewrite Z.lnot_spec, Hup by lia. apply andb_negb_r.
    + assert (Hw' : 0 <= w < 2 ^ 32) by lia. apply word_range_testbit in Hw' as [_ Hwt]. by rewrite Hwt.
Qed.

Lemma wp_find_last_bit w (Q : Z -> hstate -> Prop) s : 0 < w < 2 ^ 32 ->
  (forall t, 0 <= t < 32 -> Z.testbit w t = true -> (forall i, 0 <= i < t -> Z.testbit w i = false) -> Q t s) ->
  wp (find_last_bit w) Q s.
Proof.
  intros Hw HQ. destruct (word_first_set w Hw) as (t & Ht & Htb & Hlow). unfold find_last_bit.
  rewrite (proj2 (Z.eqb_neq _ _)) by lia. rewrite (lowest_bit w t) by done.
  assert (Hp : 0 < 2 ^ t < 2 ^ 32) by (split; [apply Z.pow_pos_nonneg; lia|apply Z.pow_lt_mono_r; lia]).
  cbn [krhino_find_first_bit]. rewrite (proj2 (Z.eqb_neq _ _)) by lia. cbn [lift].
  rewrite word_first_bit_log2, Z.log2_pow2 by lia. apply wp_bind, wp_ret, wp_ret.
  replace (31 - (31 - t)) with t by lia. by apply HQ.
Qed.

(** ** Classes *)

Definition cls (s : Z) : Z * Z :=
  if s <? MIN_FLT_SIZE then (0, s / 4) else let k := Z.log2 s in (k - 6, s / 2 ^ (k - 5) - 32).

(** the smallest size of a class *)
Definition lower (c : Z * Z) : Z := if c.1 =? 0 then 4 * c.2 else (32 + c.2) * 2 ^ (c.1 + 1).

Definition class_ok (c : Z * Z) : Prop := 0 <= c.1 < FLT_SIZE /\ 0 <= c.2 < SLT_SIZE.
Definition class_le (c d : Z * Z) : Prop := c.1 < d.1 \/ c.1 = d.1 /\ c.2 <= d.2.

(** what [ACTION_GET] makes of a size before it looks for its class *)
Definition get_size (s : Z) : Z := if s <? MIN_FLT_SIZE then s else s + 2 ^ (Z.log2 s - 5) - 1.

#[local] Ltac consts := change MIN_FLT_SIZE with 128 in *; change FLT_SIZE with 14 in *; change SLT_SIZE with 32 in *;
  change MAX_LOG2_SLT with 5 in *; change MIN_FLT_BIT with 7 in *; change MAX_MM_SIZE with (2 ^ 20) in *.

Lemma log2_facts s : 128 <= s -> 7 <= Z.log2 s /\ 0 < 2 ^ (Z.log2 s - 5) /\
  32 * 2 ^ (Z.log2 s - 5) <= s < 64 * 2 ^ (Z.log2 s - 5).
Proof.
  intros Hs. assert (7 <= Z.log2 s) by (apply Z.log2_le_pow2; lia). split; [done|].
  assert (0 < 2 ^ (Z.log2 s - 5)) by (apply Z.pow_pos_nonneg; lia). split; [done|].
  pose proof (Z.log2_spec s ltac:(lia)) as [L1 L2]. change 32 with (2 ^ 5). change 64 with (2 ^ 6).
  rewrite <- !Z.pow_add_r by lia. replace (5 + (Z.log2 s - 5)) with (Z.log2 s) by lia.
  replace (6 + (Z.log2 s - 5)) with (Z.succ (Z.log2 s)) by lia. done.
Qed.

Lemma log2_of k s : 0 <= k -> 32 * 2 ^ k <= s < 64 * 2 ^ k -> Z.log2 s = k + 5.
Proof.
  intros Hk Hs. apply Z.log2_unique; [lia|]. change (32 * 2 ^ k) with (2 ^ 5 * 2 ^ k) in Hs. change (64 * 2 ^ k) with (2 ^ 6 * 2 ^ k) in Hs.
  rewrite <- !Z.pow_add_r in Hs by lia. replace (k + 5) with (5 + k) by lia. replace (Z.succ (5 + k)) with (6 + k) by lia. done.
Qed.

Lemma slt_range s : 128 <= s -> 0 <= s / 2 ^ (Z.log2 s - 5) - 32 < 32.
Proof.
  intros Hs. destruct (log2_facts s Hs) as (H1 & H2 & H3).
  assert (32 <= s / 2 ^ (Z.log2 s - 5)) by (apply Z.div_le_lower_bound; lia).
  assert (s / 2 ^ (Z.log2 s - 5) < 64) by (apply Z.div_lt_upper_bound; lia). lia.
Qed.

Lemma cls_ok s : 0 <= s < MAX_MM_SIZE -> class_ok (cls s).
Proof.
  intros Hs. unfold cls, class_ok. consts. destruct (Z.ltb_spec s 128); cbn [fst snd].
  - split; [lia|]. zlia.
  - destruct (log2_facts s) as (H1 & _ & _); [done|]. pose proof (slt_range s H).
    assert (Z.log2 s < 20) by (apply Z.log2_lt_pow2; lia). lia.
Qed.

Lemma lower_cls s : 0 <= s -> lower (cls s) <= s.
Proof.
  intros Hs. unfold lower, cls. consts. destruct (Z.ltb_spec s 128) as [|H]; cbn [fst snd Z.eqb].
  - zlia.
  - destruct (log2_facts s H) as (H1 & H2 & H3). rewrite (proj2 (Z.eqb_neq _ _)) by lia.
    replace (Z.log2 s - 6 + 1) with (Z.log2 s - 5) by lia. pose proof (Z.mul_div_le s (2 ^ (Z.log2 s - 5))). lia.
Qed.

(** the sizes of the classes under [c] are under [lower c] *)
Lemma lower_gt s c : 0 <= s -> class_ok c -> ~ class_le c (cls s) -> s < lower c.
Proof.
  intros Hs Hc Hn. unfold lower, cls, class_ok, class_le in *. destruct c as [i j]. consts.
  destruct (Z.ltb_spec s 128) as [Hlt|H]; cbn [fst snd] in *.
  - destruct (Z.eqb_spec i 0) as [->|]; [zlia|]. assert (2 ^ 2 <= 2 ^ (i + 1)) by (apply Z.pow_le_mono_r; lia).
    nia.
  - destruct (log2_facts s H) as (H1 & H2 & H3). set (k := Z.log2 s) in *. rewrite (proj2 (Z.eqb_neq _ _)) by lia.
    destruct (decide (i = k - 6)) as [->|].
    + replace (k - 6 + 1) with (k - 5) by lia. pose proof (Z.mul_succ_div_gt s (2 ^ (k - 5)) H2). nia.
    + assert (2 ^ (k - 5 + 1) <= 2 ^ (i + 1)) by (apply Z.pow_le_mono_r; lia).
      rewrite Z.pow_add_r in H0 by lia. change (2 ^ 1) with 2 in H0. nia.
Qed.

Lemma lower_mono c d : class_ok c -> class_ok d -> class_le c d -> lower c <= lower d.
Proof.
  intros Hc Hd Hle. unfold lower, class_ok, class_le in *. destruct c as [i j], d as [i' j']. consts. cbn [fst snd] in *.
  destruct (Z.eqb_spec i 0) as [->|], (Z.eqb_spec i' 0) as [->|]; [lia| |lia|].
  - assert (2 ^ 2 <= 2 ^ (i' + 1)) by (apply Z.pow_le_mono_r; lia). nia.
  - destruct (decide (i = i')) as [->|]; [assert (0 < 2 ^ (i' + 1)) by (apply Z.pow_pos_nonneg; lia); nia|].
    assert (2 ^ (i + 1 + 1) <= 2 ^ (i' + 1)) by (apply Z.pow_le_mono_r; lia).
    rewrite Z.pow_add_r in H by lia. change (2 ^ 1) with 2 in H. assert (0 < 2 ^ (i + 1)) by (apply Z.pow_pos_nonneg; lia). nia.
Qed.

(** a block is of the class [c] or a later one iff it has the size *)
Lemma class_le_lower s c : 0 <= s < MAX_MM_SIZE -> class_ok c -> class_le c (cls s) <-> lower c <= s.
Proof.
  intros Hs Hc. split.
  - intros Hle. etrans; [|apply lower_cls; lia]. apply lower_mono; [done|by apply cls_ok|done].
  - intros Hl. destruct (decide (c.1 < (cls s).1 \/ c.1 = (cls s).1 /\ c.2 <= (cls s).2)) as [|Hn]; [done|].
    apply lower_gt in Hn; [lia|lia|done].
Qed.

(** the class of a request has no block under the size *)
Lemma get_size_lower s : 0 <= s -> s mod 4 = 0 -> s <= lower (cls (get_size s)) <= get_size s.
Proof.
  intros Hs H4. unfold get_size. consts. destruct (Z.ltb_spec s 128) as [Hlt|H].
  - unfold cls, lower. consts. rewrite (proj2 (Z.ltb_lt _ _)) by done. cbn [fst snd Z.eqb]. zlia.
  - destruct (log2_facts s H) as (H1 & H2 & H3). set (k := Z.log2 s) in *. set (d := 2 ^ (k - 5)) in *.
    split; [|apply lower_cls; lia]. unfold cls, lower. consts. rewrite (proj2 (Z.ltb_ge _ _)) by lia. cbn [fst snd].
    set (t := s + d - 1). destruct (Z.lt_ge_cases t (64 * d)) as [Ht|Ht].
    + replace (Z.log2 t) with k by (rewrite (log2_of (k - 5) t); lia). rewrite (proj2 (Z.eqb_neq _ _)) by lia.
      replace (k - 6 + 1) with (k - 5) by lia. fold d. pose proof (Z.mul_succ_div_gt t d H2). nia.
    + assert (Hd2 : 2 ^ (k - 4) = 2 * d) by (subst d; rewrite <- (Z.pow_succ_r 2) by lia; f_equal; lia).
      replace (Z.log2 t) with (k + 1) by (rewrite (log2_of (k - 4) t); lia). rewrite (proj2 (Z.eqb_neq _ _)) by lia.
      replace (k + 1 - 6 + 1) with (k - 4) by lia. replace (k + 1 - 5) with (k - 4) by lia. rewrite Hd2.
      assert (32 <= t / (2 * d)) by (apply Z.div_le_lower_bound; lia). nia.
Qed.

(** ** [bitmap_search] *)

Lemma wp_first_bit s (Q : Z -> hstate -> Prop) st : 0 < s < 2 ^ 32 -> Q (Z.log2 s) st -> wp (first_bit s) Q st.
Proof.
  intros Hs HQ. unfold first_bit. cbn [krhino_find_first_bit]. rewrite (proj2 (Z.eqb_neq _ _)) by lia. apply wp_bind, wp_ret, wp_ret.
  rewrite word_first_bit_log2 by lia. replace (31 - (31 - Z.log2 s)) with (Z.log2 s) by lia.
  assert (0 <= Z.log2 s < 32) by (split; [apply Z.log2_nonneg|apply Z.log2_lt_pow2; lia]).
  by rewrite u32_small by lia.
Qed.

(** the end of the search, for [MIN_FLT_SIZE] bytes and more *)
Lemma search_end s (Q : Z * Z -> hstate -> Prop) st : 128 <= s < 2 ^ 32 -> Q (cls s) st ->
  wp (E := kstat_t) (if Z.log2 s <? MAX_LOG2_SLT then undef else
        let tmp_size := u32 (s - Z.shiftl 1 (Z.log2 s)) in
        mret (u32 (Z.log2 s - MIN_FLT_BIT + 1), Z.shiftr tmp_size (Z.log2 s - MAX_LOG2_SLT))) Q st.
Proof.
  intros Hs HQ. destruct (log2_facts s) as (H1 & H2 & H3); [lia|]. set (k := Z.log2 s) in *.
  assert (k < 32) by (apply Z.log2_lt_pow2; lia). consts. rewrite (proj2 (Z.ltb_ge _ _)) by lia. cbv zeta. apply wp_ret.
  rewrite Z.shiftl_1_l, Z.shiftr_div_pow2 by lia.
  assert (Hk : 2 ^ k = 32 * 2 ^ (k - 5)) by (change 32 with (2 ^ 5); rewrite <- Z.pow_add_r by lia; f_equal; lia).
  rewrite !u32_small by lia. rewrite Hk. replace (s - 32 * 2 ^ (k - 5)) with (s + (-32) * 2 ^ (k - 5)) by lia.
  rewrite Z.div_add by lia. revert HQ. unfold cls. consts. rewrite (proj2 (Z.ltb_ge _ _)) by lia. fold k. cbv zeta.
  replace (k - 7 + 1) with (k - 6) by lia. done.
Qed.

Lemma wp_search_insert s (Q : kstat_t * Z * Z -> hstate -> Prop) st :
  0 <= s < MAX_MM_SIZE -> Q (RHINO_SUCCESS, (cls s).1, (cls s).2) st -> wp (bitmap_search s ACTION_INSERT) Q st.
Proof.
  intros Hs HQ. pose proof (cls_ok s Hs) as [C1 C2]. unfold bitmap_search. apply wp_bind.
  apply (wp_mono _ (fun c st' => c = cls s /\ st' = st)).
  { intros [i j] ? [E ->]. rewrite <- E in *. cbn [fst snd] in *. rewrite (proj2 (Z.leb_gt _ _)), (proj2 (Z.leb_gt _ _)) by lia. done. }
  destruct (Z.ltb_spec s MIN_FLT_SIZE) as [Hlt|Hge].
  - apply wp_ret. split; [|done]. unfold cls. rewrite (proj2 (Z.ltb_lt _ _)) by lia. by rewrite Z.shiftr_div_pow2.
  - consts. apply wp_bind, wp_first_bit; [lia|]. apply wp_bind, wp_ret. by apply search_end; [lia|].
Qed.

Lemma wp_search_get s (Q : kstat_t * Z * Z -> hstate -> Prop) st :
  0 <= s <= 0xFC000000 ->
  (get_size s < MAX_MM_SIZE -> Q (RHINO_SUCCESS, (cls (get_size s)).1, (cls (get_size s)).2) st) ->
  (MAX_MM_SIZE <= get_size s -> forall i j, Q (RHINO_MM_FREE_ADDR_ERR, i, j) st) ->
  wp (bitmap_search s ACTION_GET) Q st.
Proof.
  intros Hs HQ1 HQ2. assert (Hg0 : s <= get_size s).
  { unfold get_size. consts. destruct (Z.ltb_spec s 128) as [|H]; [done|]. destruct (log2_facts s H) as (_ & ? & _). lia. }
  unfold bitmap_search. apply wp_bind.
  apply (wp_mono _ (fun c st' => c = cls (get_size s) /\ st' = st)).
  { intros [i j] ? [E ->]. destruct (Z.lt_ge_cases (get_size s) MAX_MM_SIZE) as [Hl|Hge].
    - specialize (HQ1 Hl). assert (Hok : class_ok (cls (get_size s))) by (apply cls_ok; lia). destruct Hok as [C1 C2].
      rewrite <- E in *. cbn [fst snd] in *. rewrite (proj2 (Z.leb_gt _ _)), (proj2 (Z.leb_gt _ _)) by lia. done.
    - specialize (HQ2 Hge i j). replace (FLT_SIZE <=? i) with true; [done|]. symmetry. apply Z.leb_le. consts.
      unfold cls in E. consts. rewrite (proj2 (Z.ltb_ge _ _)) in E by lia. injection E as -> ->.
      assert (20 <= Z.log2 (get_size s)) by (apply Z.log2_le_pow2; lia). lia. }
  unfold get_size in *. destruct (Z.ltb_spec s MIN_FLT_SIZE) as [Hlt|Hge].
  - apply wp_ret. split; [|done]. unfold cls. rewrite (proj2 (Z.ltb_lt _ _)) by lia. by rewrite Z.shiftr_div_pow2.
  - consts. destruct (log2_facts s Hge) as (H1 & H2 & H3). apply wp_bind, wp_first_bit; [lia|].
    assert (Hpad : 2 ^ (Z.log2 s - 5) <= 2 ^ 26).
    { apply Z.pow_le_mono_r; [lia|]. assert (Z.log2 s < 32) by (apply Z.log2_lt_pow2; lia). lia. }
    rewrite Z.shiftl_1_l. cbv zeta. replace (s + (2 ^ (Z.log2 s - 5) - 1)) with (s + 2 ^ (Z.log2 s - 5) - 1) by lia.
    rewrite u32_small by lia. apply wp_bind, wp_bind, wp_first_bit; [lia|]. apply wp_ret. by apply search_end; [lia|].
Qed.

Lemma lower_high t : MAX_MM_SIZE <= t -> MAX_MM_SIZE <= lower (cls t).
Proof.
  intros Ht. consts. destruct (log2_facts t) as (H1 & H2 & H3); [lia|]. assert (H20 : 20 <= Z.log2 t) by (apply Z.log2_le_pow2; lia).
  pose proof (slt_range t ltac:(lia)) as Hs. unfold lower, cls. consts. rewrite (proj2 (Z.ltb_ge _ _)) by lia. cbn [fst snd].
  rewrite (proj2 (Z.eqb_neq _ _)) by lia. assert (2 ^ 15 <= 2 ^ (Z.log2 t - 6 + 1)) by (apply Z.pow_le_mono_r; lia). nia.
Qed.
