(* ===== verification/MmList.v ===== *)
(** * The heap: the lists of free blocks

    The free blocks of a class are a doubly linked list whose links are the
    first two words of the blocks; [fl_rep m h F] says that the table and the
    bitmaps of the head [h] describe the lists [F]. *)

From S2P Require Import Prelude Config Bitmap Mem MmBlk Mm MmClass.
Open Scope Z_scope.

(** ** Doubly linked segments *)

(** the blocks [L], the first one behind [pv], the last one before [nx] *)
Fixpoint dseg (m : mem) (pv : Z) (L : list Z) (nx : Z) : Prop :=
  match L with
  | [] => True
  | b :: L => b <> 0 /\ m !! mb_fprev b = Some pv /\ m !! mb_fnext b = Some (hd nx L) /\ dseg m b L nx
  end.

Lemma hd_app {A} (d : A) L1 L2 : hd d (L1 ++ L2) = hd (hd d L2) L1.
Proof. by destruct L1. Qed.

Lemma dseg_app m pv L1 L2 nx : dseg m pv (L1 ++ L2) nx <-> dseg m pv L1 (hd nx L2) /\ dseg m (List.last L1 pv) L2 nx.
Proof.
  revert pv. induction L1 as [|b L1 IH]; intros pv; [cbn; naive_solver|].
  change (List.last (b :: L1) pv) with (match L1 with [] => b | _ => List.last L1 pv end).
  replace (match L1 with [] => b | _ => List.last L1 pv end) with (List.last L1 b).
  - cbn [dseg app]. rewrite IH, hd_app. naive_solver.
  - destruct L1 as [|c L1]; [done|]. clear. revert c. induction L1 as [|d L1 IH]; intros c; [done|]. apply IH.
Qed.

Lemma dseg_frame m m' pv L nx :
  (forall b, b ∈ L -> m' !! mb_fprev b = m !! mb_fprev b /\ m' !! mb_fnext b = m !! mb_fnext b) -> dseg m pv L nx -> dseg m' pv L nx.
Proof.
  revert pv. induction L as [|b L IH]; intros pv Hf; cbn [dseg]; [done|]. intros (H0 & H1 & H2 & H3).
  destruct (Hf b) as [-> ->]; [left|]. split_and!; try done. apply IH; [|done]. intros x Hx. apply Hf. by right.
Qed.

Lemma dseg_nonzero m pv L nx b : dseg m pv L nx -> b ∈ L -> b <> 0 /\ is_Some (m !! mb_fprev b) /\ is_Some (m !! mb_fnext b).
Proof.
  revert pv. induction L as [|c L IH]; intros pv H Hb; [by apply elem_of_nil in Hb|]. cbn in H. destruct H as (H0 & H1 & H2 & H3).
  apply elem_of_cons in Hb as [->|Hb]; [|by eapply IH]. split_and!; [done|by eexists|by eexists].
Qed.

(** ** The heads of the lists *)

Abbreviation lists := (Z -> Z -> list Z).

Definition Fset (F : lists) (i j : Z) (L : list Z) : lists := fun i' j' => if decide (i' = i /\ j' = j) then L else F i' j'.

Lemma Fset_eq F i j L : Fset F i j L i j = L.
Proof. unfold Fset. by rewrite decide_True. Qed.

Lemma Fset_ne F i j L i' j' : ~ (i' = i /\ j' = j) -> Fset F i j L i' j' = F i' j'.
Proof. intros. unfold Fset. by rewrite decide_False. Qed.

(** the blocks of all the lists *)
Definition node (F : lists) (x : Z) : Prop := exists i j, class_ok (i, j) /\ x ∈ F i j.
Definition links (P : Z -> Prop) (a : Z) : Prop := exists x, P x /\ (a = mb_fprev x \/ a = mb_fnext x).
Definition spaced (x y : Z) : Prop := x + sizeof_k_mm_list_t <= y \/ y + sizeof_k_mm_list_t <= x.

Record fl_bits (h : k_mm_head) (F : lists) : Prop := {
  fb_sl : forall i, 0 <= i < FLT_SIZE -> exists w, sl_bitmap h !! Z.to_nat i = Some w /\ 0 <= w < 2 ^ 32 /\
    forall j, 0 <= j < SLT_SIZE -> Z.testbit w j = bool_decide (F i j <> []);
  fb_range : 0 <= fl_bitmap h < 2 ^ 32;
  fb_fl : forall i, 0 <= i < FLT_SIZE -> Z.testbit (fl_bitmap h) i = true <-> exists j, 0 <= j < SLT_SIZE /\ F i j <> [];
  fb_high : forall i, FLT_SIZE <= i < 32 -> Z.testbit (fl_bitmap h) i = false
}.

Record fl_lists (m : mem) (F : lists) : Prop := {
  fs_seg : forall i j, class_ok (i, j) -> dseg m 0 (F i j) 0;
  fs_nodup : forall i j, class_ok (i, j) -> NoDup (F i j);
  fs_class : forall i j i' j' x, class_ok (i, j) -> class_ok (i', j') -> x ∈ F i j -> x ∈ F i' j' -> i = i' /\ j = j';
  fs_apart : forall x y, node F x -> node F y -> x <> y -> spaced x y
}.

Definition fl_tbl (h : k_mm_head) (F : lists) : Prop := forall i j, class_ok (i, j) -> tbl_at i j h = Some (hd 0 (F i j)).

Record fl_rep (m : mem) (h : k_mm_head) (F : lists) : Prop := {
  fr_bits : fl_bits h F;
  fr_tbl : fl_tbl h F;
  fr_lists : fl_lists m F
}.

(** everything but the table and the bitmaps *)
Definition same_rest (h h' : k_mm_head) : Prop :=
  regioninfo h' = regioninfo h /\ fixedmblk h' = fixedmblk h /\ used_size h' = used_size h /\ maxused_size h' = maxused_size h /\
  free_size h' = free_size h /\ mm_size_stats h' = mm_size_stats h.

Lemma same_rest_refl h : same_rest h h.
Proof. done. Qed.

Lemma same_rest_trans h1 h2 h3 : same_rest h1 h2 -> same_rest h2 h3 -> same_rest h1 h3.
Proof. unfold same_rest. intros. destruct_and!. split_and!; congruence. Qed.

(** ** Links do not alias *)

Lemma spaced_links x y : spaced x y ->
  mb_fprev x <> mb_fprev y /\ mb_fprev x <> mb_fnext y /\ mb_fnext x <> mb_fprev y /\ mb_fnext x <> mb_fnext y.
Proof. unfold spaced, mb_fprev, mb_fnext. change sizeof_k_mm_list_t with 16. lia. Qed.

Lemma fprev_fnext x : mb_fprev x <> mb_fnext x.
Proof. unfold mb_fprev, mb_fnext. lia. Qed.

(** a write to a link of a block leaves the links of the other ones *)
Lemma dseg_st m pv L nx y a v : (a = mb_fprev y \/ a = mb_fnext y) -> (forall b, b ∈ L -> spaced y b) ->
  dseg m pv L nx -> dseg (<[a := v]> m) pv L nx.
Proof.
  intros Ha Hs. apply dseg_frame. intros b Hb. destruct (spaced_links y b) as (? & ? & ? & ?); [by apply Hs|].
  destruct Ha as [-> | ->]; by rewrite !lookup_insert_ne.
Qed.

(** what does not touch the links leaves the lists *)
Lemma fl_lists_frame m m' F : (forall a, links (node F) a -> m' !! a = m !! a) -> fl_lists m F -> fl_lists m' F.
Proof.
  intros Hf [S1 S2 S3 S4]. split; try done. intros i j Hc. eapply dseg_frame; [|by apply S1].
  intros b Hb. assert (Hn : node F b) by (by exists i, j). split; apply Hf; exists b; naive_solver.
Qed.

Lemma fl_rep_frame m m' h F : (forall a, links (node F) a -> m' !! a = m !! a) -> fl_rep m h F -> fl_rep m' h F.
Proof. intros Hf [R1 R2 R3]. split; try done. by eapply fl_lists_frame. Qed.

Lemma node_nonzero m F x : fl_lists m F -> node F x -> x <> 0 /\ is_Some (m !! mb_fprev x) /\ is_Some (m !! mb_fnext x).
Proof. intros Hl (i & j & Hc & Hx). eapply dseg_nonzero; [|exact Hx]. by apply Hl. Qed.

(** ** The table and the bitmaps *)

Definition put_tbl_h (i j b : Z) (h : k_mm_head) : k_mm_head :=
  set_mm_tbl (alter (fun row => <[Z.to_nat j := b]> row) (Z.to_nat i) (mm_tbl h)) h.

Lemma tbl_at_put i j b h i' j' b0 : tbl_at i j h = Some b0 -> 0 <= i -> 0 <= j -> 0 <= i' -> 0 <= j' ->
  tbl_at i' j' (put_tbl_h i j b h) = if decide (i' = i /\ j' = j) then Some b else tbl_at i' j' h.
Proof.
  intros Hb Hi Hj Hi' Hj'. unfold tbl_at, put_tbl_h in *. cbn [mm_tbl set_mm_tbl] in *.
  destruct (decide (i' = i)) as [->|Hne].
  - rewrite list_lookup_alter_eq. destruct (mm_tbl h !! Z.to_nat i) as [row|] eqn:E; cbn in *; [|done].
    case_decide as Hc; [destruct Hc as [_ ->]; apply list_lookup_insert_eq; by eapply lookup_lt_Some|].
    apply list_lookup_insert_ne. naive_solver lia.
  - rewrite list_lookup_alter_ne by lia. rewrite decide_False; [done|naive_solver].
Qed.

Lemma fl_tbl_put h F i j b L : fl_tbl h F -> class_ok (i, j) -> hd 0 L = b -> fl_tbl (put_tbl_h i j b h) (Fset F i j L).
Proof.
  intros Ht Hc <- i' j' Hc'. pose proof (Ht _ _ Hc) as H0. destruct Hc as [[] []], Hc' as [[] []]. cbn [fst snd] in *.
  erewrite tbl_at_put by done. unfold Fset. case_decide; [done|]. by apply Ht.
Qed.

Lemma fl_bits_iff (F1 F2 : lists) h' : (forall i j, class_ok (i, j) -> F1 i j <> [] <-> F2 i j <> []) -> fl_bits h' F1 -> fl_bits h' F2.
Proof.
  intros He [B1 B2 B3 B4]. split; [|done| |done].
  - intros i' Hi'. destruct (B1 i' Hi') as (w & Hw & Hr & Hb). exists w. split; [done|]. split; [done|].
    intros j' Hj'. rewrite Hb by done. apply bool_decide_ext, He. done.
  - intros i' Hi'. rewrite B3 by done. split; intros (j' & Hj' & Hn); exists j'; (split; [done|]);
      pose proof (He i' j' ltac:(done)); tauto.
Qed.

Lemma fl_bits_put h F i j b : fl_bits h F -> fl_bits (put_tbl_h i j b h) F.
Proof. intros [B1 B2 B3 B4]. by split. Qed.

Section head.
Context (m : mem) (pl : list Z) (h : k_mm_head) (F : lists) (i j : Z).
Context (Hc : class_ok (i, j)).

Lemma wp_get_tbl (Q : Z -> hstate -> Prop) : fl_tbl h F -> Q (hd 0 (F i j)) (mkH m pl h) -> wp (get_tbl i j) Q (mkH m pl h).
Proof using Hc. intros Ht HQ. unfold get_tbl. apply wp_bind, wp_gets. eapply wp_lift; [by apply Ht|done]. Qed.

Lemma wp_put_tbl b (Q : unit -> hstate -> Prop) :
  fl_tbl h F -> Q tt (mkH m pl (put_tbl_h i j b h)) -> wp (put_tbl i j b) Q (mkH m pl h).
Proof using Hc. intros Ht HQ. unfold put_tbl. apply wp_bind, wp_get_tbl; [done|]. by apply wp_modify. Qed.

Lemma wp_set_class L (Q : unit -> hstate -> Prop) :
  fl_bits h F -> L <> [] ->
  (forall h', fl_bits h' (Fset F i j L) -> mm_tbl h' = mm_tbl h -> same_rest h h' -> Q tt (mkH m pl h')) ->
  wp (set_class i j) Q (mkH m pl h).
Proof using Hc.
  intros [B1 B2 B3 B4] HL HQ. destruct Hc as [Hi Hj]. cbn [fst snd] in *. destruct (B1 i Hi) as (w & Hw & Hr & Hb).
  unfold set_class. apply wp_bind. unfold get_sl. apply wp_bind, wp_gets. eapply wp_lift; [exact Hw|].
  change FLT_SIZE with 14 in *. change SLT_SIZE with 32 in *.
  apply wp_bind, wp_word_set; [done|done|]. intros w' Hr' Hb'. apply wp_bind, wp_modify. apply wp_bind, wp_gets.
  apply wp_bind, wp_word_set; [done|lia|]. intros f' Hf' Hbf. apply wp_modify. apply HQ; [|done..]. cbn.
  split; cbn; change FLT_SIZE with 14 in *; change SLT_SIZE with 32 in *; [| done | |].
  - intros i' Hi'. destruct (decide (i' = i)) as [->|Hne].
    + exists w'. split; [apply list_lookup_insert_eq; by eapply lookup_lt_Some|]. split; [done|]. intros j' Hj'.
      rewrite Hb' by done. unfold Fset. destruct (decide (j' = j)) as [->|].
      * rewrite bool_decide_true, decide_True by done. by rewrite bool_decide_true.
      * rewrite bool_decide_false, decide_False by naive_solver. by apply Hb.
    + destruct (B1 i' Hi') as (w2 & Hw2 & Hr2 & Hb2). exists w2. rewrite list_lookup_insert_ne by lia. split; [done|]. split; [done|].
      intros j' Hj'. rewrite Fset_ne by naive_solver. by apply Hb2.
  - intros i' Hi'. rewrite Hbf by lia. destruct (decide (i' = i)) as [->|Hne].
    + rewrite bool_decide_true by done. split; [|done]. intros _. exists j. by rewrite Fset_eq.
    + rewrite bool_decide_false by done. cbn [orb]. rewrite B3 by done.
      split; intros (j' & Hj' & Hn); exists j'; rewrite Fset_ne in *; naive_solver.
  - intros i' Hi'. rewrite Hbf by lia. rewrite bool_decide_false by lia. by apply B4.
Qed.

Lemma wp_clear_class (Q : unit -> hstate -> Prop) :
  fl_bits h F ->
  (forall h', fl_bits h' (Fset F i j []) -> mm_tbl h' = mm_tbl h -> same_rest h h' -> Q tt (mkH m pl h')) ->
  wp (clear_class i j) Q (mkH m pl h).
Proof using Hc.
  intros [B1 B2 B3 B4] HQ. destruct Hc as [Hi Hj]. cbn [fst snd] in *. destruct (B1 i Hi) as (w & Hw & Hr & Hb).
  unfold clear_class. apply wp_bind. unfold get_sl. apply wp_bind, wp_gets. eapply wp_lift; [exact Hw|].
  change FLT_SIZE with 14 in *. change SLT_SIZE with 32 in *.
  apply wp_bind, wp_word_clear; [done|done|]. intros w' Hr' Hb'. apply wp_bind, wp_modify.
  assert (Hsl : forall i', 0 <= i' < 14 -> exists w2, <[Z.to_nat i:=w']> (sl_bitmap h) !! Z.to_nat i' = Some w2 /\ 0 <= w2 < 2 ^ 32 /\
    forall j', 0 <= j' < 32 -> Z.testbit w2 j' = bool_decide (Fset F i j [] i' j' <> [])).
  { intros i' Hi'. destruct (decide (i' = i)) as [->|Hne].
    - exists w'. split; [apply list_lookup_insert_eq; by eapply lookup_lt_Some|]. split; [done|]. intros j' Hj'.
      rewrite Hb' by done. unfold Fset. destruct (decide (j' = j)) as [->|].
      + rewrite bool_decide_true, decide_True by done. rewrite bool_decide_false by naive_solver. done.
      + rewrite bool_decide_false, decide_False by naive_solver. by apply Hb.
    - destruct (B1 i' Hi') as (w2 & Hw2 & Hr2 & Hb2). exists w2. rewrite list_lookup_insert_ne by lia. split; [done|]. split; [done|].
      intros j' Hj'. rewrite Fset_ne by naive_solver. by apply Hb2. }
  assert (Hfl : forall i', 0 <= i' < 14 -> i' <> i ->
    (Z.testbit (fl_bitmap h) i' = true <-> exists j', 0 <= j' < 32 /\ Fset F i j [] i' j' <> [])).
  { intros i' Hi' Hne. rewrite B3 by done. split; intros (j' & Hj' & Hn); exists j'; rewrite Fset_ne in *; naive_solver. }
  assert (Hw' : forall j', 0 <= j' < 32 -> Z.testbit w' j' = bool_decide (Fset F i j [] i j' <> [])).
  { intros j' Hj'. destruct (Hsl i Hi) as (w2 & Hw2 & _ & Hb2).
    rewrite list_lookup_insert_eq in Hw2 by (by eapply lookup_lt_Some). injection Hw2 as <-. by apply Hb2. }
  destruct (Z.eqb_spec w' 0) as [->|Hnz].
  - apply wp_bind, wp_gets, wp_bind, wp_word_clear; [done|lia|]. intros f' Hf' Hbf. apply wp_modify. apply HQ; [|done..].
    split; cbn; change FLT_SIZE with 14 in *; change SLT_SIZE with 32 in *; [done|done| |].
    + intros i' Hi'. rewrite Hbf by lia. destruct (decide (i' = i)) as [->|Hne].
      * rewrite bool_decide_true by done. cbn [negb andb]. split; [done|]. intros (j' & Hj' & Hn). specialize (Hw' j' Hj').
        rewrite Z.bits_0, bool_decide_true in Hw' by done. done.
      * rewrite bool_decide_false by done. by apply Hfl.
    + intros i' Hi'. rewrite Hbf by lia. rewrite B4 by done. apply andb_false_r.
  - apply wp_ret. apply HQ; [|done..]. split; cbn; change FLT_SIZE with 14 in *; change SLT_SIZE with 32 in *; [done|done| |done].
    intros i' Hi'. destruct (decide (i' = i)) as [->|Hne]; [|by apply Hfl].
    assert (Hex : exists j', 0 <= j' < 32 /\ Fset F i j [] i j' <> []).
    { destruct (word_first_set w') as (t & Ht & Htb & _); [lia|]. exists t. split; [done|]. rewrite Hw' in Htb by done.
      by apply bool_decide_eq_true in Htb. }
    split; [done|]. intros _. destruct Hex as (j' & Hj' & Hn). apply B3; [done|]. exists j'. split; [done|].
    revert Hn. unfold Fset. case_decide; [done|]. done.
Qed.
End head.

(** ** Changing one list *)

Section lists.
Context (m : mem) (F : lists) (i j : Z).
Context (Hl : fl_lists m F) (Hc : class_ok (i, j)).

Lemma node_in x : x ∈ F i j -> node F x.
Proof using Hc. intros. by exists i, j. Qed.

Lemma fl_lists_set m' L b :
  dseg m' 0 L 0 -> NoDup L -> (forall x, x ∈ L -> x = b \/ x ∈ F i j) ->
  (b ∈ F i j \/ ~ node F b /\ forall y, node F y -> spaced b y) ->
  (forall x, node F x -> x ∉ F i j -> m' !! mb_fprev x = m !! mb_fprev x /\ m' !! mb_fnext x = m !! mb_fnext x) ->
  fl_lists m' (Fset F i j L).
Proof using Hl Hc.
  intros Hseg Hnd Hin Hb Hf. destruct Hl as [S1 S2 S3 S4].
  assert (Hnode : forall x, node (Fset F i j L) x -> x = b \/ node F x).
  { intros x (i' & j' & Hc' & Hx). unfold Fset in Hx. case_decide; [|right; by exists i', j'].
    destruct (Hin x Hx) as [->|]; [by left|right; by apply node_in]. }
  split.
  - intros i' j' Hc'. destruct (decide (i' = i /\ j' = j)) as [[-> ->]|Hne]; [by rewrite Fset_eq|]. rewrite Fset_ne by done.
    eapply dseg_frame; [|by apply S1]. intros x Hx. apply Hf; [by exists i', j'|]. intros Hx'. apply Hne.
    by apply (S3 i' j' i j x).
  - intros i' j' Hc'. unfold Fset. case_decide; [done|]. by apply S2.
  - assert (Hno : forall i' j' x, class_ok (i', j') -> ~ (i' = i /\ j' = j) -> x ∈ L -> x ∈ F i' j' -> False).
    { intros i' j' x Hc' Hne Hx Hx'. destruct (Hin x Hx) as [->|Hx2]; [|apply (S3 i' j' i j x) in Hx'; naive_solver].
      destruct Hb as [Hb|[Hb _]]; [apply (S3 i' j' i j b) in Hx'; naive_solver|]. apply Hb. by exists i', j'. }
    intros i1 j1 i2 j2 x H1 H2 Hx1 Hx2. unfold Fset in Hx1, Hx2. repeat case_decide; [naive_solver| | |by eapply S3].
    all: exfalso; first [by apply (Hno i2 j2 x)|by apply (Hno i1 j1 x)].
  - intros x y Hx Hy Hne. apply Hnode in Hx, Hy. destruct Hx as [->|Hx], Hy as [->|Hy]; [done| | |by apply S4].
    + destruct Hb as [Hb|[_ Hb]]; [apply S4; [by apply node_in|done|done]|by apply Hb].
    + destruct Hb as [Hb|[_ Hb]]; [apply S4; [done|by apply node_in|done]|]. destruct (Hb x Hx); [by right|by left].
Qed.

(** the blocks of a list are apart *)
Lemma list_spaced x y : x ∈ F i j -> y ∈ F i j -> x <> y -> spaced x y.
Proof using Hl Hc. intros. apply Hl; [by apply node_in..|done]. Qed.

Lemma other_spaced b y : b ∈ F i j -> node F y -> y ∉ F i j -> spaced b y.
Proof using Hl Hc. intros Hb Hy Hny. apply Hl; [by apply node_in|done|]. by intros ->. Qed.
End lists.

Lemma st_other (m : mem) a v x y : (a = mb_fprev x \/ a = mb_fnext x) -> spaced x y ->
  <[a := v]> m !! mb_fprev y = m !! mb_fprev y /\ <[a := v]> m !! mb_fnext y = m !! mb_fnext y.
Proof. intros Ha Hs. destruct (spaced_links x y Hs) as (? & ? & ? & ?). destruct Ha as [-> | ->]; by rewrite !lookup_insert_ne. Qed.

Section insert.
Context (m : mem) (pl : list Z) (h : k_mm_head) (F : lists) (i j b : Z).
Context (Hr : fl_rep m h F) (Hc : class_ok (i, j)).

Lemma wp_insert_block (Q : unit -> hstate -> Prop) :
  b <> 0 -> ~ node F b -> (forall y, node F y -> spaced b y) -> is_Some (m !! mb_fprev b) -> is_Some (m !! mb_fnext b) ->
  (forall m' h', fl_rep m' h' (Fset F i j (b :: F i j)) -> same_rest h h' ->
     mem_frame (links (fun x => x = b \/ node F x)) m m' -> Q tt (mkH m' pl h')) ->
  wp (insert_block b i j) Q (mkH m pl h).
Proof using Hr Hc.
  intros Hb0 Hnb Hsp Hp Hn HQ. destruct Hr as [Rb Rt Rl]. unfold insert_block. apply wp_bind, wp_st; [done|].
  apply wp_bind. eapply wp_get_tbl; [done..|]. apply wp_bind, wp_st; [by apply lookup_insert_is_Some'; right|].
  assert (Hlb : forall a, a = mb_fprev b \/ a = mb_fnext b -> links (fun x => x = b \/ node F x) a) by (intros a Ha; exists b; auto).
  set (m2 := <[mb_fnext b := _]> _).
  assert (F2 : mem_frame (links (fun x => x = b \/ node F x)) m m2).
  { apply mem_frame_st; [apply Hlb; auto|by apply lookup_insert_is_Some'; right|]. apply mem_frame_st; [apply Hlb; auto|done|apply mem_frame_refl]. }
  assert (Hm2 : forall y, spaced b y -> m2 !! mb_fprev y = m !! mb_fprev y /\ m2 !! mb_fnext y = m !! mb_fnext y).
  { intros y Hy. subst m2. destruct (st_other (<[mb_fprev b:=0]> m) (mb_fnext b) (hd 0 (F i j)) b y) as [-> ->]; [auto|done|].
    apply st_other with b; auto. }
  pose proof (fs_seg _ _ Rl i j Hc) as Hseg. pose proof (fs_nodup _ _ Rl i j Hc) as Hnd.
  apply wp_bind. apply (wp_mono _ (fun _ s => exists m3, s = mkH m3 pl h /\ mem_frame (links (fun x => x = b \/ node F x)) m m3 /\
    fl_lists m3 (Fset F i j (b :: F i j)))).
  - intros [] s (m3 & -> & F3 & L3). apply wp_bind. eapply wp_put_tbl; [done..|]. eapply (wp_set_class _ _ _ _ _ _ Hc (b :: F i j)); [|done|].
    + by apply fl_bits_put.
    + intros h' Hbits Htbl Hsame. apply HQ; [|done|done]. split; [done| |done]. intros i' j' Hc'. unfold tbl_at. rewrite Htbl.
      by apply (fl_tbl_put h F i j b (b :: F i j)).
  - assert (Hset : forall m3, dseg m3 b (F i j) 0 -> m3 !! mb_fprev b = Some 0 -> m3 !! mb_fnext b = Some (hd 0 (F i j)) ->
      (forall x, node F x -> x ∉ F i j -> m3 !! mb_fprev x = m2 !! mb_fprev x /\ m3 !! mb_fnext x = m2 !! mb_fnext x) ->
      fl_lists m3 (Fset F i j (b :: F i j))).
    { intros m3 D1 D2 D3 D4. eapply (fl_lists_set m F i j Rl Hc _ _ b).
      - cbn. split_and!; done.
      - apply NoDup_cons. split; [|done]. intros Hbl. apply Hnb. by exists i, j.
      - intros x Hx%elem_of_cons. tauto.
      - right. done.
      - intros x Hx Hnx. destruct (D4 x Hx Hnx) as [-> ->]. apply Hm2. by apply Hsp. }
    assert (H2p : m2 !! mb_fprev b = Some 0) by (subst m2; rewrite lookup_insert_ne, lookup_insert_eq by (intros E; by apply (fprev_fnext b)); done).
    assert (H2n : m2 !! mb_fnext b = Some (hd 0 (F i j))) by (subst m2; by rewrite lookup_insert_eq).
    destruct (F i j) as [|c L] eqn:EL; cbn [hd] in *.
    + apply wp_ret. exists m2. split_and!; [done|done|]. by apply Hset.
    + assert (Hcn : node F c) by (exists i, j; split; [done|rewrite EL; left]).
      destruct Hseg as (Hc0 & Hcp & Hcx & Hrest). rewrite (proj2 (Z.eqb_neq _ _)) by done.
      destruct (Hm2 c) as [E1 E2]; [by apply Hsp|].
      apply wp_st; [rewrite E1; by eexists|]. eexists. split; [done|]. split.
      * apply mem_frame_st; [exists c; auto|rewrite E1; by eexists|done].
      * destruct (spaced_links b c) as (S1 & S2 & S3 & S4); [by apply Hsp|]. apply Hset.
        -- cbn. split_and!; [done|by rewrite lookup_insert_eq|rewrite lookup_insert_ne by apply fprev_fnext; congruence|].
           eapply dseg_st; [by left| |eapply dseg_frame; [|exact Hrest]].
           ++ intros x Hx. eapply (list_spaced m F i j); [done..| | |]; rewrite ?EL; [left|by right|].
              apply NoDup_cons in Hnd as [Hnd _]. by intros ->.
           ++ intros x Hx. apply Hm2, Hsp. exists i, j. split; [done|]. rewrite EL. by right.
        -- by rewrite lookup_insert_ne.
        -- by rewrite lookup_insert_ne.
        -- intros x Hx Hnx. apply st_other with c; [auto|]. eapply (other_spaced m F i j); [done..| |done|by rewrite EL]. rewrite EL. left.
Qed.
End insert.

(** ** Removing a block *)

Lemma next_in (L : list Z) : hd 0 L <> 0 -> hd 0 L ∈ L.
Proof. destruct L; cbn; [done|left]. Qed.

Lemma prev_in (L : list Z) : List.last L 0 <> 0 -> List.last L 0 ∈ L.
Proof. destruct L as [|x L _] using rev_ind; [done|]. rewrite List.last_last. intros _. apply elem_of_app. right. left. Qed.

(** where the links are *)
Ltac links_lia := unfold spaced, mb_fprev, mb_fnext in *; change sizeof_k_mm_list_t with 16 in *; lia.

Section remove.
Context (m : mem) (F : lists) (i j b : Z) (L1 L2 : list Z).
Context (Hl : fl_lists m F) (Hc : class_ok (i, j)) (HF : F i j = L1 ++ b :: L2).

Abbreviation p := (List.last L1 0).
Abbreviation n := (hd 0 L2).

(** the writes of [get_block] *)
Definition unlinked : mem :=
  let m1 := (if n =? 0 then m else <[mb_fprev n := p]> m) in
  let m2 := (if p =? 0 then m1 else <[mb_fnext p := n]> m1) in
  <[mb_fnext b := 0]> (<[mb_fprev b := 0]> m2).

Lemma remove_facts :
  dseg m 0 L1 b /\ b <> 0 /\ m !! mb_fprev b = Some p /\ m !! mb_fnext b = Some n /\ dseg m b L2 0 /\
  ~ (b ∈ L1 ++ L2) /\ NoDup (L1 ++ L2) /\ (forall x y, x ∈ L1 ++ b :: L2 -> y ∈ L1 ++ b :: L2 -> x <> y -> spaced x y).
Proof using Hl Hc HF.
  pose proof (fs_seg _ _ Hl i j Hc) as Hs. pose proof (fs_nodup _ _ Hl i j Hc) as Hnd. rewrite HF in Hs, Hnd.
  apply dseg_app in Hs as [H1 H2]. cbn in H1, H2. destruct H2 as (? & ? & ? & ?).
  rewrite <- Permutation_middle in Hnd. apply NoDup_cons in Hnd as [? ?]. split_and!; try done.
  intros x y Hx Hy. apply (list_spaced m F i j); [done..|by rewrite HF|by rewrite HF].
Qed.

Lemma unlinked_other y : (forall x, x ∈ L1 ++ b :: L2 -> spaced x y) ->
  unlinked !! mb_fprev y = m !! mb_fprev y /\ unlinked !! mb_fnext y = m !! mb_fnext y.
Proof using.
  intros Hs. unfold unlinked. cbv zeta. assert (Hb : spaced b y) by (apply Hs, elem_of_app; right; left).
  assert (Hn : n <> 0 -> spaced n y) by (intros Hn; apply Hs, elem_of_app; right; right; by apply next_in).
  assert (Hp : p <> 0 -> spaced p y) by (intros Hp; apply Hs, elem_of_app; left; by apply prev_in).
  destruct (spaced_links b y Hb) as (? & ? & ? & ?).
  destruct (Z.eqb_spec n 0) as [|Hn0], (Z.eqb_spec p 0) as [|Hp0].
  all: try destruct (spaced_links n y (Hn Hn0)) as (? & ? & ? & ?).
  all: try destruct (spaced_links p y (Hp Hp0)) as (? & ? & ? & ?).
  all: by rewrite !lookup_insert_ne.
Qed.

Lemma unlinked_seg : dseg unlinked 0 (L1 ++ L2) 0.
Proof using Hl Hc HF.
  destruct remove_facts as (S1 & Hb0 & _ & _ & S2 & Hb & Hnd & Hsp).
  assert (HspL : forall x y, x ∈ L1 ++ L2 -> y ∈ L1 ++ L2 -> x <> y -> spaced x y).
  { intros x y Hx Hy. apply Hsp; rewrite elem_of_app, elem_of_cons in *; tauto. }
  assert (Hspb : forall y, y ∈ L1 ++ L2 -> spaced b y).
  { intros y Hy. apply Hsp; rewrite ?elem_of_app, ?elem_of_cons; [tauto|rewrite elem_of_app in Hy; tauto|by intros ->]. }
  assert (Hpn : p <> 0 -> n <> 0 -> p <> n).
  { intros H1 H2 E. apply prev_in in H1. apply next_in in H2. rewrite E in H1. apply NoDup_app in Hnd as (_ & Hd & _).
    by apply (Hd n). }
  assert (Hfr : forall y, y ∈ L1 ++ L2 -> (y <> n -> unlinked !! mb_fprev y = m !! mb_fprev y) /\
    (y <> p -> unlinked !! mb_fnext y = m !! mb_fnext y)).
  { intros y Hy. unfold unlinked. cbv zeta. destruct (spaced_links b y (Hspb y Hy)) as (? & ? & ? & ?).
    assert (Hn : n <> 0 -> y <> n -> spaced n y) by (intros Hn0 ?; apply HspL; [apply elem_of_app; right; by apply next_in|done|done]).
    assert (Hp : p <> 0 -> y <> p -> spaced p y) by (intros Hp0 ?; apply HspL; [apply elem_of_app; left; by apply prev_in|done|done]).
    split; intros Hne; do 2 rewrite lookup_insert_ne by done; destruct (Z.eqb_spec n 0) as [|Hn0], (Z.eqb_spec p 0) as [|Hp0];
      rewrite ?lookup_insert_ne by links_lia; done. }
  assert (Hn : n <> 0 -> unlinked !! mb_fprev n = Some p).
  { intros Hn0. unfold unlinked. cbv zeta. destruct (spaced_links b n) as (? & ? & ? & ?).
    { apply Hspb, elem_of_app. right. by apply next_in. }
    do 2 rewrite lookup_insert_ne by done. rewrite (proj2 (Z.eqb_neq _ _) Hn0).
    destruct (Z.eqb_spec p 0) as [->|Hp0]; [by rewrite lookup_insert_eq|].
    rewrite lookup_insert_ne; [by rewrite lookup_insert_eq|]. destruct (spaced_links p n) as (? & ? & ? & ?); [|done].
    apply HspL; [apply elem_of_app; left; by apply prev_in|apply elem_of_app; right; by apply next_in|by apply Hpn]. }
  assert (Hp : p <> 0 -> unlinked !! mb_fnext p = Some n).
  { intros Hp0. unfold unlinked. cbv zeta. destruct (spaced_links b p) as (? & ? & ? & ?).
    { apply Hspb, elem_of_app. left. by apply prev_in. }
    do 2 rewrite lookup_insert_ne by done. rewrite (proj2 (Z.eqb_neq _ _) Hp0). by rewrite lookup_insert_eq. }
  clear HspL Hspb. revert Hfr Hn Hp S1 S2 Hnd Hpn. generalize unlinked as m'. intros m' Hfr Hn Hp S1 S2 Hnd Hpn.
  apply NoDup_app in Hnd as (N1 & N12 & N2). apply dseg_app. split.
  - destruct L1 as [|x L _] using rev_ind; [done|]. rewrite List.last_last in *. apply dseg_app in S1 as [S1 Sx]. apply dseg_app.
    cbn in *. destruct Sx as (Hx0 & Hxp & _). apply NoDup_app in N1 as (_ & N1 & _). split.
    + eapply dseg_frame; [|exact S1]. intros y Hy. destruct (Hfr y) as [E1 E2]; [rewrite !elem_of_app; tauto|].
      split; [apply E1|apply E2].
      * intros ->. apply (N12 n); [apply elem_of_app; by left|]. apply next_in. intros E.
        destruct (dseg_nonzero _ _ _ _ n S1 Hy) as [? _]. congruence.
      * intros ->. apply (N1 x Hy). left.
    + split_and!; [done| |by apply Hp|done]. destruct (Hfr x) as [E1 _]; [rewrite !elem_of_app, elem_of_cons; tauto|].
      rewrite E1; [done|]. intros E. destruct (decide (n = 0)); [congruence|]. by apply Hpn.
  - destruct L2 as [|y L]; [done|]. cbn in *. destruct S2 as (Hy0 & _ & Hyn & S2). apply NoDup_cons in N2 as [N2 _].
    split_and!; [done|by apply Hn| |].
    + destruct (Hfr y) as [_ E2]; [rewrite elem_of_app, elem_of_cons; tauto|]. rewrite E2; [done|].
      intros E. destruct (decide (p = 0)); [congruence|]. by apply Hpn.
    + eapply dseg_frame; [|exact S2]. intros x Hx. destruct (Hfr x) as [E1 E2]; [rewrite elem_of_app, elem_of_cons; tauto|].
      split; [apply E1; by intros ->|apply E2]. intros E. destruct (dseg_nonzero _ _ _ _ x S2 Hx) as [? _].
      apply (N12 x); [rewrite E; apply prev_in; congruence|by right].
Qed.

Lemma unlinked_lists : fl_lists unlinked (Fset F i j (L1 ++ L2)).
Proof using Hl Hc HF.
  destruct remove_facts as (_ & _ & _ & _ & _ & Hb & Hnd & _). assert (HbF : b ∈ F i j) by (rewrite HF; apply elem_of_app; right; left).
  apply (fl_lists_set m F i j Hl Hc unlinked _ b).
  - apply unlinked_seg.
  - done.
  - intros x Hx. right. rewrite HF. rewrite elem_of_app, elem_of_cons in *. tauto.
  - by left.
  - intros x Hx Hnx. apply unlinked_other. intros y Hy. eapply (other_spaced m F i j); try done. by rewrite HF.
Qed.

Lemma unlinked_frame : mem_frame (links (node F)) m unlinked.
Proof using Hl Hc HF.
  destruct remove_facts as (S1 & _ & Hbp & Hbn & S2 & _ & _ & _).
  assert (Hin : forall x, x ∈ L1 ++ b :: L2 -> node F x) by (intros x Hx; exists i, j; by rewrite HF).
  assert (HnL : n <> 0 -> n ∈ L1 ++ b :: L2) by (intros; apply elem_of_app; right; right; by apply next_in).
  assert (HpL : p <> 0 -> p ∈ L1 ++ b :: L2) by (intros; apply elem_of_app; left; by apply prev_in).
  assert (HbL : b ∈ L1 ++ b :: L2) by (apply elem_of_app; right; left).
  assert (Hst : forall x m0 v, x ∈ L1 ++ b :: L2 -> mem_frame (links (node F)) m m0 ->
    mem_frame (links (node F)) m (<[mb_fprev x := v]> m0) /\ mem_frame (links (node F)) m (<[mb_fnext x := v]> m0)).
  { intros x m0 v Hx Hm0. destruct (node_nonzero m F x Hl (Hin x Hx)) as (_ & H1 & H2).
    split; (apply mem_frame_st; [exists x; auto|by eapply mem_frame_some|done]). }
  assert (H0 := mem_frame_refl (links (node F)) m). unfold unlinked. cbv zeta.
  destruct (Z.eqb_spec n 0) as [|Hn0], (Z.eqb_spec p 0) as [|Hp0]; repeat (apply Hst; [by auto|]); done.
Qed.
End remove.

Section get.
Context (m : mem) (pl : list Z) (h : k_mm_head) (F : lists) (i j b : Z) (L1 L2 : list Z).
Context (Hr : fl_rep m h F) (Hc : class_ok (i, j)) (HF : F i j = L1 ++ b :: L2).

Abbreviation p := (List.last L1 0).
Abbreviation n := (hd 0 L2).
Abbreviation m' := (unlinked m b L1 L2).
Abbreviation F' := (Fset F i j (L1 ++ L2)).

(** the block that was not the first one *)
Lemma inner_removed : L1 <> [] -> fl_bits h F' /\ fl_tbl h F'.
Proof using Hr HF.
  intros HL. destruct Hr as [Rb Rt _]. split.
  - eapply fl_bits_iff; [|exact Rb]. intros i' j' _. unfold Fset. case_decide as E; [|done]. destruct E as [-> ->]. rewrite HF.
    destruct L1; [by destruct HL|done].
  - intros i' j' Hc'. unfold Fset. case_decide as E; [|by apply Rt]. destruct E as [-> ->]. rewrite (Rt _ _ Hc'), HF. destruct L1; [by destruct HL|done].
Qed.

(** the new first block in the table, or the class closed *)
Lemma wp_first_removed m1 (Q : unit -> hstate -> Prop) : L1 = [] ->
  (forall h', fl_bits h' F' -> fl_tbl h' F' -> same_rest h h' -> Q tt (mkH m1 pl h')) ->
  wp (if n =? 0 then clear_class i j else mret tt) Q (mkH m1 pl (put_tbl_h i j n h)).
Proof using Hr Hc HF.
  intros -> HQ. destruct Hr as [Rb Rt Rl]. pose proof (fl_tbl_put h F i j n L2 Rt Hc eq_refl) as Ht.
  destruct (remove_facts m F i j b [] L2 Rl Hc HF) as (_ & _ & _ & _ & S2 & _).
  destruct L2 as [|c L]; cbn in *.
  - eapply wp_clear_class; [done|by apply fl_bits_put|]. intros h' Hb Htb Hs. apply HQ; [done| |done].
    intros i' j' Hc'. unfold tbl_at. rewrite Htb. by apply Ht.
  - destruct S2 as (Hc0 & _). rewrite (proj2 (Z.eqb_neq _ _)) by done. apply wp_ret, HQ; [|done|done].
    eapply fl_bits_iff; [|apply fl_bits_put, Rb]. intros i' j' _. unfold Fset. case_decide as E; [|done]. destruct E as [-> ->]. by rewrite HF.
Qed.

Lemma wp_get_block (Q : unit -> hstate -> Prop) :
  (forall h', fl_rep m' h' F' -> same_rest h h' -> Q tt (mkH m' pl h')) -> wp (get_block b i j) Q (mkH m pl h).
Proof using Hr Hc HF.
  intros HQ. pose proof (fr_lists _ _ _ Hr) as Hl. pose proof (unlinked_lists m F i j b L1 L2 Hl Hc HF) as Hul.
  destruct (remove_facts m F i j b L1 L2 Hl Hc HF) as (S1 & Hb0 & Hbp & Hbn & S2 & Hb & Hnd & Hsp).
  assert (HbL : b ∈ L1 ++ b :: L2) by (apply elem_of_app; right; left).
  assert (Hn : n <> 0 -> spaced b n /\ is_Some (m !! mb_fprev n)).
  { intros Hn. pose proof (next_in L2 Hn) as Hin. split; [apply Hsp; [done|apply elem_of_app; right; by right|]|by eapply dseg_nonzero].
    intros E. apply Hb, elem_of_app. right. by rewrite E at 1. }
  assert (Hp : p <> 0 -> spaced b p /\ is_Some (m !! mb_fnext p)).
  { intros Hp. pose proof (prev_in L1 Hp) as Hin. split; [apply Hsp; [done|apply elem_of_app; by left|]|].
    2: { by destruct (dseg_nonzero _ _ _ _ p S1 Hin) as (_ & _ & ?). }
    intros E. apply Hb, elem_of_app. left. by rewrite E at 1. }
  unfold unlinked in *. set (m1 := if n =? 0 then m else _) in *. cbv zeta in *. set (m2 := if p =? 0 then m1 else _) in *.
  assert (H1 : m1 !! mb_fprev b = Some p /\ m1 !! mb_fnext b = Some n /\ (p <> 0 -> is_Some (m1 !! mb_fnext p))).
  { subst m1. destruct (Z.eqb_spec n 0) as [|Hn0]; [naive_solver|]. destruct (Hn Hn0) as [Hs _].
    rewrite !(lookup_insert_ne (M := gmap Z)) by links_lia. split_and!; [done|done|]. intros Hp0. apply lookup_insert_is_Some'. right. by apply Hp. }
  assert (H2 : m2 !! mb_fprev b = Some p /\ m2 !! mb_fnext b = Some n).
  { subst m2. destruct (Z.eqb_spec p 0) as [|Hp0]; [naive_solver|]. destruct (Hp Hp0) as [Hs _].
    rewrite !(lookup_insert_ne (M := gmap Z)) by links_lia. naive_solver. }
  unfold get_block. apply wp_bind. eapply wp_ld; [exact Hbn|]. apply wp_bind.
  apply (wp_mono _ (fun _ s => s = mkH m1 pl h)).
  2: { subst m1. destruct (Z.eqb_spec n 0) as [|Hn0]; [by apply wp_ret|]. apply wp_bind. eapply wp_ld; [exact Hbp|]. by apply wp_st; [apply Hn|]. }
  intros _ ? ->. destruct H1 as (H1p & H1n & H1s). apply wp_bind. eapply wp_ld; [exact H1p|]. apply wp_bind.
  apply (wp_mono _ (fun _ s => s = mkH m2 pl h)).
  2: { subst m2. destruct (Z.eqb_spec p 0) as [|Hp0]; [by apply wp_ret|]. apply wp_bind. eapply wp_ld; [exact H1n|]. by apply wp_st; [apply H1s|]. }
  intros _ ? ->. destruct H2 as [H2p H2n]. apply wp_bind. eapply wp_get_tbl; [exact Hc|apply Hr|].
  apply wp_bind. apply (wp_mono _ (fun _ s => exists h', s = mkH m2 pl h' /\ fl_bits h' F' /\ fl_tbl h' F' /\ same_rest h h')).
  - intros _ ? (h' & -> & Hb' & Ht' & Hs'). apply wp_bind, wp_st; [by eexists|]. apply wp_st; [apply lookup_insert_is_Some'; right; by eexists|].
    apply HQ; [|done]. by split.
  - rewrite HF. destruct (decide (L1 = [])) as [E|HL].
    + replace (hd 0 (L1 ++ b :: L2)) with b by by rewrite E. rewrite Z.eqb_refl. apply wp_bind. eapply wp_ld; [exact H2n|].
      apply wp_bind. eapply wp_put_tbl; [exact Hc|apply Hr|]. apply wp_first_removed; [done|]. intros h' ? ? ?. by exists h'.
    + destruct (inner_removed HL). rewrite (proj2 (Z.eqb_neq _ _)); [apply wp_ret; by exists h|].
      intros E. apply Hb. apply elem_of_app. left. rewrite <- E. destruct L1; [done|left].
Qed.

Lemma wp_take_first (Q : unit -> hstate -> Prop) : L1 = [] ->
  (forall h', fl_rep m' h' F' -> same_rest h h' -> Q tt (mkH m' pl h')) -> wp (take_first b i j) Q (mkH m pl h).
Proof using Hr Hc HF.
  intros E HQ. pose proof (fr_lists _ _ _ Hr) as Hl. pose proof (unlinked_lists m F i j b L1 L2 Hl Hc HF) as Hul.
  destruct (remove_facts m F i j b L1 L2 Hl Hc HF) as (S1 & Hb0 & Hbp & Hbn & S2 & Hb & Hnd & Hsp).
  assert (Hn : n <> 0 -> is_Some (m !! mb_fprev n)) by (intros Hn; eapply dseg_nonzero; [exact S2|by apply next_in]).
  assert (HB : is_Some (m !! mb_fprev b) /\ is_Some (m !! mb_fnext b)) by (split; by eexists).
  unfold unlinked in *. rewrite E in HQ, Hul. cbn [List.last Z.eqb app] in HQ, Hul. cbv zeta in *. set (m1 := if n =? 0 then m else _) in *.
  unfold take_first. apply wp_bind. eapply wp_ld; [exact Hbn|]. apply wp_bind. eapply wp_put_tbl; [exact Hc|apply Hr|].
  pose proof (wp_first_removed m1) as Hfirst. rewrite E in Hfirst. cbn [app] in Hfirst.
  apply wp_bind. apply (wp_mono _ (fun _ s => exists h', s = mkH m1 pl h' /\ fl_bits h' (Fset F i j L2) /\ fl_tbl h' (Fset F i j L2) /\ same_rest h h')).
  - intros _ ? (h' & -> & Hb' & Ht' & Hs').
    assert (HB1 : is_Some (m1 !! mb_fprev b) /\ is_Some (m1 !! mb_fnext b)).
    { subst m1. destruct (n =? 0); [done|]. split; apply lookup_insert_is_Some'; right; apply HB. }
    apply wp_bind, wp_st; [apply HB1|]. apply wp_st; [apply lookup_insert_is_Some'; right; apply HB1|].
    apply HQ; [|done]. by split.
  - subst m1. destruct (Z.eqb_spec n 0) as [Hn0|Hn0]; cbn [negb].
    + apply Hfirst; [done|]. intros h' ? ? ?. by exists h'.
    + apply wp_st; [by apply Hn|].
      apply (Hfirst (fun _ s => exists h', s = mkH _ pl h' /\ fl_bits h' (Fset F i j L2) /\ fl_tbl h' (Fset F i j L2) /\ same_rest h h') eq_refl).
      intros h' ? ? ?. by exists h'.
Qed.
End get.

(** ** The search: the first class that has a block, from [(i, j)] on *)

Lemma shift_mask_bit k t : 0 <= k -> 0 <= t < 32 -> Z.testbit (u32 (Z.shiftl (-1) k)) t = bool_decide (k <= t).
Proof.
  intros Hk Ht. unfold u32. rewrite Z.mod_pow2_bits_low, Z.shiftl_spec by lia. destruct (Z.lt_ge_cases t k).
  - rewrite Z.testbit_neg_r by lia. by rewrite bool_decide_false by lia.
  - rewrite Z.bits_m1 by lia. by rewrite bool_decide_true by lia.
Qed.

Lemma masked_range w k : 0 <= w < 2 ^ 32 -> 0 <= Z.land w (u32 (Z.shiftl (-1) k)) < 2 ^ 32.
Proof. intros. apply land_width; lia. Qed.

(** [(i', j')] is the first class from [c] on that has a block *)
Definition first_class (F : lists) (c : Z * Z) (i' j' : Z) : Prop :=
  class_ok (i', j') /\ class_le c (i', j') /\ F i' j' <> [] /\
  forall i j, class_ok (i, j) -> class_le c (i, j) -> F i j <> [] -> class_le (i', j') (i, j).

Lemma wp_findblk m pl h F i j (Q : Z * Z * Z -> hstate -> Prop) :
  fl_rep m h F -> class_ok (i, j) ->
  (forall i' j' b L, first_class F (i, j) i' j' -> F i' j' = b :: L -> b <> 0 -> Q (b, i', j') (mkH m pl h)) ->
  ((forall i' j', class_ok (i', j') -> class_le (i, j) (i', j') -> F i' j' = []) -> forall i' j', Q (0, i', j') (mkH m pl h)) ->
  wp (findblk_byidx i j) Q (mkH m pl h).
Proof.
  intros [[B1 B2 B3 B4] Rt Rl] Hc HQ1 HQ2. pose proof Hc as [Hi Hj]. cbn [fst snd] in Hi, Hj. destruct (B1 i Hi) as (w & Hw & Hr & Hb).
  assert (Hend : forall i' j', first_class F (i, j) i' j' -> wp (find ← get_tbl i' j'; mret (find, i', j')) Q (mkH m pl h)).
  { intros i' j' Hf. pose proof Hf as (Hc' & _ & Hn & _). apply wp_bind. eapply wp_get_tbl; [done..|].
    destruct (F i' j') as [|b L] eqn:E; [done|]. cbn [hd]. apply wp_ret. eapply HQ1; [done..|].
    pose proof (fs_seg _ _ Rl i' j' Hc') as Hs. rewrite E in Hs. apply Hs. }
  unfold findblk_byidx. apply wp_bind. unfold get_sl at 1. apply wp_bind, wp_gets. eapply wp_lift; [exact Hw|]. cbv zeta.
  set (tmp := Z.land w _). assert (Ht : 0 <= tmp < 2 ^ 32) by (by apply masked_range).
  change FLT_SIZE with 14 in *. change SLT_SIZE with 32 in *.
  assert (Htb : forall t, 0 <= t < 32 -> Z.testbit tmp t = bool_decide (F i t <> []) && bool_decide (j <= t)).
  { intros t Ht'. subst tmp. by rewrite Z.land_spec, Hb, shift_mask_bit by lia. }
  destruct (Z.eqb_spec tmp 0) as [E0|Hn0]; cbn [negb].
  - assert (Hrow : forall t, 0 <= t < 32 -> j <= t -> F i t = []).
    { intros t Ht' Hjt. destruct (F i t) eqn:EF; [done|]. specialize (Htb t Ht'). rewrite E0, Z.bits_0, EF, !bool_decide_true in Htb by done. done. }
    apply wp_bind, wp_gets. cbv beta. cbn [mmhead]. set (fw := Z.land (fl_bitmap h) (u32 (Z.shiftl (-1) (i + 1)))). assert (Hfr : 0 <= fw < 2 ^ 32) by (by apply masked_range).
    assert (Hfw : forall t, 0 <= t < 32 -> Z.testbit fw t = Z.testbit (fl_bitmap h) t && bool_decide (i + 1 <= t)).
    { intros t Ht'. subst fw. by rewrite Z.land_spec, shift_mask_bit by lia. }
    destruct (decide (fw = 0)) as [Ef|Hnf].
    + rewrite Ef. apply wp_bind. change (find_last_bit 0) with (mret 0 : H Z). apply wp_ret. cbn [Z.ltb Z.compare]. apply wp_ret, HQ2.
      intros i' j' [Hi' Hj'] [Hlt|[Heq Hle]]; cbn [fst snd] in *; change FLT_SIZE with 14 in *; change SLT_SIZE with 32 in *; [|subst i'; by apply Hrow].
      destruct (F i' j') eqn:EF; [done|]. specialize (Hfw i' ltac:(lia)). rewrite Ef, Z.bits_0, (bool_decide_true (i + 1 <= i')) in Hfw by lia.
      assert (Z.testbit (fl_bitmap h) i' = true) as E by (apply B3; [done|]; exists j'; by rewrite EF). by rewrite E in Hfw.
    + apply wp_bind, wp_find_last_bit; [lia|]. intros t Ht' Htt Hlow. rewrite Hfw in Htt by done. apply andb_true_iff in Htt as [Htt Hit].
      apply bool_decide_eq_true in Hit. assert (t < 14) by (destruct (Z.lt_ge_cases t 14); [done|]; rewrite B4 in Htt by lia; done).
      rewrite (proj2 (Z.ltb_lt _ _)) by lia. destruct (B1 t) as (w2 & Hw2 & Hr2 & Hb2); [lia|].
      apply wp_bind. unfold get_sl at 1. apply wp_bind, wp_gets. eapply wp_lift; [exact Hw2|].
      destruct (proj1 (B3 t ltac:(lia)) Htt) as (j0 & Hj0 & Hn).
      assert (w2 <> 0) by (intros ->; specialize (Hb2 j0 Hj0); rewrite Z.bits_0, bool_decide_true in Hb2 by done; done).
      apply wp_bind, wp_find_last_bit; [lia|]. intros s Hs Hss Hlow2. rewrite Hb2 in Hss by done. apply bool_decide_eq_true in Hss.
      apply Hend. split; [split; cbn; change FLT_SIZE with 14; change SLT_SIZE with 32; lia|]. split; [left; cbn; lia|]. split; [done|].
      intros i' j' [Hi' Hj'] Hle Hn'. unfold class_le in *. cbn [fst snd] in *. change FLT_SIZE with 14 in *; change SLT_SIZE with 32 in *.
      destruct Hle as [Hlt|[-> Hle]]; [|by rewrite Hrow in Hn'].
      destruct (Z.lt_trichotomy i' t) as [Hlt'|[->|]]; [|right; split; [done|]|by left].
      * specialize (Hlow i' ltac:(lia)). rewrite Hfw, (bool_decide_true (i + 1 <= i')), andb_true_r in Hlow by lia.
        assert (Z.testbit (fl_bitmap h) i' = true) as E by (apply B3; [done|]; by exists j'). congruence.
      * destruct (Z.lt_ge_cases j' s) as [Hlt2|]; [|done]. specialize (Hlow2 j' ltac:(lia)). rewrite Hb2, bool_decide_true in Hlow2 by done. done.
  - apply wp_bind, wp_find_last_bit; [lia|]. intros t Ht' Htt Hlow. rewrite Htb in Htt by done. apply andb_true_iff in Htt as [Htt Hjt].
    apply bool_decide_eq_true in Htt, Hjt. apply Hend. split; [split; cbn; change FLT_SIZE with 14; change SLT_SIZE with 32; lia|].
    split; [right; cbn; lia|]. split; [done|].
    intros i' j' [Hi' Hj'] Hle Hn'. unfold class_le in *. cbn [fst snd] in *. change FLT_SIZE with 14 in *; change SLT_SIZE with 32 in *.
    destruct Hle as [Hlt|[Heq Hle]]; [by left|right; split; [done|]]. subst i'.
    destruct (Z.lt_ge_cases j' t) as [Hlt2|]; [|done]. specialize (Hlow j' ltac:(lia)).
    rewrite Htb, !bool_decide_true in Hlow by (done || lia). done.
Qed.
