(* ===== verification/MmGeom.v ===== *)
(** * The heap: the blocks and their headers

    The blocks of the heap, by address; the memory holds a header for each.  A
    block of size 0 ends a region, every other one is followed by the block at
    its end; no two neighbours are free. *)

From S2P Require Import Prelude Config Bitmap Mem MmBlk Mm MmClass MmList.
Open Scope Z_scope.

Record blk := mkBlk { ba : Z; bz : Z; bf : bool }.

#[export] Instance blk_eq_dec : EqDecision blk.
Proof. solve_decision. Defined.

Definition bend (b : blk) : Z := ba b + MMLIST_HEAD_SIZE + bz b.

(** where a block may be: at [p_lo] when a region goes on there, behind it
    otherwise; the start of the region; the block before, when it is free *)
Record pos := mkPos { p_lo : Z; p_reg : option Z; p_free : option Z }.

Definition pos0 : pos := mkPos 0 None None.
Definition free_addr (b : blk) : option Z := if bf b then Some (ba b) else None.
Definition pnext (s : pos) (b : blk) : pos :=
  mkPos (bend b) (if bz b =? 0 then None else Some (default (ba b) (p_reg s))) (free_addr b).
Definition pos_end (s : pos) (L : list blk) : pos := fold_left pnext L s.

Record blk_ok (s : pos) (b : blk) : Prop := {
  bo_lo : p_lo s <= ba b;
  bo_next : p_reg s = None \/ ba b = p_lo s;
  bo_pos : 0 < ba b;
  bo_align : ba b mod 4 = 0 /\ bz b mod 4 = 0;
  bo_size : bz b = 0 /\ bf b = false \/ 8 <= bz b;
  bo_reg : bend b <= default (ba b) (p_reg s) + MAX_MM_SIZE;
  bo_end : bend b < 2 ^ 32;
  bo_adj : p_free s = None \/ bf b = false
}.

Fixpoint geom (s : pos) (L : list blk) : Prop :=
  match L with [] => True | b :: L => blk_ok s b /\ geom (pnext s b) L end.

(** the word of [size] *)
Definition word_of (b : blk) (pf : option Z) : Z := bz b + Z.b2z (bf b) + 2 * Z.b2z (bool_decide (is_Some pf)).

Fixpoint headers (m : mem) (pf : option Z) (L : list blk) : Prop :=
  match L with
  | [] => True
  | b :: L => m !! mb_size (ba b) = Some (word_of b pf) /\ (forall p, pf = Some p -> m !! mb_prev (ba b) = Some p) /\
              headers m (free_addr b) L
  end.

(** the memory of the blocks is there *)
Definition cover (m : mem) (L : list blk) : Prop :=
  forall b a, b ∈ L -> ba b <= a < bend b -> a mod 4 = 0 -> is_Some (m !! a).

(** the free blocks are in the lists of their classes *)
Definition classes (F : lists) (L : list blk) : Prop :=
  forall i j y, class_ok (i, j) -> y ∈ F i j <-> exists z, mkBlk y z true ∈ L /\ cls z = (i, j).

Record heap (m : mem) (h : k_mm_head) (L : list blk) (F : lists) : Prop := {
  he_geom : geom pos0 L;
  he_closed : p_reg (pos_end pos0 L) = None;
  he_headers : headers m None L;
  he_cover : cover m L;
  he_lists : fl_rep m h F;
  he_classes : classes F L
}.

(** ** Sequences of blocks *)

Definition pf_end (pf : option Z) (L : list blk) : option Z := fold_left (fun _ b => free_addr b) L pf.

Lemma pos_end_app s L1 L2 : pos_end s (L1 ++ L2) = pos_end (pos_end s L1) L2.
Proof. apply fold_left_app. Qed.

Lemma geom_app s L1 L2 : geom s (L1 ++ L2) <-> geom s L1 /\ geom (pos_end s L1) L2.
Proof. revert s. induction L1 as [|b L1 IH]; intros s; cbn; [naive_solver|]. rewrite IH. naive_solver. Qed.

Lemma pf_end_cons pf b L : pf_end pf (b :: L) = pf_end (free_addr b) L.
Proof. done. Qed.

Lemma pos_end_free s L : p_free (pos_end s L) = pf_end (p_free s) L.
Proof.
  revert s. induction L as [|b L IH]; intros s; [done|]. cbn [pos_end fold_left]. rewrite pf_end_cons.
  change (fold_left pnext L (pnext s b)) with (pos_end (pnext s b) L). by rewrite IH.
Qed.

Lemma pf_end_snoc pf L b : pf_end pf (L ++ [b]) = free_addr b.
Proof. unfold pf_end. by rewrite fold_left_app. Qed.

Lemma headers_app m pf L1 L2 : headers m pf (L1 ++ L2) <-> headers m pf L1 /\ headers m (pf_end pf L1) L2.
Proof. revert pf. induction L1 as [|b L1 IH]; intros pf; [cbn; naive_solver|]. cbn [headers app]. rewrite IH, pf_end_cons. naive_solver. Qed.

Lemma headers_frame m m' pf L :
  (forall b, b ∈ L -> m' !! mb_size (ba b) = m !! mb_size (ba b) /\ m' !! mb_prev (ba b) = m !! mb_prev (ba b)) ->
  headers m pf L -> headers m' pf L.
Proof.
  revert pf. induction L as [|b L IH]; intros pf Hf; cbn; [done|]. intros (H1 & H2 & H3). destruct (Hf b) as [-> ->]; [left|].
  split_and!; [done|done|]. apply IH; [|done]. intros x Hx. apply Hf. by right.
Qed.

(** the next position depends on the block and on the start of the region *)
Lemma geom_pos s s' L : p_lo s = p_lo s' -> p_reg s = p_reg s' -> (p_free s' = None \/ p_free s' = p_free s) -> geom s L -> geom s' L.
Proof.
  intros E1 E2 E3. destruct L as [|b L]; [done|]. intros [[B1 B2 B3 B4 B5 B6 B7 B8] HL]. split.
  - split; rewrite <- ?E1, <- ?E2; try done. destruct E3 as [->|E3]; [by left|by rewrite E3].
  - unfold pnext in *. by rewrite <- E2.
Qed.

Lemma pos_end_reg s s' L : p_reg s = p_reg s' -> p_reg (pos_end s L) = p_reg (pos_end s' L).
Proof.
  revert s s'. induction L as [|b L IH]; intros s s' E; [done|]. apply (IH (pnext s b) (pnext s' b)). cbn. by rewrite E.
Qed.

(** the start of the region is behind *)
Definition pos_wf (s : pos) : Prop := forall r, p_reg s = Some r -> r <= p_lo s.

Ltac geo := unfold bend, mb_prev, mb_size, mb_fprev, mb_fnext in *; change MMLIST_HEAD_SIZE with 8 in *; cbn [ba bz bf p_lo p_reg p_free] in *; lia.

Lemma bend_ge s b : blk_ok s b -> ba b + 8 <= bend b.
Proof. intros Hb. pose proof (bo_size _ _ Hb). geo. Qed.

Lemma pnext_wf s b : pos_wf s -> blk_ok s b -> pos_wf (pnext s b).
Proof.
  intros Hs Hb r. unfold pnext. cbn. case_match; [done|]. intros [= <-]. pose proof (bend_ge _ _ Hb). pose proof (bo_lo _ _ Hb).
  destruct (p_reg s) as [r|] eqn:E; cbn; [|geo]. specialize (Hs r E). geo.
Qed.

Lemma geom_wf s L : pos_wf s -> geom s L -> pos_wf (pos_end s L).
Proof.
  revert s. induction L as [|b L IH]; intros s Hs; [done|]. intros [Hb HL]. apply (IH (pnext s b)); [by apply pnext_wf|done].
Qed.

Lemma geom_end s L : geom s L -> p_lo s <= p_lo (pos_end s L).
Proof.
  revert s. induction L as [|b L IH]; intros s; cbn; [lia|]. intros [Hb HL]. apply IH in HL. cbn in HL.
  pose proof (bend_ge _ _ Hb). pose proof (bo_lo _ _ Hb). unfold pos_end in *. lia.
Qed.

Lemma blk_ok_max s b : pos_wf s -> blk_ok s b -> bz b < MAX_MM_SIZE.
Proof.
  intros Hs [B1 B2 B3 B4 B5 B6 B7 B8]. destruct (p_reg s) as [r|] eqn:E; cbn in B6; [|geo]. specialize (Hs r E).
  destruct B2 as [|B2]; [done|]. geo.
Qed.

Record in_geom (lo hi : Z) (b : blk) : Prop := {
  ig_lo : lo <= ba b;
  ig_len : ba b + 8 <= bend b <= hi;
  ig_pos : 0 < ba b;
  ig_align : ba b mod 4 = 0 /\ bz b mod 4 = 0;
  ig_size : bz b = 0 /\ bf b = false \/ 8 <= bz b < MAX_MM_SIZE;
  ig_end : bend b < 2 ^ 32
}.

Lemma geom_in s L b : pos_wf s -> geom s L -> b ∈ L -> in_geom (p_lo s) (p_lo (pos_end s L)) b.
Proof.
  revert s. induction L as [|c L IH]; intros s Hs HL Hb; [by apply elem_of_nil in Hb|]. cbn in HL. destruct HL as [Hc HL].
  change (pos_end s (c :: L)) with (pos_end (pnext s c) L). apply elem_of_cons in Hb as [->|Hb].
  - pose proof (geom_end _ _ HL) as He. pose proof (bend_ge _ _ Hc). pose proof (blk_ok_max _ _ Hs Hc). destruct Hc. split; try done; cbn in He; first [lia|naive_solver].
  - destruct (IH _ (pnext_wf _ _ Hs Hc) HL Hb) as [I1 I2 I3 I4 I5 I6]. split; try done. pose proof (bend_ge _ _ Hc). destruct Hc. cbn in I1. lia.
Qed.

Lemma pos0_wf : pos_wf pos0.
Proof. done. Qed.

(** the blocks before and behind one *)
Lemma geom_order L1 b L2 : geom pos0 (L1 ++ b :: L2) ->
  (forall x, x ∈ L1 -> bend x <= ba b) /\ (forall y, y ∈ L2 -> bend b <= ba y) /\ (forall x y, x ∈ L1 -> y ∈ L2 -> bend x <= ba y).
Proof.
  intros [H1 [Hb H2]]%geom_app. pose proof (geom_wf _ _ pos0_wf H1) as W1. pose proof (pnext_wf _ _ W1 Hb) as W2.
  assert (A : forall x, x ∈ L1 -> bend x <= ba b).
  { intros x Hx. pose proof (geom_in _ _ _ pos0_wf H1 Hx) as [_ I _ _ _ _]. pose proof (bo_lo _ _ Hb). lia. }
  assert (B : forall y, y ∈ L2 -> bend b <= ba y).
  { intros y Hy. pose proof (geom_in _ _ _ W2 H2 Hy) as [I _ _ _ _ _]. done. }
  split_and!; [done|done|]. intros x y Hx Hy. specialize (A x Hx). specialize (B y Hy). pose proof (bend_ge _ _ Hb). lia.
Qed.

Lemma geom_at L b : geom pos0 L -> b ∈ L -> in_geom 0 (p_lo (pos_end pos0 L)) b.
Proof. intros. by apply (geom_in pos0). Qed.

(** different blocks are apart *)
Lemma geom_apart L x y : geom pos0 L -> x ∈ L -> y ∈ L -> x = y \/ bend x <= ba y \/ bend y <= ba x.
Proof.
  intros HL Hx Hy. apply list_elem_of_split in Hx as (L1 & L2 & ->). destruct (geom_order _ _ _ HL) as (O1 & O2 & _).
  apply elem_of_app in Hy as [Hy|[->|Hy]%elem_of_cons]; [right; right; by apply O1|by left|right; left; by apply O2].
Qed.

(** a block is known by its address *)
Lemma geom_addr L x y : geom pos0 L -> x ∈ L -> y ∈ L -> ba x = ba y -> x = y.
Proof.
  intros HL Hx Hy E. destruct (geom_apart L x y HL Hx Hy) as [ | [?|?] ]; [done|..];
    destruct (geom_at L x HL Hx), (geom_at L y HL Hy); lia.
Qed.

(** a block with room is followed by one, at its end *)
Lemma geom_next L1 b L2 : geom pos0 (L1 ++ b :: L2) -> p_reg (pos_end pos0 (L1 ++ b :: L2)) = None -> bz b <> 0 ->
  exists n L3, L2 = n :: L3 /\ ba n = bend b /\ (bf b = true -> bf n = false).
Proof.
  intros [H1 [Hb H2]]%geom_app. rewrite pos_end_app. intros Hc Hz.
  assert (Hr : p_reg (pnext (pos_end pos0 L1) b) <> None) by (unfold pnext; cbn; by rewrite (proj2 (Z.eqb_neq _ _))).
  destruct L2 as [|n L3]; [done|]. exists n, L3. split; [done|]. destruct H2 as [Hn _]. split.
  - by destruct (bo_next _ _ Hn).
  - intros Ef. destruct (bo_adj _ _ Hn) as [Ha|]; [|done]. unfold pnext, free_addr in Ha. cbn in Ha. by rewrite Ef in Ha.
Qed.

(** ** A block out of the lists

    Between its steps an operation works on a block [b] of [z] bytes that is in
    no list, with the blocks [L1] before it and [n :: L3] behind. *)

Record gap (L1 : list blk) (b z : Z) (n : blk) (L3 : list blk) : Prop := {
  ga_geom : geom pos0 (L1 ++ mkBlk b z false :: n :: L3);
  ga_closed : p_reg (pos_end pos0 (L1 ++ mkBlk b z false :: n :: L3)) = None;
  ga_room : z <> 0
}.

#[local] Ltac id_Z := repeat match goal with H : context [@id Z ?x] |- _ => change (@id Z x) with x in H end.

Lemma blk_ok_of s b z f : blk_ok s (mkBlk b z f) -> z <> 0 ->
  p_lo s <= b /\ (p_reg s = None \/ b = p_lo s) /\ 0 < b /\ b mod 4 = 0 /\ z mod 4 = 0 /\ 8 <= z /\
  b + 8 + z <= default b (p_reg s) + MAX_MM_SIZE /\ b + 8 + z < 2 ^ 32 /\ (p_free s = None \/ f = false).
Proof. intros [B1 B2 B3 [B4 B4'] B5 B6 B7 B8] Hz. cbn in *. split_and!; try done; geo. Qed.

Section gap.
Context (L1 : list blk) (b z : Z) (n : blk) (L3 : list blk).
Context (Hg : gap L1 b z n L3).

Lemma gap_parts : let s := pos_end pos0 L1 in
  geom pos0 L1 /\ blk_ok s (mkBlk b z false) /\ blk_ok (mkPos (b + 8 + z) (Some (default b (p_reg s))) None) n /\
  geom (pnext (mkPos (b + 8 + z) (Some (default b (p_reg s))) None) n) L3 /\ ba n = b + 8 + z /\
  p_reg (pos_end (pnext (mkPos (b + 8 + z) (Some (default b (p_reg s))) None) n) L3) = None /\ pos_wf s.
Proof using Hg.
  destruct Hg as [[H1 [Hb [Hn H3]]]%geom_app Hc Hz]. cbn zeta. rewrite pos_end_app in Hc.
  assert (E : pnext (pos_end pos0 L1) (mkBlk b z false) = mkPos (b + 8 + z) (Some (default b (p_reg (pos_end pos0 L1)))) None).
  { unfold pnext, bend. cbn. by rewrite (proj2 (Z.eqb_neq _ _)). }
  cbn [pos_end fold_left] in Hc. fold (pos_end (pnext (pnext (pos_end pos0 L1) (mkBlk b z false)) n) L3) in Hc.
  rewrite E in *. split_and!; try done; [|by apply geom_wf]. by destruct (bo_next _ _ Hn).
Qed.

Lemma gap_len : 8 <= z < MAX_MM_SIZE /\ 0 < b /\ b mod 4 = 0 /\ z mod 4 = 0 /\ ba n + 8 < 2 ^ 32.
Proof using Hg.
  destruct gap_parts as (H1 & Hb & Hn & _ & E & _ & Hw). pose proof (blk_ok_max _ _ Hw Hb). pose proof (ga_room _ _ _ _ _ Hg) as Hz.
  destruct (blk_ok_of _ _ _ _ Hb Hz) as (? & ? & ? & ? & ? & ? & ? & ? & ?). pose proof (bo_end _ _ Hn).
  pose proof (bend_ge _ _ Hn). cbn in *. lia.
Qed.

(** other blocks in the place of [b] *)
Lemma geom_free : pf_end None L1 = None -> bf n = false ->
  geom pos0 (L1 ++ mkBlk b z true :: n :: L3) /\ p_reg (pos_end pos0 (L1 ++ mkBlk b z true :: n :: L3)) = None.
Proof using Hg.
  intros Hp Hf. destruct gap_parts as (H1 & Hb & Hn & H3 & E & Hc & Hw). pose proof (ga_room _ _ _ _ _ Hg) as Hz.
  assert (E2 : pnext (pos_end pos0 L1) (mkBlk b z true) = mkPos (b + 8 + z) (Some (default b (p_reg (pos_end pos0 L1)))) (Some b)).
  { unfold pnext, bend, free_addr. cbn. by rewrite (proj2 (Z.eqb_neq _ _)). }
  rewrite geom_app, pos_end_app. cbn [geom pos_end fold_left]. rewrite E2.
  split; [split_and!|done].
  - done.
  - destruct Hb. split; try done; [geo|left; by rewrite pos_end_free].
  - destruct Hn. split; try done. by right.
  - done.
Qed.

Lemma geom_split s z2 : z = s + 8 + z2 -> 8 <= s -> 8 <= z2 -> s mod 4 = 0 -> bf n = false ->
  geom pos0 (L1 ++ mkBlk b s false :: mkBlk (b + 8 + s) z2 true :: n :: L3) /\
  p_reg (pos_end pos0 (L1 ++ mkBlk b s false :: mkBlk (b + 8 + s) z2 true :: n :: L3)) = None.
Proof using Hg.
  pose proof gap_parts as Hparts. intros -> Hs Hz2 Hs4 Hf. destruct Hparts as (H1 & Hb & Hn & H3 & E & Hc & Hw).
  destruct (blk_ok_of _ _ _ _ Hb) as (B1 & B2 & B3 & B4 & B5 & B6 & B7 & B8 & B9); [lia|].
  assert (Hz24 : z2 mod 4 = 0) by zlia. assert (Hb24 : (b + 8 + s) mod 4 = 0) by zlia.
  rewrite geom_app, pos_end_app. cbn [geom]. cbn [pos_end fold_left].
  assert (E2 : pnext (pnext (pos_end pos0 L1) (mkBlk b s false)) (mkBlk (b + 8 + s) z2 true) =
    mkPos (b + 8 + (s + 8 + z2)) (Some (default b (p_reg (pos_end pos0 L1)))) (Some (b + 8 + s))).
  { unfold pnext, bend, free_addr. cbn. rewrite !(proj2 (Z.eqb_neq _ _)) by lia. cbn. f_equal. change MMLIST_HEAD_SIZE with 8. lia. }
  rewrite E2. split; [split_and!|done].
  - done.
  - split; cbn; try done; geo.
  - assert (E3 : pnext (pos_end pos0 L1) (mkBlk b s false) = mkPos (b + 8 + s) (Some (default b (p_reg (pos_end pos0 L1)))) None).
    { unfold pnext, bend, free_addr. cbn. by rewrite (proj2 (Z.eqb_neq _ _)) by lia. }
    rewrite E3. split; cbn; try done; try geo; by left.
  - destruct Hn. split; try done. by right.
  - done.
Qed.
End gap.

(** the block takes in the free one behind it *)
Lemma gap_absorb_next L1 b z n n2 L4 : gap L1 b z n (n2 :: L4) -> bf n = true -> gap L1 b (z + 8 + bz n) n2 L4 /\ bf n2 = false.
Proof.
  intros Hg Hf. destruct (gap_parts _ _ _ _ _ Hg) as (H1 & Hb & Hn & [Hn2 H4] & E & Hc & Hw). pose proof (ga_room _ _ _ _ _ Hg) as Hz.
  destruct (blk_ok_of _ _ _ _ Hb Hz) as (B1 & B2 & B3 & B4 & B5 & B6 & B7 & B8 & B9).
  assert (Hnz : bz n <> 0) by (destruct (bo_size _ _ Hn) as [[_ ?]|]; [congruence|lia]).
  destruct n as [na nz nf]. cbn [ba bz bf] in *. subst nf na.
  destruct (blk_ok_of _ _ _ _ Hn Hnz) as (N1 & N2 & N3 & N4 & N5 & N6 & N7 & N8 & N9). cbn [p_lo p_reg p_free from_option] in *; id_Z.
  assert (Hff : bf n2 = false).
  { destruct (bo_adj _ _ Hn2) as [Ha|]; [done|done]. }
  split; [|done].
  assert (E2 : pnext (pos_end pos0 L1) (mkBlk b (z + 8 + nz) false) = mkPos (b + 8 + (z + 8 + nz)) (Some (default b (p_reg (pos_end pos0 L1)))) None).
  { unfold pnext, bend, free_addr. cbn. by rewrite (proj2 (Z.eqb_neq _ _)) by lia. }
  assert (E3 : pnext (mkPos (b + 8 + z) (Some (default b (p_reg (pos_end pos0 L1)))) None) (mkBlk (b + 8 + z) nz true) =
    mkPos (b + 8 + (z + 8 + nz)) (Some (default b (p_reg (pos_end pos0 L1)))) (Some (b + 8 + z))).
  { unfold pnext, bend, free_addr. cbn. rewrite (proj2 (Z.eqb_neq _ _)) by lia. cbn. f_equal. change MMLIST_HEAD_SIZE with 8. lia. }
  rewrite E3 in *. cbn [pos_end fold_left] in Hc. split; [| |lia].
  - apply geom_app. split; [done|]. cbn [geom]. split_and!.
    + assert ((z + 8 + nz) mod 4 = 0) by zlia. split; cbn; try done; geo.
    + rewrite E2. destruct Hn2. split; try done. by left.
    + rewrite E2. eapply geom_pos; [..|exact H4]; [done|done|by right].
  - rewrite pos_end_app. cbn [pos_end fold_left]. rewrite E2. etrans; [|exact Hc].
    by apply (pos_end_reg (pnext (mkPos _ _ _) n2) (pnext (mkPos _ _ _) n2) L4).
Qed.

(** the free block before it takes it in *)
Lemma gap_absorb_prev L1 p b z n L3 : gap (L1 ++ [p]) b z n L3 -> bf p = true ->
  gap L1 (ba p) (bz p + 8 + z) n L3 /\ pf_end None L1 = None /\ b = ba p + 8 + bz p.
Proof.
  intros Hg Hf. destruct (gap_parts _ _ _ _ _ Hg) as (H1 & Hb & Hn & H3 & E & Hc & Hw). pose proof (ga_room _ _ _ _ _ Hg) as Hz.
  apply geom_app in H1 as [H1 [Hp _]]. rewrite pos_end_app in *. cbn [pos_end fold_left] in *.
  fold (pos_end pos0 L1) in *. set (s := pos_end pos0 L1) in *.
  assert (Hpz : bz p <> 0) by (destruct (bo_size _ _ Hp) as [[_ ?]|]; [congruence|lia]).
  destruct p as [pa pz pff]. cbn [ba bz bf] in *. subst pff.
  destruct (blk_ok_of _ _ _ _ Hp Hpz) as (P1 & P2 & P3 & P4 & P5 & P6 & P7 & P8 & P9).
  assert (E1 : pnext s (mkBlk pa pz true) = mkPos (pa + 8 + pz) (Some (default pa (p_reg s))) (Some pa)).
  { unfold pnext, bend, free_addr. cbn. by rewrite (proj2 (Z.eqb_neq _ _)) by lia. }
  rewrite E1 in *. cbn [p_lo p_reg p_free from_option] in *; id_Z.
  destruct (blk_ok_of _ _ _ _ Hb Hz) as (B1 & B2 & B3 & B4 & B5 & B6 & B7 & B8 & B9). cbn [p_lo p_reg p_free from_option] in *; id_Z.
  assert (Eb : b = pa + 8 + pz) by naive_solver. subst b.
  assert (Hpf : pf_end None L1 = None) by (subst s; rewrite pos_end_free in P9; naive_solver).
  split_and!; [|done|done].
  assert (E2 : pnext s (mkBlk pa (pz + 8 + z) false) = mkPos (pa + 8 + pz + 8 + z) (Some (default pa (p_reg s))) None).
  { unfold pnext, bend, free_addr. cbn. rewrite (proj2 (Z.eqb_neq _ _)) by lia. f_equal. change MMLIST_HEAD_SIZE with 8. lia. }
  split; [| |lia].
  - apply geom_app. split; [done|]. cbn [geom]. fold s. rewrite E2. split_and!; [|done|done].
    assert ((pz + 8 + z) mod 4 = 0) by zlia. split; cbn; try done; geo.
  - rewrite pos_end_app. cbn [pos_end fold_left]. fold s. rewrite E2. done.
Qed.
