(* ===== verification/MmHole.v ===== *)
(** * The heap: between the steps of an operation

    [hole] is the heap while an operation holds a block out of the lists; the
    lemmas here close it again into a heap, whichever way the operation ends. *)

From S2P Require Import Prelude Config Bitmap Mem MmBlk Mm MmClass MmList MmGeom.
Open Scope Z_scope.

Record hole (m : mem) (h : k_mm_head) (L1 : list blk) (b z w : Z) (n : blk) (wn : Z) (L3 : list blk) (F : lists) : Prop := {
  ho_gap : gap L1 b z n L3;
  ho_before : headers m None L1;
  ho_prev : forall p, pf_end None L1 = Some p -> m !! mb_prev b = Some p;
  ho_w : m !! mb_size b = Some w;
  ho_wn : m !! mb_size (ba n) = Some wn;
  ho_after : headers m (free_addr n) L3;
  ho_cover : cover m (L1 ++ mkBlk b z false :: n :: L3);
  ho_lists : fl_rep m h F;
  ho_classes : classes F (L1 ++ mkBlk b z false :: n :: L3)
}.

(** ** The words an operation may write *)

Definition hdr (x : blk) (a : Z) : Prop := a = mb_size (ba x) \/ a = mb_prev (ba x).
Definition pay (x : blk) (a : Z) : Prop := bf x = false /\ ba x + 8 <= a < bend x.

(** between two blocks of [L] *)
Definition span (L : list blk) (a : Z) : Prop := exists x y, x ∈ L /\ y ∈ L /\ ba x <= a < bend y.

Lemma span_incl (L L' : list blk) a : (forall x, x ∈ L' -> (exists y, y ∈ L /\ ba y <= ba x) /\ (exists y, y ∈ L /\ bend x <= bend y)) ->
  span L' a -> span L a.
Proof.
  intros HL (x & y & Hx & Hy & Ha). destruct (HL x Hx) as [(x' & Hx' & ?) _]. destruct (HL y Hy) as [_ (y' & Hy' & ?)].
  exists x', y'. split_and!; [done|done|lia|lia].
Qed.

(** a block counts for its bounds *)
Lemma span_same (L : list blk) x : x ∈ L -> (exists y, y ∈ L /\ ba y <= ba x) /\ (exists y, y ∈ L /\ bend x <= bend y).
Proof. intros Hx. split; exists x; (split; [done|lia]). Qed.

(** the headers and the contents of the other blocks, [k] bytes of [b], and
    what is not in the heap *)
Definition kept (L1 : list blk) (b k : Z) (n : blk) (L3 : list blk) (a : Z) : Prop :=
  (exists x, x ∈ L1 ++ L3 /\ (hdr x a \/ pay x a)) \/ pay n a \/ a = mb_prev b \/ b + 8 <= a < b + 8 + k \/
  ~ span (L1 ++ mkBlk b 0 false :: n :: L3) a.

Abbreviation touch L1 b k n L3 := (fun a => ~ kept L1 b k n L3 a).

Lemma classes_node F L y : classes F L -> node F y <-> exists z, mkBlk y z true ∈ L /\ class_ok (cls z).
Proof.
  intros HF. split.
  - intros (i & j & Hc & Hy). apply HF in Hy as (z & Hz & E); [|done]. exists z. by rewrite E.
  - intros (z & Hz & Hc). destruct (cls z) as [i j] eqn:E. exists i, j. split; [done|]. apply HF; [done|]. by exists z.
Qed.

(** the free blocks are the nodes of the lists *)
Lemma heap_node F L y : geom pos0 L -> classes F L -> node F y <-> exists z, mkBlk y z true ∈ L.
Proof.
  intros HL HF. rewrite (classes_node F L) by done. split; [naive_solver|]. intros (z & Hz). exists z. split; [done|].
  apply cls_ok. pose proof (ig_size _ _ _ (geom_at _ _ HL Hz)) as [[_ ?]|]; cbn in *; [done|lia].
Qed.

Section touch.
Context (L1 : list blk) (b z : Z) (n : blk) (L3 : list blk).
Context (Hg : gap L1 b z n L3).

Lemma gap_order : (forall x, x ∈ L1 -> bend x <= b) /\ (forall y, y ∈ L3 -> bend n <= ba y) /\ ba n = b + 8 + z /\ 8 <= z.
Proof using Hg.
  pose proof (ga_geom _ _ _ _ _ Hg) as HG. destruct (geom_order _ _ _ HG) as (O1 & _ & _). split; [exact O1|].
  destruct (gap_parts _ _ _ _ _ Hg) as (_ & _ & _ & _ & E & _). destruct (gap_len _ _ _ _ _ Hg) as (? & _).
  replace (L1 ++ mkBlk b z false :: n :: L3) with ((L1 ++ [mkBlk b z false]) ++ n :: L3) in HG by by rewrite <- app_assoc.
  destruct (geom_order _ _ _ HG) as (_ & O2 & _). split; [done|]. lia.
Qed.

Lemma gap_in x : x ∈ L1 ++ L3 -> x ∈ L1 ++ mkBlk b z false :: n :: L3.
Proof using. rewrite !elem_of_app, !elem_of_cons. tauto. Qed.

(** a word of [b], of what is cut from it, or of the header behind it *)
Lemma touch_mid k a : b < a < ba n + 8 -> (k <= 0 \/ a < b + 8 \/ b + 8 + k <= a) -> touch L1 b k n L3 a.
Proof using Hg.
  intros Ha Hk. destruct gap_order as (O1 & O2 & E & Hz). pose proof (ga_geom _ _ _ _ _ Hg) as HG.
  assert (Hn : ba n + 8 <= bend n).
  { apply (geom_at _ n HG). apply elem_of_app. right. right. left. }
  intros [(x & Hx & Hxa)|[[_ Hn2]|[Hp|[Hb|Hsp]]]]; [|lia|unfold mb_prev in Hp; lia|lia|].
  2: { apply Hsp. exists (mkBlk b 0 false), n. rewrite !elem_of_app, !elem_of_cons. split_and!; [auto|auto|cbn; lia..]. }
  pose proof (geom_at _ _ HG (gap_in x Hx)) as [_ I _ _ _ _].
  assert (Hr : ba x <= a < bend x).
  { unfold hdr, pay, mb_size, mb_prev in Hxa. lia. }
  apply elem_of_app in Hx as [Hx|Hx]; [specialize (O1 x Hx)|specialize (O2 x Hx)]; lia.
Qed.

(** a link of a free block *)
Lemma touch_node F k a : classes F (L1 ++ mkBlk b z false :: n :: L3) -> 0 <= k <= z -> links (node F) a -> touch L1 b k n L3 a.
Proof using Hg.
  intros HF Hk (y & Hy & Ha). pose proof (ga_geom _ _ _ _ _ Hg) as HG. destruct gap_order as (O1 & O2 & E & Hz).
  apply (heap_node _ _ _ HG HF) in Hy as (s & Hs). pose proof (geom_at _ _ HG Hs) as [_ I _ _ Is _]. cbn in I, Is.
  assert (Hs8 : 8 <= s) by (destruct Is as [[_ ?]|]; [done|lia]).
  assert (Hr : y + 8 <= a < bend (mkBlk y s true)).
  { unfold mb_fprev, mb_fnext in Ha. geo. }
  assert (Hdis : forall x, x ∈ L1 ++ mkBlk b z false :: n :: L3 -> ba x <= a < bend x -> x = mkBlk y s true).
  { intros x Hx Hxa. destruct (geom_apart _ x _ HG Hx Hs) as [|[?|?]]; [done|cbn in *; lia..]. }
  intros [(x & Hx & Hxa)|[[Hf Hn]|[Hp|[Hb|Hsp]]]].
  - pose proof (geom_at _ _ HG (gap_in x Hx)) as [_ Ix _ _ _ _].
    assert (x = mkBlk y s true) as -> by (apply Hdis; [by apply gap_in|unfold hdr, pay, mb_size, mb_prev in Hxa; lia]).
    destruct Hxa as [Hh|[Hh _]]; [|done]. unfold hdr, mb_size, mb_prev in Hh. cbn in Hh. lia.
  - assert (n = mkBlk y s true) as -> by (apply Hdis; [apply elem_of_app; right; right; left|lia]). done.
  - assert (mkBlk b z false = mkBlk y s true) by (apply Hdis; [apply elem_of_app; right; left|unfold mb_prev in Hp; geo]). done.
  - assert (mkBlk b z false = mkBlk y s true) by (apply Hdis; [apply elem_of_app; right; left|geo]). done.
  - apply Hsp. exists (mkBlk y s true), (mkBlk y s true). rewrite elem_of_app, elem_of_cons in *.
    assert (mkBlk y s true ∈ L1 \/ mkBlk y s true ∈ n :: L3) by naive_solver. split_and!; [tauto|tauto|cbn; lia..].
Qed.

(** [b] is in no list *)
Lemma hole_node F x : classes F (L1 ++ mkBlk b z false :: n :: L3) -> b <= x < b + 8 + z -> b <= x + 16 <= b + 8 + z ->
  ~ node F x /\ forall y, node F y -> spaced x y.
Proof using Hg.
  intros HF Hx Hx'. pose proof (ga_geom _ _ _ _ _ Hg) as HG.
  assert (Hs : forall y, node F y -> spaced x y).
  { intros y Hy. apply (heap_node _ _ _ HG HF) in Hy as (s & Hs). pose proof (geom_at _ _ HG Hs) as [_ I _ _ Is _]. cbn in I, Is.
    destruct (geom_apart _ (mkBlk b z false) _ HG ltac:(apply elem_of_app; right; left) Hs) as [|[Hlt|Hlt]]; [done|..];
      unfold spaced; change sizeof_k_mm_list_t with 16; (destruct Is as [[_ ?]|]; [done|]); geo. }
  split; [|done]. intros Hn. specialize (Hs x Hn). unfold spaced in Hs. change sizeof_k_mm_list_t with 16 in Hs. lia.
Qed.
End touch.

(** ** Closing *)

Section close.
Context (m : mem) (h : k_mm_head) (L1 : list blk) (b z w : Z) (n : blk) (wn : Z) (L3 : list blk) (F : lists) (k : Z).
Context (Ho : hole m h L1 b z w n wn L3 F).

Lemma hole_sides m' : mem_frame (touch L1 b k n L3) m m' ->
  headers m' None L1 /\ headers m' (free_addr n) L3 /\ (forall p, pf_end None L1 = Some p -> m' !! mb_prev b = Some p).
Proof using Ho.
  intros [_ Hf].
  assert (Hk : forall a, kept L1 b k n L3 a -> m' !! a = m !! a) by (intros a Ha; apply Hf; tauto).
  assert (Hh : forall x, x ∈ L1 ++ L3 -> m' !! mb_size (ba x) = m !! mb_size (ba x) /\ m' !! mb_prev (ba x) = m !! mb_prev (ba x)).
  { intros x Hx. split; apply Hk; left; exists x; (split; [done|left]); unfold hdr; auto. }
  split_and!.
  - eapply headers_frame; [|by apply Ho]. intros x Hx. apply Hh, elem_of_app. by left.
  - eapply headers_frame; [|by apply Ho]. intros x Hx. apply Hh, elem_of_app. by right.
  - intros p Hp. rewrite Hk; [by apply (ho_prev _ _ _ _ _ _ _ _ _ _ Ho)|]. unfold kept. auto.
Qed.

Lemma cover_frame m' L P : mem_frame P m m' -> cover m L -> cover m' L.
Proof using. intros Hf Hc x a Hx Ha H4. eapply mem_frame_some; [exact Hf|]. by apply (Hc x). Qed.

Lemma close_alloc m' h' :
  mem_frame (touch L1 b k n L3) m m' ->
  m' !! mb_size b = Some (word_of (mkBlk b z false) (pf_end None L1)) -> m' !! mb_size (ba n) = Some (word_of n None) ->
  fl_rep m' h' F -> heap m' h' (L1 ++ mkBlk b z false :: n :: L3) F.
Proof using Ho.
  intros Hf Hb Hn Hr. destruct (hole_sides m' Hf) as (S1 & S2 & S3). destruct (ho_gap _ _ _ _ _ _ _ _ _ _ Ho) as [G1 G2 G3].
  split; [done|done| |by eapply cover_frame; [|apply Ho]|done|apply Ho].
  apply headers_app. split; [done|]. cbn. split_and!; done.
Qed.

Lemma classes_insert L' y s : class_ok (cls s) ->
  classes F (L1 ++ mkBlk b z false :: n :: L3) -> ~ node F y ->
  (forall x t, mkBlk x t true ∈ L' <-> mkBlk x t true ∈ L1 ++ mkBlk b z false :: n :: L3 \/ x = y /\ t = s) ->
  classes (Fset F (cls s).1 (cls s).2 (y :: F (cls s).1 (cls s).2)) L'.
Proof using.
  intros Hs HF Hy HL i j x Hc. destruct (cls s) as [i0 j0] eqn:E. cbn [fst snd]. unfold Fset. case_decide as Hd.
  - destruct Hd as [-> ->]. rewrite elem_of_cons, (HF _ _ x Hs). split.
    + intros [->|(t & Ht & Et)]; [exists s|exists t]; (split; [apply HL; naive_solver|done]).
    + intros (t & Ht & Et). apply HL in Ht as [Ht|[-> ->]]; [right; by exists t|by left].
  - rewrite (HF _ _ x Hc). split.
    + intros (t & Ht & Et). exists t. split; [apply HL; by left|done].
    + intros (t & Ht & Et). apply HL in Ht as [Ht|[-> ->]]; [by exists t|]. exfalso. apply Hd. split; congruence.
Qed.

Lemma close_free m' h' i j : cls z = (i, j) ->
  pf_end None L1 = None -> bf n = false -> mem_frame (touch L1 b k n L3) m m' ->
  m' !! mb_size b = Some (z + 1) -> m' !! mb_size (ba n) = Some (bz n + 2) -> m' !! mb_prev (ba n) = Some b ->
  fl_rep m' h' (Fset F i j (b :: F i j)) ->
  heap m' h' (L1 ++ mkBlk b z true :: n :: L3) (Fset F i j (b :: F i j)).
Proof using Ho.
  intros Ec Hpf Hfn Hf Hb Hn Hnp Hr. destruct (hole_sides m' Hf) as (S1 & S2 & S3). pose proof (ho_gap _ _ _ _ _ _ _ _ _ _ Ho) as Hg.
  destruct (geom_free _ _ _ _ _ Hg Hpf Hfn) as [G1 G2]. pose proof (gap_len _ _ _ _ _ Hg) as (Hz & _).
  split; [done|done| | |done|].
  - apply headers_app. split; [done|]. cbn. rewrite Hpf. split_and!; try done.
    + rewrite Hb. unfold word_of. cbn. f_equal. lia.
    + rewrite Hn. unfold word_of. cbn. rewrite Hfn. cbn. f_equal. lia.
    + by intros p [= <-].
  - pose proof (cover_frame m' _ _ Hf (ho_cover _ _ _ _ _ _ _ _ _ _ Ho)) as Hcv. intros x a Hx Ha H4.
    apply elem_of_app in Hx as [Hx|[->|Hx]%elem_of_cons]; [apply (Hcv x); [apply elem_of_app; by left|done..]| |apply (Hcv x); [apply elem_of_app; by right; right|done..]].
    apply (Hcv (mkBlk b z false)); [apply elem_of_app; right; left|done..].
  - pose proof (classes_insert (L1 ++ mkBlk b z true :: n :: L3) b z) as Hci. rewrite Ec in Hci. cbn [fst snd] in Hci. apply Hci.
    + rewrite <- Ec. by apply cls_ok; lia.
    + apply Ho.
    + destruct (hole_node _ _ _ _ _ Hg F b) as [Hno _]; [apply Ho|lia..|done].
    + intros x t. rewrite !elem_of_app, !elem_of_cons. naive_solver.
Qed.

Lemma close_split m' h' s z2 i j : cls z2 = (i, j) ->
  z = s + 8 + z2 -> 8 <= s -> 8 <= z2 -> s mod 4 = 0 -> bf n = false -> mem_frame (touch L1 b k n L3) m m' ->
  m' !! mb_size b = Some (word_of (mkBlk b s false) (pf_end None L1)) ->
  m' !! mb_size (b + 8 + s) = Some (z2 + 1) -> m' !! mb_size (ba n) = Some (bz n + 2) -> m' !! mb_prev (ba n) = Some (b + 8 + s) ->
  fl_rep m' h' (Fset F i j (b + 8 + s :: F i j)) ->
  heap m' h' (L1 ++ mkBlk b s false :: mkBlk (b + 8 + s) z2 true :: n :: L3) (Fset F i j (b + 8 + s :: F i j)).
Proof using Ho.
  intros Ec Ez Hs Hz2 Hs4 Hfn Hf Hb Hb2 Hn Hnp Hr. destruct (hole_sides m' Hf) as (S1 & S2 & S3). pose proof (ho_gap _ _ _ _ _ _ _ _ _ _ Ho) as Hg.
  destruct (geom_split _ _ _ _ _ Hg s z2 Ez Hs Hz2 Hs4 Hfn) as [G1 G2]. pose proof (gap_len _ _ _ _ _ Hg) as (Hz & _).
  split; [done|done| | |done|].
  - apply headers_app. split; [done|]. cbn. split_and!; try done.
    + rewrite Hb2. unfold word_of. cbn. f_equal. lia.
    + rewrite Hn. unfold word_of. cbn. rewrite Hfn. cbn. f_equal. lia.
    + by intros p [= <-].
  - pose proof (cover_frame m' _ _ Hf (ho_cover _ _ _ _ _ _ _ _ _ _ Ho)) as Hcv. intros x a Hx Ha H4.
    assert (Hbl : b <= a < b + 8 + z -> is_Some (m' !! a)).
    { intros Hab. apply (Hcv (mkBlk b z false)); [apply elem_of_app; right; left|geo|done]. }
    apply elem_of_app in Hx as [Hx|[->|[->|Hx]%elem_of_cons]%elem_of_cons];
      [apply (Hcv x); [apply elem_of_app; by left|done..]|apply Hbl; geo|apply Hbl; geo|apply (Hcv x); [apply elem_of_app; by right; right|done..]].
  - pose proof (classes_insert (L1 ++ mkBlk b s false :: mkBlk (b + 8 + s) z2 true :: n :: L3) (b + 8 + s) z2) as Hci.
    rewrite Ec in Hci. cbn [fst snd] in Hci. apply Hci.
    + rewrite <- Ec. by apply cls_ok; lia.
    + apply Ho.
    + destruct (hole_node _ _ _ _ _ Hg F (b + 8 + s)) as [Hno _]; [apply Ho|lia..|done].
    + intros x t. rewrite !elem_of_app, !elem_of_cons. naive_solver.
Qed.
End close.

(** ** Opening *)

Lemma classes_remove F L L' y s i j M1 M2 :
  geom pos0 L -> classes F L -> mkBlk y s true ∈ L -> cls s = (i, j) -> F i j = M1 ++ y :: M2 -> NoDup (F i j) ->
  (forall x t, mkBlk x t true ∈ L' <-> mkBlk x t true ∈ L /\ x <> y) -> classes (Fset F i j (M1 ++ M2)) L'.
Proof.
  intros HG HF Hy Es EM Hnd HL i' j' x Hc. unfold Fset. case_decide as Hd.
  - destruct Hd as [-> ->]. assert (Hx : x ∈ M1 ++ M2 <-> x ∈ F i j /\ x <> y).
    { rewrite EM, <- Permutation_middle in Hnd. apply NoDup_cons in Hnd as [Hnd _]. rewrite EM, !elem_of_app, elem_of_cons in *.
      split; [|naive_solver]. intros Hx. split; [tauto|]. by intros ->. }
    rewrite Hx, (HF _ _ x Hc). split.
    + intros [(t & Ht & Et) Hne]. exists t. split; [by apply HL|done].
    + intros (t & Ht & Et). apply HL in Ht as [Ht Hne]. split; [by exists t|done].
  - rewrite (HF _ _ x Hc). split.
    + intros (t & Ht & Et). exists t. split; [|done]. apply HL. split; [done|]. intros ->. apply Hd.
      pose proof (geom_addr _ _ _ HG Ht Hy eq_refl) as E. injection E as ->. split; congruence.
    + intros (t & Ht & Et). apply HL in Ht as [Ht _]. by exists t.
Qed.

Lemma link_not_hdr F L x a : geom pos0 L -> classes F L -> x ∈ L -> hdr x a -> ~ links (node F) a.
Proof.
  intros HG HF Hx Ha (y & Hy & Hl). apply (heap_node _ _ _ HG HF) in Hy as (s & Hs).
  pose proof (geom_at _ _ HG Hs) as [_ I _ _ Is _]. pose proof (geom_at _ _ HG Hx) as [_ Ix _ _ _ _]. cbn in I, Is.
  assert (8 <= s) by (destruct Is as [[_ ?]|]; [done|lia]).
  unfold hdr in Ha. destruct (geom_apart _ x _ HG Hx Hs) as [->|[?|?]]; geo.
Qed.

Lemma links_headers F L m m' : geom pos0 L -> classes F L -> mem_frame (links (node F)) m m' ->
  forall x, x ∈ L -> m' !! mb_size (ba x) = m !! mb_size (ba x) /\ m' !! mb_prev (ba x) = m !! mb_prev (ba x).
Proof.
  intros HG HF [_ Hf] x Hx. split; apply Hf; eapply (link_not_hdr F L x); try done; unfold hdr; auto.
Qed.

Lemma heap_hole m h L1 b L2 F : heap m h (L1 ++ b :: L2) F -> bf b = false -> bz b <> 0 ->
  exists n L3, L2 = n :: L3 /\ hole m h L1 (ba b) (bz b) (word_of b (pf_end None L1)) n (word_of n None) L3 F.
Proof.
  intros [G1 G2 Hh Hcv Hr HF] Hf Hz. destruct (geom_next _ _ _ G1 G2 Hz) as (n & L3 & -> & _ & _). exists n, L3. split; [done|].
  destruct b as [a z f]. cbn in Hf, Hz. subst f. apply headers_app in Hh as (H1 & H2 & H3 & H4 & H5 & H6).
  by split; [split|..].
Qed.

(** a free block leaves the lists *)
Lemma heap_detach m h L1 b L2 F i j M1 M2 m' h' :
  heap m h (L1 ++ b :: L2) F -> bf b = true -> cls (bz b) = (i, j) -> F i j = M1 ++ ba b :: M2 ->
  fl_rep m' h' (Fset F i j (M1 ++ M2)) -> mem_frame (links (node F)) m m' ->
  exists n L3, L2 = n :: L3 /\ bf n = false /\ pf_end None L1 = None /\
    hole m' h' L1 (ba b) (bz b) (word_of b None) n (word_of n (Some (ba b))) L3 (Fset F i j (M1 ++ M2)).
Proof.
  intros [G1 G2 Hh Hcv Hr HF] Hf Ec EM Hr' Hm.
  assert (Hb : b ∈ L1 ++ b :: L2) by (apply elem_of_app; right; left).
  assert (Hz : bz b <> 0) by (pose proof (ig_size _ _ _ (geom_at _ _ G1 Hb)) as [[_ ?]|]; [congruence|lia]).
  assert (Hcb : class_ok (i, j)).
  { rewrite <- Ec. apply cls_ok. pose proof (ig_size _ _ _ (geom_at _ _ G1 Hb)) as [[_ ?]|]; [congruence|lia]. }
  destruct (geom_next _ _ _ G1 G2 Hz) as (n & L3 & -> & En & Hfn). specialize (Hfn Hf). exists n, L3.
  assert (Hlh := links_headers _ _ _ _ G1 HF Hm). apply (headers_frame m m') in Hh; [|exact Hlh].
  assert (Hpf : pf_end None L1 = None).
  { apply geom_app in G1 as [_ [Hok _]]. pose proof (bo_adj _ _ Hok) as [Ha|]; [|congruence]. by rewrite pos_end_free in Ha. }
  split_and!; [done..|]. destruct b as [a z f]. cbn [ba bz bf] in *. subst f.
  apply headers_app in Hh as (H1 & H2 & H3 & H4 & H5 & H6). rewrite Hpf in *. cbn [ba free_addr bf] in *.
  assert (Hgap : gap L1 a z n L3).
  { split; [| |done].
    - apply geom_app in G1 as [G1 [[B1 B2 B3 B4 B5 B6 B7 B8] Hn]]. apply geom_app. split; [done|]. split.
      + split; try done; [by right; destruct B5 as [[_ ?]|]|by right].
      + eapply geom_pos; [..|exact Hn]; [done|done|by left].
    - rewrite pos_end_app in *. etrans; [|exact G2]. cbn [pos_end fold_left].
      by apply (pos_end_reg (pnext (pnext _ (mkBlk a z false)) n) (pnext (pnext _ (mkBlk a z true)) n) L3). }
  split; try done.
  - by rewrite Hpf.
  - eapply cover_frame; [exact Hm|]. intros x c Hx. destruct (decide (x = mkBlk a z false)) as [->|Hne].
    + intros Hc. by apply (Hcv (mkBlk a z true)).
    + apply (Hcv x). rewrite elem_of_app, elem_of_cons in *. naive_solver.
  - eapply (classes_remove F _ _ a z i j M1 M2 G1 HF Hb Ec EM); [by apply (fs_nodup _ _ (fr_lists _ _ _ Hr))|].
    intros x t. rewrite !elem_of_app, !elem_of_cons. split.
    + intros Hx. assert (Hx2 : mkBlk x t true ∈ L1 ++ mkBlk a z true :: n :: L3) by (rewrite elem_of_app, !elem_of_cons; naive_solver).
      split; [naive_solver|]. intros ->. pose proof (geom_addr _ _ _ G1 Hx2 Hb eq_refl) as E. injection E as ->.
      pose proof (ga_geom _ _ _ _ _ Hgap) as G3.
      assert (Hx3 : mkBlk a z true ∈ L1 ++ mkBlk a z false :: n :: L3) by (rewrite elem_of_app, !elem_of_cons; naive_solver).
      assert (Hx4 : mkBlk a z false ∈ L1 ++ mkBlk a z false :: n :: L3) by (apply elem_of_app; right; left).
      by pose proof (geom_addr _ _ _ G3 Hx3 Hx4 eq_refl).
    + naive_solver.
Qed.

Section absorb.
Context (m : mem) (h : k_mm_head) (L1 : list blk) (b z w : Z) (n : blk) (wn : Z) (L3 : list blk) (F : lists).
Context (i j : Z) (M1 M2 : list Z) (m' : mem) (h' : k_mm_head).
Context (Hr : fl_rep m' h' (Fset F i j (M1 ++ M2))) (Hm : mem_frame (links (node F)) m m').

(** [b] takes in the free block behind it *)
Lemma hole_absorb_next : hole m h L1 b z w n wn L3 F ->
  bf n = true -> cls (bz n) = (i, j) -> F i j = M1 ++ ba n :: M2 ->
  exists n2 L4, L3 = n2 :: L4 /\ bf n2 = false /\
    hole m' h' L1 b (z + 8 + bz n) w n2 (word_of n2 (Some (ba n))) L4 (Fset F i j (M1 ++ M2)).
Proof using Hr Hm.
  intros [Hg H1 H2 H3 H4 H5 Hcv Hr0 HF] Hfn Ec EM. pose proof (ga_geom _ _ _ _ _ Hg) as HG.
  assert (Hnin : n ∈ L1 ++ mkBlk b z false :: n :: L3) by (apply elem_of_app; right; right; left).
  assert (Hbin : mkBlk b z false ∈ L1 ++ mkBlk b z false :: n :: L3) by (apply elem_of_app; right; left).
  assert (Hnz : 8 <= bz n < MAX_MM_SIZE) by (pose proof (ig_size _ _ _ (geom_at _ _ HG Hnin)) as [[_ ?]|]; [congruence|lia]).
  assert (E3 : exists n2 L4, L3 = n2 :: L4).
  { pose proof (ga_closed _ _ _ _ _ Hg) as Hcl. replace (L1 ++ mkBlk b z false :: n :: L3) with ((L1 ++ [mkBlk b z false]) ++ n :: L3) in HG, Hcl by by rewrite <- app_assoc.
    destruct (geom_next _ _ _ HG Hcl) as (n2 & L4 & -> & _); [lia|]. by exists n2, L4. }
  destruct E3 as (n2 & L4 & ->). exists n2, L4. destruct (gap_absorb_next _ _ _ _ _ _ Hg Hfn) as [Hg2 Hfn2]. split; [done|]. split; [done|].
  assert (Hlh := links_headers _ _ _ _ HG HF Hm). destruct H5 as (N1 & N2 & N3).
  assert (En : ba n = b + 8 + z) by by destruct (gap_parts _ _ _ _ _ Hg) as (_ & _ & _ & _ & E & _).
  split; try done.
  - eapply headers_frame; [|exact H1]. intros x Hx. apply Hlh, elem_of_app. by left.
  - intros p Hp. destruct (Hlh (mkBlk b z false) Hbin) as [_ E]. cbn [ba] in E. rewrite E. by apply H2.
  - destruct (Hlh (mkBlk b z false) Hbin) as [E _]. cbn [ba] in E. by rewrite E.
  - destruct (Hlh n2) as [E _]; [rewrite elem_of_app, !elem_of_cons; auto|]. rewrite E. unfold free_addr in N1. by rewrite Hfn in N1.
  - eapply headers_frame; [|exact N3]. intros x Hx. apply Hlh. rewrite elem_of_app, !elem_of_cons. auto.
  - eapply cover_frame; [exact Hm|]. intros x a Hx Ha H4a. apply elem_of_app in Hx as [Hx|[->|Hx]%elem_of_cons].
    + apply (Hcv x); [apply elem_of_app; by left|done..].
    + destruct (decide (a < b + 8 + z)); [apply (Hcv (mkBlk b z false))|apply (Hcv n)]; first [done|geo].
    + apply (Hcv x); [rewrite elem_of_app, !elem_of_cons in *; tauto|done..].
  - assert (Hcn : class_ok (i, j)) by (rewrite <- Ec; apply cls_ok; lia).
    destruct n as [na nz nf]. cbn [ba bz bf] in *. subst nf.
    eapply (classes_remove F _ _ na nz i j M1 M2 HG HF Hnin Ec EM); [by apply (fs_nodup _ _ (fr_lists _ _ _ Hr0))|].
    intros x t. split.
    + intros Hx. assert (Hx2 : mkBlk x t true ∈ L1 ++ mkBlk b z false :: mkBlk na nz true :: n2 :: L4).
      { rewrite elem_of_app, !elem_of_cons in *. naive_solver. }
      split; [done|]. intros ->. pose proof (ga_geom _ _ _ _ _ Hg2) as G2.
      assert (Hx4 : mkBlk b (z + 8 + nz) false ∈ L1 ++ mkBlk b (z + 8 + nz) false :: n2 :: L4) by (apply elem_of_app; right; left).
      pose proof (geom_at _ _ G2 Hx) as [_ Ix _ _ _ _]. pose proof (gap_len _ _ _ _ _ Hg) as (Hz & _).
      destruct (geom_apart _ _ _ G2 Hx Hx4) as [|[E|E]]; [done|geo..].
    + rewrite !elem_of_app, !elem_of_cons. naive_solver.
Qed.
End absorb.

(** the free block before [b] takes it in *)
Lemma hole_absorb_prev m h L1 p b z w n wn L3 F i j M1 M2 m' h' :
  fl_rep m' h' (Fset F i j (M1 ++ M2)) -> mem_frame (links (node F)) m m' -> hole m h (L1 ++ [p]) b z w n wn L3 F ->
  bf p = true -> cls (bz p) = (i, j) -> F i j = M1 ++ ba p :: M2 ->
  pf_end None L1 = None /\ hole m' h' L1 (ba p) (bz p + 8 + z) (word_of p None) n wn L3 (Fset F i j (M1 ++ M2)).
Proof.
  intros Hr Hm [Hg H1 H2 H3 H4 H5 Hcv Hr0 HF] Hfp Ec EM. destruct (gap_absorb_prev _ _ _ _ _ _ Hg Hfp) as (Hg2 & Hpf & Eb).
  pose proof (ga_geom _ _ _ _ _ Hg) as HG. split; [done|]. assert (Hlh := links_headers _ _ _ _ HG HF Hm).
  assert (Eapp : (L1 ++ [p]) ++ mkBlk b z false :: n :: L3 = L1 ++ p :: mkBlk b z false :: n :: L3) by by rewrite <- app_assoc.
  rewrite Eapp in *. assert (Hpin : p ∈ L1 ++ p :: mkBlk b z false :: n :: L3) by (apply elem_of_app; right; left).
  assert (Hpz : 8 <= bz p < MAX_MM_SIZE) by (pose proof (ig_size _ _ _ (geom_at _ _ HG Hpin)) as [[_ ?]|]; [congruence|lia]).
  apply headers_app in H1 as (H1 & Hp1 & _). rewrite Hpf in Hp1.
  split; try done.
  - eapply headers_frame; [|exact H1]. intros x Hx. apply Hlh, elem_of_app. by left.
  - by rewrite Hpf.
  - by rewrite (proj1 (Hlh p Hpin)).
  - destruct (Hlh n) as [E _]; [rewrite elem_of_app, !elem_of_cons; auto|]. by rewrite E.
  - eapply headers_frame; [|exact H5]. intros x Hx. apply Hlh. rewrite elem_of_app, !elem_of_cons. auto.
  - eapply cover_frame; [exact Hm|]. intros x a Hx Ha H4a. apply elem_of_app in Hx as [Hx|[->|Hx]%elem_of_cons].
    + apply (Hcv x); [apply elem_of_app; by left|done..].
    + destruct (decide (a < b)); [apply (Hcv p)|apply (Hcv (mkBlk b z false))];
        first [done|geo|rewrite elem_of_app, !elem_of_cons; auto].
    + apply (Hcv x); [rewrite elem_of_app, !elem_of_cons in *; tauto|done..].
  - assert (Hcp : class_ok (i, j)) by (rewrite <- Ec; apply cls_ok; lia).
    destruct p as [pa pz pff]. cbn [ba bz bf] in *. subst pff.
    eapply (classes_remove F _ _ pa pz i j M1 M2 HG HF Hpin Ec EM); [by apply (fs_nodup _ _ (fr_lists _ _ _ Hr0))|].
    intros x t. split.
    + intros Hx. assert (Hx2 : mkBlk x t true ∈ L1 ++ mkBlk pa pz true :: mkBlk b z false :: n :: L3).
      { rewrite elem_of_app, !elem_of_cons in *. naive_solver. }
      split; [done|]. intros ->. pose proof (ga_geom _ _ _ _ _ Hg2) as G2.
      assert (Hx4 : mkBlk pa (pz + 8 + z) false ∈ L1 ++ mkBlk pa (pz + 8 + z) false :: n :: L3) by (apply elem_of_app; right; left).
      by pose proof (geom_addr _ _ _ G2 Hx Hx4 eq_refl).
    + rewrite !elem_of_app, !elem_of_cons. naive_solver.
Qed.
