(* ===== verification/MmAlloc.v ===== *)
(** * The heap: allocating and freeing *)

From S2P Require Import Prelude Config Bitmap Mem MmBlk Mm MmClass MmList MmGeom MmHole.
Open Scope Z_scope.

(** ** Flags in the low bits of a size *)

Section flags.
Context (z r : Z).
Context (Hz : z mod 4 = 0) (Hr : 0 <= r < 4).

Lemma flags_lor : z + r = Z.lor r (Z.shiftl (z / 4) 2).
Proof using Hz Hr. rewrite lor_shiftl_add by lia. change (2 ^ 2) with 4. zlia. Qed.

Lemma flags_land c : 0 <= c < 4 -> Z.land (z + r) c = Z.land r c.
Proof using Hz Hr.
  intros Hc. rewrite flags_lor, Z.land_lor_distr_l, (Z.land_comm (Z.shiftl _ _)), land_shiftl_small by lia. apply Z.lor_0_r.
Qed.

Lemma flags_set c : 0 <= c < 4 -> Z.lor (z + r) c = z + Z.lor r c.
Proof using Hz Hr.
  intros Hc. rewrite flags_lor, <- Z.lor_assoc, (Z.lor_comm (Z.shiftl _ _)), Z.lor_assoc.
  rewrite lor_shiftl_add by (try apply lor_width; lia). change (2 ^ 2) with 4. zlia.
Qed.

Lemma flags_clear c : 0 <= c < 4 -> Z.land (z + r) (Z.lnot c) = z + Z.land r (Z.lnot c).
Proof using Hz Hr.
  intros Hc. rewrite flags_lor, Z.land_lor_distr_l.
  assert (E : Z.land (Z.shiftl (z / 4) 2) (Z.lnot c) = Z.shiftl (z / 4) 2).
  { rewrite <- Z.ldiff_land. rewrite Z.ldiff_land. apply Z.bits_inj'. intros i Hi. rewrite Z.land_spec, Z.lnot_spec by done.
    destruct (Z.lt_ge_cases i 2); [by rewrite Z.shiftl_spec_low|].
    replace (Z.testbit c i) with false; [apply andb_true_r|]. symmetry.
    rewrite <- (Z.mod_small c (2 ^ 2)) by done. apply Z.mod_pow2_bits_high. lia. }
  rewrite E. rewrite lor_shiftl_add by (try apply land_width; lia). change (2 ^ 2) with 4. zlia.
Qed.

Lemma flags_size : 0 <= z < 2 ^ 32 -> blksize (z + r) = z.
Proof using Hz Hr.
  intros Hzr. unfold blksize. change RHINO_MM_BLKSIZE_MASK with (Z.shiftl (Z.ones 30) 2). rewrite land_field by lia.
  change (2 ^ 2) with 4. change (2 ^ 30) with 1073741824. zlia.
Qed.
End flags.

Lemma MM_ALIGN_UP_eq a : 0 <= a <= 0xFFFFFFFC -> MM_ALIGN_UP a = (a + 3) / 4 * 4.
Proof.
  intros Ha. unfold MM_ALIGN_UP. change MM_ALIGN_MASK with 3. rewrite u32_small by lia.
  pose proof (Z.div_mod (a + 3) 4 ltac:(lia)) as E. rewrite E at 1. rewrite flags_clear by zlia.
  assert (H : 0 <= (a + 3) mod 4 < 4) by zlia. revert H. generalize ((a + 3) mod 4). intros r Hr.
  replace (Z.land r (Z.lnot 3)) with 0; [lia|].
  assert (Hr4 : r = 0 \/ r = 1 \/ r = 2 \/ r = 3) by lia. by destruct Hr4 as [->|[->|[->|]]]; subst.
Qed.

Definition flag_bits (f pf : bool) : Z := Z.b2z f + 2 * Z.b2z pf.

Lemma word_flags b pf : word_of b pf = bz b + flag_bits (bf b) (bool_decide (is_Some pf)).
Proof. unfold word_of, flag_bits. lia. Qed.

Lemma flag_bits_range f pf : 0 <= flag_bits f pf < 4.
Proof. by destruct f, pf. Qed.

(** ** Statistics *)

(** the tables and the addresses of the head *)
Definition same_tables (h h' : k_mm_head) : Prop :=
  fl_bitmap h' = fl_bitmap h /\ sl_bitmap h' = sl_bitmap h /\ mm_tbl h' = mm_tbl h /\
  regioninfo h' = regioninfo h /\ fixedmblk h' = fixedmblk h.

Definition same_place (h h' : k_mm_head) : Prop := regioninfo h' = regioninfo h /\ fixedmblk h' = fixedmblk h.

Lemma same_place_trans h1 h2 h3 : same_place h1 h2 -> same_place h2 h3 -> same_place h1 h3.
Proof. unfold same_place. intros. destruct_and!. split; congruence. Qed.

Lemma same_place_rest h h' : same_rest h h' -> same_place h h'.
Proof. unfold same_rest. intros. destruct_and!. done. Qed.

Lemma same_place_tables h h' : same_tables h h' -> same_place h h'.
Proof. unfold same_tables. intros. destruct_and!. done. Qed.

Lemma fl_rep_tables m h h' F : same_tables h h' -> fl_rep m h F -> fl_rep m h' F.
Proof.
  intros (E1 & E2 & E3 & _) [[B1 B2 B3 B4] Rt Rl]. split; [|by unfold fl_tbl, tbl_at in *; rewrite E3|done].
  split; rewrite ?E1, ?E2; done.
Qed.

Section stats.
Context (m : mem) (pl : list Z) (h : k_mm_head).

Lemma wp_upd_head f (Q : unit -> hstate -> Prop) : Q tt (mkH m pl (f h)) -> wp (upd_head f) Q (mkH m pl h).
Proof using. done. Qed.

Lemma wp_removesize n (Q : unit -> hstate -> Prop) :
  (forall h', same_tables h h' -> Q tt (mkH m pl h')) -> wp (removesize n) Q (mkH m pl h).
Proof using. intros HQ. unfold removesize. apply wp_bind, wp_gets, wp_modify. by apply HQ. Qed.

Lemma wp_addsize n req (Q : unit -> hstate -> Prop) : 2 <= req < 2 ^ 32 ->
  (forall h', same_tables h h' -> Q tt (mkH m pl h')) -> wp (addsize n req) Q (mkH m pl h).
Proof using.
  intros Hr HQ. unfold addsize. apply wp_bind, wp_gets. cbv zeta. apply wp_bind. unfold sizetoindex.
  rewrite u32_small by lia. cbn [krhino_find_first_bit]. rewrite (proj2 (Z.eqb_neq _ _)) by lia.
  apply wp_bind, wp_ret, wp_ret, wp_modify. by apply HQ.
Qed.
End stats.

(** ** Steps from a hole *)

Section steps.
Context (m : mem) (pl : list Z) (h : k_mm_head) (L1 : list blk) (b z w : Z) (n : blk) (wn : Z) (L3 : list blk) (F : lists) (k : Z).
Context (Ho : hole m h L1 b z w n wn L3 F).

Lemma mid_not_link a : b <= a < ba n + 8 -> ~ links (node F) a.
Proof using Ho.
  intros Ha (y & Hy & Hl). pose proof (ho_gap _ _ _ _ _ _ _ _ _ _ Ho) as Hg. pose proof (ho_classes _ _ _ _ _ _ _ _ _ _ Ho) as HF.
  pose proof (ga_geom _ _ _ _ _ Hg) as HG. apply (heap_node _ _ _ HG HF) in Hy as (s & Hs).
  pose proof (geom_at _ _ HG Hs) as [_ I _ _ Is _]. cbn in I, Is. assert (8 <= s) by (destruct Is as [[_ ?]|]; [done|lia]).
  destruct (gap_order _ _ _ _ _ Hg) as (_ & _ & E & _).
  assert (Hb : mkBlk b z false ∈ L1 ++ mkBlk b z false :: n :: L3) by (apply elem_of_app; right; left).
  assert (Hn : n ∈ L1 ++ mkBlk b z false :: n :: L3) by (apply elem_of_app; right; right; left).
  pose proof (geom_at _ _ HG Hn) as [_ In _ _ _ _].
  destruct (geom_apart _ _ _ HG Hb Hs) as [|Hbs]; [done|]. destruct (geom_apart _ _ _ HG Hn Hs) as [->|Hns]; geo.
Qed.

Lemma some_mid a : b <= a < ba n + 8 -> a mod 4 = 0 -> is_Some (m !! a).
Proof using Ho.
  intros Ha H4. pose proof (ho_cover _ _ _ _ _ _ _ _ _ _ Ho) as Hc. pose proof (ho_gap _ _ _ _ _ _ _ _ _ _ Ho) as Hg.
  destruct (gap_order _ _ _ _ _ Hg) as (_ & _ & E & _). pose proof (ga_geom _ _ _ _ _ Hg) as HG.
  assert (Hn : n ∈ L1 ++ mkBlk b z false :: n :: L3) by (apply elem_of_app; right; right; left).
  pose proof (geom_at _ _ HG Hn) as [_ In _ _ _ _].
  destruct (decide (a < b + 8 + z)); [apply (Hc (mkBlk b z false))|apply (Hc n)]; try done; [apply elem_of_app; right; left|geo|lia].
Qed.

Lemma hole_facts : ba n = b + 8 + z /\ 8 <= z < MAX_MM_SIZE /\ 0 < b /\ b mod 4 = 0 /\ z mod 4 = 0 /\ ba n + 8 < 2 ^ 32 /\
  (bz n = 0 /\ bf n = false \/ 8 <= bz n < MAX_MM_SIZE) /\ bz n mod 4 = 0 /\ ba n mod 4 = 0 /\ ba n + 8 + bz n < 2 ^ 32.
Proof using Ho.
  pose proof (ho_gap _ _ _ _ _ _ _ _ _ _ Ho) as Hg. destruct (gap_order _ _ _ _ _ Hg) as (_ & _ & E & _).
  destruct (gap_len _ _ _ _ _ Hg) as (? & ? & ? & ? & ?). pose proof (ga_geom _ _ _ _ _ Hg) as HG.
  assert (Hn : n ∈ L1 ++ mkBlk b z false :: n :: L3) by (apply elem_of_app; right; right; left).
  pose proof (geom_at _ _ HG Hn) as [_ In _ [? ?] ? Hend]. unfold bend in Hend. change MMLIST_HEAD_SIZE with 8 in Hend. split_and!; done || lia.
Qed.

(** a write to [b] or to the header behind it *)
Lemma mid_st mA a v : mem_frame (touch L1 b k n L3) m mA -> b < a < ba n + 8 -> a mod 4 = 0 -> (k <= 0 \/ a < b + 8 \/ b + 8 + k <= a) ->
  mem_frame (touch L1 b k n L3) m (<[a := v]> mA).
Proof using Ho.
  intros Hf Ha H4 Hk. apply mem_frame_st; [|eapply mem_frame_some; [exact Hf|]; apply some_mid; [lia|done]|done].
  eapply touch_mid; [apply Ho|done|done].
Qed.

Lemma lists_mid mA : (forall a, ~ (b <= a < ba n + 8) -> mA !! a = m !! a) -> fl_rep mA h F.
Proof using Ho.
  intros Hf. eapply fl_rep_frame; [|apply Ho]. intros a Ha. apply Hf. intros Hab. by apply (mid_not_link a).
Qed.

Lemma frame_insert x mA mB : mem_frame (touch L1 b k n L3) m mA -> mem_frame (links (fun y => y = x \/ node F y)) mA mB ->
  0 <= k <= z -> b <= x -> x + 16 <= ba n + 8 -> (k <= 0 \/ b + k <= x) ->
  mem_frame (touch L1 b k n L3) m mB.
Proof using Ho.
  intros HA HB Hk Hx Hx2 Hkx. eapply mem_frame_trans; [exact HA|]. eapply mem_frame_mono; [|exact HB].
  pose proof (ho_gap _ _ _ _ _ _ _ _ _ _ Ho) as Hg.
  intros a (y & [->|Hy] & Ha).
  - eapply touch_mid; [exact Hg|..]; unfold mb_fprev, mb_fnext in Ha; lia.
  - eapply touch_node; [exact Hg|apply Ho|done|]. by exists y.
Qed.

(** what the insertion of [x] leaves *)
Lemma insert_keeps x mA mB a : mem_frame (links (fun y => y = x \/ node F y)) mA mB -> b <= a < ba n + 8 ->
  a <> x + 8 -> a <> x + 12 -> mB !! a = mA !! a.
Proof using Ho.
  intros [_ Hf] Ha H1 H2. apply Hf. intros (y & [->|Hy] & Hl); [unfold mb_fprev, mb_fnext in Hl; lia|].
  apply (mid_not_link a); [done|]. by exists y.
Qed.

Lemma wp_finish_split mA s z2 wA (Q : unit -> hstate -> Prop) :
  z = s + 8 + z2 -> 8 <= s -> 8 <= z2 -> s mod 4 = 0 -> 0 <= k <= s -> bf n = false ->
  mem_frame (touch L1 b k n L3) m mA -> (forall a, ~ (b <= a < ba n + 8) -> mA !! a = m !! a) ->
  mA !! mb_size b = Some wA -> Z.land wA 2 = 2 * Z.b2z (bool_decide (is_Some (pf_end None L1))) ->
  mA !! mb_size (b + 8 + s) = Some (z2 + 1) -> mA !! mb_size (ba n) = Some (bz n + 2) -> mA !! mb_prev (ba n) = Some (b + 8 + s) ->
  (forall m' h' F', heap m' h' (L1 ++ mkBlk b s false :: mkBlk (b + 8 + s) z2 true :: n :: L3) F' ->
     mem_frame (touch L1 b k n L3) m m' -> same_place h h' -> Q tt (mkH m' pl h')) ->
  wp (finish_split b s (b + 8 + s) z2) Q (mkH mA pl h).
Proof using Ho.
  intros Ez Hs Hz2 Hs4 Hk Hfn Hf Hmid HwA HwA2 Hb2 Hn Hnp HQ. destruct hole_facts as (En & Hz & Hb0 & Hb4 & Hz4 & Hnr & _ & _ & Hna4 & _).
  pose proof (ho_gap _ _ _ _ _ _ _ _ _ _ Ho) as Hg. unfold finish_split. apply wp_bind, wp_search_insert; [lia|]. cbv beta iota.
  destruct (cls z2) as [i j] eqn:Ec. cbn [fst snd].
  assert (Hcok : class_ok (i, j)) by (rewrite <- Ec; apply cls_ok; lia).
  destruct (hole_node _ _ _ _ _ Hg F (b + 8 + s)) as [Hno Hsp]; [apply Ho|lia..|].
  assert (Hx4 : (b + 8 + s) mod 4 = 0) by zlia.
  apply wp_bind. apply (wp_insert_block mA pl h F i j); [by apply lists_mid|done|lia|done|done|..].
  1-2: eapply mem_frame_some; [exact Hf|]; apply some_mid; unfold mb_fprev, mb_fnext; [lia|zlia].
  intros m2 h2 Hr2 Hs2 Hf2. assert (HF2 : mem_frame (touch L1 b k n L3) m m2) by (eapply frame_insert; [exact Hf|exact Hf2|lia..]).
  assert (Hkeep : forall a, b <= a < ba n + 8 -> a <> b + 8 + s + 8 -> a <> b + 8 + s + 12 -> m2 !! a = mA !! a) by (intros; by eapply insert_keeps).
  assert (Eb : m2 !! mb_size b = Some wA) by (rewrite Hkeep; [done|unfold mb_size; lia..]).
  apply wp_bind. eapply wp_ld; [exact Eb|]. apply wp_st; [by eexists|]. change RHINO_MM_PRESTAT_MASK with 2. rewrite HwA2.
  set (m3 := <[mb_size b := _]> m2).
  assert (HF3 : mem_frame (touch L1 b k n L3) m m3) by (apply mid_st; [done|unfold mb_size; lia|unfold mb_size; zlia|unfold mb_size; lia]).
  eapply HQ; [|exact HF3|by apply same_place_rest].
  assert (Hm3 : forall a, b + 8 <= a < ba n + 8 -> a <> b + 8 + s + 8 -> a <> b + 8 + s + 12 -> m3 !! a = mA !! a).
  { intros a Ha H1 H2. subst m3. rewrite lookup_insert_ne by (unfold mb_size; lia). apply Hkeep; lia. }
  eapply (close_split m h L1 b z w n wn L3 F k Ho); try done.
  - subst m3. rewrite lookup_insert_eq. rewrite word_flags. cbn [bz bf]. f_equal. unfold flag_bits.
    replace s with (s + 0) at 1 by lia. destruct (bool_decide _); rewrite flags_set by (cbn; lia); done.
  - rewrite Hm3; [done|unfold mb_size; lia..].
  - rewrite Hm3; [done|unfold mb_size; lia..].
  - rewrite Hm3; [done|unfold mb_prev; lia..].
  - subst m3. eapply fl_rep_frame; [|exact Hr2]. intros a Ha. apply lookup_insert_ne. intros <-.
    destruct Ha as (y & (i' & j' & Hc' & Hy) & Ha). unfold Fset in Hy.
    assert (Hy' : y = b + 8 + s \/ node F y).
    { case_decide as Hd; [destruct Hd as [-> ->]; apply elem_of_cons in Hy as [->|Hy]; [by left|right; by exists i, j]|right; by exists i', j']. }
    destruct Hy' as [->|Hy']; [unfold mb_fprev, mb_fnext, mb_size in Ha; lia|].
    apply (mid_not_link (mb_size b)); [unfold mb_size; lia|]. by exists y.
Qed.

(** the end of [k_mm_free] *)
Lemma wp_finish_free (Q : unit -> hstate -> Prop) :
  w = z + 1 -> pf_end None L1 = None -> bf n = false -> (wn = bz n \/ wn = bz n + 2) -> k = 0 ->
  (forall m' h' F', heap m' h' (L1 ++ mkBlk b z true :: n :: L3) F' -> mem_frame (touch L1 b 0 n L3) m m' -> same_place h h' ->
     Q tt (mkH m' pl h')) ->
  wp (bs ← ld (mb_size b);
      '(_, fl, sl) ← bitmap_search (blksize bs) ACTION_INSERT;
      insert_block b fl sl;;
      let tmp_b := NEXT_MM_BLK (mb_buffer b) (blksize bs) in
      ts ← ld (mb_size tmp_b);
      st (mb_size tmp_b) (Z.lor ts RHINO_MM_PREVFREE);;
      st (mb_prev tmp_b) b) Q (mkH m pl h).
Proof using Ho.
  intros Ew Hpf Hfn Hwn Ek HQ. destruct hole_facts as (En & Hz & Hb0 & Hb4 & Hz4 & Hnr & _ & Hnz4 & Hna4 & _).
  pose proof (ho_gap _ _ _ _ _ _ _ _ _ _ Ho) as Hg. change MAX_MM_SIZE with (2 ^ 20) in Hz.
  apply wp_bind. eapply wp_ld; [apply Ho|]. rewrite Ew, flags_size by lia. apply wp_bind, wp_search_insert; [change MAX_MM_SIZE with (2 ^ 20); lia|]. cbv beta iota.
  destruct (cls z) as [i j] eqn:Ec. cbn [fst snd]. assert (Hcok : class_ok (i, j)) by (rewrite <- Ec; apply cls_ok; change MAX_MM_SIZE with (2 ^ 20); lia).
  destruct (hole_node _ _ _ _ _ Hg F b) as [Hno Hsp]; [apply Ho|lia..|].
  apply wp_bind. apply (wp_insert_block m pl h F i j); [apply Ho|done|lia|done|done|..].
  1-2: apply some_mid; unfold mb_fprev, mb_fnext; [lia|zlia].
  intros m2 h2 Hr2 Hs2 Hf2. assert (HF2 : mem_frame (touch L1 b k n L3) m m2) by (eapply frame_insert; [apply mem_frame_refl|exact Hf2|lia..]).
  assert (Hkeep : forall a, b <= a < ba n + 8 -> a <> b + 8 -> a <> b + 12 -> m2 !! a = m !! a) by (intros; by eapply insert_keeps).
  cbv zeta. unfold NEXT_MM_BLK, mb_buffer. change MMLIST_HEAD_SIZE with 8. rewrite u32_small by lia. rewrite <- En.
  apply wp_bind. eapply wp_ld; [rewrite Hkeep; [apply Ho|unfold mb_size; lia..]|].
  assert (Hn2 : is_Some (m2 !! mb_size (ba n)) /\ is_Some (m2 !! mb_prev (ba n))).
  { split; (eapply mem_frame_some; [exact Hf2|]; apply some_mid; unfold mb_size, mb_prev; [lia|zlia]). }
  apply wp_bind, wp_st; [apply Hn2|]. apply wp_st; [apply lookup_insert_is_Some'; right; apply Hn2|].
  set (m3 := <[mb_prev (ba n) := b]> _).
  assert (HF3 : mem_frame (touch L1 b k n L3) m m3).
  { do 2 (apply mid_st; [|unfold mb_size, mb_prev; lia|unfold mb_size, mb_prev; zlia|unfold mb_size, mb_prev; lia]). done. }
  rewrite Ek in *. eapply HQ; [|exact HF3|by apply same_place_rest].
  assert (Hm3 : forall a, a <> mb_prev (ba n) -> a <> mb_size (ba n) -> m3 !! a = m2 !! a).
  { intros a H1 H2. subst m3. by rewrite !lookup_insert_ne. }
  eapply (close_free m h L1 b z w n wn L3 F 0 Ho); try done.
  - rewrite Hm3, Hkeep by (unfold mb_size, mb_prev; lia). rewrite <- Ew. apply Ho.
  - subst m3. rewrite lookup_insert_ne by (unfold mb_size, mb_prev; lia). rewrite lookup_insert_eq. f_equal.
    change RHINO_MM_PREVFREE with 2. destruct Hwn as [-> | ->]; [replace (bz n) with (bz n + 0) at 1 by lia|];
      (rewrite flags_set by (done || lia)); done.
  - subst m3. by rewrite lookup_insert_eq.
  - eapply fl_rep_frame; [|exact Hr2]. intros a (y & (i' & j' & Hc' & Hy) & Ha). unfold Fset in Hy.
    assert (Hy' : y = b \/ node F y).
    { case_decide as Hd; [destruct Hd as [-> ->]; apply elem_of_cons in Hy as [->|Hy]; [by left|right; by exists i, j]|right; by exists i', j']. }
    assert (Hnl : ~ (ba n <= a < ba n + 8)).
    { intros Han. destruct Hy' as [->|Hy']; [unfold mb_fprev, mb_fnext in Ha; lia|]. apply (mid_not_link a); [lia|]. by exists y. }
    apply Hm3; unfold mb_prev, mb_size in *; lia.
Qed.
End steps.

(** ** Allocating *)

(** the bytes of the blocks in use, and those that are not of the heap *)
Definition used (L : list blk) (a : Z) : Prop := (exists x, x ∈ L /\ pay x a) \/ ~ span L a.

(** the size of the block for a request *)
Definition room (size : Z) : Z := Z.max AOS_MM_TLF_ALLOC_MIN_LENGTH ((size + 3) / 4 * 4).

(** [L'] is [L] after the free block at [b] was taken for [s] bytes: [n] bytes
    of it, the rest stays free when it makes a block *)
Definition taken (L L' : list blk) (b s n : Z) : Prop :=
  exists L1 z L2, L = L1 ++ mkBlk b z true :: L2 /\ s <= z /\
    (n = z /\ z < s + sizeof_k_mm_list_t /\ L' = L1 ++ mkBlk b z false :: L2 \/
     n = s /\ s + sizeof_k_mm_list_t <= z /\ L' = L1 ++ mkBlk b s false :: mkBlk (b + 8 + s) (z - s - 8) true :: L2).

(** the free block at [b] is of the first class that has one for [s] bytes *)
Definition good_fit (L : list blk) (b s : Z) : Prop :=
  exists z, mkBlk b z true ∈ L /\ lower (cls (get_size s)) <= z /\
    forall x, x ∈ L -> bf x = true -> lower (cls (get_size s)) <= bz x -> class_le (cls z) (cls (bz x)).

(** no block for [s] bytes *)
Definition no_fit (L : list blk) (s : Z) : Prop := forall x, x ∈ L -> bf x = true -> bz x < lower (cls (get_size s)).

(** a hole keeps the bytes in use *)
Lemma used_touch L1 b z n L3 k a : 0 <= z -> used (L1 ++ mkBlk b z true :: n :: L3) a -> kept L1 b k n L3 a.
Proof.
  unfold kept. intros Hz [(x & Hx & Hp)|Hsp].
  2: { do 4 right. intros Hs. apply Hsp. revert Hs. apply span_incl. intros x Hx. rewrite elem_of_app, !elem_of_cons in Hx.
       assert (Hx' : x = mkBlk b 0 false \/ x ∈ L1 ++ mkBlk b z true :: n :: L3) by (rewrite elem_of_app, !elem_of_cons; tauto).
       destruct Hx' as [->|]; [|by apply span_same]. split; exists (mkBlk b z true); (split; [apply elem_of_app; right; left|]); [done|geo]. }
  apply elem_of_app in Hx as [Hx|[->|[->|Hx]%elem_of_cons]%elem_of_cons]; [| by destruct Hp|by right; left|].
  - left. exists x. split; [apply elem_of_app; by left|by right].
  - left. exists x. split; [apply elem_of_app; by right|by right].
Qed.

Section alloc.
Context (m : mem) (pl : list Z) (h : k_mm_head) (L : list blk) (F : lists).
Context (Hh : heap m h L F).

Lemma free_block x : x ∈ L -> bf x = true -> 8 <= bz x < MAX_MM_SIZE /\ class_ok (cls (bz x)).
Proof using Hh.
  intros Hx Hf. destruct (ig_size _ _ _ (geom_at _ _ (he_geom _ _ _ _ Hh) Hx)) as [[_ ?]|]; [congruence|].
  split; [done|]. apply cls_ok. lia.
Qed.

Lemma wp_alloc_large size req (Q : Z -> hstate -> Prop) :
  0 < size <= 0xFC000000 -> 2 <= req < 2 ^ 32 ->
  (no_fit L (room size) -> Q 0 (mkH m pl h)) ->
  (forall b n m' h' L' F', good_fit L b (room size) -> taken L L' b (room size) n -> heap m' h' L' F' ->
     mem_frame (fun a => ~ used L a) m m' -> same_place h h' -> Q (b + 8) (mkH m' pl h')) ->
  wp (k_mm_alloc_large size req) Q (mkH m pl h).
Proof using Hh.
  intros Hs Hreq HQ0 HQ1. unfold k_mm_alloc_large. cbv zeta.
  assert (Es : (if MM_ALIGN_UP size <? AOS_MM_TLF_ALLOC_MIN_LENGTH then AOS_MM_TLF_ALLOC_MIN_LENGTH else MM_ALIGN_UP size) = room size).
  { unfold room. rewrite MM_ALIGN_UP_eq by lia. destruct (Z.ltb_spec ((size + 3) / 4 * 4) AOS_MM_TLF_ALLOC_MIN_LENGTH); lia. }
  rewrite Es. clear Es. set (s := room size) in *.
  assert (Hs8 : 8 <= s <= 0xFC000000 /\ s mod 4 = 0).
  { subst s. unfold room. change AOS_MM_TLF_ALLOC_MIN_LENGTH with 8. zlia. }
  destruct Hs8 as [Hs8 Hs4]. pose proof (get_size_lower s ltac:(lia) Hs4) as [Hlow Hget].
  apply wp_bind, wp_search_get; [lia| |].
  2: { intros Hbig i j. cbn. apply wp_ret, HQ0. intros x Hx Hf. pose proof (free_block x Hx Hf). pose proof (lower_high _ Hbig). lia. }
  intros Hsmall. cbv beta iota. rewrite bool_decide_true by done. cbn [negb].
  destruct (cls (get_size s)) as [i0 j0] eqn:Ec0. cbn [fst snd].
  assert (Hc0 : class_ok (i0, j0)) by (rewrite <- Ec0; apply cls_ok; lia).
  pose proof (he_classes _ _ _ _ Hh) as HF. pose proof (he_geom _ _ _ _ Hh) as HG.
  apply wp_bind, (wp_findblk m pl h F i0 j0); [apply Hh|done| |].
  2: { intros Hnone ii jj. cbv beta iota. rewrite Z.eqb_refl. apply wp_ret, HQ0. intros x Hx Hf. destruct (free_block x Hx Hf) as [Hx1 Hx2]. rewrite Ec0.
       destruct (Z.lt_ge_cases (bz x) (lower (i0, j0))) as [|Hge]; [done|]. exfalso.
       apply class_le_lower in Hge; [|lia|done]. destruct (cls (bz x)) as [i' j2] eqn:Ex. specialize (Hnone _ _ Hx2 Hge).
       assert (Hin : ba x ∈ F i' j2) by (apply HF; [done|]; exists (bz x); destruct x; cbn in *; subst; done).
       rewrite Hnone in Hin. by apply elem_of_nil in Hin. }
  intros i j b Lb Hfirst EF Hb0. cbv beta iota. rewrite (proj2 (Z.eqb_neq _ _)) by done. destruct Hfirst as (Hcij & Hle & _ & Hfst).
  assert (Hbin : b ∈ F i j) by (rewrite EF; left). apply HF in Hbin as (z & Hbz & Ez); [|done].
  assert (Hzs : lower (i0, j0) <= z).
  { apply class_le_lower; [pose proof (free_block _ Hbz eq_refl); cbn in *; lia|done|by rewrite Ez]. }
  assert (Hfit : good_fit L b s).
  { exists z. rewrite Ec0. split_and!; [done|done|]. intros x Hx Hf Hge. destruct (free_block x Hx Hf) as [Hx1 Hx2]. rewrite Ez.
    apply class_le_lower in Hge; [|lia|done]. destruct (cls (bz x)) as [i' j'] eqn:Ex. apply Hfst; [done|done|].
    assert (Hin : ba x ∈ F i' j') by (apply HF; [done|]; exists (bz x); destruct x; cbn in *; subst; done).
    intros E0. rewrite E0 in Hin. by apply elem_of_nil in Hin. }
  pose proof Hbz as Hsplit. apply list_elem_of_split in Hsplit as (L1 & L2 & EL).
  apply wp_bind, (wp_take_first m pl h F i j b [] Lb (he_lists _ _ _ _ Hh) Hcij EF); [done|].
  intros h1 Hr1 Hs1. set (m1 := unlinked m b [] Lb) in *.
  pose proof (unlinked_frame m F i j b [] Lb (fr_lists _ _ _ (he_lists _ _ _ _ Hh)) Hcij EF) as Hf1. fold m1 in Hf1.
  pose proof Hh as Hh1. rewrite EL in Hh1. destruct (heap_detach m h L1 (mkBlk b z true) L2 F i j [] Lb m1 h1 Hh1 eq_refl Ez EF Hr1 Hf1) as (n & L3 & -> & Hfn & Hpf & Ho).
  cbn [ba bz] in Ho. clear Hr1. set (F1 := Fset F i j ([] ++ Lb)) in *.
  destruct (hole_facts _ _ _ _ _ _ _ _ _ _ Ho) as (En & Hz & Hb1 & Hb4 & Hz4 & Hnr & _ & Hnz4 & Hna4 & _).
  pose proof (ho_gap _ _ _ _ _ _ _ _ _ _ Ho) as Hg. change MAX_MM_SIZE with (2 ^ 20) in Hz.
  assert (Hfr1 : mem_frame (fun a => ~ used L a) m m1).
  { eapply mem_frame_mono; [|exact Hf1]. intros a (y & Hy & Ha).
    apply (heap_node _ _ _ HG HF) in Hy as (t & Ht). pose proof (free_block _ Ht eq_refl) as [Ht8 _]. cbn in Ht8.
    intros [(x & Hx & Hfx & Hax)|Hsp]; [|apply Hsp; eexists _, _; split_and!; [exact Ht|exact Ht|unfold mb_fprev, mb_fnext in Ha; geo..]].
    destruct (geom_apart _ _ _ HG Hx Ht) as [->|[?|?]]; [done|geo..]. }
  assert (Hfr2 : forall m', mem_frame (touch L1 b 0 n L3) m1 m' -> mem_frame (fun a => ~ used L a) m m').
  { intros m' Hm'. eapply mem_frame_trans; [exact Hfr1|]. eapply mem_frame_mono; [|exact Hm']. intros a Ha Hu. apply Ha.
    rewrite EL in Hu. eapply used_touch; [|exact Hu]. lia. }
  apply wp_bind. eapply wp_ld; [apply Ho|]. rewrite word_flags. cbn [bz bf]. pose proof (flag_bits_range true (bool_decide (is_Some (@None Z)))) as Hfl.
  rewrite flags_size by lia. unfold NEXT_MM_BLK, mb_buffer. change MMLIST_HEAD_SIZE with 8. rewrite !(u32_small (b + 8 + z)), (u32_small (z - s)) by lia.
  assert (Hend : forall n0 m' h' L' F', taken L L' b s n0 -> heap m' h' L' F' -> mem_frame (touch L1 b 0 n L3) m1 m' -> same_place h1 h' ->
    m' !! mb_size b = Some (word_of (mkBlk b n0 false) (pf_end None L1)) ->
    wp (bs ← ld (mb_size b); addsize (blksize bs + 8) req;; mret (b + 8)) Q (mkH m' pl h')).
  { intros n0 m' h' L' F' Ht Hh' Hm' Hs' Hw. apply wp_bind. eapply wp_ld; [exact Hw|]. apply wp_bind, wp_addsize; [done|].
    intros h2 Ht2. apply wp_ret. eapply (HQ1 _ n0 _ _ L' F'); [done|done| |by apply Hfr2|].
    - destruct Hh'. split; try done. by eapply fl_rep_tables.
    - eapply same_place_trans; [by apply same_place_rest|]. eapply same_place_trans; [done|by apply same_place_tables]. }
  apply wp_bind. rewrite <- En. change sizeof_k_mm_list_t with 16.
  destruct (Z.leb_spec 16 (z - s)) as [Hsp|Hnsp].
  - rewrite (u32_small (b + 8 + s)) by lia. set (b2 := b + 8 + s).
    assert (Hb24 : b2 mod 4 = 0) by (subst b2; zlia).
    apply wp_bind, wp_st; [eapply (some_mid _ _ _ _ _ _ _ _ _ _ Ho); unfold mb_size; [lia|zlia]|].
    apply wp_bind, wp_st; [apply lookup_insert_is_Some'; right; eapply (some_mid _ _ _ _ _ _ _ _ _ _ Ho); unfold mb_prev; [lia|zlia]|].
    replace (Z.lor (Z.lor (z - s - 8) RHINO_MM_FREE) RHINO_MM_PREVALLOCED) with (z - s - 8 + 1).
    2: { change RHINO_MM_PREVALLOCED with 0. rewrite Z.lor_0_r. change RHINO_MM_FREE with 1. replace (z - s - 8) with (z - s - 8 + 0) at 2 by lia.
         rewrite flags_set by zlia. done. }
    set (mA := <[mb_prev (ba n) := b2]> _).
    assert (HAo : forall a, ~ (b <= a < ba n + 8) -> mA !! a = m1 !! a).
    { intros a Ha. subst mA. rewrite !lookup_insert_ne; [done|unfold mb_size, mb_prev; lia..]. }
    assert (HAf : mem_frame (touch L1 b 0 n L3) m1 mA).
    { do 2 (eapply mid_st; [exact Ho| |unfold mb_size, mb_prev; lia|unfold mb_size, mb_prev; zlia|by left]). apply mem_frame_refl. }
    assert (HAb : mA !! mb_size b = Some (z + flag_bits true (bool_decide (is_Some (@None Z))))).
    { subst mA. rewrite !lookup_insert_ne by (unfold mb_size, mb_prev; lia). rewrite (ho_w _ _ _ _ _ _ _ _ _ _ Ho). by rewrite word_flags. }
    eapply (wp_finish_split m1 pl h1 L1 b z _ n _ L3 F1 0 Ho mA s (z - s - 8)); try done; try lia.
    + by rewrite flags_land, Hpf by (done || lia).
    + subst mA. rewrite lookup_insert_ne by (unfold mb_size, mb_prev; lia). by rewrite lookup_insert_eq.
    + subst mA. rewrite !lookup_insert_ne by (unfold mb_size, mb_prev; lia). rewrite (ho_wn _ _ _ _ _ _ _ _ _ _ Ho), word_flags, Hfn. done.
    + subst mA. by rewrite lookup_insert_eq.
    + intros m' h' F' Hh' Hm' Hs'. eapply (Hend s); [|exact Hh'|exact Hm'|exact Hs'|].
      * exists L1, z, (n :: L3). split_and!; [done|lia|]. right. change sizeof_k_mm_list_t with 16. split_and!; [done|lia|done].
      * pose proof (he_headers _ _ _ _ Hh') as Hhd. apply headers_app in Hhd as (_ & Hw & _). done.
  - pose proof (ho_wn _ _ _ _ _ _ _ _ _ _ Ho) as Hwn. apply wp_bind. eapply wp_ld; [exact Hwn|].
    apply wp_bind, wp_st; [by eexists|]. apply wp_bind. eapply wp_ld; [rewrite lookup_insert_ne by (unfold mb_size; lia); apply Ho|].
    apply wp_st; [apply lookup_insert_is_Some'; right; eexists; apply Ho|]. set (mA := <[mb_size b := _]> _).
    assert (HAf : mem_frame (touch L1 b 0 n L3) m1 mA).
    { do 2 (eapply mid_st; [exact Ho| |unfold mb_size, mb_prev; lia|unfold mb_size, mb_prev; zlia|by left]). apply mem_frame_refl. }
    assert (HAw : mA !! mb_size b = Some (word_of (mkBlk b z false) (pf_end None L1))).
    { subst mA. rewrite lookup_insert_eq, Hpf, !word_flags. cbn [bz bf]. change RHINO_MM_FREE with 1. by rewrite flags_clear by (done || lia). }
    assert (Hheap : heap mA h1 (L1 ++ mkBlk b z false :: n :: L3) F1).
    { eapply (close_alloc m1 h1 L1 b z _ n _ L3 F1 0 Ho); [exact HAf|exact HAw| |].
      - subst mA. rewrite lookup_insert_ne by (unfold mb_size; lia). rewrite lookup_insert_eq, !word_flags, Hfn. change RHINO_MM_PREVFREE with 2.
        by rewrite flags_clear by (first [done|lia|apply flag_bits_range]).
      - eapply lists_mid; [exact Ho|]. intros a Ha. subst mA. rewrite !lookup_insert_ne; [done|unfold mb_size; lia..]. }
    eapply (Hend z); [|exact Hheap|exact HAf|done|exact HAw].
    exists L1, z, (n :: L3). split_and!; [done|lia|]. left. change sizeof_k_mm_list_t with 16. split_and!; [done|lia|done].
Qed.
End alloc.
