(* ===== verification/MmFree.v ===== *)
(** * The heap: freeing *)

From S2P Require Import Prelude Config Bitmap Mem MmBlk Mm MmClass MmList MmGeom MmHole MmAlloc.
Open Scope Z_scope.

Section hole.
Context (m : mem) (pl : list Z) (h : k_mm_head) (L1 : list blk) (b z w : Z) (n : blk) (wn : Z) (L3 : list blk) (F : lists).
Context (Ho : hole m h L1 b z w n wn L3 F).

Lemma hole_tables h' : same_tables h h' -> hole m h' L1 b z w n wn L3 F.
Proof using Ho. intros Ht. destruct Ho. split; try done. by eapply fl_rep_tables. Qed.

(** the header of [b] written *)
Lemma hole_st w' : hole (<[mb_size b := w']> m) h L1 b z w' n wn L3 F /\ mem_frame (touch L1 b 0 n L3) m (<[mb_size b := w']> m).
Proof using Ho.
  destruct (hole_facts _ _ _ _ _ _ _ _ _ _ Ho) as (En & Hz & Hb0 & Hb4 & _).
  assert (Hf : mem_frame (touch L1 b 0 n L3) m (<[mb_size b := w']> m)).
  { eapply mid_st; [exact Ho|apply mem_frame_refl|unfold mb_size; lia|unfold mb_size; zlia|by left]. }
  split; [|done]. destruct (hole_sides _ _ _ _ _ _ _ _ _ _ 0 Ho _ Hf) as (S1 & S2 & S3). split; try done; try apply Ho.
  - by rewrite lookup_insert_eq.
  - rewrite lookup_insert_ne by (unfold mb_size; lia). apply Ho.
  - eapply cover_frame; [exact Hf|apply Ho].
  - eapply lists_mid; [exact Ho|]. intros a Ha. apply lookup_insert_ne. unfold mb_size in *. lia.
Qed.

(** a free block of the hole is in the list of its class *)
Lemma hole_listed x : x ∈ L1 ++ mkBlk b z false :: n :: L3 -> bf x = true ->
  exists i j M1 M2, cls (bz x) = (i, j) /\ class_ok (i, j) /\ F i j = M1 ++ ba x :: M2.
Proof using Ho.
  intros Hx Hf. pose proof (ga_geom _ _ _ _ _ (ho_gap _ _ _ _ _ _ _ _ _ _ Ho)) as HG.
  assert (Hz : 8 <= bz x < MAX_MM_SIZE) by (destruct (ig_size _ _ _ (geom_at _ _ HG Hx)) as [[_ ?]|]; [congruence|done]).
  destruct (cls (bz x)) as [i j] eqn:Ec. assert (Hc : class_ok (i, j)) by (rewrite <- Ec; apply cls_ok; lia).
  assert (Hin : ba x ∈ F i j).
  { apply (ho_classes _ _ _ _ _ _ _ _ _ _ Ho); [done|]. exists (bz x). split; [|done]. destruct x. cbn in *. by subst. }
  apply list_elem_of_split in Hin as (M1 & M2 & E). by exists i, j, M1, M2.
Qed.

Lemma wp_unlink_free x wx (Q : unit -> hstate -> Prop) :
  x ∈ L1 ++ mkBlk b z false :: n :: L3 -> bf x = true -> blksize wx = bz x ->
  (forall i j M1 M2 m' h', cls (bz x) = (i, j) -> F i j = M1 ++ ba x :: M2 -> fl_rep m' h' (Fset F i j (M1 ++ M2)) ->
     mem_frame (links (node F)) m m' -> same_place h h' -> Q tt (mkH m' pl h')) ->
  wp (unlink_free (ba x) wx) Q (mkH m pl h).
Proof using Ho.
  intros Hx Hf Hw HQ. pose proof (ga_geom _ _ _ _ _ (ho_gap _ _ _ _ _ _ _ _ _ _ Ho)) as HG.
  destruct (hole_listed x Hx Hf) as (i & j & M1 & M2 & Ec & Hc & EF). unfold unlink_free. rewrite Hw.
  apply wp_bind, wp_search_insert. { destruct (ig_size _ _ _ (geom_at _ _ HG Hx)) as [[_ ?]|]; [congruence|lia]. }
  cbv beta iota. rewrite Ec. cbn [fst snd]. apply (wp_get_block m pl h F i j (ba x) M1 M2 (ho_lists _ _ _ _ _ _ _ _ _ _ Ho) Hc EF).
  intros h' Hr Hs. eapply HQ; [done|exact EF|exact Hr| |by apply same_place_rest].
  apply (unlinked_frame m F i j (ba x) M1 M2 (fr_lists _ _ _ (ho_lists _ _ _ _ _ _ _ _ _ _ Ho)) Hc EF).
Qed.

End hole.

(** [pre] and [post] are the free neighbours, none or one *)
Definition neighbour (N : list blk) : Prop := N = [] \/ exists p, N = [p] /\ bf p = true.

(** the bytes of a run of blocks, with their headers *)
Definition extent (N : list blk) : Z := foldr (fun x s => bz x + 8 + s) 0 N.

(** [L'] is [L] with the block at [b] free, and its free neighbours joined to it *)
Definition freed (L L' : list blk) (b : Z) : Prop :=
  exists P pre z post S, L = P ++ pre ++ mkBlk b z false :: post ++ S /\ neighbour pre /\ neighbour post /\
    L' = P ++ mkBlk (hd b (ba <$> pre)) (extent pre + z + extent post) true :: S.

(** [used] but for the block at [b] *)
Definition used_but (L : list blk) (b a : Z) : Prop := (exists x, x ∈ L /\ ba x <> b /\ pay x a) \/ ~ span L a.

Lemma pf_end_some L1 p : pf_end None L1 = Some p -> exists P x, L1 = P ++ [x] /\ bf x = true /\ ba x = p.
Proof.
  destruct L1 as [|x P _] using rev_ind; [done|]. rewrite pf_end_snoc. unfold free_addr. destruct (bf x) eqn:E; [|done].
  intros [= <-]. by exists P, x.
Qed.

(** the links are not bytes in use *)
Lemma links_used_but m h L1 b z w n wn L3 F L0 b0 a : hole m h L1 b z w n wn L3 F ->
  (forall x, x ∈ L0 -> ba x <> b0 -> bf x = false -> x ∈ L1 ++ n :: L3) -> (forall x, x ∈ L1 ++ n :: L3 -> x ∈ L0) ->
  links (node F) a -> ~ used_but L0 b0 a.
Proof.
  intros Ho HL HL' (y & Hy & Ha). pose proof (ga_geom _ _ _ _ _ (ho_gap _ _ _ _ _ _ _ _ _ _ Ho)) as HG.
  apply (heap_node _ _ _ HG (ho_classes _ _ _ _ _ _ _ _ _ _ Ho)) in Hy as (s & Hs).
  assert (8 <= s) by (destruct (ig_size _ _ _ (geom_at _ _ HG Hs)) as [[_ ?]|]; [done|cbn in *; lia]).
  assert (Hy' : y + 8 <= a < y + 16) by (unfold mb_fprev, mb_fnext in Ha; lia).
  intros [(x & Hx & Hne & Hfx & Hp)|Hsp].
  - specialize (HL x Hx Hne Hfx). destruct (geom_apart _ x _ HG ltac:(rewrite elem_of_app, !elem_of_cons; rewrite elem_of_app, elem_of_cons in HL; tauto) Hs) as [->|[?|?]]; [done|geo..].
  - apply Hsp. assert (Hs0 : mkBlk y s true ∈ L0).
    { apply HL'. rewrite elem_of_app, elem_of_cons in Hs. apply elem_of_app. destruct Hs as [?|[?|?]]; [by left|done|by right]. }
    exists (mkBlk y s true), (mkBlk y s true). split_and!; [done|done|geo..].
Qed.

(** what [k_mm_free] may write *)
Lemma touch_used_but L1 b b' k n L3 L0 a :
  (forall x, x ∈ L0 -> ba x <> b -> bf x = false -> x ∈ L1 ++ n :: L3) -> (forall x, x ∈ L1 ++ n :: L3 -> x ∈ L0) ->
  (exists y, y ∈ L0 /\ ba y = b' /\ 0 <= bz y) -> touch L1 b' k n L3 a -> ~ used_but L0 b a.
Proof.
  intros HL HL' (y & Hy & Ey & Hyz) Ha [(x & Hx & Hne & Hp)|Hsp]; apply Ha; unfold kept.
  - specialize (HL x Hx Hne (proj1 Hp)).
    apply elem_of_app in HL as [HL|[->|HL]%elem_of_cons]; [left|by right; left|left]; exists x; (split; [|by right]); apply elem_of_app; auto.
  - do 4 right. intros Hs. apply Hsp. revert Hs. apply span_incl. intros x Hx. rewrite elem_of_app, elem_of_cons in Hx.
    assert (Hx' : x = mkBlk b' 0 false \/ x ∈ L1 ++ n :: L3) by (rewrite elem_of_app; tauto).
    destruct Hx' as [->|Hx']; [|by apply span_same, HL']. split; exists y; (split; [done|]); [cbn; lia|unfold bend; cbn; lia].
Qed.

Section free.
Context (m : mem) (pl : list Z) (h : k_mm_head) (L1 L2 : list blk) (F : lists) (b z : Z).

Abbreviation L := (L1 ++ mkBlk b z false :: L2).

(** the allocated blocks of [L], but [b], are in the hole *)
Lemma free_others n1 L31 post : L2 = post ++ n1 :: L31 -> neighbour post ->
  forall x, x ∈ L -> ba x <> b -> bf x = false -> x ∈ L1 ++ n1 :: L31.
Proof using.
  intros EL Hpost x Hx Hxb Hxf. rewrite EL in Hx. rewrite elem_of_app, elem_of_cons, elem_of_app in Hx. apply elem_of_app.
  destruct Hx as [?|[->|[Hx|?]]]; [by left|done| |by right]. destruct Hpost as [->|(p & -> & Hp)]; [by apply elem_of_nil in Hx|].
  apply list_elem_of_singleton in Hx as ->. congruence.
Qed.

(** the blocks of the hole are blocks of [L] *)
Lemma free_back n1 L31 post : L2 = post ++ n1 :: L31 -> forall x, x ∈ L1 ++ n1 :: L31 -> x ∈ L.
Proof using.
  intros -> x [Hx|Hx]%elem_of_app; apply elem_of_app; [by left|right]. right. apply elem_of_app. by right.
Qed.

Lemma free_here : 0 <= z -> exists y, y ∈ L /\ ba y = b /\ 0 <= bz y.
Proof using. intros Hz. exists (mkBlk b z false). split; [apply elem_of_app; right; left|done]. Qed.

(** the block behind taken in, when it is free *)
Lemma wp_free_next m0 h0 w n wn q L3 F0 (Q : unit -> hstate -> Prop) :
  hole m0 h0 L1 b z w n wn L3 F0 -> L2 = n :: L3 -> wn = bz n + flag_bits (bf n) q -> w = z + flag_bits true (bool_decide (is_Some (pf_end None L1))) ->
  (forall m1 h1 z1 n1 wn1 L31 post F1, hole m1 h1 L1 b z1 (z1 + flag_bits true (bool_decide (is_Some (pf_end None L1)))) n1 wn1 L31 F1 ->
     L2 = post ++ n1 :: L31 -> neighbour post -> z1 = z + extent post -> bf n1 = false -> (wn1 = bz n1 \/ wn1 = bz n1 + 2) ->
     mem_frame (fun a => ~ used_but L b a) m0 m1 -> same_place h0 h1 -> Q tt (mkH m1 pl h1)) ->
  wp (if negb (Z.land wn RHINO_MM_FREE =? 0) then
        unlink_free (ba n) wn;;
        bs ← ld (mb_size b);
        ts ← ld (mb_size (ba n));
        st (mb_size b) (u32 (bs + (blksize ts + MMLIST_HEAD_SIZE)))
      else mret tt) Q (mkH m0 pl h0).
Proof using.
  intros Ho EL Ewn Ew HQ. destruct (hole_facts _ _ _ _ _ _ _ _ _ _ Ho) as (En & Hzr & Hb0 & Hb4 & Hz4 & Hnr & Hnz & Hnz4 & Hna4 & Hne).
  change MAX_MM_SIZE with (2 ^ 20) in *. rewrite Ewn. set (fl := flag_bits (bf n) _).
  assert (Hfl : 0 <= fl < 4) by apply flag_bits_range.
  rewrite flags_land by (done || lia). change RHINO_MM_FREE with 1.
  assert (Ef : Z.land fl 1 = Z.b2z (bf n)) by (subst fl; by destruct (bf n), q). rewrite Ef.
  assert (HnL : n ∈ L1 ++ mkBlk b z false :: n :: L3) by (apply elem_of_app; right; right; left).
  assert (HbL : mkBlk b z false ∈ L1 ++ mkBlk b z false :: n :: L3) by (apply elem_of_app; right; left).
  pose proof (ga_geom _ _ _ _ _ (ho_gap _ _ _ _ _ _ _ _ _ _ Ho)) as HG.
  destruct (bf n) eqn:Efn; cbn [Z.b2z Z.eqb negb].
  - apply wp_bind, (wp_unlink_free m0 pl h0 L1 b z w n wn L3 F0 Ho); [done|done|apply flags_size; lia|].
    intros i j M1 M2 m1 h1 Ec EM Hr Hf Hs.
    destruct (hole_absorb_next m0 h0 L1 b z w n wn L3 F0 i j M1 M2 m1 h1 Hr Hf Ho Efn Ec EM) as (n2 & L4 & -> & Hfn2 & Ho1).
    pose proof (links_headers _ _ _ _ HG (ho_classes _ _ _ _ _ _ _ _ _ _ Ho) Hf n HnL) as [Ens _].
    rewrite (ho_wn _ _ _ _ _ _ _ _ _ _ Ho), Ewn in Ens.
    apply wp_bind. eapply wp_ld; [apply Ho1|]. apply wp_bind. eapply wp_ld; [exact Ens|]. apply wp_st; [eexists; apply Ho1|].
    rewrite flags_size by (first [done|lia|apply flag_bits_range]). change MMLIST_HEAD_SIZE with 8.
    pose proof (flag_bits_range true (bool_decide (is_Some (pf_end None L1)))). rewrite u32_small by lia.
    set (w1 := w + (bz n + 8)). destruct (hole_st _ _ _ _ _ _ _ _ _ _ Ho1 w1) as [Ho2 Hf2].
    eapply (HQ _ h1 (z + 8 + bz n) n2 _ L4 [n]).
    + replace (z + 8 + bz n + _) with w1 by (subst w1; lia). exact Ho2.
    + by rewrite EL.
    + right. by exists n.
    + cbn. lia.
    + done.
    + right. by rewrite word_flags, Hfn2.
    + eapply mem_frame_trans; [eapply mem_frame_mono; [|exact Hf]|eapply mem_frame_mono; [|exact Hf2]].
      * intros a. apply (links_used_but _ _ _ _ _ _ _ _ _ _ L b a Ho); [apply (free_others n (n2 :: L4) []); [done|by left]|by apply (free_back n (n2 :: L4) [])].
      * intros a. apply touch_used_but; [apply (free_others n2 L4 [n]); [by rewrite EL|right; by exists n]|by apply (free_back n2 L4 [n]); rewrite EL|].
        apply free_here. lia.
    + done.
  - apply wp_ret. eapply (HQ m0 h0 z n wn L3 [] F0).
    + by rewrite <- Ew.
    + done.
    + by left.
    + cbn. lia.
    + done.
    + rewrite Ewn. destruct q; [by right|left]. apply Z.add_0_r.
    + apply mem_frame_refl.
    + done.
Qed.

(** the block before takes [b] in, when it is free *)
Lemma wp_free_prev m1 h1 z1 n1 wn1 L31 post F1 (Q : Z -> hstate -> Prop) :
  hole m1 h1 L1 b z1 (z1 + flag_bits true (bool_decide (is_Some (pf_end None L1)))) n1 wn1 L31 F1 ->
  L2 = post ++ n1 :: L31 -> neighbour post ->
  (forall m2 h2 P pre b2 z2 F2, hole m2 h2 P b2 z2 (z2 + 1) n1 wn1 L31 F2 -> L1 = P ++ pre -> neighbour pre ->
     b2 = hd b (ba <$> pre) -> z2 = extent pre + z1 -> pf_end None P = None ->
     mem_frame (fun a => ~ used_but L b a) m1 m2 -> same_place h1 h2 -> Q b2 (mkH m2 pl h2)) ->
  wp (if negb (Z.land (z1 + flag_bits true (bool_decide (is_Some (pf_end None L1)))) RHINO_MM_PREVFREE =? 0) then
        tmp_b ← ld (mb_prev b);
        ts ← ld (mb_size tmp_b);
        unlink_free tmp_b ts;;
        ts ← ld (mb_size tmp_b);
        bs ← ld (mb_size b);
        st (mb_size tmp_b) (u32 (ts + (blksize bs + MMLIST_HEAD_SIZE)));;
        mret tmp_b
      else mret b) Q (mkH m1 pl h1).
Proof using.
  intros Ho EL Hpost HQ. destruct (hole_facts _ _ _ _ _ _ _ _ _ _ Ho) as (En & Hzr & Hb0 & Hb4 & Hz4 & _).
  change MAX_MM_SIZE with (2 ^ 20) in *. pose proof (free_others n1 L31 post EL Hpost) as Hoth.
  rewrite flags_land by (first [done|lia|apply flag_bits_range]). change RHINO_MM_PREVFREE with 2.
  pose proof (ho_prev _ _ _ _ _ _ _ _ _ _ Ho) as Hprev. destruct (pf_end None L1) as [pa|] eqn:Epf.
  - rewrite bool_decide_true by by eexists. change (negb (Z.land (flag_bits true true) 2 =? 0)) with true. cbv iota.
    change (flag_bits true true) with 3. destruct (pf_end_some _ _ Epf) as (P & p & EP & Hpf & Epa).
    rewrite bool_decide_true in Ho by by eexists. change (flag_bits true true) with 3 in Ho. rewrite EP in Ho.
    apply wp_bind. eapply wp_ld; [by apply Hprev|]. rewrite <- Epa.
    pose proof (ho_gap _ _ _ _ _ _ _ _ _ _ Ho) as Hg. pose proof (ga_geom _ _ _ _ _ Hg) as HG.
    assert (HpL : p ∈ (P ++ [p]) ++ mkBlk b z1 false :: n1 :: L31) by (rewrite !elem_of_app, list_elem_of_singleton; auto).
    assert (HbL : mkBlk b z1 false ∈ (P ++ [p]) ++ mkBlk b z1 false :: n1 :: L31) by (apply elem_of_app; right; left).
    destruct (gap_absorb_prev _ _ _ _ _ _ Hg Hpf) as (Hg2 & HpfP & Eb).
    pose proof (geom_at _ _ HG HpL) as [_ Ip _ [_ Ip4] Ipz _].
    assert (Hpz : 8 <= bz p < 2 ^ 20) by (change MAX_MM_SIZE with (2 ^ 20) in Ipz; destruct Ipz as [[_ ?]|]; [congruence|done]).
    pose proof (ho_before _ _ _ _ _ _ _ _ _ _ Ho) as Hbef. apply headers_app in Hbef as (_ & Hpw & _).
    rewrite HpfP, word_flags, Hpf in Hpw. change (flag_bits true (bool_decide (is_Some None))) with 1 in Hpw.
    apply wp_bind. eapply wp_ld; [exact Hpw|].
    apply wp_bind, (wp_unlink_free m1 pl h1 _ b z1 _ n1 _ L31 F1 Ho); [done|done|apply flags_size; lia|].
    intros i j M1 M2 m2 h2 Ec EM Hr Hf Hs.
    destruct (hole_absorb_prev m1 h1 P p b z1 _ n1 wn1 L31 F1 i j M1 M2 m2 h2 Hr Hf Ho Hpf Ec EM) as (_ & Ho1).
    rewrite word_flags, Hpf in Ho1. change (flag_bits true (bool_decide (is_Some None))) with 1 in Ho1.
    pose proof (links_headers _ _ _ _ HG (ho_classes _ _ _ _ _ _ _ _ _ _ Ho) Hf _ HbL) as [Ebs _]. cbn [ba] in Ebs.
    rewrite (ho_w _ _ _ _ _ _ _ _ _ _ Ho) in Ebs.
    apply wp_bind. eapply wp_ld; [apply Ho1|]. apply wp_bind. eapply wp_ld; [exact Ebs|].
    apply wp_bind, wp_st; [eexists; apply Ho1|]. rewrite flags_size by lia. change MMLIST_HEAD_SIZE with 8. rewrite u32_small by lia.
    set (w1 := bz p + 1 + (z1 + 8)). destruct (hole_st _ _ _ _ _ _ _ _ _ _ Ho1 w1) as [Ho2 Hf2]. apply wp_ret.
    eapply (HQ _ h2 P [p] (ba p) (bz p + 8 + z1)).
    + replace (bz p + 8 + z1 + 1) with w1 by (subst w1; lia). exact Ho2.
    + done.
    + right. by exists p.
    + done.
    + cbn. lia.
    + done.
    + eapply mem_frame_trans; [eapply mem_frame_mono; [|exact Hf]|eapply mem_frame_mono; [|exact Hf2]].
      * intros a. apply (links_used_but _ _ _ _ _ _ _ _ _ _ L b a Ho); rewrite <- EP; [exact Hoth|by apply (free_back n1 L31 post)].
      * intros a. apply touch_used_but.
        -- intros x Hx Hxb Hxf. specialize (Hoth x Hx Hxb Hxf). rewrite EP in Hoth.
           rewrite !elem_of_app, !elem_of_cons in Hoth. apply elem_of_app. rewrite elem_of_cons.
           destruct Hoth as [[?|[->|Hn]]|?]; [by left|congruence|by apply elem_of_nil in Hn|by right].
        -- intros x Hx. apply (free_back n1 L31 post EL). rewrite EP. apply elem_of_app in Hx as [Hx|Hx]; apply elem_of_app; [left; apply elem_of_app; by left|by right].
        -- exists p. split; [|split; [done|lia]]. apply (free_back n1 L31 post EL). rewrite EP. apply elem_of_app. left. apply elem_of_app. right. left.
    + done.
  - rewrite bool_decide_false in * by by intros [? ?]. change (negb (Z.land (flag_bits true false) 2 =? 0)) with false. cbv iota.
    apply wp_ret. eapply (HQ m1 h1 L1 [] b z1); [exact Ho|by rewrite app_nil_r|by left|done|cbn; lia|done|apply mem_frame_refl|done].
Qed.

(** from a hole: the header behind may say anything of the block *)
Lemma wp_free_hole n q L3 (Q : unit -> hstate -> Prop) :
  hole m h L1 b z (word_of (mkBlk b z false) (pf_end None L1)) n (bz n + flag_bits (bf n) q) L3 F -> L2 = n :: L3 ->
  (forall m' h' L' F', freed L L' b -> heap m' h' L' F' -> mem_frame (fun a => ~ used_but L b a) m m' -> same_place h h' ->
     Q tt (mkH m' pl h')) ->
  wp (k_mm_free_large (b + 8)) Q (mkH m pl h).
Proof using.
  intros Ho EL HQ.
  destruct (hole_facts _ _ _ _ _ _ _ _ _ _ Ho) as (En & Hzr & Hb0 & Hb4 & Hz4 & Hnr & _). change MAX_MM_SIZE with (2 ^ 20) in *.
  pose proof (flag_bits_range true (bool_decide (is_Some (pf_end None L1)))) as Hfl.
  unfold k_mm_free_large. cbv zeta. change MMLIST_HEAD_SIZE with 8. replace (b + 8 - 8) with b by lia. rewrite u32_small by lia.
  apply wp_bind. eapply wp_ld; [apply Ho|]. apply wp_bind, wp_st; [eexists; apply Ho|].
  rewrite word_flags. cbn [bz bf]. change RHINO_MM_FREE with 1.
  assert (Ew : Z.lor (z + flag_bits false (bool_decide (is_Some (pf_end None L1)))) 1 = z + flag_bits true (bool_decide (is_Some (pf_end None L1)))).
  { rewrite flags_set by (first [done|lia|apply flag_bits_range]). by destruct (bool_decide _). }
  rewrite Ew. destruct (hole_st _ _ _ _ _ _ _ _ _ _ Ho (z + flag_bits true (bool_decide (is_Some (pf_end None L1))))) as [Ho1 Hf1].
  set (m1 := <[_ := _]> m) in *. apply wp_bind. eapply wp_ld; [apply Ho1|]. apply wp_bind, wp_removesize. intros h1 Ht1.
  pose proof (hole_tables _ _ _ _ _ _ _ _ _ _ Ho1 h1 Ht1) as Ho2. rewrite flags_size by lia.
  unfold NEXT_MM_BLK, mb_buffer. change MMLIST_HEAD_SIZE with 8. rewrite (u32_small (b + 8 + z)) by lia. rewrite <- En.
  apply wp_bind. eapply wp_ld; [apply Ho2|].
  assert (Hfr1 : mem_frame (fun a => ~ used_but L b a) m m1).
  { eapply mem_frame_mono; [|exact Hf1]. intros a. apply touch_used_but; [apply (free_others n L3 [] EL); by left|by apply (free_back n L3 [])|apply free_here; lia]. }
  apply wp_bind. eapply (wp_free_next m1 h1 _ n _ q L3 F); [exact Ho2|exact EL|done|done|].
  intros m2 h2 z2 n2 wn2 L32 post F2 Ho3 EL2 Hpost Ez2 Hfn2 Hwn2 Hfr2 Hs2.
  apply wp_bind. eapply wp_ld; [apply Ho3|]. apply wp_bind. eapply wp_free_prev; [exact Ho3|exact EL2|exact Hpost|].
  intros m3 h3 P pre b3 z3 F3 Ho4 EP Hpre Eb3 Ez3 HpfP Hfr3 Hs3.
  eapply (wp_finish_free m3 pl h3 P b3 z3 _ n2 wn2 L32 F3 0 Ho4); [done|done|done|done|done|].
  intros m4 h4 F4 Hh4 Hfr4 Hs4. eapply (HQ _ _ _ F4); [|exact Hh4| |].
  - exists P, pre, z, post, (n2 :: L32). split_and!; [by rewrite EP, EL2, <- app_assoc|done|done|].
    rewrite Eb3, Ez3, Ez2. do 3 f_equal. lia.
  - eapply mem_frame_trans; [exact Hfr1|]. eapply mem_frame_trans; [exact Hfr2|]. eapply mem_frame_trans; [exact Hfr3|].
    eapply mem_frame_mono; [|exact Hfr4]. intros a. pose proof (free_back n2 L32 post EL2) as Hback. rewrite EP in Hback. apply touch_used_but.
    + intros x Hx Hxb Hxf. pose proof (free_others n2 L32 post EL2 Hpost x Hx Hxb Hxf) as Hin. rewrite EP in Hin.
      apply elem_of_app in Hin as [Hin|Hin]; apply elem_of_app; [|by right]. apply elem_of_app in Hin as [?|Hin]; [by left|].
      destruct Hpre as [->|(p & -> & Hp)]; [by apply elem_of_nil in Hin|]. apply list_elem_of_singleton in Hin as ->. congruence.
    + intros x Hx. rewrite EP. apply Hback. apply elem_of_app in Hx as [Hx|Hx]; apply elem_of_app; [left; apply elem_of_app; by left|by right].
    + destruct Hpre as [->|(p & -> & Hp)]; rewrite Eb3; [apply free_here; lia|]. rewrite EP.
      assert (HpL : p ∈ (P ++ [p]) ++ mkBlk b z false :: L2) by (rewrite !elem_of_app, list_elem_of_singleton; auto).
      exists p. split; [done|]. split; [done|]. rewrite <- EP, EL in HpL.
      destruct (ig_size _ _ _ (geom_at _ _ (ga_geom _ _ _ _ _ (ho_gap _ _ _ _ _ _ _ _ _ _ Ho)) HpL)); lia.
  - eapply same_place_trans; [by apply same_place_tables|]. eapply same_place_trans; [exact Hs2|]. by eapply same_place_trans.
Qed.

Lemma wp_free_large (Q : unit -> hstate -> Prop) : heap m h L F -> z <> 0 ->
  (forall m' h' L' F', freed L L' b -> heap m' h' L' F' -> mem_frame (fun a => ~ used_but L b a) m m' -> same_place h h' ->
     Q tt (mkH m' pl h')) ->
  wp (k_mm_free_large (b + 8)) Q (mkH m pl h).
Proof using.
  intros Hh Hz HQ. destruct (heap_hole m h L1 (mkBlk b z false) L2 F Hh eq_refl Hz) as (n & L3 & EL & Ho). cbn [ba bz] in Ho.
  rewrite (word_flags n) in Ho. by eapply wp_free_hole.
Qed.
End free.
