(* ===== verification/MmRealloc.v ===== *)
(** * The heap: reallocating in place *)

From S2P Require Import Prelude Config Bitmap Mem MmBlk Mm MmClass MmList MmGeom MmHole MmAlloc.
From S2P Require Import MmFree.
Open Scope Z_scope.

(** ** Writes to the header behind the block *)

Section hole.
Context (m : mem) (pl : list Z) (h : k_mm_head) (L1 : list blk) (b z w : Z) (n : blk) (wn : Z) (L3 : list blk) (F : lists) (k : Z).
Context (Ho : hole m h L1 b z w n wn L3 F) (Hk : 0 <= k <= z).

Lemma hole_st_k w' : mem_frame (touch L1 b k n L3) m (<[mb_size b := w']> m).
Proof using Ho Hk.
  destruct (hole_facts _ _ _ _ _ _ _ _ _ _ Ho) as (En & Hz & Hb0 & Hb4 & _).
  eapply mid_st; [exact Ho|apply mem_frame_refl|unfold mb_size; lia|unfold mb_size; zlia|unfold mb_size; lia].
Qed.

Lemma hole_st_next a v : a = mb_size (ba n) \/ a = mb_prev (ba n) ->
  hole (<[a := v]> m) h L1 b z w n (if decide (a = mb_size (ba n)) then v else wn) L3 F /\
  mem_frame (touch L1 b k n L3) m (<[a := v]> m).
Proof using Ho Hk.
  intros Ha. destruct (hole_facts _ _ _ _ _ _ _ _ _ _ Ho) as (En & Hz & Hb0 & Hb4 & Hz4 & Hnr & _ & _ & Hna4 & _).
  assert (Har : b + 8 + z <= a < ba n + 8 /\ a mod 4 = 0) by (unfold mb_size, mb_prev in Ha; zlia).
  assert (Hf : mem_frame (touch L1 b k n L3) m (<[a := v]> m)).
  { eapply mid_st; [exact Ho|apply mem_frame_refl|lia|apply Har|lia]. }
  split; [|done]. destruct (hole_sides _ _ _ _ _ _ _ _ _ _ k Ho _ Hf) as (S1 & S2 & S3). split; try done; try apply Ho.
  - rewrite lookup_insert_ne by (unfold mb_size; lia). apply Ho.
  - case_decide as Hd; [rewrite Hd; by rewrite lookup_insert_eq|]. rewrite lookup_insert_ne by done. apply Ho.
  - eapply cover_frame; [exact Hf|apply Ho].
  - eapply lists_mid; [exact Ho|]. intros c Hc. apply lookup_insert_ne. lia.
Qed.

(** what is left behind [s] bytes of the block becomes a free block, when there
    is room for one *)
Lemma wp_realloc_rest s (Q : unit -> hstate -> Prop) :
  s mod 4 = 0 -> 8 <= s <= z -> k <= s -> bf n = false -> (wn = bz n \/ wn = bz n + 2) ->
  Z.land w 2 = 2 * Z.b2z (bool_decide (is_Some (pf_end None L1))) ->
  (z < s + 16 -> Q tt (mkH m pl h)) ->
  (s + 16 <= z -> forall m' h' F', heap m' h' (L1 ++ mkBlk b s false :: mkBlk (b + 8 + s) (z - s - 8) true :: n :: L3) F' ->
     mem_frame (touch L1 b k n L3) m m' -> same_place h h' -> Q tt (mkH m' pl h')) ->
  wp (realloc_rest b s (z - s) (ba n)) Q (mkH m pl h).
Proof using Ho Hk.
  intros Hs4 Hs Hks Hfn Hwn Hw HQ1 HQ2. destruct (hole_facts _ _ _ _ _ _ _ _ _ _ Ho) as (En & Hz & Hb0 & Hb4 & Hz4 & Hnr & _ & Hnz4 & Hna4 & Hne).
  unfold realloc_rest. change sizeof_k_mm_list_t with 16. destruct (Z.leb_spec 16 (z - s)) as [Hsp|]; [|apply wp_ret, HQ1; lia].
  cbv zeta. unfold NEXT_MM_BLK, mb_buffer. change MMLIST_HEAD_SIZE with 8. rewrite (u32_small (b + 8 + s)) by lia. set (b2 := b + 8 + s).
  assert (Hb24 : b2 mod 4 = 0) by (subst b2; zlia).
  assert (Hmid : forall a, b <= a < ba n + 8 -> a mod 4 = 0 -> is_Some (m !! a)) by (intros; by eapply some_mid).
  replace (Z.lor (Z.lor (z - s - 8) RHINO_MM_FREE) RHINO_MM_PREVALLOCED) with (z - s - 8 + 1).
  2: { change RHINO_MM_PREVALLOCED with 0. rewrite Z.lor_0_r. change RHINO_MM_FREE with 1. replace (z - s - 8) with (z - s - 8 + 0) at 2 by lia.
       rewrite flags_set by zlia. done. }
  apply wp_bind, wp_st; [apply Hmid; unfold mb_size; [lia|zlia]|].
  apply wp_bind, wp_st; [apply lookup_insert_is_Some'; right; apply Hmid; unfold mb_prev; [lia|zlia]|].
  pose proof (ho_wn _ _ _ _ _ _ _ _ _ _ Ho) as Hwn0. pose proof (ho_w _ _ _ _ _ _ _ _ _ _ Ho) as Hw0.
  apply wp_bind. eapply wp_ld; [rewrite !lookup_insert_ne by (unfold mb_size, mb_prev; lia); exact Hwn0|].
  apply wp_bind, wp_st; [do 2 (apply lookup_insert_is_Some'; right); by eexists|].
  set (mA := <[mb_size (ba n) := _]> _).
  assert (HAf : mem_frame (touch L1 b k n L3) m mA).
  { do 3 (eapply mid_st; [exact Ho| |unfold mb_size, mb_prev; lia|unfold mb_size, mb_prev; zlia|unfold mb_size, mb_prev; lia]). apply mem_frame_refl. }
  eapply (wp_finish_split m pl h L1 b z w n wn L3 F k Ho mA s (z - s - 8) w); try done; try lia.
  - intros a Ha. subst mA. rewrite !lookup_insert_ne; [done|unfold mb_size, mb_prev; lia..].
  - subst mA. rewrite !lookup_insert_ne by (unfold mb_size, mb_prev; lia). exact Hw0.
  - subst mA. rewrite !(lookup_insert_ne (M := gmap Z) _ (mb_size (ba n))), !(lookup_insert_ne (M := gmap Z) _ (mb_prev (ba n))) by (unfold mb_size, mb_prev; lia).
    by rewrite lookup_insert_eq.
  - subst mA. rewrite lookup_insert_eq. f_equal. change RHINO_MM_PREVFREE with 2.
    destruct Hwn as [-> | ->]; [replace (bz n) with (bz n + 0) at 1 by lia|]; rewrite flags_set by (done || lia); done.
  - subst mA. rewrite lookup_insert_ne by (unfold mb_size, mb_prev; lia). by rewrite lookup_insert_eq.
  - apply HQ2. lia.
Qed.
End hole.

(** [L'] is [L] with the block at [b] of [k] bytes now, [s] or what there was *)
Definition left_over (b k : Z) (rest : list blk) : Prop := rest = [] \/ exists r, 0 <= r /\ rest = [mkBlk (b + 8 + k) r true].

Definition resized (L L' : list blk) (b s k : Z) : Prop :=
  exists P z post rest S, L = P ++ mkBlk b z false :: post ++ S /\ neighbour post /\ left_over b k rest /\
    L' = P ++ mkBlk b k false :: rest ++ S /\ s <= k /\ k + extent rest = z + extent post.

Section realloc.
Context (m : mem) (pl : list Z) (h : k_mm_head) (L1 L2 : list blk) (F : lists) (b z s : Z).
Context (Hh : heap m h (L1 ++ mkBlk b z false :: L2) F) (Hz : z <> 0) (Hs : s mod 4 = 0 /\ 16 <= s < 2 ^ 32).

Abbreviation L := (L1 ++ mkBlk b z false :: L2).

(** what may be written: not the blocks in use, nor the contents kept *)
Definition realloc_touch (k a : Z) : Prop := ~ used_but L b a /\ ~ (b + 8 <= a < b + 8 + k).

Lemma touch_realloc b' k n1 L31 post a : L2 = post ++ n1 :: L31 -> neighbour post -> b' = b ->
  touch L1 b' k n1 L31 a -> realloc_touch k a.
Proof using Hh Hz.
  intros EL Hpost -> Ha. split.
  - revert Ha. apply touch_used_but; [by eapply free_others|by eapply free_back|]. apply free_here.
    destruct (ig_size _ _ _ (geom_at _ (mkBlk b z false) (he_geom _ _ _ _ Hh) ltac:(apply elem_of_app; right; left))) as [[E _]|E]; cbn in E; lia.
  - intros Hab. apply Ha. unfold kept. auto.
Qed.

Lemma flags_word z1 f pf : z1 mod 4 = 0 -> Z.land (z1 + flag_bits f pf) 2 = 2 * Z.b2z pf.
Proof using. intros H4. rewrite flags_land by (first [done|lia|apply flag_bits_range]). by destruct f, pf. Qed.

Lemma wp_realloc_in_place req (Q : Z -> hstate -> Prop) :
  2 <= req < 2 ^ 32 ->
  Q 0 (mkH m pl h) ->
  (forall k m' h' L' F', resized L L' b s k -> heap m' h' L' F' -> mem_frame (realloc_touch (Z.min z s)) m m' -> same_place h h' ->
     Q (b + 8) (mkH m' pl h')) ->
  wp (realloc_in_place b s req) Q (mkH m pl h).
Proof using Hh Hz Hs.
  intros Hreq HQ0 HQ1. destruct Hs as [Hs4 Hs16].
  destruct (heap_hole m h L1 (mkBlk b z false) L2 F Hh eq_refl Hz) as (n & L3 & EL & Ho). cbn [ba bz] in Ho.
  destruct (hole_facts _ _ _ _ _ _ _ _ _ _ Ho) as (En & Hzr & Hb0 & Hb4 & Hz4 & Hnr & Hnz & Hnz4 & Hna4 & Hne). change MAX_MM_SIZE with (2 ^ 20) in *.
  pose proof (ga_geom _ _ _ _ _ (ho_gap _ _ _ _ _ _ _ _ _ _ Ho)) as HG.
  assert (HnL : n ∈ L1 ++ mkBlk b z false :: n :: L3) by (apply elem_of_app; right; right; left).
  assert (Hend : forall k m' h1 h' L' F', resized L L' b s k -> heap m' h' L' F' -> mem_frame (realloc_touch (Z.min z s)) m m' ->
    same_place h h1 -> same_place h1 h' -> m' !! mb_size b = Some (word_of (mkBlk b k false) (pf_end None L1)) ->
    wp (bs ← ld (mb_size b); addsize (blksize bs + 8) req;; mret (b + 8)) Q (mkH m' pl h')).
  { intros k m' h1 h' L' F' Ht Hh' Hm' Hs1 Hs' Hw. apply wp_bind. eapply wp_ld; [exact Hw|]. apply wp_bind, wp_addsize; [done|].
    intros h2 Ht2. apply wp_ret. eapply (HQ1 k _ _ L' F'); [done| |done|].
    - destruct Hh'. split; try done. by eapply fl_rep_tables.
    - eapply same_place_trans; [exact Hs1|]. eapply same_place_trans; [done|by apply same_place_tables]. }
  assert (Hsplit : forall m' h' F' n1 L31, heap m' h' (L1 ++ mkBlk b s false :: n1 :: L31) F' ->
    m' !! mb_size b = Some (word_of (mkBlk b s false) (pf_end None L1))).
  { intros m' h' F' n1 L31 Hh'. pose proof (he_headers _ _ _ _ Hh') as Hhd. by apply headers_app in Hhd as (_ & Hw & _). }
  unfold realloc_in_place. apply wp_bind. eapply wp_ld; [apply Ho|]. cbv zeta. rewrite !word_flags. cbn [bz bf].
  pose proof (flag_bits_range false (bool_decide (is_Some (pf_end None L1)))) as Hfl. pose proof (flag_bits_range (bf n) (bool_decide (is_Some (@None Z)))) as Hfn.
  rewrite flags_size by lia. unfold NEXT_MM_BLK, mb_buffer. change MMLIST_HEAD_SIZE with 8. rewrite (u32_small (b + 8 + z)) by lia. rewrite <- En.
  apply wp_bind. eapply wp_ld; [apply Ho|]. rewrite !word_flags. change RHINO_MM_FREE with 1. rewrite flags_land, flags_size by (done || lia).
  assert (Ef : Z.land (flag_bits (bf n) (bool_decide (is_Some (@None Z)))) 1 = Z.b2z (bf n)) by by destruct (bf n). rewrite Ef.
  (* the block behind taken in *)
  assert (Habs : forall h1 (Q' : unit -> hstate -> Prop), bf n = true -> same_tables h h1 ->
    (forall m' h' F' n2 L4, L3 = n2 :: L4 -> bf n2 = false -> hole m' h' L1 b (z + 8 + bz n) (word_of (mkBlk b z false) (pf_end None L1)) n2 (word_of n2 (Some (ba n))) L4 F' ->
       m' !! mb_size (ba n) = Some (bz n + flag_bits (bf n) (bool_decide (is_Some (@None Z)))) -> mem_frame (realloc_touch (Z.min z s)) m m' -> same_place h1 h' -> Q' tt (mkH m' pl h')) ->
    wp (unlink_free (ba n) (bz n + flag_bits (bf n) (bool_decide (is_Some (@None Z))))) Q' (mkH m pl h1)).
  { intros h1 Q' Hnf Ht HQ'. pose proof (hole_tables _ _ _ _ _ _ _ _ _ _ Ho h1 Ht) as Ho1.
    eapply (wp_unlink_free m pl h1 L1 b z _ n _ L3 F Ho1); [done|done|apply flags_size; lia|].
    intros i j M1 M2 m' h' Ec EM Hr Hf Hsp.
    destruct (hole_absorb_next m h1 L1 b z _ n _ L3 F i j M1 M2 m' h' Hr Hf Ho1 Hnf Ec EM) as (n2 & L4 & E3 & Hfn2 & Ho2).
    pose proof (links_headers _ _ _ _ HG (ho_classes _ _ _ _ _ _ _ _ _ _ Ho) Hf n HnL) as [Ens _].
    rewrite (ho_wn _ _ _ _ _ _ _ _ _ _ Ho), word_flags in Ens.
    eapply HQ'; [done|done|exact Ho2|exact Ens| |done]. eapply mem_frame_mono; [|exact Hf]. intros a Ha.
    eapply (touch_realloc b _ n L3 []); [exact EL|by left|done|]. eapply touch_node; [apply Ho|apply Ho|lia|exact Ha]. }
  destruct (Z.leb_spec s z) as [Hsz|Hsz].
  - apply wp_bind, wp_removesize. intros h1 Ht1. rewrite Z.min_r in * by lia. destruct (bf n) eqn:Hnf; cbn [Z.b2z Z.eqb negb].
    + assert (Hn8 : 8 <= bz n < 2 ^ 20) by (destruct Hnz as [[_ ?]|]; [done|done]).
      apply wp_bind, wp_bind, Habs; [done|done|]. intros m2 h2 F2 n2 L4 -> Hfn2 Ho2 Ens Hf2 Hs2.
      apply wp_bind. eapply wp_ld; [exact Ens|]. apply wp_ret. cbv beta iota. rewrite flags_size by (done || lia).
      destruct (hole_facts _ _ _ _ _ _ _ _ _ _ Ho2) as (En2 & Hz2 & _ & _ & _ & Hnr2 & _).
      rewrite (u32_small (z + (bz n + 8))), (u32_small (ba n + 8 + bz n)) by lia.
      replace (z + (bz n + 8) - s) with (z + 8 + bz n - s) by lia. replace (ba n + 8 + bz n) with (ba n2) by lia.
      apply wp_bind. eapply (wp_realloc_rest m2 pl h2 L1 b _ _ n2 _ L4 F2 s Ho2); [lia|done|lia|lia|done| | |lia|].
      * right. by rewrite word_flags, Hfn2.
      * by rewrite word_flags, flags_word.
      * intros Hroom m3 h3 F3 Hh3 Hf3 Hs3. eapply (Hend s m3 h2); [|exact Hh3| |eapply same_place_trans; [by apply same_place_tables|done]|done|by eapply Hsplit].
        -- exists L1, z, [n], [mkBlk (b + 8 + s) (z + 8 + bz n - s - 8) true], (n2 :: L4).
           split_and!; [by rewrite EL|right; by exists n|right; exists (z + 8 + bz n - s - 8); split; [lia|done]|done|lia|cbn; lia].
        -- eapply mem_frame_trans; [exact Hf2|]. eapply mem_frame_mono; [|exact Hf3]. intros a Ha.
           eapply (touch_realloc b _ n2 L4 [n]); [by rewrite EL|right; by exists n|done|exact Ha].
    + apply wp_bind, wp_ret. cbv beta iota. apply wp_bind.
      eapply (wp_realloc_rest m pl h1 L1 b z _ n _ L3 F s (hole_tables _ _ _ _ _ _ _ _ _ _ Ho h1 Ht1)); [lia|done|lia|lia|done| | | |].
      * left. rewrite word_flags, Hnf. apply Z.add_0_r.
      * by rewrite word_flags, flags_word.
      * intros _. eapply (Hend z m h1 _ L F); [| |apply mem_frame_refl|by apply same_place_tables|done|apply Ho].
        -- exists L1, z, [], [], L2. split_and!; [done|by left|by left|done|lia|done].
        -- destruct Hh. split; try done. by eapply fl_rep_tables.
      * intros Hroom m3 h3 F3 Hh3 Hf3 Hs3. eapply (Hend s m3 h1); [|exact Hh3| |by apply same_place_tables|done|by eapply Hsplit].
        -- exists L1, z, [], [mkBlk (b + 8 + s) (z - s - 8) true], (n :: L3).
           split_and!; [by rewrite EL|by left|right; exists (z - s - 8); split; [lia|done]|done|lia|cbn; lia].
        -- eapply mem_frame_mono; [|exact Hf3]. intros a Ha. eapply (touch_realloc b _ n L3 []); [exact EL|by left|done|exact Ha].
  - rewrite Z.min_l in * by lia. destruct (bf n) eqn:Hnf; cbn [Z.b2z Z.eqb negb andb]; [|by apply wp_ret].
    assert (Hn8 : 8 <= bz n < 2 ^ 20) by (destruct Hnz as [[_ ?]|]; [done|done]). rewrite (u32_small (z + bz n)) by lia.
    destruct (Z.leb_spec s (z + bz n)) as [Hsn|]; [|by apply wp_ret].
    apply wp_bind, wp_removesize. intros h1 Ht1. apply wp_bind, Habs; [done|done|].
    intros m2 h2 F2 n2 L4 -> Hfn2 Ho2 Ens Hf2 Hs2. destruct (hole_facts _ _ _ _ _ _ _ _ _ _ Ho2) as (En2 & Hz2 & _ & _ & Hz24 & Hnr2 & _ & Hn2z4 & Hn2a4 & Hn2e).
    change MAX_MM_SIZE with (2 ^ 20) in *.
    apply wp_bind. eapply wp_ld; [apply Ho2|]. apply wp_bind. eapply wp_ld; [exact Ens|]. cbv zeta. rewrite word_flags. cbn [bz bf].
    rewrite flags_size by (done || lia). rewrite u32_small by lia.
    replace (z + flag_bits false (bool_decide (is_Some (pf_end None L1))) + (bz n + 8)) with (z + 8 + bz n + flag_bits false (bool_decide (is_Some (pf_end None L1)))) by lia.
    set (w2 := z + 8 + bz n + flag_bits _ _). set (z2 := z + 8 + bz n) in *.
    destruct (hole_st _ _ _ _ _ _ _ _ _ _ Ho2 w2) as [Ho3 _].
    pose proof (hole_st_k _ _ _ _ _ _ _ _ _ _ z Ho2 ltac:(lia) w2) as Hf3. set (m3 := <[_ := _]> m2) in *.
    apply wp_bind, wp_st; [eexists; apply Ho2|]. fold m3. subst w2. rewrite flags_size by lia. rewrite (u32_small (b + 8 + z2)) by lia. rewrite <- En2.
    destruct (hole_st_next _ _ _ _ _ _ _ _ _ _ z Ho3 ltac:(lia) (mb_prev (ba n2)) b ltac:(by right)) as [Ho4 Hf4].
    rewrite decide_False in Ho4 by (unfold mb_size, mb_prev; lia). set (m4 := <[_ := _]> m3) in *.
    apply wp_bind, wp_st; [eapply (some_mid _ _ _ _ _ _ _ _ _ _ Ho3); unfold mb_prev; [lia|zlia]|]. fold m4.
    apply wp_bind. eapply wp_ld; [apply Ho4|]. rewrite word_flags, Hfn2.
    assert (Ecl : Z.land (bz n2 + flag_bits false (bool_decide (is_Some (Some (ba n))))) (Z.lnot RHINO_MM_PREVFREE) = bz n2).
    { change RHINO_MM_PREVFREE with 2. rewrite flags_clear by done. apply Z.add_0_r. }
    rewrite Ecl.
    destruct (hole_st_next _ _ _ _ _ _ _ _ _ _ z Ho4 ltac:(lia) (mb_size (ba n2)) (bz n2) ltac:(by left)) as [Ho5 Hf5].
    rewrite decide_True in Ho5 by done. set (m5 := <[_ := _]> m4) in *.
    apply wp_bind, wp_st; [eexists; apply Ho4|]. fold m5.
    assert (Hto : forall m', mem_frame (touch L1 b z n2 L4) m5 m' -> mem_frame (realloc_touch z) m m').
    { intros m' Hm'. eapply mem_frame_trans; [exact Hf2|]. eapply mem_frame_mono.
      - intros a. apply (touch_realloc b z n2 L4 [n] a); [by rewrite EL|right; by exists n|done].
      - eapply mem_frame_trans; [exact Hf3|]. eapply mem_frame_trans; [exact Hf4|]. by eapply mem_frame_trans. }
    apply wp_bind. eapply (wp_realloc_rest m5 pl h2 L1 b _ _ n2 _ L4 F2 z Ho5); [lia|done|lia|lia|done|by left| | |].
    + by rewrite flags_word.
    + intros Hns. assert (Hw5 : m5 !! mb_size b = Some (word_of (mkBlk b z2 false) (pf_end None L1))).
      { rewrite (ho_w _ _ _ _ _ _ _ _ _ _ Ho5). by rewrite word_flags. }
      eapply (Hend z2 m5 h2); [| | |eapply same_place_trans; [by apply same_place_tables|done]|done|exact Hw5].
      * exists L1, z, [n], [], (n2 :: L4). split_and!; [by rewrite EL|right; by exists n|by left|done|lia|cbn; lia].
      * eapply (close_alloc m5 h2 L1 b z2 _ n2 _ L4 F2 z Ho5); [apply mem_frame_refl|exact Hw5| |apply Ho5].
        rewrite (ho_wn _ _ _ _ _ _ _ _ _ _ Ho5), word_flags, Hfn2. f_equal. symmetry. apply Z.add_0_r.
      * apply Hto, mem_frame_refl.
    + intros Hroom m6 h6 F6 Hh6 Hf6 Hs6. eapply (Hend s m6 h2); [|exact Hh6|by apply Hto|eapply same_place_trans; [by apply same_place_tables|done]|done|by eapply Hsplit].
      exists L1, z, [n], [mkBlk (b + 8 + s) (z2 - s - 8) true], (n2 :: L4).
      split_and!; [by rewrite EL|right; by exists n|right; exists (z2 - s - 8); split; [lia|done]|done|lia|cbn; lia].
Qed.
End realloc.
