(* ===== verification/MmRep.v ===== *)
(** * The heap: what its users see

    [mm_rep m h L A] relates the memory and the head to the live allocations,
    a map from pointers to sizes.  A live allocation is a block of [L], but the
    one of the region and the one that holds the pool of fixed blocks, or a block
    of that pool. *)

From S2P Require Import Prelude Config Bitmap Mem MmBlk Mm MmClass MmList MmGeom MmHole MmAlloc.
From S2P Require Import MmFree MmRealloc.
Open Scope Z_scope.

Definition POOL_BLOCKS : Z := RHINO_CONFIG_MM_TLF_BLK_SIZE / DEF_FIX_BLK_SIZE.
Definition POOL_BYTES : Z := RHINO_CONFIG_MM_TLF_BLK_SIZE + MM_ALIGN_UP sizeof_mblk_pool_t.

(** the pool of fixed blocks in the block at [fb] *)
Definition fb_pool (fb : Z) : Z := mb_buffer fb.
Definition fb_start (fb : Z) : Z := fb_pool fb + MM_ALIGN_UP sizeof_mblk_pool_t.

Record fixed_rep (m : mem) (L : list blk) (fb : Z) (P : list Z) : Prop := {
  fx_block : exists n, POOL_BYTES <= n /\ mkBlk fb n false ∈ L;
  fx_pool : pool_rep m (fb_pool fb) (fb_start fb) DEF_FIX_BLK_SIZE POOL_BLOCKS P
}.

(** a live allocation among the blocks, among the fixed blocks *)
Definition large (h : k_mm_head) (L : list blk) (p n : Z) : Prop :=
  mkBlk (p - 8) n false ∈ L /\ n <> 0 /\ p <> regioninfo h /\ p <> fb_pool (fixedmblk h).
Definition small (h : k_mm_head) (P : list Z) (p n : Z) : Prop :=
  fixedmblk h <> 0 /\ n = DEF_FIX_BLK_SIZE /\ ~ (p ∈ P) /\ exists i, 0 <= i < POOL_BLOCKS /\ p = fb_start (fixedmblk h) + i * DEF_FIX_BLK_SIZE.

Record mm_inv (m : mem) (h : k_mm_head) (L : list blk) (F : lists) (P : list Z) (A : gmap Z Z) : Prop := {
  mi_heap : heap m h L F;
  mi_region : exists k, mkBlk (regioninfo h - 8) k false ∈ L;
  mi_fixed : fixedmblk h <> 0 -> fixed_rep m L (fixedmblk h) P;
  mi_live : forall p n, A !! p = Some n <-> large h L p n \/ small h P p n
}.

Definition mm_rep (m : mem) (h : k_mm_head) (L : list blk) (A : gmap Z Z) : Prop := exists F P, mm_inv m h L F P A.

(** the contents of the live allocations, but those of [X] *)
Definition contents (A : gmap Z Z) (X : Z -> Prop) (m m' : mem) : Prop :=
  forall q k a, A !! q = Some k -> ~ X q -> q <= a < q + k -> m' !! a = m !! a.

#[local] Ltac consts := change MMLIST_HEAD_SIZE with 8 in *; change DEF_FIX_BLK_SIZE with 32 in *; change POOL_BLOCKS with 128 in *;
  change POOL_BYTES with 4128 in *; change (MM_ALIGN_UP sizeof_mblk_pool_t) with 32 in *; change sizeof_mblk_pool_t with 32 in *.
#[local] Ltac rep := unfold bend, pay, fb_start, fb_pool, mb_buffer, mb_size, mb_prev in *; consts; cbn [ba bz bf] in *; lia.

(** the words changed are of the heap, and the heap has not grown *)
Definition within (L L' : list blk) (m m' : mem) : Prop :=
  (forall a, ~ span L a -> m' !! a = m !! a) /\ (forall a, span L' a -> span L a).

Lemma within_trans L1 L2 L3 m1 m2 m3 : within L1 L2 m1 m2 -> within L2 L3 m2 m3 -> within L1 L3 m1 m3.
Proof.
  intros [A1 B1] [A2 B2]. split; [|auto]. intros a Ha. rewrite A2; [by apply A1|]. intros H. by apply Ha, B1.
Qed.

Lemma within_refl L m : within L L m m.
Proof. by split. Qed.

(** what an operation keeps: the live allocations but those of [X], and what
    is not the heap's *)
Definition keeps (A : gmap Z Z) (X : Z -> Prop) (L L' : list blk) (m m' : mem) : Prop :=
  contents A X m m' /\ within L L' m m'.

Lemma keeps_refl A X L m : keeps A X L L m m.
Proof. by split; [|apply within_refl]. Qed.

(** ** Writes inside an allocated block leave the heap *)

Lemma heap_frame m m' h L F x : heap m h L F -> x ∈ L -> bf x = false ->
  mem_frame (fun a => ba x + 8 <= a < bend x) m m' -> heap m' h L F.
Proof.
  intros [G1 G2 Hh Hcv Hr HF] Hx Hf Hm. split; try done.
  - eapply headers_frame; [|exact Hh]. intros y Hy.
    assert (Hout : forall a, hdr y a -> ~ (ba x + 8 <= a < bend x)).
    { intros a Ha. destruct (ig_len _ _ _ (geom_at _ _ G1 Hy)). unfold hdr in Ha. destruct (geom_apart _ _ _ G1 Hx Hy) as [->|[?|?]]; rep. }
    split; apply Hm, Hout; unfold hdr; auto.
  - by eapply cover_frame.
  - eapply fl_rep_frame; [|exact Hr]. intros a (y & Hy & Ha). apply Hm. apply (heap_node _ _ _ G1 HF) in Hy as (s & Hs).
    assert (8 <= s) by (destruct (ig_size _ _ _ (geom_at _ _ G1 Hs)) as [[_ ?]|]; [done|cbn in *; lia]).
    destruct (geom_apart _ _ _ G1 Hx Hs) as [->|[?|?]]; [done|unfold mb_fprev, mb_fnext in Ha; rep..].
Qed.

(** the pool depends on its structure and on its free blocks *)
Lemma pool_rep_frame m m' pool start size n P : pool_rep m pool start size n P ->
  (forall k, 0 <= k < 32 -> m' !! (pool + k) = m !! (pool + k)) -> (forall b, b ∈ P -> m' !! b = m !! b) -> pool_rep m' pool start size n P.
Proof.
  intros [P1 P2 P3 P4 P5 P6 P7 P8 P9 P10 P11] Hf Hb. unfold mp_obj_type, mp_blk_size, mp_blk_whole, mp_blk_avail, mp_avail_list in *.
  split; try done; unfold mp_obj_type, mp_blk_size, mp_blk_whole, mp_blk_avail, mp_avail_list; rewrite ?Hf by lia; try done.
  destruct P5 as (p & z & Hp & Hc). exists p, z. split; [done|]. by eapply chain_frame.
Qed.

Section rep.
Context (m : mem) (h : k_mm_head) (L : list blk) (F : lists) (P : list Z) (A : gmap Z Z).
Context (Hi : mm_inv m h L F P A).

Lemma large_in p n : large h L p n -> 0 < p /\ p mod 4 = 0 /\ 8 <= n /\ p + n < 2 ^ 32 /\ n mod 4 = 0.
Proof using Hi.
  intros (Hin & Hn & _). destruct (geom_at _ _ (he_geom _ _ _ _ (mi_heap _ _ _ _ _ _ Hi)) Hin) as [G1 G2 G3 [G4 G5] G6 G7].
  cbn in *. destruct G6 as [[? _]|]; [done|]. unfold bend in G7. consts. cbn in *. zlia.
Qed.

(** where the fixed blocks are *)
Lemma small_in p n : small h P p n -> n = 32 /\ fb_start (fixedmblk h) <= p /\ p + 32 <= fb_start (fixedmblk h) + 4096 /\
  fb_start (fixedmblk h) mod 4 = 0 /\ p mod 4 = 0 /\ 0 < p /\
  exists k, POOL_BYTES <= k /\ mkBlk (fixedmblk h) k false ∈ L.
Proof using Hi.
  intros (Hf & -> & _ & i & Hi' & ->). destruct (mi_fixed _ _ _ _ _ _ Hi Hf) as [(k & Hk & Hin) _].
  destruct (geom_at _ _ (he_geom _ _ _ _ (mi_heap _ _ _ _ _ _ Hi)) Hin) as [G1 G2 G3 [G4 G5] G6 G7]. cbn in *.
  assert (fb_start (fixedmblk h) mod 4 = 0) by (unfold fb_start, fb_pool, mb_buffer; consts; zlia).
  split_and!; try done; try rep; [|by exists k]. consts. zlia.
Qed.

Lemma large_small p n q k : large h L p n -> small h P q k -> p + n <= q \/ q + k <= p.
Proof using Hi.
  intros (Hin & Hn & _ & Hp) Hs. destruct (small_in q k Hs) as (-> & S1 & S2 & _ & _ & _ & x & Hx & Hxin).
  pose proof (he_geom _ _ _ _ (mi_heap _ _ _ _ _ _ Hi)) as HG.
  destruct (geom_apart _ _ _ HG Hin Hxin) as [E|[E|E]]; [|rep..].
  injection E as E _. exfalso. apply Hp. unfold fb_pool, mb_buffer. consts. lia.
Qed.

(** the live allocations are apart *)
Lemma live_apart p n q k : A !! p = Some n -> A !! q = Some k -> p <> q -> p + n <= q \/ q + k <= p.
Proof using Hi.
  intros Hp Hq Hne. apply (mi_live _ _ _ _ _ _ Hi) in Hp, Hq. destruct Hp as [Hp|Hp], Hq as [Hq|Hq].
  - destruct Hp as (Hp & _), Hq as (Hq & _).
    destruct (geom_apart _ _ _ (he_geom _ _ _ _ (mi_heap _ _ _ _ _ _ Hi)) Hp Hq) as [E|[E|E]]; [injection E as E _; lia|rep..].
  - by apply large_small.
  - destruct (large_small _ _ _ _ Hq Hp); lia.
  - destruct Hp as (_ & -> & _ & i & _ & ->), Hq as (_ & -> & _ & j & _ & ->). consts. lia.
Qed.

Lemma live_in p n : A !! p = Some n -> 0 < p /\ p mod 4 = 0 /\ 8 <= n /\ p + n < 2 ^ 32.
Proof using Hi.
  intros Hp. apply (mi_live _ _ _ _ _ _ Hi) in Hp as [Hp|Hp]; [by destruct (large_in _ _ Hp) as (? & ? & ? & ? & _)|].
  destruct (small_in _ _ Hp) as (-> & S1 & S2 & S3 & S4 & S5 & k & Hk & Hin).
  pose proof (ig_end _ _ _ (geom_at _ _ (he_geom _ _ _ _ (mi_heap _ _ _ _ _ _ Hi)) Hin)). split_and!; [done|done|lia|rep].
Qed.

(** an allocated block of the heap that holds a live allocation *)
Lemma live_block p n : A !! p = Some n -> exists x, x ∈ L /\ bf x = false /\ ba x + 8 <= p /\ p + n <= bend x.
Proof using Hi.
  intros Hp. apply (mi_live _ _ _ _ _ _ Hi) in Hp as [(Hin & _)|Hp]; [eexists; split; [exact Hin|]; split; [done|rep]|].
  destruct (small_in _ _ Hp) as (-> & S1 & S2 & S3 & S4 & S5 & k & Hk & Hin). eexists. split; [exact Hin|]. split; [done|rep].
Qed.

Lemma live_words p n a : A !! p = Some n -> p <= a < p + n -> a mod 4 = 0 -> is_Some (m !! a).
Proof using Hi.
  intros Hp Ha H4. destruct (live_block p n Hp) as (x & Hx & _ & H1 & H2).
  apply (he_cover _ _ _ _ (mi_heap _ _ _ _ _ _ Hi) x); [done|lia|done].
Qed.

Lemma live_used p n a : A !! p = Some n -> p <= a < p + n -> used L a.
Proof using Hi. intros Hp Ha. destruct (live_block p n Hp) as (x & Hx & Hf & H1 & H2). left. exists x. split; [done|]. split; [done|lia]. Qed.

Lemma live_span p n a : A !! p = Some n -> p <= a < p + n -> span L a.
Proof using Hi. intros Hp Ha. destruct (live_block p n Hp) as (x & Hx & Hf & H1 & H2). exists x, x. split_and!; [done|done|lia|lia]. Qed.

Lemma write_within p n c m' : A !! p = Some n -> c <= n -> mem_frame (fun a => p <= a < p + c) m m' -> within L L m m'.
Proof using Hi.
  intros Hp Hc Hf. split; [|done]. intros a Ha. apply Hf. intros Hr. apply Ha. eapply live_span; [exact Hp|lia].
Qed.

(** the users write to their memory *)
Lemma mm_write p n m' : A !! p = Some n -> mem_frame (fun a => p <= a < p + n) m m' -> mm_inv m' h L F P A.
Proof using Hi.
  intros Hp Hw. destruct (live_block p n Hp) as (x & Hx & Hf & H1 & H2). pose proof Hi as [Hh Hrg Hfx Hl].
  assert (Hm : mem_frame (fun a => ba x + 8 <= a < bend x) m m') by (eapply mem_frame_mono; [|exact Hw]; cbn; lia).
  split; [by eapply heap_frame|done| |done]. intros Hnz. destruct (Hfx Hnz) as [Hb Hpool]. split; [done|].
  pose proof Hp as Hpl. apply Hl in Hpl. eapply pool_rep_frame; [exact Hpool| |].
  - intros k Hk. apply Hw. intros Ha. destruct Hb as (kb & Hkb & Hin).
    destruct Hpl as [(Hpin & _ & _ & Hpp)|Hps]; [|destruct (small_in _ _ Hps) as (-> & S1 & S2 & _); rep].
    destruct (geom_apart _ _ _ (he_geom _ _ _ _ Hh) Hpin Hin) as [E|[E|E]]; [|rep..]. injection E as E _. apply Hpp. rep.
  - intros b Hb'. apply Hw. intros Ha. destruct (pr_blocks _ _ _ _ _ _ Hpool b Hb') as (i & Hib & Eb).
    destruct Hpl as [Hpl|Hps].
    + destruct Hb as (kb & Hkb & Hin). destruct Hpl as (Hpin & _ & _ & Hpp).
      destruct (geom_apart _ _ _ (he_geom _ _ _ _ Hh) Hpin Hin) as [E|[E|E]]; [|rep..]. injection E as E _. apply Hpp. rep.
    + destruct Hps as (_ & -> & Hnin & j & Hj & ->). consts. assert (i = j) as -> by lia. by rewrite <- Eb in Hnin.
Qed.
End rep.

(** ** The allocated blocks after an operation *)

Lemma taken_in L L' b s n : geom pos0 L -> taken L L' b s n ->
  (forall q k, mkBlk q k false ∈ L' <-> mkBlk q k false ∈ L \/ q = b /\ k = n) /\ s <= n /\
  (forall k, ~ (mkBlk b k false ∈ L)) /\ 0 < b /\ b mod 4 = 0.
Proof.
  intros HG (L1 & z & L2 & -> & Hs & H). assert (Hb : mkBlk b z true ∈ L1 ++ mkBlk b z true :: L2) by (apply elem_of_app; right; left).
  destruct (geom_at _ _ HG Hb) as [_ _ G3 [G4 _] _ _]. split_and!; [|lia| |done|done].
  - intros q k. destruct H as [(-> & _ & ->)|(-> & _ & ->)]; rewrite !elem_of_app, !elem_of_cons; naive_solver.
  - intros k Hk. by pose proof (geom_addr _ _ _ HG Hk Hb eq_refl).
Qed.

Lemma neighbour_free N x : neighbour N -> x ∈ N -> bf x = true.
Proof. intros [->|(p & -> & Hp)] Hx; [by apply elem_of_nil in Hx|by apply list_elem_of_singleton in Hx as ->]. Qed.

Lemma freed_in L L' b : geom pos0 L -> freed L L' b -> forall q k, mkBlk q k false ∈ L' <-> mkBlk q k false ∈ L /\ q <> b.
Proof.
  intros HG (P & pre & z & post & S & -> & Hpre & Hpost & ->) q k.
  assert (Hb : mkBlk b z false ∈ P ++ pre ++ mkBlk b z false :: post ++ S) by (rewrite !elem_of_app, elem_of_cons; auto).
  pose proof (neighbour_free pre (mkBlk q k false) Hpre) as N1. pose proof (neighbour_free post (mkBlk q k false) Hpost) as N2. cbn in N1, N2.
  split.
  - intros Hq. assert (Hq2 : mkBlk q k false ∈ P ++ pre ++ mkBlk b z false :: post ++ S).
    { rewrite !elem_of_app, !elem_of_cons, ?elem_of_app in *. naive_solver. }
    split; [done|]. intros ->. rewrite elem_of_app, elem_of_cons in Hq. destruct Hq as [Hq|[Hq|Hq]]; [|done|].
    + destruct (geom_order _ _ _ HG) as (O1 & _) || idtac. rewrite app_assoc in HG. destruct (geom_order _ _ _ HG) as (O1 & _).
      specialize (O1 (mkBlk b k false) ltac:(apply elem_of_app; by left)). rewrite <- app_assoc in HG.
      pose proof (ig_len _ _ _ (geom_at _ _ HG Hq2)). cbn in *. lia.
    + rewrite app_assoc in HG. destruct (geom_order _ _ _ HG) as (_ & O2 & _).
      specialize (O2 (mkBlk b k false) ltac:(apply elem_of_app; by right)). rewrite <- app_assoc in HG.
      pose proof (ig_len _ _ _ (geom_at _ _ HG Hb)). cbn in *. lia.
  - intros [Hq Hne]. rewrite !elem_of_app, !elem_of_cons, ?elem_of_app in *. naive_solver.
Qed.

Lemma resized_in L L' b s k : geom pos0 L -> resized L L' b s k ->
  (forall q j, mkBlk q j false ∈ L' <-> mkBlk q j false ∈ L /\ q <> b \/ q = b /\ j = k) /\ s <= k.
Proof.
  intros HG (P & z & post & rest & S & -> & Hpost & Hrest & -> & Hs & _). split; [|done]. intros q j.
  assert (Hb : mkBlk b z false ∈ P ++ mkBlk b z false :: post ++ S) by (apply elem_of_app; right; left).
  pose proof (neighbour_free post (mkBlk q j false) Hpost) as N1. assert (N2 : mkBlk q j false ∈ rest -> false = true) by (apply (neighbour_free rest (mkBlk q j false)); destruct Hrest as [->|(r & _ & ->)]; [by left|right; by eexists]). cbn in N1.
  split.
  - rewrite elem_of_app, elem_of_cons, elem_of_app. intros Hq.
    assert (Hc : q = b /\ j = k \/ mkBlk q j false ∈ P \/ mkBlk q j false ∈ S) by naive_solver.
    destruct Hc as [Hc|Hc]; [by right|left]. destruct (geom_order _ _ _ HG) as (O1 & O2 & _).
    assert (Hq2 : mkBlk q j false ∈ P ++ mkBlk b z false :: post ++ S) by (rewrite elem_of_app, elem_of_cons, elem_of_app; tauto).
    split; [done|]. intros ->. pose proof (ig_len _ _ _ (geom_at _ _ HG Hq2)). pose proof (ig_len _ _ _ (geom_at _ _ HG Hb)). cbn in *.
    destruct Hc as [Hc|Hc]; [specialize (O1 _ Hc)|specialize (O2 (mkBlk b j false) ltac:(apply elem_of_app; by right))]; cbn in *; lia.
  - rewrite !elem_of_app, !elem_of_cons, !elem_of_app. naive_solver.
Qed.

(** *** The heap does not grow *)

Lemma taken_span L L' b s n a : geom pos0 L -> taken L L' b s n -> 0 <= s -> span L' a -> span L a.
Proof.
  intros HG (L1 & z & L2 & -> & Hs & H) H0. apply span_incl. intros x Hx.
  assert (Hb : mkBlk b z true ∈ L1 ++ mkBlk b z true :: L2) by (apply elem_of_app; right; left).
  assert (Hc : x ∈ L1 ++ mkBlk b z true :: L2 \/ b <= ba x /\ bend x <= b + 8 + z).
  { destruct H as [(-> & _ & ->)|(-> & Hz & ->)]; rewrite elem_of_app, !elem_of_cons in Hx; change sizeof_k_mm_list_t with 16 in *.
    - destruct Hx as [?|[->|?]]; [left|right; geo|left]; rewrite elem_of_app, elem_of_cons; auto.
    - destruct Hx as [?|[->|[->|?]]]; [left|right; geo..|left]; rewrite elem_of_app, elem_of_cons; auto. }
  destruct Hc as [Hc|[H1 H2]]; [by apply span_same|]. split; exists (mkBlk b z true); (split; [done|]); [done|geo].
Qed.

(** the blocks of a run reach as far as their extent *)
Lemma extent_le L1 b z N S : geom pos0 (L1 ++ mkBlk b z false :: N ++ S) -> neighbour N ->
  exists y, y ∈ L1 ++ mkBlk b z false :: N ++ S /\ b + 8 + z + extent N <= bend y.
Proof.
  intros HG [->|(p & -> & Hp)].
  - exists (mkBlk b z false). split; [apply elem_of_app; right; left|]. cbn [extent foldr]. geo.
  - exists p. split; [apply elem_of_app; right; right; left|]. destruct (geom_order _ _ _ HG) as (_ & O & _).
    specialize (O p ltac:(left)). cbn [extent foldr]. geo.
Qed.

Lemma freed_span L L' b a : geom pos0 L -> freed L L' b -> span L' a -> span L a.
Proof.
  intros HG (P & pre & z & post & S & -> & Hpre & Hpost & ->). apply span_incl. intros x Hx.
  set (L := P ++ pre ++ mkBlk b z false :: post ++ S) in *.
  assert (EL : L = (P ++ pre) ++ mkBlk b z false :: post ++ S) by (subst L; by rewrite <- app_assoc).
  rewrite elem_of_app, elem_of_cons in Hx. destruct Hx as [Hx|[->|Hx]].
  - apply span_same. subst L. apply elem_of_app. by left.
  - pose proof HG as HG2. rewrite EL in HG2. destruct (extent_le _ _ _ _ _ HG2 Hpost) as (y & Hy & Hye). rewrite <- EL in Hy.
    assert (Hb : mkBlk b z false ∈ L) by (rewrite EL; apply elem_of_app; right; left).
    destruct Hpre as [->|(p & -> & Hp)]; cbn [fmap list_fmap hd extent foldr].
    + split; [exists (mkBlk b z false); split; [done|]; done|exists y; split; [done|geo]].
    + assert (HpL : p ∈ L) by (subst L; rewrite !elem_of_app, list_elem_of_singleton; auto).
      destruct (geom_order _ _ _ HG2) as (O & _). specialize (O p ltac:(apply elem_of_app; right; left)).
      split; [exists p; split; [done|done]|exists y; split; [done|geo]].
  - apply span_same. rewrite EL. apply elem_of_app. right. right. apply elem_of_app. by right.
Qed.

Lemma resized_span L L' b s k a : geom pos0 L -> resized L L' b s k -> 0 <= s -> span L' a -> span L a.
Proof.
  intros HG (P & z & post & rest & S & -> & Hpost & Hrest & -> & Hs & Hk) H0. apply span_incl. intros x Hx.
  destruct (extent_le _ _ _ _ _ HG Hpost) as (y & Hy & Hye).
  assert (Hb : mkBlk b z false ∈ P ++ mkBlk b z false :: post ++ S) by (apply elem_of_app; right; left).
  rewrite elem_of_app, elem_of_cons, elem_of_app in Hx.
  assert (Hc : x ∈ P ++ mkBlk b z false :: post ++ S \/ b <= ba x /\ bend x <= b + 8 + z + extent post).
  { destruct Hx as [?|[->|[Hx|?]]]; [left; apply elem_of_app; by left|right| |left; rewrite elem_of_app, elem_of_cons, elem_of_app; auto].
    - destruct Hrest as [->|(r & Hr & ->)]; cbn [extent foldr] in Hk; geo.
    - right. destruct Hrest as [->|(r & Hr & ->)]; [by apply elem_of_nil in Hx|]. apply list_elem_of_singleton in Hx as ->. cbn [extent foldr bz] in Hk. geo. }
  destruct Hc as [Hc|[H1 H2]]; [by apply span_same|]. split; [exists (mkBlk b z false); by split|]. exists y. split; [done|lia].
Qed.

(** ** The user's view after an operation on the blocks *)

Section update.
Context (m : mem) (h : k_mm_head) (L : list blk) (F : lists) (P : list Z) (A : gmap Z Z).
Context (Hi : mm_inv m h L F P A).

(** the pool of fixed blocks keeps its bytes *)
Lemma fixed_keep m' L' b : same_place h h -> (forall q k, q <> b -> mkBlk q k false ∈ L -> mkBlk q k false ∈ L') -> b <> fixedmblk h ->
  (forall a, used_but L b a -> m' !! a = m !! a) -> fixedmblk h <> 0 -> fixed_rep m' L' (fixedmblk h) P.
Proof using Hi.
  intros _ HL Hb Hm Hnz. destruct (mi_fixed _ _ _ _ _ _ Hi Hnz) as [(k & Hk & Hin) Hpool]. split; [exists k; auto|].
  assert (Hpay : forall a, fixedmblk h + 8 <= a < fixedmblk h + 8 + k -> m' !! a = m !! a).
  { intros a Ha. apply Hm. left. eexists. split; [exact Hin|]. split; [done|]. split; [done|rep]. }
  eapply pool_rep_frame; [exact Hpool| |].
  - intros j Hj. apply Hpay. rep.
  - intros x Hx. apply Hpay. destruct (pr_blocks _ _ _ _ _ _ Hpool x Hx) as (i & Hi' & ->). rep.
Qed.

Lemma same_place_live h' p n : same_place h h' -> (small h' P p n <-> small h P p n).
Proof using. intros [_ E]. unfold small. by rewrite E. Qed.

(** the address of a block that is not allocated *)
Lemma free_addr_not_live b z n : mkBlk b z true ∈ L -> A !! (b + 8) = Some n -> False.
Proof using Hi.
  intros Hb Hk. pose proof (he_geom _ _ _ _ (mi_heap _ _ _ _ _ _ Hi)) as HG.
  apply (mi_live _ _ _ _ _ _ Hi) in Hk as [(Hk & _)|Hk].
  - replace (b + 8 - 8) with b in Hk by lia. by pose proof (geom_addr _ _ _ HG Hk Hb eq_refl).
  - destruct (small_in _ _ _ _ _ _ Hi _ _ Hk) as (_ & S1 & S2 & _ & _ & _ & j & Hj & Hin).
    destruct (ig_size _ _ _ (geom_at _ _ HG Hb)) as [[_ ?]|]; [done|].
    destruct (geom_apart _ _ _ HG Hb Hin) as [|[E|E]]; [done|rep..].
Qed.

Lemma alloc_inv m' h' L' F' b s n : taken L L' b s n -> 8 <= s -> heap m' h' L' F' -> mem_frame (fun a => ~ used L a) m m' -> same_place h h' ->
  mm_inv m' h' L' F' P (<[b + 8 := n]> A) /\ A !! (b + 8) = None /\ s <= n /\ keeps A (fun _ => False) L L' m m' /\ b + 8 <> 0.
Proof using Hi.
  intros Ht Hs8 Hh' Hf Hs. pose proof Hs as [E1 E2]. pose proof (he_geom _ _ _ _ (mi_heap _ _ _ _ _ _ Hi)) as HG.
  destruct (taken_in _ _ _ _ _ HG Ht) as (HL & Hsn & Hnb & Hb0 & Hb4). destruct (mi_region _ _ _ _ _ _ Hi) as (kr & Hr).
  assert (HA : A !! (b + 8) = None).
  { apply eq_None_not_Some. intros [k Hk]. destruct Ht as (L1 & z & L2 & EL & _). eapply (free_addr_not_live b z k); [|done].
    rewrite EL. apply elem_of_app. right. left. }
  assert (Hfb : fixedmblk h <> b).
  { intros <-. destruct (mi_fixed _ _ _ _ _ _ Hi ltac:(lia)) as [(k & _ & Hin) _]. by apply (Hnb k). }
  assert (Hrb : regioninfo h <> b + 8) by (intros E; apply (Hnb kr); by replace b with (regioninfo h - 8) by lia).
  split_and!; [|done|done| |lia].
  - split; [done| | |].
    + exists kr. apply HL. left. by rewrite E1.
    + rewrite E2. apply fixed_keep with b; [done| |done|].
      * intros q k _ Hq. apply HL. by left.
      * intros a [(x & Hx & _ & Hp)|Hsp]; apply Hf; intros Hn; apply Hn; [left; by exists x|by right].
    + intros p k. rewrite (same_place_live h') by done. rewrite lookup_insert_Some, (mi_live _ _ _ _ _ _ Hi). unfold large. rewrite E1, E2, HL. split.
      * intros [[<- <-]|[Hne [(Hin & Hk & H1 & H2)|Hsm]]]; [|left; tauto|by right].
        left. split_and!; [right; split; lia|lia|done|]. unfold fb_pool, mb_buffer. consts. lia.
      * intros [([Hin|[E En]] & Hk & H1 & H2)|Hsm].
        -- right. split; [|left; tauto]. intros <-. apply (Hnb k). by replace (b + 8 - 8) with b in Hin by lia.
        -- left. split; [lia|done].
        -- right. split; [|by right]. intros <-. assert (Hsm' : A !! (b + 8) = Some k) by (apply (mi_live _ _ _ _ _ _ Hi); by right). congruence.
  - split; [|split].
    + intros q k a Hq _ Ha. apply Hf. intros Hn. apply Hn. by eapply live_used.
    + intros a Ha. apply Hf. intros Hn. apply Hn. by right.
    + intros a. eapply taken_span; [done|done|lia].
Qed.

(** the other live allocations lie in other blocks *)
Lemma live_used_but b z q k a : large h L (b + 8) z -> A !! q = Some k -> q <> b + 8 -> q <= a < q + k -> used_but L b a.
Proof using Hi.
  intros Hl Hq Hne Ha. pose proof (he_geom _ _ _ _ (mi_heap _ _ _ _ _ _ Hi)) as HG.
  assert (Hlive : A !! (b + 8) = Some z) by (apply (mi_live _ _ _ _ _ _ Hi); by left).
  destruct (live_block _ _ _ _ _ _ Hi q k Hq) as (x & Hx & Hf & H1 & H2). left. exists x. split; [done|]. split; [|split; [done|lia]].
  intros Ex. destruct Hl as (Hb & _). replace (b + 8 - 8) with b in Hb by lia.
  pose proof (geom_addr _ _ _ HG Hx Hb Ex) as ->. destruct (live_in _ _ _ _ _ _ Hi q k Hq) as (_ & _ & ? & _).
  destruct (live_apart _ _ _ _ _ _ Hi q k (b + 8) z Hq Hlive Hne); rep.
Qed.

(** the live allocations after the block at [b] was given back or changed *)
Lemma other_inv m' h' L' F' b z (k : option Z) : large h L (b + 8) z -> heap m' h' L' F' ->
  (forall q j, mkBlk q j false ∈ L' <-> mkBlk q j false ∈ L /\ q <> b \/ q = b /\ k = Some j) ->
  (forall j, k = Some j -> j <> 0) -> (forall a, used_but L b a -> m' !! a = m !! a) -> same_place h h' ->
  mm_inv m' h' L' F' P (match k with Some j => <[b + 8 := j]> A | None => delete (b + 8) A end).
Proof using Hi.
  intros Hlb Hh' HL Hk0 Hf Hs. pose proof Hs as [E1 E2]. destruct (mi_region _ _ _ _ _ _ Hi) as (kr & Hr).
  pose proof Hlb as (_ & _ & Hbr & Hbf). assert (Hfb : b <> fixedmblk h) by (intros ->; by apply Hbf).
  assert (Hnsm : forall j, ~ small h P (b + 8) j).
  { intros j Hsm. destruct (large_in _ _ _ _ _ _ Hi _ _ Hlb) as (_ & _ & ? & _). destruct (small_in _ _ _ _ _ _ Hi _ _ Hsm) as (-> & _).
    destruct (large_small _ _ _ _ _ _ Hi _ _ _ _ Hlb Hsm); lia. }
  assert (Hlg : forall p j, p <> b + 8 -> large h' L' p j <-> large h L p j).
  { intros p j Hp. unfold large. rewrite E1, E2, HL. split.
    - intros ([[Hin _]|[? _]] & ?); [tauto|lia].
    - intros (Hin & ?). split; [left; split; [done|lia]|tauto]. }
  split; [done| | |].
  - exists kr. apply HL. rewrite E1. left. split; [done|lia].
  - rewrite E2. apply fixed_keep with b; [done| |done|done]. intros q j Hq Hin. apply HL. by left.
  - intros p j. rewrite (same_place_live h') by done. destruct (decide (p = b + 8)) as [->|Hne].
    + assert (Elk : match k with Some j0 => <[b + 8 := j0]> A | None => delete (b + 8) A end !! (b + 8) = k).
      { destruct k; [apply lookup_insert_eq|apply lookup_delete_eq]. }
      rewrite Elk. split.
      * intros ->. left. split_and!; [apply HL; right; split; [lia|done]|by apply Hk0|by rewrite E1|by rewrite E2].
      * intros [(Hin & _)|Hsm]; [|by apply Hnsm in Hsm]. apply HL in Hin as [[_ ?]|[_ ?]]; [lia|done].
    + rewrite Hlg by done. rewrite <- (mi_live _ _ _ _ _ _ Hi).
      destruct k; [by rewrite lookup_insert_ne|by rewrite lookup_delete_ne].
Qed.

Lemma free_inv m' h' L' F' b z : freed L L' b -> large h L (b + 8) z -> heap m' h' L' F' ->
  mem_frame (fun a => ~ used_but L b a) m m' -> same_place h h' ->
  mm_inv m' h' L' F' P (delete (b + 8) A) /\ keeps A (fun q => q = b + 8) L L' m m'.
Proof using Hi.
  intros Hfr Hlb Hh' Hf Hs. pose proof (freed_in _ _ _ (he_geom _ _ _ _ (mi_heap _ _ _ _ _ _ Hi)) Hfr) as HL.
  assert (Hu : forall a, used_but L b a -> m' !! a = m !! a) by (intros a Ha; apply Hf; tauto). split.
  - apply (other_inv m' h' L' F' b z None); try done. intros q j. rewrite HL. split; [by left|]. intros [?|[_ ?]]; done.
  - split; [|split].
    + intros q k a Hq Hne Ha. apply Hu. by eapply live_used_but.
    + intros a Ha. apply Hu. by right.
    + intros a. apply (freed_span _ _ b); [apply Hi|done].
Qed.

Lemma resize_inv m' h' L' F' b z s k : resized L L' b s k -> 8 <= s -> large h L (b + 8) z -> heap m' h' L' F' ->
  mem_frame (fun a => ~ used_but L b a /\ ~ (b + 8 <= a < b + 8 + Z.min z s)) m m' -> same_place h h' ->
  mm_inv m' h' L' F' P (<[b + 8 := k]> A) /\ keeps A (fun q => q = b + 8) L L' m m' /\ s <= k /\
  forall a, b + 8 <= a < b + 8 + Z.min z s -> m' !! a = m !! a.
Proof using Hi.
  intros Hre Hs8 Hlb Hh' Hf Hs. destruct (resized_in _ _ _ _ _ (he_geom _ _ _ _ (mi_heap _ _ _ _ _ _ Hi)) Hre) as [HL Hsk].
  assert (Hu : forall a, used_but L b a -> m' !! a = m !! a) by (intros a Ha; apply Hf; tauto).
  split_and!; [| |done|intros a Ha; apply Hf; tauto].
  2: { split; [|split].
    - intros q j a Hq Hne Ha. apply Hu. by eapply live_used_but.
    - intros a Ha. apply Hu. by right.
    - intros a. eapply resized_span; [apply Hi|done|lia]. }
  apply (other_inv m' h' L' F' b z (Some k)); try done; [|intros j [= <-]; lia].
  intros q j. rewrite HL. split; (intros [?|[? E]]; [by left|right; split; [done|congruence]]).
Qed.

(** ** The fixed blocks *)

(** the heap and the other live allocations after the pool changed *)
Lemma pool_inv m' h' P' (x : Z) (k : option Z) :
  fixedmblk h <> 0 -> (exists i, 0 <= i < POOL_BLOCKS /\ x = fb_start (fixedmblk h) + i * DEF_FIX_BLK_SIZE) ->
  pool_rep m' (fb_pool (fixedmblk h)) (fb_start (fixedmblk h)) DEF_FIX_BLK_SIZE POOL_BLOCKS P' ->
  mem_frame (fun a => pool_fields (fb_pool (fixedmblk h)) a \/ a = x) m m' -> same_tables h h' ->
  (forall y, y ∈ P' <-> y ∈ P /\ y <> x \/ y = x /\ k = None) -> (k = None \/ k = Some DEF_FIX_BLK_SIZE) ->
  mm_inv m' h' L F P' (match k with Some j => <[x := j]> A | None => delete x A end) /\ keeps A (fun q => q = x) L L m m'.
Proof using Hi.
  intros Hnz (i & Hi' & Ex) Hpool Hf Ht HP Hk. destruct (mi_fixed _ _ _ _ _ _ Hi Hnz) as [(kb & Hkb & Hin) Hp0].
  destruct Ht as (T1 & T2 & T3 & E1 & E2).
  assert (Hmf : mem_frame (fun a => fixedmblk h + 8 <= a < fixedmblk h + 8 + kb) m m').
  { eapply mem_frame_mono; [|exact Hf]. intros a [[-> | ->]| ->]; unfold mp_blk_avail, mp_avail_list; rep. }
  assert (Hh' : heap m' h' L F).
  { assert (Hh1 : heap m' h L F) by (eapply heap_frame; [apply Hi|exact Hin|done|exact Hmf]). destruct Hh1. split; try done. by eapply fl_rep_tables. }
  assert (Hnl : forall j, ~ large h L x j).
  { intros j (Hl & _ & _ & Hne). pose proof (he_geom _ _ _ _ (mi_heap _ _ _ _ _ _ Hi)) as HG.
    destruct (ig_size _ _ _ (geom_at _ _ HG Hl)) as [[Ej _]|Ej]; cbn in Ej; (destruct (geom_apart _ _ _ HG Hl Hin) as [E|[E|E]]; [injection E as E _; apply Hne; rep|rep..]). }
  split.
  - split; [done|by rewrite E1; apply Hi| |].
    + rewrite E2. intros _. split; [by exists kb|done].
    + intros p j. unfold large, small. rewrite E1, E2. fold (large h L p j).
      assert (Elk : match k with Some j0 => <[x := j0]> A | None => delete x A end !! p = if decide (p = x) then k else A !! p).
      { case_decide as Hd; [subst p; destruct k; [apply lookup_insert_eq|apply lookup_delete_eq]|].
        destruct k; [by rewrite lookup_insert_ne|by rewrite lookup_delete_ne]. }
      rewrite Elk. case_decide as Hd.
      * subst p. split.
        -- intros ->. right. destruct Hk as [|[= ->]]; [done|]. split_and!; [done|done| |by exists i].
           rewrite HP. intros [[_ ?]|[_ ?]]; done.
        -- intros [Hl|(_ & -> & Hn & _)]; [by apply Hnl in Hl|]. rewrite HP in Hn. destruct Hk as [->|]; [|done]. exfalso. apply Hn. by right.
      * rewrite (mi_live _ _ _ _ _ _ Hi). unfold small. rewrite HP. naive_solver.
  - split.
    2: { split; [|done]. intros a Ha. apply Hmf. intros Hp. apply Ha. exists (mkBlk (fixedmblk h) kb false), (mkBlk (fixedmblk h) kb false).
         split_and!; [done|done|rep|rep]. }
    intros q j a Hq Hne Ha. apply Hf. intros [Hpf| ->].
    + assert (Hpa : fixedmblk h + 8 <= a < fixedmblk h + 40) by (destruct Hpf as [-> | ->]; unfold mp_blk_avail, mp_avail_list; rep).
      apply (mi_live _ _ _ _ _ _ Hi) in Hq as [(Hl & _ & _ & Hq)|Hsm]; [|destruct (small_in _ _ _ _ _ _ Hi _ _ Hsm) as (-> & ? & _); rep].
      destruct (geom_apart _ _ _ (he_geom _ _ _ _ (mi_heap _ _ _ _ _ _ Hi)) Hl Hin) as [E|[E|E]]; [injection E as E _; apply Hq; rep|rep..].
    + apply (mi_live _ _ _ _ _ _ Hi) in Hq as [(Hl & _ & _ & Hq)|(_ & -> & _ & i2 & ? & ->)]; [|rep].
      destruct (geom_apart _ _ _ (he_geom _ _ _ _ (mi_heap _ _ _ _ _ _ Hi)) Hl Hin) as [E|[E|E]]; [injection E as E _; apply Hq; rep|rep..].
Qed.
End update.

(** ** The operations *)

Lemma block_word m h L F x : heap m h L F -> x ∈ L -> exists pf, m !! mb_size (ba x) = Some (word_of x pf).
Proof.
  intros Hh Hx. apply list_elem_of_split in Hx as (L1 & L2 & ->). pose proof (he_headers _ _ _ _ Hh) as Hd.
  apply headers_app in Hd as (_ & Hw & _). by eexists.
Qed.

Section ops.
Context (m : mem) (pl : list Z) (h : k_mm_head) (L : list blk) (A : gmap Z Z) (mh : Z).
Context (Hr : mm_rep m h L A) (Hmh : mh <> 0).

Lemma wp_k_mm_alloc size (Q : Z -> hstate -> Prop) : 2 <= size <= 0xFC000000 ->
  (no_fit L (room size) -> Q 0 (mkH m pl h)) ->
  (forall p n m' h' L', A !! p = None -> p <> 0 -> size <= n -> mm_rep m' h' L' (<[p := n]> A) -> keeps A (fun _ => False) L L' m m' ->
     same_place h h' -> (DEF_FIX_BLK_SIZE < size -> good_fit L (p - 8) (room size)) -> Q p (mkH m' pl h')) ->
  wp (k_mm_alloc mh size) Q (mkH m pl h).
Proof using Hr Hmh.
  intros Hs HQ0 HQ1. destruct Hr as (F & P & Hi). unfold k_mm_alloc. rewrite !(proj2 (Z.eqb_neq _ _)) by lia.
  apply wp_bind, wp_gets. cbn [mmhead].
  assert (Hlarge : wp (k_mm_alloc_large size size) Q (mkH m pl h)).
  { eapply (wp_alloc_large m pl h L F (mi_heap _ _ _ _ _ _ Hi)); [lia|lia|done|]. intros b n m' h' L' F' Hgf Ht Hh' Hf Hsp.
    assert (Hrs : size <= room size /\ 8 <= room size) by (unfold room; change AOS_MM_TLF_ALLOC_MIN_LENGTH with 8; zlia).
    destruct (alloc_inv _ _ _ _ _ _ Hi m' h' L' F' b _ n Ht ltac:(lia) Hh' Hf Hsp) as (Hi' & HA & Hn & Hc & Hnz).
    eapply (HQ1 _ n); [done|done|lia| |done|done|intros _; by replace (b + 8 - 8) with b by lia]. by exists F', P. }
  destruct (Z.eqb_spec (fixedmblk h) 0) as [Hf0|Hfn].
  { apply wp_bind, wp_ret. cbn [Z.ltb Z.compare]. apply wp_bind, wp_ret. cbn [Z.eqb negb]. exact Hlarge. }
  destruct (mi_fixed _ _ _ _ _ _ Hi Hfn) as [Hblk Hpool].
  destruct (Z.leb_spec size DEF_FIX_BLK_SIZE) as [Hsm|Hbig].
  2: { apply wp_bind, wp_ret. cbn [Z.ltb Z.compare]. apply wp_bind, wp_ret. cbn [Z.eqb negb]. exact Hlarge. }
  apply wp_bind. eapply wp_ld; [apply Hpool|]. apply wp_bind. destruct (Z.ltb_spec 0 (Z.of_nat (length P))) as [Hav|Hno].
  - unfold k_mm_smallblk_alloc. rewrite (proj2 (Z.eqb_neq _ _)) by done. apply wp_bind, wp_gets. cbn [mmhead]. apply wp_bind.
    eapply (wp_mblk_alloc m pl h _ _ _ _ P Hpool); [intros ->; cbn in Hav; lia|]. intros b P' m' EP Hpool' Hfr. cbv beta iota.
    rewrite bool_decide_true by done. cbn [negb lift]. apply wp_bind, wp_ret. apply wp_bind, wp_addsize; [lia|]. intros h' Ht. apply wp_ret.
    assert (Hb : exists i, 0 <= i < POOL_BLOCKS /\ b = fb_start (fixedmblk h) + i * DEF_FIX_BLK_SIZE) by (apply (pr_blocks _ _ _ _ _ _ Hpool); rewrite EP; left).
    pose proof (pr_nodup _ _ _ _ _ _ Hpool) as Hnd. rewrite EP in Hnd. apply NoDup_cons in Hnd as [Hbn _].
    destruct (pool_inv _ _ _ _ _ _ Hi m' h' P' b (Some DEF_FIX_BLK_SIZE) Hfn Hb Hpool') as [Hi' Hc]; [|done| |by right|].
    { eapply mem_frame_mono; [|exact Hfr]. auto. }
    { intros y. rewrite EP, elem_of_cons. naive_solver. }
    assert (HA : A !! b = None).
    { apply eq_None_not_Some. intros [k Hk]. apply (mi_live _ _ _ _ _ _ Hi) in Hk as [Hl|(_ & _ & Hn & _)]; [|apply Hn; rewrite EP; left].
      destruct Hb as (i & Hib & Eb). destruct Hblk as (kb & Hkb & Hin). destruct Hl as (Hlin & _ & _ & Hne).
      pose proof (he_geom _ _ _ _ (mi_heap _ _ _ _ _ _ Hi)) as HG. pose proof (ig_size _ _ _ (geom_at _ _ HG Hlin)) as Hsz.
      destruct (geom_apart _ _ _ HG Hlin Hin) as [E|[E|E]]; [injection E as E _; apply Hne; rep|rep..]. }
    assert (Hb0 : b <> 0). { destruct Hb as (i & Hib & ->). pose proof (pr_null _ _ _ _ _ _ Hpool). consts. lia. }
    rewrite (proj2 (Z.eqb_neq b 0)) by done. cbn [negb]. apply wp_ret. eapply (HQ1 _ DEF_FIX_BLK_SIZE); [done|done| | | |by apply same_place_tables|lia].
    + exact Hsm.
    + by exists F, P'.
    + split; [|apply Hc]. intros q k a Hq _ Ha. apply (proj1 Hc q k a Hq); [|done]. intros ->. congruence.
  - apply wp_ret. cbn [Z.eqb negb]. exact Hlarge.
Qed.

(** a live allocation is recognised *)
Lemma wp_ISFIXEDBLK F P p n (Q : bool -> hstate -> Prop) : mm_inv m h L F P A -> A !! p = Some n ->
  (large h L p n -> Q false (mkH m pl h)) -> (small h P p n -> Q true (mkH m pl h)) ->
  wp (ISFIXEDBLK (fixedmblk h) p) Q (mkH m pl h).
Proof using.
  intros Hi Hp HQl HQs. apply (mi_live _ _ _ _ _ _ Hi) in Hp. unfold ISFIXEDBLK.
  destruct (Z.eqb_spec (fixedmblk h) 0) as [Hf0|Hfn]; [apply wp_ret; destruct Hp as [Hl|(Hnz & _)]; [by apply HQl|done]|].
  destruct (mi_fixed _ _ _ _ _ _ Hi Hfn) as [(kb & Hkb & Hin) Hpool]. destruct (block_word _ _ _ _ _ (mi_heap _ _ _ _ _ _ Hi) Hin) as [pf Hw].
  apply wp_bind. eapply wp_ld; [exact Hw|]. rewrite word_flags. cbn [bz bf]. pose proof (he_geom _ _ _ _ (mi_heap _ _ _ _ _ _ Hi)) as HG.
  pose proof (geom_at _ _ HG Hin) as [G1 G2 G3 [G4 G5] G6 G7]. cbn [ba bz bf] in *.
  assert (Hfl : 0 <= flag_bits false (bool_decide (is_Some pf)) <= 2) by by destruct (bool_decide (is_Some pf)).
  rewrite u32_small by (unfold bend, mb_buffer in *; consts; cbn [ba bz] in *; zlia).
  apply wp_ret. destruct Hp as [Hl|Hs].
  - replace (_ && _) with false; [by apply HQl|]. symmetry. apply andb_false_iff. rewrite !Z.ltb_ge.
    destruct Hl as (Hlin & Hn & _ & Hne). destruct (ig_align _ _ _ (geom_at _ _ HG Hlin)) as [A1 _]. cbn in A1.
    pose proof (ig_size _ _ _ (geom_at _ _ HG Hlin)) as Hsz.
    destruct (geom_apart _ _ _ HG Hlin Hin) as [E|[E|E]]; [injection E as E _; exfalso; apply Hne; rep|left|right]; rep.
  - replace (_ && _) with true; [by apply HQs|]. symmetry. apply andb_true_iff. rewrite !Z.ltb_lt.
    destruct (small_in _ _ _ _ _ _ Hi _ _ Hs) as (-> & S1 & S2 & _). rep.
Qed.

Lemma wp_smallblk_free F P p n (Q : unit -> hstate -> Prop) : mm_inv m h L F P A -> A !! p = Some n -> small h P p n ->
  (forall m' h' L', mm_rep m' h' L' (delete p A) -> keeps A (fun q => q = p) L L' m m' -> same_place h h' -> Q tt (mkH m' pl h')) ->
  wp (k_mm_smallblk_free mh p) Q (mkH m pl h).
Proof using Hmh.
  intros Hi Hp Hs HQ. pose proof Hs as (Hfn & _ & Hnp & Hb). destruct (mi_fixed _ _ _ _ _ _ Hi Hfn) as [Hblk Hpool].
  destruct (live_in _ _ _ _ _ _ Hi p n Hp) as (Hp0 & Hp4 & Hn8 & Hpe).
  unfold k_mm_smallblk_free. rewrite !(proj2 (Z.eqb_neq _ _)) by lia. cbn [orb]. apply wp_bind, wp_gets. cbn [mmhead].
  apply wp_bind. eapply (wp_mblk_free m pl h _ _ _ _ P Hpool); [exact Hb|exact Hnp| |].
  { eapply live_words; [exact Hi|exact Hp|lia|done]. }
  intros m' Hpool' Hf. rewrite bool_decide_true by done. cbn [negb]. apply wp_bind, wp_ret. apply wp_removesize. intros h' Ht.
  destruct (pool_inv _ _ _ _ _ _ Hi m' h' (p :: P) p None Hfn Hb Hpool' Hf Ht) as [Hi' Hc]; [|by left|].
  { intros y. rewrite elem_of_cons. destruct (decide (y = p)); naive_solver. }
  eapply HQ; [by exists F, (p :: P)|done|by apply same_place_tables].
Qed.

Lemma wp_k_mm_free p n (Q : unit -> hstate -> Prop) : A !! p = Some n ->
  (forall m' h' L', mm_rep m' h' L' (delete p A) -> keeps A (fun q => q = p) L L' m m' -> same_place h h' -> Q tt (mkH m' pl h')) ->
  wp (k_mm_free mh p) Q (mkH m pl h).
Proof using Hr Hmh.
  intros Hp HQ. destruct Hr as (F & P & Hi). destruct (live_in _ _ _ _ _ _ Hi p n Hp) as (Hp0 & Hp4 & Hn8 & Hpe).
  unfold k_mm_free. rewrite !(proj2 (Z.eqb_neq _ _)) by lia. cbn [orb]. apply wp_bind, wp_gets. cbn [mmhead].
  apply wp_bind. eapply (wp_ISFIXEDBLK F P p n); [exact Hi|exact Hp| |].
  - intros Hl. pose proof Hl as (Hin & Hn & _). apply list_elem_of_split in Hin as (L1 & L2 & EL).
    pose proof (mi_heap _ _ _ _ _ _ Hi) as Hh. rewrite EL in Hh. replace p with (p - 8 + 8) at 1 by lia.
    eapply (wp_free_large m pl h L1 L2 F (p - 8) n); [exact Hh|exact Hn|]. intros m' h' L' F' Hfr Hh' Hf Hsp. rewrite <- EL in Hfr, Hf.
    assert (Hl' : large h L (p - 8 + 8) n) by by replace (p - 8 + 8) with p by lia.
    destruct (free_inv _ _ _ _ _ _ Hi m' h' L' F' (p - 8) n Hfr Hl' Hh' Hf Hsp) as [Hi' Hc].
    replace (p - 8 + 8) with p in * by lia. eapply HQ; [by exists F', P|done|done].
  - intros Hs. by eapply wp_smallblk_free.
Qed.
End ops.

(** ** Reallocating *)

(** the words [0 .. k) of [src] are those of [dst] now *)
Lemma wp_copy_words pl h k : forall m dst src (Q : unit -> hstate -> Prop),
  (forall i, 0 <= i < Z.of_nat k -> is_Some (m !! (src + 4 * i)) /\ is_Some (m !! (dst + 4 * i))) ->
  (dst + 4 * Z.of_nat k <= src \/ src + 4 * Z.of_nat k <= dst) ->
  (forall m', (forall i, 0 <= i < Z.of_nat k -> m' !! (dst + 4 * i) = m !! (src + 4 * i)) ->
     mem_frame (fun a => dst <= a < dst + 4 * Z.of_nat k) m m' -> Q tt (mkH m' pl h)) ->
  wp (copy_words k dst src) Q (mkH m pl h).
Proof.
  induction k as [|k IH]; intros m dst src Q Hs Hd HQ; cbn [copy_words].
  - apply wp_ret, HQ; [intros i ?; lia|apply mem_frame_refl].
  - destruct (Hs 0) as [[w Hw] Hdst]; [lia|]. replace (src + 4 * 0) with src in Hw by lia. replace (dst + 4 * 0) with dst in Hdst by lia.
    apply wp_bind. eapply wp_ld; [exact Hw|]. apply wp_bind, wp_st; [done|]. apply IH; [|lia|].
    + intros i Hi. destruct (Hs (i + 1)) as [H1 H2]; [lia|]. replace (src + 4 + 4 * i) with (src + 4 * (i + 1)) by lia.
      replace (dst + 4 + 4 * i) with (dst + 4 * (i + 1)) by lia. split; (apply lookup_insert_is_Some'; by right).
    + intros m' Hm Hf. apply HQ.
      * intros i Hi. destruct (decide (i = 0)) as [->|Hne].
        -- replace (dst + 4 * 0) with dst by lia. replace (src + 4 * 0) with src by lia. rewrite (proj2 Hf) by lia. by rewrite lookup_insert_eq.
        -- replace (dst + 4 * i) with (dst + 4 + 4 * (i - 1)) by lia. rewrite Hm by lia.
           replace (src + 4 + 4 * (i - 1)) with (src + 4 * i) by lia. apply lookup_insert_ne. lia.
      * eapply mem_frame_trans; [|eapply mem_frame_mono; [|exact Hf]; cbn; lia]. apply mem_frame_st; [lia|done|apply mem_frame_refl].
Qed.

Section realloc.
Context (m : mem) (pl : list Z) (h : k_mm_head) (L : list blk) (A : gmap Z Z) (mh p n size : Z).
Context (Hr : mm_rep m h L A) (Hmh : mh <> 0) (Hp : A !! p = Some n) (Hs : 2 <= size <= 0xFC000000).

(** the block at [q] of [k] bytes has taken the place of the one at [p] *)
Definition realloc_post (q k : Z) (m' : mem) (h' : k_mm_head) (L' : list blk) : Prop :=
  q <> 0 /\ (q = p \/ A !! q = None) /\ size <= k /\ mm_rep m' h' L' (<[q := k]> (delete p A)) /\
  keeps A (fun q => q = p) L L' m m' /\ same_place h h' /\
  forall i, 0 <= i < Z.min n size -> i mod 4 = 0 -> m' !! (q + i) = m !! (p + i).

(** the copy of the first [c] bytes to a new block [q] *)
Lemma wp_realloc_copy m1 h1 L1 q k c (Q : unit -> hstate -> Prop) :
  A !! q = None -> mm_rep m1 h1 L1 (<[q := k]> A) -> keeps A (fun _ => False) L L1 m m1 -> 0 <= c <= n -> c <= k -> c mod 4 = 0 ->
  (forall m2, mm_rep m2 h1 L1 (<[q := k]> A) -> keeps A (fun _ => False) L L1 m m2 ->
     (forall i, 0 <= i < c -> i mod 4 = 0 -> m2 !! (q + i) = m !! (p + i)) -> Q tt (mkH m2 pl h1)) ->
  wp (copy_words (Z.to_nat (c / 4)) q p) Q (mkH m1 pl h1).
Proof using Hp Hs.
  intros HA (F1 & P1 & Hi1) Hc1 Hcn Hck Hc4 HQ. assert (Hqp : q <> p) by congruence.
  assert (Hq1 : <[q:=k]> A !! q = Some k) by apply lookup_insert_eq.
  assert (Hp1 : <[q:=k]> A !! p = Some n) by by rewrite lookup_insert_ne.
  destruct (live_in _ _ _ _ _ _ Hi1 _ _ Hq1) as (_ & Hq4 & _ & _). destruct (live_in _ _ _ _ _ _ Hi1 _ _ Hp1) as (_ & Hp4 & _ & _).
  pose proof (live_apart _ _ _ _ _ _ Hi1 q k p n Hq1 Hp1 Hqp) as Hap. assert (Hcc : 4 * (c / 4) = c) by zlia.
  apply wp_copy_words; rewrite Z2Nat.id by zlia.
  - intros i Hi. split; [apply (live_words _ _ _ _ _ _ Hi1 p n)|apply (live_words _ _ _ _ _ _ Hi1 q k)]; done || zlia.
  - lia.
  - intros m2 Hm2 Hf2. rewrite Hcc in Hf2. apply HQ.
    + exists F1, P1. eapply mm_write; [exact Hi1|exact Hq1|]. eapply mem_frame_mono; [|exact Hf2]. cbn. lia.
    + split; [|eapply within_trans; [apply Hc1|eapply write_within; [exact Hi1|exact Hq1|exact Hck|exact Hf2]]].
      intros x j a Hx _ Ha. assert (Hxq : x <> q) by congruence. rewrite (proj2 Hf2); [apply (proj1 Hc1 x j a); [done|tauto|done]|].
      assert (Hx1 : <[q:=k]> A !! x = Some j) by by rewrite lookup_insert_ne. destruct (live_apart _ _ _ _ _ _ Hi1 _ _ _ _ Hx1 Hq1 Hxq); lia.
    + intros i Hi Hi4. replace (q + i) with (q + 4 * (i / 4)) by zlia. rewrite Hm2 by zlia. replace (p + 4 * (i / 4)) with (p + i) by zlia.
      apply (proj1 Hc1 p n); [done|tauto|lia].
Qed.

Lemma wp_k_mm_realloc (Q : Z -> hstate -> Prop) :
  Q 0 (mkH m pl h) -> (forall q k m' h' L', realloc_post q k m' h' L' -> Q q (mkH m' pl h')) ->
  wp (k_mm_realloc mh p size) Q (mkH m pl h).
Proof using Hr Hmh Hp Hs.
  intros HQ0 HQ1. pose proof Hr as (F & P & Hi). destruct (live_in _ _ _ _ _ _ Hi p n Hp) as (Hp0 & Hp4 & Hn8 & Hpe).
  unfold k_mm_realloc. rewrite !(proj2 (Z.eqb_neq _ _)) by lia. apply wp_bind, wp_gets. cbn [mmhead]. cbv zeta.
  apply wp_bind. eapply (wp_ISFIXEDBLK m pl h L A F P p n); [exact Hi|exact Hp| |].
  - intros Hl. pose proof Hl as (Hin & Hn & _). destruct (large_in _ _ _ _ _ _ Hi _ _ Hl) as (_ & _ & _ & _ & Hn4).
    pose proof (ig_pos _ _ _ (geom_at _ _ (he_geom _ _ _ _ (mi_heap _ _ _ _ _ _ Hi)) Hin)) as Hp8. cbn [ba] in Hp8.
    change MMLIST_HEAD_SIZE with 8. rewrite u32_small by lia. change sizeof_k_mm_list_t with 16.
    set (s := if size <? 16 then 16 else MM_ALIGN_UP size).
    assert (Hs' : s mod 4 = 0 /\ 16 <= s < 2 ^ 32 /\ size <= s <= 0xFC000000).
    { subst s. destruct (Z.ltb_spec size 16); [split_and!; done || lia|]. rewrite MM_ALIGN_UP_eq by lia. zlia. }
    destruct Hs' as (Hs4 & Hs16 & Hss).
    apply list_elem_of_split in Hin as (L1 & L2 & EL). pose proof (mi_heap _ _ _ _ _ _ Hi) as Hh. rewrite EL in Hh.
    assert (Hl' : large h L (p - 8 + 8) n) by by replace (p - 8 + 8) with p by lia.
    apply wp_bind. eapply (wp_realloc_in_place m pl h L1 L2 F (p - 8) n s Hh Hn (conj Hs4 Hs16)); [lia| |].
    + (* elsewhere *)
      cbn [Z.eqb negb]. apply wp_bind. eapply (wp_k_mm_alloc m pl h L A mh Hr Hmh); [lia| |].
      * intros _. cbn [Z.eqb]. by apply wp_ret.
      * intros q k m1 h1 L3 HA Hq0 Hk Hr1 Hc1 Hsp1 _. rewrite (proj2 (Z.eqb_neq q 0)) by done.
        assert (Hqp : q <> p) by congruence. assert (Hp1 : <[q:=k]> A !! p = Some n) by by rewrite lookup_insert_ne.
        pose proof Hr1 as (F1 & P1 & Hi1). pose proof Hp1 as Hpl1. apply (mi_live _ _ _ _ _ _ Hi1) in Hpl1.
        assert (Hl1 : mkBlk (p - 8) n false ∈ L3).
        { destruct Hpl1 as [(? & _)|(Hf1 & -> & _ & i1 & Hi1' & E1)]; [done|]. exfalso. destruct Hsp1 as [_ Efx]. rewrite Efx in Hf1, E1.
          destruct (mi_fixed _ _ _ _ _ _ Hi Hf1) as [(kb & Hkb & Hinb) _]. destruct Hl as (Hlin & _ & _ & Hne).
          destruct (geom_apart _ _ _ (he_geom _ _ _ _ (mi_heap _ _ _ _ _ _ Hi)) Hlin Hinb) as [E|[E|E]]; [injection E as E _; apply Hne; rep|rep..]. }
        destruct (block_word _ _ _ _ _ (mi_heap _ _ _ _ _ _ Hi1) Hl1) as [pf Hw].
        apply wp_bind. eapply wp_ld; [exact Hw|]. rewrite word_flags. cbn [bz bf]. rewrite flags_size by (first [done|lia|apply flag_bits_range]).
        set (c := if s <? n then s else n). assert (Hc : c = Z.min s n) by (subst c; destruct (Z.ltb_spec s n); lia).
        apply wp_bind. eapply wp_realloc_copy; [exact HA|exact Hr1|exact Hc1|lia|lia|subst c; by case_match|].
        intros m2 Hr2 Hc2 Hcp. apply wp_bind. eapply (wp_k_mm_free m2 pl h1 L3 _ mh Hr2 Hmh p n); [exact Hp1|].
        intros m3 h3 L4 Hr3 Hc3 Hsp3. apply wp_ret. eapply (HQ1 q k _ _ L4). split_and!; [done|by right|lia| | | |].
        -- by rewrite <- delete_insert_ne.
        -- split; [|eapply within_trans; [apply Hc2|apply Hc3]]. intros x j a Hx Hne Ha. rewrite (proj1 Hc3 x j a); [apply (proj1 Hc2 x j a); [done|tauto|done]| |done|done]. rewrite lookup_insert_ne; [done|]. intros ->. congruence.
        -- by eapply same_place_trans.
        -- intros i Hi' Hi4. rewrite (proj1 Hc3 q k); [apply Hcp; lia|by rewrite lookup_insert_eq|done|lia].
    + (* in place *)
      intros k m' h' L' F' Hre Hh' Hf Hsp. rewrite <- EL in Hre. replace (p - 8 + 8) with p in * by lia.
      rewrite (proj2 (Z.eqb_neq p 0)) by lia. cbn [negb]. apply wp_ret.
      destruct (resize_inv _ _ _ _ _ _ Hi m' h' L' F' (p - 8) n s k Hre ltac:(lia)) as (Hi' & Hc & Hsk & Hkeep); [by replace (p - 8 + 8) with p by lia|done| |done|].
      { eapply mem_frame_mono; [|exact Hf]. intros a [Ha1 Ha2]. rewrite EL. done. }
      replace (p - 8 + 8) with p in * by lia. eapply (HQ1 p k _ _ L'). split_and!; [lia|by left|lia| |done|done|].
      * exists F', P. by rewrite insert_delete_eq.
      * intros i Hi2 _. apply Hkeep. lia.
  - intros Hsm. destruct (small_in _ _ _ _ _ _ Hi _ _ Hsm) as (En & _).
    destruct (Z.leb_spec size DEF_FIX_BLK_SIZE) as [Hle|Hgt].
    + apply wp_ret. eapply (HQ1 p n _ _ L). split_and!; [lia|by left|consts; lia| |done|done|done].
      rewrite insert_delete_id by done. by exists F, P.
    + apply wp_bind. eapply (wp_k_mm_alloc m pl h L A mh Hr Hmh); [lia| |].
      * intros _. cbn [Z.eqb negb]. apply wp_bind, wp_ret. by apply wp_ret.
      * intros q k m1 h1 L3 HA Hq0 Hk Hr1 Hc1 Hsp1 _. rewrite (proj2 (Z.eqb_neq q 0)) by done. cbn [negb].
        assert (Hqp : q <> p) by congruence. assert (Hp1 : <[q:=k]> A !! p = Some n) by by rewrite lookup_insert_ne.
        apply wp_bind, wp_bind. consts. eapply (wp_realloc_copy m1 h1 L3 q k 32); [exact HA|exact Hr1|exact Hc1|lia|lia|done|].
        intros m2 Hr2 Hc2 Hcp. pose proof Hr2 as (F2 & P2 & Hi2).
        assert (Hs2 : small h1 P2 p n).
        { pose proof Hp1 as Hpl. apply (mi_live _ _ _ _ _ _ Hi2) in Hpl as [Hl2|]; [|done]. exfalso. destruct Hsp1 as [_ Efx].
          destruct Hsm as (Hf1 & -> & _ & i1 & Hi1' & E1). destruct (mi_fixed _ _ _ _ _ _ Hi2) as [(kb & Hkb & Hinb) _]; [congruence|].
          destruct Hl2 as (Hlin & _ & _ & Hne). rewrite <- Efx in E1.
          destruct (geom_apart _ _ _ (he_geom _ _ _ _ (mi_heap _ _ _ _ _ _ Hi2)) Hlin Hinb) as [E|[E|E]]; [injection E as E _; apply Hne; rep|rep..]. }
        eapply (wp_smallblk_free m2 pl h1 L3 _ mh Hmh F2 P2 p n); [exact Hi2|exact Hp1|exact Hs2|].
        intros m3 h3 L4 Hr3 Hc3 Hsp3. apply wp_ret. eapply (HQ1 q k _ _ L4). split_and!; [done|by right|lia| | | |].
        -- by rewrite <- delete_insert_ne.
        -- split; [|eapply within_trans; [apply Hc2|apply Hc3]]. intros x j a Hx Hne Ha. rewrite (proj1 Hc3 x j a); [apply (proj1 Hc2 x j a); [done|tauto|done]| |done|done]. rewrite lookup_insert_ne; [done|]. intros ->. congruence.
        -- by eapply same_place_trans.
        -- intros i Hi' Hi4. rewrite (proj1 Hc3 q k); [apply Hcp; lia|by rewrite lookup_insert_eq|done|lia].
Qed.
End realloc.
