(* ===== verification/MmInit.v ===== *)
(** * The heap: making one *)

From S2P Require Import Prelude Config Bitmap Mem MmBlk Mm MmClass MmList MmGeom MmHole MmAlloc.
From S2P Require Import MmFree MmRealloc MmRep.
Open Scope Z_scope.

Definition no_lists : lists := fun _ _ => [].

Lemma fl_rep_fields m h h' F : fl_bitmap h' = fl_bitmap h -> sl_bitmap h' = sl_bitmap h -> mm_tbl h' = mm_tbl h ->
  fl_rep m h F -> fl_rep m h' F.
Proof.
  intros E1 E2 E3 [[B1 B2 B3 B4] Rt Rl]. split; [|by unfold fl_tbl, tbl_at in *; rewrite E3|done]. split; rewrite ?E1, ?E2; done.
Qed.

Lemma heap_fields m h h' L F : fl_bitmap h' = fl_bitmap h -> sl_bitmap h' = sl_bitmap h -> mm_tbl h' = mm_tbl h ->
  heap m h L F -> heap m h' L F.
Proof. intros E1 E2 E3 []. split; try done. by eapply fl_rep_fields. Qed.

Lemma fl_rep_zero m : fl_rep m zero_head no_lists.
Proof.
  split.
  - split; cbn [sl_bitmap fl_bitmap zero_head]; [|lia| |intros; apply Z.testbit_0_l].
    + intros i Hi. exists 0. split; [apply lookup_replicate; split; [done|lia]|]. split; [lia|]. intros j _. rewrite Z.testbit_0_l.
      by rewrite bool_decide_false by by intros H.
    + intros i Hi. rewrite Z.testbit_0_l. split; [done|]. by intros (j & _ & ?).
  - intros i j [Hi Hj]. cbn [fst snd] in *. unfold tbl_at. cbn [mm_tbl zero_head].
    rewrite (proj2 (lookup_replicate _ _ _ (Z.to_nat i))) by (split; [done|lia]). cbn.
    apply lookup_replicate. split; [done|lia].
  - split; try done.
    + intros i j _. constructor.
    + intros i j i' j' x _ _ H. by apply elem_of_nil in H.
    + intros x y (i & j & _ & H). by apply elem_of_nil in H.
Qed.

Lemma MM_ALIGN_DOWN_eq a : MM_ALIGN_DOWN a = a / 4 * 4.
Proof.
  unfold MM_ALIGN_DOWN. change MM_ALIGN_MASK with 3. pose proof (Z.div_mod a 4 ltac:(lia)) as E. rewrite E at 1.
  rewrite flags_clear by zlia. assert (H : 0 <= a mod 4 < 4) by zlia. revert H. generalize (a mod 4). intros r Hr.
  replace (Z.land r (Z.lnot 3)) with 0; [lia|].
  assert (Hr4 : r = 0 \/ r = 1 \/ r = 2 \/ r = 3) by lia. by destruct Hr4 as [->|[->|[->|]]]; subst.
Qed.

(** memory for a region *)
Record region_memory (m : mem) (base len : Z) : Prop := {
  rm_pos : 0 < base;
  rm_align : base mod 4 = 0 /\ len mod 4 = 0;
  rm_len : 48 <= len <= MAX_MM_SIZE;
  rm_end : base + len < 2 ^ 32;
  rm_words : forall a, base <= a < base + len -> a mod 4 = 0 -> is_Some (m !! a)
}.

Section region.
Context (m : mem) (pl : list Z) (h : k_mm_head) (base len : Z).
Context (Hm : region_memory m base len) (Hh : forall m, fl_rep m h no_lists).

Abbreviation first := (mkBlk base 8 false).
Abbreviation last := (mkBlk (base + len - 8) 0 false).

Lemma region_gap : gap [first] (base + 16) (len - 32) last [].
Proof using Hm.
  destruct Hm as [H1 [H2 H3] H4 H5 _]. change MAX_MM_SIZE with (2 ^ 20) in *. split; [| |lia].
  - cbn [app geom]. unfold pnext, bend. cbn [ba bz bf p_lo p_reg p_free pos0 free_addr]. change MMLIST_HEAD_SIZE with 8.
    cbn [Z.eqb]. rewrite (proj2 (Z.eqb_neq (len - 32) 0)) by lia. cbn [from_option].
    split_and!; [..|done]; (split; unfold bend; cbn [ba bz bf p_lo p_reg p_free pos0 from_option]; change MMLIST_HEAD_SIZE with 8;
      change MAX_MM_SIZE with (2 ^ 20); unfold id; first [lia|zlia|(left; done)|(right; lia)|idtac]).
  - cbn [pos_end fold_left app]. unfold pnext. cbn. done.
Qed.

Lemma wp_init_mm_region (Q : Z -> hstate -> Prop) :
  (forall m', hole m' h [first] (base + 16) (len - 32) (len - 32) last 2 [] no_lists ->
     mem_frame (fun a => base <= a < base + len) m m' -> Q base (mkH m' pl h)) ->
  wp (init_mm_region base len) Q (mkH m pl h).
Proof using Hm Hh.
  intros HQ. pose proof region_gap as Hg. destruct Hm as [H1 [H2 H3] H4 H5 Hw]. change MAX_MM_SIZE with (2 ^ 20) in *.
  assert (Hs : forall d, 0 <= d < len -> d mod 4 = 0 -> is_Some (m !! (base + d))) by (intros d Hd Hd4; apply Hw; [lia|zlia]).
  unfold init_mm_region. cbv zeta. change (Z.lor (Z.lor (MM_ALIGN_UP sizeof_k_mm_region_info_t) RHINO_MM_ALLOCED) RHINO_MM_PREVALLOCED) with 8.
  apply wp_bind, wp_st; [apply Hs; lia || done|]. apply wp_bind. eapply wp_ld; [apply lookup_insert_eq|].
  change (blksize 8) with 8. unfold mb_buffer, NEXT_MM_BLK. change MMLIST_HEAD_SIZE with 8. change MMREGION_USED_SIZE with 32.
  rewrite (u32_small (base + 8 + 8)), (u32_small (len - 32)) by lia. replace (base + 8 + 8) with (base + 16) by lia.
  rewrite MM_ALIGN_DOWN_eq. replace ((len - 32) / 4 * 4) with (len - 32) by zlia. change RHINO_MM_ALLOCED with 0. change RHINO_MM_PREVALLOCED with 0.
  rewrite !Z.lor_0_r. unfold mb_size, mb_prev, mb_fprev, mb_fnext.
  assert (Hs' : forall (m' : mem) d, (dom m' : gset Z) = dom m -> 0 <= d < len -> d mod 4 = 0 -> is_Some (m' !! (base + d))).
  { intros m' d Hd Hr H4d. apply elem_of_dom. rewrite Hd. apply elem_of_dom. by apply Hs. }
  set (P := fun a => base <= a < base + len).
  assert (Hst : forall m' d v, mem_frame P m m' -> 0 <= d < len -> d mod 4 = 0 -> is_Some (m' !! (base + d)) /\ mem_frame P m (<[base + d := v]> m')).
  { intros m' d v Hf Hd Hd4. assert (is_Some (m' !! (base + d))) by (apply Hs'; [apply Hf|done|done]). split; [done|].
    apply mem_frame_st; [subst P; cbn; lia|done|done]. }
  replace (base + 16 + 4) with (base + 20) by lia. replace (base + 16 + 8 + (len - 32)) with (base + (len - 8)) by lia.
  replace (base + 16 + 12) with (base + 28) by lia. replace (base + 16 + 8) with (base + 24) by lia. replace (base + 8 + 4) with (base + 12) by lia.
  set (m1 := <[base + 4 := 8]> m). destruct (Hst m 4 8 (mem_frame_refl _ _)) as [_ F1]; [lia|done|]. fold m1 in F1.
  destruct (Hst m1 20 (len - 32) F1) as [S2 F2]; [lia|done|]. apply wp_bind, wp_st; [exact S2|]. set (m2 := <[base + 20 := len - 32]> m1) in *.
  destruct (Hst m2 28 0 F2) as [S3 F3]; [lia|done|]. apply wp_bind, wp_st; [exact S3|]. set (m3 := <[base + 28 := 0]> m2) in *.
  destruct (Hst m3 24 0 F3) as [S4 F4]; [lia|done|]. apply wp_bind, wp_st; [exact S4|]. set (m4 := <[base + 24 := 0]> m3) in *.
  assert (E4 : m4 !! (base + 20) = Some (len - 32)).
  { subst m4 m3. rewrite !lookup_insert_ne by lia. apply lookup_insert_eq. }
  apply wp_bind. eapply wp_ld; [exact E4|]. replace (blksize (len - 32)) with (len - 32).
  2: { replace (len - 32) with (len - 32 + 0) at 2 by lia. by rewrite flags_size by zlia. }
  replace (base + 24 + (len - 32)) with (base + (len - 8)) by lia. rewrite (u32_small (base + (len - 8))) by lia.
  assert (Hl4 : (len - 8) mod 4 = 0 /\ (len - 4) mod 4 = 0) by zlia. destruct Hl4 as [Hl8 Hl4].
  destruct (Hst m4 (len - 8) (base + 16) F4) as [S5 F5]; [lia|done|]. apply wp_bind, wp_st; [exact S5|]. set (m5 := <[base + (len - 8) := base + 16]> m4) in *.
  replace (base + (len - 8) + 4) with (base + (len - 4)) by lia. change (Z.lor 0 RHINO_MM_PREVFREE) with 2.
  destruct (Hst m5 (len - 4) 2 F5) as [S6 F6]; [lia|done|]. apply wp_bind, wp_st; [exact S6|]. set (m6 := <[base + (len - 4) := 2]> m5) in *.
  destruct (Hst m6 12 0 F6) as [S7 F7]; [lia|done|]. apply wp_bind, wp_st; [exact S7|]. set (m7 := <[base + 12 := 0]> m6) in *.
  destruct (Hst m7 8 (base + (len - 8)) F7) as [S8 F8]; [lia|done|]. apply wp_bind, wp_st; [exact S8|]. set (m8 := <[base + 8 := _]> m7) in *.
  apply wp_ret, HQ; [|exact F8].
  assert (Hlk : forall d, 0 <= d < len -> d mod 4 = 0 -> is_Some (m8 !! (base + d))) by (intros d Hd Hd4; apply Hs'; [apply F8|done|done]).
  split.
  - exact Hg.
  - cbn. split; [|done]. subst m8 m7 m6 m5 m4 m3 m2 m1. unfold mb_size. rewrite !lookup_insert_ne by lia. apply lookup_insert_eq.
  - done.
  - unfold mb_size. replace (base + 16 + 4) with (base + 20) by lia. subst m8 m7 m6 m5. rewrite !lookup_insert_ne by lia. exact E4.
  - unfold mb_size. cbn [ba]. replace (base + len - 8 + 4) with (base + (len - 4)) by lia. subst m8 m7. rewrite !lookup_insert_ne by lia. apply lookup_insert_eq.
  - done.
  - intros x a Hx Ha Ha4. assert (Hab : base <= a < base + len).
    { cbn [app] in Hx. rewrite !elem_of_cons in Hx. unfold bend in Ha. change MMLIST_HEAD_SIZE with 8 in Ha.
      destruct Hx as [->|[->|[->|Hx]]]; [cbn in Ha; lia..|]. by apply elem_of_nil in Hx. }
    replace a with (base + (a - base)) by lia. apply Hlk; [lia|zlia].
  - apply Hh.
  - intros i j y _. split; [intros Hy; by apply elem_of_nil in Hy|]. intros (t & Ht & _). cbn [app] in Ht. rewrite !elem_of_cons in Ht.
    destruct Ht as [?|[?|[?|Ht]]]; [done..|]. by apply elem_of_nil in Ht.
Qed.
End region.

(** ** [krhino_init_mm_head] *)

(** the memory given, aligned *)
Definition init_addr (addr : Z) : Z := (addr + 3) / 4 * 4.
Definition init_len (addr len : Z) : Z := (len - (init_addr addr - addr)) / 4 * 4.

Record init_memory (m : mem) (addr len : Z) : Prop := {
  im_addr : 0 < addr;
  im_len : 4 <= len /\ addr + len + 64 < 2 ^ 32;
  im_words : forall a, addr <= a < addr + len -> a mod 4 = 0 -> is_Some (m !! a)
}.

(** the heap after the free block was cut: the first block, the one of the
    region, and the last one are in use *)
Lemma init_freed L' F' m m' h' base len : region_memory m base len ->
  freed [mkBlk base 8 false; mkBlk (base + 16) (len - 32) false; mkBlk (base + len - 8) 0 false] L' (base + 16) ->
  heap m' h' L' F' -> regioninfo h' = base + 8 -> fixedmblk h' = 0 ->
  mm_inv m' h' L' F' [] ∅ /\ mkBlk (base + 16) (len - 32) true ∈ L'.
Proof.
  intros Hm Hfr Hh Er Ef. pose proof (region_gap m base len Hm) as Hg. pose proof (ga_geom _ _ _ _ _ Hg) as HG. cbn [app] in HG.
  pose proof (freed_in _ _ _ HG Hfr) as HL. destruct Hm as [H1 _ H3 _ _]. split.
  - split; [done| | |].
    + exists 8. apply HL. rewrite Er. replace (base + 8 - 8) with base by lia. split; [left|lia].
    + by rewrite Ef.
    + intros p n. split; [by rewrite lookup_empty|]. intros [(Hin & Hn & Hp & _)|(? & _)]; [|by rewrite Ef in *].
      apply HL in Hin as [Hin Hne]. rewrite !elem_of_cons in Hin. destruct Hin as [E|[E|[E|Hin]]]; [injection E as E1 E2; lia|injection E as E1 E2; lia|injection E as E1 E2; lia|].
      by apply elem_of_nil in Hin.
  - destruct Hfr as (P & pre & z & post & S & EL & Hpre & Hpost & ->).
    assert (Hall : forall x, x ∈ [mkBlk base 8 false; mkBlk (base + 16) (len - 32) false; mkBlk (base + len - 8) 0 false] -> bf x = false).
    { intros x Hx. rewrite !elem_of_cons in Hx. destruct Hx as [->|[->|[->|Hx]]]; [done..|]. by apply elem_of_nil in Hx. }
    assert (Hnil : forall N, neighbour N -> (forall x, x ∈ N -> bf x = false) -> N = []).
    { intros N [->|(x & -> & Hx)] HN; [done|]. rewrite HN in Hx; [done|left]. }
    assert (pre = []) as -> by (apply Hnil; [done|]; intros x Hx; apply Hall; rewrite EL, !elem_of_app; auto).
    assert (post = []) as -> by (apply Hnil; [done|]; intros x Hx; apply Hall; rewrite EL, !elem_of_app, elem_of_cons, elem_of_app; auto).
    cbn [app fmap list_fmap hd extent foldr]. cbn [app] in EL.
    assert (Hz : mkBlk (base + 16) z false ∈ [mkBlk base 8 false; mkBlk (base + 16) (len - 32) false; mkBlk (base + len - 8) 0 false]).
    { rewrite EL. apply elem_of_app. right. left. }
    pose proof (geom_addr _ _ (mkBlk (base + 16) (len - 32) false) HG Hz ltac:(right; left) eq_refl) as E. injection E as ->.
    apply elem_of_app. right. rewrite Z.add_0_l, Z.add_0_r. left.
Qed.

(** the pool of fixed blocks in the block that was allocated for it *)
Lemma init_pool m h L p n name pl (Q : kstat_t -> hstate -> Prop) :
  mm_rep m h L {[p := n]} -> fixedmblk h = 0 -> POOL_BYTES <= n -> p + POOL_BYTES + 32 < 2 ^ 32 -> name <> 0 ->
  (forall m' h' , (forall h2, regioninfo h2 = regioninfo h -> fixedmblk h2 = p - 8 -> fl_bitmap h2 = fl_bitmap h -> sl_bitmap h2 = sl_bitmap h -> mm_tbl h2 = mm_tbl h ->
     mm_rep m' h2 L ∅) -> mem_frame (fun a => p <= a < p + n) m m' -> h' = h -> Q RHINO_SUCCESS (mkH m' (pl ++ [p]) h')) ->
  wp (krhino_mblk_pool_init p name (p + MM_ALIGN_UP sizeof_mblk_pool_t) DEF_FIX_BLK_SIZE RHINO_CONFIG_MM_TLF_BLK_SIZE) Q (mkH m pl h).
Proof.
  intros (F & P & Hi) Ef Hn Hend Hname HQ. assert (Hp : ({[p := n]} : gmap Z Z) !! p = Some n) by apply lookup_singleton_eq.
  destruct (live_in _ _ _ _ _ _ Hi p n Hp) as (Hp0 & Hp4 & _ & _). change POOL_BYTES with 4128 in *.
  change (MM_ALIGN_UP sizeof_mblk_pool_t) with 32. change DEF_FIX_BLK_SIZE with 32. change RHINO_CONFIG_MM_TLF_BLK_SIZE with 4096.
  assert (Hlg : large h L p n).
  { apply (mi_live _ _ _ _ _ _ Hi) in Hp as [|(? & _)]; done. }
  pose proof (ig_pos _ _ _ (geom_at _ _ (he_geom _ _ _ _ (mi_heap _ _ _ _ _ _ Hi)) (proj1 Hlg))) as Hp8. cbn [ba] in Hp8.
  apply wp_mblk_pool_init; [split|done|].
  - lia.
  - split_and!; [zlia|done|done].
  - lia.
  - intros a Ha Ha4. apply (live_words _ _ _ _ _ _ Hi p n); [done|lia|done].
  - intros k Hk. apply (live_words _ _ _ _ _ _ Hi p n); [done|lia|zlia].
  - left. change sizeof_mblk_pool_t with 32. lia.
  - intros m' Hpool Hf0. assert (Hf : mem_frame (fun a => p <= a < p + n) m m').
    { eapply mem_frame_mono; [|exact Hf0]. intros a [Ha|Ha]; change sizeof_mblk_pool_t with 32 in *; lia. }
    apply HQ; [|exact Hf|done]. intros h2 E1 E2 E3 E4 E5.
    assert (Hi' : mm_inv m' h L F P {[p := n]}) by (eapply mm_write; [exact Hi|exact Hp|exact Hf]).
    exists F, (blocks_from (p + 32) 32 0 128). split.
    + eapply heap_fields; [done..|]. apply Hi'.
    + rewrite E1. apply Hi'.
    + intros _. rewrite E2. split; [exists n; split; [done|apply Hlg]|].
      unfold fb_start, fb_pool, mb_buffer. change MMLIST_HEAD_SIZE with 8. replace (p - 8 + 8) with p by lia. exact Hpool.
    + intros q k. split; [by rewrite lookup_empty|]. intros [(Hin & Hk & Hq1 & Hq2)|(_ & _ & Hn' & i & Hib & Eq)].
      * exfalso. assert (Hq : ({[p := n]} : gmap Z Z) !! q = Some k).
        { apply (mi_live _ _ _ _ _ _ Hi'). left. split_and!; [done|done|by rewrite <- E1|]. rewrite Ef. unfold fb_pool, mb_buffer. change MMLIST_HEAD_SIZE with 8.
          pose proof (ig_pos _ _ _ (geom_at _ _ (he_geom _ _ _ _ (mi_heap _ _ _ _ _ _ Hi)) Hin)) as Hpos. cbn in Hpos. lia. }
        apply lookup_singleton_Some in Hq as [<- _]. apply Hq2. rewrite E2. unfold fb_pool, mb_buffer. change MMLIST_HEAD_SIZE with 8. lia.
      * exfalso. apply Hn'. apply elem_of_blocks_from. exists i. split; [by change POOL_BLOCKS with 128 in Hib; cbn|].
        rewrite Eq, E2. unfold fb_start, fb_pool, mb_buffer. change MMLIST_HEAD_SIZE with 8. change DEF_FIX_BLK_SIZE with 32.
        change (MM_ALIGN_UP sizeof_mblk_pool_t) with 32. lia.
Qed.

Definition head_size : Z := sizeof_k_mm_head.

(** the memory of the blocks *)
Definition in_heap (addr len a : Z) : Prop := init_addr addr + head_size <= a < init_addr addr + init_len addr len.

(** a new heap: nothing is allocated, its blocks lie in the memory given, and
    the rest of the memory is as it was; the pool of fixed blocks is there when
    the memory is not too small *)
Definition init_post (m : mem) (addr len : Z) (m' : mem) (h' : k_mm_head) : Prop :=
  exists L, mm_rep m' h' L ∅ /\ (forall a, span L a -> in_heap addr len a) /\
    (forall a, ~ in_heap addr len a -> m' !! a = m !! a) /\
    (head_size + 32 + 4224 <= init_len addr len -> fixedmblk h' <> 0).

Lemma within_heap addr len L (m m' : mem) L' m2 : (forall a, span L a -> in_heap addr len a) -> (forall a, ~ in_heap addr len a -> m' !! a = m !! a) ->
  within L L' m' m2 -> (forall a, span L' a -> in_heap addr len a) /\ (forall a, ~ in_heap addr len a -> m2 !! a = m !! a).
Proof.
  intros H1 H2 [W1 W2]. split; [auto|]. intros a Ha. rewrite W1; [auto|]. intros Hs. by apply Ha, H1.
Qed.

Section init.
Context (m : mem) (pl : list Z) (h : k_mm_head) (addr len name : Z).
Context (Hm : init_memory m addr len) (Hname : name <> 0).
Context (Hlen : MIN_FREE_MEMORY_SIZE + RHINO_CONFIG_MM_TLF_BLK_SIZE <= init_len addr len <= MAX_MM_SIZE).

Abbreviation base := (init_addr addr + head_size).
Abbreviation rlen := (init_len addr len - head_size).

Lemma init_bounds : addr <= init_addr addr /\ init_addr addr + init_len addr len <= addr + len /\ init_addr addr mod 4 = 0 /\
  init_len addr len mod 4 = 0 /\ 5120 <= init_len addr len <= 2 ^ 20.
Proof using Hm Hlen.
  clear Hm. change (MIN_FREE_MEMORY_SIZE + RHINO_CONFIG_MM_TLF_BLK_SIZE) with 5120 in *. change MAX_MM_SIZE with (2 ^ 20) in *.
  unfold init_len, init_addr in *. pose proof (Z.div_mod (addr + 3) 4 ltac:(done)). pose proof (Z.mod_pos_bound (addr + 3) 4 ltac:(done)).
  set (A := (addr + 3) / 4) in *. set (l := len - (A * 4 - addr)) in *.
  pose proof (Z.div_mod l 4 ltac:(done)). pose proof (Z.mod_pos_bound l 4 ltac:(done)). rewrite !Z.mod_mul by done. split_and!; lia.
Qed.

Lemma init_region : region_memory m base rlen.
Proof using Hm Hlen.
  destruct init_bounds as (B1 & B2 & B3 & B4 & B5). destruct Hm as [H1 [H2 H3] H4]. change head_size with 1952.
  split; [lia|zlia| |lia|].
  - change MAX_MM_SIZE with (2 ^ 20). lia.
  - intros a Ha Ha4. apply H4; [lia|done].
Qed.

(** the pool of fixed blocks, and the end *)
Lemma wp_init_fixed m2 h2 L (Q : kstat_t * option Z -> hstate -> Prop) :
  mm_rep m2 h2 L ∅ -> fixedmblk h2 = 0 -> (forall a, span L a -> in_heap addr len a) -> (forall a, ~ in_heap addr len a -> m2 !! a = m !! a) ->
  (head_size + 32 + 4224 <= init_len addr len -> mkBlk (base + 16) (rlen - 32) true ∈ L) ->
  (forall m' pl' h', init_post m addr len m' h' -> Q (RHINO_SUCCESS, Some (init_addr addr)) (mkH m' pl' h')) ->
  wp (mmblk_pool ← k_mm_alloc (init_addr addr) (RHINO_CONFIG_MM_TLF_BLK_SIZE + MM_ALIGN_UP sizeof_mblk_pool_t);
      (if negb (mmblk_pool =? 0) then
         let curblk := u32 (mmblk_pool - MMLIST_HEAD_SIZE) in
         stat ← krhino_mblk_pool_init mmblk_pool name (mmblk_pool + MM_ALIGN_UP sizeof_mblk_pool_t)
                  DEF_FIX_BLK_SIZE RHINO_CONFIG_MM_TLF_BLK_SIZE;
         (if bool_decide (stat = RHINO_SUCCESS) then upd_head (set_fixedmblk curblk) else k_mm_free (init_addr addr) mmblk_pool);;
         removesize RHINO_CONFIG_MM_TLF_BLK_SIZE
       else mret tt);;
      mret (RHINO_SUCCESS, Some (init_addr addr))) Q (mkH m2 pl h2).
Proof using Hm Hlen Hname.
  intros Hr Ef Hs Hk Hbig HQ. destruct init_bounds as (B1 & B2 & B3 & B4 & B5). pose proof (im_addr _ _ _ Hm) as Ha0.
  pose proof (im_len _ _ _ Hm) as Hl.
  apply wp_bind. eapply (wp_k_mm_alloc m2 pl h2 L ∅ (init_addr addr) Hr); [lia|by vm_compute| |].
  - intros Hno. cbn [Z.eqb negb]. apply wp_bind, wp_ret, wp_ret, HQ. exists L. split_and!; [done|done|done|]. intros H6.
    specialize (Hno _ (Hbig H6) eq_refl). cbn [bz] in Hno. change (lower (cls (get_size (room _)))) with 4224 in Hno. lia.
  - intros p n m3 h3 L3 _ Hp0 Hn Hr3 [_ Hw] [Erg Efx] _. rewrite (proj2 (Z.eqb_neq p 0)) by done. cbn [negb].
    destruct (within_heap _ _ _ _ _ _ _ Hs Hk Hw) as [Hs3 Hk3]. pose proof Hr3 as (F3 & P3 & Hi3).
    change (RHINO_CONFIG_MM_TLF_BLK_SIZE + MM_ALIGN_UP sizeof_mblk_pool_t) with 4128 in Hn.
    rewrite Ef in Efx. rewrite insert_empty in Hr3, Hi3. assert (Hp : ({[p := n]} : gmap Z Z) !! p = Some n) by apply lookup_singleton_eq.
    destruct (live_in _ _ _ _ _ _ Hi3 p n Hp) as (_ & Hp4 & _ & Hpe).
    pose proof (Hs3 _ (live_span _ _ _ _ _ _ Hi3 p n (p + 4127) Hp ltac:(lia))) as [_ He].
    apply wp_bind, wp_bind. eapply (init_pool m3 h3 L3 p n name pl); [done|done|done|change POOL_BYTES with 4128; lia|done|].
    intros m4 h4 Hr4 Hf4 ->. rewrite bool_decide_true by done. apply wp_bind, wp_upd_head, wp_removesize. intros h5 (T1 & T2 & T3 & T4 & T5).
    pose proof (Hs3 _ (live_span _ _ _ _ _ _ Hi3 p n p Hp ltac:(lia))) as [Hlo _]. change head_size with 1952 in Hlo.
    rewrite u32_small in * by (change MMLIST_HEAD_SIZE with 8; lia). cbn [set_fixedmblk mm_tbl fl_bitmap sl_bitmap regioninfo fixedmblk] in *. apply wp_ret, HQ.
    destruct (within_heap _ _ _ _ _ _ _ Hs3 Hk3 (write_within _ _ _ _ _ _ Hi3 p n n m4 Hp ltac:(lia) Hf4)) as [Hs4 Hk4].
    exists L3. split_and!; [by apply Hr4|done|done|]. intros _. rewrite T5. change MMLIST_HEAD_SIZE with 8. lia.
Qed.

Lemma wp_krhino_init_mm_head ppmmhead (Q : kstat_t * option Z -> hstate -> Prop) :
  (forall m' pl' h', init_post m addr len m' h' -> Q (RHINO_SUCCESS, Some (init_addr addr)) (mkH m' pl' h')) ->
  wp (krhino_init_mm_head (Some ppmmhead) addr len name) Q (mkH m pl h).
Proof using Hm Hlen Hname.
  intros HQ. destruct init_bounds as (B1 & B2 & B3 & B4 & B5). pose proof init_region as Hrm. pose proof (region_gap _ _ _ Hrm) as Hg. pose proof (im_addr _ _ _ Hm) as Ha0.
  pose proof (im_len _ _ _ Hm) as Hl. unfold krhino_init_mm_head. rewrite (proj2 (Z.eqb_neq addr 0)) by lia. cbv zeta.
  rewrite MM_ALIGN_UP_eq by lia. fold (init_addr addr). rewrite (u32_small (init_addr addr - addr)), u32_small by lia.
  rewrite !MM_ALIGN_DOWN_eq. fold (init_len addr len). assert (Ed : init_len addr len / 4 * 4 = init_len addr len) by zlia.
  change MM_ALIGN_MASK with addr_align_mask. rewrite land_align, B3, Ed, !Z.eqb_refl. cbn [Z.eqb negb orb].
  rewrite (proj2 (Z.eqb_neq (init_len addr len) 0)), (proj2 (Z.ltb_ge _ _)), (proj2 (Z.ltb_ge _ _)) by lia. cbn [orb].
  change (MM_ALIGN_UP sizeof_k_mm_head) with head_size. change sizeof_k_mm_head with head_size. change head_size with 1952 in *.
  rewrite (u32_small (init_addr addr + 1952)), (u32_small (init_len addr len - 1952)) by lia.
  replace ((init_len addr len - 1952) / 4 * 4) with (init_len addr len - 1952) by zlia.
  apply wp_bind, wp_upd_head. apply wp_bind. eapply (wp_init_mm_region m pl zero_head); [exact Hrm|apply fl_rep_zero|].
  intros m1 Ho Hf1. apply wp_bind, wp_upd_head. set (b := init_addr addr + 1952) in *. set (r := init_len addr len - 1952) in *.
  destruct (ho_before _ _ _ _ _ _ _ _ _ _ Ho) as [Hw _]. cbn [ba] in Hw. apply wp_bind. eapply wp_ld; [exact Hw|].
  change (blksize (word_of _ None)) with 8. unfold NEXT_MM_BLK, mb_buffer. change MMLIST_HEAD_SIZE with 8.
  rewrite (u32_small (b + 8 + 8)) by lia. replace (b + 8 + 8) with (b + 16) by lia.
  assert (Ho1 : hole m1 (set_regioninfo (b + 8) zero_head) [mkBlk b 8 false] (b + 16) (r - 32) (r - 32) (mkBlk (b + r - 8) 0 false) 2 [] no_lists).
  { destruct Ho. split; try done. by apply (fl_rep_fields m1 zero_head). }
  apply wp_bind. unfold k_mm_free at 1. rewrite !(proj2 (Z.eqb_neq _ _)) by lia. cbn [orb]. apply wp_bind, wp_gets. apply wp_bind.
  cbn [mmhead set_regioninfo fixedmblk zero_head]. unfold ISFIXEDBLK at 1. rewrite Z.eqb_refl. apply wp_ret. cbv iota.
  eapply (wp_free_hole m1 pl _ [mkBlk b 8 false] [mkBlk (b + r - 8) 0 false] no_lists (b + 16) (r - 32)
            (mkBlk (b + r - 8) 0 false) true []).
  { replace (word_of _ _) with (r - 32) by (unfold word_of; cbn; lia). exact Ho1. }
  { done. }
  intros m2 h2 L2 F2 Hfr Hh2 Hf2 [Er Ef]. cbn [app] in Hfr. cbn in Er, Ef.
  destruct (init_freed L2 F2 m m2 h2 b r Hrm Hfr Hh2 Er Ef) as [Hi2 Hin].
  destruct (block_word _ _ _ _ _ Hh2 Hin) as [pf Hw2]. cbn [ba] in Hw2. apply wp_bind. eapply wp_ld; [exact Hw2|].
  apply wp_bind, wp_upd_head. apply wp_bind, wp_upd_head.
  assert (Hsp : forall a, span [mkBlk b 8 false; mkBlk (b + 16) (r - 32) false; mkBlk (b + r - 8) 0 false] a -> b <= a < b + r).
  { intros a (x & y & Hx & Hy & Hxy). rewrite !elem_of_cons in Hx, Hy. unfold bend in Hxy. change MMLIST_HEAD_SIZE with 8 in Hxy.
    destruct Hx as [->|[->|[->|Hx]]]; [| | |by apply elem_of_nil in Hx];
      (destruct Hy as [->|[->|[->|Hy]]]; [| | |by apply elem_of_nil in Hy]); cbn in Hxy; lia. }
  assert (Hbr : forall a, in_heap addr len a <-> b <= a < b + r) by (intros a; unfold in_heap; change head_size with 1952; lia).
  eapply wp_init_fixed; [|done| | | |exact HQ].
  - exists F2, []. destruct Hi2 as [I1 I2 I3 I4]. split; [by apply (heap_fields m2 h2)|done|done|].
    intros p n. rewrite I4. unfold large, small. cbn. by rewrite Ef.
  - intros a Ha. apply Hbr, Hsp. eapply freed_span; [exact (ga_geom _ _ _ _ _ Hg)|exact Hfr|exact Ha].
  - intros a Ha. rewrite Hbr in Ha. rewrite (proj2 Hf2); [by apply Hf1|]. intros Hn. apply Hn. right. intros Hs. by apply Ha, Hsp.
  - intros _. exact Hin.
Qed.
End init.

(** the size is checked *)
Lemma wp_init_size_err m pl h addr len name pp (Q : kstat_t * option Z -> hstate -> Prop) : init_memory m addr len ->
  ~ (MIN_FREE_MEMORY_SIZE + RHINO_CONFIG_MM_TLF_BLK_SIZE <= init_len addr len <= MAX_MM_SIZE) ->
  Q (RHINO_MM_POOL_SIZE_ERR, None) (mkH m pl h) -> wp (krhino_init_mm_head (Some pp) addr len name) Q (mkH m pl h).
Proof.
  intros [Ha0 Hl _] Hlen HQ. unfold krhino_init_mm_head. rewrite (proj2 (Z.eqb_neq addr 0)) by lia. cbv zeta.
  assert (Hb : addr <= init_addr addr < addr + 4 /\ init_addr addr mod 4 = 0) by (unfold init_addr; zlia).
  rewrite MM_ALIGN_UP_eq by lia. fold (init_addr addr). rewrite (u32_small (init_addr addr - addr)), u32_small by lia.
  rewrite !MM_ALIGN_DOWN_eq. fold (init_len addr len). assert (Hd : init_len addr len / 4 * 4 = init_len addr len) by (unfold init_len; zlia).
  change MM_ALIGN_MASK with addr_align_mask. rewrite land_align, (proj2 Hb), Hd, !Z.eqb_refl. cbn [Z.eqb negb orb].
  replace (_ || _ || _) with true; [by apply wp_ret|]. symmetry. rewrite !orb_true_iff, !Z.ltb_lt. lia.
Qed.
