(* ===== verification/MmUse.v ===== *)
(** * The heap: what a program may rely on

    A client calls the heap with its own record of what it has: [U], the sizes
    it asked for by pointer.  [heap_after] keeps that record up to date from the
    results alone, [heap_legal] says which calls may be made, and
    [heap_call_ok] that every such call returns with what it promises: the
    code refines the record. *)

From S2P Require Import Prelude Config Bitmap Mem MmBlk Mm MmClass MmList MmGeom MmHole MmAlloc.
From S2P Require Import MmFree MmRealloc MmRep MmInit.
Open Scope Z_scope.

Inductive heap_call :=
  | HAlloc (size : Z)
  | HFree (p : Z)
  | HRealloc (p size : Z)
  | HWrite (p i v : Z).   (* the client writes the word at offset [i] of [p] *)

Definition heap_exec (mh : Z) (c : heap_call) : H Z :=
  match c with
  | HAlloc size => krhino_mm_alloc mh size
  | HFree p => krhino_mm_free mh p;; mret 0
  | HRealloc p size => krhino_mm_realloc mh p size
  | HWrite p i v => st (p + i) v;; mret 0
  end.

Abbreviation record := (gmap Z Z) (only parsing).

Definition size_ok (n : Z) : Prop := n = 0 \/ 2 <= n <= 0xFC000000.

Definition heap_legal (U : record) (c : heap_call) : Prop :=
  match c with
  | HAlloc n => size_ok n
  | HFree p => p = 0 \/ is_Some (U !! p)
  | HRealloc p n => (p = 0 \/ is_Some (U !! p)) /\ size_ok n
  | HWrite p i _ => exists n, U !! p = Some n /\ 0 <= i /\ i + 4 <= n /\ i mod 4 = 0
  end.

(** the record after a call that returned [r] *)
Definition heap_after (U : record) (c : heap_call) (r : Z) : record :=
  match c with
  | HAlloc n => if r =? 0 then U else <[r := n]> U
  | HFree p => delete p U
  | HRealloc p n => if n =? 0 then delete p U else if r =? 0 then U else <[r := n]> (delete p U)
  | HWrite _ _ _ => U
  end.

(** what a call gives: the pointer of an allocation is new, or that of the block
    that was resized, whose first words are as they were; a call that failed has
    changed nothing of the client's *)
Definition heap_gives (U : record) (c : heap_call) (m : mem) (r : Z) (m' : mem) : Prop :=
  match c with
  | HAlloc n => r <> 0 -> n <> 0 /\ U !! r = None
  | HFree p => True
  | HRealloc p n => r <> 0 -> n <> 0 /\ (r = p \/ U !! r = None) /\
      forall k i, U !! p = Some k -> 0 <= i < Z.min k n -> i mod 4 = 0 -> m' !! (r + i) = m !! (p + i)
  | HWrite p i v => m' !! (p + i) = Some v
  end.

(** the words a call does not touch: those of the client's other blocks *)
Definition heap_spares (U : record) (c : heap_call) (r a : Z) : Prop :=
  exists q n, U !! q = Some n /\ q <= a < q + n /\
    match c with
    | HAlloc _ => True
    | HFree p => q <> p
    | HRealloc p n => n <> 0 /\ r = 0 \/ q <> p
    | HWrite p i _ => a <> p + i
    end.

Section use.
Context (mh : Z) (inside : Z -> Prop).

(** the state of the heap agrees with the record, and the heap is [inside] *)
Definition heap_ok (s : hstate) (U : record) : Prop :=
  exists L A, mm_rep (h_mem s) (mmhead s) L A /\ (forall a, span L a -> inside a) /\
    (forall p, is_Some (U !! p) <-> is_Some (A !! p)) /\ forall p n k, U !! p = Some n -> A !! p = Some k -> n <= k.

(** ** What the record says of the memory *)

Lemma heap_block s U p n : heap_ok s U -> U !! p = Some n -> 0 < p /\ p mod 4 = 0 /\ p + n < 2 ^ 32 /\
  (forall a, p <= a < p + n -> inside a) /\ (forall a, p <= a < p + n -> a mod 4 = 0 -> is_Some (h_mem s !! a)).
Proof using.
  intros (L & A & (F & P & Hi) & Hs & HU & Hle) Hp. destruct (proj1 (HU p) (mk_is_Some _ _ Hp)) as [k Hk].
  pose proof (Hle p n k Hp Hk). destruct (live_in _ _ _ _ _ _ Hi p k Hk) as (H1 & H2 & H3 & H4). split_and!; [done|done|lia| |].
  - intros a Ha. apply Hs. eapply live_span; [exact Hi|exact Hk|lia].
  - intros a Ha Ha4. eapply live_words; [exact Hi|exact Hk|lia|done].
Qed.

Lemma heap_apart s U p n q k : heap_ok s U -> U !! p = Some n -> U !! q = Some k -> p <> q -> p + n <= q \/ q + k <= p.
Proof using.
  intros (L & A & (F & P & Hi) & Hs & HU & Hle) Hp Hq Hne. destruct (proj1 (HU p) (mk_is_Some _ _ Hp)) as [n' Hn'].
  destruct (proj1 (HU q) (mk_is_Some _ _ Hq)) as [k' Hk']. pose proof (Hle _ _ _ Hp Hn'). pose proof (Hle _ _ _ Hq Hk').
  destruct (live_apart _ _ _ _ _ _ Hi _ _ _ _ Hn' Hk' Hne); lia.
Qed.

(** ** The calls *)

Context (Hmh : mh <> 0).

Definition heap_post (s : hstate) (U : record) (c : heap_call) (r : Z) (s' : hstate) : Prop :=
  heap_ok s' (heap_after U c r) /\ heap_gives U c (h_mem s) r (h_mem s') /\
  (forall a, heap_spares U c r a -> h_mem s' !! a = h_mem s !! a) /\ (forall a, ~ inside a -> h_mem s' !! a = h_mem s !! a).

Lemma record_insert (U A : record) (p n k : Z) : n <= k ->
  ((forall q, is_Some (U !! q) <-> is_Some (A !! q)) /\ forall q i j, U !! q = Some i -> A !! q = Some j -> i <= j) ->
  (forall q, is_Some (<[p := n]> U !! q) <-> is_Some (<[p := k]> A !! q)) /\
  forall q i j, <[p := n]> U !! q = Some i -> <[p := k]> A !! q = Some j -> i <= j.
Proof using.
  intros Hn [H1 H2]. split; intros q.
  - rewrite !lookup_insert_is_Some'. by rewrite H1.
  - intros i j. destruct (decide (q = p)) as [->|Hne]; [rewrite !lookup_insert_eq; by intros [= <-] [= <-]|].
    rewrite !lookup_insert_ne by done. apply H2.
Qed.

Lemma record_delete (U A : record) (p : Z) :
  ((forall q, is_Some (U !! q) <-> is_Some (A !! q)) /\ forall q i j, U !! q = Some i -> A !! q = Some j -> i <= j) ->
  (forall q, is_Some (delete p U !! q) <-> is_Some (delete p A !! q)) /\
  forall q i j, delete p U !! q = Some i -> delete p A !! q = Some j -> i <= j.
Proof using.
  intros [H1 H2]. split; intros q.
  - rewrite !lookup_delete_is_Some. by rewrite H1.
  - intros i j. rewrite !lookup_delete_Some. intros [_ ?] [_ ?]. by eapply H2.
Qed.

Section call.
Context (m : mem) (pl : list Z) (h : k_mm_head) (U : record) (L : list blk) (A : record).
Context (Hr : mm_rep m h L A) (Hin : forall a, span L a -> inside a).
Context (HU : (forall q, is_Some (U !! q) <-> is_Some (A !! q)) /\ forall q i j, U !! q = Some i -> A !! q = Some j -> i <= j).

Lemma keeps_record X L' m' : keeps A X L L' m m' ->
  (forall a, span L' a -> inside a) /\ (forall a, ~ inside a -> m' !! a = m !! a) /\
  (forall q n a, U !! q = Some n -> ~ X q -> q <= a < q + n -> m' !! a = m !! a).
Proof using Hin HU.
  intros [Hc [W1 W2]]. split_and!; [auto|intros a Ha; apply W1; auto|]. intros q n a Hq HX Ha.
  destruct (proj1 (proj1 HU q) (mk_is_Some _ _ Hq)) as [k Hk]. pose proof (proj2 HU _ _ _ Hq Hk). apply (Hc q k a Hk HX). lia.
Qed.

Lemma record_zero : U !! 0 = None.
Proof using Hr HU.
  apply eq_None_not_Some. intros H. apply (proj1 HU) in H as [k Hk]. destruct Hr as (F & P & Hi).
  destruct (live_in _ _ _ _ _ _ Hi 0 k Hk) as [? _]. lia.
Qed.

Lemma record_none p : A !! p = None -> U !! p = None.
Proof using HU. rewrite !eq_None_not_Some. by rewrite (proj1 HU). Qed.

(** a call that leaves everything as it is *)
Lemma heap_post_refl c r : heap_after U c r = U -> heap_gives U c m r m -> heap_post (mkH m pl h) U c r (mkH m pl h).
Proof using Hr Hin HU. intros E Hg. split_and!; [rewrite E; by exists L, A|done|done|done]. Qed.

Lemma wp_alloc_post c n : 2 <= n <= 0xFC000000 -> heap_after U c 0 = U -> (forall m', heap_gives U c m 0 m') ->
  (forall r, r <> 0 -> heap_after U c r = <[r := n]> U) -> (forall r m', U !! r = None -> heap_gives U c m r m') ->
  wp (k_mm_alloc mh n) (heap_post (mkH m pl h) U c) (mkH m pl h).
Proof using Hr Hin HU Hmh.
  intros Hn E0 G0 E1 G1. eapply (wp_k_mm_alloc m pl h L A mh Hr Hmh); [done| |].
  - intros _. by apply heap_post_refl.
  - intros p k m' h' L' Hp Hp0 Hk Hr' Hkp _ _. destruct (keeps_record _ _ _ Hkp) as (K1 & K2 & K3).
    split_and!; [|by apply G1, record_none| |done].
    + rewrite E1 by done. exists L', (<[p := k]> A). split_and!; [done|done|..]; by apply record_insert.
    + intros a (q & j & Hq & Ha & _). apply (K3 q j a Hq); [intros Hf; exact Hf|done].
Qed.

Lemma wp_free_post p c : c = HFree p \/ c = HRealloc p 0 -> is_Some (U !! p) ->
  wp (k_mm_free mh p;; mret 0) (heap_post (mkH m pl h) U c) (mkH m pl h).
Proof using Hr Hin HU Hmh.
  intros Hc Hp. pose proof Hp as Hpa. apply (proj1 HU) in Hpa as [k Hk]. apply wp_bind.
  eapply (wp_k_mm_free m pl h L A mh Hr Hmh p k _ Hk). intros m' h' L' Hr' Hkp _. destruct (keeps_record _ _ _ Hkp) as (K1 & K2 & K3).
  apply wp_ret. split_and!.
  - replace (heap_after U c 0) with (delete p U) by by destruct Hc as [-> | ->]. exists L', (delete p A). split_and!; [done|done|..]; by apply record_delete.
  - destruct Hc as [-> | ->]; [done|]. by intros [].
  - intros a (q & j & Hq & Ha & Hs). apply (K3 q j a Hq); [|done]. intros ->. destruct Hc as [-> | ->]; [done|]. by destruct Hs as [[? _]|].
  - done.
Qed.

Lemma wp_realloc_post p n : is_Some (U !! p) -> 2 <= n <= 0xFC000000 ->
  wp (k_mm_realloc mh p n) (heap_post (mkH m pl h) U (HRealloc p n)) (mkH m pl h).
Proof using Hr Hin HU Hmh.
  intros Hp Hn. pose proof Hp as Hpa. apply (proj1 HU) in Hpa as [k Hk].
  eapply (wp_k_mm_realloc m pl h L A mh p k n Hr Hmh Hk Hn).
  - apply heap_post_refl; [cbn; by rewrite (proj2 (Z.eqb_neq n 0)) by lia|done].
  - intros q j m' h' L' (Hq0 & Hq & Hj & Hr' & Hkp & _ & Hw). destruct (keeps_record _ _ _ Hkp) as (K1 & K2 & K3). split_and!.
    + cbn [heap_after]. rewrite (proj2 (Z.eqb_neq n 0)), (proj2 (Z.eqb_neq q 0)) by lia. exists L', (<[q := j]> (delete p A)).
      split_and!; [done|done|..]; apply record_insert; try lia; by apply record_delete.
    + intros _. split_and!; [lia|destruct Hq as [?|?]; [by left|right; by apply record_none]|]. intros i x Hi Hx Hx4.
      pose proof (proj2 HU _ _ _ Hi Hk). apply Hw; [lia|done].
    + intros a (x & i & Hx & Ha & Hs). apply (K3 x i a Hx); [|done]. destruct Hs as [[_ ?]|?]; done.
    + done.
Qed.

Lemma wp_write_post p i v : heap_legal U (HWrite p i v) ->
  wp (st (p + i) v;; mret 0) (heap_post (mkH m pl h) U (HWrite p i v)) (mkH m pl h).
Proof using Hr Hin HU.
  intros (n & Hp & Hi0 & Hi & Hi4). assert (Hok : heap_ok (mkH m pl h) U) by (exists L, A; by destruct HU).
  destruct (heap_block _ _ _ _ Hok Hp) as (_ & H4 & _ & Hb & Hw). cbn [h_mem] in Hw.
  assert (Hs : is_Some (m !! (p + i))) by (apply Hw; [lia|zlia]). destruct (proj1 (proj1 HU p) (mk_is_Some _ _ Hp)) as [k Hk].
  pose proof (proj2 HU _ _ _ Hp Hk). apply wp_bind, wp_st; [done|]. apply wp_ret. split_and!; cbn [h_mem mmhead].
  - exists L, A. destruct HU as [HU1 HU2]. split_and!; [|done|done|done]. destruct Hr as (F & P & Hinv). exists F, P. eapply mm_write; [exact Hinv|exact Hk|].
    apply mem_frame_st; [lia|done|apply mem_frame_refl].
  - cbn. apply lookup_insert_eq.
  - intros a (q & j & Hq & Ha & Hne). by apply lookup_insert_ne.
  - intros a Ha. apply lookup_insert_ne. intros <-. apply Ha, Hb. lia.
Qed.
End call.

(** every legal call returns and gives what it promises *)
Lemma heap_call_ok s U c : heap_ok s U -> heap_legal U c -> wp (heap_exec mh c) (heap_post s U c) s.
Proof using Hmh.
  destruct s as [m pl h]. intros (L & A & Hr & Hin & HU1 & HU2) Hc. cbn [h_mem mmhead] in Hr.
  pose proof (conj HU1 HU2) as HU. pose proof (record_zero _ _ _ _ _ Hr HU) as H0.
  destruct c as [n|p|p n|p i v]; cbn [heap_exec heap_legal] in *.
  - unfold krhino_mm_alloc. destruct Hc as [->|Hn]; [apply wp_ret; by eapply heap_post_refl|].
    rewrite (proj2 (Z.eqb_neq n 0)) by lia. eapply wp_alloc_post; try done; cbn.
    + intros r Hr0. by rewrite (proj2 (Z.eqb_neq r 0)) by lia.
    + intros r m' HrU _. split; [lia|done].
  - unfold krhino_mm_free. destruct Hc as [->|Hp]; [|eapply wp_free_post; eauto].
    apply wp_bind. apply wp_ret, wp_ret. eapply heap_post_refl; [exact Hr|done|done|by apply delete_id|exact I].
  - unfold krhino_mm_realloc. destruct Hc as [Hp Hn]. destruct Hp as [->|Hp].
    + unfold k_mm_realloc. cbn [Z.eqb]. destruct Hn as [->|Hn]; cbn [Z.eqb negb].
      * apply wp_ret. eapply heap_post_refl; [done..| |done]. cbn. by apply delete_id.
      * rewrite (proj2 (Z.eqb_neq n 0)) by lia. cbn [negb]. eapply wp_alloc_post; try done; cbn; rewrite ?(proj2 (Z.eqb_neq n 0)) by lia.
        -- done.
        -- intros r Hr0. rewrite (proj2 (Z.eqb_neq r 0)) by lia. by rewrite delete_id.
        -- intros r m' HrU _. split_and!; [lia|by right|]. intros k i Hk. by rewrite H0 in Hk.
    + destruct Hn as [->|Hn]; [|by eapply wp_realloc_post]. assert (p <> 0) by (intros ->; rewrite H0 in Hp; by destruct Hp).
      unfold k_mm_realloc. rewrite (proj2 (Z.eqb_neq p 0)) by lia. cbn [Z.eqb]. eapply wp_free_post; eauto.
  - by eapply wp_write_post.
Qed.
End use.

(** ** Histories of a heap *)

(** the heap made of the memory at [addr], after legal calls *)
Inductive heap_reach (addr len : Z) : hstate -> record -> Prop :=
  | heap_start pp name s0 r s :
      init_memory (h_mem s0) addr len -> name <> 0 ->
      MIN_FREE_MEMORY_SIZE + RHINO_CONFIG_MM_TLF_BLK_SIZE <= init_len addr len <= MAX_MM_SIZE ->
      krhino_init_mm_head (Some pp) addr len name s0 = Ok (r, s) -> heap_reach addr len s ∅
  | heap_next s U c r s' :
      heap_reach addr len s U -> heap_legal U c -> heap_exec (init_addr addr) c s = Ok (r, s') ->
      heap_reach addr len s' (heap_after U c r).

Lemma init_addr_pos addr : 0 < addr -> init_addr addr <> 0.
Proof. unfold init_addr. intros H. zlia. Qed.

Lemma heap_reach_ok addr len s U : heap_reach addr len s U -> heap_ok (in_heap addr len) s U /\ 0 < addr.
Proof.
  intros H. induction H as [pp name [m0 pl0 h0] r s Hm Hn Hl E|s U c r s' Hr [IH Ha] Hc E].
  - split; [|apply Hm]. pose proof (wp_krhino_init_mm_head m0 pl0 h0 addr len name Hm Hn Hl pp
      (fun _ s' => heap_ok (in_heap addr len) s' ∅)) as Hw. unfold wp in Hw. rewrite E in Hw. apply Hw.
    intros m' pl' h' (L & H1 & H2 & _). exists L, ∅. split_and!; [done|done|done|]. intros p n k Hp. by rewrite lookup_empty in Hp.
  - split; [|done]. pose proof (heap_call_ok (init_addr addr) (in_heap addr len) (init_addr_pos addr Ha) s U c IH Hc) as Hw.
    unfold wp in Hw. rewrite E in Hw. apply Hw.
Qed.

Lemma heap_step addr len s U c : heap_reach addr len s U -> heap_legal U c ->
  exists r s', heap_exec (init_addr addr) c s = Ok (r, s') /\ heap_reach addr len s' (heap_after U c r) /\
    heap_post (in_heap addr len) s U c r s'.
Proof.
  intros Hr Hc. destruct (heap_reach_ok _ _ _ _ Hr) as [Hok Ha].
  pose proof (heap_call_ok (init_addr addr) (in_heap addr len) (init_addr_pos addr Ha) s U c Hok Hc) as Hw. unfold wp in Hw.
  destruct (heap_exec (init_addr addr) c s) as [[r s']| |] eqn:E; [|done..]. exists r, s'. split_and!; [done|by eapply heap_next|done].
Qed.

Lemma heap_start_ok m pl h addr len name pp : init_memory m addr len -> name <> 0 ->
  MIN_FREE_MEMORY_SIZE + RHINO_CONFIG_MM_TLF_BLK_SIZE <= init_len addr len <= MAX_MM_SIZE ->
  exists r s, krhino_init_mm_head (Some pp) addr len name (mkH m pl h) = Ok (r, s) /\ heap_reach addr len s ∅.
Proof.
  intros Hm Hn Hl. pose proof (wp_krhino_init_mm_head m pl h addr len name Hm Hn Hl pp (fun _ _ => True)) as H. unfold wp in H.
  destruct (krhino_init_mm_head _ _ _ _ _) as [[r s]| |] eqn:E; [|by exfalso; apply H..].
  exists r, s. split; [done|]. by apply (heap_start addr len pp name (mkH m pl h) r s).
Qed.

(** ** Memory *)

(** [n] words of zeros at [base] *)
Definition zero_words (base : Z) (n : nat) : mem := list_to_map ((fun i => (base + 4 * Z.of_nat i, 0)) <$> seq 0 n).

Lemma zero_words_some base n a : base <= a < base + 4 * Z.of_nat n -> (a - base) mod 4 = 0 -> is_Some (zero_words base n !! a).
Proof.
  intros Ha H4. unfold zero_words. apply elem_of_dom. rewrite dom_list_to_map_L. apply elem_of_list_to_set.
  apply list_elem_of_fmap. exists (a, 0). split; [done|]. apply list_elem_of_fmap. exists (Z.to_nat ((a - base) / 4)).
  split; [f_equal; zlia|apply elem_of_seq; zlia].
Qed.
