(* ===== verification/HeapProps.v ===== *)
(** * The properties of the heap and of the block pools

    What a client of the allocators relies on, each theorem applied to a heap of
    10000 bytes at 0x1000. *)

From S2P Require Import Prelude Config Bitmap Mem MmBlk Mm MmClass MmList MmGeom MmHole MmAlloc.
From S2P Require Import MmFree MmRealloc MmRep MmInit MmUse.
Open Scope Z_scope.

(** ** A small heap *)

Abbreviation heap0 := (mkH (zero_words 0x1000 2500) [] zero_head).
Definition state_of {A} (r : res kstat_t (A * hstate)) : hstate := match r with Ok (_, s) => s | _ => mkH ∅ [] zero_head end.
Definition result_of {A} (d : A) (r : res kstat_t (A * hstate)) : A := match r with Ok (a, _) => a | _ => d end.

Abbreviation heap1 := (state_of (krhino_init_mm_head (Some 0%nat) 0x1000 10000 1 heap0)).

(** after a call of [krhino_mm_alloc] for 100 bytes *)
Abbreviation block1 := (result_of 0 (heap_exec 0x1000 (HAlloc 100) heap1)).
Abbreviation heap2 := (state_of (heap_exec 0x1000 (HAlloc 100) heap1)).
(** and one for 20 *)
Abbreviation block2 := (result_of 0 (heap_exec 0x1000 (HAlloc 20) heap2)).
Abbreviation heap3 := (state_of (heap_exec 0x1000 (HAlloc 20) heap2)).

Lemma memory0 : init_memory (zero_words 0x1000 2500) 0x1000 10000.
Proof. split; [done|done|]. intros a Ha H4. apply zero_words_some; [lia|zlia]. Qed.

Lemma reach1 : heap_reach 0x1000 10000 heap1 ∅.
Proof.
  destruct (heap_start_ok (zero_words 0x1000 2500) [] zero_head 0x1000 10000 1 0 memory0 ltac:(done) ltac:(by vm_compute)) as (r & s & E & Hr).
  rewrite E. exact Hr.
Qed.

(** the calls return, so their states are reached *)
Lemma reach_exec s U c s' r : state_of (heap_exec 0x1000 c s) = s' -> result_of 0 (heap_exec 0x1000 c s) = r ->
  heap_reach 0x1000 10000 s U -> heap_legal U c -> heap_reach 0x1000 10000 s' (heap_after U c r).
Proof.
  intros <- <- Hr Hc. destruct (heap_step _ _ _ _ _ Hr Hc) as (r & s' & E & Hr' & _). change (init_addr 0x1000) with 0x1000 in E.
  by rewrite E.
Qed.

Lemma block1_at : block1 = 10208.
Proof. vm_compute. reflexivity. Qed.

Lemma block2_at : block2 = 6104.
Proof. vm_compute. reflexivity. Qed.

Definition record3 : gmap Z Z := <[6104 := 20]> {[10208 := 100]}.

Lemma reach2 : heap_reach 0x1000 10000 heap2 {[10208 := 100]}.
Proof. apply (reach_exec heap1 ∅ (HAlloc 100) heap2 10208 eq_refl block1_at reach1). by right. Qed.

Lemma reach3 : heap_reach 0x1000 10000 heap3 record3.
Proof. apply (reach_exec heap2 {[10208 := 100]} (HAlloc 20) heap3 6104 eq_refl block2_at reach2). by right. Qed.

(** ** The heap *)

(** C27: [krhino_init_mm_head] makes a heap of the memory it is given, in which
    nothing is allocated and which touches no other word, when the memory is of
    a size it accepts; the pool of small blocks is there unless the memory is
    smaller than 6208 bytes. *)
Theorem heap_init_correct m pl h pp addr len name :
  init_memory m addr len -> name <> 0 ->
  wp (krhino_init_mm_head (Some pp) addr len name) (fun r s' =>
    if decide (MIN_FREE_MEMORY_SIZE + RHINO_CONFIG_MM_TLF_BLK_SIZE <= init_len addr len <= MAX_MM_SIZE)
    then r = (RHINO_SUCCESS, Some (init_addr addr)) /\ init_post m addr len (h_mem s') (mmhead s')
    else r = (RHINO_MM_POOL_SIZE_ERR, None) /\ s' = mkH m pl h) (mkH m pl h).
Proof.
  intros Hm Hn. case_decide as Hl; [by apply wp_krhino_init_mm_head|by apply wp_init_size_err].
Qed.

Example heap_init_correct_witness :
  wp (krhino_init_mm_head (Some 0%nat) 0x1000 10000 1) (fun r s' =>
    if decide (MIN_FREE_MEMORY_SIZE + RHINO_CONFIG_MM_TLF_BLK_SIZE <= init_len 0x1000 10000 <= MAX_MM_SIZE)
    then r = (RHINO_SUCCESS, Some (init_addr 0x1000)) /\ init_post (zero_words 0x1000 2500) 0x1000 10000 (h_mem s') (mmhead s')
    else r = (RHINO_MM_POOL_SIZE_ERR, None) /\ s' = mkH (zero_words 0x1000 2500) [] zero_head) (mkH (zero_words 0x1000 2500) [] zero_head).
Proof. apply heap_init_correct; [exact memory0|lia]. Defined.

(** C13: a heap refines the record its client keeps of it.  After any history of
    legal calls, a legal call returns; it gives a block that was free and of the
    size asked for, or a resized block with its first words, or nothing; it
    leaves the other blocks of the client as they were, and no word outside the
    heap is written. *)
Theorem heap_calls_correct addr len s U c : heap_reach addr len s U -> heap_legal U c ->
  exists r s', heap_exec (init_addr addr) c s = Ok (r, s') /\ heap_reach addr len s' (heap_after U c r) /\
    heap_gives U c (h_mem s) r (h_mem s') /\ (forall a, heap_spares U c r a -> h_mem s' !! a = h_mem s !! a) /\
    (forall a, ~ in_heap addr len a -> h_mem s' !! a = h_mem s !! a).
Proof. intros Hr Hc. destruct (heap_step _ _ _ _ _ Hr Hc) as (r & s' & E & Hr' & _ & Hp). by exists r, s'. Qed.

Example heap_calls_correct_witness : exists r s', heap_exec 0x1000 (HRealloc 10208 3000) heap3 = Ok (r, s') /\
  heap_reach 0x1000 10000 s' (heap_after record3 (HRealloc 10208 3000) r).
Proof.
  destruct (heap_calls_correct 0x1000 10000 heap3 _ (HRealloc 10208 3000) reach3) as (r & s' & E & Hr & _).
  { split; [right; eexists; vm_compute; reflexivity|by right]. }
  exists r, s'. split; [exact E|exact Hr].
Defined.

(** C28: the blocks a client has, of the sizes it asked for, lie in the heap,
    start at multiples of 4, are made of words of the memory and do not
    overlap. *)
Theorem heap_blocks_apart addr len s U p n : heap_reach addr len s U -> U !! p = Some n ->
  (0 < p /\ p mod 4 = 0 /\ p + n < 2 ^ 32) /\
  (forall a, p <= a < p + n -> in_heap addr len a /\ (a mod 4 = 0 -> is_Some (h_mem s !! a))) /\
  forall q k, U !! q = Some k -> p <> q -> p + n <= q \/ q + k <= p.
Proof.
  intros Hr Hp. destruct (heap_reach_ok _ _ _ _ Hr) as [Hok _]. destruct (heap_block _ _ _ _ _ Hok Hp) as (H1 & H2 & H3 & H4 & H5).
  split_and!; [done|done|done|auto|]. intros q k. by apply (heap_apart _ _ _ _ _ _ _ Hok).
Qed.

Example heap_blocks_apart_witness : 10208 + 100 <= 6104 \/ 6104 + 20 <= 10208.
Proof.
  pose proof (heap_blocks_apart 0x1000 10000 heap3 _ 10208 100 reach3 ltac:(by vm_compute)) as (_ & _ & H).
  apply H; by vm_compute.
Defined.

(** C29: an allocation of 2 bytes or more fails only when no free block is as
    large as the smallest of the class of its size; one that is not served from
    the pool of small blocks takes a free block of the lowest class that has
    one. *)
Theorem heap_alloc_good_fit addr len s U n : heap_reach addr len s U -> 2 <= n <= 0xFC000000 ->
  wp (krhino_mm_alloc (init_addr addr) n) (fun r _ => exists L A, mm_rep (h_mem s) (mmhead s) L A /\
    (r = 0 -> no_fit L (room n)) /\ (r <> 0 -> DEF_FIX_BLK_SIZE < n -> good_fit L (r - 8) (room n))) s.
Proof.
  intros Hr Hn. destruct (heap_reach_ok _ _ _ _ Hr) as [(L & A & Hm & _) Ha]. destruct s as [m pl h]. cbn [h_mem mmhead] in *.
  unfold krhino_mm_alloc. rewrite (proj2 (Z.eqb_neq n 0)) by lia. eapply wp_k_mm_alloc; [exact Hm|by apply init_addr_pos|done| |].
  - intros Hno. by exists L, A.
  - intros p k m' h' L' _ Hp _ _ _ _ Hg. exists L, A. by split_and!; [..|intros _].
Qed.

Example heap_alloc_good_fit_witness :
  wp (krhino_mm_alloc (init_addr 0x1000) 9000) (fun r _ => exists L A, mm_rep (h_mem heap2) (mmhead heap2) L A /\
    (r = 0 -> no_fit L (room 9000)) /\ (r <> 0 -> DEF_FIX_BLK_SIZE < 9000 -> good_fit L (r - 8) (room 9000))) heap2.
Proof. apply (heap_alloc_good_fit _ _ _ _ _ reach2). lia. Defined.

(** ** Block pools *)

(** C30: a pool of blocks is a stack of its free blocks: made from memory that is
    large enough, it holds them all in order; taking one gives the first, or
    says that there is none, and giving one back puts it first. *)
Theorem block_pool_correct m pl h pool name start size psize ops rs L :
  pool_memory m pool start size psize -> name <> 0 ->
  pool_abs_run (blocks_from start size 0 (Z.to_nat (psize / size))) ops (blocks_from start size 0 (Z.to_nat (psize / size))) = Some (rs, L) ->
  wp (r ← krhino_mblk_pool_init pool name start size psize; rs ← pool_run pool ops; mret (r, rs))
    (fun r _ => r = (RHINO_SUCCESS, rs)) (mkH m pl h).
Proof.
  intros Hm Hn E. pose proof Hm as [_ [_ [A2 _]] [S1 [S2 S3]] Hw _ _]. apply wp_bind, wp_mblk_pool_init; [done|done|].
  intros m' Hp Hf. apply wp_bind. rewrite <- (Z2Nat.id (psize / size)) in Hp at 1 by zlia. eapply wp_pool_run; [exact Hp| |exact E|].
  - intros b Hb. apply elem_of_blocks_from in Hb as (i & Hi & ->). eapply mem_frame_some; [exact Hf|]. apply Hw.
    + split; [nia|]. rewrite Z.add_0_l, Z2Nat.id in Hi by zlia. assert (psize / size * size <= psize) by zlia. nia.
    + rewrite Z.add_mod, Z.mul_mod, A2, Z.mul_0_r by done. by rewrite (proj1 (pm_align _ _ _ _ _ Hm)).
  - intros m2 _. by apply wp_ret.
Qed.

Example block_pool_correct_witness :
  wp (r ← krhino_mblk_pool_init 0x1000 1 0x1020 32 100; rs ← pool_run 0x1000 [PAlloc; PAlloc; PFree 0x1020; PAlloc; PAlloc; PAlloc]; mret (r, rs))
    (fun r _ => r = (RHINO_SUCCESS, [(RHINO_SUCCESS, Some 0x1020); (RHINO_SUCCESS, Some 0x1040); (RHINO_SUCCESS, None);
                                     (RHINO_SUCCESS, Some 0x1020); (RHINO_SUCCESS, Some 0x1060); (RHINO_NO_MEM, Some 0)])) heap0.
Proof.
  apply (block_pool_correct _ _ _ _ _ _ _ _ _ _ []); [|done|vm_compute; reflexivity].
  split; [done|done|done| | |by left].
  - intros a Ha H4. apply zero_words_some; [lia|zlia].
  - intros k Hk. apply zero_words_some; [lia|zlia].
Defined.
