(* ===== verification/UartBus.v ===== *)
(** * The UART bus of the SDK ([sdk/lib/bus/macbus/uart_bus.c])

    Frames come in over the UART a byte at a time: the interrupt handler puts the
    bytes into a ring and finds the ends of the frames by the length in their
    headers, or by a pause (the timer); a task takes what there is up to
    [stop_pos] out of the ring and gives it to the bus.  The task is cut where
    interrupts can make a difference: it reads [stop_pos] when it computes the
    number of bytes, and again when it copies them. *)

From S2P Require Import Prelude Config.
Open Scope Z_scope.

(** ** The code *)

Definition UART_BUS_RX_BUF_SIZE : Z := 4096.

(** the task: waiting for the semaphore, about to allocate and copy [count]
    bytes, about to give the copy to the bus, about to move [rpos] *)
Inductive task_pc := AtDown | AtCopy (count : Z) | AtRecv (count : Z) (buf : list Z) | AtMove (count : Z).

(** [rb.qsize] is [UART_BUS_RX_BUF_SIZE]; [recvd] are the arguments of the calls
    of [bus.recv] *)
Record mac_bus_uart := mkUart {
  sema : Z;
  timer_on : bool;
  rxbuff : list Z;
  rpos : Z;
  wpos : Z;
  rxcount : Z;
  stop_pos : Z;
  magic : Z;
  frm_len : Z;
  fixlen : Z;
  rx_chn : Z;
  recvd : list (list Z);
  pc : task_pc
}.

Definition set_sema v u := mkUart v (timer_on u) (rxbuff u) (rpos u) (wpos u) (rxcount u) (stop_pos u) (magic u) (frm_len u) (fixlen u) (rx_chn u) (recvd u) (pc u).
Definition set_timer v u := mkUart (sema u) v (rxbuff u) (rpos u) (wpos u) (rxcount u) (stop_pos u) (magic u) (frm_len u) (fixlen u) (rx_chn u) (recvd u) (pc u).
Definition set_ring b w u := mkUart (sema u) (timer_on u) b (rpos u) w (rxcount u) (stop_pos u) (magic u) (frm_len u) (fixlen u) (rx_chn u) (recvd u) (pc u).
Definition set_rpos v u := mkUart (sema u) (timer_on u) (rxbuff u) v (wpos u) (rxcount u) (stop_pos u) (magic u) (frm_len u) (fixlen u) (rx_chn u) (recvd u) (pc u).
Definition set_head c m f u := mkUart (sema u) (timer_on u) (rxbuff u) (rpos u) (wpos u) c (stop_pos u) m f (fixlen u) (rx_chn u) (recvd u) (pc u).
Definition set_stop v u := mkUart (sema u) (timer_on u) (rxbuff u) (rpos u) (wpos u) (rxcount u) v (magic u) (frm_len u) (fixlen u) (rx_chn u) (recvd u) (pc u).
Definition set_rx_chn v u := mkUart (sema u) (timer_on u) (rxbuff u) (rpos u) (wpos u) (rxcount u) (stop_pos u) (magic u) (frm_len u) (fixlen u) v (recvd u) (pc u).
Definition add_recvd v u := mkUart (sema u) (timer_on u) (rxbuff u) (rpos u) (wpos u) (rxcount u) (stop_pos u) (magic u) (frm_len u) (fixlen u) (rx_chn u) (recvd u ++ [v]) (pc u).
Definition set_pc v u := mkUart (sema u) (timer_on u) (rxbuff u) (rpos u) (wpos u) (rxcount u) (stop_pos u) (magic u) (frm_len u) (fixlen u) (rx_chn u) (recvd u) v.

Abbreviation U := (M kstat_t mac_bus_uart).

(** [RB_NPOS], [RB_FULL], [RB_COUNT] *)
Definition RB_NPOS (pos i : Z) : Z := if UART_BUS_RX_BUF_SIZE <=? pos + i then pos + i - UART_BUS_RX_BUF_SIZE else pos + i.
Definition RB_FULL (u : mac_bus_uart) : bool := RB_NPOS (wpos u) 1 =? rpos u.
Definition RB_COUNT (u : mac_bus_uart) : Z :=
  if rpos u <=? wpos u then wpos u - rpos u else UART_BUS_RX_BUF_SIZE - rpos u + wpos u.

Definition RB_SET (v : Z) : U unit :=
  full ← gets RB_FULL;
  if full : bool then mret tt else
  w ← gets wpos;
  b ← gets rxbuff;
  _ ← lift (b !! Z.to_nat w);
  modify (set_ring (<[Z.to_nat w := v]> b) (RB_NPOS w 1)).

(** the bytes up to [wpos] are given to the task *)
Definition uart_flush : U unit :=
  w ← gets wpos;
  modify (set_stop w);;
  modify (set_head 0 0 0);;
  modify (fun u => set_sema (sema u + 1) u).

(** [chn] is what [uart_gets] returns *)
Definition uart_bus_irq_hdl (byte chn : Z) : U unit :=
  fx ← gets fixlen;
  if 0 <? fx then
    b ← gets rxbuff;
    _ ← lift (b !! Z.to_nat (fx - 1));
    modify (add_recvd (take (Z.to_nat fx) b));;
    modify (set_rx_chn chn)
  else
    modify (set_timer false);;
    RB_SET (u8 byte);;
    modify (fun u => set_head (u32 (rxcount u + 1)) (magic u) (frm_len u) u);;
    c ← gets rxcount;
    (if c <=? 2 then
       modify (fun u => set_head c (u16 (Z.lor (Z.shiftr (magic u) 8) (Z.shiftl (u8 byte) 8))) (frm_len u) u)
     else if (c =? 5) || (c =? 6) then
       modify (fun u => set_head c (magic u) (u16 (Z.lor (Z.shiftr (frm_len u) 8) (Z.shiftl (u8 byte) 8))) u)
     else mret tt);;
    m ← gets magic;
    l ← gets frm_len;
    n ← gets RB_COUNT;
    (if ((m =? 0x1A2B) && negb (l =? 0) && (l <=? c)) || (UART_BUS_RX_BUF_SIZE - 1 <=? n) then uart_flush else mret tt);;
    modify (set_timer true).

Definition uart_bus_timer_cb : U unit := uart_flush.

(** [count], computed by the task after [os_sema_down] *)
Definition task_count (u : mac_bus_uart) : Z :=
  if rpos u <=? stop_pos u then stop_pos u - rpos u else UART_BUS_RX_BUF_SIZE - rpos u + stop_pos u.

(** [hw_memcpy(buf + off, ...)]: [src] goes into [buf]; past its end it would
    overwrite the heap *)
Definition copy_to (off : nat) (src buf : list Z) : option (list Z) :=
  if decide (off + length src <= length buf)%nat then Some (take off buf ++ src ++ drop (off + length src) buf) else None.

(** [n] bytes of [b] from [i] on *)
Definition bytes_at (b : list Z) (i n : Z) : option (list Z) :=
  if (0 <=? i) && (0 <=? n) && (i + n <=? Z.of_nat (length b)) then Some (take (Z.to_nat n) (drop (Z.to_nat i) b)) else None.

Definition task_copy (count : Z) (buf : list Z) (u : mac_bus_uart) : option (list Z) :=
  if rpos u <? stop_pos u then
    s ← bytes_at (rxbuff u) (rpos u) count; copy_to 0 s buf
  else
    let part := UART_BUS_RX_BUF_SIZE - rpos u in
    s ← bytes_at (rxbuff u) (rpos u) part;
    buf ← copy_to 0 s buf;
    s ← bytes_at (rxbuff u) 0 (stop_pos u);
    copy_to (Z.to_nat part) s buf.

(** one piece of [uart_bus_task]; [mem] is the memory [os_malloc(count)] returns,
    with whatever it holds *)
Definition uart_bus_task (mem : option (list Z)) : U unit :=
  p ← gets pc;
  match p with
  | AtDown =>
      s ← gets sema;
      if 0 <? s then
        modify (set_sema (s - 1));;
        count ← gets task_count;
        modify (set_pc (if 0 <? count then AtCopy count else AtDown))
      else mret tt
  | AtCopy count =>
      match mem with
      | Some buf =>
          u ← gets id;
          buf ← lift (task_copy count buf u);
          modify (set_pc (AtRecv count buf))
      | None => modify (set_pc (AtMove count))
      end
  | AtRecv count buf => modify (add_recvd buf);; modify (set_pc (AtMove count))
  | AtMove count => modify (fun u => set_rpos (RB_NPOS (rpos u) count) u);; modify (set_pc AtDown)
  end.

(** after [mac_bus_uart_attach], with [sys_cfgs.uart_fixlen] *)
Definition mac_bus_uart_attach (cfg_fixlen : Z) : mac_bus_uart :=
  mkUart 0 false (replicate (Z.to_nat UART_BUS_RX_BUF_SIZE) 0) 0 0 0 0 0 0
    (if UART_BUS_RX_BUF_SIZE <? cfg_fixlen then UART_BUS_RX_BUF_SIZE else cfg_fixlen) 0 [] AtDown.

(** what happens: a byte, the timer, a piece of the task *)
Inductive uart_event := EvByte (b : Z) | EvTimeout | EvTask (mem : option (list Z)).

Definition uart_exec (e : uart_event) : U unit :=
  match e with
  | EvByte b => uart_bus_irq_hdl b 0
  | EvTimeout => modify (set_timer false);; uart_bus_timer_cb
  | EvTask mem => uart_bus_task mem
  end.

Fixpoint uart_run (es : list uart_event) : U unit :=
  match es with [] => mret tt | e :: es => uart_exec e;; uart_run es end.

(** ** What the bus is for *)

(** the header of a frame: the magic number, and the length at offset 4 *)
Definition magic_of (l : list Z) : Z :=
  match l with [] => 0 | [a] => Z.shiftl a 8 | a :: b :: _ => Z.lor a (Z.shiftl b 8) end.
Definition len_of (l : list Z) : Z :=
  match l with
  | _ :: _ :: _ :: _ :: a :: l => match l with [] => Z.shiftl a 8 | b :: _ => Z.lor a (Z.shiftl b 8) end
  | _ => 0
  end.

(** the bytes of a frame up to its end *)
Definition complete (l : list Z) : bool :=
  (magic_of l =? 0x1A2B) && negb (len_of l =? 0) && (len_of l <=? Z.of_nat (length l)).

(** the task: at rest, before the copy, after it, after [bus.recv] *)
Inductive stage := Idle | Counted | Copied | Given.

(** the bytes that came in, cut in chunks: given to the bus, copied by the task,
    waiting for it, and those of the frame that is coming *)
Record frames := mkF { f_done : list (list Z); f_fly : list Z; f_pend : list Z; f_cur : list Z; f_stage : stage; f_ups : Z; f_timer : bool }.

Definition in_ring (F : frames) : list Z := f_fly F ++ f_pend F ++ f_cur F.

(** what may happen: a byte while there is room, which ends a frame only when the
    task has copied the one before; the timer, under the same condition; the
    task, whose allocations succeed *)
Definition uart_legal (F : frames) (e : uart_event) : Prop :=
  match e with
  | EvByte b => 0 <= b < 256 /\ Z.of_nat (length (in_ring F)) + 2 < UART_BUS_RX_BUF_SIZE /\ (complete (f_cur F ++ [b]) = true -> f_pend F = [])
  | EvTimeout => f_timer F = true /\ (f_pend F = [] \/ f_cur F = [])
  | EvTask mem => f_stage F = Counted -> exists buf, mem = Some buf /\ length buf = length (f_pend F)
  end.

Definition frames_step (F : frames) (e : uart_event) : frames :=
  let '(mkF d fl p c st ups t) := F in
  match e with
  | EvByte b => if complete (c ++ [b]) then mkF d fl (c ++ [b]) [] st (ups + 1) true else mkF d fl p (c ++ [b]) st ups true
  | EvTimeout => mkF d fl (p ++ c) [] st (ups + 1) false
  | EvTask _ =>
      match st with
      | Idle => if 0 <? ups then mkF d fl p c (if bool_decide (p = []) then Idle else Counted) (ups - 1) t else F
      | Counted => mkF d p [] c Copied ups t
      | Copied => mkF (d ++ [fl]) fl p c Given ups t
      | Given => mkF d [] p c Idle ups t
      end
  end.

Fixpoint frames_run (F : frames) (es : list uart_event) : frames :=
  match es with [] => F | e :: es => frames_run (frames_step F e) es end.

Fixpoint uart_legal_run (F : frames) (es : list uart_event) : Prop :=
  match es with [] => True | e :: es => uart_legal F e /\ uart_legal_run (frames_step F e) es end.

Definition frames0 : frames := mkF [] [] [] [] Idle 0 false.

(** ** The ring *)

Abbreviation q := UART_BUS_RX_BUF_SIZE.

(** the bytes of [l] are in the ring from [r] on *)
Definition ring_holds (b : list Z) (r : Z) (l : list Z) : Prop :=
  forall k x, l !! k = Some x -> b !! Z.to_nat ((r + Z.of_nat k) mod q) = Some x.

(** the positions as sums, at most one turn of the ring *)
Lemma mod_turn r n : 0 <= r < q -> 0 <= n <= q -> (r + n) mod q = if r + n <? q then r + n else r + n - q.
Proof.
  intros Hr Hn. change q with 4096 in *. destruct (Z.ltb_spec (r + n) 4096); [apply Z.mod_small; lia|].
  replace (r + n) with (r + n - 4096 + 1 * 4096) at 1 by lia. rewrite Z.mod_add by done. apply Z.mod_small. lia.
Qed.

Lemma npos_mod p i : 0 <= p < q -> 0 <= i <= q -> RB_NPOS p i = (p + i) mod q.
Proof.
  intros Hp Hi. rewrite mod_turn by done. unfold RB_NPOS. destruct (Z.leb_spec q (p + i)), (Z.ltb_spec (p + i) q); done || lia.
Qed.

Lemma count_mod r n : 0 <= r < q -> 0 <= n < q -> (if r <=? (r + n) mod q then (r + n) mod q - r else q - r + (r + n) mod q) = n.
Proof.
  intros Hr Hn. rewrite mod_turn by lia. change q with 4096 in *. destruct (Z.ltb_spec (r + n) 4096).
  - rewrite (proj2 (Z.leb_le _ _)); lia.
  - rewrite (proj2 (Z.leb_gt _ _)); lia.
Qed.

Lemma ring_holds_app b r l1 l2 : 0 <= r -> ring_holds b r (l1 ++ l2) -> ring_holds b r l1 /\ ring_holds b ((r + Z.of_nat (length l1)) mod q) l2.
Proof.
  intros Hr Hh. split; intros k x Hk.
  - apply Hh. by apply lookup_app_l_Some.
  - rewrite Z.add_mod_idemp_l by done. replace (r + Z.of_nat (length l1) + Z.of_nat k) with (r + Z.of_nat (length l1 + k)) by lia.
    apply Hh. rewrite lookup_app_r by lia. by replace (length l1 + k - length l1)%nat with k by lia.
Qed.

(** a byte behind the others *)
Lemma ring_holds_snoc b r l x : length b = Z.to_nat q -> 0 <= r < q -> Z.of_nat (length l) < q -> ring_holds b r l ->
  ring_holds (<[Z.to_nat ((r + Z.of_nat (length l)) mod q) := x]> b) r (l ++ [x]).
Proof.
  intros Hb Hr Hl Hh k y Hk. pose proof (lookup_lt_Some _ _ _ Hk) as Hlt. rewrite length_app in Hlt. cbn in Hlt.
  assert (Hm : forall n, 0 <= (r + n) mod q < q) by (intros n; by apply Z.mod_pos_bound).
  destruct (decide (k = length l)) as [->|Hne].
  - rewrite lookup_app_r, Nat.sub_diag in Hk by lia. injection Hk as ->. apply list_lookup_insert_eq.
    rewrite Hb. pose proof (Hm (Z.of_nat (length l))). change q with 4096 in *. lia.
  - rewrite list_lookup_insert_ne; [apply Hh; by rewrite lookup_app_l in Hk by lia|].
    rewrite !mod_turn by lia. change q with 4096 in *. destruct (Z.ltb_spec (r + Z.of_nat (length l)) 4096), (Z.ltb_spec (r + Z.of_nat k) 4096); lia.
Qed.

(** a part of the ring that does not go over its end *)
Lemma ring_bytes_at b r l n : length b = Z.to_nat q -> 0 <= r < q -> ring_holds b r l -> r + n <= q -> 0 <= n <= Z.of_nat (length l) ->
  bytes_at b r n = Some (take (Z.to_nat n) l).
Proof.
  intros Hb Hr Hh Hn Hl. unfold bytes_at. rewrite !(proj2 (Z.leb_le _ _)) by (rewrite ?Hb; change q with 4096 in *; lia). cbn [andb]. f_equal.
  apply list_eq. intros k. destruct (decide (k < Z.to_nat n)%nat) as [Hk|Hk].
  - rewrite !lookup_take_lt by done. rewrite lookup_drop. destruct (lookup_lt_is_Some_2 l k) as [x Hx]; [lia|]. rewrite Hx.
    rewrite <- (Hh k x Hx). f_equal. rewrite mod_turn by (change q with 4096 in *; lia). rewrite (proj2 (Z.ltb_lt _ _)) by lia. lia.
  - by rewrite !lookup_take_ge by lia.
Qed.

Lemma copy_to_fill s buf : length s = length buf -> copy_to 0 s buf = Some s.
Proof. intros E. unfold copy_to. rewrite decide_True by lia. cbn [take Nat.add app]. by rewrite drop_ge, app_nil_r by lia. Qed.

Lemma copy_to_some off s buf : (off + length s <= length buf)%nat -> copy_to off s buf = Some (take off buf ++ s ++ drop (off + length s) buf).
Proof. intros H. unfold copy_to. by rewrite decide_True. Qed.

(** the task copies what it has counted *)
Lemma task_copy_ring u l n buf : length (rxbuff u) = Z.to_nat q -> 0 <= rpos u < q -> ring_holds (rxbuff u) (rpos u) l ->
  Z.of_nat (length l) = n -> 0 < n < q -> stop_pos u = (rpos u + n) mod q -> length buf = length l -> task_copy n buf u = Some l.
Proof.
  intros Hb Hr Hh Hl Hn Hs Hbuf. unfold task_copy. rewrite Hs, mod_turn by lia. destruct (Z.ltb_spec (rpos u + n) q) as [Hlt|Hge].
  - rewrite (proj2 (Z.ltb_lt _ _)) by lia. rewrite (ring_bytes_at _ _ l) by (done || lia). cbn. rewrite take_ge by lia. by apply copy_to_fill.
  - rewrite (proj2 (Z.ltb_ge _ _)) by lia. cbv zeta. remember (q - rpos u) as part eqn:Hpart. rewrite (ring_bytes_at _ (rpos u) l part) by (done || lia). cbn [mbind option_bind].
    rewrite copy_to_some by (rewrite length_take; lia). cbn [mbind option_bind take app Nat.add].
    assert (Hh2 : ring_holds (rxbuff u) 0 (drop (Z.to_nat part) l)).
    { rewrite <- (take_drop (Z.to_nat part) l) in Hh. apply ring_holds_app in Hh as [_ Hh]; [|lia].
      rewrite length_take_le in Hh by lia. replace ((rpos u + Z.of_nat (Z.to_nat part)) mod q) with 0 in Hh; [done|].
      rewrite Z2Nat.id by lia. replace (rpos u + part) with q by lia. symmetry. by apply Z.mod_same. }
    rewrite (ring_bytes_at _ _ (drop (Z.to_nat part) l)) by (rewrite ?length_drop; done || lia). cbn [mbind option_bind].
    rewrite take_ge by (rewrite length_drop; lia). rewrite copy_to_some by (rewrite ?length_app, ?length_drop, ?length_take; lia). f_equal.
    change (take 0 buf) with (@nil Z). cbn [app]. rewrite (take_app_le (take (Z.to_nat part) l)) by (rewrite length_take; lia). rewrite take_take, Nat.min_id. rewrite (drop_ge (_ ++ _)), app_nil_r by (rewrite ?length_app, ?length_drop, ?length_take; lia).
    apply take_drop.
Qed.

(** ** The bus implements the frames *)

(** where the task is *)
Definition pc_at (u : mac_bus_uart) (F : frames) : Prop :=
  match f_stage F with
  | Idle => pc u = AtDown /\ f_fly F = []
  | Counted => pc u = AtCopy (Z.of_nat (length (f_pend F))) /\ f_fly F = [] /\ f_pend F <> []
  | Copied => pc u = AtRecv (Z.of_nat (length (f_fly F))) (f_fly F)
  | Given => pc u = AtMove (Z.of_nat (length (f_fly F)))
  end.

Record uart_rep (u : mac_bus_uart) (F : frames) : Prop := {
  ur_len : length (rxbuff u) = Z.to_nat q;
  ur_rpos : 0 <= rpos u < q;
  ur_room : Z.of_nat (length (in_ring F)) < q - 1;
  ur_wpos : wpos u = (rpos u + Z.of_nat (length (in_ring F))) mod q;
  ur_ring : ring_holds (rxbuff u) (rpos u) (in_ring F);
  ur_stop : stop_pos u = (rpos u + Z.of_nat (length (f_fly F ++ f_pend F))) mod q;
  ur_count : rxcount u = Z.of_nat (length (f_cur F));
  ur_magic : magic u = magic_of (f_cur F);
  ur_frm_len : frm_len u = len_of (f_cur F);
  ur_cur : complete (f_cur F) = false;
  ur_bytes : Forall (fun b => 0 <= b < 256) (f_cur F);
  ur_sema : sema u = f_ups F /\ 0 <= f_ups F;
  ur_woken : f_pend F <> [] -> f_stage F = Counted \/ 0 < f_ups F;
  ur_pc : pc_at u F;
  ur_timer : timer_on u = f_timer F;
  ur_recvd : recvd u = f_done F;
  ur_fixlen : fixlen u = 0
}.

(** the header as the handler computes it, a byte more *)
Definition head_step (c m l b : Z) : Z * Z :=
  if c <=? 2 then (u16 (Z.lor (Z.shiftr m 8) (Z.shiftl (u8 b) 8)), l)
  else if (c =? 5) || (c =? 6) then (m, u16 (Z.lor (Z.shiftr l 8) (Z.shiftl (u8 b) 8)))
  else (m, l).

Lemma u16_word a b : 0 <= a < 256 -> 0 <= b < 256 -> u16 (Z.lor (Z.shiftr (Z.shiftl a 8) 8) (Z.shiftl (u8 b) 8)) = Z.lor a (Z.shiftl b 8).
Proof.
  intros Ha Hb. rewrite Z.shiftr_shiftl_l, Z.shiftl_0_r, u8_small by done. apply Z.mod_small. rewrite lor_shiftl_add by done. lia.
Qed.

Lemma u16_first b : 0 <= b < 256 -> u16 (Z.lor 0 (Z.shiftl (u8 b) 8)) = Z.shiftl b 8.
Proof. intros Hb. rewrite Z.lor_0_l, u8_small, Z.shiftl_mul_pow2 by done. apply Z.mod_small. lia. Qed.

Lemma head_step_snoc l b : Forall (fun b => 0 <= b < 256) l -> 0 <= b < 256 ->
  head_step (Z.of_nat (length l) + 1) (magic_of l) (len_of l) b = (magic_of (l ++ [b]), len_of (l ++ [b])).
Proof.
  intros Hl Hb. unfold head_step. rewrite Forall_forall in Hl.
  destruct l as [|x0 [|x1 [|x2 [|x3 [|x4 [|x5 l]]]]]]; cbn [length app magic_of len_of]; try (by rewrite ?u16_first).
  - f_equal. apply u16_word; [apply Hl; left|done].
  - f_equal. apply u16_word; [apply Hl; do 4 right; left|done].
  - rewrite (proj2 (Z.leb_gt _ _)), !(proj2 (Z.eqb_neq _ _)) by lia. done.
Qed.

#[local] Ltac fields := cbn [set_sema set_timer set_ring set_rpos set_head set_stop set_rx_chn add_recvd set_pc sema timer_on rxbuff rpos wpos
  rxcount stop_pos magic frm_len fixlen rx_chn recvd pc f_done f_fly f_pend f_cur f_stage f_ups f_timer] in *.

Section step.
Context (u : mac_bus_uart) (F : frames).
Context (Hr : uart_rep u F).

Lemma wp_RB_SET b (Q : unit -> mac_bus_uart -> Prop) : 0 <= b < 256 -> Z.of_nat (length (in_ring F)) + 1 < q ->
  (forall rb, length rb = Z.to_nat q -> ring_holds rb (rpos u) (in_ring F ++ [b]) ->
     Q tt (set_ring rb ((rpos u + Z.of_nat (length (in_ring F)) + 1) mod q) u)) ->
  wp (RB_SET b) Q u.
Proof using Hr.
  intros Hb Hroom HQ. destruct Hr. unfold RB_SET. apply wp_bind, wp_gets.
  assert (Hm : 0 <= wpos u < q) by (rewrite ur_wpos0; by apply Z.mod_pos_bound).
  assert (En : RB_NPOS (wpos u) 1 = (rpos u + Z.of_nat (length (in_ring F)) + 1) mod q).
  { rewrite npos_mod by (done || lia). by rewrite ur_wpos0, Z.add_mod_idemp_l. }
  assert (Hf : RB_FULL u = false).
  { unfold RB_FULL. apply Z.eqb_neq. rewrite En, <- Z.add_assoc, mod_turn by lia. destruct (Z.ltb_spec (rpos u + (Z.of_nat (length (in_ring F)) + 1)) q); lia. }
  rewrite Hf. apply wp_bind, wp_gets, wp_bind, wp_gets.
  destruct (lookup_lt_is_Some_2 (rxbuff u) (Z.to_nat (wpos u))) as [x Hx]; [rewrite ur_len0; lia|].
  apply wp_bind. eapply wp_lift; [exact Hx|]. apply wp_modify. rewrite En. apply HQ; [by rewrite length_insert|].
  rewrite ur_wpos0. apply ring_holds_snoc; done || lia.
Qed.

End step.

(** the state with a byte more, before the end of the frame is looked for *)
Definition with_byte (u : mac_bus_uart) (rb : list Z) (F : frames) (b : Z) : mac_bus_uart :=
  set_head (Z.of_nat (length (f_cur F ++ [b]))) (magic_of (f_cur F ++ [b])) (len_of (f_cur F ++ [b]))
    (set_ring rb ((rpos u + Z.of_nat (length (in_ring F)) + 1) mod q) (set_timer false u)).

Section byte.
Context (u : mac_bus_uart) (F : frames) (b : Z).
Context (Hr : uart_rep u F) (Hb : 0 <= b < 256) (Hroom : Z.of_nat (length (in_ring F)) + 2 < q).

Lemma rep_timer t : uart_rep (set_timer t u) (mkF (f_done F) (f_fly F) (f_pend F) (f_cur F) (f_stage F) (f_ups F) t).
Proof using Hr. by destruct Hr. Qed.

Lemma in_ring_snoc : f_fly F ++ f_pend F ++ (f_cur F ++ [b]) = in_ring F ++ [b].
Proof using. unfold in_ring. by rewrite <- !app_assoc. Qed.

Lemma wp_irq_byte (Q : unit -> mac_bus_uart -> Prop) :
  (forall rb, length rb = Z.to_nat q -> ring_holds rb (rpos u) (in_ring F ++ [b]) ->
     wp ((if complete (f_cur F ++ [b]) then uart_flush else mret tt);; modify (set_timer true)) Q (with_byte u rb F b)) ->
  wp (uart_bus_irq_hdl b 0) Q u.
Proof using Hr Hb Hroom.
  intros HQ. unfold uart_bus_irq_hdl. apply wp_bind, wp_gets. pose proof Hr as Hr'. destruct Hr'.
  rewrite ur_fixlen0. cbn [Z.ltb Z.compare]. apply wp_bind, wp_modify. apply wp_bind. rewrite u8_small by (cbn; lia).
  eapply (wp_RB_SET _ _ (rep_timer false)); [done|unfold in_ring in *; cbn [f_fly f_pend f_cur] in *; lia|]. intros rb Hlen Hrb.
  change (rpos (set_timer false u)) with (rpos u) in *. change (in_ring (mkF _ _ _ _ _ _ _)) with (in_ring F) in *. specialize (HQ rb Hlen Hrb).
  pose proof (head_step_snoc (f_cur F) b ur_bytes0 Hb) as Hh. unfold with_byte in HQ.
  set (u2 := set_ring _ _ _) in *. rewrite length_app, Nat2Z.inj_add in HQ. cbn [length] in HQ. change (Z.of_nat 1) with 1 in HQ.
  apply wp_bind, wp_modify. apply wp_bind, wp_gets. change (rxcount (set_head _ _ _ _)) with (u32 (rxcount u2 + 1)).
  assert (Hlc : (length (f_cur F) <= length (in_ring F))%nat) by (unfold in_ring; rewrite !length_app; lia).
  change q with 4096 in Hroom. rewrite (u32_small (rxcount u2 + 1)) by (subst u2; cbn; lia). change (rxcount u2) with (rxcount u). rewrite ur_count0.
  set (c := Z.of_nat (length (f_cur F)) + 1) in *.
  change (magic u2) with (magic u). change (frm_len u2) with (frm_len u). rewrite ur_magic0, ur_frm_len0.
  unfold head_step in Hh. rewrite !(u8_small b) in Hh by (cbn; lia).
  apply wp_bind.
  assert (Hgo : wp (m ← gets magic; l ← gets frm_len; n ← gets RB_COUNT;
    (if ((m =? 0x1A2B) && negb (l =? 0) && (l <=? c)) || (q - 1 <=? n) then uart_flush else mret tt);; modify (set_timer true)) Q
    (set_head c (magic_of (f_cur F ++ [b])) (len_of (f_cur F ++ [b])) u2)).
  { apply wp_bind, wp_gets, wp_bind, wp_gets, wp_bind, wp_gets.
    replace (_ || _) with (complete (f_cur F ++ [b])); [exact HQ|].
    unfold complete. rewrite length_app, Nat2Z.inj_add. cbn [length]. change (Z.of_nat 1) with 1. fold c. cbn [magic frm_len set_head].
    rewrite (proj2 (Z.leb_gt (q - 1) _)); [by rewrite orb_false_r|].
    unfold RB_COUNT. subst u2. cbn [rpos wpos set_head set_ring set_timer]. rewrite <- Z.add_assoc, count_mod; change q with 4096 in *; lia. }
  destruct (c <=? 2); [|destruct ((c =? 5) || (c =? 6))]; injection Hh as Hm Hl.
  - apply wp_modify. cbn [set_head magic frm_len]. rewrite Hm, Hl. exact Hgo.
  - apply wp_modify. cbn [set_head magic frm_len]. rewrite Hm, Hl. exact Hgo.
  - apply wp_ret. rewrite Hm, Hl. exact Hgo.
Qed.

Lemma uart_byte_ok : (complete (f_cur F ++ [b]) = true -> f_pend F = []) ->
  wp (uart_exec (EvByte b)) (fun _ u' => uart_rep u' (frames_step F (EvByte b))) u.
Proof using Hr Hb Hroom.
  intros Hc. cbn [uart_exec]. apply wp_irq_byte. intros rb Hlen Hrb. pose proof Hr as Hr'. destruct Hr'.
  assert (Hw : (rpos u + Z.of_nat (length (in_ring F)) + 1) mod q = (rpos u + Z.of_nat (length (in_ring F ++ [b]))) mod q).
  { rewrite length_app. cbn [length]. f_equal. lia. }
  assert (Hn : Z.of_nat (length (in_ring F ++ [b])) < q - 1) by (rewrite length_app; cbn [length]; lia).
  pose proof in_ring_snoc as Hs. unfold with_byte. rewrite Hw. destruct F as [d fl p c st ups t]. cbn [f_done f_fly f_pend f_cur f_stage f_ups f_timer] in *.
  cbn [frames_step]. destruct (complete (c ++ [b])) eqn:Ec.
  - rewrite (Hc eq_refl) in *. unfold uart_flush.
    apply wp_bind, wp_bind, wp_gets, wp_bind, wp_modify, wp_bind, wp_modify, wp_modify, wp_modify.
    split; unfold in_ring, pc_at in *; fields; rewrite ?app_nil_r; cbn [app] in *; rewrite <- ?app_assoc in *; try done.
    + lia.
    + right. lia.
    + destruct st; try done. by destruct ur_pc0 as (_ & _ & ?).
  - apply wp_bind, wp_ret, wp_modify. split; unfold in_ring, pc_at in *; fields; rewrite ?Hs; try done.
    apply Forall_app. by split; [|apply Forall_singleton].
Qed.
End byte.

Lemma uart_timeout_ok u F : uart_rep u F -> uart_legal F EvTimeout ->
  wp (uart_exec EvTimeout) (fun _ u' => uart_rep u' (frames_step F EvTimeout)) u.
Proof.
  intros [] (Ht & Hl). cbn [uart_exec]. apply wp_bind, wp_modify. unfold uart_bus_timer_cb, uart_flush.
  apply wp_bind, wp_gets, wp_bind, wp_modify, wp_bind, wp_modify, wp_modify.
  destruct F as [d fl p c st ups t]. cbn [frames_step]. split; unfold in_ring, pc_at in *; fields; rewrite ?app_nil_r; try done.
  - lia.
  - right. lia.
  - destruct st; try done. destruct ur_pc0 as (Ep & Ef & Hp). destruct Hl as [->| ->]; [done|]. by rewrite app_nil_r.
Qed.

(** each piece of the task *)
Lemma uart_task_ok u F mem : uart_rep u F -> uart_legal F (EvTask mem) ->
  wp (uart_exec (EvTask mem)) (fun _ u' => uart_rep u' (frames_step F (EvTask mem))) u.
Proof.
  intros [] Hl. cbn [uart_exec uart_legal] in *. unfold uart_bus_task. apply wp_bind, wp_gets.
  destruct F as [d fl p c st ups t]. unfold pc_at, in_ring in *. fields. destruct st; cbn [frames_step].
  - destruct ur_pc0 as [Hpc ->]. rewrite Hpc. apply wp_bind, wp_gets. destruct ur_sema0 as [Hse Hups]. rewrite Hse. destruct (Z.ltb_spec 0 ups) as [Hu|Hu].
    + apply wp_bind, wp_modify. apply wp_bind, wp_gets. apply wp_modify.
      assert (Hcnt : task_count (set_sema (ups - 1) u) = Z.of_nat (length p)).
      { unfold task_count. fields. rewrite ur_stop0. cbn [app]. rewrite count_mod; [done|done|]. cbn [app] in ur_room0. rewrite length_app in ur_room0. lia. }
      rewrite Hcnt. case_bool_decide as Hp; [subst p|].
      * split; unfold pc_at, in_ring; fields; try done. lia.
      * assert (0 < Z.of_nat (length p)) by (destruct p; [done|cbn; lia]). rewrite (proj2 (Z.ltb_lt _ _)) by done.
        split; unfold pc_at, in_ring; fields; try done; [lia|by left].
    + apply wp_ret. split; unfold pc_at, in_ring; fields; try done.
  - destruct ur_pc0 as (-> & -> & Hp). destruct (Hl eq_refl) as (buf & -> & Hbuf). apply wp_bind, wp_gets.
    assert (Hpos : 0 < Z.of_nat (length p)) by (destruct p; [done|cbn; lia]). cbn [app] in *.
    apply ring_holds_app in ur_ring0 as H; [|lia]. destruct H as [Hrp _].
    apply wp_bind. eapply wp_lift; [eapply task_copy_ring; [done|done|exact Hrp|done| |done|done]|].
    { rewrite length_app in ur_room0. change q with 4096 in *. lia. }
    apply wp_modify. split; unfold pc_at, in_ring; fields; try done. by rewrite app_nil_r.
  - rewrite ur_pc0. apply wp_bind, wp_modify, wp_modify. split; unfold pc_at, in_ring; fields; try done.
    + intros Hp. destruct (ur_woken0 Hp) as [?|?]; [done|by right].
    + by rewrite ur_recvd0.
  - rewrite ur_pc0. apply wp_bind, wp_modify, wp_modify. pose proof ur_ring0 as Hring. apply ring_holds_app in Hring as [_ Hring]; [|lia].
    assert (Hnp : RB_NPOS (rpos u) (Z.of_nat (length fl)) = (rpos u + Z.of_nat (length fl)) mod q).
    { apply npos_mod; [done|]. rewrite length_app in ur_room0. lia. }
    split; unfold pc_at, in_ring; fields; cbn [app]; rewrite ?Hnp; try done.
    + by apply Z.mod_pos_bound.
    + rewrite length_app in ur_room0. lia.
    + rewrite ur_wpos0, Z.add_mod_idemp_l, length_app by done. f_equal. lia.
    + rewrite ur_stop0, Z.add_mod_idemp_l, length_app by done. f_equal. lia.
    + intros Hp. destruct (ur_woken0 Hp) as [?|?]; [done|by right].
Qed.

Lemma uart_exec_ok u F e : uart_rep u F -> uart_legal F e -> wp (uart_exec e) (fun _ u' => uart_rep u' (frames_step F e)) u.
Proof.
  destruct e as [b| |mem]; [|by apply uart_timeout_ok|by apply uart_task_ok]. intros Hr (Hb & Hroom & Hc). by apply uart_byte_ok.
Qed.

Lemma uart_run_ok es : forall u F, uart_rep u F -> uart_legal_run F es -> wp (uart_run es) (fun _ u' => uart_rep u' (frames_run F es)) u.
Proof.
  induction es as [|e es IH]; intros u F Hr Hl; [by apply wp_ret|]. destruct Hl as [Hl1 Hl2]. cbn [uart_run frames_run].
  apply wp_bind. eapply wp_mono; [|by apply uart_exec_ok]. intros [] u' Hr'. by apply IH.
Qed.

Lemma uart_rep_init : uart_rep (mac_bus_uart_attach 0) frames0.
Proof. by split; try (intros k x Hk; by apply lookup_nil in Hk || done). Qed.

(** ** Frames in, frames out *)

(** a frame: its header has the magic number and its length *)
Definition frame_ok (l : list Z) : Prop := magic_of l = 0x1A2B /\ len_of l = Z.of_nat (length l) /\ (6 <= length l)%nat.

Lemma len_of_app l x : (6 <= length l)%nat -> len_of (l ++ x) = len_of l.
Proof. do 6 (destruct l as [|? l]; [intros H; exfalso; cbn in H; lia|]). done. Qed.

Lemma magic_of_app l x : (2 <= length l)%nat -> magic_of (l ++ x) = magic_of l.
Proof. do 2 (destruct l as [|? l]; [intros H; exfalso; cbn in H; lia|]). done. Qed.

Lemma frame_complete l x : frame_ok l -> complete (l ++ x) = true.
Proof.
  intros (Hm & Hl & H6). unfold complete. rewrite magic_of_app, len_of_app, Hm, Hl, length_app by lia.
  rewrite Z.eqb_refl, (proj2 (Z.eqb_neq _ 0)), (proj2 (Z.leb_le _ _)) by lia. done.
Qed.

(** a frame is not complete before its last byte *)
Lemma frame_prefix l1 l2 : frame_ok (l1 ++ l2) -> Forall (fun b => 0 <= b < 256) (l1 ++ l2) -> l2 <> [] -> complete l1 = false.
Proof.
  intros (Hm & Hl & H6) Hb Hne. assert (0 < length l2)%nat by (destruct l2; [done|cbn; lia]). rewrite length_app in *.
  destruct (decide (6 <= length l1)%nat) as [H1|H1].
  - unfold complete. rewrite len_of_app in Hl by done. rewrite Hl, (proj2 (Z.leb_gt _ _)) by lia. apply andb_false_r.
  - destruct l1 as [|x0 [|x1 [|x2 [|x3 [|x4 [|? ?]]]]]]; cbn in H1; try lia; try (unfold complete; cbn [len_of Z.eqb negb]; by rewrite andb_false_r).
    assert (Hx : 0 <= x4 < 256) by (rewrite Forall_forall in Hb; apply Hb, elem_of_app; left; do 4 right; left).
    unfold complete. cbn [len_of length]. rewrite Z.shiftl_mul_pow2 by done. change (2 ^ 8) with 256.
    destruct (Z.eqb_spec (x4 * 256) 0) as [E|E]; [by rewrite andb_false_r|]. rewrite (proj2 (Z.leb_gt _ _)) by lia. apply andb_false_r.
Qed.

(** the bytes of a sequence of events *)
Definition bytes_of (es : list uart_event) : list Z := flat_map (fun e => match e with EvByte b => [b] | _ => [] end) es.

(** no pause inside a frame is longer than the timer *)
Fixpoint no_pause (F : frames) (es : list uart_event) : Prop :=
  match es with [] => True | e :: es => (e = EvTimeout -> f_cur F = []) /\ no_pause (frames_step F e) es end.

(** the chunks that wait: copied, or in the ring *)
Definition waiting (F : frames) : list (list Z) :=
  (match f_stage F with Copied => [f_fly F] | _ => [] end) ++ (if bool_decide (f_pend F = []) then [] else [f_pend F]).

(** the first frame of a stream, and the bytes of it that are there *)
Lemma first_frame c b r f fs : c ++ b :: r = f ++ concat fs -> frame_ok f -> Forall (fun b => 0 <= b < 256) f -> complete c = false ->
  (c ++ [b] = f /\ r = concat fs) \/ (complete (c ++ [b]) = false).
Proof.
  intros E Hf Hb Hc. destruct (decide (length f <= length c)%nat) as [Hle|Hgt].
  - exfalso. assert (Hc2 : c = f ++ drop (length f) c).
    { rewrite <- (take_drop (length f) c) at 1. f_equal. pose proof (f_equal (take (length f)) E) as Et.
      rewrite take_app_le, take_app_length in Et by done. exact Et. }
    rewrite Hc2, frame_complete in Hc; done.
  - pose proof (f_equal (take (S (length c))) E) as Et. pose proof (f_equal (drop (S (length c))) E) as Ed.
    replace (c ++ b :: r) with ((c ++ [b]) ++ r) in Et, Ed by by rewrite <- app_assoc.
    assert (Hlen : length (c ++ [b]) = S (length c)) by (rewrite length_app; cbn; lia).
    rewrite <- Hlen in Et, Ed. rewrite take_app_length in Et. rewrite drop_app_length in Ed.
    destruct (decide (length f = S (length c))) as [Heq|Hne].
    + left. rewrite Hlen, <- Heq in Et, Ed. rewrite take_app_length in Et. rewrite drop_app_length in Ed. done.
    + right. rewrite Hlen, take_app_le in Et by lia. rewrite Et.
      apply frame_prefix with (drop (S (length c)) f); rewrite ?take_drop; [done|done|].
      intros Hn. apply (f_equal length) in Hn. rewrite length_drop in Hn. cbn in Hn. lia.
Qed.

(** what the abstract machine keeps *)
Definition frames_inv (F : frames) : Prop :=
  complete (f_cur F) = false /\ match f_stage F with Idle | Counted => f_fly F = [] | _ => True end /\ (f_stage F = Counted -> f_pend F <> []).

Lemma frame_nil : ~ frame_ok [].
Proof. intros (_ & _ & H). cbn in H. lia. Qed.

Lemma frames_run_in_order es : forall F fs, uart_legal_run F es -> no_pause F es -> frames_inv F -> f_cur F ++ bytes_of es = concat fs ->
  Forall frame_ok fs -> Forall (Forall (fun b => 0 <= b < 256)) fs ->
  f_done (frames_run F es) ++ waiting (frames_run F es) = f_done F ++ waiting F ++ fs.
Proof.
  induction es as [|e es IH]; intros F fs Hl Hp Hi E Hfs Hb.
  - cbn [frames_run]. cbn in E. rewrite app_nil_r in E. destruct fs as [|f fs]; [by rewrite app_nil_r|]. exfalso.
    destruct Hi as [Hc _]. rewrite E in Hc. cbn [concat] in Hc. apply Forall_cons in Hfs as [Hf _]. by rewrite frame_complete in Hc.
  - destruct Hl as [Hl1 Hl2], Hp as [Hp1 Hp2]. cbn [frames_run]. destruct F as [d fl p c st ups t]. destruct Hi as (Hc & Hst & Hcp). fields.
    destruct e as [b| |mem]; cbn [frames_step] in *.
    + cbn in E. destruct fs as [|f fs]; [by apply app_eq_nil in E as [_ ?]|]. apply Forall_cons in Hfs as [Hf Hfs], Hb as [Hbf Hb].
      cbn [concat] in E. destruct (first_frame _ _ _ _ _ E Hf Hbf Hc) as [[Ec Er]|Ec].
      * rewrite Ec in *. assert (Hcf : complete f = true) by (rewrite <- (app_nil_r f); by apply frame_complete). rewrite Hcf in *.
        destruct Hl1 as (_ & _ & Hpend). fields. rewrite Ec in Hpend. specialize (Hpend Hcf). subst p.
        assert (Hne : f <> []) by (intros ->; by apply frame_nil).
        rewrite (IH _ fs); fields; try done.
        unfold waiting. fields. rewrite (bool_decide_false _ Hne), bool_decide_true by done. by rewrite app_nil_r, <- !app_assoc.
      * rewrite Ec in *. rewrite (IH _ (f :: fs)); fields; try done; [by rewrite <- app_assoc|by constructor|by constructor].
    + rewrite (Hp1 eq_refl), app_nil_r in *. by rewrite (IH _ fs).
    + destruct st.
      * destruct (0 <? ups); [|by rewrite (IH _ fs)]. rewrite (IH _ fs); try done.
        -- by case_bool_decide.
        -- split; fields; [done|]. case_bool_decide as Hn; by split.
      * subst fl. rewrite (IH _ fs); try done. f_equal. f_equal. unfold waiting. fields. by rewrite (bool_decide_false _ (Hcp eq_refl)).
      * rewrite (IH _ fs); try done. unfold waiting. fields. by rewrite <- !app_assoc.
      * by rewrite (IH _ fs).
Qed.

(** in a state of the code, what waits is nothing once the task sleeps *)
Lemma uart_rep_rest u F : uart_rep u F -> pc u = AtDown -> sema u = 0 -> waiting F = [].
Proof.
  intros [] Hpc Hs. unfold waiting, pc_at in *. destruct ur_sema0 as [Hups _].
  destruct (f_stage F); [|destruct ur_pc0 as (E & _); by rewrite E in Hpc|by rewrite ur_pc0 in Hpc|by rewrite ur_pc0 in Hpc].
  case_bool_decide as Hp; [done|]. destruct (ur_woken0 Hp) as [?|?]; [done|lia].
Qed.
