(* ===== verification/Rwlock.v ===== *)
(** * The readers-writer lock of the POSIX layer ([sdk/lib/posix/pthread_rwlock.c])

    A monitor: a mutex protects three counters, and threads that cannot have the
    lock wait on one of two condition variables.  [pthread_cond.c] passes these on
    to the [os_condv] calls, whose source is not in the repository: [CondVar]
    says what the lock relies on.  All accesses to
    the counters are made with the mutex held, so a step of a thread is what it
    does from the moment it has the mutex to the moment it gives it back: a call
    is one step, or one per return from a wait. *)

From S2P Require Import Prelude.
Open Scope Z_scope.

(** ** Condition variables

    [waiters c] are the threads asleep.  [condv_wait] puts a thread to sleep,
    [condv_leave] is the end of its wait that is nobody's doing: its timeout, an
    error, or no reason at all.  [signal_result] and [broadcast_result] are what
    [pthread_cond_signal] and [pthread_cond_broadcast] return: a call that does
    not return 0 may have woken nobody. *)

Class CondVar (C : Type) := {
  condv_init : C;
  waiters : C -> gset nat;
  condv_wait : nat -> C -> C;
  condv_leave : nat -> C -> C;
  condv_signal : C -> C;
  condv_broadcast : C -> C;
  signal_result : C -> Z;
  broadcast_result : C -> Z;
  waiters_init : waiters condv_init = ∅;
  waiters_wait t c : waiters (condv_wait t c) = {[t]} ∪ waiters c;
  waiters_leave t c : waiters (condv_leave t c) = waiters c ∖ {[t]};
  waiters_signal c : waiters (condv_signal c) ⊆ waiters c;
  waiters_signal_one c : signal_result c = 0 -> waiters c <> ∅ -> waiters (condv_signal c) <> waiters c;
  waiters_broadcast c : waiters (condv_broadcast c) ⊆ waiters c;
  waiters_broadcast_all c : broadcast_result c = 0 -> waiters (condv_broadcast c) = ∅
}.

(** ** The code *)

Definition EINVAL : Z := 22.
Definition EBUSY : Z := 16.
Definition INT_MAX : Z := 2 ^ 31 - 1.

Record pthread_rwlock_t (C : Type) := mkRwlock {
  attr : Z;
  rw_mutex : option nat;
  rw_condreaders : C;
  rw_condwriters : C;
  rw_nwaitreaders : Z;
  rw_nwaitwriters : Z;
  rw_refcount : Z
}.
Arguments mkRwlock {C}.
Arguments attr {C}.
Arguments rw_mutex {C}.
Arguments rw_condreaders {C}.
Arguments rw_condwriters {C}.
Arguments rw_nwaitreaders {C}.
Arguments rw_nwaitwriters {C}.
Arguments rw_refcount {C}.

Section code.
Context {C : Type} `{CondVar C}.
Abbreviation rwlock := (pthread_rwlock_t C).
Abbreviation RW := (M unit (pthread_rwlock_t C)).

Definition set_mutex v (l : rwlock) := mkRwlock (attr l) v (rw_condreaders l) (rw_condwriters l) (rw_nwaitreaders l) (rw_nwaitwriters l) (rw_refcount l).
Definition set_condreaders v (l : rwlock) := mkRwlock (attr l) (rw_mutex l) v (rw_condwriters l) (rw_nwaitreaders l) (rw_nwaitwriters l) (rw_refcount l).
Definition set_condwriters v (l : rwlock) := mkRwlock (attr l) (rw_mutex l) (rw_condreaders l) v (rw_nwaitreaders l) (rw_nwaitwriters l) (rw_refcount l).
Definition set_nwaitreaders v (l : rwlock) := mkRwlock (attr l) (rw_mutex l) (rw_condreaders l) (rw_condwriters l) v (rw_nwaitwriters l) (rw_refcount l).
Definition set_nwaitwriters v (l : rwlock) := mkRwlock (attr l) (rw_mutex l) (rw_condreaders l) (rw_condwriters l) (rw_nwaitreaders l) v (rw_refcount l).
Definition set_refcount v (l : rwlock) := mkRwlock (attr l) (rw_mutex l) (rw_condreaders l) (rw_condwriters l) (rw_nwaitreaders l) (rw_nwaitwriters l) v.

(** [x++] and [x--] on an [int] that must not overflow *)
Definition incr (x : Z) : RW Z := if x <? INT_MAX then mret (x + 1) else undef.
Definition decr (x : Z) : RW Z := if - INT_MAX - 1 <? x then mret (x - 1) else undef.

Definition rwlock_new : rwlock := mkRwlock 0 None condv_init condv_init 0 0 0.

Definition pthread_rwlock_init (rwlock : option nat) : RW Z :=
  match rwlock with
  | None => mret (- EINVAL)
  | Some _ => modify (fun _ => rwlock_new);; mret 0
  end.

(** The beginning of every call of thread [t]: the checks, the initialisation of
    a lock made by [PTHREAD_RWLOCK_INITIALIZER], and [pthread_mutex_lock], whose
    result is [got].  A call returns its result, or [None] while it waits. *)
Definition enter (rwlock : option nat) (t : nat) (got : Z) (k : RW (option Z)) : RW (option Z) :=
  match rwlock with
  | None => mret (Some (- EINVAL))
  | Some _ =>
      a ← gets attr;
      (if a =? -1 then pthread_rwlock_init rwlock else mret 0);;
      if negb (got =? 0) then mret (Some got) else
      modify (set_mutex (Some t));;
      k
  end.

(** [pthread_mutex_unlock], then [return (result)] *)
Definition leave (result : Z) : RW (option Z) := modify (set_mutex None);; mret (Some result).

(** [pthread_cond_wait] gives the mutex back *)
Definition wait_readers (t : nat) : RW (option Z) :=
  modify (fun l => set_condreaders (condv_wait t (rw_condreaders l)) l);; modify (set_mutex None);; mret None.
Definition wait_writers (t : nat) : RW (option Z) :=
  modify (fun l => set_condwriters (condv_wait t (rw_condwriters l)) l);; modify (set_mutex None);; mret None.

(** the loop of [pthread_rwlock_rdlock] from its test on *)
Definition rdlock_loop (t : nat) : RW (option Z) :=
  r ← gets rw_refcount;
  w ← gets rw_nwaitwriters;
  if (r <? 0) || (0 <? w) then
    n ← gets rw_nwaitreaders; n ← incr n; modify (set_nwaitreaders n);;
    wait_readers t
  else
    r ← incr r; modify (set_refcount r);;
    leave 0.

Definition pthread_rwlock_rdlock (rwlock : option nat) (t : nat) (got : Z) : RW (option Z) :=
  enter rwlock t got (rdlock_loop t).

(** [pthread_cond_wait] has returned [result] *)
Definition pthread_rwlock_rdlock_resume (t : nat) (result : Z) : RW (option Z) :=
  modify (set_mutex (Some t));;
  n ← gets rw_nwaitreaders; n ← decr n; modify (set_nwaitreaders n);;
  if negb (result =? 0) then leave result else rdlock_loop t.

(** [pthread_rwlock_timedrdlock] differs in the timeout of the wait only *)
Definition pthread_rwlock_timedrdlock (rwlock : option nat) (t : nat) (got : Z) : RW (option Z) :=
  enter rwlock t got (rdlock_loop t).

Definition pthread_rwlock_tryrdlock (rwlock : option nat) (t : nat) (got : Z) : RW (option Z) :=
  enter rwlock t got (
  r ← gets rw_refcount;
  w ← gets rw_nwaitwriters;
  if (r <? 0) || (0 <? w) then leave (- EBUSY)
  else r ← incr r; modify (set_refcount r);; leave 0).

Definition wrlock_loop (t : nat) : RW (option Z) :=
  r ← gets rw_refcount;
  if negb (r =? 0) then
    n ← gets rw_nwaitwriters; n ← incr n; modify (set_nwaitwriters n);;
    wait_writers t
  else
    modify (set_refcount (-1));;
    leave 0.

Definition pthread_rwlock_wrlock (rwlock : option nat) (t : nat) (got : Z) : RW (option Z) :=
  enter rwlock t got (wrlock_loop t).

Definition pthread_rwlock_wrlock_resume (t : nat) (result : Z) : RW (option Z) :=
  modify (set_mutex (Some t));;
  n ← gets rw_nwaitwriters; n ← decr n; modify (set_nwaitwriters n);;
  if negb (result =? 0) then leave result else wrlock_loop t.

Definition pthread_rwlock_timedwrlock (rwlock : option nat) (t : nat) (got : Z) : RW (option Z) :=
  enter rwlock t got (wrlock_loop t).

Definition pthread_rwlock_trywrlock (rwlock : option nat) (t : nat) (got : Z) : RW (option Z) :=
  enter rwlock t got (
  r ← gets rw_refcount;
  if negb (r =? 0) then leave (- EBUSY) else modify (set_refcount (-1));; leave 0).

Definition pthread_rwlock_unlock (rwlock : option nat) (t : nat) (got : Z) : RW (option Z) :=
  enter rwlock t got (
  r ← gets rw_refcount;
  (if 0 <? r then modify (set_refcount (r - 1)) else if r =? -1 then modify (set_refcount 0) else mret tt);;
  w ← gets rw_nwaitwriters;
  n ← gets rw_nwaitreaders;
  r ← gets rw_refcount;
  result ← (if 0 <? w then
     if r =? 0 then
       c ← gets rw_condwriters; modify (set_condwriters (condv_signal c));; mret (signal_result c)
     else mret got
   else if 0 <? n then
     c ← gets rw_condreaders; modify (set_condreaders (condv_broadcast c));; mret (broadcast_result c)
   else mret got);
  leave result).

(** [-EBUSY] is returned with the mutex held *)
Definition pthread_rwlock_destroy (rwlock : option nat) (t : nat) (got : Z) : RW (option Z) :=
  match rwlock with
  | None => mret (Some (- EINVAL))
  | Some _ =>
      a ← gets attr;
      if a =? -1 then mret (Some 0) else
      if negb (got =? 0) then mret (Some got) else
      modify (set_mutex (Some t));;
      l ← gets id;
      if negb (rw_refcount l =? 0) || negb (rw_nwaitreaders l =? 0) || negb (rw_nwaitwriters l =? 0)
      then mret (Some (- EBUSY))
      else leave 0
  end.

(** ** Threads *)

Inductive rw_op := RdLock | TimedRdLock | TryRdLock | WrLock | TimedWrLock | TryWrLock | Unlock.

#[export] Instance rw_op_dec : EqDecision rw_op.
Proof. solve_decision. Defined.

Definition reads (op : rw_op) : bool := match op with RdLock | TimedRdLock | TryRdLock => true | _ => false end.
Definition writes (op : rw_op) : bool := match op with WrLock | TimedWrLock | TryWrLock => true | _ => false end.

(** a call that is not over: its wait has not ended by itself, or has failed *)
Inductive rw_pc := Waiting (op : rw_op) | Failed (op : rw_op) (result : Z).
#[export] Instance rw_pc_dec : EqDecision rw_pc.
Proof. solve_decision. Defined.

Definition pc_op (p : rw_pc) : rw_op := match p with Waiting op | Failed op _ => op end.

(** [readers] and [writers] hold the lock: they are not in the code *)
Record rwsys := mkRwsys { lock : rwlock; calls : gmap nat rw_pc; readers : list nat; writers : list nat }.

Inductive rw_event :=
  | RwCall (t : nat) (op : rw_op) (rwlock : option nat) (got : Z)
  | RwResume (t : nat)
  | RwWake (t : nat)
  | RwFail (t : nat) (result : Z).

Definition rw_begin (op : rw_op) : option nat -> nat -> Z -> RW (option Z) :=
  match op with
  | RdLock => pthread_rwlock_rdlock
  | TimedRdLock => pthread_rwlock_timedrdlock
  | TryRdLock => pthread_rwlock_tryrdlock
  | WrLock => pthread_rwlock_wrlock
  | TimedWrLock => pthread_rwlock_timedwrlock
  | TryWrLock => pthread_rwlock_trywrlock
  | Unlock => pthread_rwlock_unlock
  end.

Definition rw_resume (op : rw_op) : nat -> Z -> RW (option Z) :=
  if reads op then pthread_rwlock_rdlock_resume else pthread_rwlock_wrlock_resume.

(** one of the read locks of [t] *)
Fixpoint remove_one (t : nat) (l : list nat) : list nat :=
  match l with [] => [] | u :: l => if decide (u = t) then l else u :: remove_one t l end.

(** a locking call waits, fails, or has done what it is for *)
Definition settle (t : nat) (op : rw_op) (r : option Z) (s : rwsys) : rwsys :=
  match r with
  | None => mkRwsys (lock s) (<[t := Waiting op]> (calls s)) (readers s) (writers s)
  | Some r =>
      let s := mkRwsys (lock s) (delete t (calls s)) (readers s) (writers s) in
      if negb (r =? 0) then s else
      if reads op then mkRwsys (lock s) (calls s) (t :: readers s) (writers s)
      else if writes op then mkRwsys (lock s) (calls s) (readers s) (t :: writers s)
      else s
  end.

Definition on_lock (t : nat) (op : rw_op) (m : RW (option Z)) (s : rwsys) : res unit rwsys :=
  match m (lock s) with
  | Ok (r, l) => Ok (settle t op r (mkRwsys l (calls s) (readers s) (writers s)))
  | Reset e => Reset e
  | Undef => Undef
  end.

(** an unlocking call that gets past its checks gives the lock back, whatever it
    returns *)
Definition unlock_call (t : nat) (rwlock : option nat) (got : Z) (s : rwsys) : res unit rwsys :=
  match pthread_rwlock_unlock rwlock t got (lock s) with
  | Ok (_, l) =>
      Ok (if bool_decide (rwlock <> None) && (got =? 0)
          then mkRwsys l (calls s) (remove_one t (readers s)) (klist_del t (writers s))
          else mkRwsys l (calls s) (readers s) (writers s))
  | Reset e => Reset e
  | Undef => Undef
  end.

(** the wait of [t] ends *)
Definition ends_wait (t : nat) (op : rw_op) (p : rw_pc) (s : rwsys) : rwsys :=
  let l := lock s in
  mkRwsys (if reads op then set_condreaders (condv_leave t (rw_condreaders l)) l
           else set_condwriters (condv_leave t (rw_condwriters l)) l)
    (<[t := p]> (calls s)) (readers s) (writers s).

Definition rw_exec (e : rw_event) (s : rwsys) : res unit rwsys :=
  match e with
  | RwCall t Unlock rwlock got => unlock_call t rwlock got s
  | RwCall t op rwlock got => on_lock t op (rw_begin op rwlock t got) s
  | RwResume t =>
      match calls s !! t with
      | Some (Waiting op) => on_lock t op (rw_resume op t 0) s
      | Some (Failed op result) => on_lock t op (rw_resume op t result) s
      | None => Undef
      end
  | RwWake t => match calls s !! t with Some (Waiting op) => Ok (ends_wait t op (Waiting op) s) | _ => Undef end
  | RwFail t result => match calls s !! t with Some (Waiting op) => Ok (ends_wait t op (Failed op result) s) | _ => Undef end
  end.

Definition asleep (s : rwsys) : gset nat := waiters (rw_condreaders (lock s)) ∪ waiters (rw_condwriters (lock s)).

(** a thread unlocks what it holds; it is awake when it goes on; the mutex is
    free when it is given to a thread; there are less than 2^31 read locks and
    calls *)
Definition rw_legal (s : rwsys) (e : rw_event) : Prop :=
  match e with
  | RwCall t op rwlock got =>
      calls s !! t = None /\ (got = 0 -> rw_mutex (lock s) = None) /\
      (op = Unlock -> t ∈ readers s \/ t ∈ writers s) /\
      Z.of_nat (length (readers s)) + Z.of_nat (size (calls s)) < INT_MAX
  | RwResume t => is_Some (calls s !! t) /\ (t ∉ asleep s) /\ rw_mutex (lock s) = None
  | RwWake t => t ∈ asleep s
  | RwFail t result => t ∈ asleep s /\ result <> 0
  end.

#[export] Instance rw_legal_dec s e : Decision (rw_legal s e).
Proof. destruct e; unfold rw_legal; apply _. Defined.

Definition rw_start : rwsys := mkRwsys rwlock_new ∅ [] [].

(** a wait fails, or a call to wake threads does *)
Definition failing (s : rwsys) (e : rw_event) : Prop :=
  match e with
  | RwFail _ _ => True
  | RwCall _ Unlock _ _ => signal_result (rw_condwriters (lock s)) <> 0 \/ broadcast_result (rw_condreaders (lock s)) <> 0
  | _ => False
  end.

(** with [fails], that may happen *)
Inductive rw_reach (fails : bool) : rwsys -> Prop :=
  | rw_reach_start : rw_reach fails rw_start
  | rw_reach_step s e s' : rw_reach fails s -> rw_legal s e ->
      (failing s e -> fails = true) -> rw_exec e s = Ok s' -> rw_reach fails s'.
End code.

(** ** Counting threads *)

Definition count (P : rw_op -> bool) (m : gmap nat rw_pc) : Z :=
  Z.of_nat (size (filter (fun kv => P (pc_op kv.2) = true) m)).

Section count.
Context (P : rw_op -> bool).
Implicit Types (m : gmap nat rw_pc).

Lemma count_nonneg m : 0 <= count P m.
Proof. unfold count. lia. Qed.

Lemma count_size m : count P m <= Z.of_nat (size m).
Proof. unfold count. pose proof (map_size_filter (fun kv => P (pc_op kv.2) = true) m). lia. Qed.

Lemma count_new m t p : m !! t = None -> count P (<[t := p]> m) = count P m + Z.b2z (P (pc_op p)).
Proof.
  intros Ht. unfold count. destruct (P (pc_op p)) eqn:E.
  - rewrite map_filter_insert_True by done. rewrite map_size_insert_None; [cbn; lia|].
    rewrite map_lookup_filter, Ht. done.
  - rewrite map_filter_insert_False by (cbn; congruence). rewrite delete_id by done. cbn. lia.
Qed.

Lemma count_delete m t p : m !! t = Some p -> count P (delete t m) = count P m - Z.b2z (P (pc_op p)).
Proof.
  intros Ht. rewrite <- (insert_id m t p Ht) at 2. rewrite <- insert_delete_eq.
  rewrite count_new by apply lookup_delete_eq. lia.
Qed.

Lemma count_replace m t p p' : m !! t = Some p -> pc_op p' = pc_op p -> count P (<[t := p']> m) = count P m.
Proof.
  intros Ht E. rewrite <- insert_delete_eq, count_new by apply lookup_delete_eq.
  rewrite (count_delete _ _ _ Ht), E. lia.
Qed.

Lemma count_pos m : 0 < count P m -> exists t p, m !! t = Some p /\ P (pc_op p) = true.
Proof.
  unfold count. intros H. destruct (decide (filter (fun kv => P (pc_op kv.2) = true) m = ∅)) as [E|E].
  - rewrite E, map_size_empty in H. lia.
  - apply map_choose in E as (t & p & [Ht Hp]%map_lookup_filter_Some). eauto.
Qed.

Lemma count_pos_in m t p : m !! t = Some p -> P (pc_op p) = true -> 0 < count P m.
Proof. intros Ht Hp. pose proof (count_delete _ _ _ Ht). rewrite Hp in H. cbn in H. pose proof (count_nonneg (delete t m)). lia. Qed.
End count.

(** ** The invariant *)

Section invariant.
Context {C : Type} `{CondVar C}.
Implicit Types (s : rwsys (C:=C)) (l : pthread_rwlock_t C).
#[local] Arguments incr : simpl never.
#[local] Arguments decr : simpl never.

(** the count says who has the lock *)
Definition holders (refcount : Z) (R W : list nat) : Prop :=
  (W = [] /\ refcount = Z.of_nat (length R)) \/ (exists w, W = [w] /\ R = [] /\ refcount = -1).

(** those asleep in [c] are in a call that waits *)
Definition sleep_in (P : rw_op -> bool) (c : C) (m : gmap nat rw_pc) : Prop :=
  forall t, t ∈ waiters c -> exists op, m !! t = Some (Waiting op) /\ P op = true.

Record rw_ok s : Prop := {
  ro_attr : attr (lock s) = 0;
  ro_mutex : rw_mutex (lock s) = None;
  ro_calls : forall t p, calls s !! t = Some p -> writes (pc_op p) = negb (reads (pc_op p));
  ro_readers : sleep_in reads (rw_condreaders (lock s)) (calls s);
  ro_writers : sleep_in writes (rw_condwriters (lock s)) (calls s);
  ro_nr : rw_nwaitreaders (lock s) = count reads (calls s);
  ro_nw : rw_nwaitwriters (lock s) = count writes (calls s);
  ro_held : holders (rw_refcount (lock s)) (readers s) (writers s);
  ro_room : Z.of_nat (length (readers s)) + Z.of_nat (size (calls s)) <= INT_MAX
}.

(** as long as no wait fails: a waiting writer is awake when nobody has the lock,
    and readers sleep only when a writer has the lock or waits for it *)
Record rw_awake s : Prop := {
  ra_calls : forall t p, calls s !! t = Some p -> exists op, p = Waiting op;
  ra_writer : rw_refcount (lock s) = 0 -> 0 < rw_nwaitwriters (lock s) ->
    exists t op, calls s !! t = Some (Waiting op) /\ writes op = true /\ (t ∉ waiters (rw_condwriters (lock s)));
  ra_reader : 0 <= rw_refcount (lock s) -> rw_nwaitwriters (lock s) = 0 -> waiters (rw_condreaders (lock s)) = ∅
}.

Definition rw_inv (fails : bool) s : Prop := rw_ok s /\ (fails = false -> rw_awake s).

Definition room_for s : Prop := Z.of_nat (length (readers s)) + Z.of_nat (size (calls s)) < INT_MAX.

Lemma reads_writes op : op <> Unlock -> writes op = negb (reads op).
Proof. by destruct op. Qed.

Lemma sleep_awake P c m t : sleep_in P c m -> m !! t = None -> t ∉ waiters c.
Proof. intros Hs Ht Hin. destruct (Hs _ Hin) as (op & E & _). congruence. Qed.

Lemma not_asleep s t : rw_ok s -> calls s !! t = None -> t ∉ asleep s.
Proof.
  intros Hok Ht. unfold asleep. rewrite not_elem_of_union.
  split; [exact (sleep_awake _ _ _ _ (ro_readers _ Hok) Ht)|exact (sleep_awake _ _ _ _ (ro_writers _ Hok) Ht)].
Qed.

(** the counters stay in the range of [int] *)
Lemma held_range s : rw_ok s -> room_for s -> -1 <= rw_refcount (lock s) < INT_MAX.
Proof. intros Hok Hr. unfold room_for in Hr. destruct (ro_held _ Hok) as [[_ ->]|(w & _ & _ & ->)]; [lia|unfold INT_MAX; lia]. Qed.

Lemma waits_range P s : room_for s -> 0 <= count P (calls s) < INT_MAX.
Proof. intros Hr. unfold room_for in Hr. pose proof (count_nonneg P (calls s)). pose proof (count_size P (calls s)). lia. Qed.

(** *** Steps of the system *)

(** [t] goes to sleep *)
Definition sleeps_reader (t : nat) (op : rw_op) s : rwsys :=
  settle t op None (mkRwsys (set_mutex None (set_condreaders (condv_wait t (rw_condreaders (lock s)))
    (set_nwaitreaders (rw_nwaitreaders (lock s) + 1) (lock s)))) (calls s) (readers s) (writers s)).
Definition sleeps_writer (t : nat) (op : rw_op) s : rwsys :=
  settle t op None (mkRwsys (set_mutex None (set_condwriters (condv_wait t (rw_condwriters (lock s)))
    (set_nwaitwriters (rw_nwaitwriters (lock s) + 1) (lock s)))) (calls s) (readers s) (writers s)).

(** the lock has a new count, and the call of [t] ends *)
Definition gets_lock (t : nat) (op : rw_op) (refcount : Z) s : rwsys :=
  settle t op (Some 0) (mkRwsys (set_mutex None (set_refcount refcount (lock s))) (calls s) (readers s) (writers s)).

(** [t] is not waiting any more *)
Definition dropped (t : nat) (p : rw_pc) s : rwsys :=
  mkRwsys (if reads (pc_op p) then set_nwaitreaders (rw_nwaitreaders (lock s) - 1) (lock s)
           else set_nwaitwriters (rw_nwaitwriters (lock s) - 1) (lock s)) (delete t (calls s)) (readers s) (writers s).

Lemma sleep_in_wait P c m t op : sleep_in P c m -> P op = true -> sleep_in P (condv_wait t c) (<[t := Waiting op]> m).
Proof.
  intros Hs Hop u. rewrite waiters_wait, elem_of_union, elem_of_singleton. intros Hu.
  destruct (decide (u = t)) as [->|Hne]; [exists op; by rewrite lookup_insert_eq|].
  rewrite lookup_insert_ne by done. apply Hs. by destruct Hu.
Qed.

Lemma sleep_in_new P c m t p : sleep_in P c m -> (t ∉ waiters c) -> sleep_in P c (<[t := p]> m).
Proof. intros Hs Ht u Hu. rewrite lookup_insert_ne; [by apply Hs|]. by intros <-. Qed.

Lemma sleep_in_delete P c m t : sleep_in P c m -> (t ∉ waiters c) -> sleep_in P c (delete t m).
Proof. intros Hs Ht u Hu. rewrite lookup_delete_ne; [by apply Hs|]. by intros <-. Qed.

Lemma sleep_in_sub P c c' m : sleep_in P c m -> waiters c' ⊆ waiters c -> sleep_in P c' m.
Proof. intros Hs Hsub t Ht. by apply Hs, Hsub. Qed.

Lemma sleeps_reader_ok t op s : rw_ok s -> calls s !! t = None -> room_for s -> reads op = true -> rw_ok (sleeps_reader t op s).
Proof.
  intros [Ha Hm Hc Hr Hw Hnr Hnw Hh Hroom] Ht Hrf Hop. assert (Hwr : writes op = false) by by destruct op. unfold room_for in Hrf.
  split; cbn; try done.
  - intros u p. rewrite lookup_insert_Some. intros [[<- <-]|[_ Hu]]; [cbn; by rewrite Hop, Hwr|eauto].
  - by apply sleep_in_wait.
  - by eapply sleep_in_new, sleep_awake.
  - rewrite count_new by done. cbn. rewrite Hop. cbn. lia.
  - rewrite count_new by done. cbn. rewrite Hwr. cbn. lia.
  - rewrite map_size_insert_None by done. lia.
Qed.

Lemma sleeps_writer_ok t op s : rw_ok s -> calls s !! t = None -> room_for s -> writes op = true -> rw_ok (sleeps_writer t op s).
Proof.
  intros [Ha Hm Hc Hr Hw Hnr Hnw Hh Hroom] Ht Hrf Hop. assert (Hre : reads op = false) by by destruct op. unfold room_for in Hrf.
  split; cbn; try done.
  - intros u p. rewrite lookup_insert_Some. intros [[<- <-]|[_ Hu]]; [cbn; by rewrite Hop, Hre|eauto].
  - by eapply sleep_in_new, sleep_awake.
  - by apply sleep_in_wait.
  - rewrite count_new by done. cbn. rewrite Hre. cbn. lia.
  - rewrite count_new by done. cbn. rewrite Hop. cbn. lia.
  - rewrite map_size_insert_None by done. lia.
Qed.

Lemma dropped_size t p s : calls s !! t = Some p -> S (size (delete t (calls s))) = size (calls s).
Proof.
  intros Ht. rewrite <- (insert_delete_id (calls s) t p Ht) at 2. by rewrite map_size_insert_None by apply lookup_delete_eq.
Qed.

Lemma dropped_ok t p s : rw_ok s -> calls s !! t = Some p -> (t ∉ asleep s) -> rw_ok (dropped t p s).
Proof.
  intros [Ha Hm Hc Hr Hw Hnr Hnw Hh Hroom] Ht Hs. unfold asleep in Hs. apply not_elem_of_union in Hs as [Hs1 Hs2].
  pose proof (Hc _ _ Ht) as Hrw. pose proof (dropped_size _ _ _ Ht). unfold dropped. destruct (reads (pc_op p)) eqn:Hop; (split; cbn; [done|done| |..]).
  all: try (intros u q [_ Hu]%lookup_delete_Some; eauto).
  all: try (by apply sleep_in_delete).
  all: rewrite ?(count_delete _ _ _ _ Ht), ?Hop, ?Hrw, ?Hnr, ?Hnw; cbn; try lia; try done.
Qed.
(** *** The code does these steps *)

Lemma set_mutex_id v l : rw_mutex l = None -> set_mutex None (set_mutex v l) = l.
Proof. by destruct l as [? ? ? ? ? ? ?]; cbn; intros ->. Qed.

Lemma settle_error t op r s : calls s !! t = None -> r <> 0 -> settle t op (Some r) s = s.
Proof.
  intros Ht Hr. destruct s as [l m R W]. cbn in *. destruct (Z.eqb_spec r 0) as [|_]; [done|]. cbn.
  by rewrite delete_id.
Qed.

Lemma enter_run k p t got l : attr l = 0 ->
  enter p t got k l =
  if bool_decide (p = None) then Ok (Some (- EINVAL), l) else if got =? 0 then k (set_mutex (Some t) l) else Ok (Some got, l).
Proof. intros Ha. unfold enter. destruct p; [|done]. unfold mbind, M_bind, gets. rewrite Ha. cbn. by destruct (got =? 0). Qed.

Lemma incr_run x l : x < INT_MAX -> incr x l = Ok (x + 1, l).
Proof. intros Hx. unfold incr. by destruct (Z.ltb_spec x INT_MAX); [|lia]. Qed.

Lemma decr_run x l : 0 <= x -> decr x l = Ok (x - 1, l).
Proof. intros Hx. unfold decr. destruct (Z.ltb_spec (- INT_MAX - 1) x); [done|]. unfold INT_MAX in *. lia. Qed.

Lemma rdlock_loop_run t op v s : rw_ok s -> room_for s ->
  on_lock t op (fun _ => rdlock_loop t (set_mutex v (lock s))) s =
  Ok (if (rw_refcount (lock s) <? 0) || (0 <? rw_nwaitwriters (lock s)) then sleeps_reader t op s
      else gets_lock t op (rw_refcount (lock s) + 1) s).
Proof.
  intros Hok Hr. pose proof (held_range _ Hok Hr). pose proof (waits_range reads _ Hr) as Hn. rewrite <- (ro_nr _ Hok) in Hn.
  unfold on_lock, rdlock_loop, mbind, M_bind, gets. cbn. destruct (_ || _); by rewrite incr_run by (cbn; lia).
Qed.

Lemma wrlock_loop_run t op v s : rw_ok s -> room_for s ->
  on_lock t op (fun _ => wrlock_loop t (set_mutex v (lock s))) s =
  Ok (if negb (rw_refcount (lock s) =? 0) then sleeps_writer t op s else gets_lock t op (-1) s).
Proof.
  intros Hok Hr. pose proof (waits_range writes _ Hr) as Hn. rewrite <- (ro_nw _ Hok) in Hn.
  unfold on_lock, wrlock_loop, mbind, M_bind, gets. cbn. destruct (negb _); [by rewrite incr_run by (cbn; lia)|done].
Qed.

(** *** and they keep the invariant *)

Lemma gets_read_ok t op s : rw_ok s -> calls s !! t = None -> room_for s -> reads op = true -> 0 <= rw_refcount (lock s) ->
  rw_ok (gets_lock t op (rw_refcount (lock s) + 1) s).
Proof.
  intros [Ha Hm Hc Hr Hw Hnr Hnw Hh Hroom] Ht Hrf Hop Hpos. unfold room_for in Hrf. unfold gets_lock, settle. cbn. rewrite Hop.
  split; cbn; rewrite ?delete_id by done; try done.
  - destruct Hh as [[-> ->]|(w & _ & _ & E)]; [left; split; [done|]; cbn; lia|lia].
  - lia.
Qed.

Lemma gets_write_ok t op s : rw_ok s -> calls s !! t = None -> writes op = true -> rw_refcount (lock s) = 0 ->
  rw_ok (gets_lock t op (-1) s).
Proof.
  intros [Ha Hm Hc Hr Hw Hnr Hnw Hh Hroom] Ht Hop Hz. unfold gets_lock, settle. cbn.
  rewrite Hop. assert (reads op = false) as -> by by destruct op.
  split; cbn; rewrite ?delete_id by done; try done.
  destruct Hh as [[-> E]|(w & _ & _ & E)]; [|lia].
  rewrite Hz in E. destruct (readers s); [right; by exists t|]. cbn in E. lia.
Qed.

Lemma dropped_room t p s : rw_ok s -> calls s !! t = Some p -> room_for (dropped t p s).
Proof. intros Hok Ht. pose proof (ro_room _ Hok). pose proof (dropped_size _ _ _ Ht). unfold room_for. cbn. lia. Qed.

Lemma dropped_new t p s : calls (dropped t p s) !! t = None.
Proof. apply lookup_delete_eq. Qed.

(** readers *)

Lemma rd_loop_inv fails t op s : rw_inv fails s -> calls s !! t = None -> room_for s -> reads op = true ->
  rw_inv fails (if (rw_refcount (lock s) <? 0) || (0 <? rw_nwaitwriters (lock s)) then sleeps_reader t op s
                else gets_lock t op (rw_refcount (lock s) + 1) s).
Proof.
  intros [Hok Haw] Ht Hroom Hop. case_match eqn:E.
  - split; [by apply sleeps_reader_ok|]. intros Hf. destruct (Haw Hf) as [Hc Hw Hr]. split; cbn.
    + intros u p [[<- <-]|[_ Hu]]%lookup_insert_Some; eauto.
    + intros Hz Hpos. destruct (Hw Hz Hpos) as (u & op' & Hu & Hop' & Hs). exists u, op'.
      rewrite lookup_insert_ne; [done|]. intros <-. congruence.
    + intros Hz Hn. exfalso. lia.
  - split; [apply gets_read_ok; [done..|lia]|]. intros Hf. destruct (Haw Hf) as [Hc Hw Hr].
    unfold gets_lock, settle. cbn. rewrite Hop. split; cbn; rewrite ?delete_id by done; [done|lia|].
    intros _. apply Hr. lia.
Qed.

(** Writers: a writer that was the only one awake either gets the lock or finds
    that somebody has it. *)
Lemma wr_loop_inv fails t op s : rw_ok s -> calls s !! t = None -> room_for s -> writes op = true ->
  (fails = false -> forall u p, calls s !! u = Some p -> exists op, p = Waiting op) ->
  rw_inv fails (if negb (rw_refcount (lock s) =? 0) then sleeps_writer t op s else gets_lock t op (-1) s).
Proof.
  intros Hok Ht Hroom Hop Hcs. assert (Hre : reads op = false) by by destruct op. case_match eqn:E.
  - split; [by apply sleeps_writer_ok|]. intros Hf. split; cbn.
    + intros u p [[<- <-]|[_ Hu]]%lookup_insert_Some; eauto.
    + intros Hz. lia.
    + pose proof (count_nonneg writes (calls s)). rewrite <- (ro_nw _ Hok) in *. lia.
  - split; [apply gets_write_ok; [done..|lia]|]. intros Hf. unfold gets_lock, settle. cbn.
    rewrite Hop, Hre. split; cbn; rewrite ?delete_id by done; [by apply Hcs|lia..].
Qed.
(** *** Unlocking *)

(** what [pthread_rwlock_unlock] does to the lock *)
Definition released l : pthread_rwlock_t C :=
  let r := if 0 <? rw_refcount l then rw_refcount l - 1 else if rw_refcount l =? -1 then 0 else rw_refcount l in
  let l := set_refcount r l in
  if 0 <? rw_nwaitwriters l then
    if r =? 0 then set_condwriters (condv_signal (rw_condwriters l)) l else l
  else if 0 <? rw_nwaitreaders l then set_condreaders (condv_broadcast (rw_condreaders l)) l else l.

Definition unlocks (t : nat) s : rwsys :=
  mkRwsys (set_mutex None (released (lock s))) (calls s) (remove_one t (readers s)) (klist_del t (writers s)).

Lemma unlock_run t s rwlock : attr (lock s) = 0 -> rwlock <> None ->
  unlock_call t rwlock 0 s = Ok (unlocks t s).
Proof.
  intros Ha Hp. unfold unlock_call, pthread_rwlock_unlock. rewrite enter_run by done. rewrite bool_decide_eq_false_2 by done.
  rewrite (bool_decide_eq_true_2 (rwlock <> None)) by done. unfold unlocks, released, mbind, M_bind, gets, modify. cbn.
  destruct (0 <? rw_refcount (lock s)); [|destruct (rw_refcount (lock s) =? -1)]; cbn;
    destruct (0 <? rw_nwaitwriters (lock s)); cbn; try destruct (_ =? 0); try destruct (0 <? rw_nwaitreaders (lock s)); done.
Qed.

Lemma remove_one_length t R : t ∈ R -> S (length (remove_one t R)) = length R.
Proof.
  induction R as [|u R IH]; intros Ht; [by apply elem_of_nil in Ht|]. cbn. case_decide as E; [done|].
  cbn. rewrite IH; [done|]. apply elem_of_cons in Ht as [->|Ht]; done.
Qed.

Lemma remove_one_le t R : (length (remove_one t R) <= length R)%nat.
Proof. induction R as [|u R IH]; [done|]. cbn. case_decide; cbn; lia. Qed.

Lemma unlock_holders t r R W : holders r R W -> t ∈ R \/ t ∈ W ->
  holders (if 0 <? r then r - 1 else if r =? -1 then 0 else r) (remove_one t R) (klist_del t W).
Proof.
  intros [[-> ->]|(w & -> & -> & ->)] Ht.
  - destruct Ht as [Ht|Ht]; [|by apply elem_of_nil in Ht]. pose proof (remove_one_length _ _ Ht).
    left. split; [done|]. destruct (Z.ltb_spec 0 (Z.of_nat (length R))); lia.
  - destruct Ht as [Ht|Ht]; [by apply elem_of_nil in Ht|]. apply list_elem_of_singleton in Ht as ->.
    left. split; [|done]. apply klist_del_head, not_elem_of_nil.
Qed.

Lemma released_fields l : attr (released l) = attr l /\ rw_nwaitreaders (released l) = rw_nwaitreaders l /\
  rw_nwaitwriters (released l) = rw_nwaitwriters l /\
  rw_refcount (released l) = (if 0 <? rw_refcount l then rw_refcount l - 1 else if rw_refcount l =? -1 then 0 else rw_refcount l) /\
  waiters (rw_condreaders (released l)) ⊆ waiters (rw_condreaders l) /\ waiters (rw_condwriters (released l)) ⊆ waiters (rw_condwriters l).
Proof.
  unfold released. cbn. pose proof (waiters_signal (rw_condwriters l)). pose proof (waiters_broadcast (rw_condreaders l)).
  repeat case_match; cbn; split_and!; try done; set_solver.
Qed.

Lemma unlocks_ok t s : rw_ok s -> calls s !! t = None -> t ∈ readers s \/ t ∈ writers s -> rw_ok (unlocks t s).
Proof.
  intros [Ha Hm Hc Hr Hw Hnr Hnw Hh Hroom] Ht Hin. destruct (released_fields (lock s)) as (F1 & F2 & F3 & F4 & F5 & F6).
  split; cbn; rewrite ?delete_id by done; rewrite ?F1, ?F2, ?F3, ?F4; try done.
  - by eapply sleep_in_sub.
  - by eapply sleep_in_sub.
  - by apply unlock_holders.
  - pose proof (remove_one_le t (readers s)). lia.
Qed.

Lemma signal_wakes (c : C) : signal_result c = 0 -> waiters c <> ∅ -> exists t, t ∈ waiters c /\ (t ∉ waiters (condv_signal c)).
Proof.
  intros Hres Hne. destruct (set_choose_or_empty (waiters c ∖ waiters (condv_signal c))) as [[t Ht]|E].
  - exists t. set_solver.
  - destruct (waiters_signal_one _ Hres Hne). apply set_eq. pose proof (waiters_signal c). intros u. split; [set_solver|].
    intros Hu. destruct (decide (u ∈ waiters (condv_signal c))); [done|]. set_solver.
Qed.

Lemma no_sleepers P c m : sleep_in P c m -> count P m = 0 -> waiters c = ∅.
Proof.
  intros Hs Hz. destruct (set_choose_or_empty (waiters c)) as [[t Ht]|E]; [|by apply set_eq].
  destruct (Hs _ Ht) as (op & Hc & Hop). pose proof (count_pos_in _ _ _ _ Hc Hop). lia.
Qed.

Lemma awake_writer s : rw_ok s -> rw_awake s -> signal_result (rw_condwriters (lock s)) = 0 -> 0 < rw_nwaitwriters (lock s) ->
  exists t op, calls s !! t = Some (Waiting op) /\ writes op = true /\ (t ∉ waiters (condv_signal (rw_condwriters (lock s)))).
Proof.
  intros Hok Haw Hres Hpos. destruct (decide (waiters (rw_condwriters (lock s)) = ∅)) as [E|E].
  - rewrite (ro_nw _ Hok) in Hpos. apply count_pos in Hpos as (t & p & Ht & Hp).
    destruct (ra_calls _ Haw _ _ Ht) as (op & ->). exists t, op. split_and!; [done..|].
    pose proof (waiters_signal (rw_condwriters (lock s))). set_solver.
  - destruct (signal_wakes _ Hres E) as (t & Ht & Hn). destruct (ro_writers _ Hok _ Ht) as (op & Hc & Hop). eauto.
Qed.

Lemma unlocks_awake t s : rw_ok s -> rw_awake s -> calls s !! t = None -> signal_result (rw_condwriters (lock s)) = 0 ->
  broadcast_result (rw_condreaders (lock s)) = 0 -> rw_awake (unlocks t s).
Proof.
  intros Hok Haw Ht Hres Hbc. pose proof (awake_writer _ Hok Haw Hres) as Hsig. pose proof (no_sleepers _ _ _ (ro_readers _ Hok)) as Hns.
  pose proof (count_nonneg writes (calls s)). pose proof (count_nonneg reads (calls s)).
  destruct Haw as [Hc Hw Hr]. rewrite <- (ro_nr _ Hok), <- (ro_nw _ Hok) in *.
  split; cbn; rewrite ?delete_id by done; [done|..].
  - unfold released. cbn. destruct (Z.ltb_spec 0 (rw_nwaitwriters (lock s))).
    + destruct (_ =? 0) eqn:Ez; cbn; [by intros _ _; apply Hsig|intros; lia].
    + destruct (0 <? rw_nwaitreaders (lock s)); cbn; lia.
  - unfold released. cbn. destruct (Z.ltb_spec 0 (rw_nwaitwriters (lock s))).
    + destruct (_ =? 0); cbn; lia.
    + destruct (Z.ltb_spec 0 (rw_nwaitreaders (lock s))); cbn; intros _ _; [by apply waiters_broadcast_all|apply Hns; lia].
Qed.
(** *** Every step keeps the invariant *)

Definition steps (fails : bool) (r : res unit (rwsys (C:=C))) : Prop := exists s', r = Ok s' /\ rw_inv fails s'.

Lemma error_steps fails t op s r : rw_inv fails s -> calls s !! t = None -> r <> 0 ->
  steps fails (on_lock t op (fun l => Ok (Some r, l)) s).
Proof. intros Hi Ht Hr. exists s. split; [|done]. transitivity (Ok (E := unit) (settle t op (Some r) s)); [by destruct s|by rewrite settle_error]. Qed.

Lemma on_lock_ext t op (m m' : M unit (pthread_rwlock_t C) (option Z)) s : m (lock s) = m' (lock s) -> on_lock t op m s = on_lock t op m' s.
Proof. unfold on_lock. by intros ->. Qed.

(** the checks at the beginning of a call *)
Lemma enter_steps fails t op rwlock got k s : rw_inv fails s -> calls s !! t = None ->
  (rwlock <> None -> got = 0 -> steps fails (on_lock t op (fun _ => k (set_mutex (Some t) (lock s))) s)) ->
  steps fails (on_lock t op (enter rwlock t got k) s).
Proof.
  intros Hi Ht Hk. rewrite (on_lock_ext _ _ _ (fun l => if bool_decide (rwlock = None) then Ok (Some (- EINVAL), l) else
    if got =? 0 then k (set_mutex (Some t) (lock s)) else Ok (Some got, l))) by (by rewrite (enter_run _ _ _ _ _ (ro_attr _ (proj1 Hi)))).
  case_bool_decide as Hp; [by apply error_steps|]. destruct (Z.eqb_spec got 0) as [->|Hg]; [by apply Hk|by apply error_steps].
Qed.

Lemma rd_loop_steps fails t op v s : rw_inv fails s -> calls s !! t = None -> room_for s -> reads op = true ->
  steps fails (on_lock t op (fun _ => rdlock_loop t (set_mutex v (lock s))) s).
Proof. intros Hi Ht Hr Hop. rewrite rdlock_loop_run by (done || apply Hi). eexists. split; [done|]. by apply rd_loop_inv. Qed.

Lemma wr_loop_steps fails t op v s : rw_ok s -> calls s !! t = None -> room_for s -> writes op = true ->
  (fails = false -> forall u p, calls s !! u = Some p -> exists op, p = Waiting op) ->
  steps fails (on_lock t op (fun _ => wrlock_loop t (set_mutex v (lock s))) s).
Proof. intros Hok Ht Hr Hop Hcs. rewrite wrlock_loop_run by done. eexists. split; [done|]. by apply wr_loop_inv. Qed.

Lemma waiting_calls fails s : rw_inv fails s -> fails = false -> forall u p, calls s !! u = Some p -> exists op, p = Waiting op.
Proof. intros [_ Haw] Hf. by apply ra_calls, Haw. Qed.

(** [pthread_rwlock_tryrdlock] does the same as the others when they need not wait *)
Lemma try_rd_run t op v s : rw_ok s -> room_for s ->
  on_lock t op (fun _ => (r ← gets rw_refcount; w ← gets rw_nwaitwriters;
    if (r <? 0) || (0 <? w) then leave (- EBUSY) else r ← incr r; modify (set_refcount r);; leave 0) (set_mutex v (lock s))) s =
  Ok (if (rw_refcount (lock s) <? 0) || (0 <? rw_nwaitwriters (lock s)) then settle t op (Some (- EBUSY)) s
      else gets_lock t op (rw_refcount (lock s) + 1) s).
Proof.
  intros Hok Hr. pose proof (held_range _ Hok Hr). unfold on_lock, mbind, M_bind, gets. cbn.
  destruct (_ || _); [|by rewrite incr_run by (cbn; lia)]. unfold leave, mbind, M_bind, modify. cbn [mret M_ret].
  rewrite set_mutex_id by apply Hok. by destruct s.
Qed.

Lemma try_wr_run t op v s : rw_ok s ->
  on_lock t op (fun _ => (r ← gets rw_refcount;
    if negb (r =? 0) then leave (- EBUSY) else modify (set_refcount (-1));; leave 0) (set_mutex v (lock s))) s =
  Ok (if negb (rw_refcount (lock s) =? 0) then settle t op (Some (- EBUSY)) s else gets_lock t op (-1) s).
Proof.
  intros Hok. unfold on_lock, mbind, M_bind, gets. cbn. destruct (negb _); [|done].
  unfold leave, mbind, M_bind, modify. cbn [mret M_ret]. rewrite set_mutex_id by apply Hok. by destruct s.
Qed.

Lemma call_steps fails s t op rwlock got : rw_inv fails s -> rw_legal s (RwCall t op rwlock got) ->
  (failing s (RwCall t op rwlock got) -> fails = true) -> steps fails (rw_exec (RwCall t op rwlock got) s).
Proof.
  intros Hi (Ht & Hm & Hu & Hr) Hfl. pose proof (waiting_calls _ _ Hi) as Hcs. destruct op; cbn [rw_exec rw_begin].
  - apply enter_steps; [done..|intros _ _]. by apply rd_loop_steps.
  - apply enter_steps; [done..|intros _ _]. by apply rd_loop_steps.
  - apply enter_steps; [done..|intros _ _]. rewrite try_rd_run by (done || apply Hi). eexists. split; [done|].
    pose proof (rd_loop_inv fails t TryRdLock s Hi Ht Hr eq_refl) as HL. destruct (_ || _); [by rewrite settle_error|done].
  - apply enter_steps; [done..|intros _ _]. apply wr_loop_steps; [apply Hi|done..].
  - apply enter_steps; [done..|intros _ _]. apply wr_loop_steps; [apply Hi|done..].
  - apply enter_steps; [done..|intros _ _]. rewrite try_wr_run by apply Hi. eexists. split; [done|].
    pose proof (wr_loop_inv fails t TryWrLock s (proj1 Hi) Ht Hr eq_refl Hcs) as HL. destruct (negb _); [by rewrite settle_error|done].
  - destruct Hi as [Hok Haw]. destruct (decide (got = 0 /\ rwlock <> None)) as [[-> Hp]|Hne].
    + rewrite unlock_run by (done || apply Hok). eexists. split; [done|]. split; [by apply unlocks_ok; [| |apply Hu]|].
      cbn [failing] in Hfl. intros Hf. apply unlocks_awake; [done|by apply Haw|done|..]; apply Z.eq_dne; intros ?; rewrite Hfl in Hf by auto; done.
    + unfold unlock_call, pthread_rwlock_unlock. rewrite enter_run by apply Hok. exists s. split; [|done].
      destruct (decide (rwlock = None)) as [->|Hp]; [by destruct s|]. rewrite (bool_decide_eq_false_2 (rwlock = None)) by done.
      destruct (Z.eqb_spec got 0) as [->|Hg]; [by destruct Hne|]. rewrite andb_false_r. by destruct s.
Qed.

(** the end of a wait: [t] is not counted any more, and its call goes on *)
Lemma on_lock_dropped t op m m' p s : m (lock s) = m' (lock (dropped t p s)) -> on_lock t op m s = on_lock t op m' (dropped t p s).
Proof.
  intros E. unfold on_lock. rewrite E. destruct (m' _) as [[r l]| |]; [|done..]. f_equal.
  unfold settle, dropped. cbn. destruct r; cbn; by rewrite ?insert_delete_eq, ?delete_delete_eq.
Qed.

Lemma rd_resume_run t r l : 0 <= rw_nwaitreaders l ->
  pthread_rwlock_rdlock_resume t r l =
  (if negb (r =? 0) then leave r else rdlock_loop t) (set_mutex (Some t) (set_nwaitreaders (rw_nwaitreaders l - 1) l)).
Proof.
  intros Hn. unfold pthread_rwlock_rdlock_resume, mbind, M_bind, modify, gets. cbn. rewrite decr_run by (cbn; lia).
  by destruct (negb _).
Qed.

Lemma wr_resume_run t r l : 0 <= rw_nwaitwriters l ->
  pthread_rwlock_wrlock_resume t r l =
  (if negb (r =? 0) then leave r else wrlock_loop t) (set_mutex (Some t) (set_nwaitwriters (rw_nwaitwriters l - 1) l)).
Proof.
  intros Hn. unfold pthread_rwlock_wrlock_resume, mbind, M_bind, modify, gets. cbn. rewrite decr_run by (cbn; lia).
  by destruct (negb _).
Qed.

Definition wait_result (p : rw_pc) : Z := match p with Waiting _ => 0 | Failed _ r => r end.

Lemma resume_exec s t p : rw_ok s -> calls s !! t = Some p ->
  rw_exec (RwResume t) s =
  on_lock t (pc_op p) (fun _ => (if negb (wait_result p =? 0) then leave (wait_result p)
    else if reads (pc_op p) then rdlock_loop t else wrlock_loop t) (set_mutex (Some t) (lock (dropped t p s)))) (dropped t p s).
Proof.
  intros Hok Ht. pose proof (count_nonneg reads (calls s)) as Hr. pose proof (count_nonneg writes (calls s)) as Hw.
  rewrite <- (ro_nr _ Hok) in Hr. rewrite <- (ro_nw _ Hok) in Hw.
  transitivity (on_lock t (pc_op p) (rw_resume (pc_op p) t (wait_result p)) s); [cbn; rewrite Ht; by destruct p|].
  apply on_lock_dropped. unfold rw_resume, dropped. destruct (reads (pc_op p)); [by rewrite rd_resume_run|by rewrite wr_resume_run].
Qed.

(** a reader that gives up, or wakes, is nobody the others count on *)
Lemma dropped_reader_awake t p s : rw_awake s -> calls s !! t = Some p -> reads (pc_op p) = true -> rw_awake (dropped t p s).
Proof.
  intros [Hc Hw Hr] Ht Hop. unfold dropped. rewrite Hop. split; cbn; [|intros Hz Hpos|done].
  - intros u q [_ Hu]%lookup_delete_Some. eauto.
  - destruct (Hw Hz Hpos) as (u & op & Hu & Hop' & Hs). exists u, op. rewrite lookup_delete_ne; [done|].
    intros <-. rewrite Ht in Hu. injection Hu as ->. cbn in Hop. by destruct op.
Qed.

Lemma resume_steps fails s t : rw_inv fails s -> rw_legal s (RwResume t) -> steps fails (rw_exec (RwResume t) s).
Proof.
  intros Hi ([p Ht] & Hs & _). pose proof Hi as [Hok Haw]. rewrite (resume_exec _ _ _ Hok Ht).
  pose proof (dropped_ok _ _ _ Hok Ht Hs) as Hok'. pose proof (dropped_room _ _ _ Hok Ht) as Hroom.
  pose proof (ro_calls _ Hok _ _ Ht) as Hrw.
  assert (Hi' : reads (pc_op p) = true \/ wait_result p <> 0 -> rw_inv fails (dropped t p s)).
  { intros Hcase. split; [done|]. intros Hf. destruct (ra_calls _ (Haw Hf) _ _ Ht) as (op & ->).
    destruct Hcase; [|done]. apply dropped_reader_awake; auto. }
  destruct (Z.eqb_spec (wait_result p) 0) as [E|E]; cbn [negb].
  - destruct (reads (pc_op p)) eqn:Hop.
    + apply rd_loop_steps; [by auto|apply dropped_new|done..].
    + apply wr_loop_steps; [done|apply dropped_new|done|done|]. intros Hf u q Hu. cbn in Hu. apply lookup_delete_Some in Hu as [_ Hu].
      by apply (ra_calls _ (Haw Hf) u).
  - unfold leave, mbind, M_bind, modify. rewrite set_mutex_id by apply Hok'.
    rewrite (on_lock_ext _ _ _ (fun l => Ok (Some (wait_result p), l))) by done. apply error_steps; [by auto|apply dropped_new|done].
Qed.

(** a wait that ends by itself *)
Lemma asleep_call s t : rw_ok s -> t ∈ asleep s -> exists op, calls s !! t = Some (Waiting op) /\
  t ∈ (if reads op then waiters (rw_condreaders (lock s)) else waiters (rw_condwriters (lock s))) /\
  (t ∉ (if reads op then waiters (rw_condwriters (lock s)) else waiters (rw_condreaders (lock s)))).
Proof.
  intros Hok. pose proof (ro_readers _ Hok t) as Hr. pose proof (ro_writers _ Hok t) as Hw. unfold asleep. rewrite elem_of_union.
  intros [Hin|Hin]; [destruct (Hr Hin) as (op & Hc & Hop)|destruct (Hw Hin) as (op & Hc & Hop)];
    pose proof (ro_calls _ Hok _ _ Hc) as Hrw; cbn in Hrw; exists op.
  - rewrite Hop in *. cbn in Hrw. split_and!; [done..|]. intros Hx. destruct (Hw Hx) as (op' & Hc' & Hop'). congruence.
  - assert (reads op = false) as E by (destruct (reads op); [cbn in Hrw; congruence|done]). rewrite E.
    split_and!; [done..|]. intros Hx. destruct (Hr Hx) as (op' & Hc' & Hop'). congruence.
Qed.

Lemma sleep_in_leave P c m t p : sleep_in P c m -> sleep_in P (condv_leave t c) (<[t := p]> m).
Proof. intros Hs u. rewrite waiters_leave, elem_of_difference, elem_of_singleton. intros [Hu Hne]. rewrite lookup_insert_ne by done. by apply Hs. Qed.

Lemma ends_wait_ok t op p s : rw_ok s -> t ∈ asleep s -> calls s !! t = Some (Waiting op) -> pc_op p = op -> rw_ok (ends_wait t op p s).
Proof.
  intros Hok Hin Ht Hp. destruct (asleep_call _ _ Hok Hin) as (op' & Ht' & _ & Hnot).
  assert (op' = op) as -> by congruence. destruct Hok as [Ha Hm Hc Hr Hw Hnr Hnw Hh Hroom].
  assert (Hcalls : forall u q, <[t := p]> (calls s) !! u = Some q -> writes (pc_op q) = negb (reads (pc_op q))).
  { intros u q [[<- <-]|[_ Hu]]%lookup_insert_Some; [|eauto]. rewrite Hp. exact (Hc _ _ Ht). }
  assert (Hsz : size (<[t := p]> (calls s)) = size (calls s)) by (apply map_size_insert_Some; by eexists).
  unfold ends_wait. destruct (reads op); (split; cbn; rewrite ?(count_replace _ _ _ _ _ Ht Hp), ?Hsz; try done).
  all: (by apply sleep_in_leave) || (by apply sleep_in_new).
Qed.

Lemma ends_wait_awake t op s : rw_awake s -> calls s !! t = Some (Waiting op) -> rw_awake (ends_wait t op (Waiting op) s).
Proof.
  intros [Hc Hw Hr] Ht. unfold ends_wait. rewrite insert_id by done. destruct (reads op); (split; cbn; try done).
  - intros. rewrite waiters_leave, Hr by done. set_solver.
  - intros Hz Hpos. destruct (Hw Hz Hpos) as (u & op' & Hu & Hop & Hs). exists u, op'. rewrite waiters_leave. set_solver.
Qed.

Lemma rw_steps fails s e : rw_inv fails s -> rw_legal s e -> (failing s e -> fails = true) -> steps fails (rw_exec e s).
Proof.
  intros Hi He Hf. destruct e as [t op rwlock got|t|t|t r].
  - by apply call_steps.
  - by apply resume_steps.
  - destruct Hi as [Hok Haw]. destruct (asleep_call _ _ Hok He) as (op & Ht & _). cbn. rewrite Ht. eexists. split; [done|].
    split; [by apply ends_wait_ok|]. intros E. apply ends_wait_awake; auto.
  - destruct Hi as [Hok Haw], He as [He _]. destruct (asleep_call _ _ Hok He) as (op & Ht & _). cbn. rewrite Ht. eexists. split; [done|].
    split; [by apply ends_wait_ok|]. rewrite (Hf I). done.
Qed.

Lemma rw_start_inv fails : rw_inv fails (rw_start (C:=C)).
Proof.
  split; [|intros _]; (split; cbn; try done).
  - intros t. rewrite waiters_init. set_solver.
  - intros t. rewrite waiters_init. set_solver.
  - by left.
  - intros. apply waiters_init.
Qed.

Lemma rw_reach_inv fails s : rw_reach fails s -> rw_inv fails s.
Proof.
  induction 1 as [|s e s' _ IH He Hf E]; [apply rw_start_inv|].
  destruct (rw_steps _ _ _ IH He Hf) as (s1 & E1 & Hi). congruence.
Qed.

(** nobody sleeps in vain: the writer that is awake can go on, and gets the lock *)
Lemma rw_free_taken s : rw_ok s -> rw_awake s -> rw_refcount (lock s) = 0 -> asleep s <> ∅ ->
  exists t op s', calls s !! t = Some (Waiting op) /\ writes op = true /\ rw_legal s (RwResume t) /\
    rw_exec (RwResume t) s = Ok s' /\ writers s' = [t] /\ calls s' !! t = None.
Proof.
  intros Hok Haw Hz Hs. pose proof (count_nonneg writes (calls s)) as Hn. rewrite <- (ro_nw _ Hok) in Hn.
  destruct (Z.eq_dec (rw_nwaitwriters (lock s)) 0) as [E|E].
  { exfalso. apply Hs. unfold asleep. rewrite (ra_reader _ Haw) by lia. rewrite (no_sleepers _ _ _ (ro_writers _ Hok)); [set_solver|].
    by rewrite <- (ro_nw _ Hok). }
  destruct (ra_writer _ Haw Hz ltac:(lia)) as (t & op & Ht & Hop & Hnot).
  assert (Hre : reads op = false) by by destruct op.
  assert (Hna : t ∉ asleep s). { intros Hin. destruct (asleep_call _ _ Hok Hin) as (op' & Ht' & Hin' & _).
    assert (op' = op) as -> by congruence. rewrite Hre in Hin'. done. }
  assert (HW : writers s = []) by (destruct (ro_held _ Hok) as [[? _]|(? & _ & _ & ?)]; [done|lia]).
  exists t, op. eexists. split_and!; [done|done|split_and!; [by eexists|done|apply Hok]|..].
  - rewrite (resume_exec _ _ _ Hok Ht). cbn [wait_result pc_op]. rewrite Hre. cbn [negb Z.eqb].
    rewrite wrlock_loop_run by (by apply dropped_ok || by eapply dropped_room).
    unfold dropped at 1. cbn [pc_op]. rewrite Hre. cbn [rw_refcount lock set_nwaitwriters]. rewrite Hz. reflexivity.
  - unfold gets_lock, settle, dropped. cbn. rewrite Hop, Hre. cbn. by rewrite HW.
  - unfold gets_lock, settle, dropped. cbn. rewrite Hop, Hre. cbn. by rewrite delete_delete_eq, lookup_delete_eq.
Qed.
End invariant.
