(* ===== verification/SkMonitor.v ===== *)
(** * The socket monitor ([sdk/lib/net/skmonitor/skmonitor.c])

    A list of sockets with the events each is watched for and the function that
    is called for them.  A task collects the sockets in the sets of [select],
    a work looks up what [select] left in them and calls the functions; a
    semaphore has them take turns.  The list is protected by a mutex, which the
    work gives up around each call.  [select] is a parameter: it returns at the
    label of its step.  The sockets' functions, of [lwip], send nothing here but
    the datagram that ends a [select]. *)

From S2P Require Import Prelude Config.
Open Scope Z_scope.

(** ** State *)

Record skmonitor_entry := mkEntry { next : option nat; sock : Z; flags : Z; disable : Z; priv : Z; cb : option nat }.

(** [entry_mem] is the memory of the entries; [run] the semaphore; [sock] of the
    manager is [mgr_sock] *)
Record skmonitor_mgr := mkMgr {
  entry_mem : gmap nat skmonitor_entry;
  entrys : option nat;
  run : Z;
  rset : gset Z;
  wset : gset Z;
  eset : gset Z;
  mgr_sock : Z
}.

Definition set_mem (v : gmap nat skmonitor_entry) (s : skmonitor_mgr) := mkMgr v (entrys s) (run s) (rset s) (wset s) (eset s) (mgr_sock s).
Definition set_entrys (v : option nat) (s : skmonitor_mgr) := mkMgr (entry_mem s) v (run s) (rset s) (wset s) (eset s) (mgr_sock s).
Definition set_run (v : Z) (s : skmonitor_mgr) := mkMgr (entry_mem s) (entrys s) v (rset s) (wset s) (eset s) (mgr_sock s).
Definition set_sets (r w e : gset Z) (s : skmonitor_mgr) := mkMgr (entry_mem s) (entrys s) (run s) r w e (mgr_sock s).

Abbreviation SM := (M kstat_t skmonitor_mgr).

Definition get_entry (a : nat) : SM skmonitor_entry := m ← gets entry_mem; lift (m !! a).
Definition put_entry (a : nat) (e : skmonitor_entry) : SM unit := modify (fun s => set_mem (<[a := e]> (entry_mem s)) s).

Definition set_next (v : option nat) (e : skmonitor_entry) := mkEntry v (sock e) (flags e) (disable e) (priv e) (cb e).
Definition set_watch (c : option nat) (p f : Z) (e : skmonitor_entry) := mkEntry (next e) (sock e) f (disable e) p c.
(** a field of one bit *)
Definition set_disable (v : Z) (e : skmonitor_entry) := mkEntry (next e) (sock e) (flags e) (Z.land v 1) (priv e) (cb e).

Definition SOCK_MONITOR_READ : Z := 1.
Definition SOCK_MONITOR_WRITE : Z := 2.
Definition SOCK_MONITOR_ERROR : Z := 4.

(** [FD_SET] and [FD_ISSET] ignore what is no socket of [lwip] *)
Definition FD_SETSIZE : Z := 6.
Definition FD_SET (n : Z) (p : gset Z) : gset Z := if (0 <=? n) && (n <? FD_SETSIZE) then {[n]} ∪ p else p.
Definition FD_ISSET (n : Z) (p : gset Z) : bool := (0 <=? n) && (n <? FD_SETSIZE) && bool_decide (n ∈ p).

Definition EINVAL : Z := 22.
Definition has_flag (f b : Z) : bool := negb (Z.land f b =? 0).

(** ** The calls, each from the lock to the unlock *)

(** the loop over the list: at the entry of the socket [s] it executes [found]
    and stops; the fuel is one more than the entries *)
Fixpoint find_loop (fuel : nat) (s : Z) (found : option nat -> nat -> skmonitor_entry -> SM unit) (prev mntr : option nat) : SM bool :=
  match mntr, fuel with
  | None, _ => mret false
  | Some _, O => undef
  | Some a, S n =>
      e ← get_entry a;
      if sock e =? s then found prev a e;; mret true else find_loop n s found (Some a) (next e)
  end.

Definition for_sock (s : Z) (found : option nat -> nat -> skmonitor_entry -> SM unit) : SM bool :=
  m ← gets entry_mem; l ← gets entrys; find_loop (S (size m)) s found None l.

(** [alloc] is what [os_zalloc] returns; [s] is a [uint16] *)
Definition sock_monitor_add (s f : Z) (c : option nat) (p : Z) (alloc : option nat) : SM Z :=
  if (2 ^ 15 <=? s) || bool_decide (c = None) then mret (- EINVAL) else
  ret ← for_sock s (fun _ a e => put_entry a (set_watch c p (u8 f) e));
  if ret : bool then mret 0 else
  match alloc with
  | None => mret (-1)
  | Some a =>
      l ← gets entrys;
      put_entry a (mkEntry l s (u8 f) 0 p c);;
      modify (set_entrys (Some a));;
      mret 0
  end.

Definition sock_monitor_del (s : Z) : SM unit :=
  for_sock s (fun prev a e =>
    (match prev with
     | Some p => pe ← get_entry p; put_entry p (set_next (next e) pe)
     | None => modify (set_entrys (next e))
     end);;
    modify (fun st => set_mem (delete a (entry_mem st)) st));;
  mret tt.

(** entries whose [disable] is what it shall be are passed over, the search goes
    on behind them *)
Fixpoint disable_loop (fuel : nat) (s d : Z) (mntr : option nat) : SM unit :=
  match mntr, fuel with
  | None, _ => mret tt
  | Some _, O => undef
  | Some a, S n =>
      e ← get_entry a;
      if (sock e =? s) && negb (disable e =? d) then put_entry a (set_disable d e) else disable_loop n s d (next e)
  end.

Definition sock_monitor_disable (s d : Z) : SM unit :=
  m ← gets entry_mem; l ← gets entrys; disable_loop (S (size m)) s d l.

(** ** The task *)

Definition fd_add (e : skmonitor_entry) (f : Z) (p : gset Z) : gset Z := if has_flag (flags e) f then FD_SET (sock e) p else p.

(** [ret] is the largest socket so far *)
Fixpoint build_loop (fuel : nat) (ret : Z) (mntr : option nat) : SM Z :=
  match mntr, fuel with
  | None, _ => mret ret
  | Some _, O => undef
  | Some a, S n =>
      e ← get_entry a;
      if disable e =? 0 then
        modify (fun s => set_sets (fd_add e SOCK_MONITOR_READ (rset s)) (fd_add e SOCK_MONITOR_WRITE (wset s))
                                  (fd_add e SOCK_MONITOR_ERROR (eset s)) s);;
        build_loop n (if ret <? sock e then sock e else ret) (next e)
      else build_loop n ret (next e)
  end.

Definition os_sema_down : SM unit := modify (fun s => set_run (run s - 1) s).
Definition os_sema_up : SM unit := modify (fun s => set_run (run s + 1) s).

(** from the semaphore up to [select]; the result is its first argument *)
Definition sock_monitor_task : SM Z :=
  os_sema_down;;
  s ← gets mgr_sock;
  modify (set_sets (FD_SET s ∅) ∅ ∅);;
  m ← gets entry_mem;
  l ← gets entrys;
  ret ← build_loop (S (size m)) s l;
  mret (ret + 1).

(** [select] returned [ret] and left [r], [w] and [e] in the sets; whether the
    work is started *)
Definition select_returned (ret : Z) (r w e : gset Z) : SM bool :=
  modify (set_sets r w e);;
  if ret =? 0 then os_sema_up;; mret false else mret true.

(** ** The work *)

Definition flag_if (b : bool) (f : Z) : Z := if b then f else 0.

Definition ready_flags (n : Z) (r w e : gset Z) : Z :=
  Z.lor (Z.lor (flag_if (FD_ISSET n r) SOCK_MONITOR_READ) (flag_if (FD_ISSET n w) SOCK_MONITOR_WRITE)) (flag_if (FD_ISSET n e) SOCK_MONITOR_ERROR).

(** a call [cb(sock, flags, priv)] *)
Record sk_call := mkCall { c_cb : nat; c_sock : Z; c_flags : Z; c_priv : Z }.

(** the loop up to the next call, and the entry behind it *)
Fixpoint work_loop (fuel : nat) (mntr : option nat) : SM (option (sk_call * option nat)) :=
  match mntr, fuel with
  | None, _ => mret None
  | Some _, O => undef
  | Some a, S n =>
      e ← get_entry a;
      s ← gets id;
      let f := ready_flags (sock e) (rset s) (wset s) (eset s) in
      match cb e with
      | Some c => if negb (f =? 0) then mret (Some (mkCall c (sock e) f (priv e), next e)) else work_loop n (next e)
      | None => work_loop n (next e)
      end
  end.

Definition work_from (mntr : option nat) : SM (option (sk_call * option nat)) :=
  m ← gets entry_mem; work_loop (S (size m)) mntr.

(** from the start of the work, or the end of a call, to the next call or the
    end; [recvfrom] takes what there is, if anything *)
Definition sock_monitor_work (mntr : option nat) : SM (option (sk_call * option nat)) :=
  r ← work_from mntr;
  match r with
  | Some c => mret (Some c)
  | None => os_sema_up;; mret None
  end.

(** [fd] is what [socket] returns, [bound] what [bind] does *)
Definition sock_monitor_init (fd bound : Z) : Z * skmonitor_mgr :=
  let s := mkMgr ∅ None 0 ∅ ∅ ∅ fd in
  if fd =? -1 then (-1, s) else
  if bound <? 0 then (-1, s) else
  (0, set_run 1 s).

(** ** The task, the work and their callers

    [called] are the calls made so far.  [WCall p] is a work inside a call; [p]
    is the entry it will go on with. *)

Inductive task_pc := TDown | TSelect.
Inductive work_pc := WIdle | WQueued | WCall (p : option nat).

Record sksys := mkSk { mon : skmonitor_mgr; tpc : task_pc; wpc : work_pc; called : list sk_call }.

(** [SkSelect]: [select] returns [ret] and leaves [r], [w] and [e] in the sets *)
Inductive sk_event :=
  | SkTask
  | SkSelect (ret : Z) (r w e : gset Z)
  | SkWork
  | SkAdd (s f : Z) (c : option nat) (p : Z) (alloc : option nat)
  | SkDel (s : Z)
  | SkDisable (s d : Z).

Definition on_mon {A} (m : SM A) (k : A -> skmonitor_mgr -> sksys) (s : sksys) : res kstat_t sksys :=
  match m (mon s) with Ok (a, st) => Ok (k a st) | Reset e => Reset e | Undef => Undef end.

Definition sk_exec (e : sk_event) (s : sksys) : res kstat_t sksys :=
  match e with
  | SkTask => on_mon sock_monitor_task (fun _ st => mkSk st TSelect (wpc s) (called s)) s
  | SkSelect ret r w x =>
      on_mon (select_returned ret r w x) (fun started st => mkSk st TDown (if started : bool then WQueued else wpc s) (called s)) s
  | SkWork =>
      on_mon (mntr ← match wpc s with WCall p => mret p | _ => gets entrys end;
              sock_monitor_work mntr)
        (fun r st => match r with
                     | Some (c, p) => mkSk st (tpc s) (WCall p) (called s ++ [c])
                     | None => mkSk st (tpc s) WIdle (called s)
                     end) s
  | SkAdd n f c p alloc => on_mon (sock_monitor_add n f c p alloc) (fun _ st => mkSk st (tpc s) (wpc s) (called s)) s
  | SkDel n => on_mon (sock_monitor_del n) (fun _ st => mkSk st (tpc s) (wpc s) (called s)) s
  | SkDisable n d => on_mon (sock_monitor_disable n d) (fun _ st => mkSk st (tpc s) (wpc s) (called s)) s
  end.

(** What the callers keep to: the entry the work will go on with is not deleted.
    [os_zalloc] returns memory that is not in use; [select] does not fail, and
    leaves sockets in the sets that were in them; a datagram it announces is
    there for [recvfrom]. *)
Definition sk_legal (s : sksys) (e : sk_event) : Prop :=
  match e with
  | SkTask => tpc s = TDown /\ 0 < run (mon s)
  | SkSelect ret r w x => tpc s = TSelect /\ 0 <= ret /\ r ⊆ rset (mon s) /\ w ⊆ wset (mon s) /\ x ⊆ eset (mon s)
  | SkWork => wpc s <> WIdle
  | SkAdd n _ _ _ alloc => 0 <= n < 2 ^ 16 /\ match alloc with Some a => entry_mem (mon s) !! a = None | None => True end
  | SkDel n => match wpc s with WCall (Some a) => sock <$> entry_mem (mon s) !! a <> Some n | _ => True end
  | SkDisable _ d => 0 <= d < 2 ^ 8
  end.

#[export] Instance task_pc_dec : EqDecision task_pc.
Proof. solve_decision. Defined.
#[export] Instance work_pc_dec : EqDecision work_pc.
Proof. solve_decision. Defined.
#[export] Instance sk_entry_dec : EqDecision skmonitor_entry.
Proof. solve_decision. Defined.
#[export] Instance sk_legal_dec s e : Decision (sk_legal s e).
Proof. destruct e; cbn; repeat case_match; apply _. Defined.

Definition sk_start (fd : Z) : sksys := mkSk (sock_monitor_init fd 0).2 TDown WIdle [].

(** the events in the order they happened *)
Inductive sk_reach (fd : Z) : list sk_event -> sksys -> Prop :=
  | sk_reach_start : sk_reach fd [] (sk_start fd)
  | sk_reach_step es s e s' : sk_reach fd es s -> sk_legal s e -> sk_exec e s = Ok s' -> sk_reach fd (es ++ [e]) s'.

(** ** What it shall do

    The watched sockets in the order of their calls, the youngest first, and one
    party at work: the task before or in [select], or the work, before its first
    call or in a call with the sockets behind it still to come. *)

Record watch := mkWatch { w_sock : Z; w_flags : Z; w_disable : Z; w_priv : Z; w_cb : nat }.

Inductive sk_phase := Waiting | Selecting | Queued | Calling (todo : list watch).

Record sk_abs := mkAbs { a_list : list watch; a_phase : sk_phase; a_r : gset Z; a_w : gset Z; a_e : gset Z; a_called : list sk_call }.

(** the same change to all the sockets and to those still to come *)
Definition on_lists (g : list watch -> list watch) (a : sk_abs) : sk_abs :=
  mkAbs (g (a_list a)) (match a_phase a with Calling todo => Calling (g todo) | p => p end) (a_r a) (a_w a) (a_e a) (a_called a).

Definition at_sock (n : Z) (h : watch -> watch) : list watch -> list watch := fmap (fun w => if w_sock w =? n then h w else w).

Definition watched (b : Z) (l : list watch) : gset Z :=
  list_to_set (filter (fun n => 0 <= n < FD_SETSIZE) (w_sock <$> filter (fun w => w_disable w = 0 /\ has_flag (w_flags w) b = true) l)).

Definition w_ready (a : sk_abs) (w : watch) : Z := ready_flags (w_sock w) (a_r a) (a_w a) (a_e a).

Fixpoint first_ready (a : sk_abs) (l : list watch) : option (sk_call * list watch) :=
  match l with
  | [] => None
  | w :: l => if w_ready a w =? 0 then first_ready a l else Some (mkCall (w_cb w) (w_sock w) (w_ready a w) (w_priv w), l)
  end.

Definition spec_step (fd : Z) (e : sk_event) (a : sk_abs) : sk_abs :=
  match e with
  | SkTask =>
      mkAbs (a_list a) Selecting (FD_SET fd ∅ ∪ watched SOCK_MONITOR_READ (a_list a)) (watched SOCK_MONITOR_WRITE (a_list a))
        (watched SOCK_MONITOR_ERROR (a_list a)) (a_called a)
  | SkSelect ret r w x => mkAbs (a_list a) (if ret =? 0 then Waiting else Queued) r w x (a_called a)
  | SkWork =>
      match first_ready a (match a_phase a with Calling todo => todo | _ => a_list a end) with
      | Some (c, todo) => mkAbs (a_list a) (Calling todo) (a_r a) (a_w a) (a_e a) (a_called a ++ [c])
      | None => mkAbs (a_list a) Waiting (a_r a) (a_w a) (a_e a) (a_called a)
      end
  | SkAdd n f (Some c) p alloc =>
      if 2 ^ 15 <=? n then a
      else if decide (n ∈ w_sock <$> a_list a) then on_lists (at_sock n (fun w => mkWatch n (u8 f) (w_disable w) p c)) a
      else if alloc is Some _ then mkAbs (mkWatch n (u8 f) 0 p c :: a_list a) (a_phase a) (a_r a) (a_w a) (a_e a) (a_called a)
      else a
  | SkAdd _ _ None _ _ => a
  | SkDel n => on_lists (filter (fun w => w_sock w <> n)) a
  | SkDisable n d => on_lists (at_sock n (fun w => mkWatch n (w_flags w) (Z.land d 1) (w_priv w) (w_cb w))) a
  end.

Definition spec_run (fd : Z) (es : list sk_event) : sk_abs :=
  foldl (fun a e => spec_step fd e a) (mkAbs [] Waiting ∅ ∅ ∅ []) es.

(** ** The list in memory *)

Definition to_entry (n : option nat) (w : watch) : skmonitor_entry :=
  mkEntry n (w_sock w) (w_flags w) (w_disable w) (w_priv w) (Some (w_cb w)).

(** the sockets with the addresses of their entries *)
Abbreviation entries := (list (nat * watch)) (only parsing).
Abbreviation socks l := ((fun p : nat * watch => w_sock p.2) <$> l).

Definition head_addr (l : entries) : option nat := match l with [] => None | (a, _) :: _ => Some a end.

Fixpoint chain (m : gmap nat skmonitor_entry) (l : entries) : Prop :=
  match l with [] => True | (a, w) :: l => m !! a = Some (to_entry (head_addr l) w) /\ chain m l end.

(** the memory holds the entries of the list and no others *)
Record list_ok (m : gmap nat skmonitor_entry) (l : entries) : Prop := {
  lk_chain : chain m l;
  lk_dom : dom m = list_to_set l.*1;
  lk_addr : NoDup l.*1;
  lk_sock : NoDup (socks l);
  lk_bit : Forall (fun p => w_disable p.2 = 0 \/ w_disable p.2 = 1) l
}.

Lemma list_fuel m l : list_ok m l -> size m = length l.
Proof. intros [_ Hd Ha _ _]. rewrite <- size_dom, Hd, size_list_to_set by done. apply length_fmap. Qed.

Lemma entry_chain_app m l1 l2 : chain m (l1 ++ l2) -> chain m l2.
Proof. induction l1 as [|[a w] l1 IH]; cbn; [done|]. intros [_ H]. auto. Qed.

Lemma entry_chain_frame m m' l : (forall a, a ∈ l.*1 -> m' !! a = m !! a) -> chain m l -> chain m' l.
Proof.
  induction l as [|[a w] l IH]; cbn; [done|]. intros Hm [Ha Hc]. rewrite Hm by set_solver. split; [done|]. apply IH; [set_solver|done].
Qed.

Lemma head_addr_app l1 a w w' l2 : head_addr (l1 ++ (a, w) :: l2) = head_addr (l1 ++ (a, w') :: l2).
Proof. by destruct l1 as [|[]]. Qed.

Lemma entry_chain_update m l1 a w w' l2 : NoDup (l1 ++ (a, w) :: l2).*1 -> chain m (l1 ++ (a, w) :: l2) ->
  chain (<[a := to_entry (head_addr l2) w']> m) (l1 ++ (a, w') :: l2).
Proof.
  induction l1 as [|[b v] l1 IH]; cbn.
  - intros [Ha _]%NoDup_cons [_ Hc]. rewrite lookup_insert_eq. split; [done|].
    eapply entry_chain_frame, Hc. intros c Hin. apply lookup_insert_ne. by intros <-.
  - intros [Hb Hnd]%NoDup_cons [Hm Hc]. split; [|by apply IH]. rewrite lookup_insert_ne by (rewrite fmap_app in Hb; set_solver).
    by rewrite (head_addr_app _ _ w' w).
Qed.

Lemma entry_chain_unlink m l1 b v a w l2 : NoDup (l1 ++ (b, v) :: (a, w) :: l2).*1 -> chain m (l1 ++ (b, v) :: (a, w) :: l2) ->
  chain (delete a (<[b := to_entry (head_addr l2) v]> m)) (l1 ++ (b, v) :: l2).
Proof.
  induction l1 as [|[c u] l1 IH]; cbn.
  - intros [Hb [Ha _]%NoDup_cons]%NoDup_cons (_ & _ & Hc). rewrite lookup_delete_ne, lookup_insert_eq by set_solver. split; [done|].
    eapply entry_chain_frame, Hc. intros c Hin. rewrite lookup_delete_ne, lookup_insert_ne by set_solver. done.
  - intros [Hb Hnd]%NoDup_cons [Hm Hc]. split; [|by apply IH]. rewrite fmap_app in Hb.
    rewrite lookup_delete_ne, lookup_insert_ne, Hm by set_solver. by destruct l1 as [|[]].
Qed.

(** where a socket is in the list *)
Lemma sock_split n (l : entries) : n ∈ socks l -> exists l1 a w l2, l = l1 ++ (a, w) :: l2 /\ w_sock w = n /\ n ∉ socks l1.
Proof.
  induction l as [|[a w] l IH]; cbn; [set_solver|]. destruct (decide (w_sock w = n)) as [E|E]; [intros _; by exists [], a, w, l; set_solver|].
  intros Hin. destruct IH as (l1 & b & v & l2 & -> & Hv & Hn); [set_solver|]. exists ((a, w) :: l1), b, v, l2. split_and!; [done..|]. set_solver.
Qed.

(** ** The calls *)

Fixpoint last_addr (prev : option nat) (l : entries) : option nat :=
  match l with [] => prev | (b, _) :: l => last_addr (Some b) l end.

Lemma last_addr_app prev l b v : last_addr prev (l ++ [(b, v)]) = Some b.
Proof. revert prev. by induction l as [|[c u] l IH]; cbn. Qed.

Lemma get_entry_run st a e : entry_mem st !! a = Some e -> get_entry a st = Ok (e, st).
Proof. unfold get_entry, mbind, M_bind, gets, lift. by intros ->. Qed.

Lemma bind_ok {A B} (m : SM A) (f : A -> SM B) st a st' : m st = Ok (a, st') -> (m ≫= f) st = f a st'.
Proof. unfold mbind, M_bind. by intros ->. Qed.

Lemma find_none n found fuel st (l : entries) prev : chain (entry_mem st) l -> n ∉ socks l -> (length l < fuel)%nat ->
  find_loop fuel n found prev (head_addr l) st = Ok (false, st).
Proof.
  revert fuel prev. induction l as [|[a w] l IH]; intros [|fuel] prev; cbn; [lia|done|lia|]. intros [Ha Hc] Hn Hf.
  rewrite (bind_ok _ _ _ _ _ (get_entry_run _ _ _ Ha)). cbn. destruct (Z.eqb_spec (w_sock w) n); [set_solver|].
  apply IH; [done|set_solver|lia].
Qed.

Lemma find_at n found fuel st (l1 l2 : entries) a w prev : chain (entry_mem st) (l1 ++ (a, w) :: l2) -> n ∉ socks l1 -> w_sock w = n ->
  (length (l1 ++ (a, w) :: l2) < fuel)%nat ->
  find_loop fuel n found prev (head_addr (l1 ++ (a, w) :: l2)) st = (found (last_addr prev l1) a (to_entry (head_addr l2) w);; mret true) st.
Proof.
  revert fuel prev. induction l1 as [|[b v] l1 IH]; intros [|fuel] prev; cbn; [lia| |lia|]; intros [Ha Hc] Hn Hw Hf;
    rewrite (bind_ok _ _ _ _ _ (get_entry_run _ _ _ Ha)); cbn.
  - by rewrite (proj2 (Z.eqb_eq _ _) Hw).
  - destruct (Z.eqb_spec (w_sock v) n); [set_solver|]. apply IH; [done|set_solver|done|lia].
Qed.

Section for_sock.
Context (st : skmonitor_mgr) (l : list (nat * watch)).
Hypothesis Hok : list_ok (entry_mem st) l.
Hypothesis Hl : entrys st = head_addr l.

Lemma for_sock_none n found : n ∉ socks l -> for_sock n found st = Ok (false, st).
Proof.
  intros Hn. unfold for_sock. do 2 (erewrite bind_ok by reflexivity). rewrite Hl, (list_fuel _ _ Hok). apply find_none; [apply Hok|done|lia].
Qed.

Lemma for_sock_at n found l1 a w l2 : l = l1 ++ (a, w) :: l2 -> w_sock w = n -> n ∉ socks l1 ->
  for_sock n found st = (found (last_addr None l1) a (to_entry (head_addr l2) w);; mret true) st.
Proof.
  intros E Hw Hn. unfold for_sock. do 2 (erewrite bind_ok by reflexivity). rewrite Hl, (list_fuel _ _ Hok), E. apply find_at; [rewrite <- E; apply Hok|done|done|lia].
Qed.
End for_sock.

(** a change at one socket *)
Definition upd_at (n : Z) (h : watch -> watch) : entries -> entries := fmap (fun p => (p.1, if w_sock p.2 =? n then h p.2 else p.2)).

Lemma upd_at_not n h (l : entries) : n ∉ socks l -> upd_at n h l = l.
Proof.
  induction l as [|[a w] l IH]; cbn; intros Hn; [done|]. destruct (Z.eqb_spec (w_sock w) n); [set_solver|]. f_equal. apply IH. set_solver.
Qed.

Lemma upd_at_split n h (l1 l2 : entries) a w : NoDup (socks (l1 ++ (a, w) :: l2)) -> w_sock w = n ->
  upd_at n h (l1 ++ (a, w) :: l2) = l1 ++ (a, h w) :: l2.
Proof.
  intros Hnd Hw. rewrite fmap_app in Hnd. apply NoDup_app in Hnd as (_ & H1 & H2). cbn in H1, H2. apply NoDup_cons in H2 as [H2 _].
  unfold upd_at. rewrite fmap_app. cbn. rewrite (proj2 (Z.eqb_eq _ _) Hw). f_equal; [|f_equal]; apply upd_at_not.
  - intros Hin. apply (H1 n Hin). set_solver.
  - by rewrite <- Hw.
Qed.

Lemma upd_at_head n h l : head_addr (upd_at n h l) = head_addr l.
Proof. by destruct l as [|[]]. Qed.

Lemma upd_at_addrs n h l : (upd_at n h l).*1 = l.*1.
Proof. unfold upd_at. rewrite <- list_fmap_compose. done. Qed.

Lemma upd_at_watch n h l : (upd_at n h l).*2 = at_sock n h l.*2.
Proof. unfold upd_at, at_sock. by rewrite <- !list_fmap_compose. Qed.

Lemma upd_at_socks n h l : (forall w, w_sock w = n -> w_sock (h w) = n) -> socks (upd_at n h l) = socks l.
Proof.
  intros Hh. unfold upd_at. rewrite <- list_fmap_compose. apply list_fmap_ext. intros i [a w] _. cbn.
  destruct (Z.eqb_spec (w_sock w) n) as [E|E]; [by rewrite E, Hh|done].
Qed.

(** the entry at a socket is overwritten *)
Lemma update_ok m n h l1 a w l2 : (forall w, w_sock w = n -> w_sock (h w) = n) ->
  (w_disable w = 0 \/ w_disable w = 1 -> w_disable (h w) = 0 \/ w_disable (h w) = 1) ->
  list_ok m (l1 ++ (a, w) :: l2) -> w_sock w = n ->
  list_ok (<[a := to_entry (head_addr l2) (h w)]> m) (upd_at n h (l1 ++ (a, w) :: l2)).
Proof.
  intros Hh Hd [Hc Hm Ha Hs Hb] Hw. split.
  - rewrite upd_at_split by done. by eapply entry_chain_update.
  - rewrite upd_at_addrs, dom_insert_L, Hm. rewrite fmap_app. cbn. set_solver.
  - by rewrite upd_at_addrs.
  - by rewrite upd_at_socks.
  - rewrite upd_at_split by done. apply Forall_app in Hb as [Hb1 [Hb2 Hb3]%Forall_cons]. apply Forall_app. split; [done|]. constructor; auto.
Qed.

(** [sock_monitor_del] takes one socket out *)
Definition del_at (n : Z) : entries -> entries := filter (fun p => w_sock p.2 <> n).

Lemma del_at_not n (l : entries) : n ∉ socks l -> del_at n l = l.
Proof.
  induction l as [|[a w] l IH]; intros Hn; [done|]. cbn in Hn. unfold del_at in *. rewrite filter_cons_True by (cbn; set_solver). f_equal. apply IH. set_solver.
Qed.

Lemma del_at_split n (l1 l2 : entries) a w : NoDup (socks (l1 ++ (a, w) :: l2)) -> w_sock w = n -> del_at n (l1 ++ (a, w) :: l2) = l1 ++ l2.
Proof.
  intros Hnd Hw. rewrite fmap_app in Hnd. apply NoDup_app in Hnd as (_ & H1 & H2). cbn in H1, H2. apply NoDup_cons in H2 as [H2 _].
  unfold del_at. rewrite filter_app, filter_cons_False by (cbn; tauto). f_equal; apply del_at_not.
  - intros Hin. apply (H1 n Hin). set_solver.
  - by rewrite <- Hw.
Qed.

Lemma del_at_watch n (l : entries) : (del_at n l).*2 = filter (fun w => w_sock w <> n) l.*2.
Proof.
  induction l as [|[a w] l IH]; [done|]. unfold del_at in *. rewrite filter_cons, fmap_cons, filter_cons. cbn [snd].
  case_decide; rewrite ?fmap_cons, IH; done.
Qed.

Lemma list_ok_remove m m' l1 a w l2 : list_ok m (l1 ++ (a, w) :: l2) -> dom m' = dom m ∖ {[a]} -> chain m' (l1 ++ l2) -> list_ok m' (l1 ++ l2).
Proof.
  intros [Hc Hm Ha Hs Hb] Hd Hc'.
  assert (E : l1 ++ (a, w) :: l2 ≡ₚ (a, w) :: l1 ++ l2) by (symmetry; apply Permutation_middle).
  assert (E1 : (l1 ++ (a, w) :: l2).*1 ≡ₚ a :: (l1 ++ l2).*1) by (by rewrite E).
  rewrite E1 in Ha. apply NoDup_cons in Ha as [Hn Ha]. split; [done|..|done| |].
  - rewrite Hd, Hm. apply set_eq. intros x. rewrite elem_of_difference, !elem_of_list_to_set, E1. set_solver.
  - assert (E2 : socks (l1 ++ (a, w) :: l2) ≡ₚ w_sock w :: socks (l1 ++ l2)) by (by rewrite E). rewrite E2 in Hs.
    apply NoDup_cons in Hs as [_ Hs]. done.
  - rewrite E in Hb. apply Forall_cons in Hb as [_ Hb]. done.
Qed.

(** [m] makes [g] of the list, and touches nothing else *)
Definition mon_rep (st : skmonitor_mgr) (l : entries) : Prop := list_ok (entry_mem st) l /\ entrys st = head_addr l.

Definition same_rest (st st' : skmonitor_mgr) : Prop :=
  run st' = run st /\ rset st' = rset st /\ wset st' = wset st /\ eset st' = eset st /\ mgr_sock st' = mgr_sock st.

Definition makes {A} (m : SM A) (st : skmonitor_mgr) (r : A) (l' : entries) : Prop :=
  exists st', m st = Ok (r, st') /\ mon_rep st' l' /\ same_rest st st'.

Lemma makes_nothing {A} (m : SM A) st r l : m st = Ok (r, st) -> mon_rep st l -> makes m st r l.
Proof. intros E H. by exists st. Qed.

Definition set_watch_at (n f p : Z) (c : nat) (w : watch) : watch := mkWatch n (u8 f) (w_disable w) p c.

Lemma add_known st l n f c p alloc : mon_rep st l -> n < 2 ^ 15 -> n ∈ socks l ->
  makes (sock_monitor_add n f (Some c) p alloc) st 0 (upd_at n (set_watch_at n f p c) l).
Proof.
  intros [Hok Hl] Hn Hin. destruct (sock_split _ _ Hin) as (l1 & a & w & l2 & -> & Hw & Hn1).
  unfold makes, sock_monitor_add. rewrite (proj2 (Z.leb_gt _ _)), bool_decide_eq_false_2 by done. cbn.
  erewrite bind_ok by (by rewrite (for_sock_at _ _ Hok Hl n _ l1 a w l2)).
  eexists. split; [done|]. split; [|done]. split; cbn.
  - unfold set_watch. cbn. rewrite Hw. by apply (update_ok _ n (set_watch_at n f p c)).
  - by rewrite Hl, upd_at_head.
Qed.

Lemma add_new st l n f c p a : mon_rep st l -> n < 2 ^ 15 -> n ∉ socks l -> entry_mem st !! a = None ->
  makes (sock_monitor_add n f (Some c) p (Some a)) st 0 ((a, mkWatch n (u8 f) 0 p c) :: l).
Proof.
  intros [Hok Hl] Hn Hin Ha. unfold makes, sock_monitor_add. rewrite (proj2 (Z.leb_gt _ _)), bool_decide_eq_false_2 by done. cbn.
  erewrite bind_ok by (by apply (for_sock_none _ _ Hok Hl)).
  assert (Hnot : a ∉ l.*1). { apply not_elem_of_dom in Ha. rewrite (lk_dom _ _ Hok) in Ha. set_solver. }
  eexists. split; [done|]. split; [|done]. split; [|done]. destruct Hok as [Hc Hd Hna Hs Hb]. split; cbn.
  - rewrite lookup_insert_eq, Hl. split; [done|]. eapply entry_chain_frame, Hc. intros b Hb'. apply lookup_insert_ne. by intros <-.
  - by rewrite dom_insert_L, Hd.
  - by apply NoDup_cons.
  - by apply NoDup_cons.
  - constructor; [by left|done].
Qed.

Lemma add_fails st l n f c p : mon_rep st l -> n ∉ socks l -> makes (sock_monitor_add n f (Some c) p None) st (if 2 ^ 15 <=? n then - EINVAL else -1) l.
Proof.
  intros [Hok Hl] Hin. apply makes_nothing; [|done]. unfold sock_monitor_add. rewrite bool_decide_eq_false_2 by done.
  destruct (2 ^ 15 <=? n); [done|]. cbn. by erewrite bind_ok by (by apply (for_sock_none _ _ Hok Hl)).
Qed.

Lemma add_refused st l n f c p alloc : mon_rep st l -> c = None \/ 2 ^ 15 <= n -> makes (sock_monitor_add n f c p alloc) st (- EINVAL) l.
Proof.
  intros Hr Hc. apply makes_nothing; [|done]. unfold sock_monitor_add.
  destruct Hc as [->|Hc]; [by rewrite orb_true_r|by rewrite (proj2 (Z.leb_le _ _) Hc)].
Qed.

Lemma del_makes st l n : mon_rep st l -> makes (sock_monitor_del n) st tt (del_at n l).
Proof.
  intros [Hok Hl]. destruct (decide (n ∈ socks l)) as [Hin|Hin].
  2:{ rewrite del_at_not by done. apply makes_nothing; [|done]. unfold sock_monitor_del. by erewrite bind_ok by (by apply (for_sock_none _ _ Hok Hl)). }
  destruct (sock_split _ _ Hin) as (l1 & a & w & l2 & -> & Hw & Hn1). rewrite del_at_split by (done || apply Hok).
  unfold makes, sock_monitor_del. destruct l1 as [|[b v] l1 _] using rev_ind.
  - erewrite bind_ok by (by rewrite (for_sock_at _ _ Hok Hl n _ [] a w l2)).
    eexists. split; [done|]. split; [|done]. split; [|done]. cbn [set_mem set_entrys entry_mem].
    apply (list_ok_remove _ _ [] a w l2 Hok); [by rewrite dom_delete_L|].
    pose proof (lk_addr _ _ Hok) as Hnd. cbn in Hnd. apply NoDup_cons in Hnd as [Hnd _]. eapply entry_chain_frame; [|apply (lk_chain _ _ Hok)].
    intros x Hx. apply lookup_delete_ne. by intros <-.
  - rewrite <- app_assoc in Hok, Hl, Hin |- *. cbn [app] in *.
    assert (Hb : entry_mem st !! b = Some (to_entry (Some a) v)).
    { pose proof (entry_chain_app _ _ _ (lk_chain _ _ Hok)) as Hc. apply Hc. }
    erewrite bind_ok.
    2:{ rewrite (for_sock_at _ _ Hok Hl n _ (l1 ++ [(b, v)]) a w l2); [|by rewrite <- app_assoc|done..].
        rewrite last_addr_app. cbn. unfold mbind at 1 2 3, M_bind at 1 2 3. rewrite (get_entry_run _ _ _ Hb). reflexivity. }
    eexists. split; [done|]. split; [|done]. split; cbn.
    + replace (l1 ++ (b, v) :: l2) with ((l1 ++ [(b, v)]) ++ l2) by by rewrite <- app_assoc.
      apply (list_ok_remove (entry_mem st) _ _ a w); [by rewrite <- app_assoc|..].
      * rewrite dom_delete_L, dom_insert_L. apply mk_is_Some, elem_of_dom in Hb. set_solver.
      * rewrite <- app_assoc. apply (entry_chain_unlink _ _ _ _ _ w); apply Hok.
    + rewrite Hl. by destruct l1 as [|[]].
Qed.

Lemma disable_none n d fuel st (l : entries) : chain (entry_mem st) l -> n ∉ socks l -> (length l < fuel)%nat ->
  disable_loop fuel n d (head_addr l) st = Ok (tt, st).
Proof.
  revert fuel. induction l as [|[a w] l IH]; intros [|fuel]; cbn; [lia|done|lia|]. intros [Ha Hc] Hn Hf.
  rewrite (bind_ok _ _ _ _ _ (get_entry_run _ _ _ Ha)). cbn. destruct (Z.eqb_spec (w_sock w) n); [set_solver|].
  apply IH; [done|set_solver|lia].
Qed.

Lemma disable_at n d fuel st (l1 l2 : entries) a w : chain (entry_mem st) (l1 ++ (a, w) :: l2) -> n ∉ socks l1 -> n ∉ socks l2 -> w_sock w = n ->
  (length (l1 ++ (a, w) :: l2) < fuel)%nat ->
  disable_loop fuel n d (head_addr (l1 ++ (a, w) :: l2)) st =
  if w_disable w =? d then Ok (tt, st) else put_entry a (set_disable d (to_entry (head_addr l2) w)) st.
Proof.
  revert fuel. induction l1 as [|[b v] l1 IH]; intros [|fuel]; cbn; [lia| |lia|]; intros [Ha Hc] Hn Hn2 Hw Hf;
    rewrite (bind_ok _ _ _ _ _ (get_entry_run _ _ _ Ha)); cbn.
  - rewrite (proj2 (Z.eqb_eq _ _) Hw). cbn. destruct (w_disable w =? d); [|done]. apply disable_none; [done|done|lia].
  - destruct (Z.eqb_spec (w_sock v) n); [set_solver|]. apply IH; [done|set_solver|done|done|lia].
Qed.

Definition set_disable_at (n d : Z) (w : watch) : watch := mkWatch n (w_flags w) (Z.land d 1) (w_priv w) (w_cb w).

Lemma land_1 d : Z.land d 1 = 0 \/ Z.land d 1 = 1.
Proof. pose proof (land_ones_mod d 1 ltac:(lia)) as E. change (Z.ones 1) with 1 in E. rewrite E. zlia. Qed.

Lemma disable_makes st l n d : mon_rep st l -> makes (sock_monitor_disable n d) st tt (upd_at n (set_disable_at n d) l).
Proof.
  intros [Hok Hl]. assert (Hf : sock_monitor_disable n d st = disable_loop (S (length l)) n d (head_addr l) st).
  { unfold sock_monitor_disable. do 2 (erewrite bind_ok by reflexivity). by rewrite Hl, (list_fuel _ _ Hok). }
  destruct (decide (n ∈ socks l)) as [Hin|Hin].
  2:{ rewrite upd_at_not by done. apply makes_nothing; [|done]. rewrite Hf. apply disable_none; [apply Hok|done|lia]. }
  destruct (sock_split _ _ Hin) as (l1 & a & w & l2 & -> & Hw & Hn1).
  pose proof (lk_sock _ _ Hok) as Hs. rewrite fmap_app in Hs. apply NoDup_app in Hs as (_ & _ & Hs). cbn in Hs. apply NoDup_cons in Hs as [Hs _].
  rewrite disable_at in Hf by (rewrite <- ?Hw in *; done || lia || apply Hok).
  destruct (Z.eqb_spec (w_disable w) d) as [E|E].
  - rewrite upd_at_split by (done || apply Hok). replace (set_disable_at n d w) with w; [by apply makes_nothing|].
    pose proof (lk_bit _ _ Hok) as Hb. apply Forall_app in Hb as [_ [Hb _]%Forall_cons]. cbn in Hb.
    destruct w as [ws wf wd wp wc]. cbn in *. unfold set_disable_at. cbn. subst. by destruct Hb as [-> | ->].
  - unfold makes. rewrite Hf. eexists. split; [done|]. split; [|done]. split; cbn; [|by rewrite Hl, upd_at_head].
    unfold set_disable. cbn. rewrite Hw. apply (update_ok _ n (set_disable_at n d)); [done|intros _; apply land_1|done|done].
Qed.

(** ** The task *)

Lemma FD_SET_set n p : FD_SET n p = list_to_set (filter (fun n => 0 <= n < FD_SETSIZE) [n]) ∪ p.
Proof.
  unfold FD_SET. rewrite filter_cons, filter_nil. destruct (Z.leb_spec 0 n), (Z.ltb_spec n FD_SETSIZE); cbn; case_decide; try lia; set_solver.
Qed.

Lemma watched_cons b w l : watched b (w :: l) =
  (if w_disable w =? 0 then if has_flag (w_flags w) b then list_to_set (filter (fun n => 0 <= n < FD_SETSIZE) [w_sock w]) else ∅ else ∅) ∪ watched b l.
Proof.
  unfold watched. rewrite (filter_cons (fun w => _ /\ _)). destruct (Z.eqb_spec (w_disable w) 0), (has_flag (w_flags w) b) eqn:E;
    case_decide; try tauto; try (destruct_and?; congruence); rewrite ?(left_id_L ∅ (∪)); [|done..].
  rewrite fmap_cons, filter_cons, (filter_cons _ _ []), filter_nil. case_decide; cbn; set_solver.
Qed.

Lemma fd_add_set n w b p : fd_add (to_entry n w) b p =
  (if has_flag (w_flags w) b then list_to_set (filter (fun n => 0 <= n < FD_SETSIZE) [w_sock w]) else ∅) ∪ p.
Proof. unfold fd_add. cbn [to_entry flags sock]. destruct (has_flag _ _); [apply FD_SET_set|by rewrite (left_id_L ∅ (∪))]. Qed.

Lemma union_swap (x p q : gset Z) : x ∪ p ∪ q = p ∪ (x ∪ q).
Proof. set_solver. Qed.

Lemma build_run fuel st (l : entries) ret : chain (entry_mem st) l -> (length l < fuel)%nat ->
  exists ret', build_loop fuel ret (head_addr l) st =
    Ok (ret', set_sets (rset st ∪ watched SOCK_MONITOR_READ l.*2) (wset st ∪ watched SOCK_MONITOR_WRITE l.*2) (eset st ∪ watched SOCK_MONITOR_ERROR l.*2) st) /\
    ret <= ret' /\ Forall (fun w => w_disable w = 0 -> w_sock w <= ret') l.*2.
Proof.
  revert fuel st ret. induction l as [|[a w] l IH]; intros [|fuel] st ret; cbn [length]; [lia| |lia|]; intros Hc Hf.
  - exists ret. cbn. rewrite !(right_id_L ∅ (∪)). split; [by destruct st|]. split; [lia|constructor].
  - destruct Hc as [Ha Hc]. cbn [build_loop head_addr]. rewrite (bind_ok _ _ _ _ _ (get_entry_run _ _ _ Ha)). cbn [to_entry disable sock flags next].
    rewrite fmap_cons, !watched_cons. cbn [snd]. destruct (Z.eqb_spec (w_disable w) 0) as [E|E].
    + erewrite bind_ok by reflexivity.
      destruct (IH fuel (set_sets (fd_add (to_entry (head_addr l) w) SOCK_MONITOR_READ (rset st)) (fd_add (to_entry (head_addr l) w) SOCK_MONITOR_WRITE (wset st))
         (fd_add (to_entry (head_addr l) w) SOCK_MONITOR_ERROR (eset st)) st) (if ret <? w_sock w then w_sock w else ret)) as (ret' & E1 & Hr & Hw); [done|lia|].
      exists ret'. split; [|split; [|constructor; [|done]]].
      * etransitivity; [exact E1|]. rewrite !fd_add_set. cbn. by rewrite !union_swap.
      * destruct (Z.ltb_spec ret (w_sock w)); lia.
      * intros _. cbn. destruct (Z.ltb_spec ret (w_sock w)); lia.
    + destruct (IH fuel st ret) as (ret' & E1 & Hr & Hw); [done|lia|]. exists ret'. rewrite E1, !(left_id_L ∅ (∪)). split; [done|]. split; [done|].
      by constructor.
Qed.

(** ** The work *)

Lemma work_run fuel st (l : entries) a : chain (entry_mem st) l -> (length l < fuel)%nat ->
  a_r a = rset st -> a_w a = wset st -> a_e a = eset st ->
  (first_ready a l.*2 = None /\ work_loop fuel (head_addr l) st = Ok (None, st)) \/
  (exists c l1 l2, l = l1 ++ l2 /\ first_ready a l.*2 = Some (c, l2.*2) /\ work_loop fuel (head_addr l) st = Ok (Some (c, head_addr l2), st)).
Proof.
  intros Hc Hf Er Ew Ee. revert fuel Hc Hf. induction l as [|[b w] l IH]; intros [|fuel]; cbn; [lia|by left|lia|]. intros [Ha Hc] Hf.
  rewrite (bind_ok _ _ _ _ _ (get_entry_run _ _ _ Ha)). erewrite bind_ok by reflexivity. cbn. unfold w_ready. rewrite Er, Ew, Ee.
  destruct (ready_flags (w_sock w) (rset st) (wset st) (eset st) =? 0); cbn.
  - destruct (IH fuel Hc ltac:(lia)) as [?|(c & l1 & l2 & -> & E1 & E2)]; [by left|]. right. exists c, ((b, w) :: l1), l2. done.
  - right. eexists _, [(b, w)], l. done.
Qed.

(** ** The refinement *)

Definition phase_rep (s : sksys) (l : entries) (p : sk_phase) : Prop :=
  match p with
  | Waiting => tpc s = TDown /\ wpc s = WIdle /\ run (mon s) = 1
  | Selecting => tpc s = TSelect /\ wpc s = WIdle /\ run (mon s) = 0
  | Queued => tpc s = TDown /\ wpc s = WQueued /\ run (mon s) = 0
  | Calling todo => tpc s = TDown /\ run (mon s) = 0 /\ exists l1 l2, l = l1 ++ l2 /\ wpc s = WCall (head_addr l2) /\ todo = l2.*2
  end.

Definition sets_rep (st : skmonitor_mgr) (a : sk_abs) : Prop := a_r a = rset st /\ a_w a = wset st /\ a_e a = eset st.

Record sk_rep (fd : Z) (s : sksys) (a : sk_abs) : Prop := {
  sr_list : exists l, mon_rep (mon s) l /\ a_list a = l.*2 /\ phase_rep s l (a_phase a);
  sr_sets : sets_rep (mon s) a;
  sr_sock : mgr_sock (mon s) = fd;
  sr_called : called s = a_called a
}.

Lemma list_change fd {A} (m : SM A) (r : A) (g : entries -> entries) gw s a l :
  mon_rep (mon s) l -> a_list a = l.*2 -> phase_rep s l (a_phase a) -> sk_rep fd s a ->
  makes m (mon s) r (g l) -> (forall k1 k2, g (k1 ++ k2) = g k1 ++ g k2) -> (forall k, (g k).*2 = gw k.*2) ->
  (forall l1 l2, l = l1 ++ l2 -> wpc s = WCall (head_addr l2) -> head_addr (g l2) = head_addr l2) ->
  exists s', on_mon m (fun _ st => mkSk st (tpc s) (wpc s) (called s)) s = Ok s' /\ sk_rep fd s' (on_lists gw a).
Proof.
  intros Hm Hl Hp [_ Hs Hk Hc] (st & E & Hst & Hrun & Hr & Hw & He & Hfd) Happ Hg Hh. unfold on_mon. rewrite E. eexists. split; [done|].
  split; cbn; [|unfold sets_rep in *; cbn; by rewrite Hr, Hw, He|congruence|done]. exists (g l). split; [done|]. rewrite Hg, <- Hl. split; [done|].
  destruct (a_phase a) as [| | |todo]; cbn in *; rewrite Hrun; try done.
  destruct Hp as (H1 & H2 & l1 & l2 & -> & Hwp & ->). split_and!; [done..|]. exists (g l1), (g l2). split_and!; [done| |done]. by rewrite (Hh l1).
Qed.

Lemma on_lists_id a : on_lists (fun l => l) a = a.
Proof. unfold on_lists. by destruct a as [? [] ? ? ? ?]. Qed.

Lemma add_steps fd s a n f c p alloc : sk_rep fd s a -> sk_legal s (SkAdd n f c p alloc) ->
  exists s', sk_exec (SkAdd n f c p alloc) s = Ok s' /\ sk_rep fd s' (spec_step fd (SkAdd n f c p alloc) a).
Proof.
  intros Hr [_ Ha]. pose proof Hr as [(l & Hm & Hl & Hp) Hs Hk Hc].
  assert (Hsame : forall r, makes (sock_monitor_add n f c p alloc) (mon s) r l -> exists s', sk_exec (SkAdd n f c p alloc) s = Ok s' /\ sk_rep fd s' a).
  { intros r H. rewrite <- (on_lists_id a). by eapply (list_change fd _ _ (fun l => l)). }
  destruct c as [c|]; [|by eapply Hsame, add_refused; [|left]]. cbn [spec_step].
  destruct (Z.leb_spec (2 ^ 15) n) as [Hn|Hn]; [by eapply Hsame, add_refused; [|right]|].
  assert (Hin : n ∈ w_sock <$> a_list a <-> n ∈ socks l) by (by rewrite Hl, <- list_fmap_compose).
  destruct (decide _) as [Hd|Hd].
  - eapply (list_change fd _ _ (upd_at n (set_watch_at n f p c))); [done..| | | |].
    + apply add_known; [done|lia|tauto].
    + intros. apply fmap_app.
    + intros. apply upd_at_watch.
    + intros. apply upd_at_head.
  - destruct alloc as [x|]; [|eapply Hsame, add_fails; [done|tauto]].
    destruct (add_new _ l n f c p x Hm Hn ltac:(tauto) Ha) as (st & E & Hst & Hrun & H1 & H2 & H3 & Hfd).
    cbn [sk_exec]. unfold on_mon. rewrite E. eexists. split; [done|]. split; cbn; [|unfold sets_rep in *; cbn; by rewrite H1, H2, H3|congruence|done].
    eexists. split; [done|]. rewrite Hl. split; [done|]. destruct (a_phase a); cbn in *; rewrite Hrun; try done.
    destruct Hp as (H4 & H5 & l1 & l2 & -> & H6). split_and!; [done..|]. by exists ((x, mkWatch n (u8 f) 0 p c) :: l1), l2.
Qed.

Lemma del_steps fd s a n : sk_rep fd s a -> sk_legal s (SkDel n) ->
  exists s', sk_exec (SkDel n) s = Ok s' /\ sk_rep fd s' (spec_step fd (SkDel n) a).
Proof.
  intros Hr Hleg. pose proof Hr as [(l & Hm & Hl & Hp) _ _ _]. cbn in Hleg. eapply (list_change fd _ _ (del_at n)); [done..| | | |].
  - by apply del_makes.
  - intros. apply filter_app.
  - intros. apply del_at_watch.
  - intros l1 [|[x w] l2] -> Hw; [done|]. unfold del_at. rewrite filter_cons_True; [done|]. cbn.
    pose proof (entry_chain_app _ _ _ (lk_chain _ _ (proj1 Hm))) as [Hx _]. rewrite Hw in Hleg. cbn in Hleg. rewrite Hx in Hleg. by intros <-.
Qed.

Lemma disable_steps fd s a n d : sk_rep fd s a ->
  exists s', sk_exec (SkDisable n d) s = Ok s' /\ sk_rep fd s' (spec_step fd (SkDisable n d) a).
Proof.
  intros Hr. pose proof Hr as [(l & Hm & Hl & Hp) _ _ _]. eapply (list_change fd _ _ (upd_at n (set_disable_at n d))); [done..| | | |].
  - by apply disable_makes.
  - intros. apply fmap_app.
  - intros. apply upd_at_watch.
  - intros. apply upd_at_head.
Qed.

Lemma task_steps fd s a : sk_rep fd s a -> sk_legal s SkTask -> exists s', sk_exec SkTask s = Ok s' /\ sk_rep fd s' (spec_step fd SkTask a).
Proof.
  intros [(l & [Hok He] & Hl & Hp) Hs Hk Hc] [Ht Hrun].
  assert (Hw : wpc s = WIdle /\ run (mon s) = 1). { destruct (a_phase a); cbn in Hp; destruct_and!; [done|lia..]. }
  destruct Hw as [Hw Hr1].
  destruct (build_run (S (length l)) (set_sets (FD_SET fd ∅) ∅ ∅ (set_run (run (mon s) - 1) (mon s))) l fd) as (ret & E & _ & _); [apply Hok|lia|].
  eexists. split.
  - cbn [sk_exec]. unfold on_mon, sock_monitor_task. erewrite bind_ok by reflexivity. do 4 (erewrite bind_ok by reflexivity).
    cbn [set_sets set_run entry_mem entrys mgr_sock]. rewrite (list_fuel _ _ Hok), He, Hk.
    erewrite bind_ok by exact E. reflexivity.
  - split; cbn; [|unfold sets_rep; cbn; by rewrite Hl, !(left_id_L ∅ (∪))|done..]. exists l. split; [done|]. split; [done|]. split_and!; [done..|lia].
Qed.

(** the first argument of [select] is above all the sockets it is given *)
Lemma select_arg fd s a : sk_rep fd s a -> exists n st, sock_monitor_task (mon s) = Ok (n, st) /\ fd < n /\
  Forall (fun w => w_disable w = 0 -> w_sock w < n) (a_list a).
Proof.
  intros [(l & [Hok He] & Hl & _) _ Hk _].
  destruct (build_run (S (length l)) (set_sets (FD_SET fd ∅) ∅ ∅ (set_run (run (mon s) - 1) (mon s))) l fd) as (ret & E & Hge & Hw); [apply Hok|lia|].
  do 2 eexists. split; [|split].
  - unfold sock_monitor_task. do 5 (erewrite bind_ok by reflexivity). cbn [set_sets set_run entry_mem entrys mgr_sock]. rewrite (list_fuel _ _ Hok), He, Hk.
    erewrite bind_ok by exact E. reflexivity.
  - lia.
  - rewrite Hl. eapply Forall_impl; [exact Hw|]. cbn. lia.
Qed.

Lemma select_steps fd s a ret r w x : sk_rep fd s a -> sk_legal s (SkSelect ret r w x) ->
  exists s', sk_exec (SkSelect ret r w x) s = Ok s' /\ sk_rep fd s' (spec_step fd (SkSelect ret r w x) a).
Proof.
  intros [(l & Hm & Hl & Hp) Hs Hk Hc] (Ht & _).
  assert (Hw : wpc s = WIdle /\ run (mon s) = 0). { destruct (a_phase a); cbn in Hp; destruct_and!; congruence || done. }
  destruct Hw as [Hw Hr]. cbn [sk_exec spec_step]. unfold on_mon, select_returned. erewrite bind_ok by reflexivity. destruct (ret =? 0).
  - eexists. split; [reflexivity|]. split; cbn; [|done..]. exists l. rewrite Hr. done.
  - eexists. split; [reflexivity|]. split; cbn; [|done..]. exists l. done.
Qed.

Lemma work_steps fd s a : sk_rep fd s a -> sk_legal s SkWork -> exists s', sk_exec SkWork s = Ok s' /\ sk_rep fd s' (spec_step fd SkWork a).
Proof.
  intros [(l & [Hok He] & Hl & Hp) Hs Hk Hc] Hw. cbn in Hw.
  assert (Hcur : tpc s = TDown /\ run (mon s) = 0 /\ exists l1 l2, l = l1 ++ l2 /\ l2.*2 = match a_phase a with Calling todo => todo | _ => a_list a end /\
    (match wpc s with WCall p => mret p | _ => gets entrys end : SM (option nat)) (mon s) = Ok (head_addr l2, mon s)).
  { destruct (a_phase a); cbn in Hp.
    - destruct Hp as (_ & ? & _). done.
    - destruct Hp as (_ & ? & _). done.
    - destruct Hp as (? & E & ?). split_and!; [done..|]. exists [], l. rewrite Hl, E, <- He. done.
    - destruct Hp as (? & ? & l1 & l2 & H1 & E & H3). split_and!; [done..|]. exists l1, l2. by rewrite E. }
  destruct Hcur as (Ht & Hr & l1 & l2 & -> & Htodo & Hmntr). cbn [sk_exec spec_step]. rewrite <- Htodo.
  pose proof Hs as (E1 & E2 & E3).
  assert (Hf : forall q, work_from q (mon s) = work_loop (S (length (l1 ++ l2))) q (mon s)).
  { intros q. unfold work_from. erewrite bind_ok by reflexivity. by rewrite (list_fuel _ _ Hok). }
  destruct (work_run (S (length (l1 ++ l2))) (mon s) l2 a) as [[Hn E]|(c & k1 & k2 & -> & Hn & E)];
    [apply (entry_chain_app _ l1), Hok|rewrite length_app; lia|done..| |]; rewrite <- Hf in E; rewrite Hn; unfold on_mon.
  - rewrite (bind_ok _ _ _ _ _ Hmntr); unfold sock_monitor_work; rewrite (bind_ok _ _ _ _ _ E). eexists. split; [reflexivity|]. split; cbn; [|done..].
    exists (l1 ++ l2). rewrite Hr. done.
  - rewrite (bind_ok _ _ _ _ _ Hmntr); unfold sock_monitor_work; rewrite (bind_ok _ _ _ _ _ E). eexists. split; [reflexivity|]. split; cbn; [|done|done|by rewrite Hc].
    exists (l1 ++ k1 ++ k2). split; [done|]. split; [done|]. split_and!; [done..|]. exists (l1 ++ k1), k2. by rewrite <- app_assoc.
Qed.

Lemma sk_steps fd s a e : sk_rep fd s a -> sk_legal s e -> exists s', sk_exec e s = Ok s' /\ sk_rep fd s' (spec_step fd e a).
Proof.
  intros Hr He. destruct e.
  - by apply task_steps.
  - by apply select_steps.
  - by apply work_steps.
  - by apply add_steps.
  - by apply del_steps.
  - by apply disable_steps.
Qed.

Lemma sk_reach_rep fd es s : fd <> -1 -> sk_reach fd es s -> sk_rep fd s (spec_run fd es).
Proof.
  intros Hfd. unfold spec_run. induction 1 as [|es s e s' _ IH He E].
  - unfold sk_start, sock_monitor_init. rewrite (proj2 (Z.eqb_neq _ _)) by done. split; cbn; [|done..]. exists []. split; [|done]. split; [|done].
    split; cbn; [done|by rewrite dom_empty_L|constructor..].
  - destruct (sk_steps _ _ _ _ IH He) as (s1 & E1 & Hr). rewrite foldl_app. cbn. congruence.
Qed.

(** a round of the work that nobody disturbs calls every socket that is ready,
    once, in the order of the list *)
Fixpoint ready_calls (a : sk_abs) (l : list watch) : list sk_call :=
  match l with
  | [] => []
  | w :: l => (if w_ready a w =? 0 then [] else [mkCall (w_cb w) (w_sock w) (w_ready a w) (w_priv w)]) ++ ready_calls a l
  end.

Lemma first_ready_calls a l : match first_ready a l with Some (c, todo) => ready_calls a l = c :: ready_calls a todo | None => ready_calls a l = [] end.
Proof. induction l as [|w l IH]; cbn; [done|]. by destruct (w_ready a w =? 0). Qed.

Lemma ready_calls_ext a a' l : a_r a = a_r a' -> a_w a = a_w a' -> a_e a = a_e a' -> ready_calls a l = ready_calls a' l.
Proof. intros E1 E2 E3. induction l as [|w l IH]; cbn; [done|]. unfold w_ready. by rewrite E1, E2, E3, IH. Qed.

Lemma spec_round fd k a l : k = length (ready_calls a l) -> l = match a_phase a with Calling todo => todo | _ => a_list a end ->
  foldl (fun a e => spec_step fd e a) a (repeat SkWork (S k)) = mkAbs (a_list a) Waiting (a_r a) (a_w a) (a_e a) (a_called a ++ ready_calls a l).
Proof.
  revert a l. induction k as [|k IH]; intros a l Hk Hl; cbn [repeat foldl spec_step]; rewrite <- Hl; pose proof (first_ready_calls a l) as Hf;
    destruct (first_ready a l) as [[c todo]|]; rewrite Hf in *; cbn in Hk; try lia.
  - by rewrite app_nil_r.
  - set (a' := mkAbs _ (Calling todo) _ _ _ _). assert (E : ready_calls a' todo = ready_calls a todo) by by apply ready_calls_ext.
    transitivity (foldl (fun a e => spec_step fd e a) a' (repeat SkWork (S k))); [done|]. rewrite (IH a' todo); [|rewrite E; lia|done].
    rewrite E. cbn. by rewrite <- app_assoc.
Qed.

Lemma spec_run_round fd es l : let a := spec_run fd es in l = match a_phase a with Calling todo => todo | _ => a_list a end ->
  spec_run fd (es ++ repeat SkWork (S (length (ready_calls a l)))) =
  mkAbs (a_list a) Waiting (a_r a) (a_w a) (a_e a) (a_called a ++ ready_calls a l).
Proof. cbn zeta. intros Hl. unfold spec_run at 1. rewrite foldl_app. by apply spec_round. Qed.

Lemma sk_reach_round fd k es s l : fd <> -1 -> sk_reach fd es s -> let a := spec_run fd es in
  a_phase a = Queued /\ l = a_list a \/ a_phase a = Calling l -> k = length (ready_calls a l) ->
  exists s', sk_reach fd (es ++ repeat SkWork (S k)) s'.
Proof.
  intros Hfd. revert es s l. induction k as [|k IH]; intros es s l Hr; cbn zeta; intros Hp Hk; pose proof (sk_reach_rep _ _ _ Hfd Hr) as Hrep;
    (assert (He : sk_legal s SkWork) by (destruct (sr_list _ _ _ Hrep) as (l' & _ & _ & Hph);
       destruct Hp as [[E _]|E]; rewrite E in Hph; cbn in Hph |- *; [by destruct Hph as (_ & -> & _)|by destruct Hph as (_ & _ & ? & ? & _ & -> & _)]));
    destruct (sk_steps _ _ _ _ Hrep He) as (s1 & E1 & _); pose proof (sk_reach_step _ _ _ _ _ Hr He E1) as Hr1; [by exists s1|].
  change (repeat SkWork (S (S k))) with ([SkWork] ++ repeat SkWork (S k)). rewrite app_assoc.
  assert (Hl : l = match a_phase (spec_run fd es) with Calling todo => todo | _ => a_list (spec_run fd es) end)
    by (destruct Hp as [[E ->]|E]; by rewrite E).
  pose proof (first_ready_calls (spec_run fd es) l) as Hf.
  destruct (first_ready _ l) as [[c todo]|] eqn:E; rewrite Hf in Hk; [|done].
  assert (Ea : spec_run fd (es ++ [SkWork]) = mkAbs (a_list (spec_run fd es)) (Calling todo) (a_r (spec_run fd es)) (a_w (spec_run fd es))
     (a_e (spec_run fd es)) (a_called (spec_run fd es) ++ [c])).
  { unfold spec_run at 1. rewrite foldl_app. cbn. fold (spec_run fd es). by rewrite <- Hl, E. }
  apply (IH _ s1 todo Hr1); rewrite Ea; [by right|]. cbn in Hk. injection Hk as ->. f_equal. by apply ready_calls_ext.
Qed.

(** the task and the work take turns *)
Lemma phase_turns s l p : phase_rep s l p ->
  run (mon s) + (if decide (tpc s = TSelect) then 1 else 0) + (if decide (wpc s = WIdle) then 0 else 1) = 1.
Proof.
  destruct p; cbn; [intros (-> & -> & ->)..|intros (-> & -> & ? & ? & _ & -> & _)]; done.
Qed.

Lemma phase_goes_on s l p : phase_rep s l p -> sk_legal s SkTask \/ (forall ret, 0 <= ret -> sk_legal s (SkSelect ret ∅ ∅ ∅)) \/ sk_legal s SkWork.
Proof.
  destruct p; cbn.
  - intros (-> & _ & ->). by left.
  - intros (-> & _ & _). right. left. intros ret Hret. split_and!; [done|done|set_solver..].
  - intros (_ & -> & _). by right; right.
  - intros (_ & _ & ? & ? & _ & -> & _). by right; right.
Qed.
