(* ===== verification/State.v ===== *)
(** * The state of the kernel

    The task control block ([core/include/k_task.h]), the kernel objects
    ([k_obj.h], [k_sem.h], [k_mutex.h], [k_queue.h], [k_buf_queue.h],
    [k_event.h]), the run queue ([k_sched.h]) and the globals of
    [core/k_obj.c], with the accessors the routines are written in.

    Tasks and objects are named by numbers: [g_tasks] and [g_objs] hold what
    the pointers [ktask_t*] and [blk_obj_t*] point to, [None] is NULL, and an
    access through a number that is not in the map is [Undef].  An intrusive
    list is the sequence of its members; [KList] shows that the pointer code of
    [k_list.h] implements these sequences. *)

From S2P Require Import Prelude Config RingBuf.

(** [ktask_t] *)
Record ktask := mkTask {
  stack_size : Z;
  suspend_count : Z;  (** [uint8_t] *)
  mutex_list : list nat;  (** the chain [mutex_list], [mutex_list->mutex_list], ...: the mutexes it holds *)
  tick_match : Z;
  tick_remain : Z;
  tick_head : bool;  (** whether [tick_head] is not NULL, that is, the task is in [g_tick_head] *)
  msg : Z;  (** the message pointer a queue hands to the task *)
  msg_buf : list Z;  (** the bytes a buffer queue copied to [*msg] *)
  bq_msg_size : Z;
  task_state : task_stat_t;
  blk_state : blk_state_t;
  blk_obj : option nat;  (** the object it is blocked on *)
  task_sem_obj : option nat;
  time_slice : Z;
  time_total : Z;
  pend_flags : Z;
  pend_info : Z;  (** the word [*pend_info] *)
  pend_option : Z;
  sched_policy : Z;
  prio : Z;
  b_prio : Z;
  mm_alloc_flag : Z;
  runtime : Z
}.

(** what follows the [blk_obj_t] in each kind of object *)
Inductive kbody :=
  | KSem (count peak_count : Z)
  | KMutex (mutex_task : option nat) (owner_nested : Z)
  | KQueue (ringbuf : k_ringbuf_t) (size cur_num peak_num : Z)
  | KBufQueue (ringbuf : k_ringbuf_t) (max_msg_size cur_num peak_num min_free_buf_size : Z)
  | KEvent (flags : Z).

(** [blk_obj_t] and the object around it *)
Record kobj := mkObj {
  blk_list : list nat;  (** the tasks blocked on it, first to be woken first *)
  blk_policy : blk_policy_t;
  obj_type : kobj_type_t;
  o_mm_alloc_flag : Z;
  body : kbody
}.

(** [runqueue_t]: [cur_list_item !! p] is the ring of the ready tasks of
    priority [p] read from [cur_list_item[p]], absent when it is NULL *)
Record runqueue_t := mkRq {
  cur_list_item : gmap Z (list nat);
  task_bit_map : list Z;
  highest_pri : Z
}.

(** [((kmutex_t * )ob)->mutex_task] *)
Definition mutex_owner (ob : kobj) : option nat :=
  match body ob with KMutex mt _ => mt | _ => None end.

(** [kobj_list_t] *)
Record kobj_list_t := mkKobjList {
  task_head : list nat;
  mutex_head : list nat;
  sem_head : list nat;
  queue_head : list nat;
  event_head : list nat;
  buf_queue_head : list nat
}.

(** the globals; [cpu_cur_get()] is 0 *)
Record kstate := mkK {
  g_tasks : gmap nat ktask;
  g_objs : gmap nat kobj;
  g_ready_queue : runqueue_t;
  g_tick_head : list nat;
  g_tick_count : Z;
  g_active_task : nat;
  g_preferred_ready_task : nat;
  g_sched_lock : Z;
  g_intrpt_nested_level : Z;
  g_sys_stat : kstat_t;
  g_idle_task_spawned : Z;
  g_kobj_list : kobj_list_t;
  g_res_list : list nat  (** the task blocks waiting to be freed *)
}.

(** ** Assignments *)

Definition set_stack_size (v : Z) (r : ktask) : ktask :=
  mkTask v (suspend_count r) (mutex_list r) (tick_match r) (tick_remain r) (tick_head r) (msg r)
   (msg_buf r) (bq_msg_size r) (task_state r) (blk_state r) (blk_obj r) (task_sem_obj r)
   (time_slice r) (time_total r) (pend_flags r) (pend_info r) (pend_option r) (sched_policy r)
   (prio r) (b_prio r) (mm_alloc_flag r) (runtime r).
Definition set_suspend_count (v : Z) (r : ktask) : ktask :=
  mkTask (stack_size r) v (mutex_list r) (tick_match r) (tick_remain r) (tick_head r) (msg r)
   (msg_buf r) (bq_msg_size r) (task_state r) (blk_state r) (blk_obj r) (task_sem_obj r)
   (time_slice r) (time_total r) (pend_flags r) (pend_info r) (pend_option r) (sched_policy r)
   (prio r) (b_prio r) (mm_alloc_flag r) (runtime r).
Definition set_mutex_list (v : list nat) (r : ktask) : ktask :=
  mkTask (stack_size r) (suspend_count r) v (tick_match r) (tick_remain r) (tick_head r) (msg r)
   (msg_buf r) (bq_msg_size r) (task_state r) (blk_state r) (blk_obj r) (task_sem_obj r)
   (time_slice r) (time_total r) (pend_flags r) (pend_info r) (pend_option r) (sched_policy r)
   (prio r) (b_prio r) (mm_alloc_flag r) (runtime r).
Definition set_tick_match (v : Z) (r : ktask) : ktask :=
  mkTask (stack_size r) (suspend_count r) (mutex_list r) v (tick_remain r) (tick_head r) (msg r)
   (msg_buf r) (bq_msg_size r) (task_state r) (blk_state r) (blk_obj r) (task_sem_obj r)
   (time_slice r) (time_total r) (pend_flags r) (pend_info r) (pend_option r) (sched_policy r)
   (prio r) (b_prio r) (mm_alloc_flag r) (runtime r).
Definition set_tick_remain (v : Z) (r : ktask) : ktask :=
  mkTask (stack_size r) (suspend_count r) (mutex_list r) (tick_match r) v (tick_head r) (msg r)
   (msg_buf r) (bq_msg_size r) (task_state r) (blk_state r) (blk_obj r) (task_sem_obj r)
   (time_slice r) (time_total r) (pend_flags r) (pend_info r) (pend_option r) (sched_policy r)
   (prio r) (b_prio r) (mm_alloc_flag r) (runtime r).
Definition set_tick_head (v : bool) (r : ktask) : ktask :=
  mkTask (stack_size r) (suspend_count r) (mutex_list r) (tick_match r) (tick_remain r) v (msg r)
   (msg_buf r) (bq_msg_size r) (task_state r) (blk_state r) (blk_obj r) (task_sem_obj r)
   (time_slice r) (time_total r) (pend_flags r) (pend_info r) (pend_option r) (sched_policy r)
   (prio r) (b_prio r) (mm_alloc_flag r) (runtime r).
Definition set_msg (v : Z) (r : ktask) : ktask :=
  mkTask (stack_size r) (suspend_count r) (mutex_list r) (tick_match r) (tick_remain r)
   (tick_head r) v (msg_buf r) (bq_msg_size r) (task_state r) (blk_state r) (blk_obj r)
   (task_sem_obj r) (time_slice r) (time_total r) (pend_flags r) (pend_info r) (pend_option r)
   (sched_policy r) (prio r) (b_prio r) (mm_alloc_flag r) (runtime r).
Definition set_msg_buf (v : list Z) (r : ktask) : ktask :=
  mkTask (stack_size r) (suspend_count r) (mutex_list r) (tick_match r) (tick_remain r)
   (tick_head r) (msg r) v (bq_msg_size r) (task_state r) (blk_state r) (blk_obj r) (task_sem_obj
   r) (time_slice r) (time_total r) (pend_flags r) (pend_info r) (pend_option r) (sched_policy r)
   (prio r) (b_prio r) (mm_alloc_flag r) (runtime r).
Definition set_bq_msg_size (v : Z) (r : ktask) : ktask :=
  mkTask (stack_size r) (suspend_count r) (mutex_list r) (tick_match r) (tick_remain r)
   (tick_head r) (msg r) (msg_buf r) v (task_state r) (blk_state r) (blk_obj r) (task_sem_obj r)
   (time_slice r) (time_total r) (pend_flags r) (pend_info r) (pend_option r) (sched_policy r)
   (prio r) (b_prio r) (mm_alloc_flag r) (runtime r).
Definition set_task_state (v : task_stat_t) (r : ktask) : ktask :=
  mkTask (stack_size r) (suspend_count r) (mutex_list r) (tick_match r) (tick_remain r)
   (tick_head r) (msg r) (msg_buf r) (bq_msg_size r) v (blk_state r) (blk_obj r) (task_sem_obj r)
   (time_slice r) (time_total r) (pend_flags r) (pend_info r) (pend_option r) (sched_policy r)
   (prio r) (b_prio r) (mm_alloc_flag r) (runtime r).
Definition set_blk_state (v : blk_state_t) (r : ktask) : ktask :=
  mkTask (stack_size r) (suspend_count r) (mutex_list r) (tick_match r) (tick_remain r)
   (tick_head r) (msg r) (msg_buf r) (bq_msg_size r) (task_state r) v (blk_obj r) (task_sem_obj
   r) (time_slice r) (time_total r) (pend_flags r) (pend_info r) (pend_option r) (sched_policy r)
   (prio r) (b_prio r) (mm_alloc_flag r) (runtime r).
Definition set_blk_obj (v : option nat) (r : ktask) : ktask :=
  mkTask (stack_size r) (suspend_count r) (mutex_list r) (tick_match r) (tick_remain r)
   (tick_head r) (msg r) (msg_buf r) (bq_msg_size r) (task_state r) (blk_state r) v (task_sem_obj
   r) (time_slice r) (time_total r) (pend_flags r) (pend_info r) (pend_option r) (sched_policy r)
   (prio r) (b_prio r) (mm_alloc_flag r) (runtime r).
Definition set_task_sem_obj (v : option nat) (r : ktask) : ktask :=
  mkTask (stack_size r) (suspend_count r) (mutex_list r) (tick_match r) (tick_remain r)
   (tick_head r) (msg r) (msg_buf r) (bq_msg_size r) (task_state r) (blk_state r) (blk_obj r) v
   (time_slice r) (time_total r) (pend_flags r) (pend_info r) (pend_option r) (sched_policy r)
   (prio r) (b_prio r) (mm_alloc_flag r) (runtime r).
Definition set_time_slice (v : Z) (r : ktask) : ktask :=
  mkTask (stack_size r) (suspend_count r) (mutex_list r) (tick_match r) (tick_remain r)
   (tick_head r) (msg r) (msg_buf r) (bq_msg_size r) (task_state r) (blk_state r) (blk_obj r)
   (task_sem_obj r) v (time_total r) (pend_flags r) (pend_info r) (pend_option r) (sched_policy
   r) (prio r) (b_prio r) (mm_alloc_flag r) (runtime r).
Definition set_time_total (v : Z) (r : ktask) : ktask :=
  mkTask (stack_size r) (suspend_count r) (mutex_list r) (tick_match r) (tick_remain r)
   (tick_head r) (msg r) (msg_buf r) (bq_msg_size r) (task_state r) (blk_state r) (blk_obj r)
   (task_sem_obj r) (time_slice r) v (pend_flags r) (pend_info r) (pend_option r) (sched_policy
   r) (prio r) (b_prio r) (mm_alloc_flag r) (runtime r).
Definition set_pend_flags (v : Z) (r : ktask) : ktask :=
  mkTask (stack_size r) (suspend_count r) (mutex_list r) (tick_match r) (tick_remain r)
   (tick_head r) (msg r) (msg_buf r) (bq_msg_size r) (task_state r) (blk_state r) (blk_obj r)
   (task_sem_obj r) (time_slice r) (time_total r) v (pend_info r) (pend_option r) (sched_policy
   r) (prio r) (b_prio r) (mm_alloc_flag r) (runtime r).
Definition set_pend_info (v : Z) (r : ktask) : ktask :=
  mkTask (stack_size r) (suspend_count r) (mutex_list r) (tick_match r) (tick_remain r)
   (tick_head r) (msg r) (msg_buf r) (bq_msg_size r) (task_state r) (blk_state r) (blk_obj r)
   (task_sem_obj r) (time_slice r) (time_total r) (pend_flags r) v (pend_option r) (sched_policy
   r) (prio r) (b_prio r) (mm_alloc_flag r) (runtime r).
Definition set_pend_option (v : Z) (r : ktask) : ktask :=
  mkTask (stack_size r) (suspend_count r) (mutex_list r) (tick_match r) (tick_remain r)
   (tick_head r) (msg r) (msg_buf r) (bq_msg_size r) (task_state r) (blk_state r) (blk_obj r)
   (task_sem_obj r) (time_slice r) (time_total r) (pend_flags r) (pend_info r) v (sched_policy r)
   (prio r) (b_prio r) (mm_alloc_flag r) (runtime r).
Definition set_sched_policy (v : Z) (r : ktask) : ktask :=
  mkTask (stack_size r) (suspend_count r) (mutex_list r) (tick_match r) (tick_remain r)
   (tick_head r) (msg r) (msg_buf r) (bq_msg_size r) (task_state r) (blk_state r) (blk_obj r)
   (task_sem_obj r) (time_slice r) (time_total r) (pend_flags r) (pend_info r) (pend_option r) v
   (prio r) (b_prio r) (mm_alloc_flag r) (runtime r).
Definition set_prio (v : Z) (r : ktask) : ktask :=
  mkTask (stack_size r) (suspend_count r) (mutex_list r) (tick_match r) (tick_remain r)
   (tick_head r) (msg r) (msg_buf r) (bq_msg_size r) (task_state r) (blk_state r) (blk_obj r)
   (task_sem_obj r) (time_slice r) (time_total r) (pend_flags r) (pend_info r) (pend_option r)
   (sched_policy r) v (b_prio r) (mm_alloc_flag r) (runtime r).
Definition set_b_prio (v : Z) (r : ktask) : ktask :=
  mkTask (stack_size r) (suspend_count r) (mutex_list r) (tick_match r) (tick_remain r)
   (tick_head r) (msg r) (msg_buf r) (bq_msg_size r) (task_state r) (blk_state r) (blk_obj r)
   (task_sem_obj r) (time_slice r) (time_total r) (pend_flags r) (pend_info r) (pend_option r)
   (sched_policy r) (prio r) v (mm_alloc_flag r) (runtime r).
Definition set_mm_alloc_flag (v : Z) (r : ktask) : ktask :=
  mkTask (stack_size r) (suspend_count r) (mutex_list r) (tick_match r) (tick_remain r)
   (tick_head r) (msg r) (msg_buf r) (bq_msg_size r) (task_state r) (blk_state r) (blk_obj r)
   (task_sem_obj r) (time_slice r) (time_total r) (pend_flags r) (pend_info r) (pend_option r)
   (sched_policy r) (prio r) (b_prio r) v (runtime r).
Definition set_runtime (v : Z) (r : ktask) : ktask :=
  mkTask (stack_size r) (suspend_count r) (mutex_list r) (tick_match r) (tick_remain r)
   (tick_head r) (msg r) (msg_buf r) (bq_msg_size r) (task_state r) (blk_state r) (blk_obj r)
   (task_sem_obj r) (time_slice r) (time_total r) (pend_flags r) (pend_info r) (pend_option r)
   (sched_policy r) (prio r) (b_prio r) (mm_alloc_flag r) v.

Definition set_blk_list (v : list nat) (r : kobj) : kobj :=
  mkObj v (blk_policy r) (obj_type r) (o_mm_alloc_flag r) (body r).
Definition set_blk_policy (v : blk_policy_t) (r : kobj) : kobj :=
  mkObj (blk_list r) v (obj_type r) (o_mm_alloc_flag r) (body r).
Definition set_obj_type (v : kobj_type_t) (r : kobj) : kobj :=
  mkObj (blk_list r) (blk_policy r) v (o_mm_alloc_flag r) (body r).
Definition set_o_mm_alloc_flag (v : Z) (r : kobj) : kobj :=
  mkObj (blk_list r) (blk_policy r) (obj_type r) v (body r).
Definition set_body (v : kbody) (r : kobj) : kobj :=
  mkObj (blk_list r) (blk_policy r) (obj_type r) (o_mm_alloc_flag r) v.

Definition set_task_head (v : list nat) (r : kobj_list_t) : kobj_list_t :=
  mkKobjList v (mutex_head r) (sem_head r) (queue_head r) (event_head r) (buf_queue_head r).
Definition set_mutex_head (v : list nat) (r : kobj_list_t) : kobj_list_t :=
  mkKobjList (task_head r) v (sem_head r) (queue_head r) (event_head r) (buf_queue_head r).
Definition set_sem_head (v : list nat) (r : kobj_list_t) : kobj_list_t :=
  mkKobjList (task_head r) (mutex_head r) v (queue_head r) (event_head r) (buf_queue_head r).
Definition set_queue_head (v : list nat) (r : kobj_list_t) : kobj_list_t :=
  mkKobjList (task_head r) (mutex_head r) (sem_head r) v (event_head r) (buf_queue_head r).
Definition set_event_head (v : list nat) (r : kobj_list_t) : kobj_list_t :=
  mkKobjList (task_head r) (mutex_head r) (sem_head r) (queue_head r) v (buf_queue_head r).
Definition set_buf_queue_head (v : list nat) (r : kobj_list_t) : kobj_list_t :=
  mkKobjList (task_head r) (mutex_head r) (sem_head r) (queue_head r) (event_head r) v.

Definition set_g_tasks (v : gmap nat ktask) (r : kstate) : kstate :=
  mkK v (g_objs r) (g_ready_queue r) (g_tick_head r) (g_tick_count r) (g_active_task r)
   (g_preferred_ready_task r) (g_sched_lock r) (g_intrpt_nested_level r) (g_sys_stat r)
   (g_idle_task_spawned r) (g_kobj_list r) (g_res_list r).
Definition set_g_objs (v : gmap nat kobj) (r : kstate) : kstate :=
  mkK (g_tasks r) v (g_ready_queue r) (g_tick_head r) (g_tick_count r) (g_active_task r)
   (g_preferred_ready_task r) (g_sched_lock r) (g_intrpt_nested_level r) (g_sys_stat r)
   (g_idle_task_spawned r) (g_kobj_list r) (g_res_list r).
Definition set_g_ready_queue (v : runqueue_t) (r : kstate) : kstate :=
  mkK (g_tasks r) (g_objs r) v (g_tick_head r) (g_tick_count r) (g_active_task r)
   (g_preferred_ready_task r) (g_sched_lock r) (g_intrpt_nested_level r) (g_sys_stat r)
   (g_idle_task_spawned r) (g_kobj_list r) (g_res_list r).
Definition set_g_tick_head (v : list nat) (r : kstate) : kstate :=
  mkK (g_tasks r) (g_objs r) (g_ready_queue r) v (g_tick_count r) (g_active_task r)
   (g_preferred_ready_task r) (g_sched_lock r) (g_intrpt_nested_level r) (g_sys_stat r)
   (g_idle_task_spawned r) (g_kobj_list r) (g_res_list r).
Definition set_g_tick_count (v : Z) (r : kstate) : kstate :=
  mkK (g_tasks r) (g_objs r) (g_ready_queue r) (g_tick_head r) v (g_active_task r)
   (g_preferred_ready_task r) (g_sched_lock r) (g_intrpt_nested_level r) (g_sys_stat r)
   (g_idle_task_spawned r) (g_kobj_list r) (g_res_list r).
Definition set_g_active_task (v : nat) (r : kstate) : kstate :=
  mkK (g_tasks r) (g_objs r) (g_ready_queue r) (g_tick_head r) (g_tick_count r) v
   (g_preferred_ready_task r) (g_sched_lock r) (g_intrpt_nested_level r) (g_sys_stat r)
   (g_idle_task_spawned r) (g_kobj_list r) (g_res_list r).
Definition set_g_preferred_ready_task (v : nat) (r : kstate) : kstate :=
  mkK (g_tasks r) (g_objs r) (g_ready_queue r) (g_tick_head r) (g_tick_count r) (g_active_task r)
   v (g_sched_lock r) (g_intrpt_nested_level r) (g_sys_stat r) (g_idle_task_spawned r)
   (g_kobj_list r) (g_res_list r).
Definition set_g_sched_lock (v : Z) (r : kstate) : kstate :=
  mkK (g_tasks r) (g_objs r) (g_ready_queue r) (g_tick_head r) (g_tick_count r) (g_active_task r)
   (g_preferred_ready_task r) v (g_intrpt_nested_level r) (g_sys_stat r) (g_idle_task_spawned r)
   (g_kobj_list r) (g_res_list r).
Definition set_g_intrpt_nested_level (v : Z) (r : kstate) : kstate :=
  mkK (g_tasks r) (g_objs r) (g_ready_queue r) (g_tick_head r) (g_tick_count r) (g_active_task r)
   (g_preferred_ready_task r) (g_sched_lock r) v (g_sys_stat r) (g_idle_task_spawned r)
   (g_kobj_list r) (g_res_list r).
Definition set_g_sys_stat (v : kstat_t) (r : kstate) : kstate :=
  mkK (g_tasks r) (g_objs r) (g_ready_queue r) (g_tick_head r) (g_tick_count r) (g_active_task r)
   (g_preferred_ready_task r) (g_sched_lock r) (g_intrpt_nested_level r) v (g_idle_task_spawned
   r) (g_kobj_list r) (g_res_list r).
Definition set_g_idle_task_spawned (v : Z) (r : kstate) : kstate :=
  mkK (g_tasks r) (g_objs r) (g_ready_queue r) (g_tick_head r) (g_tick_count r) (g_active_task r)
   (g_preferred_ready_task r) (g_sched_lock r) (g_intrpt_nested_level r) (g_sys_stat r) v
   (g_kobj_list r) (g_res_list r).
Definition set_g_kobj_list (v : kobj_list_t) (r : kstate) : kstate :=
  mkK (g_tasks r) (g_objs r) (g_ready_queue r) (g_tick_head r) (g_tick_count r) (g_active_task r)
   (g_preferred_ready_task r) (g_sched_lock r) (g_intrpt_nested_level r) (g_sys_stat r)
   (g_idle_task_spawned r) v (g_res_list r).
Definition set_g_res_list (v : list nat) (r : kstate) : kstate :=
  mkK (g_tasks r) (g_objs r) (g_ready_queue r) (g_tick_head r) (g_tick_count r) (g_active_task r)
   (g_preferred_ready_task r) (g_sched_lock r) (g_intrpt_nested_level r) (g_sys_stat r)
   (g_idle_task_spawned r) (g_kobj_list r) v.

(** a task after [memset(task, 0, sizeof(ktask_t))] *)
Definition zero_task : ktask :=
  mkTask 0 0 [] 0 0 false 0 [] 0 K_SEED BLK_FINISH None None 0 0 0 0 0 0 0 0 0 0.

(** ** Kernel routines *)

Abbreviation K := (M kstat_t kstate).

Definition k_err_proc {A} (err : kstat_t) : K A := stop err.

Definition get_task (t : nat) : K ktask := s ← gets g_tasks; lift (s !! t).
Definition upd_task (t : nat) (f : ktask -> ktask) : K unit :=
  tk ← get_task t; modify (fun s => set_g_tasks (<[t := f tk]> (g_tasks s)) s).

Definition get_obj (o : nat) : K kobj := s ← gets g_objs; lift (s !! o).
Definition upd_obj (o : nat) (f : kobj -> kobj) : K unit :=
  ob ← get_obj o; modify (fun s => set_g_objs (<[o := f ob]> (g_objs s)) s).

Definition krhino_cur_task_get : K nat := gets g_active_task.

(** the static objects of the kernel *)
Definition g_idle_task : nat := 0.
Definition g_dyn_task : nat := 1.
Definition g_timer_task : nat := 2.
Definition g_res_sem : nat := 0.
Definition g_timer_queue : nat := 1.

(** what a kernel call does for its caller: it returns a status, or the caller
    is blocked and the status is read from [blk_state] when it runs again *)
Inductive kret := Ret (stat : kstat_t) | Blocked.

#[export] Instance kret_eq_dec : EqDecision kret.
Proof. solve_decision. Defined.

(** the result types of the kernel calls: a status, or a status and the value
    stored through a pointer argument *)
Class HasStat (A : Type) := ret_stat : kstat_t -> A.
#[export] Instance kret_HasStat : HasStat kret := Ret.
#[export] Instance out_HasStat B : HasStat (kret * option B) := fun st => (Ret st, None).

(** [return st;] *)
Definition ret {A} `{!HasStat A} (st : kstat_t) : K A := mret (ret_stat st).

Section checks.
Context {A : Type} `{!HasStat A}.

(** [NULL_PARA_CHK(para)] *)
Definition NULL_PARA_CHK {P} (para : option P) (k : P -> K A) : K A :=
  match para with None => ret RHINO_NULL_PTR | Some p => k p end.

(** [INTRPT_NESTED_LEVEL_CHK()] *)
Definition INTRPT_NESTED_LEVEL_CHK (k : K A) : K A :=
  n ← gets g_intrpt_nested_level;
  if 0 <? n then ret RHINO_NOT_CALLED_BY_INTRPT else k.

(** [if (o->blk_obj.obj_type != ty) return RHINO_KOBJ_TYPE_ERR;] *)
Definition OBJ_TYPE_CHK (o : nat) (ty : kobj_type_t) (k : kobj -> K A) : K A :=
  ob ← get_obj o;
  if bool_decide (obj_type ob = ty) then k ob else ret RHINO_KOBJ_TYPE_ERR.

(** [if (o->mm_alloc_flag != flag) return RHINO_KOBJ_DEL_ERR;] *)
Definition ALLOC_FLAG_CHK (ob : kobj) (flag : Z) (k : K A) : K A :=
  if o_mm_alloc_flag ob =? flag then k else ret RHINO_KOBJ_DEL_ERR.

(** [if (g_sched_lock > 0) return RHINO_SCHED_DISABLE;] *)
Definition SCHED_LOCK_CHK (k : K A) : K A :=
  lock ← gets g_sched_lock;
  if 0 <? lock then ret RHINO_SCHED_DISABLE else k.
End checks.

Definition upd_kobj_list (f : kobj_list_t -> kobj_list_t) : K unit :=
  modify (fun s => set_g_kobj_list (f (g_kobj_list s)) s).

(** a new object in the memory at [o] *)
Definition new_obj (o : nat) (ob : kobj) : K unit :=
  modify (fun s => set_g_objs (<[o := ob]> (g_objs s)) s).

(** [krhino_mm_free] of an object *)
Definition free_obj (o : nat) : K unit :=
  modify (fun s => set_g_objs (delete o (g_objs s)) s).

(** [krhino_x_dyn_create], behind the check of the caller's pointer: [alloc] is what [krhino_mm_alloc] returned, [create]
    the static creation; the second component is what is stored through the
    caller's pointer, [None] when nothing is *)
Definition dyn_create (alloc : option nat) (create : nat -> K kret) : K (kret * option nat) :=
  match alloc with
  | None => mret (Ret RHINO_NO_MEM, None)
  | Some o =>
      r ← create o;
      match r with
      | Ret RHINO_SUCCESS => mret (r, Some o)
      | _ => free_obj o;; mret (r, None)
      end
  end.

(** ** Symbolic execution

    The state is kept in the form [kput T objs rq th s]: the tasks, objects, run
    queue and tick list as they are now, the other globals those of [s]. *)

Definition kput (T : gmap nat ktask) (objs : gmap nat kobj) (rq : runqueue_t) (th : list nat)
    (s : kstate) : kstate :=
  mkK T objs rq th (g_tick_count s) (g_active_task s) (g_preferred_ready_task s) (g_sched_lock s)
    (g_intrpt_nested_level s) (g_sys_stat s) (g_idle_task_spawned s) (g_kobj_list s) (g_res_list s).

Lemma kput_eta s : kput (g_tasks s) (g_objs s) (g_ready_queue s) (g_tick_head s) s = s.
Proof. by destruct s. Qed.

Lemma wp_kput {A} (m : K A) Q s :
  wp m Q (kput (g_tasks s) (g_objs s) (g_ready_queue s) (g_tick_head s) s) -> wp m Q s.
Proof. by rewrite kput_eta. Qed.

Section kput.
Context (T : gmap nat ktask) (objs : gmap nat kobj) (rq : runqueue_t) (th : list nat) (s : kstate).
Abbreviation st := (kput T objs rq th s).

Lemma wp_get_task t tk (Q : ktask -> kstate -> Prop) :
  T !! t = Some tk -> Q tk st -> wp (get_task t) Q st.
Proof. intros Ht HQ. unfold get_task, wp, mbind, M_bind, gets, lift. cbn. by rewrite Ht. Qed.

Lemma wp_upd_task t f tk (Q : unit -> kstate -> Prop) :
  T !! t = Some tk -> Q tt (kput (<[t := f tk]> T) objs rq th s) -> wp (upd_task t f) Q st.
Proof. intros Ht HQ. apply wp_bind. by eapply wp_get_task. Qed.

Lemma wp_get_obj o ob (Q : kobj -> kstate -> Prop) :
  objs !! o = Some ob -> Q ob st -> wp (get_obj o) Q st.
Proof. intros Ho HQ. unfold get_obj, wp, mbind, M_bind, gets, lift. cbn. by rewrite Ho. Qed.

Lemma wp_upd_obj o f ob (Q : unit -> kstate -> Prop) :
  objs !! o = Some ob -> Q tt (kput T (<[o := f ob]> objs) rq th s) -> wp (upd_obj o f) Q st.
Proof. intros Ho HQ. apply wp_bind. by eapply wp_get_obj. Qed.

Lemma wp_new_obj o ob (Q : unit -> kstate -> Prop) :
  Q tt (kput T (<[o := ob]> objs) rq th s) -> wp (new_obj o ob) Q st.
Proof. done. Qed.

Lemma wp_free_obj o (Q : unit -> kstate -> Prop) :
  Q tt (kput T (delete o objs) rq th s) -> wp (free_obj o) Q st.
Proof. done. Qed.

Lemma wp_gets_tasks (Q : _ -> kstate -> Prop) : Q T st -> wp (gets g_tasks : K _) Q st.
Proof. done. Qed.
Lemma wp_gets_objs (Q : _ -> kstate -> Prop) : Q objs st -> wp (gets g_objs : K _) Q st.
Proof. done. Qed.
Lemma wp_gets_rq (Q : _ -> kstate -> Prop) : Q rq st -> wp (gets g_ready_queue : K _) Q st.
Proof. done. Qed.
Lemma wp_gets_th (Q : _ -> kstate -> Prop) : Q th st -> wp (gets g_tick_head : K _) Q st.
Proof. done. Qed.
Lemma wp_gets_other {A} (f : kstate -> A) (Q : A -> kstate -> Prop) :
  f st = f s -> Q (f s) st -> wp (gets f : K _) Q st.
Proof. intros <-. done. Qed.

Lemma wp_set_tasks T' (Q : unit -> kstate -> Prop) :
  Q tt (kput T' objs rq th s) -> wp (modify (set_g_tasks T') : K _) Q st.
Proof. done. Qed.
Lemma wp_ins_task t tk (Q : unit -> kstate -> Prop) :
  Q tt (kput (<[t := tk]> T) objs rq th s) ->
  wp (modify (fun s => set_g_tasks (<[t := tk]> (g_tasks s)) s) : K _) Q st.
Proof. done. Qed.
Lemma wp_set_objs objs' (Q : unit -> kstate -> Prop) :
  Q tt (kput T objs' rq th s) -> wp (modify (set_g_objs objs') : K _) Q st.
Proof. done. Qed.
Lemma wp_set_rq rq' (Q : unit -> kstate -> Prop) :
  Q tt (kput T objs rq' th s) -> wp (modify (set_g_ready_queue rq') : K _) Q st.
Proof. done. Qed.
Lemma wp_set_th th' (Q : unit -> kstate -> Prop) :
  Q tt (kput T objs rq th' s) -> wp (modify (set_g_tick_head th') : K _) Q st.
Proof. done. Qed.
Lemma wp_set_other f (Q : unit -> kstate -> Prop) :
  f st = kput T objs rq th (f s) -> Q tt (kput T objs rq th (f s)) -> wp (modify f : K _) Q st.
Proof. intros <-. done. Qed.
End kput.

(** looks a task or an object up through the updates made so far *)
Ltac ksolve :=
  first [ eassumption | apply lookup_insert_eq
        | rewrite lookup_insert_ne by congruence; ksolve ].

(** one step of a routine; stops at tests and at calls that have their own
    specification *)
Ltac kstep :=
  lazymatch goal with
  | |- wp (mbind _ _) _ _ => apply wp_bind
  | |- wp (mret _) _ _ => apply wp_ret
  | |- wp (ret _) _ _ => apply wp_ret
  | |- wp (get_task _) _ _ => eapply wp_get_task; [by ksolve|]
  | |- wp (upd_task _ _) _ _ => eapply wp_upd_task; [by ksolve|rewrite ?insert_insert_eq]
  | |- wp (get_obj _) _ _ => eapply wp_get_obj; [by ksolve|]
  | |- wp (upd_obj _ _) _ _ => eapply wp_upd_obj; [by ksolve|rewrite ?insert_insert_eq]
  | |- wp (new_obj _ _) _ _ => apply wp_new_obj
  | |- wp (free_obj _) _ _ => apply wp_free_obj
  | |- wp (gets g_tasks) _ _ => apply wp_gets_tasks
  | |- wp (gets g_objs) _ _ => apply wp_gets_objs
  | |- wp (gets g_ready_queue) _ _ => apply wp_gets_rq
  | |- wp (gets g_tick_head) _ _ => apply wp_gets_th
  | |- wp (gets _) _ _ => apply wp_gets_other; [reflexivity|]
  | |- wp krhino_cur_task_get _ _ => apply wp_gets_other; [reflexivity|]
  | |- wp (modify (set_g_tasks _)) _ _ => apply wp_set_tasks
  | |- wp (modify (set_g_objs _)) _ _ => apply wp_set_objs
  | |- wp (modify (set_g_ready_queue _)) _ _ => apply wp_set_rq
  | |- wp (modify (set_g_tick_head _)) _ _ => apply wp_set_th
  | |- wp (modify _) _ _ => apply wp_set_other; [reflexivity|]
  | |- wp (upd_kobj_list _) _ _ => apply wp_set_other; [reflexivity|]
  | |- wp (lift (Some _)) _ _ => apply wp_ret
  end; cbv beta.
