(* ===== verification/Sched.v ===== *)
(** * The run queue and the scheduler ([core/k_sched.c], one-CPU build)

    The run queue keeps a ring of ready tasks per priority, a bitmap of the
    non-empty rings and the highest ready priority.  [rq_ok R rq] says that it
    represents the function [R] giving the priority at which each task is
    ready; every operation refines an update of [R]. *)

From S2P Require Import Prelude Config Bitmap State.

(** ** The code *)

(** an index into [cur_list_item] *)
Definition rq_index (p : Z) : bool := (0 <=? p) && (p <? RHINO_CONFIG_PRI_MAX).

(** the ring read from [cur_list_item[p]], [[]] for NULL *)
Definition ring (rq : runqueue_t) (p : Z) : list nat := default [] (cur_list_item rq !! p).

(** [rq->task_bit_map] starts zeroed with the other globals *)
Definition runqueue_init : runqueue_t := mkRq ∅ [0; 0] RHINO_CONFIG_PRI_MAX.

Definition ready_list_init (rq : runqueue_t) (t : nat) (p : Z) : option runqueue_t :=
  bm ← krhino_bitmap_set (task_bit_map rq) p;
  Some (mkRq (<[p := [t]]> (cur_list_item rq)) bm (if p <? highest_pri rq then p else highest_pri rq)).

Definition is_ready_list_empty (rq : runqueue_t) (p : Z) : bool := bool_decide (ring rq p = []).

Definition rq_add_tail (rq : runqueue_t) (t : nat) (p : Z) : option runqueue_t :=
  if negb (rq_index p) then None
  else if is_ready_list_empty rq p then ready_list_init rq t p
  else Some (mkRq (<[p := ring rq p ++ [t]]> (cur_list_item rq)) (task_bit_map rq) (highest_pri rq)).

Definition rq_add_head (rq : runqueue_t) (t : nat) (p : Z) : option runqueue_t :=
  if negb (rq_index p) then None
  else if is_ready_list_empty rq p then ready_list_init rq t p
  else Some (mkRq (<[p := t :: ring rq p]> (cur_list_item rq)) (task_bit_map rq) (highest_pri rq)).

Definition rq_rm (rq : runqueue_t) (t : nat) (p : Z) : option runqueue_t :=
  match ring rq p with
  | [] => None
  | [_] =>
      (* only one item, just set cur item ptr to NULL *)
      bm ← krhino_bitmap_clear (task_bit_map rq) p;
      let rq := mkRq (delete p (cur_list_item rq)) bm (highest_pri rq) in
      if negb (p =? highest_pri rq) then Some rq
      else i ← krhino_find_first_bit bm; Some (mkRq (cur_list_item rq) bm i)
  | l => if bool_decide (t ∈ l)
         then Some (mkRq (<[p := klist_del t l]> (cur_list_item rq)) (task_bit_map rq) (highest_pri rq))
         else None
  end.

(** [rq->cur_list_item[prio] = rq->cur_list_item[prio]->next] *)
Definition rq_head_to_tail (rq : runqueue_t) (p : Z) : option runqueue_t :=
  match ring rq p with
  | [] => None
  | t :: l => Some (mkRq (<[p := l ++ [t]]> (cur_list_item rq)) (task_bit_map rq) (highest_pri rq))
  end.

(** a run queue routine applied to [g_ready_queue] at the priority of a task *)
Definition on_rq (f : runqueue_t -> nat -> Z -> option runqueue_t) (t : nat) : K unit :=
  tk ← get_task t;
  rq ← gets g_ready_queue;
  rq' ← lift (f rq t (prio tk));
  modify (set_g_ready_queue rq').

Definition ready_list_add_tail : nat -> K unit := on_rq rq_add_tail.
Definition ready_list_add_head : nat -> K unit := on_rq rq_add_head.
Definition ready_list_rm : nat -> K unit := on_rq rq_rm.
Definition ready_list_head_to_tail : nat -> K unit := on_rq (fun rq _ p => rq_head_to_tail rq p).

Definition ready_list_add (t : nat) : K unit :=
  tk ← get_task t;
  a ← gets g_active_task;
  ak ← get_task a;
  if prio tk =? prio ak then ready_list_add_tail t else ready_list_add_head t.

Definition preferred_cpu_ready_task_get : K unit :=
  rq ← gets g_ready_queue;
  match ring rq (highest_pri rq) with
  | [] => undef
  | t :: _ => modify (set_g_preferred_ready_task t)
  end.

(** [cpu_task_switch] and [cpu_intrpt_switch] make the [tspend] exception
    pending; its handler ([arch/csky/ck803/port_s.S]) runs once interrupts are
    enabled again and switches unless the scheduler is locked. *)
Definition tspend_handler : K unit :=
  lock ← gets g_sched_lock;
  if negb (lock =? 0) then mret tt
  else p ← gets g_preferred_ready_task; modify (set_g_active_task p).

Definition core_sched : K unit :=
  nested ← gets g_intrpt_nested_level;
  if 0 <? nested then mret tt else
  lock ← gets g_sched_lock;
  if 0 <? lock then mret tt else
  preferred_cpu_ready_task_get;;
  p ← gets g_preferred_ready_task;
  a ← gets g_active_task;
  if bool_decide (p = a) then mret tt else tspend_handler.

(** [RHINO_CRITICAL_EXIT_SCHED(); return stat;] *)
Definition exit_sched (r : kret) : K kret := core_sched;; mret r.

Definition krhino_sched_disable : K kret :=
  INTRPT_NESTED_LEVEL_CHK (
    lock ← gets g_sched_lock;
    if SCHED_MAX_LOCK_COUNT <=? lock then ret RHINO_SCHED_LOCK_COUNT_OVF
    else modify (set_g_sched_lock (u8 (lock + 1)));; ret RHINO_SUCCESS).

Definition krhino_sched_enable : K kret :=
  INTRPT_NESTED_LEVEL_CHK (
    lock ← gets g_sched_lock;
    if lock =? 0 then ret RHINO_SCHED_ALREADY_ENABLED
    else
      modify (set_g_sched_lock (lock - 1));;
      if 0 <? lock - 1 then ret RHINO_SCHED_DISABLE
      else exit_sched (Ret RHINO_SUCCESS)).

Definition time_slice_update : K unit :=
  a ← gets g_active_task;
  ak ← get_task a;
  rq ← gets g_ready_queue;
  match ring rq (prio ak) with
  | [] => mret tt
  | t :: l =>
      upd_task t (fun tk => set_runtime (u32 (runtime tk + 1)) tk);;
      tk ← get_task t;
      if sched_policy tk =? KSCHED_FIFO then mret tt
      else if bool_decide (l = []) then mret tt
      else
        upd_task t (fun tk => if 0 <? time_slice tk then set_time_slice (time_slice tk - 1) tk else tk);;
        tk ← get_task t;
        if 0 <? time_slice tk then mret tt
        else
          ready_list_head_to_tail t;;
          upd_task t (fun tk => set_time_slice (time_total tk) tk)
  end.

(** ** What the run queue represents *)

Record rq_ok (R : nat -> option Z) (rq : runqueue_t) : Prop := {
  rq_range : forall p l, cur_list_item rq !! p = Some l -> 0 <= p < RHINO_CONFIG_PRI_MAX;
  rq_nodup : forall p, NoDup (ring rq p);
  rq_in : forall p t, t ∈ ring rq p <-> R t = Some p;
  rq_words : words_ok (task_bit_map rq) /\ length (task_bit_map rq) = 2%nat;
  rq_bits : forall p, 0 <= p -> bm_bit (task_bit_map rq) p = bool_decide (ring rq p <> []);
  rq_highest_le : forall t p, R t = Some p -> highest_pri rq <= p;
  rq_highest_in : highest_pri rq = RHINO_CONFIG_PRI_MAX \/ ring rq (highest_pri rq) <> []
}.

Lemma rq_ok_ext R R' rq : R ≐ R' -> rq_ok R rq -> rq_ok R' rq.
Proof.
  intros HR [? ? Hin ? ? Hle ?]. split; try done.
  - intros p t. by rewrite Hin, HR.
  - intros t p. rewrite <- HR. apply Hle.
Qed.

#[export] Instance rq_ok_Proper : Proper (pointwise_relation nat eq ==> eq ==> iff) rq_ok.
Proof. intros R R' HR ? rq ->. split; by apply rq_ok_ext. Qed.

Lemma rq_ok_prio R rq t p : rq_ok R rq -> R t = Some p -> 0 <= p < RHINO_CONFIG_PRI_MAX.
Proof.
  intros H Ht. apply (rq_in _ _ H) in Ht. unfold ring in Ht.
  destruct (cur_list_item rq !! p) as [l|] eqn:E; [by eapply (rq_range _ _ H)|set_solver].
Qed.

Lemma ring_insert rq p q l bm h :
  ring (mkRq (<[p := l]> (cur_list_item rq)) bm h) q = if decide (q = p) then l else ring rq q.
Proof.
  unfold ring. simpl. destruct (decide (q = p)) as [->|]; [by rewrite lookup_insert_eq|].
  by rewrite lookup_insert_ne.
Qed.

Lemma ring_delete rq p q bm h :
  ring (mkRq (delete p (cur_list_item rq)) bm h) q = if decide (q = p) then [] else ring rq q.
Proof.
  unfold ring. simpl. destruct (decide (q = p)) as [->|]; [by rewrite lookup_delete_eq|].
  by rewrite lookup_delete_ne.
Qed.

(** changing one ring that stays non-empty *)
Lemma rq_ok_change R R' rq p l :
  rq_ok R rq -> 0 <= p < RHINO_CONFIG_PRI_MAX -> ring rq p <> [] -> l <> [] -> NoDup l ->
  (forall t, t ∈ l <-> R' t = Some p) -> (forall t q, q <> p -> R' t = Some q <-> R t = Some q) ->
  rq_ok R' (mkRq (<[p := l]> (cur_list_item rq)) (task_bit_map rq) (highest_pri rq)).
Proof.
  intros [Hr Hn Hi Hw Hb Hle Hh] Hp Hne Hl Hnd Hin Ho. split; simpl.
  - intros q l' [[<- _]|[_ Hq]]%lookup_insert_Some; eauto.
  - intros q. rewrite ring_insert. by case_decide.
  - intros q t. rewrite ring_insert. case_decide; subst; [done|]. by rewrite Hi, Ho.
  - done.
  - intros q Hq. rewrite ring_insert, Hb by done. case_decide; subst; [|done].
    by rewrite !bool_decide_true.
  - intros t q Ht. destruct (decide (q = p)) as [->|Hq]; [|by apply (Hle t), Ho].
    destruct (ring rq p) as [|u l'] eqn:E; [done|]. apply (Hle u), Hi. rewrite E. left.
  - rewrite ring_insert. case_decide; [by right|done].
Qed.

Lemma ready_list_init_ok R rq t p :
  rq_ok R rq -> 0 <= p < RHINO_CONFIG_PRI_MAX -> R t = None -> ring rq p = [] ->
  exists rq', ready_list_init rq t p = Some rq' /\ rq_ok (fupd R t (Some p)) rq' /\
    forall q, ring rq' q = if decide (q = p) then [t] else ring rq q.
Proof.
  intros [Hr Hn Hi [Hw Hw2] Hb Hle Hh] Hp Ht He. unfold ready_list_init.
  destruct (krhino_bitmap_set_spec (task_bit_map rq) p) as (bm & -> & Hbw & Hbl & Hbb);
    [done|unfold RHINO_CONFIG_PRI_MAX in *; lia|].
  cbn. eexists; split; [done|]. split; [|intros; apply ring_insert].
  assert (Hnone : forall u, R u <> Some p).
  { intros u Hu. apply Hi in Hu. rewrite He in Hu. by apply elem_of_nil in Hu. }
  split; simpl.
  - intros q l' [[<- _]|[_ Hq]]%lookup_insert_Some; eauto.
  - intros q. rewrite ring_insert. case_decide; [apply NoDup_singleton|done].
  - intros q u. rewrite ring_insert. unfold fupd.
    destruct (decide (q = p)) as [->|]; destruct (decide (u = t)) as [->|]; rewrite ?list_elem_of_singleton.
    + done.
    + split; [done|]. by intros ?%Hnone.
    + rewrite Hi, Ht. naive_solver.
    + apply Hi.
  - by rewrite Hbl.
  - intros q Hq. rewrite ring_insert, Hbb, Hb by done. case_decide; subst.
    + by rewrite bool_decide_true.
    + by rewrite (bool_decide_false (q = p)).
  - intros u q Hu. unfold fupd in Hu. case_decide; simplify_eq.
    + case_match; lia.
    + apply Hle in Hu. destruct (Z.ltb_spec p (highest_pri rq)); lia.
  - rewrite ring_insert. destruct (Z.ltb_spec p (highest_pri rq)); [right; by rewrite decide_True|].
    case_decide; [by right|done].
Qed.

Lemma rq_index_true p : 0 <= p < RHINO_CONFIG_PRI_MAX -> rq_index p = true.
Proof. intros [? ?]. unfold rq_index. rewrite andb_true_iff, Z.leb_le, Z.ltb_lt. done. Qed.

Lemma rq_add_tail_ok R rq t p :
  rq_ok R rq -> 0 <= p < RHINO_CONFIG_PRI_MAX -> R t = None ->
  exists rq', rq_add_tail rq t p = Some rq' /\ rq_ok (fupd R t (Some p)) rq' /\
    forall q, ring rq' q = if decide (q = p) then ring rq p ++ [t] else ring rq q.
Proof.
  intros H Hp Ht. unfold rq_add_tail, is_ready_list_empty. rewrite rq_index_true by done. simpl.
  case_bool_decide as He.
  - rewrite He. by apply ready_list_init_ok.
  - eexists; split; [done|]. split; [|intros; apply ring_insert].
    eapply rq_ok_change; try done.
    + by destruct (ring rq p).
    + apply NoDup_app. split; [apply H|]. split; [|apply NoDup_singleton].
      intros u Hu ->%list_elem_of_singleton. apply (rq_in _ _ H) in Hu. congruence.
    + intros u. rewrite elem_of_app, list_elem_of_singleton, (rq_in _ _ H). unfold fupd.
      case_decide; naive_solver.
    + intros u q Hq. unfold fupd. case_decide; naive_solver.
Qed.

Lemma rq_add_head_ok R rq t p :
  rq_ok R rq -> 0 <= p < RHINO_CONFIG_PRI_MAX -> R t = None ->
  exists rq', rq_add_head rq t p = Some rq' /\ rq_ok (fupd R t (Some p)) rq' /\
    forall q, ring rq' q = if decide (q = p) then t :: ring rq p else ring rq q.
Proof.
  intros H Hp Ht. unfold rq_add_head, is_ready_list_empty. rewrite rq_index_true by done. simpl.
  case_bool_decide as He.
  - rewrite He. by apply ready_list_init_ok.
  - eexists; split; [done|]. split; [|intros; apply ring_insert].
    eapply rq_ok_change; try done.
    + constructor; [|apply H]. intros Hu%(rq_in _ _ H). congruence.
    + intros u. rewrite elem_of_cons, (rq_in _ _ H). unfold fupd. case_decide; naive_solver.
    + intros u q Hq. unfold fupd. case_decide; naive_solver.
Qed.

(** removing a ready task, another one staying ready *)
Lemma rq_rm_ok R rq t p u p' :
  rq_ok R rq -> R t = Some p -> u <> t -> R u = Some p' ->
  exists rq', rq_rm rq t p = Some rq' /\ rq_ok (fupd R t None) rq' /\
    forall q, ring rq' q = if decide (q = p) then klist_del t (ring rq p) else ring rq q.
Proof.
  intros H Ht Hne Hu. pose proof (rq_ok_prio _ _ _ _ H Ht) as Hp.
  pose proof (proj2 (rq_in _ _ H _ _) Ht) as Hin. unfold rq_rm.
  destruct (ring rq p) as [|x [|y l]] eqn:E; [by apply elem_of_nil in Hin| |].
  - apply list_elem_of_singleton in Hin as <-.
    pose proof H as [Hr Hn Hi [Hw Hw2] Hb Hle Hh].
    destruct (krhino_bitmap_clear_spec (task_bit_map rq) p) as (bm & -> & Hbw & Hbl & Hbb);
      [done|unfold RHINO_CONFIG_PRI_MAX in *; lia|]. cbn.
    assert (Hring : forall q h, ring (mkRq (delete p (cur_list_item rq)) bm h) q =
              if decide (q = p) then klist_del t [t] else ring rq q).
    { intros q h. rewrite ring_delete. by rewrite klist_del_head by set_solver. }
    assert (Hsame : forall v q, fupd R t None v = Some q <-> R v = Some q /\ q <> p).
    { intros v q. unfold fupd. case_decide; subst; [naive_solver|]. split; [|naive_solver].
      intros Hv. split; [done|]. intros ->. apply Hi in Hv. rewrite E in Hv. set_solver. }
    assert (Hgoal : forall h, (forall v q, R v = Some q -> q <> p -> h <= q) -> h <> p -> ring rq h <> [] ->
      exists rq', Some (mkRq (delete p (cur_list_item rq)) bm h) = Some rq' /\ rq_ok (fupd R t None) rq' /\
        forall q, ring rq' q = if decide (q = p) then klist_del t [t] else ring rq q).
    { intros h Hh1 Hh2 Hh3. eexists; split; [done|]. split; [|done]. split; simpl.
      - intros q l' [_ Hq]%lookup_delete_Some; eauto.
      - intros q. rewrite Hring. case_decide; [rewrite klist_del_head by set_solver; apply NoDup_nil_2|done].
      - intros q v. rewrite Hring, Hsame. case_decide; [|rewrite Hi; naive_solver].
        rewrite klist_del_head by set_solver. subst. split; [by intros ?%elem_of_nil|naive_solver].
      - by rewrite Hbl.
      - intros q Hq. rewrite Hring, Hbb, Hb by done. case_decide; subst; simpl.
        + rewrite (bool_decide_true (p = p)), klist_del_head by set_solver. done.
        + by rewrite (bool_decide_false (q = p)).
      - intros v q [Hv Hq]%Hsame. by eapply Hh1.
      - right. rewrite Hring. by rewrite decide_False. }
    assert (Hrest : forall v q, R v = Some q -> q <> p -> bm_bit bm q = true).
    { intros v q Hv Hq. pose proof (rq_ok_prio _ _ _ _ H Hv) as Hqr. apply Hi in Hv.
      rewrite Hbb, Hb by lia. rewrite (bool_decide_false (q = p)) by done.
      rewrite bool_decide_true; [done|]. intros Hnil. rewrite Hnil in Hv. by apply elem_of_nil in Hv. }
    assert (Hu' : p' <> p).
    { intros ->. apply Hi in Hu. rewrite E in Hu. by apply list_elem_of_singleton in Hu. }
    assert (Hring0 : highest_pri rq <> RHINO_CONFIG_PRI_MAX) by (apply Hle in Ht; lia).
    destruct (Z.eqb_spec p (highest_pri rq)) as [Hph|Hph]; simpl.
    + pose proof (rq_ok_prio _ _ _ _ H Hu) as Hp'.
      destruct (krhino_find_first_bit_spec bm p') as (k & -> & Hk & Hkb & Hkl);
        [done|lia|by eapply Hrest|].
      rewrite Hbb, Hb in Hkb by lia. apply andb_true_iff in Hkb as [Hk1 Hk2%bool_decide_eq_true].
      apply Hgoal; [|by apply negb_true_iff, bool_decide_eq_false in Hk1|done].
      intros v q Hv Hq. destruct (Z.lt_ge_cases q k) as [Hlt|]; [|done].
      pose proof (rq_ok_prio _ _ _ _ H Hv) as Hqr.
      specialize (Hrest _ _ Hv Hq). rewrite Hkl in Hrest by lia. done.
    + apply Hgoal; [|done|by destruct Hh]. intros v q Hv _. by eapply Hle.
  - rewrite bool_decide_true by done. eexists; split; [done|]. split; [|intros; apply ring_insert].
    pose proof (rq_nodup _ _ H p) as Hnd. rewrite E in Hnd.
    eapply rq_ok_change; try done; rewrite ?E; try done.
    + intros Hd. apply (f_equal length) in Hd. pose proof (klist_del_length t _ Hnd Hin). simpl in *. lia.
    + by apply klist_del_NoDup.
    + intros v. rewrite elem_of_klist_del, <- E, (rq_in _ _ H). unfold fupd. case_decide; naive_solver.
    + intros v q Hq. unfold fupd. case_decide; naive_solver.
Qed.

(** ** The routines on the kernel state *)

Section routines.
Context (T : gmap nat ktask) (objs : gmap nat kobj) (rq : runqueue_t) (th : list nat) (s : kstate).
Context (R : nat -> option Z) (Hrq : rq_ok R rq).
Abbreviation st := (kput T objs rq th s).

Lemma wp_ready_list_rm t tk u p (Q : unit -> kstate -> Prop) :
  T !! t = Some tk -> R t = Some (prio tk) -> u <> t -> R u = Some p ->
  (forall rq', rq_ok (fupd R t None) rq' -> Q tt (kput T objs rq' th s)) ->
  wp (ready_list_rm t) Q st.
Proof.
  intros Ht HR Hne Hu HQ. unfold ready_list_rm, on_rq. do 4 kstep.
  destruct (rq_rm_ok _ _ _ _ _ _ Hrq HR Hne Hu) as (rq' & -> & Hrq' & _). do 3 kstep. auto.
Qed.

Lemma wp_ready_list_add_tail t tk (Q : unit -> kstate -> Prop) :
  T !! t = Some tk -> R t = None -> 0 <= prio tk < RHINO_CONFIG_PRI_MAX ->
  (forall rq', rq_ok (fupd R t (Some (prio tk))) rq' -> Q tt (kput T objs rq' th s)) ->
  wp (ready_list_add_tail t) Q st.
Proof.
  intros Ht HR Hp HQ. unfold ready_list_add_tail, on_rq. do 4 kstep.
  destruct (rq_add_tail_ok _ _ _ _ Hrq Hp HR) as (rq' & -> & Hrq' & _). do 3 kstep. auto.
Qed.

Lemma wp_ready_list_add_head t tk (Q : unit -> kstate -> Prop) :
  T !! t = Some tk -> R t = None -> 0 <= prio tk < RHINO_CONFIG_PRI_MAX ->
  (forall rq', rq_ok (fupd R t (Some (prio tk))) rq' -> Q tt (kput T objs rq' th s)) ->
  wp (ready_list_add_head t) Q st.
Proof.
  intros Ht HR Hp HQ. unfold ready_list_add_head, on_rq. do 4 kstep.
  destruct (rq_add_head_ok _ _ _ _ Hrq Hp HR) as (rq' & -> & Hrq' & _). do 3 kstep. auto.
Qed.

Lemma wp_ready_list_add t tk (Q : unit -> kstate -> Prop) :
  T !! t = Some tk -> is_Some (T !! g_active_task s) -> R t = None ->
  0 <= prio tk < RHINO_CONFIG_PRI_MAX ->
  (forall rq', rq_ok (fupd R t (Some (prio tk))) rq' -> Q tt (kput T objs rq' th s)) ->
  wp (ready_list_add t) Q st.
Proof.
  intros Ht [ak Ha] HR Hp HQ. unfold ready_list_add. do 6 kstep. case_match.
  - by eapply wp_ready_list_add_tail.
  - by eapply wp_ready_list_add_head.
Qed.
End routines.
