(* ===== verification/Inv.v ===== *)
(** * The invariant of the kernel

    The lists of the kernel are redundant with the fields of the tasks: a task
    is in the run queue when its state says ready, in the waiting list of the
    object its [blk_obj] names when its state says pending, and so on.  The
    invariant is stated through views of the task map, total functions compared
    pointwise: [ready], [waits], [ticking], [held], [prioV].  Its parts are
    - [rq_ok] (in [Sched]): the run queue represents [ready];
    - [blks_ok]: the waiting lists represent [waits], in order of priority;
    - [tick_ok]: the tick list represents [ticking], in order of time;
    - [mutex_ok]: the chains [mutex_list] and the owners of the mutexes agree;
    - [pi_ok]: the priority of every task is the highest of its base priority
      and of those of the tasks waiting for its mutexes. *)

From S2P Require Import Prelude Config RingBuf State Sched.

(** ** Views *)

Definition tview {A} (f : ktask -> A) (d : A) (T : gmap nat ktask) : nat -> A :=
  fun t => from_option f d (T !! t).

Definition is_pending (tk : ktask) : bool :=
  match task_state tk with K_PEND | K_PEND_SUSPENDED => true | _ => false end.
Definition is_sleeping (tk : ktask) : bool :=
  match task_state tk with K_SLEEP | K_SLEEP_SUSPENDED => true | _ => false end.
Definition is_suspended (tk : ktask) : bool :=
  match task_state tk with K_SUSPENDED | K_SLEEP_SUSPENDED | K_PEND_SUSPENDED => true | _ => false end.
Definition is_live (tk : ktask) : bool :=
  match task_state tk with K_DELETED | K_SEED => false | _ => true end.

Definition ready_of (tk : ktask) : option Z :=
  match task_state tk with K_RDY => Some (prio tk) | _ => None end.
Definition waits_of (tk : ktask) : option nat := if is_pending tk then blk_obj tk else None.
Definition held_of (tk : ktask) : list nat := if is_live tk then mutex_list tk else [].

Definition ready : gmap nat ktask -> nat -> option Z := tview ready_of None.
Definition waits : gmap nat ktask -> nat -> option nat := tview waits_of None.
Definition ticking : gmap nat ktask -> nat -> bool := tview tick_head false.
Definition matchV : gmap nat ktask -> nat -> Z := tview tick_match 0.
Definition held : gmap nat ktask -> nat -> list nat := tview held_of [].
Definition live : gmap nat ktask -> nat -> bool := tview is_live false.
Definition prioV : gmap nat ktask -> nat -> Z := tview prio 0.
Definition bprioV : gmap nat ktask -> nat -> Z := tview b_prio 0.

Lemma tview_lookup {A} (f : ktask -> A) d T t tk : T !! t = Some tk -> tview f d T t = f tk.
Proof. unfold tview. by intros ->. Qed.

Lemma tview_insert {A} (f : ktask -> A) d T t tk :
  tview f d (<[t := tk]> T) ≐ fupd (tview f d T) t (f tk).
Proof.
  intros u. unfold tview, fupd. case_decide; subst; [by rewrite lookup_insert_eq|].
  by rewrite lookup_insert_ne.
Qed.

(** an update that does not change a view *)
Lemma tview_same {A} (f : ktask -> A) d T t tk tk' :
  T !! t = Some tk -> f tk' = f tk -> tview f d (<[t := tk']> T) ≐ tview f d T.
Proof. intros Ht Hf. rewrite tview_insert. apply fupd_id. rewrite Hf. by apply tview_lookup. Qed.

(** ** Well-formed tasks and objects *)

Record task_ok (tk : ktask) : Prop := {
  tk_prio : 0 <= prio tk < RHINO_CONFIG_PRI_MAX;
  tk_b_prio : 0 <= b_prio tk < RHINO_CONFIG_PRI_MAX;
  tk_seed : task_state tk <> K_SEED;
  tk_pend : is_pending tk = true -> blk_obj tk <> None;
  tk_sleep : is_sleeping tk = true -> tick_head tk = true;
  tk_tick : tick_head tk = true -> is_pending tk = true \/ is_sleeping tk = true;
  tk_susp : is_suspended tk = true -> 1 <= suspend_count tk <= 255
}.

(** the ring of a queue holds its [cur_num] messages [ms] *)
Definition queue_ring (r : k_ringbuf_t) (size cur : Z) (ms : list (list Z)) : Prop :=
  fix_ring sizeof_ptr (Z.to_nat size * sizeof_ptr) r ms /\ cur = Z.of_nat (length ms) /\ 0 < size.

(** ... and that of a buffer queue, each no longer than [max_msg_size] *)
Definition buf_ring (r : k_ringbuf_t) (mx cur : Z) (ms : list (list Z)) : Prop :=
  (dyn_ring (rb_end r) r ms \/ fix_ring (Z.to_nat mx) (rb_end r) r ms) /\
  cur = Z.of_nat (length ms) /\ Forall (fun m => Z.of_nat (length m) <= mx) ms.

(** the body of an object is that of its type; while something can be taken from
    it, nobody waits *)
Definition obj_ok (ob : kobj) : Prop :=
  match obj_type ob, body ob with
  | RHINO_SEM_OBJ_TYPE, KSem count _ => 0 <= count < 2 ^ 32 /\ (0 < count -> blk_list ob = [])
  | RHINO_MUTEX_OBJ_TYPE, KMutex _ nested => 0 <= nested < 2 ^ 32 /\ blk_policy ob = BLK_POLICY_PRI
  | RHINO_QUEUE_OBJ_TYPE, KQueue r size cur _ => (exists ms, queue_ring r size cur ms) /\ (0 < cur -> blk_list ob = [])
  | RHINO_BUF_QUEUE_OBJ_TYPE, KBufQueue r mx cur _ _ => (exists ms, buf_ring r mx cur ms) /\ (0 < cur -> blk_list ob = [])
  | RHINO_EVENT_OBJ_TYPE, KEvent flags => 0 <= flags < 2 ^ 32
  | RHINO_OBJ_TYPE_NONE, _ => True
  | _, _ => False
  end.

(** ** The waiting lists *)

Record blks_ok (W : nat -> option nat) (P : nat -> Z) (objs : gmap nat kobj) : Prop := {
  bk_nodup : forall o ob, objs !! o = Some ob -> NoDup (blk_list ob);
  bk_in : forall o ob t, objs !! o = Some ob -> t ∈ blk_list ob <-> W t = Some o;
  bk_obj : forall t o, W t = Some o -> is_Some (objs !! o);
  bk_sorted : forall o ob, objs !! o = Some ob -> blk_policy ob = BLK_POLICY_PRI ->
              StronglySorted (fun t u => P t <= P u) (blk_list ob)
}.

Lemma blks_ok_ext W W' P P' objs : W ≐ W' -> P ≐ P' -> blks_ok W P objs -> blks_ok W' P' objs.
Proof.
  intros HW HP [Hn Hi Ho Hs]. split; [done| | |].
  - intros o ob t Hob. rewrite <- HW. by apply Hi.
  - intros t o Ht. rewrite <- HW in Ht. eauto.
  - intros o ob Hob Hp. eapply StronglySorted_weaken; [|exact (Hs _ _ Hob Hp)]. cbv beta; intros t u _ _; by rewrite !HP.
Qed.

#[export] Instance blks_ok_Proper :
  Proper (pointwise_relation nat eq ==> pointwise_relation nat eq ==> eq ==> iff) blks_ok.
Proof. intros W W' HW P P' HP ? objs ->. split; by apply blks_ok_ext. Qed.

(** the waiting list of one object is replaced *)
Lemma blks_ok_change W W' P objs o ob l :
  blks_ok W P objs -> objs !! o = Some ob -> NoDup l -> (forall t, t ∈ l <-> W' t = Some o) ->
  (forall t q, q <> o -> W' t = Some q <-> W t = Some q) ->
  (blk_policy ob = BLK_POLICY_PRI -> StronglySorted (fun t u => P t <= P u) l) ->
  blks_ok W' P (<[o := set_blk_list l ob]> objs).
Proof.
  intros [Hn Hi Ho Hs] Hob Hl Hin Hother Hsort. split.
  - intros q qb [[<- <-]|[_ Hq]]%lookup_insert_Some; [done|by eapply Hn].
  - intros q qb t [[<- <-]|[? Hq]]%lookup_insert_Some; [done|]. rewrite Hother by done. by apply Hi.
  - intros t q Hq. apply lookup_insert_is_Some'. destruct (decide (q = o)) as [->|Hne]; [by left|].
    right. apply (Ho t). by apply Hother.
  - intros q qb [[<- <-]|[_ Hq]]%lookup_insert_Some; [done|by eapply Hs].
Qed.

Lemma blks_del W P objs t o ob :
  blks_ok W P objs -> W t = Some o -> objs !! o = Some ob ->
  blks_ok (fupd W t None) P (<[o := set_blk_list (klist_del t (blk_list ob)) ob]> objs).
Proof.
  intros H Ht Hob. eapply blks_ok_change; eauto.
  - apply klist_del_NoDup. by eapply bk_nodup.
  - intros u. rewrite elem_of_klist_del, (bk_in _ _ _ H _ _ _ Hob). unfold fupd.
    case_decide; naive_solver.
  - intros u q Hq. unfold fupd. case_decide; naive_solver.
  - intros. apply StronglySorted_filter. by eapply bk_sorted.
Qed.

Lemma blks_add_fifo W P objs t o ob :
  blks_ok W P objs -> W t = None -> objs !! o = Some ob -> blk_policy ob = BLK_POLICY_FIFO ->
  blks_ok (fupd W t (Some o)) P (<[o := set_blk_list (blk_list ob ++ [t]) ob]> objs).
Proof.
  intros H Ht Hob Hp. eapply blks_ok_change; eauto.
  - apply NoDup_app. split; [by eapply bk_nodup|]. split; [|apply NoDup_singleton].
    intros u Hu ->%list_elem_of_singleton. rewrite (bk_in _ _ _ H _ _ _ Hob) in Hu. congruence.
  - intros u. rewrite elem_of_app, list_elem_of_singleton, (bk_in _ _ _ H _ _ _ Hob). unfold fupd.
    case_decide; naive_solver.
  - intros u q Hq. unfold fupd. case_decide; naive_solver.
  - congruence.
Qed.

Lemma blks_add_pri W P objs t o ob :
  blks_ok W P objs -> W t = None -> objs !! o = Some ob -> blk_policy ob = BLK_POLICY_PRI ->
  blks_ok (fupd W t (Some o)) P
    (<[o := set_blk_list (insert_before (fun u => P t <? P u) t (blk_list ob)) ob]> objs).
Proof.
  intros H Ht Hob Hp. eapply blks_ok_change; eauto.
  - apply NoDup_insert_before; [by eapply bk_nodup|]. rewrite (bk_in _ _ _ H _ _ _ Hob). congruence.
  - intros u. rewrite elem_of_insert_before, (bk_in _ _ _ H _ _ _ Hob). unfold fupd.
    case_decide; naive_solver.
  - intros u q Hq. unfold fupd. case_decide; naive_solver.
  - intros _. apply insert_before_sorted. by eapply bk_sorted.
Qed.

(** the priority of a task that no priority-ordered list holds *)
Lemma blks_prio W P objs t p :
  blks_ok W P objs ->
  (forall o ob, W t = Some o -> objs !! o = Some ob -> blk_policy ob <> BLK_POLICY_PRI) ->
  blks_ok W (fupd P t p) objs.
Proof.
  intros H Hno. split; [apply H..|]. intros o ob Hob Hp.
  eapply StronglySorted_weaken; [|by eapply bk_sorted]. intros u v Hu Hv.
  apply (bk_in _ _ _ H _ _ _ Hob) in Hu, Hv.
  rewrite !fupd_ne; [done| |]; intros ->; by eapply Hno.
Qed.

Lemma blks_obj W P objs o ob ob' :
  blks_ok W P objs -> objs !! o = Some ob -> blk_list ob' = blk_list ob ->
  blk_policy ob' = blk_policy ob -> blks_ok W P (<[o := ob']> objs).
Proof.
  intros [Hn Hi Ho Hs] Hob Hl Hp. split.
  - intros q qb [[<- <-]|[_ Hq]]%lookup_insert_Some; [rewrite Hl|]; eauto.
  - intros q qb t [[<- <-]|[_ Hq]]%lookup_insert_Some; [rewrite Hl|]; eauto.
  - intros t q Hq. apply lookup_insert_is_Some'. right. eauto.
  - intros q qb [[<- <-]|[_ Hq]]%lookup_insert_Some; [rewrite Hl, Hp|]; eauto.
Qed.

Lemma blks_new W P objs o ob :
  blks_ok W P objs -> (forall t, W t <> Some o) -> blk_list ob = [] -> blks_ok W P (<[o := ob]> objs).
Proof.
  intros [Hn Hi Ho Hs] Hno Hl. split.
  - intros q qb [[<- <-]|[_ Hq]]%lookup_insert_Some; [rewrite Hl; apply NoDup_nil_2|eauto].
  - intros q qb t [[<- <-]|[_ Hq]]%lookup_insert_Some; [|eauto]. rewrite Hl, elem_of_nil.
    split; [done|]. intros ?%Hno. done.
  - intros t q Hq. apply lookup_insert_is_Some'. right. eauto.
  - intros q qb [[<- <-]|[_ Hq]]%lookup_insert_Some; [rewrite Hl; constructor|eauto].
Qed.

Lemma blks_delete W P objs o :
  blks_ok W P objs -> (forall t, W t <> Some o) -> blks_ok W P (delete o objs).
Proof.
  intros [Hn Hi Ho Hs] Hno. split.
  - intros q qb [_ Hq]%lookup_delete_Some. eauto.
  - intros q qb t [_ Hq]%lookup_delete_Some. eauto.
  - intros t q Hq. rewrite lookup_delete_ne; [eauto|]. intros ->. by eapply Hno.
  - intros q qb [_ Hq]%lookup_delete_Some. eauto.
Qed.

(** ** The tick list *)

(** the ticks that remain *)
Definition tick_key (Mt : nat -> Z) (now : Z) (t : nat) : Z := u64 (Mt t - now).

Record tick_ok (lo : Z) (C : nat -> bool) (Mt : nat -> Z) (now : Z) (l : list nat) : Prop := {
  ti_nodup : NoDup l;
  ti_in : forall t, t ∈ l <-> C t = true;
  ti_sorted : StronglySorted (fun t u => tick_key Mt now t <= tick_key Mt now u) l;
  ti_lo : forall t, t ∈ l -> lo <= tick_key Mt now t
}.

Lemma tick_ok_ext lo C C' Mt Mt' now l :
  C ≐ C' -> Mt ≐ Mt' -> tick_ok lo C Mt now l -> tick_ok lo C' Mt' now l.
Proof.
  intros HC HM [Hn Hi Hs Hl]. split; [done| | |].
  - intros t. by rewrite Hi, HC.
  - eapply StronglySorted_weaken; [|done]. intros t u _ _. unfold tick_key. by rewrite <- !HM.
  - intros t Ht. unfold tick_key. rewrite <- HM. by apply Hl.
Qed.

#[export] Instance tick_ok_Proper lo :
  Proper (pointwise_relation nat eq ==> pointwise_relation nat eq ==> eq ==> eq ==> iff) (tick_ok lo).
Proof. intros C C' HC M M' HM ? now -> ? l ->. split; by apply tick_ok_ext. Qed.

Lemma tick_del lo C Mt now l t :
  tick_ok lo C Mt now l -> tick_ok lo (fupd C t false) Mt now (klist_del t l).
Proof.
  intros [Hn Hi Hs Hl]. split.
  - by apply klist_del_NoDup.
  - intros u. rewrite elem_of_klist_del, Hi. unfold fupd. case_decide; naive_solver.
  - by apply StronglySorted_filter.
  - intros u [_ Hu]%elem_of_klist_del. auto.
Qed.

Lemma tick_set_match lo C Mt now l t v :
  tick_ok lo C Mt now l -> C t = false -> tick_ok lo C (fupd Mt t v) now l.
Proof.
  intros [Hn Hi Hs Hl] Ht. assert (Hno : forall u, u ∈ l -> u <> t).
  { intros u Hu ->. apply Hi in Hu. congruence. }
  split; [done|done| |].
  - eapply StronglySorted_weaken; [|done]. intros u w Hu Hw. unfold tick_key.
    rewrite !fupd_ne by auto. done.
  - intros u Hu. unfold tick_key. rewrite fupd_ne by auto. by apply Hl.
Qed.

Lemma tick_add lo C Mt now l t time :
  tick_ok lo C Mt now l -> C t = false -> lo <= time < 2 ^ 64 -> 0 <= time ->
  tick_ok lo (fupd C t true) (fupd Mt t (u64 (now + time))) now
    (insert_before (fun u => time <? u64 (Mt u - now)) t l).
Proof.
  intros H Ht Htime H0. assert (Hno : t ∉ l).
  { rewrite (ti_in _ _ _ _ _ H). congruence. }
  assert (Hkey : tick_key (fupd Mt t (u64 (now + time))) now t = time).
  { unfold tick_key. rewrite fupd_eq, u64_sub_l. replace (now + time - now) with time by lia.
    apply u64_small. lia. }
  assert (Hkey' : forall u, u ∈ l -> tick_key (fupd Mt t (u64 (now + time))) now u = tick_key Mt now u).
  { intros u Hu. unfold tick_key. rewrite fupd_ne; [done|]. by intros ->. }
  pose proof (tick_set_match _ _ _ _ _ t (u64 (now + time)) H Ht) as H'. destruct H' as [Hn Hi Hs Hl].
  assert (Hext : insert_before (fun u => time <? u64 (Mt u - now)) t l =
    insert_before (fun u => tick_key (fupd Mt t (u64 (now + time))) now t <?
                            tick_key (fupd Mt t (u64 (now + time))) now u) t l).
  { apply insert_before_ext. intros u Hu. by rewrite Hkey, Hkey'. }
  rewrite Hext. split.
  - by apply NoDup_insert_before.
  - intros u. rewrite elem_of_insert_before, Hi. unfold fupd. case_decide; naive_solver.
  - by apply insert_before_sorted.
  - intros u [->|Hu]%elem_of_insert_before; [rewrite Hkey; lia|by apply Hl].
Qed.

(** ** Mutexes

    [x] is the mutex a routine is handing over: between the release by its
    owner and the assignment of the next one it counts as owned by nobody. *)

Definition owner_of (ob : kobj) : option nat :=
  match obj_type ob with RHINO_MUTEX_OBJ_TYPE => mutex_owner ob | _ => None end.

Definition own (x : option nat) (objs : gmap nat kobj) : nat -> option nat :=
  fun m => if decide (x = Some m) then None else from_option owner_of None (objs !! m).

Record mutex_ok (H : nat -> list nat) (O : nat -> option nat) : Prop := {
  mx_in : forall t m, m ∈ H t <-> O m = Some t;
  mx_nodup : forall t, NoDup (H t)
}.

#[export] Instance mutex_ok_Proper :
  Proper (pointwise_relation nat eq ==> pointwise_relation nat eq ==> iff) mutex_ok.
Proof.
  assert (Hext : forall H H' O O', H ≐ H' -> O ≐ O' -> mutex_ok H O -> mutex_ok H' O').
  { intros H H' O O' HH HO [Hi Hn]. split.
    - intros t m. by rewrite <- HH, <- HO.
    - intros t. by rewrite <- HH. }
  intros H H' HH O O' HO. split; by apply Hext.
Qed.

(** a mutex tasks wait for has an owner, another task *)
Definition mwait_ok (x : option nat) (W : nat -> option nat) (objs : gmap nat kobj) : Prop :=
  forall t m ob, W t = Some m -> objs !! m = Some ob -> obj_type ob = RHINO_MUTEX_OBJ_TYPE ->
    x <> Some m -> exists u, own x objs m = Some u /\ u <> t.

#[export] Instance mwait_ok_Proper x :
  Proper (pointwise_relation nat eq ==> eq ==> iff) (mwait_ok x).
Proof.
  intros W W' HW ? objs ->. unfold mwait_ok.
  split; intros Hm t m ob Ht; apply (Hm t m ob); congruence || (rewrite <- Ht; auto).
Qed.

Lemma own_insert x objs o ob :
  own x (<[o := ob]> objs) ≐ fupd (own x objs) o (if decide (x = Some o) then None else owner_of ob).
Proof.
  intros m. unfold own, fupd. destruct (decide (m = o)) as [->|Hne].
  - case_decide; [done|]. by rewrite lookup_insert_eq.
  - case_decide; [done|]. by rewrite lookup_insert_ne.
Qed.

Lemma own_same x objs o ob ob' :
  objs !! o = Some ob -> owner_of ob' = owner_of ob -> own x (<[o := ob']> objs) ≐ own x objs.
Proof.
  intros Ho Hb. rewrite own_insert. apply fupd_id. unfold own. case_decide; [done|]. by rewrite Ho.
Qed.

Lemma own_hole m objs : own (Some m) objs ≐ fupd (own None objs) m None.
Proof.
  intros o. unfold own, fupd. destruct (decide (o = m)) as [->|Hne].
  - by rewrite decide_True.
  - rewrite !decide_False by congruence. done.
Qed.

Lemma mutex_release_ok H O t m :
  mutex_ok H O -> m ∈ H t ->
  mutex_ok (fupd H t (klist_del m (H t))) (fupd O m None).
Proof.
  intros [Hi Hn] Hm. split.
  - intros u q. unfold fupd. repeat case_decide; subst; rewrite ?elem_of_klist_del.
    + split; [by intros []|done].
    + rewrite Hi. split; [by intros []|done].
    + split; [|done]. intros Hq. apply Hi in Hm, Hq. congruence.
    + apply Hi.
  - intros u. unfold fupd. case_decide; [by apply klist_del_NoDup|done].
Qed.

Lemma mutex_acquire_ok H O t m :
  mutex_ok H O -> O m = None -> mutex_ok (fupd H t (m :: H t)) (fupd O m (Some t)).
Proof.
  intros [Hi Hn] Hm. assert (Hno : forall u, m ∉ H u).
  { intros u Hu. apply Hi in Hu. congruence. }
  split.
  - intros u q. unfold fupd. repeat case_decide; subst; rewrite ?elem_of_cons, ?Hi; naive_solver.
  - intros u. unfold fupd. case_decide; [|done]. by constructor.
Qed.

(** ** Priority inheritance *)

(** [p] is the highest of the base priority [b] and of the priorities of the
    tasks waiting for one of the mutexes [ms]; a smaller number is a higher
    priority *)
Record is_inh (W : nat -> option nat) (P : nat -> Z) (p b : Z) (ms : list nat) : Prop := {
  in_base : p <= b;
  in_wait : forall m u, m ∈ ms -> W u = Some m -> p <= P u;
  in_reached : p = b \/ exists m u, m ∈ ms /\ W u = Some m /\ p = P u
}.

#[export] Instance is_inh_Proper :
  Proper (pointwise_relation nat eq ==> pointwise_relation nat eq ==> eq ==> eq ==> eq ==> iff) is_inh.
Proof.
  assert (Hext : forall W W' P P' p b ms, W ≐ W' -> P ≐ P' -> is_inh W P p b ms -> is_inh W' P' p b ms).
  { intros W W' P P' p b ms HW HP [Hb Hw Hr]. split; [done| |].
    - intros m u Hm Hu. rewrite <- HP. rewrite <- HW in Hu. eauto.
    - destruct Hr as [?|(m & u & Hm & Hu & Hp)]; [by left|]. right. exists m, u.
      rewrite <- HW, <- HP. done. }
  intros W W' HW P P' HP ? p -> ? b -> ? ms ->. split; apply Hext; done.
Qed.

Lemma is_inh_unique W P p q b ms : is_inh W P p b ms -> is_inh W P q b ms -> p = q.
Proof.
  intros [Hb Hw [->|(m & u & Hm & Hu & ->)]] [Hb' Hw' [->|(m' & u' & Hm' & Hu' & ->)]]; [done| | |].
  - apply Z.le_antisymm; eauto.
  - apply Z.le_antisymm; eauto.
  - apply Z.le_antisymm; eauto.
Qed.

Definition pi_ok (D : nat -> Z) (L : nat -> bool) (B : nat -> Z) (H : nat -> list nat)
    (W : nat -> option nat) (P : nat -> Z) : Prop :=
  forall t, L t = true -> is_inh W P (D t) (B t) (H t).

#[export] Instance pi_ok_Proper :
  Proper (pointwise_relation nat eq ==> pointwise_relation nat eq ==> pointwise_relation nat eq ==>
          pointwise_relation nat eq ==> pointwise_relation nat eq ==> pointwise_relation nat eq ==> iff) pi_ok.
Proof.
  assert (Hext : forall D D' L L' B B' H H' W W' P P', D ≐ D' -> L ≐ L' -> B ≐ B' -> H ≐ H' -> W ≐ W' ->
            P ≐ P' -> pi_ok D L B H W P -> pi_ok D' L' B' H' W' P').
  { intros D D' L L' B B' H H' W W' P P' HD HL HB HH HW HP Hpi t Ht. rewrite <- HL in Ht.
    specialize (Hpi t Ht). rewrite HD, HB, HH in Hpi. rewrite <- HW, <- HP. done. }
  intros D D' HD L L' HL B B' HB H H' HH W W' HW P P' HP.
  split; [by apply Hext|]. apply Hext; by symmetry.
Qed.

Lemma is_inh_P W P P' p b ms :
  is_inh W P p b ms -> (forall m u, m ∈ ms -> W u = Some m -> P' u = P u) -> is_inh W P' p b ms.
Proof.
  intros [Hb Hw Hr] HP. split; [done| |].
  - intros m u Hm Hu. rewrite (HP m u) by done. eauto.
  - destruct Hr as [?|(m & u & Hm & Hu & ->)]; [by left|]. right. exists m, u. split_and!; [done..|].
    symmetry. eauto.
Qed.

Lemma is_inh_nil W P b : is_inh W P b b [].
Proof. split; [lia| |by left]. intros m u Hm. by apply elem_of_nil in Hm. Qed.

Lemma is_inh_perm W P p b ms ms' : (forall m, m ∈ ms' <-> m ∈ ms) -> is_inh W P p b ms -> is_inh W P p b ms'.
Proof.
  intros Hm [Hb Hw Hr]. split; [done| |].
  - intros m u H%Hm. eauto.
  - destruct Hr as [?|(m & u & H & Hu & ->)]; [by left|]. right. exists m, u. by rewrite Hm.
Qed.

(** a mutex more, whose waiting tasks have no higher priority *)
Lemma is_inh_cons W P p b m ms :
  is_inh W P p b ms -> (forall u, W u = Some m -> p <= P u) -> is_inh W P p b (m :: ms).
Proof.
  intros [Hb Hw Hr] Hm. split; [done| |].
  - intros q u [->|Hq]%elem_of_cons Hu; eauto.
  - destruct Hr as [?|(q & u & Hq & Hu & ->)]; [by left|]. right. exists q, u.
    split_and!; [by right|done..].
Qed.

(** a task starts or stops waiting for something the owner does not hold *)
Lemma is_inh_W W W' P p b ms :
  is_inh W P p b ms -> (forall m u, m ∈ ms -> W' u = Some m <-> W u = Some m) -> is_inh W' P p b ms.
Proof.
  intros [Hb Hw Hr] HW. split; [done| |].
  - intros m u Hm Hu%HW; eauto.
  - destruct Hr as [?|(m & u & Hm & Hu & ->)]; [by left|]. right. exists m, u. by rewrite HW.
Qed.

(** One step of a change of priority: the task [t] must get [np], and so far
    every other task has the priority it must have. *)
Section pi_step.
Context (L : nat -> bool) (B : nat -> Z) (H : nat -> list nat) (W : nat -> option nat) (P : nat -> Z).
Context (t : nat) (np : Z) (Hpi : pi_ok (fupd P t np) L B H W P) (Hne : np <> P t).
Local Abbreviation P' := (fupd P t np).

(** whoever [t] does not wait for *)
Lemma inh_others u : L u = true -> (forall m, m ∈ H u -> W t <> Some m) -> is_inh W P' (P' u) (B u) (H u).
Proof.
  intros Hu Hno. eapply is_inh_P; [by apply Hpi|]. intros m v Hm Hv. apply fupd_ne. intros ->. by eapply Hno.
Qed.

Lemma inh_raise_stop o : L o = true -> np < P t -> P' o <= np -> is_inh W P' (P' o) (B o) (H o).
Proof.
  intros Ho Hlt Hle. destruct (Hpi o Ho) as [Hb Hw Hr]. split; [done| |].
  - intros m u Hm Hu. unfold fupd at 2. case_decide; [done|eauto].
  - destruct Hr as [?|(m & u & Hm & Hu & Heq)]; [by left|]. right. exists m, u.
    split_and!; [done..|]. rewrite Heq. symmetry. apply fupd_ne. intros ->. lia.
Qed.

Lemma inh_raise_go o m : L o = true -> m ∈ H o -> W t = Some m -> np < P' o -> is_inh W P' np (B o) (H o).
Proof.
  intros Ho Hm Ht Hlt. destruct (Hpi o Ho) as [Hb Hw Hr]. split; [lia| |].
  - intros q u Hq Hu. unfold fupd. case_decide; [done|]. specialize (Hw _ _ Hq Hu). lia.
  - right. exists m, t. by rewrite fupd_eq.
Qed.

Lemma inh_lower_stop o : L o = true -> P t < np -> P' o <> P t -> is_inh W P' (P' o) (B o) (H o).
Proof.
  intros Ho Hlt Hd. destruct (Hpi o Ho) as [Hb Hw Hr]. split; [done| |].
  - intros m u Hm Hu. specialize (Hw _ _ Hm Hu). unfold fupd at 2. case_decide; [subst; lia|done].
  - destruct Hr as [?|(m & u & Hm & Hu & Heq)]; [by left|]. right. exists m, u.
    split_and!; [done..|]. rewrite Heq. symmetry. apply fupd_ne. by intros ->.
Qed.

Lemma inh_lower_mono o q : L o = true -> P t < np -> is_inh W P' q (B o) (H o) -> P' o <= q.
Proof.
  intros Ho Hlt [_ _ Hr]. destruct (Hpi o Ho) as [Hb Hw _].
  destruct Hr as [->|(m & u & Hm & Hu & ->)]; [done|]. specialize (Hw _ _ Hm Hu).
  unfold fupd at 2. case_decide; [subst; lia|done].
Qed.

(** all but the owner [o] of the mutex [t] waits for *)
Lemma pi_step o q :
  (forall u m, L u = true -> m ∈ H u -> W t = Some m -> u = o) ->
  (L o = true -> is_inh W P' q (B o) (H o)) -> pi_ok (fupd P' o q) L B H W P'.
Proof.
  intros Huniq Ho u Hu. unfold fupd at 2. destruct (decide (u = o)) as [->|Hd]; [auto|].
  apply inh_others; [done|]. intros m Hm Ht. by eapply Hd, Huniq.
Qed.

Lemma pi_done :
  (forall u m, L u = true -> m ∈ H u -> W t <> Some m) -> pi_ok P' L B H W P'.
Proof. intros Hno u Hu. apply inh_others; [done|]. intros m. by apply Hno. Qed.
End pi_step.

Lemma pi_hole_id P L B H W t : pi_ok (fupd P t (P t)) L B H W P <-> pi_ok P L B H W P.
Proof. by rewrite fupd_id. Qed.

(** every live task has the priority it inherits *)
Definition pi_all (T : gmap nat ktask) : Prop :=
  pi_ok (prioV T) (live T) (bprioV T) (held T) (waits T) (prioV T).

(** every live task but [t] *)
Definition pi_but (t : nat) (T : gmap nat ktask) : Prop :=
  forall u, u <> t -> live T u = true ->
    is_inh (waits T) (prioV T) (prioV T u) (bprioV T u) (held T u).

Lemma pi_but_hole t T q :
  pi_but t T -> is_inh (waits T) (prioV T) q (bprioV T t) (held T t) ->
  pi_ok (fupd (prioV T) t q) (live T) (bprioV T) (held T) (waits T) (prioV T).
Proof.
  intros Hb Hq u Hu. unfold fupd. destruct (decide (u = t)) as [->|Hne]; [done|]. by apply Hb.
Qed.

(** ** The whole *)

Record core (x : option nat) (T : gmap nat ktask) (objs : gmap nat kobj) (rq : runqueue_t)
    (th : list nat) (lo now : Z) : Prop := {
  c_rq : rq_ok (ready T) rq;
  c_task : map_Forall (fun _ => task_ok) T;
  c_obj : map_Forall (fun _ => obj_ok) objs;
  c_blk : blks_ok (waits T) (prioV T) objs;
  c_tick : tick_ok lo (ticking T) (matchV T) now th;
  c_mutex : mutex_ok (held T) (own x objs);
  c_mwait : mwait_ok x (waits T) objs
}.
