(* ===== verification/Tick.v ===== *)
(** * The tick list ([core/k_tick.c], insertion and removal)

    [g_tick_head] is the sequence of the tasks that wait with a timeout or
    sleep, ordered by the ticks that remain: the key of a task is
    [tick_match - g_tick_count] in 64-bit arithmetic, which does not depend on
    the wrap of the counter.  [tick_list_update] is in [Time]. *)

From S2P Require Import Prelude Config State Sched Inv.

(** ** The code *)

(** [(task_iter_temp->tick_match - g_tick_count) > val] *)
Definition tick_stop (tasks : gmap nat ktask) (now val : Z) (q : nat) : option bool :=
  tk ← tasks !! q; Some (val <? u64 (tick_match tk - now)).

Definition tick_list_pri_insert (t : nat) : K unit :=
  tk ← get_task t;
  tasks ← gets g_tasks;
  now ← gets g_tick_count;
  l ← gets g_tick_head;
  l' ← lift (insert_beforeM (tick_stop tasks now (tick_remain tk)) t l);
  modify (set_g_tick_head l').

Definition tick_list_insert (t : nat) (time : Z) : K unit :=
  if 0 <? time then
    now ← gets g_tick_count;
    upd_task t (fun tk => set_tick_match (u64 (now + time)) tk);;
    upd_task t (fun tk => set_tick_remain time tk);;
    tick_list_pri_insert t;;
    upd_task t (fun tk => set_tick_head true tk)
  else mret tt.

Definition tick_list_rm (t : nat) : K unit :=
  tk ← get_task t;
  if tick_head tk then
    l ← gets g_tick_head;
    (if bool_decide (t ∈ l) then modify (set_g_tick_head (klist_del t l)) else undef);;
    upd_task t (fun tk => set_tick_head false tk)
  else mret tt.

(** ** Specifications *)

(** a task put in the tick list for [time] ticks *)
Definition ticked (now time : Z) (tk : ktask) : ktask :=
  set_tick_head true (set_tick_remain time (set_tick_match (u64 (now + time)) tk)).

Definition tick_position (T : gmap nat ktask) (now time : Z) (t : nat) (th : list nat) : list nat :=
  insert_before (fun u => time <? u64 (matchV T u - now)) t th.

Lemma tick_listed lo T now th u :
  tick_ok lo (ticking T) (matchV T) now th -> u ∈ th -> exists uk, T !! u = Some uk /\ tick_head uk = true.
Proof.
  intros H Hu. apply (ti_in _ _ _ _ _ H) in Hu. unfold ticking, tview in Hu.
  destruct (T !! u) as [uk|]; [by exists uk|done].
Qed.

Section routines.
Context (T : gmap nat ktask) (objs : gmap nat kobj) (rq : runqueue_t) (th : list nat) (s : kstate).
Context (lo : Z) (Hth : tick_ok lo (ticking T) (matchV T) (g_tick_count s) th).
Abbreviation now := (g_tick_count s).

Lemma wp_tick_list_insert t tk time (Q : unit -> kstate -> Prop) :
  T !! t = Some tk -> tick_head tk = false -> 0 < time ->
  Q tt (kput (<[t := ticked now time tk]> T) objs rq (tick_position T now time t th) s) ->
  wp (tick_list_insert t time) Q (kput T objs rq th s).
Proof.
  intros Ht Hh Htime HQ. unfold tick_list_insert.
  rewrite (proj2 (Z.ltb_lt _ _) Htime). unfold tick_list_pri_insert. repeat kstep.
  rewrite (insert_beforeM_total _ (fun u => time <? u64 (matchV T u - now))).
  - repeat kstep. exact HQ.
  - intros u Hu. destruct (tick_listed _ _ _ _ _ Hth Hu) as (uk & Huk & Hut).
    unfold tick_stop. rewrite lookup_insert_ne by congruence. rewrite Huk. cbn.
    unfold matchV. by rewrite (tview_lookup _ _ _ _ _ Huk).
Qed.

Lemma wp_tick_list_rm t tk (Q : unit -> kstate -> Prop) :
  T !! t = Some tk ->
  Q tt (kput (<[t := set_tick_head false tk]> T) objs rq (klist_del t th) s) ->
  wp (tick_list_rm t) Q (kput T objs rq th s).
Proof.
  intros Ht HQ. unfold tick_list_rm. do 2 kstep. destruct (tick_head tk) eqn:Hh.
  - repeat kstep. rewrite bool_decide_true.
    + repeat kstep. exact HQ.
    + apply (ti_in _ _ _ _ _ Hth). unfold ticking. by rewrite (tview_lookup _ _ _ _ _ Ht).
  - kstep. rewrite klist_del_notin in HQ.
    + rewrite insert_id in HQ; [done|]. rewrite Ht. f_equal. destruct tk; simpl in *. by subst.
    + rewrite (ti_in _ _ _ _ _ Hth). unfold ticking. by rewrite (tview_lookup _ _ _ _ _ Ht), Hh.
Qed.
End routines.
