(* ===== verification/Pend.v ===== *)
(** * Blocking and waking tasks ([core/k_pend.c])

    A task waits in the list of one object.  [klist_rm(&task->task_list)]
    unlinks it from the list it is in, whichever it is. *)

From S2P Require Import Prelude Config State Sched Inv Tick.

(** ** The code *)

Definition klist_rm_task (t : nat) : K unit :=
  objs ← gets g_objs;
  if existsb (fun p => bool_decide (t ∈ blk_list p.2)) (map_to_list objs) then
    modify (set_g_objs ((fun ob => set_blk_list (klist_del t (blk_list ob)) ob) <$> objs))
  else undef.

(** [krhino_list_entry(tmp, ktask_t, task_list)->prio > task->prio] *)
Definition pend_stop (tasks : gmap nat ktask) (p : Z) (q : nat) : option bool :=
  tk ← tasks !! q; Some (p <? prio tk).

Definition pend_list_add (o : nat) (t : nat) : K unit :=
  tk ← get_task t;
  tasks ← gets g_tasks;
  ob ← get_obj o;
  l ← lift (insert_beforeM (pend_stop tasks (prio tk)) t (blk_list ob));
  upd_obj o (set_blk_list l).

Definition pend_task_wakeup (t : nat) : K unit :=
  tk ← get_task t;
  match task_state tk with
  | K_PEND =>
      klist_rm_task t;; ready_list_add t;; upd_task t (set_task_state K_RDY)
  | K_PEND_SUSPENDED =>
      klist_rm_task t;; upd_task t (set_task_state K_SUSPENDED)
  | _ => k_err_proc RHINO_SYS_FATAL_ERR
  end;;
  tick_list_rm t;;
  upd_task t (set_blk_state BLK_FINISH);;
  upd_task t (set_blk_obj None).

Definition pend_to_blk_obj (o : nat) (t : nat) (timeout : Z) : K unit :=
  upd_task t (set_blk_obj (Some o));;
  (if timeout =? RHINO_WAIT_FOREVER then mret tt else tick_list_insert t timeout);;
  upd_task t (set_task_state K_PEND);;
  ready_list_rm t;;
  ob ← get_obj o;
  match blk_policy ob with
  | BLK_POLICY_FIFO => upd_obj o (fun ob => set_blk_list (blk_list ob ++ [t]) ob)
  | BLK_POLICY_PRI => pend_list_add o t
  end.

Definition pend_task_rm (t : nat) : K unit :=
  tk ← get_task t;
  match task_state tk with
  | K_PEND =>
      klist_rm_task t;; ready_list_add t;; upd_task t (set_task_state K_RDY)
  | K_PEND_SUSPENDED =>
      klist_rm_task t;; upd_task t (set_task_state K_SUSPENDED)
  | _ => k_err_proc RHINO_SYS_FATAL_ERR
  end;;
  tick_list_rm t;;
  upd_task t (set_blk_state BLK_DEL);;
  upd_task t (set_blk_obj None).

Definition pend_list_reorder (t : nat) : K unit :=
  tk ← get_task t;
  o ← lift (blk_obj tk);
  ob ← get_obj o;
  match blk_policy ob with
  | BLK_POLICY_PRI => klist_rm_task t;; pend_list_add o t
  | BLK_POLICY_FIFO => mret tt
  end.

(** the status a task finds when it runs again *)
Definition pend_state_end_proc (t : nat) : K kstat_t :=
  tk ← get_task t;
  match blk_state tk with
  | BLK_FINISH => mret RHINO_SUCCESS
  | BLK_ABORT => mret RHINO_BLK_ABORT
  | BLK_TIMEOUT => mret RHINO_BLK_TIMEOUT
  | BLK_DEL => mret RHINO_BLK_DEL
  | BLK_INVALID => k_err_proc RHINO_BLK_INV_STATE
  end.

(** [while (!is_klist_empty(head)) f(head->next)] *)
Fixpoint while_waiting (fuel : nat) (o : nat) (f : nat -> K unit) : K unit :=
  ob ← get_obj o;
  match blk_list ob with
  | [] => mret tt
  | t :: _ => match fuel with
              | O => undef
              | S n => f t;; while_waiting n o f
              end
  end.

(** the loop with as much fuel as there are waiting tasks *)
Definition for_all_waiting (o : nat) (f : nat -> K unit) : K unit :=
  ob ← get_obj o;
  while_waiting (length (blk_list ob)) o f.

(** ** The waiting lists *)

Lemma waiting_listed T P objs o ob u :
  blks_ok (waits T) P objs -> objs !! o = Some ob -> u ∈ blk_list ob ->
  exists uk, T !! u = Some uk /\ is_pending uk = true /\ blk_obj uk = Some o.
Proof.
  intros H Ho Hu. apply (bk_in _ _ _ H _ _ _ Ho) in Hu. unfold waits, tview in Hu.
  destruct (T !! u) as [uk|]; [|done]. exists uk. cbn in Hu. unfold waits_of in Hu. by case_match.
Qed.

Section lists.
Context (T : gmap nat ktask) (objs : gmap nat kobj) (rq : runqueue_t) (th : list nat) (s : kstate).
Context (W : nat -> option nat) (P : nat -> Z) (Hblk : blks_ok W P objs).

Lemma wp_klist_rm_task t o ob (Q : unit -> kstate -> Prop) :
  W t = Some o -> objs !! o = Some ob ->
  Q tt (kput T (<[o := set_blk_list (klist_del t (blk_list ob)) ob]> objs) rq th s) ->
  wp (klist_rm_task t) Q (kput T objs rq th s).
Proof.
  intros Ht Ho HQ. unfold klist_rm_task. repeat kstep.
  assert (Hin : t ∈ blk_list ob) by (by apply (bk_in _ _ _ Hblk _ _ _ Ho)).
  replace (existsb _ _) with true.
  2: { symmetry. apply existsb_exists. exists (o, ob). split; [|by apply bool_decide_eq_true].
       apply list_elem_of_In. by apply elem_of_map_to_list. }
  kstep. replace (_ <$> objs) with (<[o := set_blk_list (klist_del t (blk_list ob)) ob]> objs); [done|].
  apply map_eq. intros q. rewrite lookup_fmap. destruct (decide (q = o)) as [->|Hne].
  - by rewrite lookup_insert_eq, Ho.
  - rewrite lookup_insert_ne by done. destruct (objs !! q) as [qb|] eqn:Hq; [|done]. cbn. f_equal.
    rewrite klist_del_notin; [by destruct qb|]. rewrite (bk_in _ _ _ Hblk _ _ _ Hq). congruence.
Qed.

Lemma wp_pend_list_add o ob t tk (Q : unit -> kstate -> Prop) :
  T !! t = Some tk -> objs !! o = Some ob -> (forall u, u ∈ blk_list ob -> is_Some (T !! u)) ->
  Q tt (kput T (<[o := set_blk_list (insert_before (fun u => prioV T t <? prioV T u) t (blk_list ob)) ob]>
                 objs) rq th s) ->
  wp (pend_list_add o t) Q (kput T objs rq th s).
Proof.
  intros Ht Ho Hl HQ. unfold pend_list_add. repeat kstep.
  rewrite (insert_beforeM_total _ (fun u => prioV T t <? prioV T u)).
  - repeat kstep. exact HQ.
  - intros u Hu. destruct (Hl _ Hu) as [uk Huk]. unfold pend_stop. rewrite Huk. cbn.
    unfold prioV. by rewrite (tview_lookup _ _ _ _ _ Ht), (tview_lookup _ _ _ _ _ Huk).
Qed.
End lists.

(** ** Waking *)

(** [pend_task_wakeup] and [pend_task_rm] differ in the state they leave *)
Definition pend_task_end (bs : blk_state_t) (t : nat) : K unit :=
  tk ← get_task t;
  match task_state tk with
  | K_PEND =>
      klist_rm_task t;; ready_list_add t;; upd_task t (set_task_state K_RDY)
  | K_PEND_SUSPENDED =>
      klist_rm_task t;; upd_task t (set_task_state K_SUSPENDED)
  | _ => k_err_proc RHINO_SYS_FATAL_ERR
  end;;
  tick_list_rm t;;
  upd_task t (set_blk_state bs);;
  upd_task t (set_blk_obj None).

Lemma pend_task_wakeup_end : pend_task_wakeup = pend_task_end BLK_FINISH.
Proof. done. Qed.
Lemma pend_task_rm_end : pend_task_rm = pend_task_end BLK_DEL.
Proof. done. Qed.

Definition awake_state (st : task_stat_t) : task_stat_t :=
  match st with
  | K_PEND | K_SLEEP => K_RDY
  | K_PEND_SUSPENDED | K_SLEEP_SUSPENDED => K_SUSPENDED
  | _ => st
  end.

(** a task after it was woken *)
Definition woken (bs : blk_state_t) (tk : ktask) : ktask :=
  set_blk_obj None (set_blk_state bs (set_tick_head false (set_task_state (awake_state (task_state tk)) tk))).

Definition unlinked (t : nat) (ob : kobj) : kobj := set_blk_list (klist_del t (blk_list ob)) ob.

Lemma waits_inv T t o :
  waits T t = Some o -> exists tk, T !! t = Some tk /\ is_pending tk = true /\ blk_obj tk = Some o.
Proof.
  unfold waits, tview. destruct (T !! t) as [tk|]; [|done]. cbn. unfold waits_of.
  intros H. exists tk. by case_match.
Qed.

(** the run queue after a task of the map left its waiting list or slept *)
Lemma ready_awake T t tk tk' :
  T !! t = Some tk -> (is_pending tk = true \/ is_sleeping tk = true) ->
  task_state tk' = awake_state (task_state tk) -> prio tk' = prio tk ->
  ready (<[t := tk']> T) ≐ fupd (ready T) t (match task_state tk with
                                             | K_PEND | K_SLEEP => Some (prio tk) | _ => None end).
Proof.
  intros Ht Hp Hst Hpr. unfold ready. rewrite tview_insert. unfold ready_of. rewrite Hst, Hpr.
  unfold is_pending, is_sleeping in Hp. destruct (task_state tk); destruct Hp; done.
Qed.

Section wake_run.
Context (T : gmap nat ktask) (objs : gmap nat kobj) (rq : runqueue_t) (th : list nat) (s : kstate).
Context (t o : nat) (tk : ktask) (ob : kobj).
Context (Ht : T !! t = Some tk) (Hp : is_pending tk = true) (Hb : blk_obj tk = Some o).
Context (Ho : objs !! o = Some ob).

Lemma woken_waits : waits T t = Some o.
Proof using Ht Hp Hb. unfold waits. rewrite (tview_lookup _ _ _ _ _ Ht). unfold waits_of. by rewrite Hp. Qed.

Lemma woken_not_ready : ready T t = None.
Proof using Ht Hp.
  unfold ready. rewrite (tview_lookup _ _ _ _ _ Ht). unfold ready_of.
  unfold is_pending in Hp. by destruct (task_state tk).
Qed.

(** the routine needs only the lists it works on *)
Lemma wp_pend_task_end_run bs lo P (Q : unit -> kstate -> Prop) :
  rq_ok (ready T) rq -> task_ok tk -> blks_ok (waits T) P objs ->
  tick_ok lo (ticking T) (matchV T) (g_tick_count s) th -> is_Some (T !! g_active_task s) ->
  (forall rq', rq_ok (ready (<[t := woken bs tk]> T)) rq' ->
     Q tt (kput (<[t := woken bs tk]> T) (<[o := unlinked t ob]> objs) rq' (klist_del t th) s)) ->
  wp (pend_task_end bs t) Q (kput T objs rq th s).
Proof using Ht Hp Hb Ho.
  intros Hrq Hok Hblk Htick Ha HQ.
  assert (Hdone : forall st rq',
    st = awake_state (task_state tk) ->
    rq_ok (fupd (ready T) t (match task_state tk with K_PEND | K_SLEEP => Some (prio tk) | _ => None end)) rq' ->
    wp (tick_list_rm t;; upd_task t (set_blk_state bs);; upd_task t (set_blk_obj None)) Q
      (kput (<[t := set_task_state st tk]> T) (<[o := unlinked t ob]> objs) rq' th s)).
  { intros st rq' -> Hrq'. kstep. eapply wp_tick_list_rm with (lo := lo).
    - unfold ticking, matchV. rewrite !(tview_same _ _ T t tk) by done. exact Htick.
    - apply lookup_insert_eq.
    - rewrite insert_insert_eq. repeat kstep. apply HQ. rewrite (ready_awake T t tk) by (eauto). done. }
  unfold pend_task_end. do 3 kstep. pose proof Hp as Hp'. unfold is_pending in Hp'.
  destruct (task_state tk) eqn:Hst; try done.
  - kstep. eapply wp_klist_rm_task; [exact Hblk|apply woken_waits|done|].
    kstep. eapply wp_ready_list_add; [exact Hrq|done|done|apply woken_not_ready|apply Hok|].
    intros rq' Hrq'. kstep. apply Hdone; [done|]. exact Hrq'.
  - kstep. eapply wp_klist_rm_task; [exact Hblk|apply woken_waits|done|].
    kstep. apply Hdone; [done|]. rewrite fupd_id; [exact Hrq|]. apply woken_not_ready.
Qed.
End wake_run.

Section wake.
Context (T : gmap nat ktask) (objs : gmap nat kobj) (rq : runqueue_t) (th : list nat) (s : kstate).
Context (x : option nat) (lo : Z) (Hcore : core x T objs rq th lo (g_tick_count s)).
Context (t o : nat) (tk : ktask) (ob : kobj).
Context (Ht : T !! t = Some tk) (Hp : is_pending tk = true) (Hb : blk_obj tk = Some o).
Context (Ho : objs !! o = Some ob).

(** the lists of the kernel with the task taken out of its waiting list and of
    the tick list *)
Lemma unlink_core tk' rq' :
  task_ok tk' -> prio tk' = prio tk -> tick_match tk' = tick_match tk -> tick_head tk' = false ->
  is_pending tk' = false -> held_of tk' = held_of tk -> rq_ok (ready (<[t := tk']> T)) rq' ->
  core x (<[t := tk']> T) (<[o := unlinked t ob]> objs) rq' (klist_del t th) lo (g_tick_count s).
Proof.
  intros Hok Hpr Hm Hth Hpend Hh Hrq. destruct Hcore as [Hcrq Htask Hobj Hblk Htick Hmx Hmw].
  assert (HW : waits (<[t := tk']> T) ≐ fupd (waits T) t None).
  { unfold waits. rewrite tview_insert. unfold waits_of at 2. by rewrite Hpend. }
  assert (HP : prioV (<[t := tk']> T) ≐ prioV T) by (by eapply tview_same).
  assert (Hown : own x (<[o := unlinked t ob]> objs) ≐ own x objs) by (by eapply own_same).
  split.
  - done.
  - by apply map_Forall_insert_2.
  - apply map_Forall_insert_2; [|done]. specialize (Hobj _ _ Ho). unfold obj_ok in *. cbn.
    destruct (obj_type ob), (body ob); try done.
    all: destruct Hobj as [? Hc]; split; [done|]; intros Hz; by rewrite (Hc Hz).
  - rewrite HW, HP. apply blks_del; [done|by eapply woken_waits|done].
  - unfold ticking. rewrite tview_insert, Hth. unfold matchV.
    rewrite (tview_same tick_match 0 T t tk tk') by done. by apply tick_del.
  - rewrite Hown. unfold held. by rewrite (tview_same held_of [] T t tk tk').
  - rewrite HW. intros u m mb Hu Hmb Hty Hx. rewrite Hown. unfold fupd in Hu. case_decide; [done|].
    apply lookup_insert_Some in Hmb as [[<- <-]|[_ Hmb]]; eapply Hmw; eauto.
Qed.

Lemma woken_ok bs : task_ok tk -> task_ok (woken bs tk).
Proof.
  intros [? ? ? ? ? ? Hs]. unfold is_pending, is_sleeping, is_suspended in *.
  split; unfold is_pending, is_sleeping, is_suspended; cbn; destruct (task_state tk); try done; eauto.
Qed.

Lemma woken_core bs rq' :
  rq_ok (ready (<[t := woken bs tk]> T)) rq' ->
  core x (<[t := woken bs tk]> T) (<[o := unlinked t ob]> objs) rq' (klist_del t th) lo (g_tick_count s).
Proof using Hcore Ht Hp Hb Ho.
  intros Hrq'. pose proof (c_task _ _ _ _ _ _ _ Hcore _ _ Ht) as Hok. eapply unlink_core; try done.
  - by apply woken_ok.
  - unfold is_pending in Hp |- *. cbn. by destruct (task_state tk).
  - unfold is_pending in Hp. unfold held_of, is_live. cbn. by destruct (task_state tk).
Qed.

Lemma wp_pend_task_end bs (Q : unit -> kstate -> Prop) :
  is_Some (T !! g_active_task s) ->
  (forall rq', core x (<[t := woken bs tk]> T) (<[o := unlinked t ob]> objs) rq' (klist_del t th)
                 lo (g_tick_count s) ->
     Q tt (kput (<[t := woken bs tk]> T) (<[o := unlinked t ob]> objs) rq' (klist_del t th) s)) ->
  wp (pend_task_end bs t) Q (kput T objs rq th s).
Proof using Hcore Ht Hp Hb Ho.
  intros Ha HQ. eapply wp_pend_task_end_run; [exact Ht|exact Hp|exact Hb|exact Ho|apply Hcore|
    by apply (c_task _ _ _ _ _ _ _ Hcore t)|apply Hcore|apply Hcore|exact Ha|].
  intros rq' Hrq'. by apply HQ, woken_core.
Qed.
End wake.

(** ** Blocking *)

Definition blocked (o : nat) (now timeout : Z) (tk : ktask) : ktask :=
  set_task_state K_PEND
    (if timeout =? RHINO_WAIT_FOREVER then set_blk_obj (Some o) tk
     else ticked now timeout (set_blk_obj (Some o) tk)).

(** the task [t] may wait for the object *)
Definition can_wait (x : option nat) (t o : nat) (ob : kobj) : Prop :=
  (forall l, obj_ok (set_blk_list l ob)) /\
  (obj_type ob = RHINO_MUTEX_OBJ_TYPE -> x = Some o \/ exists u, mutex_owner ob = Some u /\ u <> t).

Section block.
Context (T : gmap nat ktask) (objs : gmap nat kobj) (rq : runqueue_t) (th : list nat) (s : kstate).
Context (x : option nat) (lo : Z) (Hcore : core x T objs rq th lo (g_tick_count s)).
Context (t o : nat) (tk : ktask) (ob : kobj).
Context (Ht : T !! t = Some tk) (Hr : task_state tk = K_RDY).
Context (Ho : objs !! o = Some ob) (Hw : can_wait x t o ob).

Lemma rdy_facts : task_ok tk -> tick_head tk = false /\ waits T t = None /\ ready T t = Some (prio tk).
Proof.
  intros Hok. split_and!.
  - destruct (tick_head tk) eqn:E; [|done]. destruct (tk_tick _ Hok E) as [H|H];
      unfold is_pending, is_sleeping in H; by rewrite Hr in H.
  - unfold waits. rewrite (tview_lookup _ _ _ _ _ Ht). unfold waits_of, is_pending. by rewrite Hr.
  - unfold ready. rewrite (tview_lookup _ _ _ _ _ Ht). unfold ready_of. by rewrite Hr.
Qed.

Lemma link_core tk' rq' th' l :
  task_ok tk' -> prio tk' = prio tk -> task_state tk' = K_PEND -> blk_obj tk' = Some o ->
  held_of tk' = held_of tk -> rq_ok (fupd (ready T) t None) rq' ->
  tick_ok lo (fupd (ticking T) t (tick_head tk')) (fupd (matchV T) t (tick_match tk')) (g_tick_count s) th' ->
  l = match blk_policy ob with
      | BLK_POLICY_FIFO => blk_list ob ++ [t]
      | BLK_POLICY_PRI => insert_before (fun u => prioV T t <? prioV T u) t (blk_list ob)
      end ->
  core x (<[t := tk']> T) (<[o := set_blk_list l ob]> objs) rq' th' lo (g_tick_count s).
Proof.
  intros Hok Hpr Hst Hbo Hh Hrq Htk ->. destruct Hcore as [Hcrq Htask Hobj Hblk Htick Hmx Hmw].
  destruct (rdy_facts (Htask _ _ Ht)) as (Hnt & Hnw & _).
  assert (HW : waits (<[t := tk']> T) ≐ fupd (waits T) t (Some o)).
  { unfold waits. rewrite tview_insert. unfold waits_of at 2, is_pending. by rewrite Hst, Hbo. }
  assert (HP : prioV (<[t := tk']> T) ≐ prioV T) by (by eapply tview_same).
  set (l := match blk_policy ob with BLK_POLICY_PRI => _ | _ => _ end).
  assert (Hown : own x (<[o := set_blk_list l ob]> objs) ≐ own x objs) by (by eapply own_same).
  split.
  - unfold ready. rewrite tview_insert. unfold ready_of at 2. by rewrite Hst.
  - by apply map_Forall_insert_2.
  - apply map_Forall_insert_2; [apply Hw|done].
  - rewrite HW, HP. subst l. destruct (blk_policy ob) eqn:Hpol.
    + by apply blks_add_pri.
    + by apply blks_add_fifo.
  - unfold ticking, matchV. by rewrite !tview_insert.
  - rewrite Hown. unfold held. by rewrite (tview_same held_of [] T t tk tk').
  - rewrite HW. intros u m mb Hu Hmb Hty Hx. rewrite Hown.
    apply lookup_insert_Some in Hmb as [[<- <-]|[Hne Hmb]].
    + destruct (decide (u = t)) as [->|Hut]; [|rewrite fupd_ne in Hu by done; by apply (Hmw u o ob)].
      destruct Hw as [_ [?|(v & Hv & Hvt)]]; [done|done|]. unfold own. rewrite decide_False, Ho by done. cbn.
      exists v. split; [unfold owner_of; cbn in Hty; by rewrite Hty|done].
    + rewrite fupd_ne in Hu; [by eapply Hmw|]. intros ->. rewrite fupd_eq in Hu. congruence.
Qed.

Lemma blocked_ok now timeout : task_ok tk -> task_ok (blocked o now timeout tk).
Proof.
  intros [? ? ? ? ? ? ?]. unfold blocked. case_match; split; cbn; try done; intros; try done; by left.
Qed.

Lemma wp_pend_to_blk_obj timeout u (Q : unit -> kstate -> Prop) :
  u <> t -> is_Some (ready T u) -> 0 < timeout < 2 ^ 64 -> lo <= timeout ->
  (forall rq' th' l,
     core x (<[t := blocked o (g_tick_count s) timeout tk]> T) (<[o := set_blk_list l ob]> objs)
       rq' th' lo (g_tick_count s) ->
     Q tt (kput (<[t := blocked o (g_tick_count s) timeout tk]> T) (<[o := set_blk_list l ob]> objs)
             rq' th' s)) ->
  wp (pend_to_blk_obj o t timeout) Q (kput T objs rq th s).
Proof.
  intros Hu [pu Hpu] Htime Hlo HQ. pose proof (c_task _ _ _ _ _ _ _ Hcore _ _ Ht) as Hok.
  destruct (rdy_facts Hok) as (Hnt & Hnw & Hrd).
  set (tk' := blocked o (g_tick_count s) timeout tk).
  assert (Hrest : forall th', tick_ok lo (fupd (ticking T) t (tick_head tk')) (fupd (matchV T) t (tick_match tk'))
                           (g_tick_count s) th' ->
    wp (ready_list_rm t;; ob ← get_obj o;
        match blk_policy ob with
        | BLK_POLICY_FIFO => upd_obj o (fun ob => set_blk_list (blk_list ob ++ [t]) ob)
        | BLK_POLICY_PRI => pend_list_add o t
        end) Q (kput (<[t := tk']> T) objs rq th' s)).
  { intros th' Hth'. kstep.
    assert (Hprio : prio tk' = prio tk) by (subst tk'; unfold blocked; by case_match).
    assert (Hview : prioV (<[t := tk']> T) ≐ prioV T) by (by eapply tview_same).
    eapply wp_ready_list_rm; [apply Hcore|apply lookup_insert_eq|by rewrite Hprio|exact Hu|exact Hpu|].
    intros rq' Hrq'. do 2 kstep.
    assert (Hc : forall l, l = match blk_policy ob with
                 | BLK_POLICY_FIFO => blk_list ob ++ [t]
                 | BLK_POLICY_PRI => insert_before (fun u => prioV T t <? prioV T u) t (blk_list ob)
                 end -> core x (<[t := tk']> T) (<[o := set_blk_list l ob]> objs) rq' th' lo (g_tick_count s)).
    { intros l Hl. eapply link_core; try done; subst tk'.
      - by apply blocked_ok.
      - unfold blocked. by destruct (timeout =? _).
      - unfold blocked, held_of, is_live. destruct (timeout =? _); cbn; by rewrite Hr. }
    destruct (blk_policy ob) eqn:Hpol.
    - eapply wp_pend_list_add; [apply lookup_insert_eq|done| |].
      + intros v Hv. destruct (waiting_listed _ _ _ _ _ _ (c_blk _ _ _ _ _ _ _ Hcore) Ho Hv) as (vk & Hvk & _).
        apply lookup_insert_is_Some'. by right.
      + apply HQ, Hc. apply insert_before_ext. intros v _. by rewrite !Hview.
    - repeat kstep. by apply HQ, Hc. }
  unfold pend_to_blk_obj. do 3 kstep. subst tk'. unfold blocked in *. destruct (timeout =? RHINO_WAIT_FOREVER).
  - do 3 kstep. apply Hrest. cbn. rewrite !fupd_id; [apply Hcore|..]; unfold ticking, matchV.
    + by apply (tview_lookup tick_match).
    + by rewrite (tview_lookup tick_head _ _ _ _ Ht).
  - eapply wp_tick_list_insert with (lo := lo); [|apply lookup_insert_eq|done|lia|].
    + unfold ticking, matchV. rewrite !(tview_same _ _ T t tk) by done. apply Hcore.
    + rewrite insert_insert_eq. do 2 kstep. apply Hrest. cbn. unfold tick_position.
      rewrite (insert_before_ext _ (fun u => timeout <? u64 (matchV T u - g_tick_count s))).
      * apply tick_add; [apply Hcore| |lia|lia]. unfold ticking. by rewrite (tview_lookup _ _ _ _ _ Ht).
      * intros v _. unfold matchV. by rewrite (tview_same tick_match 0 T t tk).
Qed.
End block.
