(* ===== verification/PriChange.v ===== *)
(** * Priority inheritance ([core/k_mutex.c], [task_pri_change] of [core/k_task.c])

    The owner of a mutex runs at the highest of its base priority and of the
    priorities of the tasks waiting for the mutexes it holds. *)

From S2P Require Import Prelude Config State Sched Inv Tick Pend.

(** ** The code *)

(** the priority of the first task of a waiting list, [pri] when it is empty *)
Definition first_blk_pri (tasks : gmap nat ktask) (ob : kobj) (pri : Z) : option Z :=
  match blk_list ob with
  | [] => Some pri
  | f :: _ => prio <$> tasks !! f
  end.

Fixpoint pri_limit_loop (tasks : gmap nat ktask) (objs : gmap nat kobj) (chain : list nat)
    (high_pri pri : Z) : option Z :=
  match chain with
  | [] => Some high_pri
  | m :: chain' =>
      ob ← objs !! m;
      pri ← first_blk_pri tasks ob pri;
      pri_limit_loop tasks objs chain' (if pri <? high_pri then pri else high_pri) pri
  end.

Definition mutex_pri_limit (t : nat) (pri : Z) : K Z :=
  tk ← get_task t;
  tasks ← gets g_tasks;
  objs ← gets g_objs;
  lift (pri_limit_loop tasks objs (mutex_list tk) pri pri).

(** the chain without [mutex_rel], and the priority *)
Fixpoint pri_look_loop (tasks : gmap nat ktask) (objs : gmap nat kobj) (mutex_rel : option nat)
    (chain : list nat) (new_pri pri : Z) : option (list nat * Z) :=
  match chain with
  | [] => Some ([], new_pri)
  | m :: chain' =>
      if bool_decide (Some m = mutex_rel) then
        (* delete itself from list and make task->mutex_list point to next *)
        pri_look_loop tasks objs mutex_rel chain' new_pri pri
      else
        ob ← objs !! m;
        pri ← first_blk_pri tasks ob pri;
        r ← pri_look_loop tasks objs mutex_rel chain' (if pri <? new_pri then pri else new_pri) pri;
        Some (m :: r.1, r.2)
  end.

Definition mutex_pri_look (t : nat) (mutex_rel : option nat) : K Z :=
  tk ← get_task t;
  tasks ← gets g_tasks;
  objs ← gets g_objs;
  r ← lift (pri_look_loop tasks objs mutex_rel (mutex_list tk) (b_prio tk) (b_prio tk));
  upd_task t (set_mutex_list r.1);;
  mret r.2.

(** the loop of [task_pri_change]: the task to change and the priority to give
    it; each turn may pass the change on to the owner of the mutex the task
    waits for *)
Fixpoint pri_change_loop (fuel : nat) (t : nat) (new_pri : Z) : K kstat_t :=
  match fuel with
  | O => undef
  | S n =>
      tk ← get_task t;
      if prio tk =? new_pri then mret RHINO_SUCCESS else
      match task_state tk with
      | K_RDY =>
          ready_list_rm t;;
          upd_task t (set_prio new_pri);;
          a ← gets g_active_task;
          (if bool_decide (t = a) then ready_list_add_head t else ready_list_add_tail t);;
          mret RHINO_SUCCESS
      | K_SLEEP | K_SUSPENDED | K_SLEEP_SUSPENDED =>
          upd_task t (set_prio new_pri);; mret RHINO_SUCCESS
      | K_PEND | K_PEND_SUSPENDED =>
          let old_pri := prio tk in
          upd_task t (set_prio new_pri);;
          pend_list_reorder t;;
          o ← lift (blk_obj tk);
          ob ← get_obj o;
          if bool_decide (obj_type ob = RHINO_MUTEX_OBJ_TYPE) then
            mutex_task ← lift (mutex_owner ob);
            mk ← get_task mutex_task;
            if new_pri <? prio mk then pri_change_loop n mutex_task new_pri
            else if prio mk =? old_pri then
              new_pri ← mutex_pri_look mutex_task None;
              if negb (new_pri =? prio mk) then pri_change_loop n mutex_task new_pri
              else mret RHINO_SUCCESS
            else mret RHINO_SUCCESS
          else mret RHINO_SUCCESS
      | K_SEED | K_DELETED => k_err_proc RHINO_INV_TASK_STATE
      end
  end.

(** each turn moves the sum of the priorities one way, and they are in
    [0 .. RHINO_CONFIG_PRI_MAX - 1] *)
Definition pri_change_fuel (s : kstate) : nat :=
  S (S (Z.to_nat RHINO_CONFIG_PRI_MAX * size (g_tasks s))).

Definition task_pri_change (t : nat) (new_pri : Z) : K kstat_t :=
  fuel ← gets pri_change_fuel; pri_change_loop fuel t new_pri.

Definition mutex_release (t : nat) (mutex_rel : option nat) : K unit :=
  new_pri ← mutex_pri_look t mutex_rel;
  tk ← get_task t;
  if negb (new_pri =? prio tk) then task_pri_change t new_pri;; mret tt else mret tt.

Definition mutex_task_pri_reset (t : nat) : K unit :=
  tk ← get_task t;
  o ← lift (blk_obj tk);
  ob ← get_obj o;
  if bool_decide (obj_type ob = RHINO_MUTEX_OBJ_TYPE) then
    mutex_task ← lift (mutex_owner ob);
    mk ← get_task mutex_task;
    if prio mk =? prio tk then mutex_release mutex_task None else mret tt
  else mret tt.

(** ** The highest waiting priority *)

Definition kept (rel : option nat) (chain : list nat) : list nat := filter (fun m => Some m <> rel) chain.

Lemma kept_None chain : kept None chain = chain.
Proof. induction chain as [|m chain IH]; [done|]. unfold kept. rewrite filter_cons_True by done. by f_equal. Qed.

Section look.
Context (T : gmap nat ktask) (objs : gmap nat kobj).
Context (Hblk : blks_ok (waits T) (prioV T) objs).

(** the first task of an ordered list has the highest priority *)
Lemma first_blk_pri_spec m ob pri :
  objs !! m = Some ob -> blk_policy ob = BLK_POLICY_PRI ->
  exists q, first_blk_pri T ob pri = Some q /\
    (forall u, waits T u = Some m -> q <= prioV T u) /\
    ((q = pri /\ forall u, waits T u <> Some m) \/ exists u, waits T u = Some m /\ q = prioV T u).
Proof.
  intros Hm Hpol. pose proof (fun u => bk_in _ _ _ Hblk _ _ u Hm) as Hin.
  pose proof (bk_sorted _ _ _ Hblk _ _ Hm Hpol) as Hs. unfold first_blk_pri.
  destruct (blk_list ob) as [|f l] eqn:E.
  - exists pri. split; [done|]. split.
    + intros u Hu. apply Hin, elem_of_nil in Hu. done.
    + left. split; [done|]. intros u Hu. apply Hin, elem_of_nil in Hu. done.
  - assert (Hf : waits T f = Some m) by (apply Hin; left).
    destruct (waits_inv _ _ _ Hf) as (fk & Hfk & _).
    assert (Hpf : prioV T f = prio fk) by (by apply (tview_lookup prio)).
    rewrite Hfk. exists (prio fk). split; [done|]. rewrite <- Hpf. split.
    + intros u Hu. apply Hin, elem_of_cons in Hu as [->|Hu]; [lia|].
      apply StronglySorted_inv in Hs as [_ Hs]. rewrite Forall_forall in Hs. by apply Hs.
    + right. by exists f.
Qed.

Lemma pri_look_loop_spec rel chain : forall np pri,
  np <= pri ->
  (forall m, m ∈ chain -> Some m <> rel -> exists ob, objs !! m = Some ob /\ blk_policy ob = BLK_POLICY_PRI) ->
  exists q, pri_look_loop T objs rel chain np pri = Some (kept rel chain, q) /\
    is_inh (waits T) (prioV T) q np (kept rel chain).
Proof.
  induction chain as [|m chain IH]; intros np pri Hle Hch; cbn -[kept first_blk_pri].
  - exists np. split; [done|apply is_inh_nil].
  - assert (Hch' : forall m, m ∈ chain -> Some m <> rel ->
              exists ob, objs !! m = Some ob /\ blk_policy ob = BLK_POLICY_PRI).
    { intros q Hq. apply Hch. by right. }
    unfold kept. destruct (decide (Some m = rel)) as [Heq|Hne].
    + rewrite bool_decide_true by done. rewrite filter_cons_False by auto. exact (IH np pri Hle Hch').
    + rewrite bool_decide_false, filter_cons_True by done.
      destruct (Hch m) as (ob & Hm & Hpol); [left|done|]. rewrite Hm. cbn -[kept first_blk_pri].
      destruct (first_blk_pri_spec m ob pri Hm Hpol) as (q & -> & Hq & Hor). cbn -[kept].
      destruct (IH (if q <? np then q else np) q) as (r & -> & Hr);
        [destruct (Z.ltb_spec q np); lia|done|].
      exists r. split; [done|]. destruct Hr as [Hb Hw Hr].
      assert (Hrq : r <= q) by (destruct (Z.ltb_spec q np); lia).
      split.
      * destruct (Z.ltb_spec q np); lia.
      * intros k u [->|Hk]%elem_of_cons Hu; [|by eapply Hw]. specialize (Hq _ Hu). lia.
      * destruct Hr as [->|(k & u & Hk & Hu & ->)].
        -- destruct (Z.ltb_spec q np) as [Hlt|]; [|by left].
           destruct Hor as [[-> _]|(u & Hu & ->)]; [lia|]. right. exists m, u. split_and!; [left|done..].
        -- right. exists k, u. split_and!; [by right|done..].
Qed.
End look.

Lemma pri_limit_look T objs chain : forall np pri,
  pri_limit_loop T objs chain np pri = snd <$> pri_look_loop T objs None chain np pri.
Proof.
  induction chain as [|m chain IH]; intros np pri; cbn -[first_blk_pri]; [done|].
  destruct (objs !! m) as [ob|]; [|done]. cbn -[first_blk_pri].
  destruct (first_blk_pri T ob pri) as [q|]; [|done]. cbn. rewrite IH.
  by destruct (pri_look_loop T objs None chain _ q) as [[? ?]|].
Qed.

(** ** What a change of priority leaves alone *)

(** two maps with the same keys and related values *)
Definition same_keys {A} (R : A -> A -> Prop) (m m' : gmap nat A) : Prop :=
  forall k, match m !! k, m' !! k with
            | Some a, Some b => R a b
            | None, None => True
            | _, _ => False
            end.

Section same_keys.
Context {A : Type} (R : A -> A -> Prop) `{!Reflexive R, !Transitive R}.

#[export] Instance same_keys_refl : Reflexive (same_keys R).
Proof using Type*. intros m k. by destruct (m !! k). Qed.

#[export] Instance same_keys_trans : Transitive (same_keys R).
Proof using Type*.
  intros m1 m2 m3 H1 H2 k. specialize (H1 k). specialize (H2 k).
  destruct (m1 !! k), (m2 !! k), (m3 !! k); try done. by etrans.
Qed.

Lemma same_keys_insert m k a b : m !! k = Some a -> R a b -> same_keys R m (<[k := b]> m).
Proof using Type*.
  intros Hk HR u. destruct (decide (u = k)) as [->|Hne].
  - by rewrite Hk, lookup_insert_eq.
  - rewrite lookup_insert_ne by done. by destruct (m !! u).
Qed.

Lemma same_keys_lookup m m' k a : same_keys R m m' -> m !! k = Some a -> exists b, m' !! k = Some b /\ R a b.
Proof using Type*.
  intros H Hk. specialize (H k). rewrite Hk in H. destruct (m' !! k) as [b|]; [by exists b|done].
Qed.

Lemma same_keys_lookup_r m m' k b : same_keys R m m' -> m' !! k = Some b -> exists a, m !! k = Some a /\ R a b.
Proof using Type*.
  intros H Hk. specialize (H k). rewrite Hk in H. destruct (m !! k) as [a|]; [by exists a|done].
Qed.
End same_keys.

(** the two tasks differ in their priorities, the two objects in their waiting
    lists *)
Definition but_prio (a b : ktask) : Prop := exists p, b = set_prio p a.
Definition but_list (a b : kobj) : Prop := exists l, b = set_blk_list l a.

#[export] Instance but_prio_refl : Reflexive but_prio.
Proof. intros a. exists (prio a). by destruct a. Qed.
#[export] Instance but_prio_trans : Transitive but_prio.
Proof. intros a b c [p ->] [q ->]. by exists q. Qed.
#[export] Instance but_list_refl : Reflexive but_list.
Proof. intros a. exists (blk_list a). by destruct a. Qed.
#[export] Instance but_list_trans : Transitive but_list.
Proof. intros a b c [p ->] [q ->]. by exists q. Qed.

Abbreviation prio_change := (same_keys but_prio).
Abbreviation relist := (same_keys but_list).

Lemma prio_change_set T t tk p : T !! t = Some tk -> prio_change T (<[t := set_prio p tk]> T).
Proof. intros Ht. eapply same_keys_insert; [apply _|apply _|exact Ht|by exists p]. Qed.

Lemma relist_set objs o ob l : objs !! o = Some ob -> relist objs (<[o := set_blk_list l ob]> objs).
Proof. intros Ho. eapply same_keys_insert; [apply _|apply _|exact Ho|by exists l]. Qed.

Lemma prio_change_view {A} (f : ktask -> A) d T T' :
  (forall p tk, f (set_prio p tk) = f tk) -> prio_change T T' -> tview f d T' ≐ tview f d T.
Proof.
  intros Hf H u. unfold tview. specialize (H u).
  destruct (T !! u), (T' !! u); try done. destruct H as [p ->]. cbn. apply Hf.
Qed.

(** ** The sum of the priorities *)

Definition psum (T : gmap nat ktask) : nat := map_fold (fun _ tk acc => (Z.to_nat (prio tk) + acc)%nat) 0%nat T.

Lemma psum_insert T t tk tk' :
  T !! t = Some tk -> (psum (<[t := tk']> T) + Z.to_nat (prio tk) = psum T + Z.to_nat (prio tk'))%nat.
Proof.
  intros Ht. unfold psum.
  rewrite (map_fold_delete_L _ _ t tk T); [|intros; lia|done].
  rewrite (map_fold_delete_L _ _ t tk' (<[t := tk']> T)); [|intros; lia|apply lookup_insert_eq].
  rewrite delete_insert_eq. lia.
Qed.

Lemma psum_bound T : map_Forall (fun _ => task_ok) T -> (psum T <= 61 * size T)%nat.
Proof.
  intros H. induction T as [|t tk T Ht IH] using map_ind; [done|].
  apply map_Forall_insert in H as [Hok H]; [|done]. specialize (IH H).
  unfold psum in *. rewrite map_fold_insert_L; [|intros; lia|done].
  rewrite map_size_insert_None by done. destruct (tk_prio _ Hok). unfold RHINO_CONFIG_PRI_MAX in *. lia.
Qed.

(** ** One task gets another priority *)

Section set_prio.
Context (T : gmap nat ktask) (objs : gmap nat kobj) (rq : runqueue_t) (th : list nat) (s : kstate).
Context (x : option nat) (lo : Z) (Hcore : core x T objs rq th lo (g_tick_count s)).
Context (t : nat) (tk : ktask) (np : Z).
Context (Ht : T !! t = Some tk) (Hnp : 0 <= np < RHINO_CONFIG_PRI_MAX).
Local Abbreviation T1 := (<[t := set_prio np tk]> T).

Lemma set_prio_same {A} (f : ktask -> A) d : (forall p tk, f (set_prio p tk) = f tk) -> tview f d T1 ≐ tview f d T.
Proof. intros Hf. by eapply tview_same. Qed.

Lemma set_prio_prioV : prioV T1 ≐ fupd (prioV T) t np.
Proof. unfold prioV. by rewrite tview_insert. Qed.

Lemma set_prio_ok : task_ok (set_prio np tk).
Proof. destruct (c_task _ _ _ _ _ _ _ Hcore _ _ Ht). by split. Qed.

(** the lists follow *)
Lemma set_prio_core objs1 rq1 :
  rq_ok (ready T1) rq1 -> blks_ok (waits T1) (prioV T1) objs1 -> relist objs objs1 ->
  map_Forall (fun _ => obj_ok) objs1 -> core x T1 objs1 rq1 th lo (g_tick_count s).
Proof.
  intros Hrq Hblk Hre Hobj. destruct Hcore as [? Htask ? ? Htick Hmx Hmw].
  assert (Hown : own x objs1 ≐ own x objs).
  { intros m. unfold own. case_decide; [done|]. specialize (Hre m).
    destruct (objs !! m), (objs1 !! m); try done. by destruct Hre as [l ->]. }
  split; try done.
  - apply map_Forall_insert_2; [apply set_prio_ok|done].
  - unfold ticking, matchV. by rewrite !set_prio_same.
  - rewrite Hown. unfold held. by rewrite set_prio_same.
  - unfold waits. rewrite set_prio_same by done. intros u m mb Hu Hm Hty Hx. rewrite Hown.
    destruct (same_keys_lookup_r _ _ _ _ _ Hre Hm) as (ob & Hob & l & ->). by eapply Hmw.
Qed.

Lemma wp_pend_list_reorder o ob (Q : unit -> kstate -> Prop) :
  is_pending tk = true -> blk_obj tk = Some o -> objs !! o = Some ob ->
  (forall l, core x T1 (<[o := set_blk_list l ob]> objs) rq th lo (g_tick_count s) ->
     Q tt (kput T1 (<[o := set_blk_list l ob]> objs) rq th s)) ->
  wp (pend_list_reorder t) Q (kput T1 objs rq th s).
Proof.
  intros Hp Hb Ho HQ. pose proof (c_blk _ _ _ _ _ _ _ Hcore) as Hblk.
  assert (Hw : waits T t = Some o) by (by eapply woken_waits).
  assert (HW : waits T1 ≐ waits T) by (by apply set_prio_same).
  assert (Hrdy : ready T1 ≐ ready T).
  { eapply tview_same; [done|]. unfold ready_of. unfold is_pending in Hp. cbn. by destruct (task_state tk). }
  assert (Hc : forall l, blks_ok (waits T1) (prioV T1) (<[o := set_blk_list l ob]> objs) ->
    (forall u, u ∈ l <-> u ∈ blk_list ob) ->
    core x T1 (<[o := set_blk_list l ob]> objs) rq th lo (g_tick_count s)).
  { intros l Hl Hin. apply set_prio_core; [rewrite Hrdy; apply Hcore|done|by apply relist_set|].
    apply map_Forall_insert_2; [|apply Hcore].
    assert (Hnil : blk_list ob = [] -> l = []).
    { intros E. rewrite E in Hin. destruct l as [|u l]; [done|]. assert (Hu : u ∈ []) by (apply Hin; left). by apply elem_of_nil in Hu. }
    pose proof (c_obj _ _ _ _ _ _ _ Hcore _ _ Ho) as Hob. unfold obj_ok in *. cbn.
    destruct (obj_type ob), (body ob); try done.
    all: destruct Hob as [? Hz]; split; [done|]; auto. }
  unfold pend_list_reorder. do 3 kstep. cbn [blk_obj set_prio]. rewrite Hb. repeat kstep.
  destruct (blk_policy ob) eqn:Hpol.
  - kstep. eapply wp_klist_rm_task; [exact Hblk|exact Hw|exact Ho|].
    assert (Hdel := blks_del _ _ _ _ _ _ Hblk Hw Ho).
    eapply wp_pend_list_add; [apply lookup_insert_eq|apply lookup_insert_eq| |].
    + intros u [_ Hu]%elem_of_klist_del. destruct (waiting_listed _ _ _ _ _ _ Hblk Ho Hu) as (uk & Huk & _).
      apply lookup_insert_is_Some'. by right.
    + rewrite insert_insert_eq. cbn [blk_list set_blk_list].
      change (set_blk_list ?l (set_blk_list _ ob)) with (set_blk_list l ob).
      apply HQ, Hc.
      * assert (Hadd := blks_add_pri (fupd (waits T) t None) (prioV T1)
          (<[o := set_blk_list (klist_del t (blk_list ob)) ob]> objs) t o
          (set_blk_list (klist_del t (blk_list ob)) ob)).
        rewrite insert_insert_eq in Hadd. cbn [blk_list set_blk_list] in Hadd.
        assert (Hfin : waits T1 ≐ fupd (fupd (waits T) t None) t (Some o)).
        { rewrite HW, fupd_fupd. symmetry. by apply fupd_id. }
        rewrite Hfin. apply Hadd; [|by rewrite fupd_eq|apply lookup_insert_eq|done].
        rewrite set_prio_prioV. apply blks_prio; [done|]. intros q qb Hq. by rewrite fupd_eq in Hq.
      * intros u. rewrite elem_of_insert_before, elem_of_klist_del.
        pose proof (bk_in _ _ _ Hblk _ _ t Ho) as Hin. destruct (decide (u = t)) as [->|]; [|naive_solver].
        split; [|by left]. intros _. by apply Hin.
  - kstep. specialize (HQ (blk_list ob)). specialize (Hc (blk_list ob)).
    assert (Hid : <[o := set_blk_list (blk_list ob) ob]> objs = objs).
    { apply insert_id. rewrite Ho. by destruct ob. }
    rewrite Hid in HQ, Hc. apply HQ, Hc; [|done].
    rewrite HW, set_prio_prioV. apply blks_prio; [done|]. intros q qb Hq Hqb.
    rewrite Hw in Hq. simplify_eq. congruence.
Qed.
End set_prio.

(** ** [mutex_pri_look] *)

(** a mutex in a chain *)
Lemma held_mutex x T objs rq th lo now t m :
  core x T objs rq th lo now -> m ∈ held T t ->
  x <> Some m /\ exists ob, objs !! m = Some ob /\ obj_type ob = RHINO_MUTEX_OBJ_TYPE /\
    mutex_owner ob = Some t /\ blk_policy ob = BLK_POLICY_PRI.
Proof.
  intros Hc Hm. apply (mx_in _ _ (c_mutex _ _ _ _ _ _ _ Hc)) in Hm. unfold own in Hm.
  case_decide as Hx; [done|]. split; [done|]. destruct (objs !! m) as [ob|] eqn:Ho; [|done]. cbn in Hm.
  unfold owner_of in Hm. exists ob. destruct (obj_type ob) eqn:Hty; try done. split_and!; [done..|].
  pose proof (c_obj _ _ _ _ _ _ _ Hc _ _ Ho) as Hob. unfold obj_ok in Hob. rewrite Hty in Hob.
  destruct (body ob); try done. apply Hob.
Qed.

Lemma held_live T t m : m ∈ held T t ->
  exists tk, T !! t = Some tk /\ is_live tk = true /\ live T t = true /\ held T t = mutex_list tk.
Proof.
  unfold held, live, tview. destruct (T !! t) as [tk|]; [|by intros ?%elem_of_nil]. cbn. unfold held_of.
  destruct (is_live tk) eqn:Hl; [|by intros ?%elem_of_nil]. by exists tk.
Qed.

Lemma live_inv T t : live T t = true ->
  exists tk, T !! t = Some tk /\ is_live tk = true /\ held T t = mutex_list tk.
Proof.
  unfold live, held, tview. destruct (T !! t) as [tk|]; [|done]. cbn. intros Hl. exists tk.
  unfold held_of. by rewrite Hl.
Qed.

(** the state is described with the released mutex already out of the chain *)
Lemma wp_mutex_pri_look T objs rq th s x lo t tk rel (Q : Z -> kstate -> Prop) :
  let T1 := <[t := set_mutex_list (kept rel (mutex_list tk)) tk]> T in
  core x T1 objs rq th lo (g_tick_count s) -> T !! t = Some tk -> is_live tk = true ->
  (forall q, is_inh (waits T1) (prioV T1) q (b_prio tk) (held T1 t) -> Q q (kput T1 objs rq th s)) ->
  wp (mutex_pri_look t rel) Q (kput T objs rq th s).
Proof.
  intros T1 Hcore Ht Hl HQ. unfold mutex_pri_look. repeat kstep.
  assert (HW : waits T1 ≐ waits T) by (by eapply tview_same).
  assert (HP : prioV T1 ≐ prioV T) by (by eapply tview_same).
  assert (HT1 : held T1 t = kept rel (mutex_list tk)).
  { unfold held. rewrite (tview_lookup _ _ T1 t _ (lookup_insert_eq _ _ _)). unfold held_of, is_live in *.
    cbn. by rewrite Hl. }
  pose proof (c_blk _ _ _ _ _ _ _ Hcore) as Hblk. rewrite HW, HP in Hblk.
  destruct (pri_look_loop_spec T objs Hblk rel (mutex_list tk) (b_prio tk) (b_prio tk)) as (q & -> & Hq);
    [lia| |].
  - intros m Hm Hrel. destruct (held_mutex _ _ _ _ _ _ _ t m Hcore) as (_ & ob & Ho & _ & _ & Hp).
    + rewrite HT1. unfold kept. by apply list_elem_of_filter.
    + by exists ob.
  - repeat kstep. apply HQ. rewrite HT1. cbn.
    destruct Hq as [Hb Hw Hr]. split; [done| |].
    + intros m u Hm Hu. rewrite HP. rewrite HW in Hu. eauto.
    + destruct Hr as [?|(m & u & Hm & Hu & ->)]; [by left|]. right. exists m, u. by rewrite HW, HP.
Qed.

Lemma wp_mutex_pri_look_None T objs rq th s x lo t tk (Q : Z -> kstate -> Prop) :
  core x T objs rq th lo (g_tick_count s) -> T !! t = Some tk -> is_live tk = true ->
  (forall q, is_inh (waits T) (prioV T) q (b_prio tk) (held T t) -> Q q (kput T objs rq th s)) ->
  wp (mutex_pri_look t None) Q (kput T objs rq th s).
Proof.
  intros Hcore Ht Hl HQ.
  assert (Hid : <[t := set_mutex_list (kept None (mutex_list tk)) tk]> T = T).
  { apply insert_id. rewrite Ht, kept_None. by destruct tk. }
  eapply wp_mutex_pri_look; rewrite ?Hid; eauto.
Qed.

Lemma prioV_nonneg T u : map_Forall (fun _ => task_ok) T -> 0 <= prioV T u < RHINO_CONFIG_PRI_MAX.
Proof.
  intros H. unfold prioV, tview. destruct (T !! u) as [uk|] eqn:Hu; [|cbn; unfold RHINO_CONFIG_PRI_MAX; lia].
  by apply (H _ _ Hu).
Qed.

Lemma is_inh_range T p b ms W :
  map_Forall (fun _ => task_ok) T -> 0 <= b < RHINO_CONFIG_PRI_MAX -> is_inh W (prioV T) p b ms ->
  0 <= p < RHINO_CONFIG_PRI_MAX.
Proof.
  intros HT Hb [Hle _ [->|(m & u & _ & _ & ->)]]; [done|]. by apply prioV_nonneg.
Qed.

(** ** The loop of [task_pri_change] *)

Section change.
Context (th : list nat) (s : kstate) (x : option nat) (lo : Z).
(** a task that stays ready and holds no mutex: the idle task *)
Context (i : nat).
(** who waits for what; the routine may run before the caller itself starts to
    wait *)
Context (W : nat -> option nat).
Abbreviation coreT T objs rq := (core x T objs rq th lo (g_tick_count s)).
Abbreviation piT D T := (pi_ok D (live T) (bprioV T) (held T) W (prioV T)).

Record change_pre (T : gmap nat ktask) (t : nat) (np : Z) : Prop := {
  cp_pi : piT (fupd (prioV T) t np) T;
  cp_sub : forall u m, waits T u = Some m -> W u = Some m;
  cp_virt : forall u m, W u = Some m -> waits T u = Some m \/ prioV T u = np;
  cp_x : x = None \/ is_Some (ready T t);
  cp_live : live T t = true;
  cp_np : 0 <= np < RHINO_CONFIG_PRI_MAX;
  cp_idle : t <> i /\ held T i = [] /\ is_Some (ready T i)
}.

Definition change_measure (T : gmap nat ktask) (t : nat) (np : Z) (fuel : nat) : Prop :=
  (np < prioV T t /\ (psum T < fuel)%nat) \/
  (prioV T t <= np /\ W ≐ waits T /\ (61 * size T - psum T < fuel)%nat).

(** the views after one step *)
Lemma change_step T objs rq t tk np :
  coreT T objs rq -> change_pre T t np -> T !! t = Some tk -> prio tk <> np ->
  let T1 := <[t := set_prio np tk]> T in
  forall o q, (forall u m, live T u = true -> m ∈ held T u -> W t = Some m -> u = o) ->
    (live T1 o = true -> is_inh W (prioV T1) q (bprioV T1 o) (held T1 o)) ->
    piT (fupd (prioV T1) o q) T1.
Proof.
  intros Hc Hp Ht Hne T1 o q Huniq Ho.
  assert (HP : prioV T1 ≐ fupd (prioV T) t np) by apply set_prio_prioV.
  assert (HL : live T1 ≐ live T) by (by apply set_prio_same).
  assert (HB : bprioV T1 ≐ bprioV T) by (by apply set_prio_same).
  assert (HH : held T1 ≐ held T) by (by apply set_prio_same).
  rewrite HL, HB, HH, HP. rewrite HL, HB, HH, HP in Ho.
  eapply pi_step; eauto. apply Hp.
Qed.

Definition change_post (T : gmap nat ktask) (objs : gmap nat kobj) (Q : kstate -> Prop) : Prop :=
  forall T' objs' rq', coreT T' objs' rq' -> prio_change T T' -> relist objs objs' ->
    piT (prioV T') T' -> Q (kput T' objs' rq' th s).

Lemma change_post_step T objs t tk np objs1 Q :
  T !! t = Some tk -> relist objs objs1 -> change_post T objs Q ->
  change_post (<[t := set_prio np tk]> T) objs1 Q.
Proof.
  intros Ht Hre HQ T' objs' rq' Hc HT Ho Hpi. apply HQ; [done| | |done].
  - etrans; [by apply prio_change_set|done].
  - by etrans.
Qed.

(** the task is not blocked: it is the last of the chain *)
Lemma change_last T objs rq t tk np rq1 Q :
  coreT T objs rq -> change_pre T t np -> T !! t = Some tk -> prio tk <> np -> is_pending tk = false ->
  change_post T objs Q -> rq_ok (ready (<[t := set_prio np tk]> T)) rq1 ->
  Q (kput (<[t := set_prio np tk]> T) objs rq1 th s).
Proof.
  intros Hc Hp Ht Hne Hnp HQ Hrq.
  assert (Hw : waits T t = None).
  { unfold waits. rewrite (tview_lookup _ _ _ _ _ Ht). unfold waits_of. by rewrite Hnp. }
  assert (HP := set_prio_prioV T t tk np).
  apply HQ; [|by apply prio_change_set|done|].
  - eapply set_prio_core; try done; [apply Hp| |apply Hc].
    unfold waits. rewrite set_prio_same by done. rewrite HP.
    apply blks_prio; [apply Hc|]. intros o ob Ho. unfold waits in Hw; congruence.
  - assert (Hnow : W t = None).
    { destruct (W t) as [m|] eqn:E; [|done]. destruct (cp_virt _ _ _ Hp _ _ E) as [H|H]; [congruence|].
      unfold prioV in H. rewrite (tview_lookup _ _ _ _ _ Ht) in H. done. }
    apply (pi_hole_id _ _ _ _ _ i).
    apply (change_step T objs rq t tk np Hc Hp Ht Hne); [congruence|]. intros Hl.
    rewrite (HP i), HP.
    assert (HL := set_prio_same T t tk np Ht is_live false (fun _ _ => eq_refl)).
    assert (HB := set_prio_same T t tk np Ht b_prio 0 (fun _ _ => eq_refl)).
    assert (HH := set_prio_same T t tk np Ht held_of [] (fun _ _ => eq_refl)).
    unfold live, bprioV, held in *. rewrite HB, HH. rewrite HL in Hl.
    eapply inh_others; [apply Hp|exact Hl|congruence].
Qed.

(** what is known of the owner of the mutex a task waits for *)
Lemma change_owner T objs rq t tk o ob :
  coreT T objs rq -> (x = None \/ is_Some (ready T t)) -> T !! t = Some tk -> is_pending tk = true ->
  blk_obj tk = Some o -> objs !! o = Some ob -> obj_type ob = RHINO_MUTEX_OBJ_TYPE ->
  x = None /\ exists mt, mutex_owner ob = Some mt /\ o ∈ held T mt /\
    forall u, o ∈ held T u -> u = mt.
Proof.
  intros Hc Hx Ht Hp Hb Ho Hty.
  assert (Hxn : x = None).
  { destruct Hx as [?|[q Hq]]; [done|]. rewrite (woken_not_ready T t tk Ht Hp) in Hq. done. }
  split; [done|]. assert (Hw := woken_waits T t o tk Ht Hp Hb).
  destruct (c_mwait _ _ _ _ _ _ _ Hc _ _ _ Hw Ho Hty) as (mt & Hmt & _); [by rewrite Hxn|].
  unfold own in Hmt. rewrite Ho, decide_False in Hmt by congruence. cbn in Hmt. unfold owner_of in Hmt. rewrite Hty in Hmt.
  exists mt. split; [done|].
  assert (Hin : forall u, o ∈ held T u <-> Some mt = Some u).
  { intros u. rewrite (mx_in _ _ (c_mutex _ _ _ _ _ _ _ Hc)). unfold own. rewrite Hxn, decide_False by done.
    rewrite Ho. cbn. unfold owner_of. by rewrite Hty, Hmt. }
  split; [by apply Hin|]. intros u Hu. apply Hin in Hu. congruence.
Qed.

(** the next task of the chain *)
Lemma change_next T objs rq t tk np mt q :
  coreT T objs rq -> change_pre T t np -> T !! t = Some tk -> prio tk <> np -> x = None ->
  (exists m, m ∈ held T mt /\ forall u, live T u = true -> forall m', m' ∈ held T u -> W t = Some m' -> u = mt) ->
  let T1 := <[t := set_prio np tk]> T in
  (q = np \/ W ≐ waits T) -> is_inh W (prioV T1) q (bprioV T1 mt) (held T1 mt) ->
  change_pre T1 mt q.
Proof.
  intros Hc Hp Ht Hne Hx (m & Hm & Huniq) T1 Hq Hinh.
  assert (HW : waits T1 ≐ waits T) by (by apply set_prio_same).
  assert (HL : live T1 ≐ live T) by (by apply set_prio_same).
  assert (HB : bprioV T1 ≐ bprioV T) by (by apply set_prio_same).
  assert (HH : held T1 ≐ held T) by (by apply set_prio_same).
  assert (HP := set_prio_prioV T t tk np). fold T1 in HP.
  destruct (held_live _ _ _ Hm) as (mk & Hmk & Hml & Hmlive & _).
  assert (Htasks : map_Forall (fun _ => task_ok) T1).
  { apply map_Forall_insert_2; [by eapply set_prio_ok; [|done|apply Hp]|apply Hc]. }
  split.
  - by eapply change_step; eauto.
  - intros u k Hu. rewrite HW in Hu. by eapply cp_sub.
  - intros u k Hu. rewrite (HW u), (HP u). destruct Hq as [->|Hq]; [|left; by rewrite <- Hq].
    destruct (cp_virt _ _ _ Hp _ _ Hu) as [?|Hpu]; [by left|right].
    unfold fupd. by case_decide.
  - by left.
  - by rewrite HL.
  - eapply is_inh_range; [done| |done]. rewrite (HB mt). unfold bprioV. rewrite (tview_lookup _ _ _ _ _ Hmk).
    apply (c_task _ _ _ _ _ _ _ Hc _ _ Hmk).
  - destruct (cp_idle _ _ _ Hp) as (Hti & Hheld & Hrdy). split_and!.
    + intros ->. rewrite Hheld in Hm. by apply elem_of_nil in Hm.
    + by rewrite HH.
    + unfold ready, T1. rewrite (tview_insert _ _ _ _ _ i), fupd_ne by done. done.
Qed.

(** a step decreases the measure *)
Lemma change_measure_step T t tk np mt q n :
  map_Forall (fun _ => task_ok) (<[t := set_prio np tk]> T) -> T !! t = Some tk ->
  0 <= np < RHINO_CONFIG_PRI_MAX -> prio tk <> np ->
  let T1 := <[t := set_prio np tk]> T in
  change_measure T t np (S n) ->
  (np < prio tk -> q = np /\ np < prioV T1 mt) ->
  (prio tk < np -> prioV T1 mt <= q) ->
  0 <= prio tk < RHINO_CONFIG_PRI_MAX ->
  change_measure T1 mt q n.
Proof.
  intros Hok Ht Hnp Hne T1 Hm Hraise Hlower Hold.
  assert (Hsum := psum_insert T t tk (set_prio np tk) Ht). cbn in Hsum. fold T1 in Hsum.
  assert (Hsize : size T1 = size T) by (by apply map_size_insert_Some).
  assert (Hbound := psum_bound T1 Hok).
  assert (HW : waits T1 ≐ waits T) by (by apply set_prio_same).
  unfold change_measure in *. unfold prioV at 1 2 in Hm. rewrite (tview_lookup _ _ _ _ _ Ht) in Hm.
  destruct Hm as [[Hlt Hf]|(Hle & Hww & Hf)].
  - left. destruct (Hraise Hlt) as [-> Hlt']. split; [done|]. lia.
  - right. split; [apply Hlower; lia|]. split; [by rewrite HW|]. rewrite Hsize. lia.
Qed.

Lemma change_measure_pos T t np fuel : change_measure T t np fuel -> exists n, fuel = S n.
Proof. intros [[_ H]|(_ & _ & H)]; destruct fuel; try lia; eauto. Qed.

Section blocked.
Context (n : nat) (Q : kstat_t -> kstate -> Prop).
Context (IH : forall T objs rq t np,
  coreT T objs rq -> change_pre T t np -> change_measure T t np n ->
  change_post T objs (Q RHINO_SUCCESS) -> wp (pri_change_loop n t np) Q (kput T objs rq th s)).

(** after the waiting list was put in order again *)
Lemma change_blocked T objs rq t tk np o ob l :
  coreT T objs rq -> change_pre T t np -> change_measure T t np (S n) ->
  change_post T objs (Q RHINO_SUCCESS) -> T !! t = Some tk -> prio tk <> np ->
  is_pending tk = true -> blk_obj tk = Some o -> objs !! o = Some ob ->
  let T1 := <[t := set_prio np tk]> T in
  let objs1 := <[o := set_blk_list l ob]> objs in
  coreT T1 objs1 rq ->
  wp (if bool_decide (obj_type ob = RHINO_MUTEX_OBJ_TYPE) then
        mutex_task ← lift (mutex_owner ob);
        mk ← get_task mutex_task;
        if np <? prio mk then pri_change_loop n mutex_task np
        else if prio mk =? prio tk then
          new_pri ← mutex_pri_look mutex_task None;
          if negb (new_pri =? prio mk) then pri_change_loop n mutex_task new_pri
          else mret RHINO_SUCCESS
        else mret RHINO_SUCCESS
      else mret RHINO_SUCCESS) Q (kput T1 objs1 rq th s).
Proof.
  intros Hc Hp Hm HQ Ht Hne Hpend Hb Ho T1 objs1 Hc1.
  assert (Hw : waits T t = Some o) by (by eapply woken_waits).
  assert (HWt : W t = Some o) by (by eapply cp_sub).
  assert (HP := set_prio_prioV T t tk np). fold T1 in HP.
  assert (HQ1 : change_post T1 objs1 (Q RHINO_SUCCESS)).
  { apply change_post_step with (objs := objs); [done|by apply relist_set|done]. }
  assert (HPt : prioV T t = prio tk) by (by apply (tview_lookup prio)).
  case_bool_decide as Hty.
  2: { kstep. apply HQ1 with (objs' := objs1); [done..|]. apply (pi_hole_id _ _ _ _ _ i).
       assert (Hno : forall u m, m ∈ held T u -> W t <> Some m).
       { intros u m Hu E. destruct (held_mutex _ _ _ _ _ _ _ _ _ Hc Hu) as (_ & mb & Hmb & Hmty & _).
         congruence. }
       apply (change_step T objs rq t tk np Hc Hp Ht Hne); [intros u m _ Hu E; by destruct (Hno u m Hu)|].
       fold T1. intros Hl. rewrite (HP i), HP.
       assert (HL := set_prio_same T t tk np Ht is_live false (fun _ _ => eq_refl)).
       assert (HB := set_prio_same T t tk np Ht b_prio 0 (fun _ _ => eq_refl)).
       assert (HH := set_prio_same T t tk np Ht held_of [] (fun _ _ => eq_refl)).
       fold T1 in HL, HB, HH. unfold live, bprioV, held in *. rewrite (HB i), (HH i). rewrite (HL i) in Hl.
       eapply inh_others; [apply Hp|exact Hl|]. intros m. apply Hno. }
  destruct (change_owner T objs rq t tk o ob Hc (cp_x _ _ _ Hp) Ht Hpend Hb Ho Hty)
    as (Hx & mt & Hmt & Hheld & Huniq).
  rewrite Hmt. do 2 kstep.
  destruct (held_live _ _ _ Hheld) as (mk0 & Hmk0 & Hml & Hlmt & _).
  assert (exists mk, T1 !! mt = Some mk /\ is_live mk = true /\ b_prio mk = b_prio mk0) as (mk & Hmk & Hmkl & Hmkb).
  { unfold T1. destruct (decide (mt = t)) as [->|Hd].
    - rewrite lookup_insert_eq. eexists; split; [done|]. by simplify_eq.
    - rewrite lookup_insert_ne by done. by exists mk0. }
  do 2 kstep.
  assert (HPmk : prioV T1 mt = prio mk) by (by apply (tview_lookup prio)).
  assert (HPmt : prio mk = fupd (prioV T) t np mt) by (rewrite <- HPmk; apply HP).
  assert (HLmt : live T1 mt = true).
  { unfold live. by rewrite (tview_lookup _ _ _ _ _ Hmk). }
  assert (HB : bprioV T1 mt = bprioV T mt) by (by apply (set_prio_same T t tk np Ht b_prio 0)).
  assert (HH : held T1 mt = held T mt) by (by apply (set_prio_same T t tk np Ht held_of [])).
  assert (Hold : 0 <= prio tk < RHINO_CONFIG_PRI_MAX) by apply (c_task _ _ _ _ _ _ _ Hc _ _ Ht).
  assert (Hmode : np < prio tk \/ (prio tk < np /\ W ≐ waits T)).
  { destruct Hm as [[? _]|(? & ? & _)]; rewrite HPt in *; [by left|right]. split; [lia|done]. }
  assert (Hwait : fupd (prioV T) t np mt <= np \/ np < prio tk).
  { destruct Hmode as [?|[Hlt _]]; [by right|left]. unfold fupd. case_decide; [lia|].
    pose proof (in_wait _ _ _ _ _ (cp_pi _ _ _ Hp mt Hlmt) o t Hheld HWt) as Hle.
    rewrite fupd_ne in Hle by done. lia. }
  assert (Hex : exists m, m ∈ held T mt /\
    forall u, live T u = true -> forall m', m' ∈ held T u -> W t = Some m' -> u = mt).
  { exists o. split; [done|]. intros u _ m' Hu E. apply Huniq. congruence. }
  assert (Hstop : is_inh W (prioV T1) (prio mk) (bprioV T1 mt) (held T1 mt) -> Q RHINO_SUCCESS (kput T1 objs1 rq th s)).
  { intros Hinh. apply HQ1 with (objs' := objs1); [done..|]. apply (pi_hole_id _ _ _ _ _ mt). rewrite HPmk.
    apply (change_step T objs rq t tk np Hc Hp Ht Hne); [|done]. intros u m _ Hu E. apply Huniq. congruence. }
  destruct (Z.ltb_spec np (prio mk)) as [Hlt|Hge].
  - apply IH; [done| | |done].
    + eapply change_next; eauto. fold T1. rewrite HB, HH, HP.
      eapply inh_raise_go; [apply Hp|done..|]. lia.
    + eapply change_measure_step; eauto; [apply Hc1|apply Hp|fold T1; rewrite HPmk; lia|fold T1; rewrite HPmk; lia].
  - destruct (Z.eqb_spec (prio mk) (prio tk)) as [Heq|Hne'].
    + kstep. eapply wp_mutex_pri_look_None; [exact Hc1|exact Hmk|done|]. intros q Hq.
      assert (Hlow : prio tk < np /\ W ≐ waits T) by (destruct Hmode as [?|?]; [lia|done]).
      destruct Hlow as [Hlow HWw].
      assert (HW1 : W ≐ waits T1).
      { rewrite HWw. symmetry. by apply set_prio_same. }
      rewrite <- HW1 in Hq. replace (b_prio mk) with (bprioV T1 mt) in Hq
        by (by apply (tview_lookup b_prio)).
      destruct (Z.eqb_spec q (prio mk)) as [->|Hd]; cbn [negb].
      * kstep. by apply Hstop.
      * apply IH; [done| | |done].
        -- eapply change_next; eauto.
        -- assert (prioV T1 mt <= q); [|eapply change_measure_step; eauto; [apply Hc1|apply Hp|lia]].
           rewrite HPmk, HPmt. eapply inh_lower_mono; [apply Hp|lia|exact Hlmt|lia|].
           rewrite HB, HH, HP in Hq. done.
    + kstep. apply Hstop. rewrite HB, HH, HP, HPmt. destruct Hmode as [Hr|[Hlow _]].
      * eapply inh_raise_stop; [apply Hp|lia|done|lia|lia].
      * eapply inh_lower_stop; [apply Hp|lia|done|lia|lia].
Qed.
End blocked.

(** the branch of the ready tasks *)
Lemma change_ready T objs rq t tk np (Q : kstat_t -> kstate -> Prop) :
  coreT T objs rq -> change_pre T t np -> T !! t = Some tk -> prio tk <> np -> task_state tk = K_RDY ->
  change_post T objs (Q RHINO_SUCCESS) ->
  wp (ready_list_rm t;;
      upd_task t (set_prio np);;
      a ← gets g_active_task;
      (if bool_decide (t = a) then ready_list_add_head t else ready_list_add_tail t);;
      mret RHINO_SUCCESS) Q (kput T objs rq th s).
Proof.
  intros Hc Hp Ht Hne Hst HQ. destruct (cp_idle _ _ _ Hp) as (Hti & _ & [pi Hpi]).
  assert (Hrd : ready T t = Some (prio tk)).
  { unfold ready. rewrite (tview_lookup _ _ _ _ _ Ht). unfold ready_of. by rewrite Hst. }
  kstep. eapply wp_ready_list_rm; [apply Hc|done|done|by apply not_eq_sym|exact Hpi|].
  intros rq1 Hrq1. do 5 kstep.
  assert (Hfin : forall rq2, rq_ok (fupd (fupd (ready T) t None) t (Some np)) rq2 ->
            wp (mret RHINO_SUCCESS : K _) Q (kput (<[t := set_prio np tk]> T) objs rq2 th s)).
  { intros rq2 Hrq2. kstep. apply (change_last T objs rq t tk np); try done.
    - unfold is_pending. by rewrite Hst.
    - unfold ready. rewrite tview_insert. unfold ready_of at 2. cbn. rewrite Hst.
      by rewrite fupd_fupd in Hrq2. }
  assert (Hnone : fupd (ready T) t None t = None) by apply fupd_eq.
  case_bool_decide.
  - eapply wp_ready_list_add_head; [exact Hrq1|apply lookup_insert_eq|done|apply Hp|exact Hfin].
  - eapply wp_ready_list_add_tail; [exact Hrq1|apply lookup_insert_eq|done|apply Hp|exact Hfin].
Qed.

(** the change ends, with every priority inherited as it must be *)
Lemma wp_pri_change_loop n : forall T objs rq t np Q,
  coreT T objs rq -> change_pre T t np -> change_measure T t np n ->
  change_post T objs (Q RHINO_SUCCESS) -> wp (pri_change_loop n t np) Q (kput T objs rq th s).
Proof.
  induction n as [|n IH]; intros T objs rq t np Q Hc Hp Hm HQ.
  { by destruct (change_measure_pos _ _ _ _ Hm). }
  destruct (live_inv _ _ (cp_live _ _ _ Hp)) as (tk & Ht & Hl & _).
  cbn -[kput]. do 2 kstep. destruct (Z.eqb_spec (prio tk) np) as [<-|Hne].
  { kstep. apply (HQ T objs rq); [done..|]. apply (pi_hole_id _ _ _ _ _ t).
    pose proof (cp_pi _ _ _ Hp) as Hpi. unfold prioV at 2. by rewrite (tview_lookup _ _ _ _ _ Ht). }
  assert (Hidle : is_pending tk = false -> task_state tk <> K_RDY ->
    wp (upd_task t (set_prio np);; mret RHINO_SUCCESS) Q (kput T objs rq th s)).
  { intros Hnp Hnr. do 3 kstep. apply (change_last T objs rq t tk np); try done.
    unfold ready. rewrite (tview_same ready_of None T t tk); [apply Hc|done|].
    unfold ready_of. cbn. by destruct (task_state tk). }
  assert (Hblk : is_pending tk = true ->
    wp (upd_task t (set_prio np);; pend_list_reorder t;; o ← lift (blk_obj tk); ob ← get_obj o;
        if bool_decide (obj_type ob = RHINO_MUTEX_OBJ_TYPE) then
          mutex_task ← lift (mutex_owner ob);
          mk ← get_task mutex_task;
          if np <? prio mk then pri_change_loop n mutex_task np
          else if prio mk =? prio tk then
            new_pri ← mutex_pri_look mutex_task None;
            if negb (new_pri =? prio mk) then pri_change_loop n mutex_task new_pri
            else mret RHINO_SUCCESS
          else mret RHINO_SUCCESS
        else mret RHINO_SUCCESS) Q (kput T objs rq th s)).
  { intros Hpend. destruct (blk_obj tk) as [o|] eqn:Hb.
    2: { exfalso. by apply (tk_pend _ (c_task _ _ _ _ _ _ _ Hc _ _ Ht)). }
    destruct (bk_obj _ _ _ (c_blk _ _ _ _ _ _ _ Hc) t o) as [ob Ho]; [by eapply woken_waits|].
    do 3 kstep. eapply wp_pend_list_reorder; [exact Hc|exact Ht|apply Hp|done..|].
    intros l Hc1. do 4 kstep.
    apply (change_blocked n Q (fun T objs rq t np => IH T objs rq t np Q) T objs rq t tk np o ob l); try done. }
  unfold is_live in Hl. unfold is_pending in *.
  destruct (task_state tk) eqn:Hst; try done; [| by apply Hblk | by apply Hidle | by apply Hblk
    | by apply Hidle | by apply Hidle].
  eapply change_ready; eauto.
Qed.

Lemma change_fuel T objs rq t np :
  coreT T objs rq -> W ≐ waits T \/ np <= prioV T t ->
  np = prioV T t \/ change_measure T t np (pri_change_fuel (kput T objs rq th s)).
Proof.
  intros Hc HW. assert (Hb := psum_bound T (c_task _ _ _ _ _ _ _ Hc)).
  unfold pri_change_fuel, RHINO_CONFIG_PRI_MAX. cbn [g_tasks kput].
  destruct (Z.lt_trichotomy np (prioV T t)) as [Hlt|[Heq|Hgt]]; [right; left|by left|right; right].
  - split; [done|]. lia.
  - split; [lia|]. split; [|lia]. destruct HW as [HW|HW]; [done|lia].
Qed.

Lemma wp_task_pri_change T objs rq t np (Q : kstat_t -> kstate -> Prop) :
  coreT T objs rq -> change_pre T t np -> W ≐ waits T \/ np <= prioV T t ->
  change_post T objs (Q RHINO_SUCCESS) -> wp (task_pri_change t np) Q (kput T objs rq th s).
Proof.
  intros Hc Hp HW HQ. unfold task_pri_change. kstep. apply wp_gets.
  destruct (change_fuel T objs rq t np Hc HW) as [->|Hm].
  - destruct (live_inv _ _ (cp_live _ _ _ Hp)) as (tk & Ht & _).
    unfold pri_change_fuel. cbn -[kput Nat.mul]. do 2 kstep.
    rewrite (tview_lookup prio _ _ _ _ Ht : prioV T t = _), Z.eqb_refl. kstep. apply (HQ T objs rq); [done..|].
    apply (pi_hole_id _ _ _ _ _ t). apply Hp.
  - by eapply wp_pri_change_loop.
Qed.
End change.

(** ** [mutex_release] and [mutex_task_pri_reset] *)

(** the idle task: always ready, holding no mutex *)
Definition idle_ready (i : nat) (T : gmap nat ktask) : Prop := held T i = [] /\ is_Some (ready T i).

Section release.
Context (th : list nat) (s : kstate) (x : option nat) (lo : Z) (i : nat).
Abbreviation coreT T objs rq := (core x T objs rq th lo (g_tick_count s)).

Definition release_post (T : gmap nat ktask) (objs : gmap nat kobj) (Q : kstate -> Prop) : Prop :=
  forall T' objs' rq', coreT T' objs' rq' -> prio_change T T' -> relist objs objs' -> pi_all T' ->
    Q (kput T' objs' rq' th s).

Lemma release_change_post T objs Q : release_post T objs Q -> change_post th s x lo (waits T) T objs Q.
Proof.
  intros HQ T' objs' rq' Hc HT Ho Hpi. apply HQ; try done.
  assert (HW : waits T' ≐ waits T) by (by apply prio_change_view). by rewrite <- HW in Hpi.
Qed.

Lemma wp_mutex_release T objs rq t tk rel (Q : unit -> kstate -> Prop) :
  let T1 := <[t := set_mutex_list (kept rel (mutex_list tk)) tk]> T in
  coreT T1 objs rq -> T !! t = Some tk -> is_live tk = true -> (x = None \/ is_Some (ready T1 t)) ->
  t <> i -> idle_ready i T1 -> pi_but t T1 ->
  release_post T1 objs (Q tt) ->
  wp (mutex_release t rel) Q (kput T objs rq th s).
Proof.
  intros T1 Hc Ht Hl Hx Hti [Hheld Hrdy] Hpi HQ. unfold mutex_release. kstep.
  eapply wp_mutex_pri_look; [exact Hc|exact Ht|exact Hl|]. fold T1. intros q Hq.
  pose proof (lookup_insert_eq T t (set_mutex_list (kept rel (mutex_list tk)) tk)) as Ht1. fold T1 in Ht1.
  do 2 kstep. cbn [prio set_mutex_list].
  assert (Hb : bprioV T1 t = b_prio tk) by (by apply (tview_lookup b_prio _ _ _ _ Ht1)).
  assert (Hp : prioV T1 t = prio tk) by (by apply (tview_lookup prio _ _ _ _ Ht1)).
  rewrite <- Hb in Hq. assert (Hhole := pi_but_hole _ _ _ Hpi Hq).
  destruct (Z.eqb_spec q (prio tk)) as [->|Hne]; cbn [negb].
  - kstep. apply (HQ T1 objs rq); try done. unfold pi_all. rewrite <- Hp in Hhole.
    by apply (pi_hole_id _ _ _ _ _ t).
  - kstep. eapply (wp_task_pri_change th s x lo i (waits T1)); [exact Hc| |by left|].
    + split; try done; [by left| |].
      * unfold live. by rewrite (tview_lookup _ _ _ _ _ Ht1).
      * eapply is_inh_range; [apply Hc| |exact Hq]. rewrite Hb.
        apply (c_task _ _ _ _ _ _ _ Hc _ _ Ht1).
    + apply release_change_post. intros T' objs' rq' Hc' HT Ho Hpi'. kstep. by apply HQ.
Qed.

(** releasing a mutex nobody waits for changes no priority *)
Lemma wp_mutex_release_same T objs rq t tk rel (Q : unit -> kstate -> Prop) :
  let T1 := <[t := set_mutex_list (kept rel (mutex_list tk)) tk]> T in
  coreT T1 objs rq -> T !! t = Some tk -> is_live tk = true ->
  is_inh (waits T1) (prioV T1) (prio tk) (b_prio tk) (held T1 t) ->
  Q tt (kput T1 objs rq th s) ->
  wp (mutex_release t rel) Q (kput T objs rq th s).
Proof.
  intros T1 Hc Ht Hl Hinh HQ. unfold mutex_release. kstep.
  eapply wp_mutex_pri_look; [exact Hc|exact Ht|exact Hl|]. fold T1. intros q Hq.
  rewrite (is_inh_unique _ _ _ _ _ _ Hq Hinh).
  pose proof (lookup_insert_eq T t (set_mutex_list (kept rel (mutex_list tk)) tk)) as Ht1. fold T1 in Ht1.
  do 2 kstep. cbn [prio set_mutex_list]. rewrite Z.eqb_refl. cbn [negb]. kstep. exact HQ.
Qed.

Lemma wp_mutex_release_None T objs rq t tk (Q : unit -> kstate -> Prop) :
  coreT T objs rq -> T !! t = Some tk -> is_live tk = true -> (x = None \/ is_Some (ready T t)) ->
  t <> i -> idle_ready i T -> pi_but t T -> release_post T objs (Q tt) ->
  wp (mutex_release t None) Q (kput T objs rq th s).
Proof.
  intros Hc Ht Hl Hx Hti Hi Hpi HQ.
  assert (Hid : <[t := set_mutex_list (kept None (mutex_list tk)) tk]> T = T).
  { apply insert_id. rewrite Ht, kept_None. by destruct tk. }
  eapply wp_mutex_release; rewrite ?Hid; eauto.
Qed.

(** the task no longer waits for [o], which it still names: the priorities are
    right as if it waited *)
Lemma wp_mutex_task_pri_reset T objs rq t tk o ob (Q : unit -> kstate -> Prop) :
  x = None -> coreT T objs rq -> T !! t = Some tk -> blk_obj tk = Some o -> objs !! o = Some ob ->
  waits T t = None -> (obj_type ob = RHINO_MUTEX_OBJ_TYPE -> own x objs o <> None) ->
  idle_ready i T ->
  pi_ok (prioV T) (live T) (bprioV T) (held T) (fupd (waits T) t (Some o)) (prioV T) ->
  release_post T objs (Q tt) ->
  wp (mutex_task_pri_reset t) Q (kput T objs rq th s).
Proof.
  intros Hx Hc Ht Hb Ho Hw Hown Hidle Hpi HQ. unfold mutex_task_pri_reset. do 3 kstep. rewrite Hb.
  do 3 kstep.
  assert (Hother : forall u, live T u = true -> o ∉ held T u ->
    is_inh (waits T) (prioV T) (prioV T u) (bprioV T u) (held T u)).
  { intros u Hu Hno. eapply is_inh_W; [by apply Hpi|]. intros m v Hm. unfold fupd. case_decide; [subst|done].
    rewrite Hw. split; [done|]. intros [= ->]. done. }
  case_bool_decide as Hty.
  2: { kstep. apply (HQ T objs rq); try done. intros u Hu. apply Hother; [done|]. intros Hm.
       destruct (held_mutex _ _ _ _ _ _ _ _ _ Hc Hm) as (_ & mb & Hmb & Hmty & _). congruence. }
  specialize (Hown Hty). destruct (own x objs o) as [mt|] eqn:Hmt; [|done].
  assert (Hheld : o ∈ held T mt) by (by apply (mx_in _ _ (c_mutex _ _ _ _ _ _ _ Hc))).
  assert (Huniq : forall u, o ∈ held T u -> u = mt).
  { intros u Hu. apply (mx_in _ _ (c_mutex _ _ _ _ _ _ _ Hc)) in Hu. congruence. }
  destruct (held_mutex _ _ _ _ _ _ _ _ _ Hc Hheld) as (_ & ob' & Ho' & _ & Howner & _). simplify_eq.
  rewrite Howner. destruct (held_live _ _ _ Hheld) as (mk & Hmk & Hml & Hlive & _). do 4 kstep.
  assert (Hpm : prioV T mt = prio mk) by (by apply (tview_lookup prio)).
  assert (Hpt : prioV T t = prio tk) by (by apply (tview_lookup prio)).
  assert (Hbut : pi_but mt T).
  { intros u Hne Hu. apply Hother; [done|]. by intros ?%Huniq. }
  destruct (Z.eqb_spec (prio mk) (prio tk)) as [Heq|Hne].
  - eapply wp_mutex_release_None; try done; [by left|]. intros ->. destruct Hidle as [Hnil _].
    rewrite Hnil in Hheld. by apply elem_of_nil in Hheld.
  - kstep. apply (HQ T objs rq); try done. intros u Hu. destruct (decide (u = mt)) as [->|Hd].
    2: by apply Hbut.
    destruct (Hpi mt Hlive) as [Hbs Hwt Hr]. split; [done| |].
    + intros m v Hm Hv. apply (Hwt m v Hm). rewrite fupd_ne; [done|]. congruence.
    + destruct Hr as [?|(m & v & Hm & Hv & Heq)]; [by left|right]. exists m, v.
      split_and!; [done| |done]. unfold fupd in Hv. case_decide; [|done]. subst. congruence.
Qed.
End release.
