(* ===== verification/KInv.v ===== *)
(** * The invariant between kernel calls

    [wf] holds whenever no kernel routine runs; [kpre] is what holds inside a
    routine when it comes to [core_sched], which brings [wf] back: the active
    task is then the first of the highest non-empty ring. *)

From S2P Require Import Prelude Config Bitmap State Sched Inv Tick Pend PriChange.

(** no task waits for a deleted object *)
Definition none_ok (objs : gmap nat kobj) : Prop :=
  map_Forall (fun _ ob => obj_type ob = RHINO_OBJ_TYPE_NONE -> blk_list ob = []) objs.

(** the idle task is always ready and holds nothing, every other task has a
    higher base priority; while the scheduler is locked the active task stays
    ready *)
Record sched_ok (T : gmap nat ktask) (a : nat) (lock nested : Z) : Prop := {
  so_idle : exists ik, T !! g_idle_task = Some ik /\ task_state ik = K_RDY /\
              b_prio ik = RHINO_IDLE_PRI /\ mutex_list ik = [];
  so_user : forall t tk, T !! t = Some tk -> t <> g_idle_task -> b_prio tk < RHINO_IDLE_PRI;
  so_active : is_Some (T !! a);
  so_lock : 0 <= lock < 2 ^ 8;
  so_nested : 0 <= nested < 2 ^ 8;
  so_locked : 0 < lock -> is_Some (ready T a)
}.

(** [kmid] is [kpre] while an object is being deleted *)
Record kmid (s : kstate) : Prop := {
  kp_core : core None (g_tasks s) (g_objs s) (g_ready_queue s) (g_tick_head s) 1 (g_tick_count s);
  kp_pi : pi_all (g_tasks s);
  kp_sched : sched_ok (g_tasks s) (g_active_task s) (g_sched_lock s) (g_intrpt_nested_level s)
}.

Record kpre (s : kstate) : Prop := {
  kp_mid :> kmid s;
  kp_none : none_ok (g_objs s)
}.

(** the task that should run *)
Definition top (rq : runqueue_t) : option nat := head (ring rq (highest_pri rq)).

Record wf (s : kstate) : Prop := {
  wf_pre : kpre s;
  wf_ready : g_intrpt_nested_level s = 0 -> is_Some (ready (g_tasks s) (g_active_task s));
  wf_top : g_intrpt_nested_level s = 0 -> g_sched_lock s = 0 -> top (g_ready_queue s) = Some (g_active_task s)
}.

(** ** Updates *)

Lemma sched_upd T a lock nested t tk tk' :
  sched_ok T a lock nested -> T !! t = Some tk -> t <> g_idle_task -> b_prio tk' = b_prio tk ->
  (t = a -> 0 < lock -> task_state tk' = K_RDY) ->
  sched_ok (<[t := tk']> T) a lock nested.
Proof.
  intros [Hi Hu Ha Hl Hn Hr] Ht Hne Hb Hrdy. split; try done.
  - rewrite lookup_insert_ne by congruence. done.
  - intros u uk [[<- <-]|[_ Huk]]%lookup_insert_Some Hune; [rewrite Hb|]; eauto.
  - apply lookup_insert_is_Some'. by right.
  - intros Hlk. unfold ready. rewrite (tview_insert _ _ _ _ _ a). unfold fupd. case_decide as E; [|by apply Hr].
    unfold ready_of. rewrite Hrdy; [by eexists|congruence|done].
Qed.

Lemma sched_prio T T' a lock nested :
  sched_ok T a lock nested -> prio_change T T' -> sched_ok T' a lock nested.
Proof.
  intros [Hi Hu Ha Hl Hn Hr] HT. split; try done.
  - destruct Hi as (ik & Hik & ? & ? & ?).
    destruct (same_keys_lookup _ _ _ _ _ HT Hik) as (ik' & Hik' & p & ->). eexists; split; [done|]. done.
  - intros t tk Ht Hne. destruct (same_keys_lookup_r _ _ _ _ _ HT Ht) as (tk0 & Ht0 & p & ->). exact (Hu _ _ Ht0 Hne).
  - destruct Ha as [ak Hak]. destruct (same_keys_lookup _ _ _ _ _ HT Hak) as (ak' & Hak' & _). by eexists.
  - intros Hlk. destruct (Hr Hlk) as [q Hq]. unfold ready, tview in *. specialize (HT a).
    destruct (T !! a) as [ak|], (T' !! a) as [ak'|]; try done. destruct HT as [p ->]. cbn in *.
    unfold ready_of in *. cbn. destruct (task_state ak); by eauto.
Qed.

Lemma sched_idle_ready T a lock nested : sched_ok T a lock nested -> idle_ready g_idle_task T.
Proof.
  intros [(ik & Hik & Hst & _ & Hm) _ _ _ _ _]. split.
  - unfold held. rewrite (tview_lookup _ _ _ _ _ Hik). unfold held_of. rewrite Hm. by destruct (is_live ik).
  - unfold ready. rewrite (tview_lookup _ _ _ _ _ Hik). unfold ready_of. rewrite Hst. by eexists.
Qed.

Lemma none_relist objs objs' :
  none_ok objs -> relist objs objs' ->
  (forall o ob ob', objs !! o = Some ob -> objs' !! o = Some ob' -> blk_list ob = [] -> blk_list ob' = []) ->
  none_ok objs'.
Proof.
  intros Hn Hr Hl o ob' Ho' Hty. destruct (same_keys_lookup_r _ _ _ _ _ Hr Ho') as (ob & Ho & l & ->).
  by eapply Hl, (Hn _ _ Ho).
Qed.

(** the waiting lists have the same members, so the empty ones stay empty *)
Lemma none_members W P W' P' objs objs' :
  none_ok objs -> relist objs objs' -> blks_ok W P objs -> blks_ok W' P' objs' ->
  (forall t o, W' t = Some o -> W t = Some o) -> none_ok objs'.
Proof.
  intros Hn Hr Hb Hb' HW. eapply none_relist; [done..|]. intros o ob ob' Ho Ho' Hnil.
  destruct (blk_list ob') as [|u l] eqn:E; [done|].
  assert (Hu : u ∈ blk_list ob') by (rewrite E; left).
  apply (bk_in _ _ _ Hb' _ _ _ Ho'), HW, (bk_in _ _ _ Hb _ _ _ Ho) in Hu.
  rewrite Hnil in Hu. by apply elem_of_nil in Hu.
Qed.

Lemma none_insert objs o ob :
  none_ok objs -> (obj_type ob = RHINO_OBJ_TYPE_NONE -> blk_list ob = []) -> none_ok (<[o := ob]> objs).
Proof. intros Hn Hob. by apply map_Forall_insert_2. Qed.

(** ** The scheduler *)

(** the ring of the highest priority is not empty, as the idle task is ready *)
Lemma top_some R rq i : rq_ok R rq -> is_Some (R i) -> exists t l, ring rq (highest_pri rq) = t :: l.
Proof.
  intros H [p Hp]. pose proof (rq_ok_prio _ _ _ _ H Hp) as Hr.
  pose proof (rq_highest_le _ _ H _ _ Hp) as Hle. destruct (rq_highest_in _ _ H) as [E|E]; [lia|].
  destruct (ring rq (highest_pri rq)) as [|t l]; [done|]. by exists t, l.
Qed.

Lemma top_ready T rq t l : rq_ok (ready T) rq -> ring rq (highest_pri rq) = t :: l -> ready T t = Some (highest_pri rq).
Proof. intros H E. apply (rq_in _ _ H). rewrite E. left. Qed.

Lemma kpre_active s a p : kpre s -> ready (g_tasks s) a = Some p -> g_intrpt_nested_level s = 0 -> g_sched_lock s = 0 ->
  top (g_ready_queue s) = Some a ->
  forall q, wf (set_g_active_task a (set_g_preferred_ready_task q s)).
Proof.
  intros [[Hc Hpi Hs] Hn] Ha Hn0 Hl0 Ht q. split; cbn; [|eauto..]. split; cbn; [|done]. split; cbn; [done..|].
  destruct Hs as [? ? ? ? ? ?]. split; [done|done| |done|done|intros; lia].
  unfold ready, tview in Ha. destruct (g_tasks s !! a); by eauto.
Qed.

Lemma wp_core_sched s (Q : unit -> kstate -> Prop) :
  kpre s ->
  (forall s', wf s' -> (exists p a, s' = set_g_active_task a (set_g_preferred_ready_task p s)) -> Q tt s') ->
  wp core_sched Q s.
Proof.
  intros Hk HQ. pose proof (kp_sched _ (kp_mid _ Hk)) as Hs. destruct (sched_idle_ready _ _ _ _ Hs) as [_ Hi].
  assert (Hsame : set_g_active_task (g_active_task s) (set_g_preferred_ready_task (g_preferred_ready_task s) s) = s)
    by (by destruct s).
  assert (Hkeep : g_intrpt_nested_level s <> 0 \/ g_sched_lock s <> 0 -> Q tt s).
  { intros H. apply HQ; [|by eexists _, _]. destruct (so_lock _ _ _ _ Hs).
    split; [done| |lia]. intros Hn0. apply (so_locked _ _ _ _ Hs). lia. }
  unfold core_sched. apply wp_bind, wp_gets. destruct (Z.ltb_spec 0 (g_intrpt_nested_level s)).
  { apply wp_ret, Hkeep. lia. }
  apply wp_bind, wp_gets. destruct (Z.ltb_spec 0 (g_sched_lock s)).
  { apply wp_ret, Hkeep. lia. }
  destruct (so_lock _ _ _ _ Hs), (so_nested _ _ _ _ Hs).
  apply wp_bind. unfold preferred_cpu_ready_task_get. apply wp_bind, wp_gets.
  destruct (top_some _ _ _ (c_rq _ _ _ _ _ _ _ (kp_core _ (kp_mid _ Hk))) Hi) as (t & l & E). rewrite E.
  pose proof (top_ready _ _ _ _ (c_rq _ _ _ _ _ _ _ (kp_core _ (kp_mid _ Hk))) E) as Ht.
  assert (Hwf : wf (set_g_active_task t (set_g_preferred_ready_task t s))).
  { eapply kpre_active; [done|exact Ht|lia|lia|]. unfold top. by rewrite E. }
  apply wp_modify, wp_bind, wp_gets, wp_bind, wp_gets. cbn [g_preferred_ready_task set_g_preferred_ready_task g_active_task].
  case_bool_decide as Heq.
  - apply wp_ret. subst t. replace (set_g_preferred_ready_task (g_active_task s) s)
      with (set_g_active_task (g_active_task s) (set_g_preferred_ready_task (g_active_task s) s)) by done.
    apply HQ; [done|]. by eexists _, _.
  - unfold tspend_handler. apply wp_bind, wp_gets. cbn.
    replace (g_sched_lock s =? 0) with true by (symmetry; apply Z.eqb_eq; lia). cbn.
    apply HQ; [done|]. by eexists _, _.
Qed.

Lemma wp_exit_sched s r (Q : kret -> kstate -> Prop) :
  kpre s ->
  (forall s', wf s' -> (exists p a, s' = set_g_active_task a (set_g_preferred_ready_task p s)) -> Q r s') ->
  wp (exit_sched r) Q s.
Proof.
  intros Hk HQ. unfold exit_sched. apply wp_bind, wp_core_sched; [done|]. intros s' Hwf Hs'.
  apply wp_ret. by apply HQ.
Qed.

(** the active task of a well-formed kernel, when no interrupt is served, has
    the highest priority among the ready tasks, unless the scheduler is locked *)
Lemma wf_highest s t p :
  wf s -> g_intrpt_nested_level s = 0 -> g_sched_lock s = 0 -> ready (g_tasks s) t = Some p ->
  exists q, ready (g_tasks s) (g_active_task s) = Some q /\ q <= p.
Proof.
  intros [Hk _ Htop] Hn Hl Ht. specialize (Htop Hn Hl). pose proof (c_rq _ _ _ _ _ _ _ (kp_core _ (kp_mid _ Hk))) as Hrq.
  unfold top in Htop. destruct (ring _ _) as [|a l] eqn:E; [done|]. cbn in Htop. simplify_eq.
  exists (highest_pri (g_ready_queue s)). split; [by eapply top_ready|]. by eapply rq_highest_le.
Qed.

(** ** Waking at this level *)

Lemma kmid_task s t tk : kmid s -> g_tasks s !! t = Some tk -> task_ok tk.
Proof. intros Hk. apply (c_task _ _ _ _ _ _ _ (kp_core _ Hk)). Qed.

(** an object no task can own: not a mutex *)
Definition not_mutex (ob : kobj) : Prop := obj_type ob <> RHINO_MUTEX_OBJ_TYPE.

Lemma not_mutex_held s o ob u :
  kmid s -> g_objs s !! o = Some ob -> not_mutex ob -> o ∉ held (g_tasks s) u.
Proof.
  intros Hk Ho Hnm Hu. destruct (held_mutex _ _ _ _ _ _ _ _ _ (kp_core _ Hk) Hu) as (_ & ob' & Ho' & Hty & _).
  simplify_eq. by destruct Hnm.
Qed.

Lemma pi_all_but T : pi_all T <-> forall x, pi_but x T.
Proof.
  split.
  - intros H x u _. apply H.
  - intros H u. apply (H (S u)). lia.
Qed.

(** an update of a task that its mutexes and priority do not see, while it
    starts or stops to wait for something nobody holds *)
Lemma pi_wait_but x T t tk tk' :
  pi_but x T -> T !! t = Some tk -> is_live tk' = is_live tk -> prio tk' = prio tk -> b_prio tk' = b_prio tk ->
  mutex_list tk' = mutex_list tk ->
  (forall o, waits T t = Some o \/ waits_of tk' = Some o -> forall u, o ∉ held T u) ->
  pi_but x (<[t := tk']> T).
Proof.
  intros Hpi Ht Hl Hp Hb Hm Hw u Hux.
  assert (HP : prioV (<[t := tk']> T) ≐ prioV T) by (by eapply tview_same).
  assert (HB : bprioV (<[t := tk']> T) ≐ bprioV T) by (by eapply tview_same).
  assert (HL : live (<[t := tk']> T) ≐ live T) by (by eapply tview_same).
  assert (HH : held (<[t := tk']> T) ≐ held T).
  { eapply tview_same; [done|]. unfold held_of. by rewrite Hl, Hm. }
  assert (HW : waits (<[t := tk']> T) ≐ fupd (waits T) t (waits_of tk')) by apply tview_insert.
  rewrite (HP u), (HB u), (HL u), (HH u), HP, HW. intros Hu. eapply is_inh_W; [by apply Hpi|]. intros m v Hmu. unfold fupd.
  case_decide; [subst v|done]. split; intros E; exfalso; (eapply (Hw m); [|exact Hmu]); auto.
Qed.

Lemma pi_wait T t tk tk' :
  pi_all T -> T !! t = Some tk -> is_live tk' = is_live tk -> prio tk' = prio tk -> b_prio tk' = b_prio tk ->
  mutex_list tk' = mutex_list tk ->
  (forall o, waits T t = Some o \/ waits_of tk' = Some o -> forall u, o ∉ held T u) ->
  pi_all (<[t := tk']> T).
Proof. rewrite !pi_all_but. intros Hpi; intros. by eapply pi_wait_but. Qed.

Definition wakes (f : nat -> K unit) (g : ktask -> ktask) : Prop :=
  forall T objs rq th s t tk o ob (Q : unit -> kstate -> Prop),
    kmid (kput T objs rq th s) -> T !! t = Some tk -> waits T t = Some o -> objs !! o = Some ob -> not_mutex ob ->
    (forall rq', kmid (kput (<[t := g tk]> T) (<[o := unlinked t ob]> objs) rq' (klist_del t th) s) ->
       Q tt (kput (<[t := g tk]> T) (<[o := unlinked t ob]> objs) rq' (klist_del t th) s)) ->
    wp (f t) Q (kput T objs rq th s).

Lemma not_idle_waits s t o : kmid s -> waits (g_tasks s) t = Some o -> t <> g_idle_task.
Proof.
  intros Hk Hw ->. destruct (so_idle _ _ _ _ (kp_sched _ Hk)) as (ik & Hik & Hst & _).
  destruct (waits_inv _ _ _ Hw) as (tk & Ht & Hp & _). simplify_eq. unfold is_pending in Hp. by rewrite Hst in Hp.
Qed.

Lemma pend_task_end_wakes bs : wakes (pend_task_end bs) (woken bs).
Proof.
  intros T objs rq th s t tk o ob Q Hk Ht Hw Ho Hnm HQ.
  destruct (waits_inv _ _ _ Hw) as (tk' & Ht' & Hp & Hb). simplify_eq.
  assert (Hne := not_idle_waits _ _ _ Hk Hw).
  pose proof Hk as [Hc Hpi Hs]. cbn in Hc, Hpi, Hs, Hne.
  eapply wp_pend_task_end; [exact Hc|exact Ht|exact Hp|exact Hb|exact Ho|apply Hs|].
  intros rq' Hc'. apply HQ. split; [exact Hc'| |]; cbn.
  - eapply pi_wait; [exact Hpi|exact Ht| |done..|].
    + unfold is_live, is_pending in *. cbn. by destruct (task_state tk).
    + intros q [Hq|Hq] u.
      * assert (q = o) as -> by congruence. exact (not_mutex_held _ _ _ u Hk Ho Hnm).
      * unfold waits_of in Hq. unfold is_pending in Hp, Hq. cbn in Hq. by destruct (task_state tk).
  - eapply sched_upd; [done|exact Ht|done|done|]. intros -> Hlk.
    destruct (so_locked _ _ _ _ Hs Hlk) as [q Hq]. rewrite (woken_not_ready _ _ _ Ht Hp) in Hq. done.
Qed.

(** every waiting task is woken, in order *)
Fixpoint wake_tasks (g : ktask -> ktask) (l : list nat) (T : gmap nat ktask) : gmap nat ktask :=
  match l with [] => T | t :: l => wake_tasks g l (alter g t T) end.

Lemma wake_tasks_lookup g l T u :
  NoDup l -> wake_tasks g l T !! u = if decide (u ∈ l) then g <$> T !! u else T !! u.
Proof.
  intros Hl. revert T. induction Hl as [|t l Ht Hl IH]; intros T; cbn -[decide]; [by case_decide as H; [apply elem_of_nil in H|]|].
  rewrite IH. destruct (decide (u = t)) as [->|Hne].
  - rewrite (decide_False (P := t ∈ l)), decide_True by (done || left). by rewrite lookup_alter_eq.
  - rewrite lookup_alter_ne by done. destruct (decide (u ∈ l)).
    + by rewrite decide_True by (by right).
    + by rewrite decide_False by (by intros [?|?]%elem_of_cons).
Qed.

Lemma alter_some {A} (g : A -> A) t (T : gmap nat A) tk : T !! t = Some tk -> alter g t T = <[t := g tk]> T.
Proof. intros Ht. apply map_eq. intros u. destruct (decide (u = t)) as [->|Hne].
  - by rewrite lookup_alter_eq, lookup_insert_eq, Ht.
  - by rewrite lookup_alter_ne, lookup_insert_ne by done.
Qed.

Lemma wp_while_waiting f g : wakes f g -> forall l T objs rq th s o ob (Q : unit -> kstate -> Prop),
  kmid (kput T objs rq th s) -> objs !! o = Some ob -> not_mutex ob -> blk_list ob = l ->
  (forall rq' th', kmid (kput (wake_tasks g l T) (<[o := set_blk_list [] ob]> objs) rq' th' s) ->
     Q tt (kput (wake_tasks g l T) (<[o := set_blk_list [] ob]> objs) rq' th' s)) ->
  wp (while_waiting (length l) o f) Q (kput T objs rq th s).
Proof.
  intros Hf l. induction l as [|t l IH]; intros T objs rq th s o ob Q Hk Ho Hnm Hl HQ.
  - cbn. do 2 kstep. rewrite Hl. kstep. specialize (HQ rq th). cbn in HQ.
    rewrite insert_id in HQ; [by apply HQ|]. rewrite Ho, <- Hl. by destruct ob.
  - cbn -[kput]. do 2 kstep. rewrite Hl. kstep.
    pose proof (c_blk _ _ _ _ _ _ _ (kp_core _ Hk)) as Hblk. cbn in Hblk.
    assert (Hw : waits T t = Some o) by (apply (bk_in _ _ _ Hblk _ _ _ Ho); rewrite Hl; left).
    destruct (waits_inv _ _ _ Hw) as (tk & Ht & _).
    eapply Hf; [exact Hk|exact Ht|exact Hw|exact Ho|exact Hnm|]. intros rq' Hk'.
    pose proof (bk_nodup _ _ _ Hblk _ _ Ho) as Hnd. rewrite Hl in Hnd. apply NoDup_cons in Hnd as [Hnt Hnd].
    eapply (IH _ _ _ _ _ o (unlinked t ob)); [exact Hk'|apply lookup_insert_eq|exact Hnm| |].
    + cbn. rewrite Hl. by apply klist_del_head.
    + intros rq2 th2. rewrite insert_insert_eq. cbn in HQ. rewrite (alter_some _ _ _ _ Ht) in HQ. apply HQ.
Qed.

Lemma wp_for_all_waiting f g T objs rq th s o ob (Q : unit -> kstate -> Prop) :
  wakes f g -> kmid (kput T objs rq th s) -> objs !! o = Some ob -> not_mutex ob ->
  (forall rq' th', kmid (kput (wake_tasks g (blk_list ob) T) (<[o := set_blk_list [] ob]> objs) rq' th' s) ->
     Q tt (kput (wake_tasks g (blk_list ob) T) (<[o := set_blk_list [] ob]> objs) rq' th' s)) ->
  wp (for_all_waiting o f) Q (kput T objs rq th s).
Proof.
  intros Hf Hk Ho Hnm HQ. unfold for_all_waiting. do 2 kstep. by eapply wp_while_waiting.
Qed.

(** ** Blocking and updating objects at this level *)

(** a task that is not the idle task, running outside of interrupts *)
Record task_ctx (s : kstate) : Prop := {
  tc_nested : g_intrpt_nested_level s = 0;
  tc_idle : g_active_task s <> g_idle_task
}.

Lemma active_rdy s : wf s -> g_intrpt_nested_level s = 0 ->
  exists ak, g_tasks s !! g_active_task s = Some ak /\ task_state ak = K_RDY.
Proof.
  intros Hwf Hn. destruct (wf_ready _ Hwf Hn) as [p Hp]. unfold ready, tview in Hp.
  destruct (g_tasks s !! g_active_task s) as [ak|]; [|done]. exists ak. split; [done|]. cbn in Hp.
  unfold ready_of in Hp. by destruct (task_state ak).
Qed.

(** all of [kpre] but the priorities: a task may have a priority for a task
    that is about to wait *)
Record kpre_but_pi (T : gmap nat ktask) (objs : gmap nat kobj) (rq : runqueue_t) (th : list nat) (s : kstate) : Prop := {
  kb_core : core None T objs rq th 1 (g_tick_count s);
  kb_sched : sched_ok T (g_active_task s) (g_sched_lock s) (g_intrpt_nested_level s);
  kb_none : none_ok objs
}.

Lemma kpre_kpre_but_pi T objs rq th s : kpre (kput T objs rq th s) -> kpre_but_pi T objs rq th s.
Proof. by intros [[Hc Hpi Hs] Hn]. Qed.

Lemma wp_block T objs rq th s a ak o ob ticks (Q : unit -> kstate -> Prop) :
  kpre_but_pi T objs rq th s -> T !! a = Some ak -> task_state ak = K_RDY -> a <> g_idle_task ->
  objs !! o = Some ob -> can_wait None a o ob -> obj_type ob <> RHINO_OBJ_TYPE_NONE ->
  (a = g_active_task s -> g_sched_lock s = 0) -> 0 < ticks < 2 ^ 64 ->
  pi_all (<[a := blocked o (g_tick_count s) ticks ak]> T) ->
  (forall rq' th' l,
     kpre (kput (<[a := blocked o (g_tick_count s) ticks ak]> T) (<[o := set_blk_list l ob]> objs) rq' th' s) ->
     Q tt (kput (<[a := blocked o (g_tick_count s) ticks ak]> T) (<[o := set_blk_list l ob]> objs) rq' th' s)) ->
  wp (pend_to_blk_obj o a ticks) Q (kput T objs rq th s).
Proof.
  intros [Hc Hs Hn] Ha Hrdy Hne Ho Hw Hty Hlk Ht Hpi' HQ.
  destruct (sched_idle_ready _ _ _ _ Hs) as [_ Hidle].
  eapply wp_pend_to_blk_obj; [exact Hc|exact Ha|exact Hrdy|exact Ho|exact Hw| |exact Hidle|exact Ht|lia|].
  - by apply not_eq_sym.
  - intros rq' th' l Hc'. apply HQ. split; [split|]; cbn.
    + exact Hc'.
    + exact Hpi'.
    + eapply sched_upd; [done|exact Ha|done| |].
      * unfold blocked. by destruct (ticks =? _).
      * intros E Hl. specialize (Hlk E). lia.
    + by apply none_insert.
Qed.

(** blocking on something that is not a mutex *)
Lemma wp_block_plain T objs rq th s a ak o ob ticks (Q : unit -> kstate -> Prop) :
  kpre (kput T objs rq th s) -> T !! a = Some ak -> task_state ak = K_RDY -> a <> g_idle_task ->
  objs !! o = Some ob -> not_mutex ob -> (forall l, obj_ok (set_blk_list l ob)) ->
  obj_type ob <> RHINO_OBJ_TYPE_NONE ->
  (a = g_active_task s -> g_sched_lock s = 0) -> 0 < ticks < 2 ^ 64 ->
  (forall rq' th' l,
     kpre (kput (<[a := blocked o (g_tick_count s) ticks ak]> T) (<[o := set_blk_list l ob]> objs) rq' th' s) ->
     Q tt (kput (<[a := blocked o (g_tick_count s) ticks ak]> T) (<[o := set_blk_list l ob]> objs) rq' th' s)) ->
  wp (pend_to_blk_obj o a ticks) Q (kput T objs rq th s).
Proof.
  intros Hk Ha Hrdy Hne Ho Hnm Hob Hty Hlk Ht HQ.
  eapply wp_block; [exact (kpre_kpre_but_pi _ _ _ _ _ Hk)|exact Ha|exact Hrdy|exact Hne|exact Ho| |exact Hty|exact Hlk|exact Ht| |exact HQ].
  - split; [done|]. intros E. by destruct Hnm.
  - eapply pi_wait; [apply Hk|exact Ha| | | | |].
    + unfold blocked, is_live. destruct (ticks =? _); cbn; by rewrite Hrdy.
    + unfold blocked. by destruct (ticks =? _).
    + unfold blocked. by destruct (ticks =? _).
    + unfold blocked. by destruct (ticks =? _).
    + intros q Hq u. assert (q = o) as ->; [|exact (not_mutex_held _ _ _ u (kp_mid _ Hk) Ho Hnm)].
      destruct Hq as [Hq|Hq].
      * unfold waits in Hq. rewrite (tview_lookup _ _ _ _ _ Ha) in Hq. unfold waits_of, is_pending in Hq.
        by rewrite Hrdy in Hq.
      * unfold waits_of, blocked in Hq. destruct (ticks =? _); cbn in Hq; congruence.
Qed.

(** what a body update must keep *)
Record obj_like (ob ob' : kobj) : Prop := {
  ol_list : blk_list ob' = blk_list ob;
  ol_policy : blk_policy ob' = blk_policy ob;
  ol_type : obj_type ob' = obj_type ob;
  ol_owner : owner_of ob' = owner_of ob;
  ol_ok : obj_ok ob'
}.

Lemma core_obj x T objs rq th lo now o ob ob' :
  core x T objs rq th lo now -> objs !! o = Some ob -> blk_list ob' = blk_list ob ->
  blk_policy ob' = blk_policy ob -> (obj_type ob' = obj_type ob \/ obj_type ob' = RHINO_OBJ_TYPE_NONE) ->
  owner_of ob' = owner_of ob -> obj_ok ob' -> core x T (<[o := ob']> objs) rq th lo now.
Proof.
  intros [? ? ? ? ? ? Hmw] Ho Hl Hp Ht Hw Hok.
  assert (Hown : own x (<[o := ob']> objs) ≐ own x objs) by (by eapply own_same).
  split; try done.
  - by apply map_Forall_insert_2.
  - by eapply blks_obj.
  - by rewrite Hown.
  - intros u m mb Hu Hm Hty Hx. rewrite Hown. apply lookup_insert_Some in Hm as [[<- <-]|[_ Hm]]; [|by eapply Hmw].
    destruct Ht as [Ht|Ht]; [|congruence]. eapply Hmw; try done. congruence.
Qed.

Lemma kmid_obj T objs rq th s o ob ob' :
  kmid (kput T objs rq th s) -> objs !! o = Some ob -> obj_like ob ob' ->
  kmid (kput T (<[o := ob']> objs) rq th s).
Proof.
  intros [Hc Hpi Hs] Ho [Hl Hp Ht Hw Hok]. split; [|done..].
  eapply core_obj; [exact Hc|done..|by left|done|done].
Qed.

Lemma kpre_obj T objs rq th s o ob ob' :
  kpre (kput T objs rq th s) -> objs !! o = Some ob -> obj_like ob ob' ->
  kpre (kput T (<[o := ob']> objs) rq th s).
Proof.
  intros [Hm Hn] Ho Hol. split; [by eapply kmid_obj|]. destruct Hol as [Hl Hp Ht Hw Hok].
  apply none_insert; [done|]. rewrite Ht, Hl. by apply (Hn _ _ Ho).
Qed.

Lemma wf_obj T objs rq th s o ob ob' :
  wf (kput T objs rq th s) -> objs !! o = Some ob -> obj_like ob ob' ->
  wf (kput T (<[o := ob']> objs) rq th s).
Proof. intros [Hk ? ?] Ho Hol. split; [by eapply kpre_obj|done..]. Qed.

(** starting a proof about a kernel call *)
Ltac kstart Hwf :=
  apply wp_kput; pose proof Hwf as Hwf0; rewrite <- (kput_eta _) in Hwf0;
  pose proof (wf_pre _ Hwf0) as Hpre; pose proof (kp_mid _ Hpre) as Hmid.

(** a call leaves the kernel well-formed *)
Definition keeps {A} (m : K A) (s : kstate) : Prop := wp m (fun _ s' => wf s') s.

Lemma wp_keeps_checks s A `{!HasStat A} (k : K A) (Q : A -> kstate -> Prop) :
  (0 < g_intrpt_nested_level s -> Q (ret_stat RHINO_NOT_CALLED_BY_INTRPT) s) ->
  (g_intrpt_nested_level s <= 0 -> wp k Q s) -> wp (INTRPT_NESTED_LEVEL_CHK k) Q s.
Proof.
  intros H1 H2. unfold INTRPT_NESTED_LEVEL_CHK. apply wp_bind, wp_gets. case_match eqn:E.
  - apply wp_ret, H1. lia.
  - apply H2. lia.
Qed.

Lemma wp_lock_check s A `{!HasStat A} (k : K A) (Q : A -> kstate -> Prop) :
  (0 < g_sched_lock s -> Q (ret_stat RHINO_SCHED_DISABLE) s) ->
  (g_sched_lock s <= 0 -> wp k Q s) -> wp (SCHED_LOCK_CHK k) Q s.
Proof.
  intros H1 H2. unfold SCHED_LOCK_CHK. apply wp_bind, wp_gets. case_match eqn:E.
  - apply wp_ret, H1. lia.
  - apply H2. lia.
Qed.

Lemma wp_type_check s A `{!HasStat A} o ob ty (k : kobj -> K A) (Q : A -> kstate -> Prop) :
  g_objs s !! o = Some ob ->
  (obj_type ob <> ty -> Q (ret_stat RHINO_KOBJ_TYPE_ERR) s) ->
  (obj_type ob = ty -> wp (k ob) Q s) -> wp (OBJ_TYPE_CHK o ty k) Q s.
Proof.
  intros Ho H1 H2. unfold OBJ_TYPE_CHK. apply wp_kput. do 2 kstep. rewrite kput_eta. case_bool_decide; [by apply H2|].
  by apply wp_ret, H1.
Qed.

Lemma wp_flag_check s A `{!HasStat A} ob flag (k : K A) (Q : A -> kstate -> Prop) :
  (o_mm_alloc_flag ob <> flag -> Q (ret_stat RHINO_KOBJ_DEL_ERR) s) ->
  (o_mm_alloc_flag ob = flag -> wp k Q s) -> wp (ALLOC_FLAG_CHK ob flag k) Q s.
Proof. intros H1 H2. unfold ALLOC_FLAG_CHK. case_match eqn:E; [apply H2|apply wp_ret, H1]; lia. Qed.

(** ** Blocking and rescheduling *)

(** a state with the object [o] replaced *)
Definition with_obj (o : nat) (ob : kobj) (s : kstate) : kstate := set_g_objs (<[o := ob]> (g_objs s)) s.

(** the active task of [s] now waits for [o] and another task runs *)
Record blocks_on (s : kstate) (o : nat) (ob : kobj) (s' : kstate) : Prop := {
  bo_waits : waits (g_tasks s') (g_active_task s) = Some o;
  bo_list : exists l, g_objs s' !! o = Some (set_blk_list l ob) /\
              forall t, t ∈ l <-> t = g_active_task s \/ t ∈ blk_list ob;
  bo_switch : g_active_task s' <> g_active_task s
}.

Lemma blocked_waits T a o now ticks ak :
  waits (<[a := blocked o now ticks ak]> T) a = Some o.
Proof.
  unfold waits. rewrite (tview_lookup _ _ _ _ _ (lookup_insert_eq _ _ _)). unfold waits_of, blocked.
  by destruct (ticks =? _).
Qed.

Lemma wf_not_running s t o :
  wf s -> g_intrpt_nested_level s = 0 -> waits (g_tasks s) t = Some o -> g_active_task s <> t.
Proof.
  intros Hwf Hn Hw <-. destruct (active_rdy _ Hwf Hn) as (ak & Ha & Hr).
  destruct (waits_inv _ _ _ Hw) as (tk & Ht & Hp & _). simplify_eq. unfold is_pending in Hp. by rewrite Hr in Hp.
Qed.

Lemma block_members s s' o ob l t :
  kmid s -> g_objs s !! o = Some ob -> kmid s' -> g_objs s' !! o = Some (set_blk_list l ob) ->
  (forall u, u <> t -> waits (g_tasks s') u = waits (g_tasks s) u) -> waits (g_tasks s') t = Some o ->
  forall u, u ∈ l <-> u = t \/ u ∈ blk_list ob.
Proof.
  intros Hk Ho Hk' Ho' Hw Ht u.
  pose proof (bk_in _ _ _ (c_blk _ _ _ _ _ _ _ (kp_core _ Hk')) _ _ u Ho') as H'. cbn in H'.
  pose proof (bk_in _ _ _ (c_blk _ _ _ _ _ _ _ (kp_core _ Hk)) _ _ u Ho) as H.
  rewrite H', H. destruct (decide (u = t)) as [->|Hne]; [by rewrite Ht; split; [left|]|].
  rewrite Hw by done. split; [by right|]. by intros [?|?].
Qed.

(** what [pend_to_blk_obj(o, active, ticks); core_sched()] does *)
Lemma blocked_blocks_on T s o ob ak ticks rq' th' l p a' :
  kmid s -> g_objs s !! o = Some ob -> g_intrpt_nested_level s = 0 ->
  (forall u, u <> g_active_task s -> T !! u = g_tasks s !! u) ->
  kpre (kput (<[g_active_task s := blocked o (g_tick_count s) ticks ak]> T) (<[o := set_blk_list l ob]> (g_objs s))
          rq' th' s) ->
  let s' := set_g_active_task a' (set_g_preferred_ready_task p
              (kput (<[g_active_task s := blocked o (g_tick_count s) ticks ak]> T)
                 (<[o := set_blk_list l ob]> (g_objs s)) rq' th' s)) in
  wf s' -> blocks_on s o ob s'.
Proof.
  intros Hm Ho Hn HT Hk s' Hwf. split.
  - apply blocked_waits.
  - exists l. split; [apply lookup_insert_eq|].
    eapply (block_members s _ o ob l); [exact Hm|exact Ho|exact (kp_mid _ Hk)|cbn; apply lookup_insert_eq| |].
    + intros u Hu. cbn. unfold waits. rewrite (tview_insert _ _ _ _ _ u), fupd_ne by done.
      unfold tview. by rewrite HT.
    + apply blocked_waits.
  - eapply (wf_not_running _ _ o Hwf); [done|]. apply blocked_waits.
Qed.

Lemma wp_block_sched {A} T s ak o ob ticks (k : K A) (Q : A -> kstate -> Prop) :
  let a := g_active_task s in
  kpre (kput T (g_objs s) (g_ready_queue s) (g_tick_head s) s) -> T !! a = Some ak -> task_state ak = K_RDY ->
  a <> g_idle_task -> g_sched_lock s = 0 -> g_intrpt_nested_level s = 0 ->
  (forall u, u <> a -> T !! u = g_tasks s !! u) -> g_objs s !! o = Some ob ->
  not_mutex ob -> (forall l, obj_ok (set_blk_list l ob)) -> obj_type ob <> RHINO_OBJ_TYPE_NONE ->
  0 < ticks < 2 ^ 64 -> kmid s ->
  (forall s', wf s' -> blocks_on s o ob s' ->
     g_tasks s' = <[a := blocked o (g_tick_count s) ticks ak]> T ->
     (exists l, g_objs s' = <[o := set_blk_list l ob]> (g_objs s)) -> wp k Q s') ->
  wp (pend_to_blk_obj o a ticks) (fun _ => wp (core_sched;; k) Q)
    (kput T (g_objs s) (g_ready_queue s) (g_tick_head s) s).
Proof.
  intros a Hk Ha Hr Hne Hl Hn HT Ho Hnm Hok Hty Ht Hm HQ.
  eapply wp_block_plain; [exact Hk|exact Ha|exact Hr|exact Hne|exact Ho|exact Hnm|exact Hok|exact Hty|done|exact Ht|].
  intros rq' th' l Hk'. apply wp_bind, wp_core_sched; [exact Hk'|]. intros s' Hwf' (p & a' & ->).
  apply HQ; [exact Hwf'| |done|by exists l]. eapply (blocked_blocks_on T); eauto.
Qed.

(** ** Fields the invariant does not read *)

Definition same_view (s s' : kstate) : Prop :=
  g_tasks s' = g_tasks s /\ g_objs s' = g_objs s /\ g_ready_queue s' = g_ready_queue s /\
  g_tick_head s' = g_tick_head s /\ g_tick_count s' = g_tick_count s /\
  g_active_task s' = g_active_task s /\ g_sched_lock s' = g_sched_lock s /\
  g_intrpt_nested_level s' = g_intrpt_nested_level s.

Lemma kpre_same s s' : same_view s s' -> kpre s -> kpre s'.
Proof.
  intros (H1 & H2 & H3 & H4 & H5 & H6 & H7 & H8) [[Hc Hp Hs] Hn].
  split; [split|]; rewrite ?H1, ?H2, ?H3, ?H4, ?H5, ?H6, ?H7, ?H8; done.
Qed.

Lemma wf_same s s' : same_view s s' -> wf s -> wf s'.
Proof.
  intros Hv [Hk Hr Ht]. split; [by eapply kpre_same|..];
    destruct Hv as (H1 & H2 & H3 & H4 & H5 & H6 & H7 & H8); rewrite ?H1, ?H3, ?H6, ?H7, ?H8; done.
Qed.

Lemma wf_kobj_list v s : wf s -> wf (set_g_kobj_list v s).
Proof. by apply wf_same. Qed.

Lemma kpre_kobj_list v s : kpre s -> kpre (set_g_kobj_list v s).
Proof. by apply kpre_same. Qed.

(** ** Deleting and creating objects *)

Lemma kmid_delete T objs rq th s o ob :
  kmid (kput T objs rq th s) -> objs !! o = Some ob -> not_mutex ob ->
  kmid (kput T (<[o := set_obj_type RHINO_OBJ_TYPE_NONE ob]> objs) rq th s).
Proof.
  intros [Hc Hpi Hs] Ho Hnm. split; [|done..]. eapply core_obj; [exact Hc|done..|by right| |done].
  unfold owner_of, not_mutex in *. cbn. by destruct (obj_type ob).
Qed.

Lemma kpre_deleted T T' objs o ob rq rq' th th' s :
  kpre (kput T objs rq th s) -> kmid (kput T' (<[o := ob]> objs) rq' th' s) -> blk_list ob = [] ->
  kpre (kput T' (<[o := ob]> objs) rq' th' s).
Proof. intros [_ Hn] Hm Hl. split; [done|]. by apply none_insert. Qed.

Lemma wp_delete_waiting T objs rq th s o ob (Q : unit -> kstate -> Prop) :
  kpre (kput T objs rq th s) -> objs !! o = Some ob -> not_mutex ob ->
  (forall rq' th' ob', ob' = set_blk_list [] (set_obj_type RHINO_OBJ_TYPE_NONE ob) ->
     kpre (kput (wake_tasks (woken BLK_DEL) (blk_list ob) T) (<[o := ob']> objs) rq' th' s) ->
     Q tt (kput (wake_tasks (woken BLK_DEL) (blk_list ob) T) (<[o := ob']> objs) rq' th' s)) ->
  wp (for_all_waiting o pend_task_rm) Q
    (kput T (<[o := set_obj_type RHINO_OBJ_TYPE_NONE ob]> objs) rq th s).
Proof.
  intros Hk Ho Hnm HQ. rewrite pend_task_rm_end.
  eapply wp_for_all_waiting;
    [apply pend_task_end_wakes|eapply kmid_delete; [apply Hk|done..]|apply lookup_insert_eq|done|].
  intros rq' th'. rewrite insert_insert_eq. intros Hm. apply HQ; [done|].
  eapply kpre_deleted; [exact Hk|exact Hm|done].
Qed.

(** memory no live object uses *)
Definition fresh_obj (s : kstate) (o : nat) : Prop :=
  forall ob, g_objs s !! o = Some ob -> obj_type ob = RHINO_OBJ_TYPE_NONE.

Lemma fresh_core s o rq th lo now :
  core None (g_tasks s) (g_objs s) rq th lo now -> none_ok (g_objs s) -> fresh_obj s o ->
  (forall t, waits (g_tasks s) t <> Some o) /\ own None (g_objs s) o = None.
Proof.
  intros Hc Hno Hf. pose proof (c_blk _ _ _ _ _ _ _ Hc) as Hblk. split.
  - intros t Ht. destruct (bk_obj _ _ _ Hblk _ _ Ht) as [ob Ho].
    apply (bk_in _ _ _ Hblk _ _ t Ho) in Ht. rewrite (Hno _ _ Ho (Hf _ Ho)) in Ht.
    by apply elem_of_nil in Ht.
  - unfold own. rewrite decide_False by done. destruct (g_objs s !! o) as [ob|] eqn:Ho; [|done]. cbn.
    unfold owner_of. by rewrite (Hf _ Ho).
Qed.

Lemma fresh_facts s o : kpre s -> fresh_obj s o ->
  (forall t, waits (g_tasks s) t <> Some o) /\ own None (g_objs s) o = None.
Proof. intros Hk. eapply fresh_core; apply Hk. Qed.

Lemma core_new_obj T objs rq th lo now o ob :
  core None T objs rq th lo now -> (forall t, waits T t <> Some o) -> own None objs o = None ->
  obj_ok ob -> blk_list ob = [] -> owner_of ob = None -> core None T (<[o := ob]> objs) rq th lo now.
Proof.
  intros [? ? ? ? ? Hmx Hmw] Hno Hown Hok Hl Hw.
  assert (Hsame : own None (<[o := ob]> objs) ≐ own None objs).
  { rewrite own_insert, Hw. by apply fupd_id. }
  split; try done.
  - by apply map_Forall_insert_2.
  - by apply blks_new.
  - by rewrite Hsame.
  - intros u m mb Hu Hm Hty Hx. rewrite Hsame. apply lookup_insert_Some in Hm as [[<- <-]|[_ Hm]].
    + by destruct (Hno u).
    + by eapply Hmw.
Qed.

Lemma wf_new s o ob :
  wf s -> fresh_obj s o -> obj_ok ob -> blk_list ob = [] -> owner_of ob = None -> wf (with_obj o ob s).
Proof.
  intros Hwf Hf Hok Hl Hw. destruct (fresh_facts _ _ (wf_pre _ Hwf) Hf) as [Hno Hown].
  destruct Hwf as [[[Hc Hpi Hs] Hn] Hr Ht].
  split; [|done..]. split; [|by apply none_insert]. split; [|done..]. by apply core_new_obj.
Qed.

Lemma wf_free s o ob :
  wf s -> g_objs s !! o = Some ob -> obj_type ob = RHINO_OBJ_TYPE_NONE ->
  wf (set_g_objs (delete o (g_objs s)) s).
Proof.
  intros Hwf Ho Hty. destruct (fresh_facts s o (wf_pre _ Hwf)) as [Hno Hown].
  { intros ob' Ho'. congruence. }
  destruct Hwf as [[[[? ? ? ? ? Hmx Hmw] Hpi Hs] Hn] Hr Ht].
  assert (Hsame : own None (delete o (g_objs s)) ≐ own None (g_objs s)).
  { intros m. unfold own. rewrite !decide_False by done. destruct (decide (m = o)) as [->|Hne].
    - rewrite lookup_delete_eq, Ho. cbn. unfold owner_of. by rewrite Hty.
    - by rewrite lookup_delete_ne. }
  split; [|done..]. split; cbn; [|by apply map_Forall_delete]. split; [|done..]. split; cbn; try done.
  - by apply map_Forall_delete.
  - by apply blks_delete.
  - by rewrite Hsame.
  - intros u m mb Hu [_ Hm]%lookup_delete_Some Hty' Hx. rewrite Hsame. by eapply Hmw.
Qed.

(** An invariant of the kernel that a new object in unused memory keeps: the
    invariant of the running system, and the one of a system that is set up and
    not started yet. *)
Class Creates (Inv : kstate -> Prop) := {
  cr_new s o ob : Inv s -> fresh_obj s o -> obj_ok ob -> blk_list ob = [] -> owner_of ob = None -> Inv (with_obj o ob s);
  cr_list s l : Inv s -> Inv (set_g_kobj_list l s)
}.

Section creates.
Context {Inv : kstate -> Prop} `{!Creates Inv}.

(** a creation succeeds or changes nothing *)
Definition creates (m : K kret) (s : kstate) : Prop :=
  wp m (fun r s' => Inv s' /\ (r = Ret RHINO_SUCCESS \/ s' = s)) s.

Lemma creates_err st s : Inv s -> creates (ret st) s.
Proof using. intros Hi. apply wp_ret. split; [done|by right]. Qed.

Lemma creates_new s o ob l : Inv s -> fresh_obj s o -> obj_ok ob -> blk_list ob = [] -> owner_of ob = None ->
  let s' := set_g_kobj_list l (with_obj o ob s) in Inv s' /\ (Ret RHINO_SUCCESS = Ret RHINO_SUCCESS \/ s' = s).
Proof using Creates0. intros. split; [by apply cr_list, cr_new|by left]. Qed.

Lemma creates_keeps m s : creates m s -> wp m (fun _ s' => Inv s') s.
Proof using. apply wp_mono. by intros ?? [? _]. Qed.

(** memory the allocator gives is new; it is given back when the creation fails *)
Lemma dyn_create_keeps s alloc create :
  Inv s -> (forall o, alloc = Some o -> g_objs s !! o = None /\ creates (create o) s) ->
  wp (dyn_create alloc create) (fun _ s' => Inv s') s.
Proof using.
  intros Hi Hc. unfold dyn_create. destruct alloc as [o|]; [|by apply wp_ret].
  destruct (Hc o eq_refl) as [Ho Hcr]. apply wp_bind. eapply wp_mono; [|exact Hcr]. cbv beta. intros r s' (Hi' & Hr).
  assert (Hfree : s' = s -> wp (free_obj o;; mret (r, None) : K (kret * option nat)) (fun _ s' => Inv s') s').
  { intros ->. apply wp_bind, wp_modify, wp_ret. rewrite delete_id by done. by destruct s. }
  destruct Hr as [->| ->]; [by apply wp_ret|]. destruct r as [[]|]; auto; by apply wp_ret.
Qed.
End creates.
#[global] Arguments creates Inv m s : clear implicits.

Definition deleted_obj (ob : kobj) : kobj := set_blk_list [] (set_obj_type RHINO_OBJ_TYPE_NONE ob).

(** what deleting an object other than a mutex leaves: the object is gone and
    its waiting tasks are told so *)
Record destroyed (s : kstate) (o : nat) (ob ob' : kobj) (s' : kstate) : Prop := {
  de_pre : kpre s';
  de_tasks : g_tasks s' = wake_tasks (woken BLK_DEL) (blk_list ob) (g_tasks s);
  de_objs : g_objs s' = <[o := ob']> (g_objs s)
}.

(** ** Fields of a task the invariant does not read *)

Record task_like (tk tk' : ktask) : Prop := {
  tl_state : task_state tk' = task_state tk;
  tl_prio : prio tk' = prio tk;
  tl_b_prio : b_prio tk' = b_prio tk;
  tl_mutex : mutex_list tk' = mutex_list tk;
  tl_match : tick_match tk' = tick_match tk;
  tl_head : tick_head tk' = tick_head tk;
  tl_obj : blk_obj tk' = blk_obj tk;
  tl_susp : suspend_count tk' = suspend_count tk
}.

Section task_like.
Context (T : gmap nat ktask) (t : nat) (tk tk' : ktask) (Ht : T !! t = Some tk) (Hl : task_like tk tk').
Abbreviation T' := (<[t := tk']> T).

Lemma like_ready : ready T' ≐ ready T.
Proof. eapply tview_same; [exact Ht|]. unfold ready_of. by rewrite (tl_state _ _ Hl), (tl_prio _ _ Hl). Qed.
Lemma like_waits : waits T' ≐ waits T.
Proof.
  eapply tview_same; [exact Ht|]. unfold waits_of, is_pending. by rewrite (tl_state _ _ Hl), (tl_obj _ _ Hl).
Qed.
Lemma like_live : live T' ≐ live T.
Proof. eapply tview_same; [exact Ht|]. unfold is_live. by rewrite (tl_state _ _ Hl). Qed.
Lemma like_held : held T' ≐ held T.
Proof.
  eapply tview_same; [exact Ht|]. unfold held_of, is_live. by rewrite (tl_state _ _ Hl), (tl_mutex _ _ Hl).
Qed.

Lemma like_ok : task_ok tk -> task_ok tk'.
Proof.
  destruct Hl as [H1 H2 H3 H4 H5 H6 H7 H8].
  intros [? ? ? ? ? ? ?]; split; unfold is_pending, is_sleeping, is_suspended in *; rewrite ?H1, ?H2, ?H3, ?H6, ?H7, ?H8; done.
Qed.

Lemma core_like x objs rq th lo now : core x T objs rq th lo now -> core x T' objs rq th lo now.
Proof.
  intros [? Htask ? ? ? ? ?]. split.
  - by rewrite like_ready.
  - apply map_Forall_insert_2; [|done]. apply like_ok. by apply (Htask t).
  - done.
  - rewrite like_waits. unfold prioV. rewrite (tview_same _ _ T t tk); [done|done|apply Hl].
  - unfold ticking, matchV. rewrite !(tview_same _ _ T t tk); [done|done|apply Hl|done|apply Hl].
  - by rewrite like_held.
  - by rewrite like_waits.
Qed.

Lemma pi_like : pi_all T -> pi_all T'.
Proof.
  unfold pi_all. rewrite like_held, like_waits, like_live. unfold prioV, bprioV.
  rewrite !(tview_same _ _ T t tk); [done|done|apply Hl|done|apply Hl].
Qed.

Lemma sched_like a lock nested : sched_ok T a lock nested -> sched_ok T' a lock nested.
Proof.
  intros [Hi Hu Ha Hlk Hn Hr]. split; try done.
  - destruct Hi as (ik & Hik & ? & ? & ?). destruct (decide (t = g_idle_task)) as [->|Hne].
    + exists tk'. rewrite lookup_insert_eq, (tl_state _ _ Hl), (tl_b_prio _ _ Hl), (tl_mutex _ _ Hl).
      rewrite Ht in Hik. by injection Hik as ->.
    + exists ik. by rewrite lookup_insert_ne.
  - intros u uk [[<- <-]|[_ Huk]]%lookup_insert_Some Hune; [rewrite (tl_b_prio _ _ Hl)|]; eauto.
  - apply lookup_insert_is_Some'. by right.
  - intros Hk. rewrite (like_ready a). auto.
Qed.

Lemma kmid_task_like objs rq th s : kmid (kput T objs rq th s) -> kmid (kput T' objs rq th s).
Proof. intros [Hc Hpi Hs]. split; [by apply core_like|by apply pi_like|by apply sched_like]. Qed.

Lemma kpre_task_like objs rq th s : kpre (kput T objs rq th s) -> kpre (kput T' objs rq th s).
Proof. intros [Hm Hn]. split; [by apply kmid_task_like|done]. Qed.

Lemma wf_task_like objs rq th s : wf (kput T objs rq th s) -> wf (kput T' objs rq th s).
Proof.
  intros [Hk Hr Htop]. split; [by apply kpre_task_like|..|done]. cbn. by rewrite like_ready.
Qed.
End task_like.

(** the body of a deleted object does not matter *)
Lemma deleted_like ob b : obj_type ob = RHINO_OBJ_TYPE_NONE -> obj_like ob (set_body b ob).
Proof. intros Hty. split; try done; unfold owner_of, obj_ok; cbn; by rewrite Hty. Qed.

Lemma kpre_deleted_body T objs rq th s o ob b :
  kpre (kput T objs rq th s) -> objs !! o = Some ob -> obj_type ob = RHINO_OBJ_TYPE_NONE ->
  kpre (kput T (<[o := set_body b ob]> objs) rq th s).
Proof. intros Hk Ho Hty. eapply kpre_obj; [exact Hk|exact Ho|by apply deleted_like]. Qed.

(** what follows the deletion of an object in the two calls that delete it:
    [destroy] has ended in a state [P] describes *)
Lemma wp_delete s o ob' {A} (destroy : K unit) (k : K A) (Q : A -> kstate -> Prop) :
  (forall R : unit -> kstate -> Prop, (forall s', kpre s' -> g_objs s' !! o = Some ob' -> R tt s') -> wp destroy R s) ->
  (forall s', wf s' -> g_objs s' !! o = Some ob' -> wp k Q s') ->
  wp (destroy;; core_sched;; k) Q s.
Proof.
  intros Hd Hk. apply wp_bind, Hd. intros s' Hp Ho. apply wp_bind, wp_core_sched; [exact Hp|].
  intros s2 Hwf2 (p & a' & ->). by apply Hk.
Qed.

Lemma wp_delete_static s o ob' (destroy : K unit) :
  (forall R : unit -> kstate -> Prop, (forall s', kpre s' -> g_objs s' !! o = Some ob' -> R tt s') -> wp destroy R s) ->
  keeps (destroy;; exit_sched (Ret RHINO_SUCCESS)) s.
Proof. intros Hd. eapply (wp_delete s o ob'); [exact Hd|]. intros s' Hwf _. by apply wp_ret. Qed.

Lemma wp_delete_dyn s o ob' (destroy : K unit) :
  obj_type ob' = RHINO_OBJ_TYPE_NONE ->
  (forall R : unit -> kstate -> Prop, (forall s', kpre s' -> g_objs s' !! o = Some ob' -> R tt s') -> wp destroy R s) ->
  keeps (destroy;; core_sched;; free_obj o;; ret (A := kret) RHINO_SUCCESS) s.
Proof.
  intros Hty Hd. eapply (wp_delete s o ob'); [exact Hd|]. intros s' Hwf Ho. apply wp_bind, wp_modify, wp_ret.
  by eapply wf_free.
Qed.

(** ** A task changes its state without starting or stopping to wait *)

Record task_step (tk tk' : ktask) : Prop := {
  ts_ok : task_ok tk';
  ts_waits : waits_of tk' = waits_of tk;
  ts_prio : prio tk' = prio tk;
  ts_b_prio : b_prio tk' = b_prio tk;
  ts_live : is_live tk' = is_live tk;
  ts_mutex : mutex_list tk' = mutex_list tk
}.

Section task_step.
Context (T : gmap nat ktask) (t : nat) (tk tk' : ktask) (Ht : T !! t = Some tk) (Hs : task_step tk tk').
Abbreviation T' := (<[t := tk']> T).

Lemma step_same : live T' ≐ live T /\ held T' ≐ held T /\ waits T' ≐ waits T /\ prioV T' ≐ prioV T /\ bprioV T' ≐ bprioV T.
Proof.
  split_and!; (eapply tview_same; [exact Ht|]); try apply Hs. unfold held_of. by rewrite (ts_live _ _ Hs), (ts_mutex _ _ Hs).
Qed.

Lemma core_task_step x objs rq rq' th th' lo now :
  core x T objs rq th lo now -> rq_ok (fupd (ready T) t (ready_of tk')) rq' ->
  tick_ok lo (fupd (ticking T) t (tick_head tk')) (fupd (matchV T) t (tick_match tk')) now th' ->
  core x T' objs rq' th' lo now.
Proof.
  intros [Hrq Htask Hobj Hblk Htick Hmx Hmw] Hrq' Hth'. destruct step_same as (HL & HH & HW & HP & HB).
  split.
  - unfold ready. by rewrite tview_insert.
  - apply map_Forall_insert_2; [apply Hs|done].
  - done.
  - by rewrite HW, HP.
  - unfold ticking, matchV. by rewrite !tview_insert.
  - by rewrite HH.
  - by rewrite HW.
Qed.

Lemma pi_task_step : pi_all T -> pi_all T'.
Proof. destruct step_same as (HL & HH & HW & HP & HB). unfold pi_all. by rewrite HL, HH, HW, HP, HB. Qed.

Lemma kmid_task_step objs rq rq' th th' s :
  kmid (kput T objs rq th s) -> t <> g_idle_task ->
  (t = g_active_task s -> 0 < g_sched_lock s -> task_state tk' = K_RDY) ->
  rq_ok (fupd (ready T) t (ready_of tk')) rq' ->
  tick_ok 1 (fupd (ticking T) t (tick_head tk')) (fupd (matchV T) t (tick_match tk')) (g_tick_count s) th' ->
  kmid (kput T' objs rq' th' s).
Proof.
  intros [Hc Hpi Hsch] Hti Hlk Hrq' Hth'. split.
  - by eapply core_task_step.
  - by apply pi_task_step.
  - eapply sched_upd; [exact Hsch|exact Ht|done|apply Hs|exact Hlk].
Qed.
End task_step.

(** the part of the tick list that does not change *)
Lemma tick_ok_keep lo T now th t tk tk' :
  tick_ok lo (ticking T) (matchV T) now th -> T !! t = Some tk -> tick_head tk' = tick_head tk ->
  tick_match tk' = tick_match tk ->
  tick_ok lo (fupd (ticking T) t (tick_head tk')) (fupd (matchV T) t (tick_match tk')) now th.
Proof.
  intros H Ht Hh Hm. rewrite !fupd_id; [done| |]; unfold ticking, matchV; rewrite (tview_lookup _ _ _ _ _ Ht); congruence.
Qed.

(** inside an interrupt nothing is said of the task to run *)
Lemma wf_nested s : kpre s -> 0 < g_intrpt_nested_level s -> wf s.
Proof. intros Hk Hn. split; [done|intros; lia..]. Qed.

Lemma active_prio_idle s t tk : kmid s -> g_tasks s !! t = Some tk -> prio tk <> RHINO_IDLE_PRI -> t <> g_idle_task.
Proof.
  intros [Hc Hpi Hs] Ht Hp ->. destruct (so_idle _ _ _ _ Hs) as (ik & Hik & Hst & Hb & Hm). simplify_eq.
  assert (Hl : live (g_tasks s) g_idle_task = true).
  { unfold live. rewrite (tview_lookup _ _ _ _ _ Ht). unfold is_live. by rewrite Hst. }
  specialize (Hpi _ Hl). unfold prioV, bprioV, held in Hpi. rewrite !(tview_lookup _ _ _ _ _ Ht) in Hpi.
  unfold held_of in Hpi. rewrite Hm in Hpi. destruct Hpi as [_ _ [?|(m & u & Hmm & _)]]; [congruence|].
  destruct (is_live tk); by apply elem_of_nil in Hmm.
Qed.

(** ** New tasks *)

(** a control block no live task uses *)
Definition fresh_task (T : gmap nat ktask) (t : nat) : Prop :=
  forall tk, T !! t = Some tk -> task_state tk = K_DELETED.

Section new_task.
Context (x : option nat) (T : gmap nat ktask) (objs : gmap nat kobj) (rq : runqueue_t) (th : list nat) (lo now : Z).
Context (Hc : core x T objs rq th lo now) (t : nat) (tk : ktask) (Hf : fresh_task T t).
Context (Hok : task_ok tk) (Hnew : task_state tk = K_RDY \/ task_state tk = K_SUSPENDED) (Hm : mutex_list tk = []).

Lemma fresh_views : ready T t = None /\ waits T t = None /\ ticking T t = false /\ held T t = [].
Proof using Hc Hf.
  unfold ready, waits, ticking, held, tview, fresh_task in *. pose proof (c_task _ _ _ _ _ _ _ Hc t) as Htask.
  destruct (T !! t) as [tk0|]; [|done]. cbn. specialize (Hf _ eq_refl). specialize (Htask _ eq_refl).
  split_and!.
  - unfold ready_of. by rewrite Hf.
  - unfold waits_of, is_pending. by rewrite Hf.
  - destruct (tick_head tk0) eqn:E; [|done]. destruct (tk_tick _ Htask E) as [H|H];
      unfold is_pending, is_sleeping in H; by rewrite Hf in H.
  - unfold held_of, is_live. by rewrite Hf.
Qed.

Lemma new_views : waits_of tk = None /\ held_of tk = [] /\ is_live tk = true /\ tick_head tk = false.
Proof using Hok Hnew Hm.
  split_and!.
  - unfold waits_of, is_pending. by destruct Hnew as [-> | ->].
  - unfold held_of. rewrite Hm. by destruct (is_live tk).
  - unfold is_live. by destruct Hnew as [-> | ->].
  - destruct (tick_head tk) eqn:E; [|done]. destruct (tk_tick _ Hok E) as [H|H];
      unfold is_pending, is_sleeping in H; by destruct Hnew as [E' | E']; rewrite E' in H.
Qed.

Lemma new_same : waits (<[t := tk]> T) ≐ waits T /\ held (<[t := tk]> T) ≐ held T /\ ticking (<[t := tk]> T) ≐ ticking T.
Proof using Hc Hf Hok Hnew Hm.
  destruct fresh_views as (_ & F2 & F3 & F4). destruct new_views as (N1 & N2 & _ & N4).
  unfold waits, held, ticking in *. rewrite !tview_insert, !fupd_id by congruence. done.
Qed.

Lemma core_new_task rq' :
  rq_ok (fupd (ready T) t (ready_of tk)) rq' -> core x (<[t := tk]> T) objs rq' th lo now.
Proof using Hc Hf Hok Hnew Hm.
  intros Hrq'. destruct fresh_views as (_ & F2 & F3 & _). destruct new_same as (HW & HH & HC).
  destruct Hc as [Hrq Htask Hobj Hblk Htick Hmx Hmw]. split.
  - unfold ready. by rewrite tview_insert.
  - by apply map_Forall_insert_2.
  - done.
  - rewrite HW. unfold prioV. rewrite tview_insert. apply blks_prio; [done|]. intros o ob Ho. congruence.
  - rewrite HC. unfold matchV. rewrite tview_insert. by apply tick_set_match.
  - by rewrite HH.
  - by rewrite HW.
Qed.

Lemma pi_new_task : prio tk = b_prio tk -> pi_all T -> pi_all (<[t := tk]> T).
Proof using Hc Hf Hok Hnew Hm.
  intros Hp Hpi. destruct fresh_views as (_ & F2 & _ & F4). destruct new_same as (HW & HH & _).
  unfold pi_all. rewrite HW, HH. unfold prioV, bprioV, live. rewrite !tview_insert. intros u Hu.
  unfold fupd at 2 3. case_decide as Hd.
  - subst u. rewrite F4, Hp. apply is_inh_nil.
  - eapply is_inh_P; [apply Hpi; by rewrite fupd_ne in Hu|]. intros m v _ Hv. apply fupd_ne. intros ->. congruence.
Qed.
End new_task.
