(* ===== verification/Mutex.v ===== *)
(** * Mutexes ([core/k_mutex.c]) *)

From S2P Require Import Prelude Config State Sched Inv Tick Pend PriChange KInv.

(** ** The code *)

(** [(mutex_nested_t)-1], 32 bits ([k_types.h]) *)
Definition MUTEX_NESTED_MAX : Z := 2 ^ 32 - 1.

Definition mutex_body (ob : kobj) : option (option nat * Z) :=
  match body ob with KMutex mt n => Some (mt, n) | _ => None end.

(** the code leaves [owner_nested], which nothing reads before the first lock sets it *)
Definition mutex_create (mutex name : option nat) (mm_alloc_flag : Z) : K kret :=
  NULL_PARA_CHK mutex (fun m =>
  NULL_PARA_CHK name (fun _ =>
    new_obj m (mkObj [] BLK_POLICY_PRI RHINO_MUTEX_OBJ_TYPE mm_alloc_flag (KMutex None 0));;
    upd_kobj_list (fun l => set_mutex_head (mutex_head l ++ [m]) l);;
    ret RHINO_SUCCESS)).

Definition krhino_mutex_create (mutex name : option nat) : K kret :=
  mutex_create mutex name K_OBJ_STATIC_ALLOC.

(** what [krhino_mutex_del] and [krhino_mutex_dyn_del] do once their checks
    have passed, up to [RHINO_CRITICAL_EXIT_SCHED] *)
Definition mutex_destroy (m : nat) : K unit :=
  ob ← get_obj m;
  b ← lift (mutex_body ob);
  upd_obj m (set_obj_type RHINO_OBJ_TYPE_NONE);;
  match b.1 with
  | None => mret tt
  | Some owner => mutex_release owner (Some m)
  end;;
  for_all_waiting m pend_task_rm;;
  upd_kobj_list (fun l => set_mutex_head (klist_del m (mutex_head l)) l).

Definition krhino_mutex_del (mutex : option nat) : K kret :=
  NULL_PARA_CHK mutex (fun m =>
  INTRPT_NESTED_LEVEL_CHK (
  OBJ_TYPE_CHK m RHINO_MUTEX_OBJ_TYPE (fun ob =>
  ALLOC_FLAG_CHK ob K_OBJ_STATIC_ALLOC (
    mutex_destroy m;; exit_sched (Ret RHINO_SUCCESS))))).

Definition krhino_mutex_dyn_create (mutex alloc name : option nat) : K (kret * option nat) :=
  NULL_PARA_CHK mutex (fun _ => dyn_create alloc (fun m => mutex_create (Some m) name K_OBJ_DYN_ALLOC)).

Definition krhino_mutex_dyn_del (mutex : option nat) : K kret :=
  NULL_PARA_CHK mutex (fun m =>
  INTRPT_NESTED_LEVEL_CHK (
  OBJ_TYPE_CHK m RHINO_MUTEX_OBJ_TYPE (fun ob =>
  ALLOC_FLAG_CHK ob K_OBJ_DYN_ALLOC (
    mutex_destroy m;; core_sched;; free_obj m;; ret RHINO_SUCCESS)))).

Definition krhino_mutex_lock (mutex : option nat) (ticks : Z) : K kret :=
  NULL_PARA_CHK mutex (fun m =>
  st ← gets g_sys_stat;
  if bool_decide (st = RHINO_STOPPED) then ret RHINO_SUCCESS else
  INTRPT_NESTED_LEVEL_CHK (
  OBJ_TYPE_CHK m RHINO_MUTEX_OBJ_TYPE (fun ob =>
    b ← lift (mutex_body ob);
    a ← gets g_active_task;
    (* if the same task get the same mutex again, it causes mutex owner nested *)
    if bool_decide (b.1 = Some a) then
      if b.2 =? MUTEX_NESTED_MAX then k_err_proc RHINO_MUTEX_NESTED_OVF
      else
        upd_obj m (set_body (KMutex b.1 (b.2 + 1)));;
        ret RHINO_MUTEX_OWNER_NESTED
    else
    match b.1 with
    | None =>
        (* get lock *)
        ak ← get_task a;
        upd_task a (set_mutex_list (m :: mutex_list ak));;
        upd_obj m (set_body (KMutex (Some a) 1));;
        ret RHINO_SUCCESS
    | Some mutex_task =>
        if ticks =? RHINO_NO_WAIT then ret RHINO_NO_PEND_WAIT else
        SCHED_LOCK_CHK (
          ak ← get_task a;
          mk ← get_task mutex_task;
          (* prio inherit method is used here *)
          (if prio ak <? prio mk then task_pri_change mutex_task (prio ak);; mret tt else mret tt);;
          (* any way block the current task *)
          pend_to_blk_obj m a ticks;;
          exit_sched Blocked)
    end))).

(** what the task does when it runs again after [krhino_mutex_lock] blocked it *)
Definition krhino_mutex_lock_resume : K kret :=
  a ← gets g_active_task; st ← pend_state_end_proc a; mret (Ret st).

Definition krhino_mutex_unlock (mutex : option nat) : K kret :=
  NULL_PARA_CHK mutex (fun m =>
  st ← gets g_sys_stat;
  if bool_decide (st = RHINO_STOPPED) then ret RHINO_SUCCESS else
  INTRPT_NESTED_LEVEL_CHK (
  OBJ_TYPE_CHK m RHINO_MUTEX_OBJ_TYPE (fun ob =>
    b ← lift (mutex_body ob);
    a ← gets g_active_task;
    (* mutex must be released by itself *)
    if negb (bool_decide (b.1 = Some a)) then ret RHINO_MUTEX_NOT_RELEASED_BY_OWNER else
    let owner_nested := u32 (b.2 - 1) in
    upd_obj m (set_body (KMutex b.1 owner_nested));;
    if 0 <? owner_nested then ret RHINO_MUTEX_OWNER_NESTED else
    mutex_release a (Some m);;
    ob ← get_obj m;
    match blk_list ob with
    | [] =>
        (* No wait task *)
        upd_obj m (set_body (KMutex None owner_nested));;
        ret RHINO_SUCCESS
    | t :: _ =>
        (* wake up the occupy task, which is the highst prio task on the list *)
        pend_task_wakeup t;;
        tk ← get_task t;
        (* change mutex get task *)
        upd_task t (set_mutex_list (m :: mutex_list tk));;
        upd_obj m (set_body (KMutex (Some t) 1));;
        exit_sched (Ret RHINO_SUCCESS)
    end))).

(** ** Locking *)

Lemma mutex_body_ok o ob s :
  kpre s -> g_objs s !! o = Some ob -> obj_type ob = RHINO_MUTEX_OBJ_TYPE ->
  exists mt nested, mutex_body ob = Some (mt, nested) /\ body ob = KMutex mt nested /\
    0 <= nested < 2 ^ 32 /\ blk_policy ob = BLK_POLICY_PRI /\ own None (g_objs s) o = mt.
Proof.
  intros Hk Ho Hty. pose proof (c_obj _ _ _ _ _ _ _ (kp_core _ (kp_mid _ Hk)) _ _ Ho) as Hok.
  unfold obj_ok in Hok. rewrite Hty in Hok. unfold mutex_body, own. rewrite decide_False, Ho by done. cbn.
  unfold owner_of, mutex_owner. rewrite Hty. destruct (body ob) as [|mt nested| | |]; try done.
  exists mt, nested. by destruct Hok.
Qed.

Lemma mutex_like ob mt nested nested' :
  obj_type ob = RHINO_MUTEX_OBJ_TYPE -> body ob = KMutex mt nested -> blk_policy ob = BLK_POLICY_PRI ->
  0 <= nested' < 2 ^ 32 -> obj_like ob (set_body (KMutex mt nested') ob).
Proof.
  intros Hty Hb Hp Hn. split; try done.
  - unfold owner_of, mutex_owner. cbn. by rewrite Hb.
  - unfold obj_ok. cbn. by rewrite Hty.
Qed.

(** nobody waits for a free mutex *)
Lemma free_mutex_unwaited x T objs rq th lo now m ob :
  core x T objs rq th lo now -> objs !! m = Some ob -> obj_type ob = RHINO_MUTEX_OBJ_TYPE -> x <> Some m ->
  own x objs m = None -> forall u, waits T u <> Some m.
Proof.
  intros Hc Ho Hty Hx Hown u Hu. destruct (c_mwait _ _ _ _ _ _ _ Hc u m ob Hu Ho Hty Hx) as (v & Hv & _). congruence.
Qed.

(** the mutex [m], owned by nobody, is given to [t] *)
Lemma core_acquire x T objs rq th lo now t tk m ob nested :
  core x T objs rq th lo now -> T !! t = Some tk -> is_live tk = true -> objs !! m = Some ob ->
  obj_type ob = RHINO_MUTEX_OBJ_TYPE -> own x objs m = None -> (x = None \/ x = Some m) ->
  waits T t <> Some m -> 0 <= nested < 2 ^ 32 -> blk_policy ob = BLK_POLICY_PRI ->
  core None (<[t := set_mutex_list (m :: mutex_list tk) tk]> T)
    (<[m := set_body (KMutex (Some t) nested) ob]> objs) rq th lo now.
Proof.
  intros [Hrq Htask Hobj Hblk Htick Hmx Hmw] Ht Hl Ho Hty Hown Hx Hwt Hn Hpol.
  assert (Hheld : held T t = mutex_list tk).
  { unfold held. rewrite (tview_lookup _ _ _ _ _ Ht). unfold held_of. by rewrite Hl. }
  assert (HO : own None (<[m := set_body (KMutex (Some t) nested) ob]> objs) ≐ fupd (own x objs) m (Some t)).
  { rewrite own_insert. rewrite decide_False by done. intros u. unfold fupd at 1 2.
    case_decide as Hu.
    - unfold owner_of, mutex_owner. cbn. by rewrite Hty.
    - destruct Hx as [->| ->]; [done|]. unfold own. by rewrite (decide_False (P := Some m = Some u)) by congruence. }
  split.
  - unfold ready. by rewrite (tview_same ready_of None T t tk).
  - apply map_Forall_insert_2; [|done]. by destruct (Htask _ _ Ht).
  - apply map_Forall_insert_2; [|done]. unfold obj_ok. cbn. by rewrite Hty.
  - unfold waits, prioV. rewrite !(tview_same _ _ T t tk) by done. by eapply blks_obj.
  - unfold ticking, matchV. by rewrite !(tview_same _ _ T t tk).
  - rewrite HO. unfold held. rewrite tview_insert. unfold held_of at 2.
    replace (is_live (set_mutex_list (m :: mutex_list tk) tk)) with (is_live tk) by done. rewrite Hl. cbn.
    rewrite <- Hheld. by apply mutex_acquire_ok.
  - unfold waits. rewrite (tview_same waits_of None T t tk) by done.
    intros u q qb Hu Hq Hqty _. rewrite HO. unfold fupd. case_decide as E; [exists t; split; [done|by intros ->; subst]|].
    rewrite lookup_insert_ne in Hq by done. apply (Hmw u q qb); try done. destruct Hx as [->| ->]; congruence.
Qed.

Lemma pi_acquire_but x T t tk m :
  pi_but x T -> T !! t = Some tk -> is_live tk = true ->
  (forall v, waits T v = Some m -> prioV T t <= prioV T v) ->
  pi_but x (<[t := set_mutex_list (m :: mutex_list tk) tk]> T).
Proof.
  intros Hpi Ht Hl Hw u Hux. set (tk' := set_mutex_list (m :: mutex_list tk) tk).
  assert (Hs : forall A (f : ktask -> A) d, f tk' = f tk -> tview f d (<[t := tk']> T) ≐ tview f d T)
    by (intros A f d Hf; by eapply tview_same).
  unfold prioV, bprioV, waits, live. rewrite (Hs _ prio 0 eq_refl u), (Hs _ prio 0 eq_refl), (Hs _ waits_of None eq_refl).
  rewrite (Hs _ b_prio 0 eq_refl u), (Hs _ is_live false eq_refl u). intros Hu.
  assert (Hheld : held T t = mutex_list tk).
  { unfold held. rewrite (tview_lookup _ _ _ _ _ Ht). unfold held_of. by rewrite Hl. }
  unfold held. rewrite (tview_insert held_of [] T t tk' u). unfold fupd.
  case_decide; [subst u|by apply Hpi]. unfold held_of. replace (is_live tk') with (is_live tk) by done. rewrite Hl. cbn.
  rewrite <- Hheld. apply is_inh_cons; [by apply Hpi|exact Hw].
Qed.

Lemma pi_acquire T t tk m :
  pi_all T -> T !! t = Some tk -> is_live tk = true ->
  (forall v, waits T v = Some m -> prioV T t <= prioV T v) ->
  pi_all (<[t := set_mutex_list (m :: mutex_list tk) tk]> T).
Proof. rewrite !pi_all_but. intros Hpi; intros. by apply pi_acquire_but. Qed.

(** ** Blocking on a mutex *)

(** the priorities are right once the active task [a], of priority [p], counts
    as waiting for [m] and the owner has at least [p] *)
Lemma pi_virtual T a m mt q :
  pi_all T -> waits T a = None -> m ∈ held T mt -> (forall u, m ∈ held T u -> u = mt) -> live T mt = true ->
  (q = prioV T mt /\ prioV T mt <= prioV T a) \/ (q = prioV T a /\ prioV T a < prioV T mt) ->
  pi_ok (fupd (prioV T) mt q) (live T) (bprioV T) (held T) (fupd (waits T) a (Some m)) (prioV T).
Proof.
  intros Hpi Ha Hm Huniq Hl Hq u Hu. unfold fupd at 2. case_decide as E.
  - subst u. destruct (Hpi mt Hl) as [Hb Hw Hr]. destruct Hq as [[-> Hle]|[-> Hlt]]; split; try lia.
    + intros k v Hk Hv. unfold fupd in Hv. case_decide; [by subst|eauto].
    + destruct Hr as [?|(k & v & Hk & Hv & ?)]; [by left|right]. exists k, v. split_and!; [done| |done].
      rewrite fupd_ne; [done|]. congruence.
    + intros k v Hk Hv. unfold fupd in Hv. case_decide; [by subst|]. specialize (Hw _ _ Hk Hv). lia.
    + right. exists m, a. by rewrite fupd_eq.
  - eapply is_inh_W; [by apply Hpi|]. intros k v Hk. unfold fupd. case_decide; [subst v|done].
    rewrite Ha. split; [|done]. intros [= ->]. by apply Huniq in Hk.
Qed.

Lemma pi_blocked T a ak m ticks now :
  T !! a = Some ak -> task_state ak = K_RDY ->
  pi_ok (prioV T) (live T) (bprioV T) (held T) (fupd (waits T) a (Some m)) (prioV T) ->
  pi_all (<[a := blocked m now ticks ak]> T).
Proof.
  intros Ha Hr Hpi. unfold pi_all, prioV, bprioV, live.
  assert (HW : waits (<[a := blocked m now ticks ak]> T) ≐ fupd (waits T) a (Some m)).
  { unfold waits. rewrite tview_insert. intros u. unfold fupd. case_decide; [|done].
    unfold waits_of, blocked. by destruct (ticks =? _). }
  assert (Hlv : is_live (blocked m now ticks ak) = is_live ak).
  { unfold is_live, blocked. destruct (ticks =? _); cbn; by rewrite Hr. }
  assert (Hsame : forall A (f : ktask -> A) d, f (blocked m now ticks ak) = f ak ->
            tview f d (<[a := blocked m now ticks ak]> T) ≐ tview f d T).
  { intros A f d Hf. by eapply tview_same. }
  rewrite HW, (Hsame _ prio), (Hsame _ b_prio), (Hsame _ is_live); [|done|..].
  - unfold held. rewrite (Hsame _ held_of); [exact Hpi|]. unfold held_of. rewrite Hlv.
    unfold blocked. by destruct (ticks =? _).
  - unfold blocked. by destruct (ticks =? _).
  - unfold blocked. by destruct (ticks =? _).
Qed.

(** the owner of a mutex, seen from its holder and from those who wait *)
Lemma holder_facts T objs rq th lo now t m :
  core None T objs rq th lo now -> m ∈ held T t ->
  exists ob nested, objs !! m = Some ob /\ obj_type ob = RHINO_MUTEX_OBJ_TYPE /\ mutex_body ob = Some (Some t, nested) /\
    forall u, m ∈ held T u -> u = t.
Proof.
  intros Hc Hm. destruct (held_mutex _ _ _ _ _ _ _ _ _ Hc Hm) as (_ & ob & Ho & Hty & Hown & _).
  unfold mutex_owner in Hown. destruct (body ob) as [|mt nested| | |] eqn:Hb; try done. subst mt.
  exists ob, nested. split_and!; [done|done|by unfold mutex_body; rewrite Hb|].
  intros u Hu. destruct (held_mutex _ _ _ _ _ _ _ _ _ Hc Hu) as (_ & ob' & Ho' & _ & Hown' & _).
  unfold mutex_owner in Hown'. simplify_eq. rewrite Hb in Hown'. congruence.
Qed.

Lemma waiter_facts T objs rq th lo now u m ob :
  core None T objs rq th lo now -> waits T u = Some m -> objs !! m = Some ob -> obj_type ob = RHINO_MUTEX_OBJ_TYPE ->
  exists t nested, t <> u /\ m ∈ held T t /\ mutex_body ob = Some (Some t, nested).
Proof.
  intros Hc Hw Ho Hty. destruct (c_mwait _ _ _ _ _ _ _ Hc _ _ _ Hw Ho Hty ltac:(done)) as (t & Ht & Hne).
  apply (mx_in _ _ (c_mutex _ _ _ _ _ _ _ Hc)) in Ht. destruct (holder_facts _ _ _ _ _ _ _ _ Hc Ht) as (ob' & nested & Ho' & _ & Hb & _).
  simplify_eq. by exists t, nested.
Qed.

Section lock.
Context (s : kstate) (m : nat) (ob : kobj) (mt : nat) (nested ticks : Z) (ak mk : ktask).
Abbreviation a := (g_active_task s).
Context (Hwf : wf s) (Ho : g_objs s !! m = Some ob) (Hty : obj_type ob = RHINO_MUTEX_OBJ_TYPE).
Context (Hb : body ob = KMutex (Some mt) nested) (Hne : mt <> a) (Hidle : a <> g_idle_task).
Context (Ha : g_tasks s !! a = Some ak) (Har : task_state ak = K_RDY).
Context (Hmk : g_tasks s !! mt = Some mk).
Context (Hn : g_intrpt_nested_level s = 0) (Hlk : g_sched_lock s = 0) (Ht : 0 < ticks < 2 ^ 64).

Lemma lock_owner : m ∈ held (g_tasks s) mt /\ (forall u, m ∈ held (g_tasks s) u -> u = mt) /\
  live (g_tasks s) mt = true.
Proof.
  destruct (mutex_body_ok _ _ _ (wf_pre _ Hwf) Ho Hty) as (mt' & n' & _ & Hb' & _ & _ & Hown).
  rewrite Hb in Hb'. simplify_eq. pose proof (c_mutex _ _ _ _ _ _ _ (kp_core _ (kp_mid _ (wf_pre _ Hwf)))) as Hmx.
  assert (Hheld : m ∈ held (g_tasks s) mt) by (by apply (mx_in _ _ Hmx)).
  split; [done|]. split; [|by destruct (held_live _ _ _ Hheld) as (? & ? & ? & ? & ?)].
  intros u Hu. apply (mx_in _ _ Hmx) in Hu. congruence.
Qed.

Lemma active_facts : waits (g_tasks s) a = None /\ prioV (g_tasks s) a = prio ak /\ prioV (g_tasks s) mt = prio mk.
Proof.
  split_and!; [|by apply (tview_lookup prio)..]. unfold waits. rewrite (tview_lookup _ _ _ _ _ Ha).
  unfold waits_of, is_pending. by rewrite Har.
Qed.

(** what a lock that waits has done: besides the waiting task, which has its
    timeout, priorities have changed, and lists that they order *)
Definition lock_waits (s : kstate) (m : nat) (ob : kobj) (ticks : Z) (s' : kstate) : Prop :=
  exists T objs l, prio_change (g_tasks s) T /\ relist (g_objs s) objs /\
    g_tasks s' = alter (blocked m (g_tick_count s) ticks) (g_active_task s) T /\ g_objs s' = <[m := set_blk_list l ob]> objs.

(** the second half: the owner has its priority, the active task blocks *)
Lemma wp_lock_block T objs rq {A} (k : K A) (Q : A -> kstate -> Prop) :
  kpre_but_pi T objs rq (g_tick_head s) s ->
  prio_change (g_tasks s) T -> relist (g_objs s) objs ->
  pi_ok (prioV T) (live T) (bprioV T) (held T) (fupd (waits T) a (Some m)) (prioV T) ->
  (forall s', wf s' -> blocks_on s m ob s' -> prioV (g_tasks s') mt <= prioV (g_tasks s') a -> lock_waits s m ob ticks s' -> wp k Q s') ->
  wp (pend_to_blk_obj m a ticks) (fun _ => wp (core_sched;; k) Q) (kput T objs rq (g_tick_head s) s).
Proof.
  intros Hk HT Hobjs Hpi HQ. destruct lock_owner as (Hheld & Huniq & Hlive).
  destruct (same_keys_lookup _ _ _ _ _ HT Ha) as (ak2 & Ha2 & p & ->).
  destruct (same_keys_lookup _ _ _ _ _ Hobjs Ho) as (ob2 & Ho2 & l & ->).
  pose proof (c_obj _ _ _ _ _ _ _ (kb_core _ _ _ _ _ Hk) _ _ Ho2) as Hok.
  eapply wp_block; [exact Hk|exact Ha2|exact Har|exact Hidle|exact Ho2| | |done|exact Ht| |].
  - split; [|right; exists mt; split; [unfold mutex_owner; cbn; by rewrite Hb|done]]. intros l2. unfold obj_ok in *. cbn in *.
    by rewrite Hty in *.
  - cbn. by rewrite Hty.
  - by apply pi_blocked.
  - intros rq' th' l2 Hk'. apply wp_bind, wp_core_sched; [exact Hk'|]. intros s' Hwf' (q & a' & ->).
    assert (HW : forall u, waits T u = waits (g_tasks s) u).
    { intros u. by apply (prio_change_view waits_of). }
    apply HQ; [exact Hwf'| | |].
    + split.
      * apply blocked_waits.
      * exists l2. split; [apply lookup_insert_eq|].
        eapply (block_members s _ m ob l2); [apply Hwf|exact Ho|exact (kp_mid _ Hk')|cbn; apply lookup_insert_eq| |].
        -- intros u Hu. cbn. unfold waits. rewrite (tview_insert _ _ _ _ _ u), fupd_ne by done. apply HW.
        -- apply blocked_waits.
      * eapply (wf_not_running _ _ m Hwf'); cbn; [done|]. apply blocked_waits.
    + cbn. set (tk' := blocked m (g_tick_count s) ticks (set_prio p ak)).
      assert (HP : forall u, prioV (<[a := tk']> T) u = prioV T u).
      { intros u. apply (tview_same prio 0 T a (set_prio p ak)); [done|]. subst tk'. unfold blocked.
        by destruct (ticks =? _). }
      rewrite !HP.
      assert (HL := prio_change_view is_live false _ _ (fun _ _ => eq_refl) HT).
      assert (HH := prio_change_view held_of [] _ _ (fun _ _ => eq_refl) HT).
      assert (Hl : live T mt = true) by (unfold live; by rewrite (HL mt)).
      assert (Hh : m ∈ held T mt) by (unfold held; by rewrite (HH mt)).
      exact (in_wait _ _ _ _ _ (Hpi mt Hl) m a Hh (fupd_eq _ _ _)).
    + exists T, objs, l2. split_and!; [done|done| |done]. cbn. by rewrite (alter_some _ _ _ _ Ha2).
Qed.
End lock.

(** taking a mutex nobody owns *)
Definition acquired (m : nat) (s : kstate) (ob : kobj) : kstate :=
  set_g_tasks (alter (fun tk => set_mutex_list (m :: mutex_list tk) tk) (g_active_task s) (g_tasks s))
    (with_obj m (set_body (KMutex (Some (g_active_task s)) 1) ob) s).

(** [krhino_mutex_lock]: a task that blocks has given its priority to the owner *)
Inductive lock_spec (s : kstate) (m : nat) (ob : kobj) (ticks : Z) : kret -> kstate -> Prop :=
  | lock_stopped : g_sys_stat s = RHINO_STOPPED -> lock_spec s m ob ticks (Ret RHINO_SUCCESS) s
  | lock_intrpt : 0 < g_intrpt_nested_level s -> lock_spec s m ob ticks (Ret RHINO_NOT_CALLED_BY_INTRPT) s
  | lock_type : obj_type ob <> RHINO_MUTEX_OBJ_TYPE -> lock_spec s m ob ticks (Ret RHINO_KOBJ_TYPE_ERR) s
  | lock_again nested : mutex_body ob = Some (Some (g_active_task s), nested) -> nested < MUTEX_NESTED_MAX ->
      lock_spec s m ob ticks (Ret RHINO_MUTEX_OWNER_NESTED)
        (with_obj m (set_body (KMutex (Some (g_active_task s)) (nested + 1)) ob) s)
  | lock_free nested : mutex_body ob = Some (None, nested) ->
      lock_spec s m ob ticks (Ret RHINO_SUCCESS) (acquired m s ob)
  | lock_nowait mt nested : mutex_body ob = Some (Some mt, nested) -> mt <> g_active_task s ->
      ticks = RHINO_NO_WAIT -> lock_spec s m ob ticks (Ret RHINO_NO_PEND_WAIT) s
  | lock_locked mt nested : mutex_body ob = Some (Some mt, nested) -> mt <> g_active_task s ->
      0 < g_sched_lock s -> lock_spec s m ob ticks (Ret RHINO_SCHED_DISABLE) s
  | lock_block mt nested s' : mutex_body ob = Some (Some mt, nested) -> mt <> g_active_task s ->
      blocks_on s m ob s' -> prioV (g_tasks s') mt <= prioV (g_tasks s') (g_active_task s) ->
      lock_waits s m ob ticks s' -> lock_spec s m ob ticks Blocked s'.

Section lock2.
Context (s : kstate) (m : nat) (ob : kobj) (mt : nat) (nested ticks : Z) (ak mk : ktask).
Abbreviation a := (g_active_task s).
Context (Hwf : wf s) (Ho : g_objs s !! m = Some ob) (Hty : obj_type ob = RHINO_MUTEX_OBJ_TYPE).
Context (Hb : body ob = KMutex (Some mt) nested) (Hne : mt <> a) (Hidle : a <> g_idle_task).
Context (Ha : g_tasks s !! a = Some ak) (Har : task_state ak = K_RDY).
Context (Hmk : g_tasks s !! mt = Some mk).

(** the change of priority the code makes before it blocks *)
Lemma lock_change_pre : prio ak < prio mk ->
  change_pre None g_idle_task (fupd (waits (g_tasks s)) a (Some m)) (g_tasks s) mt (prio ak).
Proof.
  intros Hlt. destruct (lock_owner s m ob mt nested Hwf Ho Hty Hb) as (Hheld & Huniq & Hlive).
  destruct (active_facts s mt ak mk Ha Har Hmk) as (Hwa & Hpa & Hpm).
  pose proof (kp_mid _ (wf_pre _ Hwf)) as [Hc Hpi Hs]. destruct (sched_idle_ready _ _ _ _ Hs) as [Hih Hir].
  split.
  - rewrite <- Hpa. apply pi_virtual; try done. right. lia.
  - intros u k Hu. rewrite fupd_ne; [done|]. intros ->. congruence.
  - intros u k. unfold fupd. case_decide; [subst; by right|by left].
  - by left.
  - done.
  - apply (c_task _ _ _ _ _ _ _ Hc _ _ Ha).
  - split; [|done]. intros ->. rewrite Hih in Hheld. by apply elem_of_nil in Hheld.
Qed.

Lemma pi_waiting : prio mk <= prio ak ->
  pi_ok (prioV (g_tasks s)) (live (g_tasks s)) (bprioV (g_tasks s)) (held (g_tasks s))
    (fupd (waits (g_tasks s)) a (Some m)) (prioV (g_tasks s)).
Proof.
  intros Hle. destruct (lock_owner s m ob mt nested Hwf Ho Hty Hb) as (Hheld & Huniq & Hlive).
  destruct (active_facts s mt ak mk Ha Har Hmk) as (Hwa & Hpa & Hpm).
  apply (pi_hole_id _ _ _ _ _ mt). apply pi_virtual; try done; [apply (wf_pre _ Hwf)|]. left. lia.
Qed.
End lock2.

Lemma same_view_waits T T' u : prio_change T T' -> waits T' u = waits T u.
Proof. intros HT. by apply (prio_change_view waits_of). Qed.

(** the owner gets the priority of the blocking task, if that is higher *)
Lemma wp_lock_inherit s m ob mt nested ticks ak mk {A} (k : K A) (Q : A -> kstate -> Prop) :
  wf s -> g_objs s !! m = Some ob -> obj_type ob = RHINO_MUTEX_OBJ_TYPE -> body ob = KMutex (Some mt) nested ->
  mt <> g_active_task s -> g_active_task s <> g_idle_task -> g_tasks s !! g_active_task s = Some ak ->
  task_state ak = K_RDY -> g_tasks s !! mt = Some mk -> g_intrpt_nested_level s = 0 -> g_sched_lock s = 0 ->
  0 < ticks < 2 ^ 64 ->
  (forall s', wf s' -> blocks_on s m ob s' -> prioV (g_tasks s') mt <= prioV (g_tasks s') (g_active_task s) ->
     lock_waits s m ob ticks s' -> wp k Q s') ->
  wp ((if prio ak <? prio mk then task_pri_change mt (prio ak);; mret tt else mret tt);;
      pend_to_blk_obj m (g_active_task s) ticks;; core_sched;; k) Q
    (kput (g_tasks s) (g_objs s) (g_ready_queue s) (g_tick_head s) s).
Proof.
  intros Hwf Ho Hty Hb Hne Hidle Ha Har Hmk Hn Hlk Ht HQ.
  pose proof (wf_pre _ Hwf) as [[Hc Hpi Hs] Hnone].
  assert (Hmt : prioV (g_tasks s) mt = prio mk) by (by apply (tview_lookup prio)).
  kstep. destruct (Z.ltb_spec (prio ak) (prio mk)) as [Hlt|Hle].
  - kstep. 
    assert (Hcp : change_pre None g_idle_task (fupd (waits (g_tasks s)) (g_active_task s) (Some m)) (g_tasks s) mt (prio ak))
      by (by eapply (lock_change_pre s m ob mt nested ak mk)).
    eapply wp_task_pri_change; [exact Hc|exact Hcp|right; lia|].
    intros T' objs' rq' Hc' HT Hobjs Hpi'. do 2 kstep.
    eapply (wp_lock_block s m ob mt nested ticks ak); try done.
    + split; [done|by eapply sched_prio|]. eapply none_members; [exact Hnone|exact Hobjs|apply Hc|apply Hc'|].
      intros t o. by rewrite (same_view_waits _ _ t HT).
    + assert (HW : waits T' ≐ waits (g_tasks s)) by (by apply prio_change_view). by rewrite HW.
  - do 2 kstep. eapply (wp_lock_block s m ob mt nested ticks ak); try done.
    by apply (pi_waiting s m ob mt nested ak mk).
Qed.

Lemma acquired_kput s m ob ak : g_tasks s !! g_active_task s = Some ak ->
  kput (<[g_active_task s := set_mutex_list (m :: mutex_list ak) ak]> (g_tasks s))
    (<[m := set_body (KMutex (Some (g_active_task s)) 1) ob]> (g_objs s)) (g_ready_queue s) (g_tick_head s) s =
  acquired m s ob.
Proof. intros Ha. unfold acquired. by rewrite (alter_some _ _ _ _ Ha). Qed.

Lemma wf_acquire s m ob ak nested :
  wf s -> g_tasks s !! g_active_task s = Some ak -> task_state ak = K_RDY -> g_active_task s <> g_idle_task ->
  g_objs s !! m = Some ob -> obj_type ob = RHINO_MUTEX_OBJ_TYPE -> body ob = KMutex None nested ->
  blk_policy ob = BLK_POLICY_PRI -> wf (acquired m s ob).
Proof.
  intros Hwf Ha Hr Hidle Ho Hty Hb Hpol. pose proof Hwf as [[[Hc Hpi Hs] Hn] Hrdy Htop].
  assert (Hown : own None (g_objs s) m = None).
  { unfold own. rewrite decide_False, Ho by done. cbn. unfold owner_of, mutex_owner. by rewrite Hty, Hb. }
  assert (Hl : is_live ak = true) by (unfold is_live; by rewrite Hr).
  unfold acquired. rewrite (alter_some _ _ _ _ Ha).
  assert (HR : ready (<[g_active_task s := set_mutex_list (m :: mutex_list ak) ak]> (g_tasks s)) ≐ ready (g_tasks s))
    by (by eapply tview_same).
  split; cbn; [|by rewrite HR|done]. split; cbn.
  - split; cbn.
    + eapply core_acquire; try done; [by left|].
      unfold waits. rewrite (tview_lookup _ _ _ _ _ Ha). unfold waits_of, is_pending. by rewrite Hr.
    + apply pi_acquire; [done..|]. intros v Hv. by destruct (free_mutex_unwaited _ _ _ _ _ _ _ _ _ Hc Ho Hty ltac:(done) Hown v).
    + by eapply sched_upd.
  - apply none_insert; [done|]. cbn. by rewrite Hty.
Qed.

Lemma wp_krhino_mutex_lock s m ob ticks :
  wf s -> g_active_task s <> g_idle_task -> g_objs s !! m = Some ob -> 0 <= ticks < 2 ^ 64 ->
  body ob <> KMutex (Some (g_active_task s)) MUTEX_NESTED_MAX ->
  wp (krhino_mutex_lock (Some m) ticks) (fun r s' => wf s' /\ lock_spec s m ob ticks r s') s.
Proof.
  intros Hwf Hidle Ho Ht Hmax. unfold krhino_mutex_lock, NULL_PARA_CHK.
  apply wp_bind, wp_gets. case_bool_decide as Hst; [apply wp_ret; split; [done|by apply lock_stopped]|].
  apply wp_keeps_checks; [intros H; split; [done|by apply lock_intrpt]|intros Hn].
  eapply wp_type_check; [exact Ho|intros H; split; [done|by apply lock_type]|intros Hty].
  destruct (mutex_body_ok _ _ _ (wf_pre _ Hwf) Ho Hty) as (mt & nested & Hmb & Hb & Hnr & Hpol & Hown).
  destruct (so_nested _ _ _ _ (kp_sched _ (kp_mid _ (wf_pre _ Hwf)))) as [Hn0 _].
  destruct (so_lock _ _ _ _ (kp_sched _ (kp_mid _ (wf_pre _ Hwf)))) as [Hl0 _].
  destruct (active_rdy _ Hwf) as (ak & Ha & Hr); [lia|].
  rewrite Hmb. apply wp_bind, wp_ret, wp_bind, wp_gets. cbn [fst snd]. case_bool_decide as Hmt.
  { clear Hown. subst mt. destruct (Z.eqb_spec nested MUTEX_NESTED_MAX) as [->|Hnm]; [by destruct Hmax|].
    kstart Hwf. do 3 kstep. rewrite kput_eta in Hwf0. unfold MUTEX_NESTED_MAX in Hnm.
    split; [|eapply lock_again; [exact Hmb|unfold MUTEX_NESTED_MAX; lia]].
    rewrite <- (kput_eta s) in Hwf. eapply wf_obj; [exact Hwf|exact Ho|].
    apply (mutex_like _ _ _ _ Hty Hb Hpol). lia. }
  destruct mt as [mt|].
  2: { kstart Hwf. do 7 kstep. split.
       - rewrite (acquired_kput _ _ _ _ Ha). by eapply wf_acquire.
       - rewrite (acquired_kput _ _ _ _ Ha). by eapply lock_free. }
  assert (Hne : mt <> g_active_task s) by congruence.
  destruct (Z.eqb_spec ticks RHINO_NO_WAIT) as [->|Hnz].
  { apply wp_ret. split; [done|by eapply lock_nowait]. }
  apply wp_lock_check; [intros H; split; [done|by eapply lock_locked]|intros Hl].
  destruct (lock_owner s m ob mt nested Hwf Ho Hty Hb) as (Hheld & _).
  destruct (held_live _ _ _ Hheld) as (mk & Hmk & _).
  apply wp_kput. do 4 kstep. unfold RHINO_NO_WAIT in Hnz.
  eapply (wp_lock_inherit s m ob mt nested ticks ak mk); try done; try lia.
  intros s' Hwf' Hbl Hp Hlw. apply wp_ret. split; [done|]. by eapply lock_block.
Qed.

(** the counter of a mutex locked too often *)
Lemma krhino_mutex_lock_ovf s m ob ticks :
  g_sys_stat s <> RHINO_STOPPED -> g_intrpt_nested_level s <= 0 -> g_objs s !! m = Some ob ->
  obj_type ob = RHINO_MUTEX_OBJ_TYPE -> body ob = KMutex (Some (g_active_task s)) MUTEX_NESTED_MAX ->
  krhino_mutex_lock (Some m) ticks s = Reset RHINO_MUTEX_NESTED_OVF.
Proof.
  intros Hst Hn Ho Hty Hb. unfold krhino_mutex_lock, NULL_PARA_CHK, INTRPT_NESTED_LEVEL_CHK, OBJ_TYPE_CHK, get_obj.
  unfold mbind, M_bind, gets, lift. rewrite bool_decide_eq_false_2 by done.
  replace (0 <? g_intrpt_nested_level s) with false by (symmetry; apply Z.ltb_ge; lia).
  rewrite Ho. cbn [mret M_ret]. rewrite bool_decide_eq_true_2 by done. unfold mutex_body. rewrite Hb. cbn [mret M_ret fst snd].
  by rewrite bool_decide_eq_true_2 by done.
Qed.

(** ** Releasing *)

Lemma kept_del m l : kept (Some m) l = klist_del m l.
Proof. unfold kept, klist_del. apply list_filter_iff. intros u. split; congruence. Qed.

Section release.
Context (T : gmap nat ktask) (t : nat) (tk : ktask) (m : nat).
Context (Ht : T !! t = Some tk) (Hl : is_live tk = true).
Abbreviation T1 := (<[t := set_mutex_list (kept (Some m) (mutex_list tk)) tk]> T).

Lemma released_held : held T t = mutex_list tk.
Proof. unfold held. rewrite (tview_lookup _ _ _ _ _ Ht). unfold held_of. by rewrite Hl. Qed.

Lemma released_view {A} (f : ktask -> A) d :
  f (set_mutex_list (kept (Some m) (mutex_list tk)) tk) = f tk -> tview f d T1 ≐ tview f d T.
Proof. by apply tview_same. Qed.

Lemma released_held1 : held T1 ≐ fupd (held T) t (klist_del m (held T t)).
Proof.
  unfold held. rewrite tview_insert. rewrite (released_held : tview _ _ _ _ = _). unfold held_of at 2.
  replace (is_live (set_mutex_list _ tk)) with (is_live tk) by done. rewrite Hl. cbn. by rewrite kept_del.
Qed.

Lemma released_mutex O : mutex_ok (held T) O -> m ∈ mutex_list tk -> mutex_ok (held T1) (fupd O m None).
Proof. intros Hm Hin. rewrite released_held1. apply mutex_release_ok; [done|]. by rewrite released_held. Qed.

Lemma released_pi : pi_but t T -> pi_but t T1.
Proof.
  intros Hpi u Hu Hlu. unfold waits, prioV, bprioV. rewrite !(released_view _ _), released_held1 by done.
  rewrite fupd_ne by done.
  apply Hpi; [done|]. unfold live in *. by rewrite (released_view is_live) in Hlu.
Qed.

(** the rest of the kernel does not see it *)
Lemma released_core x objs' objs rq th lo now :
  core None T objs rq th lo now -> mutex_ok (held T1) (own x objs') ->
  map_Forall (fun _ => obj_ok) objs' -> blks_ok (waits T) (prioV T) objs' ->
  mwait_ok x (waits T) objs' -> core x T1 objs' rq th lo now.
Proof.
  intros [Hrq Htask Hobj Hblk Htick Hmx Hmw] Hm Ho' Hb' Hw'. split; try done.
  - unfold ready. by rewrite released_view.
  - apply map_Forall_insert_2; [|done]. by destruct (Htask _ _ Ht).
  - unfold waits, prioV. by rewrite !released_view.
  - unfold ticking, matchV. by rewrite !released_view.
  - unfold waits. by rewrite released_view.
Qed.

Lemma released_sched a lock nested :
  sched_ok T a lock nested -> t <> g_idle_task -> sched_ok T1 a lock nested.
Proof.
  intros Hs Hne. eapply sched_upd; [done|exact Ht|done|done|]. intros -> Hlk. cbn.
  destruct (so_locked _ _ _ _ Hs Hlk) as [p Hp]. unfold ready in Hp. rewrite (tview_lookup _ _ _ _ _ Ht) in Hp.
  unfold ready_of in Hp. by destruct (task_state tk).
Qed.
End release.

Lemma owner_not_idle s t m : kmid s -> m ∈ held (g_tasks s) t -> t <> g_idle_task.
Proof.
  intros Hk Hm ->. destruct (sched_idle_ready _ _ _ _ (kp_sched _ Hk)) as [Hh _]. rewrite Hh in Hm.
  by apply elem_of_nil in Hm.
Qed.

(** the owner gives [m] up but is still noted in it *)
Lemma core_hole T objs rq th lo now t tk m :
  core None T objs rq th lo now -> T !! t = Some tk -> is_live tk = true -> m ∈ mutex_list tk ->
  core (Some m) (<[t := set_mutex_list (kept (Some m) (mutex_list tk)) tk]> T) objs rq th lo now.
Proof.
  intros Hc Ht Hl Hm. eapply released_core; [exact Ht|exact Hc| |apply Hc|apply Hc|].
  - rewrite own_hole. apply released_mutex; [done..|apply Hc|done].
  - intros u q qb Hu Hq Hty Hx. pose proof (c_mwait _ _ _ _ _ _ _ Hc u q qb Hu Hq Hty) as H.
    unfold own in *. rewrite decide_False in H by done. rewrite decide_False by done. by apply H.
Qed.

(** [krhino_mutex_unlock] *)
(** what handing the mutex to [t] does to the tasks: besides the two of them,
    only priorities change *)
Definition unlock_hands (s : kstate) (m t : nat) (s' : kstate) : Prop :=
  exists T, prio_change (alter (fun tk => set_mutex_list (klist_del m (mutex_list tk)) tk) (g_active_task s) (g_tasks s)) T /\
    g_tasks s' = alter (fun tk => set_mutex_list (m :: mutex_list tk) (woken BLK_FINISH tk)) t T.

Inductive unlock_spec (s : kstate) (m : nat) (ob : kobj) : kret -> kstate -> Prop :=
  | unlock_stopped : g_sys_stat s = RHINO_STOPPED -> unlock_spec s m ob (Ret RHINO_SUCCESS) s
  | unlock_intrpt : 0 < g_intrpt_nested_level s -> unlock_spec s m ob (Ret RHINO_NOT_CALLED_BY_INTRPT) s
  | unlock_type : obj_type ob <> RHINO_MUTEX_OBJ_TYPE -> unlock_spec s m ob (Ret RHINO_KOBJ_TYPE_ERR) s
  | unlock_other mt nested : mutex_body ob = Some (mt, nested) -> mt <> Some (g_active_task s) ->
      unlock_spec s m ob (Ret RHINO_MUTEX_NOT_RELEASED_BY_OWNER) s
  | unlock_again nested : mutex_body ob = Some (Some (g_active_task s), nested) -> 0 < u32 (nested - 1) ->
      unlock_spec s m ob (Ret RHINO_MUTEX_OWNER_NESTED)
        (with_obj m (set_body (KMutex (Some (g_active_task s)) (u32 (nested - 1))) ob) s)
  | unlock_free nested s' : mutex_body ob = Some (Some (g_active_task s), nested) -> u32 (nested - 1) = 0 ->
      blk_list ob = [] -> g_objs s' = <[m := set_body (KMutex None 0) ob]> (g_objs s) ->
      g_tasks s' = alter (fun tk => set_mutex_list (klist_del m (mutex_list tk)) tk) (g_active_task s) (g_tasks s) ->
      g_active_task s' = g_active_task s -> unlock_spec s m ob (Ret RHINO_SUCCESS) s'
  | unlock_hand nested t l s' : mutex_body ob = Some (Some (g_active_task s), nested) -> u32 (nested - 1) = 0 ->
      g_objs s' !! m = Some (set_blk_list l (set_body (KMutex (Some t) 1) ob)) -> Permutation (t :: l) (blk_list ob) ->
      (forall u, u ∈ l -> prioV (g_tasks s') t <= prioV (g_tasks s') u) ->
      waits (g_tasks s') t = None -> m ∈ held (g_tasks s') t -> m ∉ held (g_tasks s') (g_active_task s) ->
      unlock_hands s m t s' -> unlock_spec s m ob (Ret RHINO_SUCCESS) s'.

Lemma is_inh_del W P p b m ms :
  is_inh W P p b ms -> (forall u, W u <> Some m) -> is_inh W P p b (klist_del m ms).
Proof.
  intros [Hb Hw Hr] Hno. split; [done| |].
  - intros q u [_ Hq]%elem_of_klist_del Hu. eauto.
  - destruct Hr as [?|(q & u & Hq & Hu & ->)]; [by left|right]. exists q, u. split_and!; [|done..].
    apply elem_of_klist_del. split; [|done]. intros ->. by eapply Hno.
Qed.

Lemma empty_unwaited s m ob : kmid s -> g_objs s !! m = Some ob -> blk_list ob = [] ->
  forall u, waits (g_tasks s) u <> Some m.
Proof.
  intros Hk Ho Hl u Hu. apply (bk_in _ _ _ (c_blk _ _ _ _ _ _ _ (kp_core _ Hk)) _ _ u Ho) in Hu.
  rewrite Hl in Hu. by apply elem_of_nil in Hu.
Qed.

(** a mutex nobody waits for is given up *)
Lemma core_unown T objs rq th lo now t tk m ob nested :
  core None T objs rq th lo now -> T !! t = Some tk -> is_live tk = true -> m ∈ mutex_list tk ->
  objs !! m = Some ob -> obj_type ob = RHINO_MUTEX_OBJ_TYPE -> (forall u, waits T u <> Some m) ->
  0 <= nested < 2 ^ 32 ->
  core None (<[t := set_mutex_list (kept (Some m) (mutex_list tk)) tk]> T)
    (<[m := set_body (KMutex None nested) ob]> objs) rq th lo now.
Proof.
  intros Hc Ht Hl Hm Ho Hty Hno Hnest.
  assert (Hpol : blk_policy ob = BLK_POLICY_PRI).
  { pose proof (c_obj _ _ _ _ _ _ _ Hc _ _ Ho) as Hok. unfold obj_ok in Hok. rewrite Hty in Hok.
    destruct (body ob); try done. apply Hok. }
  assert (HO : own None (<[m := set_body (KMutex None nested) ob]> objs) ≐ fupd (own None objs) m None).
  { rewrite own_insert, decide_False by done. unfold owner_of, mutex_owner. cbn. by rewrite Hty. }
  eapply released_core; [exact Ht|exact Hc| | | |].
  - rewrite HO. apply released_mutex; [done..|apply Hc|done].
  - apply map_Forall_insert_2; [|apply Hc]. unfold obj_ok. cbn. by rewrite Hty.
  - eapply blks_obj; [apply Hc|exact Ho|done..].
  - intros u q qb Hu Hq Hqt Hx. rewrite HO. unfold fupd. case_decide; [subst; by destruct (Hno u)|].
    rewrite lookup_insert_ne in Hq by done. by apply (c_mwait _ _ _ _ _ _ _ Hc u q qb).
Qed.

Section unlock.
Context (s : kstate) (m a : nat) (ak : ktask) (ob : kobj).
Context (Hwf : wf s) (Ha : g_tasks s !! a = Some ak) (Hl : is_live ak = true) (Hm : m ∈ mutex_list ak).
Context (Ho : g_objs s !! m = Some ob) (Hty : obj_type ob = RHINO_MUTEX_OBJ_TYPE).
Abbreviation T1 := (<[a := set_mutex_list (kept (Some m) (mutex_list ak)) ak]> (g_tasks s)).

Lemma unlock_held : m ∈ held (g_tasks s) a.
Proof. by rewrite (released_held _ _ _ Ha Hl). Qed.

Lemma unlock_not_idle : a <> g_idle_task.
Proof. eapply owner_not_idle; [apply Hwf|apply unlock_held]. Qed.

(** nobody waits: the priority of the owner is not touched *)
Lemma wp_release_free (Q : unit -> kstate -> Prop) :
  blk_list ob = [] ->
  Q tt (kput T1 (g_objs s) (g_ready_queue s) (g_tick_head s) s) ->
  wp (mutex_release a (Some m)) Q (kput (g_tasks s) (g_objs s) (g_ready_queue s) (g_tick_head s) s).
Proof.
  intros Hnil HQ. pose proof (wf_pre _ Hwf) as [[Hc Hpi Hs] Hn].
  eapply wp_mutex_release_same; [by apply core_hole|exact Ha|exact Hl| |exact HQ].
  assert (Hla : live (g_tasks s) a = true) by (unfold live; by rewrite (tview_lookup _ _ _ _ _ Ha)).
  specialize (Hpi a Hla).
  rewrite (released_held1 _ _ _ m Ha Hl). rewrite fupd_eq. unfold waits, prioV.
  rewrite !(released_view _ _ _ m Ha) by done. apply is_inh_del.
  - unfold prioV, bprioV in Hpi. by rewrite !(tview_lookup _ _ _ _ _ Ha) in Hpi.
  - intros u. by eapply empty_unwaited; [apply Hwf|exact Ho|].
Qed.

Lemma wf_release_free nested :
  blk_list ob = [] -> 0 <= nested < 2 ^ 32 ->
  wf (kput T1 (<[m := set_body (KMutex None nested) ob]> (g_objs s)) (g_ready_queue s) (g_tick_head s) s).
Proof.
  intros Hnil Hnest. pose proof (wf_pre _ Hwf) as [[Hc Hpi Hs] Hn].
  assert (HR : ready T1 ≐ ready (g_tasks s)) by (by eapply tview_same).
  assert (Hno : forall u, waits (g_tasks s) u <> Some m) by (by eapply empty_unwaited; [apply Hwf|exact Ho|]).
  split; cbn; [|rewrite HR; apply Hwf|apply Hwf]. split; [|by apply none_insert]. split; cbn.
  - by apply core_unown.
  - assert (Hb := released_pi _ _ _ m Ha Hl (proj1 (pi_all_but _) Hpi _)). intros u Hu. destruct (decide (u = a)) as [->|Hne]; [|by apply Hb].
    rewrite (released_held1 _ _ _ m Ha Hl). rewrite fupd_eq. unfold waits, prioV, bprioV.
    rewrite !(released_view _ _ _ m Ha) by done. apply is_inh_del; [|done].
    apply Hpi. unfold live in *. by rewrite (released_view _ _ _ m Ha) in Hu.
  - apply released_sched; [done..|apply unlock_not_idle].
Qed.

(** somebody waits: the owner falls back to the priority it has without [m] *)
Lemma wp_release_hand (Q : unit -> kstate -> Prop) :
  is_Some (ready (g_tasks s) a) ->
  (forall T' objs' rq', core (Some m) T' objs' rq' (g_tick_head s) 1 (g_tick_count s) -> prio_change T1 T' ->
     relist (g_objs s) objs' -> pi_all T' -> none_ok objs' ->
     sched_ok T' (g_active_task s) (g_sched_lock s) (g_intrpt_nested_level s) ->
     Q tt (kput T' objs' rq' (g_tick_head s) s)) ->
  wp (mutex_release a (Some m)) Q (kput (g_tasks s) (g_objs s) (g_ready_queue s) (g_tick_head s) s).
Proof.
  intros Hrdy HQ. pose proof (wf_pre _ Hwf) as [[Hc Hpi Hs] Hn].
  assert (Hs1 := released_sched _ _ _ m Ha _ _ _ Hs unlock_not_idle).
  assert (HR : ready T1 ≐ ready (g_tasks s)) by (by eapply tview_same).
  eapply (wp_mutex_release _ _ _ _ g_idle_task); [by apply core_hole|exact Ha|exact Hl| | | | |].
  - right. by rewrite (HR a).
  - apply unlock_not_idle.
  - by eapply sched_idle_ready.
  - by apply released_pi, pi_all_but.
  - intros T' objs' rq' Hc' HT Hobjs Hpi'. apply HQ; try done; [|by eapply sched_prio].
    eapply none_members; [exact Hn|exact Hobjs|apply Hc|apply Hc'|].
    intros t o. rewrite (same_view_waits _ _ t HT). unfold waits. by rewrite (released_view _ _ _ m Ha).
Qed.
End unlock.

(** the mutex nobody owns goes to the first waiting task *)
Section hand_over.
Context (T : gmap nat ktask) (objs : gmap nat kobj) (rq : runqueue_t) (th : list nat) (s : kstate).
Context (m t : nat) (l : list nat) (ob : kobj).
Context (Hc : core (Some m) T objs rq th 1 (g_tick_count s)) (Hpi : pi_all T) (Hn : none_ok objs).
Context (Hs : sched_ok T (g_active_task s) (g_sched_lock s) (g_intrpt_nested_level s)).
Context (Ho : objs !! m = Some ob) (Hty : obj_type ob = RHINO_MUTEX_OBJ_TYPE) (Hl : blk_list ob = t :: l).

Lemma hand_waits : waits T t = Some m.
Proof. apply (bk_in _ _ _ (c_blk _ _ _ _ _ _ _ Hc) _ _ t Ho). rewrite Hl. left. Qed.

Lemma hand_unheld u : m ∉ held T u.
Proof. intros Hu. apply (mx_in _ _ (c_mutex _ _ _ _ _ _ _ Hc)) in Hu. unfold own in Hu. by rewrite decide_True in Hu. Qed.

Lemma hand_first v : waits T v = Some m -> prioV T t <= prioV T v.
Proof.
  intros Hv. pose proof (c_blk _ _ _ _ _ _ _ Hc) as Hb. apply (bk_in _ _ _ Hb _ _ v Ho) in Hv.
  assert (Hpol : blk_policy ob = BLK_POLICY_PRI).
  { pose proof (c_obj _ _ _ _ _ _ _ Hc _ _ Ho) as Hok. unfold obj_ok in Hok. rewrite Hty in Hok.
    destruct (body ob); try done. apply Hok. }
  pose proof (bk_sorted _ _ _ Hb _ _ Ho Hpol) as Hsort. rewrite Hl in Hsort, Hv.
  apply elem_of_cons in Hv as [->|Hv]; [lia|]. apply StronglySorted_inv in Hsort as [_ Hall].
  by eapply (proj1 (Forall_forall _ _)) in Hall.
Qed.

Lemma hand_unlinked : unlinked t ob = set_blk_list l ob.
Proof.
  unfold unlinked. rewrite Hl, klist_del_head; [done|].
  pose proof (bk_nodup _ _ _ (c_blk _ _ _ _ _ _ _ Hc) _ _ Ho) as Hnd. rewrite Hl in Hnd. by apply NoDup_cons in Hnd as [? _].
Qed.

(** the first task waiting is awake, the mutex still free *)
Lemma wp_hand_wake (Q : unit -> kstate -> Prop) :
  (forall tk rq' th', let T' := <[t := woken BLK_FINISH tk]> T in let objs' := <[m := set_blk_list l ob]> objs in
     T !! t = Some tk -> is_live tk = true -> t <> g_idle_task ->
     core (Some m) T' objs' rq' th' 1 (g_tick_count s) -> pi_all T' -> none_ok objs' ->
     sched_ok T' (g_active_task s) (g_sched_lock s) (g_intrpt_nested_level s) ->
     waits T' t = None -> (forall v, waits T' v = Some m -> prioV T' t <= prioV T' v) ->
     Q tt (kput T' objs' rq' th' s)) ->
  wp (pend_task_wakeup t) Q (kput T objs rq th s).
Proof.
  intros HQ. destruct (waits_inv _ _ _ hand_waits) as (tk & Ht & Hp & Hb).
  assert (Hlive : is_live tk = true) by (unfold is_live, is_pending in *; by destruct (task_state tk)).
  assert (Hti : t <> g_idle_task).
  { intros Et. destruct (so_idle _ _ _ _ Hs) as (ik & Hik & Hst & _). rewrite <- Et, Ht in Hik. injection Hik as <-.
    unfold is_pending in Hp. by rewrite Hst in Hp. }
  assert (Hlive' : is_live (woken BLK_FINISH tk) = is_live tk).
  { unfold is_live, is_pending in *. cbn. by destruct (task_state tk). }
  assert (HW : waits (<[t := woken BLK_FINISH tk]> T) ≐ fupd (waits T) t None).
  { unfold waits. rewrite tview_insert. unfold waits_of at 2. unfold is_pending in *. cbn. by destruct (task_state tk). }
  rewrite pend_task_wakeup_end. eapply wp_pend_task_end; [exact Hc|exact Ht|exact Hp|exact Hb|exact Ho|apply Hs|].
  intros rq' Hc'. rewrite hand_unlinked in Hc' |- *. apply (HQ tk); try done.
  - eapply pi_wait; [exact Hpi|exact Ht|done..|]. intros o [Hq|Hq] u.
    + rewrite hand_waits in Hq. assert (o = m) as -> by congruence. apply hand_unheld.
    + unfold waits_of, is_pending in *. cbn in Hq. by destruct (task_state tk).
  - apply none_insert; [done|]. cbn. by rewrite Hty.
  - eapply sched_upd; [done|exact Ht|done|done|]. intros -> Hlk.
    destruct (so_locked _ _ _ _ Hs Hlk) as [q Hq]. rewrite (woken_not_ready _ _ _ Ht Hp) in Hq. done.
  - rewrite (HW t). apply fupd_eq.
  - intros v Hv. rewrite (HW v) in Hv. unfold fupd in Hv. case_decide; [done|].
    assert (HP : forall u, prioV (<[t := woken BLK_FINISH tk]> T) u = prioV T u) by (intros u; by eapply tview_same).
    rewrite !HP. by apply hand_first.
Qed.
End hand_over.

(** ... and is given the mutex *)
Lemma kpre_hand T objs rq th s m t tk ob nested :
  core (Some m) T objs rq th 1 (g_tick_count s) -> pi_all T -> none_ok objs ->
  sched_ok T (g_active_task s) (g_sched_lock s) (g_intrpt_nested_level s) ->
  T !! t = Some tk -> is_live tk = true -> t <> g_idle_task -> objs !! m = Some ob ->
  obj_type ob = RHINO_MUTEX_OBJ_TYPE -> 0 <= nested < 2 ^ 32 -> waits T t = None ->
  (forall v, waits T v = Some m -> prioV T t <= prioV T v) ->
  kpre (kput (<[t := set_mutex_list (m :: mutex_list tk) tk]> T)
          (<[m := set_body (KMutex (Some t) nested) ob]> objs) rq th s).
Proof.
  intros Hc Hpi Hn Hs Ht Hl Hti Ho Hty Hnest Hw Hfirst.
  assert (Hpol : blk_policy ob = BLK_POLICY_PRI).
  { pose proof (c_obj _ _ _ _ _ _ _ Hc _ _ Ho) as Hok. unfold obj_ok in Hok. rewrite Hty in Hok.
    destruct (body ob); try done. apply Hok. }
  split; [split|]; cbn.
  - eapply core_acquire; try done; [unfold own; by rewrite decide_True|by right|by rewrite Hw].
  - by apply pi_acquire.
  - eapply sched_upd; [done|exact Ht|done|done|]. intros -> Hlk. cbn.
    destruct (so_locked _ _ _ _ Hs Hlk) as [q Hq]. unfold ready in Hq. rewrite (tview_lookup _ _ _ _ _ Ht) in Hq.
    unfold ready_of in Hq. by destruct (task_state tk).
  - apply none_insert; [done|]. cbn. by rewrite Hty.
Qed.

Lemma wp_hand_over T objs rq th s m t l ob (Q : kret -> kstate -> Prop) :
  core (Some m) T objs rq th 1 (g_tick_count s) -> pi_all T -> none_ok objs ->
  sched_ok T (g_active_task s) (g_sched_lock s) (g_intrpt_nested_level s) ->
  objs !! m = Some ob -> obj_type ob = RHINO_MUTEX_OBJ_TYPE -> blk_list ob = t :: l ->
  (forall s', wf s' -> g_objs s' !! m = Some (set_body (KMutex (Some t) 1) (set_blk_list l ob)) ->
     waits (g_tasks s') t = None -> m ∈ held (g_tasks s') t -> 
     g_tasks s' = alter (fun tk => set_mutex_list (m :: mutex_list tk) (woken BLK_FINISH tk)) t T ->
     (forall u, u ∈ l -> prioV (g_tasks s') t <= prioV (g_tasks s') u) -> Q (Ret RHINO_SUCCESS) s') ->
  wp (pend_task_wakeup t;;
      tk ← get_task t;
      upd_task t (set_mutex_list (m :: mutex_list tk));;
      upd_obj m (set_body (KMutex (Some t) 1));;
      exit_sched (Ret RHINO_SUCCESS)) Q (kput T objs rq th s).
Proof.
  intros Hc Hpi Hn Hs Ho Hty Hl HQ. kstep.
  eapply (wp_hand_wake T objs rq th s m t l ob); try done.
  intros tk rq' th' T' objs' Ht Hlive Hti Hc' Hpi' Hn' Hs' Hw' Hfirst. subst T' objs'. do 6 kstep.
  assert (Hlive' : is_live (woken BLK_FINISH tk) = true).
  { unfold is_live in *. cbn. by destruct (task_state tk). }
  set (wt := woken BLK_FINISH tk) in *.
  assert (Hk := kpre_hand _ _ _ _ _ m t wt _ 1 Hc' Hpi' Hn' Hs' (lookup_insert_eq _ _ _) Hlive' Hti
                  (lookup_insert_eq _ _ _) Hty ltac:(lia) Hw' Hfirst).
  rewrite !insert_insert_eq in Hk. eapply wp_exit_sched; [exact Hk|]. intros s2 Hwf2 (p & a' & ->).
  apply HQ; [exact Hwf2| | | | |]; cbn.
  - apply lookup_insert_eq.
  - unfold waits. rewrite (tview_lookup _ _ _ _ _ (lookup_insert_eq _ _ _)).
    unfold waits in Hw'. by rewrite (tview_lookup _ _ _ _ _ (lookup_insert_eq _ _ _)) in Hw'.
  - unfold held. rewrite (tview_lookup _ _ _ _ _ (lookup_insert_eq _ _ _)). unfold held_of.
    replace (is_live (set_mutex_list _ wt)) with (is_live wt) by done. rewrite Hlive'. left.
  - by rewrite (alter_some _ _ _ _ Ht).
  - intros u Hu. assert (HP : prioV (<[t := set_mutex_list (m :: mutex_list wt) wt]> T) ≐ prioV (<[t := wt]> T)).
    { unfold prioV. rewrite !tview_insert. done. }
    rewrite !(HP _). apply Hfirst.
    apply (bk_in _ _ _ (c_blk _ _ _ _ _ _ _ Hc') m _ u (lookup_insert_eq _ _ _)). exact Hu.
Qed.

Lemma wp_krhino_mutex_unlock s m ob :
  wf s -> g_objs s !! m = Some ob ->
  wp (krhino_mutex_unlock (Some m)) (fun r s' => wf s' /\ unlock_spec s m ob r s') s.
Proof.
  intros Hwf Ho. unfold krhino_mutex_unlock, NULL_PARA_CHK.
  apply wp_bind, wp_gets. case_bool_decide as Hst; [apply wp_ret; split; [done|by apply unlock_stopped]|].
  apply wp_keeps_checks; [intros H; split; [done|by apply unlock_intrpt]|intros Hn].
  eapply wp_type_check; [exact Ho|intros H; split; [done|by apply unlock_type]|intros Hty].
  destruct (mutex_body_ok _ _ _ (wf_pre _ Hwf) Ho Hty) as (mt & nested & Hmb & Hb & Hnr & Hpol & Hown).
  destruct (so_nested _ _ _ _ (kp_sched _ (kp_mid _ (wf_pre _ Hwf)))) as [Hn0 _].
  destruct (active_rdy _ Hwf) as (ak & Ha & Hr); [lia|].
  rewrite Hmb. apply wp_bind, wp_ret, wp_bind, wp_gets. cbn [fst snd]. case_bool_decide as Hmt; cbn [negb].
  2: { apply wp_ret. split; [done|by eapply unlock_other]. }
  assert (Hheld : m ∈ held (g_tasks s) (g_active_task s)).
  { apply (mx_in _ _ (c_mutex _ _ _ _ _ _ _ (kp_core _ (kp_mid _ (wf_pre _ Hwf))))). by rewrite Hown. }
  clear Hown. subst mt. pose proof (u32_range (nested - 1)) as Hu. kstart Hwf. do 2 kstep.
  assert (Hlike := mutex_like ob _ nested (u32 (nested - 1)) Hty Hb Hpol Hu).
  assert (Hwf1 := wf_obj _ _ _ _ _ _ _ _ Hwf0 Ho Hlike).
  destruct (Z.ltb_spec 0 (u32 (nested - 1))) as [Hpos|Hzero].
  { kstep. split; [done|]. by eapply unlock_again. }
  assert (Hz : u32 (nested - 1) = 0) by lia. rewrite Hz in *. clear Hpos Hzero || clear Hzero.
  destruct (held_live _ _ _ Hheld) as (ak' & Ha' & Hlive & _ & Hhl). simplify_eq. rewrite Hhl in Hheld.
  set (ob1 := set_body (KMutex (Some (g_active_task s)) 0) ob) in *.
  set (s1 := kput (g_tasks s) (<[m := ob1]> (g_objs s)) (g_ready_queue s) (g_tick_head s) s) in *.
  assert (Ho1 : g_objs s1 !! m = Some ob1) by apply lookup_insert_eq.
  kstep. destruct (blk_list ob) as [|t0 l0] eqn:Hbl.
  - eapply (wp_release_free s1 m _ ak ob1); [exact Hwf1|exact Ha|exact Hlive|exact Hheld|exact Ho1|exact Hbl|].
    change (g_objs s1) with (<[m := ob1]> (g_objs s)). do 2 kstep. cbn [blk_list ob1 set_body]. rewrite Hbl. do 3 kstep.
    assert (H := wf_release_free s1 m _ ak ob1 Hwf1 Ha Hlive Hheld Ho1 Hty 0 Hbl ltac:(lia)).
    cbn in H. rewrite insert_insert_eq in H. split; [exact H|].
    eapply unlock_free; [exact Hmb|done|done|done| |done]. cbn. by rewrite (alter_some _ _ _ _ Ha), kept_del.
  - eapply (wp_release_hand s1 m _ ak); [exact Hwf1|exact Ha|exact Hlive|exact Hheld|apply (wf_ready _ Hwf); lia|].
    intros T' objs' rq' Hc' HT Hobjs Hpi' Hn' Hs'. cbn in Hc', HT, Hs'.
    destruct (same_keys_lookup _ _ _ _ _ Hobjs Ho1) as (ob2 & Ho2 & l2 & ->). do 2 kstep. cbn [blk_list set_blk_list].
    assert (Hmem : forall u, u ∈ l2 <-> u ∈ blk_list ob).
    { intros u. rewrite (bk_in _ _ _ (c_blk _ _ _ _ _ _ _ (kp_core _ Hmid)) _ _ u Ho).
      change l2 with (blk_list (set_blk_list l2 ob1)). rewrite (bk_in _ _ _ (c_blk _ _ _ _ _ _ _ Hc') _ _ u Ho2).
      rewrite (same_view_waits _ _ u HT). unfold waits. by rewrite (released_view _ _ _ m Ha). }
    destruct l2 as [|t l]; [|].
    { exfalso. apply (elem_of_nil t0), Hmem. rewrite Hbl. left. }
    assert (Hheld1 : held T' (g_active_task s) = klist_del m (mutex_list ak)).
    { transitivity (held (<[g_active_task s := set_mutex_list (kept (Some m) (mutex_list ak)) ak]> (g_tasks s)) (g_active_task s)).
      - by apply (prio_change_view held_of).
      - rewrite (released_held1 _ _ _ m Ha Hlive). by rewrite fupd_eq, Hhl. }
    assert (Hne : g_active_task s <> t).
    { intros <-. assert (Hw : waits T' (g_active_task s) = Some m).
      { apply (bk_in _ _ _ (c_blk _ _ _ _ _ _ _ Hc') _ _ _ Ho2). left. }
      rewrite (same_view_waits _ _ _ HT) in Hw. unfold waits in Hw. rewrite (released_view _ _ _ m Ha) in Hw by done.
      rewrite (tview_lookup _ _ _ _ _ Ha) in Hw. unfold waits_of, is_pending in Hw. by rewrite Hr in Hw. }
    eapply wp_hand_over; [exact Hc'|exact Hpi'|exact Hn'|exact Hs'|exact Ho2|exact Hty|done|].
    intros s' Hwf' Hos Hws Hhs Hts Hmin. split; [exact Hwf'|]. eapply (unlock_hand _ _ _ _ t l); try done.
    + apply NoDup_Permutation; [|by eapply bk_nodup; [apply Hmid|]|exact Hmem].
      change (t :: l) with (blk_list (set_blk_list (t :: l) ob1)). eapply bk_nodup; [apply Hc'|exact Ho2].
    + unfold held, tview in *. rewrite Hts, lookup_alter_ne, Hheld1 by done. rewrite elem_of_klist_del. by intros [].
    + exists T'. split; [|exact Hts]. by rewrite (alter_some _ _ _ _ Ha), <- kept_del.
Qed.

(** ** Deleting a mutex *)

Section destroy.
Context (s : kstate) (m : nat) (ob : kobj).
Context (Hwf : wf s) (Ho : g_objs s !! m = Some ob) (Hty : obj_type ob = RHINO_MUTEX_OBJ_TYPE).
Abbreviation ob1 := (set_obj_type RHINO_OBJ_TYPE_NONE ob).
Abbreviation objs1 := (<[m := ob1]> (g_objs s)).

Lemma destroy_own : own None objs1 ≐ fupd (own None (g_objs s)) m None.
Proof. by rewrite own_insert, decide_False. Qed.

Lemma destroy_mwait : mwait_ok None (waits (g_tasks s)) objs1.
Proof.
  intros u q qb Hu Hq Hqt _. rewrite destroy_own. apply lookup_insert_Some in Hq as [[<- <-]|[Hne Hq]]; [done|].
  rewrite fupd_ne by done. by apply (c_mwait _ _ _ _ _ _ _ (kp_core _ (kp_mid _ (wf_pre _ Hwf))) u q qb).
Qed.

Lemma destroy_objs : map_Forall (fun _ => obj_ok) objs1 /\ blks_ok (waits (g_tasks s)) (prioV (g_tasks s)) objs1.
Proof.
  pose proof (kp_core _ (kp_mid _ (wf_pre _ Hwf))) as Hc. split.
  - apply map_Forall_insert_2; [done|]. apply Hc.
  - eapply blks_obj; [apply Hc|exact Ho|done..].
Qed.

(** the tasks and objects once nobody waits for the mutex *)
Lemma destroy_rest T' objs' rq' th' (Q : unit -> kstate -> Prop) :
  kmid (kput T' objs' rq' th' s) -> prio_change (g_tasks s) T' \/ (exists t tk, g_tasks s !! t = Some tk /\
    prio_change (<[t := set_mutex_list (kept (Some m) (mutex_list tk)) tk]> (g_tasks s)) T') ->
  relist objs1 objs' ->
  (forall s', kpre s' -> g_objs s' !! m = Some (deleted_obj ob) -> Q tt s') ->
  wp (for_all_waiting m pend_task_rm;;
      upd_kobj_list (fun l => set_mutex_head (klist_del m (mutex_head l)) l)) Q (kput T' objs' rq' th' s).
Proof.
  intros Hk HT Hobjs HQ. destruct (same_keys_lookup _ _ _ m ob1 Hobjs (lookup_insert_eq _ _ _)) as (ob2 & Ho2 & l2 & ->).
  assert (HW : forall u, waits T' u = waits (g_tasks s) u).
  { intros u. destruct HT as [HT|(t & tk & Ht & HT)]; rewrite (same_view_waits _ _ u HT); [done|].
    unfold waits. by eapply tview_same. }
  pose proof (wf_pre _ Hwf) as [[Hc _ _] Hn].
  kstep. rewrite pend_task_rm_end.
  eapply wp_for_all_waiting; [apply pend_task_end_wakes|exact Hk|exact Ho2|by unfold not_mutex|].
  intros rq2 th2 Hk2. kstep. apply HQ; [|cbn; apply lookup_insert_eq]. apply (kpre_kobj_list _ (kput _ _ _ _ _)).
  split; [exact Hk2|]. change (none_ok (<[m := set_blk_list [] (set_blk_list l2 ob1)]> objs')).
  intros o qb [[<- <-]|[Hne Hq]]%lookup_insert_Some Hqt; [done|].
  destruct (same_keys_lookup_r _ _ _ _ _ Hobjs Hq) as (qb0 & Hq0 & l & ->).
  rewrite lookup_insert_ne in Hq0 by done. cbn [blk_list set_blk_list obj_type] in Hqt |- *. destruct l as [|u l]; [done|exfalso].
  assert (Hu : waits T' u = Some o).
  { apply (bk_in _ _ _ (c_blk _ _ _ _ _ _ _ (kp_core _ Hk)) _ _ u Hq). left. }
  rewrite HW in Hu. apply (bk_in _ _ _ (c_blk _ _ _ _ _ _ _ Hc) _ _ u Hq0) in Hu.
  rewrite (Hn _ _ Hq0 Hqt) in Hu. by apply elem_of_nil in Hu.
Qed.

Lemma wp_mutex_destroy (Q : unit -> kstate -> Prop) :
  (forall s', kpre s' -> g_objs s' !! m = Some (deleted_obj ob) -> Q tt s') -> wp (mutex_destroy m) Q s.
Proof.
  intros HQ. unfold mutex_destroy.
  destruct (mutex_body_ok _ _ _ (wf_pre _ Hwf) Ho Hty) as (mt & nested & Hmb & Hb & _ & _ & Hown).
  pose proof (wf_pre _ Hwf) as [[Hc Hpi Hs] Hn]. destruct destroy_objs as [Hok Hblk].
  apply wp_kput. do 3 kstep. rewrite Hmb. do 4 kstep. cbn [fst]. destruct mt as [mt|].
  - assert (Hheld : m ∈ held (g_tasks s) mt) by (by apply (mx_in _ _ (c_mutex _ _ _ _ _ _ _ Hc))).
    destruct (held_live _ _ _ Hheld) as (mk & Hmk & Hl & _ & Hhm). rewrite Hhm in Hheld.
    assert (Hmi : mt <> g_idle_task).
    { eapply owner_not_idle; [apply Hwf|by rewrite Hhm]. }
    assert (Hs1 := released_sched _ _ _ m Hmk _ _ _ Hs Hmi).
    eapply (wp_mutex_release _ _ None _ g_idle_task); [| exact Hmk|exact Hl|by left|done|by eapply sched_idle_ready| |].
    + eapply released_core; [exact Hmk|exact Hc| |exact Hok|exact Hblk|exact destroy_mwait].
      rewrite destroy_own. apply released_mutex; [done..|apply Hc|done].
    + by apply released_pi, pi_all_but.
    + intros T' objs' rq' Hc' HT Hobjs Hpi'. eapply destroy_rest; [|right; eauto|exact Hobjs|exact HQ].
      split; [exact Hc'|exact Hpi'|]. cbn. by eapply sched_prio.
  - kstep. eapply destroy_rest; [|by left|done|exact HQ]. split; [|done..]. cbn.
    eapply core_obj; [exact Hc|exact Ho|done..|by right| |done]. unfold owner_of, mutex_owner. cbn. by rewrite Hty, Hb.
Qed.
End destroy.

Lemma krhino_mutex_del_wf s m ob : wf s -> g_objs s !! m = Some ob -> keeps (krhino_mutex_del (Some m)) s.
Proof.
  intros Hwf Ho. unfold krhino_mutex_del, NULL_PARA_CHK, keeps.
  apply wp_keeps_checks; [done|intros _]. eapply wp_type_check; [exact Ho|done|intros Hty].
  apply wp_flag_check; [done|intros _]. eapply wp_delete_static. intros R. by apply wp_mutex_destroy.
Qed.

Lemma krhino_mutex_dyn_del_wf s m ob : wf s -> g_objs s !! m = Some ob -> keeps (krhino_mutex_dyn_del (Some m)) s.
Proof.
  intros Hwf Ho. unfold krhino_mutex_dyn_del, NULL_PARA_CHK, keeps.
  apply wp_keeps_checks; [done|intros _]. eapply wp_type_check; [exact Ho|done|intros Hty].
  apply wp_flag_check; [done|intros _]. eapply wp_delete_dyn; [|intros R; by apply wp_mutex_destroy]. done.
Qed.

Lemma mutex_create_keeps (Inv : kstate -> Prop) `{!Creates Inv} s mutex name flag :
  Inv s -> (forall m, mutex = Some m -> fresh_obj s m) -> creates Inv (mutex_create mutex name flag) s.
Proof.
  intros Hi Hf. unfold mutex_create, NULL_PARA_CHK. destruct mutex as [m|]; [|by apply creates_err].
  destruct name; [|by apply creates_err]. apply wp_bind, wp_modify, wp_bind, wp_modify, wp_ret.
  apply creates_new; [done|by apply Hf|done..].
Qed.
