(* ===== verification/Sem.v ===== *)
(** * Counting semaphores ([core/k_sem.c], [core/k_task_sem.c]) *)

From S2P Require Import Prelude Config State Sched Inv Tick Pend KInv.

(** ** The code *)

(** [(sem_count_t)-1] *)
Definition SEM_COUNT_MAX : Z := 2 ^ 32 - 1.

Definition sem_body (ob : kobj) : option (Z * Z) :=
  match body ob with KSem c p => Some (c, p) | _ => None end.

Definition sem_create (sem name : option nat) (count mm_alloc_flag : Z) : K kret :=
  NULL_PARA_CHK sem (fun o =>
  NULL_PARA_CHK name (fun _ =>
    new_obj o (mkObj [] BLK_POLICY_PRI RHINO_SEM_OBJ_TYPE mm_alloc_flag (KSem count count));;
    upd_kobj_list (fun l => set_sem_head (sem_head l ++ [o]) l);;
    ret RHINO_SUCCESS)).

Definition krhino_sem_create (sem name : option nat) (count : Z) : K kret :=
  sem_create sem name count K_OBJ_STATIC_ALLOC.

Definition sem_destroy (o : nat) : K unit :=
  upd_obj o (set_obj_type RHINO_OBJ_TYPE_NONE);;
  (* all task blocked on this queue is waken up *)
  for_all_waiting o pend_task_rm;;
  upd_kobj_list (fun l => set_sem_head (klist_del o (sem_head l)) l).

Definition krhino_sem_del (sem : option nat) : K kret :=
  NULL_PARA_CHK sem (fun o =>
  INTRPT_NESTED_LEVEL_CHK (
  OBJ_TYPE_CHK o RHINO_SEM_OBJ_TYPE (fun ob =>
  ALLOC_FLAG_CHK ob K_OBJ_STATIC_ALLOC (
    sem_destroy o;; exit_sched (Ret RHINO_SUCCESS))))).

Definition krhino_sem_dyn_create (sem alloc name : option nat) (count : Z) : K (kret * option nat) :=
  NULL_PARA_CHK sem (fun _ => dyn_create alloc (fun o => sem_create (Some o) name count K_OBJ_DYN_ALLOC)).

Definition krhino_sem_dyn_del (sem : option nat) : K kret :=
  NULL_PARA_CHK sem (fun o =>
  INTRPT_NESTED_LEVEL_CHK (
  OBJ_TYPE_CHK o RHINO_SEM_OBJ_TYPE (fun ob =>
  ALLOC_FLAG_CHK ob K_OBJ_DYN_ALLOC (
    sem_destroy o;; core_sched;; free_obj o;; ret RHINO_SUCCESS)))).

Definition sem_give (o : nat) (opt_wake_all : bool) : K kret :=
  OBJ_TYPE_CHK o RHINO_SEM_OBJ_TYPE (fun ob =>
    b ← lift (sem_body ob);
    match blk_list ob with
    | [] =>
        if b.1 =? SEM_COUNT_MAX then ret RHINO_SEM_OVF else
        (* increase resource *)
        let count := b.1 + 1 in
        upd_obj o (set_body (KSem count (if b.2 <? count then count else b.2)));;
        ret RHINO_SUCCESS
    | t :: _ =>
        (* wake all the task blocked on this semaphore, or the first *)
        (if opt_wake_all then for_all_waiting o pend_task_wakeup else pend_task_wakeup t);;
        exit_sched (Ret RHINO_SUCCESS)
    end).

Definition krhino_sem_give (sem : option nat) : K kret :=
  NULL_PARA_CHK sem (fun o => sem_give o false).

Definition krhino_sem_give_all (sem : option nat) : K kret :=
  NULL_PARA_CHK sem (fun o => sem_give o true).

Definition krhino_sem_take (sem : option nat) (ticks : Z) : K kret :=
  NULL_PARA_CHK sem (fun o =>
  INTRPT_NESTED_LEVEL_CHK (
  OBJ_TYPE_CHK o RHINO_SEM_OBJ_TYPE (fun ob =>
    b ← lift (sem_body ob);
    if 0 <? b.1 then
      upd_obj o (set_body (KSem (b.1 - 1) b.2));; ret RHINO_SUCCESS
    else if ticks =? RHINO_NO_WAIT then ret RHINO_NO_PEND_WAIT
    else SCHED_LOCK_CHK (
      a ← gets g_active_task;
      pend_to_blk_obj o a ticks;;
      exit_sched Blocked)))).

(** the rest of [krhino_sem_take] when the blocked task runs again *)
Definition krhino_sem_take_resume : K kret :=
  a ← gets g_active_task; st ← pend_state_end_proc a; mret (Ret st).

Definition krhino_sem_count_set (sem : option nat) (sem_count : Z) : K kret :=
  NULL_PARA_CHK sem (fun o =>
  INTRPT_NESTED_LEVEL_CHK (
  OBJ_TYPE_CHK o RHINO_SEM_OBJ_TYPE (fun ob =>
    b ← lift (sem_body ob);
    if negb (0 <? b.1) && negb (bool_decide (blk_list ob = [])) then ret RHINO_SEM_TASK_WAITING
    else
      upd_obj o (set_body (KSem sem_count (if b.2 <? sem_count then sem_count else b.2)));;
      ret RHINO_SUCCESS))).

(** [*count = sem->count]: the second component *)
Definition krhino_sem_count_get (sem count : option nat) : K (kret * option Z) :=
  match sem, count with
  | Some o, Some _ =>
      ob ← get_obj o; b ← lift (sem_body ob); mret (Ret RHINO_SUCCESS, Some b.1)
  | _, _ => mret (Ret RHINO_NULL_PTR, None)
  end.

(** *** The semaphore of a task *)

Definition krhino_task_sem_create (task sem name : option nat) (count : Z) : K kret :=
  NULL_PARA_CHK task (fun t =>
    r ← krhino_sem_create sem name count;
    match r with
    | Ret RHINO_SUCCESS => upd_task t (set_task_sem_obj sem)
    | _ => upd_task t (set_task_sem_obj None)
    end;;
    mret r).

Definition krhino_task_sem_del (task : option nat) : K kret :=
  NULL_PARA_CHK task (fun t => tk ← get_task t; krhino_sem_del (task_sem_obj tk)).

Definition krhino_task_sem_give (task : option nat) : K kret :=
  NULL_PARA_CHK task (fun t => tk ← get_task t; krhino_sem_give (task_sem_obj tk)).

Definition krhino_task_sem_take (ticks : Z) : K kret :=
  a ← krhino_cur_task_get; tk ← get_task a; krhino_sem_take (task_sem_obj tk) ticks.

Definition krhino_task_sem_count_set (task : option nat) (count : Z) : K kret :=
  NULL_PARA_CHK task (fun t => tk ← get_task t; krhino_sem_count_set (task_sem_obj tk) count).

Definition krhino_task_sem_count_get (task count : option nat) : K (kret * option Z) :=
  match task with
  | None => mret (Ret RHINO_NULL_PTR, None)
  | Some t => tk ← get_task t; krhino_sem_count_get (task_sem_obj tk) count
  end.

(** ** What the calls do

    The relations read like the manual of the semaphore: every result, when it
    is given and what the call has done to the kernel. *)

Inductive take_spec (s : kstate) (o : nat) (ob : kobj) (ticks : Z) : kret -> kstate -> Prop :=
  | take_intrpt : 0 < g_intrpt_nested_level s ->
      take_spec s o ob ticks (Ret RHINO_NOT_CALLED_BY_INTRPT) s
  | take_type : obj_type ob <> RHINO_SEM_OBJ_TYPE ->
      take_spec s o ob ticks (Ret RHINO_KOBJ_TYPE_ERR) s
  | take_now count peak : sem_body ob = Some (count, peak) -> 0 < count ->
      take_spec s o ob ticks (Ret RHINO_SUCCESS) (with_obj o (set_body (KSem (count - 1) peak) ob) s)
  | take_nowait peak : sem_body ob = Some (0, peak) -> ticks = RHINO_NO_WAIT ->
      take_spec s o ob ticks (Ret RHINO_NO_PEND_WAIT) s
  | take_locked peak : sem_body ob = Some (0, peak) -> 0 < g_sched_lock s ->
      take_spec s o ob ticks (Ret RHINO_SCHED_DISABLE) s
  | take_block peak s' : sem_body ob = Some (0, peak) ->
      blocks_on s o ob s' ->
      g_tasks s' = alter (blocked o (g_tick_count s) ticks) (g_active_task s) (g_tasks s) ->
      (exists l, g_objs s' = <[o := set_blk_list l ob]> (g_objs s)) ->
      take_spec s o ob ticks Blocked s'.

Lemma sem_body_ok o ob s :
  kpre s -> g_objs s !! o = Some ob -> obj_type ob = RHINO_SEM_OBJ_TYPE ->
  exists count peak, sem_body ob = Some (count, peak) /\ body ob = KSem count peak /\
    0 <= count < 2 ^ 32 /\ (0 < count -> blk_list ob = []).
Proof.
  intros Hk Ho Hty. pose proof (c_obj _ _ _ _ _ _ _ (kp_core _ (kp_mid _ Hk)) _ _ Ho) as Hok.
  unfold obj_ok in Hok. rewrite Hty in Hok. unfold sem_body. destruct (body ob) as [count peak| | | |]; try done.
  exists count, peak. by destruct Hok.
Qed.

Lemma sem_like ob count peak count' peak' :
  obj_type ob = RHINO_SEM_OBJ_TYPE -> body ob = KSem count peak ->
  0 <= count' < 2 ^ 32 -> (0 < count' -> blk_list ob = []) ->
  obj_like ob (set_body (KSem count' peak') ob).
Proof.
  intros Hty Hb Hc Hl. split; try done.
  - unfold owner_of, mutex_owner. cbn. by rewrite Hb.
  - unfold obj_ok. cbn. by rewrite Hty.
Qed.

Lemma wp_krhino_sem_take s o ob ticks :
  wf s -> g_active_task s <> g_idle_task -> g_objs s !! o = Some ob -> 0 <= ticks < 2 ^ 64 ->
  wp (krhino_sem_take (Some o) ticks) (fun r s' => wf s' /\ take_spec s o ob ticks r s') s.
Proof.
  intros Hwf Hidle Ho Ht. unfold krhino_sem_take, NULL_PARA_CHK.
  apply wp_keeps_checks; [intros H; split; [done|by apply take_intrpt]|intros Hn].
  eapply wp_type_check; [exact Ho|intros H; split; [done|by apply take_type]|intros Hty].
  destruct (sem_body_ok _ _ _ (wf_pre _ Hwf) Ho Hty) as (count & peak & Hsb & Hb & Hc & Hcl).
  destruct (so_nested _ _ _ _ (kp_sched _ (kp_mid _ (wf_pre _ Hwf)))) as [Hn0 _].
  destruct (so_lock _ _ _ _ (kp_sched _ (kp_mid _ (wf_pre _ Hwf)))) as [Hl0 _].
  rewrite Hsb. apply wp_bind, wp_ret. cbn [fst snd]. destruct (Z.ltb_spec 0 count) as [Hpos|Hzero].
  { kstart Hwf. do 3 kstep. rewrite kput_eta in Hwf0. split; [|eapply take_now; eauto].
    rewrite <- (kput_eta s) in Hwf. eapply wf_obj; [exact Hwf|exact Ho|]. apply (sem_like _ _ _ _ _ Hty Hb); [lia|intros _; auto]. }
  assert (count = 0) as -> by lia.
  destruct (Z.eqb_spec ticks RHINO_NO_WAIT) as [->|Hnz].
  { apply wp_ret. split; [done|by eapply take_nowait]. }
  apply wp_lock_check; [intros H; split; [done|by eapply take_locked]|intros Hl].
  destruct (active_rdy _ Hwf) as (ak & Ha & Hr); [lia|].
  kstart Hwf. do 3 kstep. eapply wp_block_sched; [exact Hpre|exact Ha|exact Hr|done|lia|lia|done|exact Ho|..].
  - unfold not_mutex. by rewrite Hty.
  - intros l. unfold obj_ok. cbn. rewrite Hty, Hb. split; [lia|]. lia.
  - by rewrite Hty.
  - unfold RHINO_NO_WAIT in Hnz. lia.
  - exact (kp_mid _ (wf_pre _ Hwf)).
  - intros s' Hwf' Hbl HT HO. apply wp_ret. split; [exact Hwf'|]. eapply take_block; [done|done| |done]. by rewrite HT, (alter_some _ _ _ _ Ha).
Qed.

Inductive give_spec (s : kstate) (o : nat) (ob : kobj) (wake_all : bool) : kret -> kstate -> Prop :=
  | give_type : obj_type ob <> RHINO_SEM_OBJ_TYPE ->
      give_spec s o ob wake_all (Ret RHINO_KOBJ_TYPE_ERR) s
  | give_ovf peak : blk_list ob = [] -> sem_body ob = Some (SEM_COUNT_MAX, peak) ->
      give_spec s o ob wake_all (Ret RHINO_SEM_OVF) s
  | give_count count peak : blk_list ob = [] -> sem_body ob = Some (count, peak) -> count < SEM_COUNT_MAX ->
      give_spec s o ob wake_all (Ret RHINO_SUCCESS)
        (with_obj o (set_body (KSem (count + 1) (Z.max peak (count + 1))) ob) s)
  | give_one t l s' : blk_list ob = t :: l -> wake_all = false ->
      g_tasks s' = alter (woken BLK_FINISH) t (g_tasks s) ->
      g_objs s' = <[o := set_blk_list l ob]> (g_objs s) -> g_res_list s' = g_res_list s ->
      give_spec s o ob wake_all (Ret RHINO_SUCCESS) s'
  | give_all s' : blk_list ob <> [] -> wake_all = true ->
      g_tasks s' = wake_tasks (woken BLK_FINISH) (blk_list ob) (g_tasks s) ->
      g_objs s' = <[o := set_blk_list [] ob]> (g_objs s) -> g_res_list s' = g_res_list s ->
      give_spec s o ob wake_all (Ret RHINO_SUCCESS) s'.

(** usable by tasks and by interrupts *)
Lemma wp_sem_give s o ob wake_all :
  wf s -> g_objs s !! o = Some ob ->
  wp (sem_give o wake_all) (fun r s' => wf s' /\ give_spec s o ob wake_all r s') s.
Proof.
  intros Hwf Ho. unfold sem_give.
  eapply wp_type_check; [exact Ho|intros H; split; [done|by apply give_type]|intros Hty].
  destruct (sem_body_ok _ _ _ (wf_pre _ Hwf) Ho Hty) as (count & peak & Hsb & Hb & Hc & Hcl).
  rewrite Hsb. apply wp_bind, wp_ret. cbn [fst snd].
  assert (Hnm : not_mutex ob) by (unfold not_mutex; by rewrite Hty).
  kstart Hwf. destruct (blk_list ob) as [|t l] eqn:Hl.
  - destruct (Z.eqb_spec count SEM_COUNT_MAX) as [->|Hne].
    + kstep. split; [done|]. rewrite kput_eta. by eapply give_ovf.
    + unfold SEM_COUNT_MAX in Hne. do 3 kstep. rewrite kput_eta in Hwf0.
      replace (if peak <? count + 1 then count + 1 else peak) with (Z.max peak (count + 1))
        by (destruct (Z.ltb_spec peak (count + 1)); lia).
      split; [|eapply give_count; [done|exact Hsb|unfold SEM_COUNT_MAX; lia]].
      rewrite <- (kput_eta s) in Hwf. eapply wf_obj; [exact Hwf|exact Ho|].
      apply (sem_like _ _ _ _ _ Hty Hb); [lia|by rewrite Hl].
  - kstep. assert (Hw : waits (g_tasks s) t = Some o).
    { apply (bk_in _ _ _ (c_blk _ _ _ _ _ _ _ (kp_core _ Hmid)) _ _ t Ho). rewrite Hl. left. }
    destruct (waits_inv _ _ _ Hw) as (tk & Ht & _). destruct wake_all.
    + rewrite pend_task_wakeup_end.
      eapply wp_for_all_waiting; [apply pend_task_end_wakes|exact Hmid|exact Ho|exact Hnm|]. intros rq' th' Hk'.
      eapply wp_exit_sched; [split; [exact Hk'|]|].
      * apply none_insert; [apply Hpre|done].
      * intros s' Hwf' (p & a' & ->). split; [exact Hwf'|]. eapply give_all; cbn; [by rewrite Hl|done..].
    + rewrite pend_task_wakeup_end.
      eapply pend_task_end_wakes; [exact Hmid|exact Ht|exact Hw|exact Ho|exact Hnm|]. intros rq' Hk'.
      eapply wp_exit_sched; [split; [exact Hk'|]|].
      * apply none_insert; [apply Hpre|]. cbn. by rewrite Hty.
      * intros s' Hwf' (p & a' & ->). split; [exact Hwf'|]. eapply give_one; cbn; [exact Hl|done| | |done].
        -- symmetry. by apply alter_some.
        -- pose proof (bk_nodup _ _ _ (c_blk _ _ _ _ _ _ _ (kp_core _ Hmid)) _ _ Ho) as Hnd.
           cbn in Hnd. rewrite Hl in Hnd. apply NoDup_cons in Hnd as [Hnt _].
           unfold unlinked. rewrite Hl, klist_del_head by done. done.
Qed.

Lemma wp_sem_destroy s o ob (Q : unit -> kstate -> Prop) :
  wf s -> g_objs s !! o = Some ob -> obj_type ob = RHINO_SEM_OBJ_TYPE ->
  (forall s', destroyed s o ob (deleted_obj ob) s' -> Q tt s') -> wp (sem_destroy o) Q s.
Proof.
  intros Hwf Ho Hty HQ. assert (Hnm : not_mutex ob) by (unfold not_mutex; by rewrite Hty).
  unfold sem_destroy. kstart Hwf. do 3 kstep.
  eapply wp_delete_waiting; [exact Hpre|exact Ho|exact Hnm|]. intros rq' th' ob' -> Hk'.
  kstep. apply HQ. split; [|done..]. exact (kpre_kobj_list _ _ Hk').
Qed.

Lemma krhino_sem_del_wf s o ob :
  wf s -> g_objs s !! o = Some ob -> keeps (krhino_sem_del (Some o)) s.
Proof.
  intros Hwf Ho. unfold krhino_sem_del, NULL_PARA_CHK, keeps.
  apply wp_keeps_checks; [done|intros _]. eapply wp_type_check; [exact Ho|done|intros Hty].
  apply wp_flag_check; [done|intros _]. eapply wp_delete_static. intros R HR.
  eapply wp_sem_destroy; [exact Hwf|exact Ho|exact Hty|]. intros s' [Hk _ Hobjs]. apply HR; [done|].
  rewrite Hobjs. apply lookup_insert_eq.
Qed.

Lemma krhino_sem_dyn_del_wf s o ob :
  wf s -> g_objs s !! o = Some ob -> keeps (krhino_sem_dyn_del (Some o)) s.
Proof.
  intros Hwf Ho. unfold krhino_sem_dyn_del, NULL_PARA_CHK, keeps.
  apply wp_keeps_checks; [done|intros _]. eapply wp_type_check; [exact Ho|done|intros Hty].
  apply wp_flag_check; [done|intros _]. eapply (wp_delete_dyn s o (deleted_obj ob)); [done|]. intros R HR.
  eapply wp_sem_destroy; [exact Hwf|exact Ho|exact Hty|]. intros s' [Hk _ Hobjs]. apply HR; [done|].
  rewrite Hobjs. apply lookup_insert_eq.
Qed.

Lemma sem_create_keeps (Inv : kstate -> Prop) `{!Creates Inv} s sem name count flag :
  Inv s -> (forall o, sem = Some o -> fresh_obj s o) -> 0 <= count < 2 ^ 32 ->
  creates Inv (sem_create sem name count flag) s.
Proof.
  intros Hi Hf Hc. unfold sem_create, NULL_PARA_CHK. destruct sem as [o|]; [|by apply creates_err].
  destruct name; [|by apply creates_err]. apply wp_bind, wp_modify, wp_bind, wp_modify, wp_ret.
  apply creates_new; [done|by apply Hf|done..].
Qed.

Lemma krhino_sem_count_set_wf s o ob count :
  wf s -> g_objs s !! o = Some ob -> 0 <= count < 2 ^ 32 -> keeps (krhino_sem_count_set (Some o) count) s.
Proof.
  intros Hwf Ho Hc. unfold krhino_sem_count_set, NULL_PARA_CHK, keeps.
  apply wp_keeps_checks; [done|intros _]. eapply wp_type_check; [exact Ho|done|intros Hty].
  destruct (sem_body_ok _ _ _ (wf_pre _ Hwf) Ho Hty) as (c & peak & Hsb & Hb & Hcr & Hcl).
  rewrite Hsb. apply wp_bind, wp_ret. cbn [fst snd]. case_match eqn:E; [by apply wp_ret|].
  kstart Hwf. do 3 kstep. eapply wf_obj; [exact Hwf0|exact Ho|]. apply (sem_like _ _ _ _ _ Hty Hb); [done|].
  intros _. apply andb_false_iff in E as [E|E].
  - apply negb_false_iff, Z.ltb_lt in E. auto.
  - by apply negb_false_iff, bool_decide_eq_true in E.
Qed.
