(* ===== verification/Event.v ===== *)
(** * Event flags ([core/k_event.c]) *)

From S2P Require Import Prelude Config State Sched Inv Tick Pend KInv.

(** ** The code *)

Definition RHINO_FLAGS_AND_MASK : Z := 0x2.
Definition RHINO_FLAGS_CLEAR_MASK : Z := 0x1.
Definition RHINO_AND : Z := 0x02.
Definition RHINO_AND_CLEAR : Z := 0x03.
Definition RHINO_OR : Z := 0x00.
Definition RHINO_OR_CLEAR : Z := 0x01.

(** [x & ~y] on 32 bits *)
Definition clear_bits (x y : Z) : Z := Z.land x (Z.lxor y (2 ^ 32 - 1)).

Definition event_flags (ob : kobj) : option Z :=
  match body ob with KEvent f => Some f | _ => None end.

Definition event_create (event name : option nat) (flags mm_alloc_flag : Z) : K kret :=
  NULL_PARA_CHK event (fun o =>
  NULL_PARA_CHK name (fun _ =>
    new_obj o (mkObj [] BLK_POLICY_PRI RHINO_EVENT_OBJ_TYPE mm_alloc_flag (KEvent flags));;
    upd_kobj_list (fun l => set_event_head (event_head l ++ [o]) l);;
    ret RHINO_SUCCESS)).

Definition krhino_event_create (event name : option nat) (flags : Z) : K kret :=
  event_create event name flags K_OBJ_STATIC_ALLOC.

Definition event_destroy (o : nat) : K unit :=
  upd_obj o (set_obj_type RHINO_OBJ_TYPE_NONE);;
  for_all_waiting o pend_task_rm;;
  upd_obj o (set_body (KEvent 0));;
  upd_kobj_list (fun l => set_event_head (klist_del o (event_head l)) l).

Definition krhino_event_del (event : option nat) : K kret :=
  NULL_PARA_CHK event (fun o =>
  INTRPT_NESTED_LEVEL_CHK (
  OBJ_TYPE_CHK o RHINO_EVENT_OBJ_TYPE (fun ob =>
  ALLOC_FLAG_CHK ob K_OBJ_STATIC_ALLOC (
    event_destroy o;; exit_sched (Ret RHINO_SUCCESS))))).

Definition krhino_event_dyn_create (event alloc name : option nat) (flags : Z) : K (kret * option nat) :=
  NULL_PARA_CHK event (fun _ => dyn_create alloc (fun o => event_create (Some o) name flags K_OBJ_DYN_ALLOC)).

Definition krhino_event_dyn_del (event : option nat) : K kret :=
  NULL_PARA_CHK event (fun o =>
  INTRPT_NESTED_LEVEL_CHK (
  OBJ_TYPE_CHK o RHINO_EVENT_OBJ_TYPE (fun ob =>
  ALLOC_FLAG_CHK ob K_OBJ_DYN_ALLOC (
    event_destroy o;; core_sched;; free_obj o;; ret RHINO_SUCCESS)))).

(** the condition [opt] puts on the flags of the event *)
Definition event_met (opt cur_flags flags : Z) : bool :=
  if 0 <? Z.land opt RHINO_FLAGS_AND_MASK then Z.land cur_flags flags =? flags
  else 0 <? Z.land cur_flags flags.

(** the second component is what is stored through [actl_flags] *)
Definition krhino_event_get (event : option nat) (flags opt : Z) (actl_flags : option nat) (ticks : Z)
    : K (kret * option Z) :=
  NULL_PARA_CHK event (fun o =>
  NULL_PARA_CHK actl_flags (fun _ =>
  if negb ((opt =? RHINO_AND) || (opt =? RHINO_OR) || (opt =? RHINO_AND_CLEAR) || (opt =? RHINO_OR_CLEAR))
  then ret RHINO_NO_THIS_EVENT_OPT else
  INTRPT_NESTED_LEVEL_CHK (
  OBJ_TYPE_CHK o RHINO_EVENT_OBJ_TYPE (fun ob =>
    cur ← lift (event_flags ob);
    if event_met opt cur flags then
      (if 0 <? Z.land opt RHINO_FLAGS_CLEAR_MASK
       then upd_obj o (set_body (KEvent (clear_bits cur flags))) else mret tt);;
      mret (Ret RHINO_SUCCESS, Some cur)
    else if ticks =? RHINO_NO_WAIT then ret RHINO_NO_PEND_WAIT
    else SCHED_LOCK_CHK (
      a ← gets g_active_task;
      (* remember the passed information *)
      upd_task a (set_pend_option opt);;
      upd_task a (set_pend_flags flags);;
      pend_to_blk_obj o a ticks;;
      core_sched;;
      mret (Blocked, None)))))).

(** the rest of [krhino_event_get]: the flags are in [*actl_flags], where
    [event_set] stored them *)
Definition krhino_event_get_resume : K kret :=
  a ← gets g_active_task; st ← pend_state_end_proc a; mret (Ret st).

(** one turn of the loop of [event_set] *)
Definition event_wake (o : nat) (cur_event_flags : Z) (t : nat) : K unit :=
  tk ← get_task t;
  if event_met (pend_option tk) cur_event_flags (pend_flags tk) then
    upd_task t (set_pend_info cur_event_flags);;
    (* the task condition is met, just wake this task *)
    pend_task_wakeup t;;
    (* does it need to clear the flags *)
    if 0 <? Z.land (pend_option tk) RHINO_FLAGS_CLEAR_MASK then
      ob ← get_obj o;
      f ← lift (event_flags ob);
      upd_obj o (set_body (KEvent (clear_bits f (pend_flags tk))))
    else mret tt
  else mret tt.

(** [iter_temp] is read before the task is unlinked, and the loop unlinks no
    other task: it visits the tasks that wait when it starts *)
Fixpoint event_wake_loop (o : nat) (cur_event_flags : Z) (l : list nat) : K unit :=
  match l with
  | [] => mret tt
  | t :: l' => event_wake o cur_event_flags t;; event_wake_loop o cur_event_flags l'
  end.

Definition event_set (o : nat) (flags opt : Z) : K kret :=
  OBJ_TYPE_CHK o RHINO_EVENT_OBJ_TYPE (fun ob =>
    cur ← lift (event_flags ob);
    if 0 <? Z.land opt RHINO_FLAGS_AND_MASK then
      (* it just clears the flags and will return immediately *)
      upd_obj o (set_body (KEvent (Z.land cur flags)));; ret RHINO_SUCCESS
    else
      let cur_event_flags := Z.lor cur flags in
      upd_obj o (set_body (KEvent cur_event_flags));;
      event_wake_loop o cur_event_flags (blk_list ob);;
      exit_sched (Ret RHINO_SUCCESS)).

Definition krhino_event_set (event : option nat) (flags opt : Z) : K kret :=
  NULL_PARA_CHK event (fun o =>
  if negb ((opt =? RHINO_AND) || (opt =? RHINO_OR)) then ret RHINO_NO_THIS_EVENT_OPT
  else event_set o flags opt).

(** ** Setting flags *)

Lemma event_body_ok o ob s :
  kpre s -> g_objs s !! o = Some ob -> obj_type ob = RHINO_EVENT_OBJ_TYPE ->
  exists flags, event_flags ob = Some flags /\ body ob = KEvent flags /\ 0 <= flags < 2 ^ 32.
Proof.
  intros Hk Ho Hty. pose proof (c_obj _ _ _ _ _ _ _ (kp_core _ (kp_mid _ Hk)) _ _ Ho) as Hok.
  unfold obj_ok in Hok. rewrite Hty in Hok. unfold event_flags. destruct (body ob) as [| | | |flags]; try done.
  by exists flags.
Qed.

Lemma clear_bits_range x y : 0 <= x < 2 ^ 32 -> 0 <= clear_bits x y < 2 ^ 32.
Proof. by apply land_width. Qed.

Lemma event_like ob flags flags' :
  obj_type ob = RHINO_EVENT_OBJ_TYPE -> body ob = KEvent flags -> 0 <= flags' < 2 ^ 32 ->
  obj_like ob (set_body (KEvent flags') ob).
Proof.
  intros Hty Hb Hf. split; try done.
  - unfold owner_of, mutex_owner. cbn. by rewrite Hb.
  - unfold obj_ok. cbn. by rewrite Hty.
Qed.

(** a waiting task that gets the flags *)
Definition event_woken (cur : Z) (tk : ktask) : ktask := woken BLK_FINISH (set_pend_info cur tk).

(** the condition of the task [t] *)
Definition task_met (T : gmap nat ktask) (cur : Z) (t : nat) : bool :=
  from_option (fun tk => event_met (pend_option tk) cur (pend_flags tk)) false (T !! t).

Definition met_of (T : gmap nat ktask) (cur : Z) (l : list nat) : list nat :=
  filter (fun t => task_met T cur t = true) l.

(** the flags a woken task clears *)
Definition task_clears (T : gmap nat ktask) (f : Z) (t : nat) : Z :=
  match T !! t with
  | Some tk => if 0 <? Z.land (pend_option tk) RHINO_FLAGS_CLEAR_MASK then clear_bits f (pend_flags tk) else f
  | None => f
  end.

(** the tasks whose condition holds are woken and clear their flags one after
    the other; all conditions are tested against the flags before any is cleared *)
Definition flags_after (T : gmap nat ktask) (cur f : Z) (l : list nat) : Z :=
  foldl (task_clears T) f (met_of T cur l).

Definition unlinked_all (l : list nat) (ob : kobj) : kobj :=
  set_blk_list (filter (fun t => t ∉ l) (blk_list ob)) ob.

Lemma met_of_cons T cur t l :
  met_of T cur (t :: l) = if task_met T cur t then t :: met_of T cur l else met_of T cur l.
Proof. unfold met_of. rewrite filter_cons. by destruct (task_met T cur t). Qed.

Lemma task_met_ne T cur t u v : u <> t -> task_met (<[t := v]> T) cur u = task_met T cur u.
Proof. intros H. unfold task_met. by rewrite lookup_insert_ne. Qed.

Lemma met_of_ext T T' cur l : (forall u, u ∈ l -> T' !! u = T !! u) -> met_of T' cur l = met_of T cur l.
Proof.
  induction l as [|t l IH]; intros H; [done|]. rewrite !met_of_cons, IH by (intros; apply H; by right).
  unfold task_met. by rewrite H by left.
Qed.

Lemma task_clears_range T f t : 0 <= f < 2 ^ 32 -> 0 <= task_clears T f t < 2 ^ 32.
Proof.
  intros Hf. unfold task_clears. destruct (T !! t); [|done]. case_match; [by apply clear_bits_range|done].
Qed.

Lemma foldl_clears_ext T T' f l :
  (forall u, u ∈ l -> T' !! u = T !! u) -> foldl (task_clears T') f l = foldl (task_clears T) f l.
Proof.
  revert f. induction l as [|t l IH]; intros f H; [done|]. cbn. rewrite IH by (intros; apply H; by right).
  f_equal. unfold task_clears. by rewrite H by left.
Qed.

Lemma set_pend_info_like v tk : task_like tk (set_pend_info v tk).
Proof. done. Qed.

Lemma flags_after_cons T cur f t l :
  flags_after T cur f (t :: l) = flags_after T cur (if task_met T cur t then task_clears T f t else f) l.
Proof. unfold flags_after. rewrite met_of_cons. by destruct (task_met T cur t). Qed.

Lemma wp_event_wake T objs rq th s o ob f cur t (Q : unit -> kstate -> Prop) :
  kmid (kput T objs rq th s) -> objs !! o = Some ob -> obj_type ob = RHINO_EVENT_OBJ_TYPE ->
  body ob = KEvent f -> 0 <= f < 2 ^ 32 -> t ∈ blk_list ob ->
  (forall rq' th', 
     let met := task_met T cur t in
     let T' := if met then alter (event_woken cur) t T else T in
     let ob' := set_body (KEvent (if met then task_clears T f t else f))
                  (if met then unlinked t ob else ob) in
     kmid (kput T' (<[o := ob']> objs) rq' th' s) -> Q tt (kput T' (<[o := ob']> objs) rq' th' s)) ->
  wp (event_wake o cur t) Q (kput T objs rq th s).
Proof.
  intros Hk Ho Hty Hb Hf Hin HQ. unfold event_wake.
  assert (Hw : waits T t = Some o) by (by apply (bk_in _ _ _ (c_blk _ _ _ _ _ _ _ (kp_core _ Hk)) _ _ t Ho)).
  destruct (waits_inv _ _ _ Hw) as (tk & Ht & _). do 2 kstep.
  assert (Hid : set_body (KEvent f) ob = ob) by (rewrite <- Hb; by destruct ob).
  assert (Hoid : <[o := ob]> objs = objs) by (by apply insert_id).
  unfold task_met in HQ. rewrite Ht in HQ. cbn -[event_met] in HQ.
  destruct (event_met (pend_option tk) cur (pend_flags tk)).
  2: { kstep. specialize (HQ rq th). rewrite Hid, Hoid in HQ. by apply HQ. }
  do 3 kstep. assert (Hk1 := kmid_task_like T t tk _ Ht (set_pend_info_like cur tk) _ _ _ _ Hk).
  rewrite pend_task_wakeup_end. eapply pend_task_end_wakes; [exact Hk1|apply lookup_insert_eq| |exact Ho| |].
  { by rewrite (like_waits T t tk _ Ht (set_pend_info_like cur tk) t). }
  { unfold not_mutex. by rewrite Hty. }
  intros rq' Hk2. rewrite insert_insert_eq in *. rewrite (alter_some _ _ _ _ Ht) in HQ.
  assert (Hid' : set_body (KEvent f) (unlinked t ob) = unlinked t ob) by (rewrite <- Hb; by destruct ob).
  unfold task_clears in HQ. rewrite Ht in HQ. case_match eqn:Hc.
  - do 2 kstep. unfold event_flags. cbn [body unlinked set_blk_list]. rewrite Hb. do 3 kstep. apply HQ.
    assert (Hk3 := kmid_obj _ _ _ _ _ _ _ _ Hk2 (lookup_insert_eq _ _ _)
      (event_like (unlinked t ob) f (clear_bits f (pend_flags tk)) Hty Hb (clear_bits_range _ _ Hf))).
    by rewrite insert_insert_eq in Hk3.
  - kstep. specialize (HQ rq' (klist_del t th)). rewrite Hid' in HQ. by apply HQ.
Qed.

Lemma unlinked_all_cons t l ob : unlinked_all (t :: l) ob = unlinked_all l (unlinked t ob).
Proof.
  unfold unlinked_all, unlinked, klist_del, set_blk_list. cbn. f_equal. rewrite list_filter_filter.
  apply list_filter_iff. intros u. rewrite elem_of_cons. tauto.
Qed.

Lemma unlinked_all_nil ob : unlinked_all [] ob = ob.
Proof.
  unfold unlinked_all. destruct ob as [l p ty fl b]. unfold set_blk_list. cbn. f_equal.
  induction l as [|t l IH]; [done|]. rewrite filter_cons_True by apply not_elem_of_nil. by f_equal.
Qed.

Lemma wp_event_wake_loop cur l : forall T objs rq th s o ob f (Q : unit -> kstate -> Prop),
  kmid (kput T objs rq th s) -> objs !! o = Some ob -> obj_type ob = RHINO_EVENT_OBJ_TYPE ->
  body ob = KEvent f -> 0 <= f < 2 ^ 32 -> NoDup l -> (forall t, t ∈ l -> t ∈ blk_list ob) ->
  (forall rq' th',
     let T' := wake_tasks (event_woken cur) (met_of T cur l) T in
     let ob' := set_body (KEvent (flags_after T cur f l)) (unlinked_all (met_of T cur l) ob) in
     kmid (kput T' (<[o := ob']> objs) rq' th' s) -> Q tt (kput T' (<[o := ob']> objs) rq' th' s)) ->
  wp (event_wake_loop o cur l) Q (kput T objs rq th s).
Proof.
  induction l as [|t l IH]; intros T objs rq th s o ob f Q Hk Ho Hty Hb Hf Hnd Hin HQ.
  - cbn [event_wake_loop]. kstep. specialize (HQ rq th). cbn zeta in HQ.
    change (met_of T cur []) with (@nil nat) in HQ. rewrite unlinked_all_nil in HQ.
    replace (set_body (KEvent (flags_after T cur f [])) ob) with ob in HQ.
    + rewrite insert_id in HQ by exact Ho. by apply HQ.
    + unfold flags_after. cbn. rewrite <- Hb. by destruct ob.
  - apply NoDup_cons in Hnd as [Hnt Hnd]. cbn [event_wake_loop]. kstep.
    eapply wp_event_wake; [exact Hk|exact Ho|exact Hty|exact Hb|exact Hf|by apply Hin; left|].
    intros rq1 th1 met T1 ob1 Hk1. subst met.
    assert (Hsame : forall u, u ∈ l -> T1 !! u = T !! u).
    { intros u Hu. subst T1. destruct (task_met T cur t); [|done]. rewrite lookup_alter_ne; [done|]. by intros ->. }
    assert (Hmet := met_of_ext _ _ cur l Hsame).
    eapply (IH _ _ _ _ _ _ ob1); [exact Hk1|apply lookup_insert_eq| |done| |done| |].
    + subst ob1. by destruct (task_met T cur t).
    + destruct (task_met T cur t); [by apply task_clears_range|done].
    + intros u Hu. subst ob1. cbn. specialize (Hin u ltac:(by right)).
      destruct (task_met T cur t); [|done]. apply elem_of_klist_del. split; [by intros ->|done].
    + intros rq2 th2. specialize (HQ rq2 th2). cbn zeta in HQ |- *. rewrite insert_insert_eq.
      rewrite flags_after_cons, met_of_cons in HQ. rewrite Hmet.
      assert (Hfl : forall g, flags_after T1 cur g l = flags_after T cur g l).
      { intros g. unfold flags_after. rewrite Hmet. apply foldl_clears_ext. intros u [_ Hu]%list_elem_of_filter. auto. }
      rewrite Hfl. subst T1 ob1. destruct (task_met T cur t); [rewrite unlinked_all_cons in HQ|]; exact HQ.
Qed.

Lemma event_body_set ob f : body ob = KEvent f -> set_body (KEvent f) ob = ob.
Proof. intros <-. by destruct ob. Qed.

Inductive set_spec (s : kstate) (o : nat) (ob : kobj) (flags opt : Z) : kret -> kstate -> Prop :=
  | set_type : obj_type ob <> RHINO_EVENT_OBJ_TYPE -> set_spec s o ob flags opt (Ret RHINO_KOBJ_TYPE_ERR) s
  | set_and cur : event_flags ob = Some cur -> opt = RHINO_AND ->
      set_spec s o ob flags opt (Ret RHINO_SUCCESS) (with_obj o (set_body (KEvent (Z.land cur flags)) ob) s)
  | set_or cur s' : event_flags ob = Some cur -> opt = RHINO_OR ->
      let now := Z.lor cur flags in
      let met := met_of (g_tasks s) now (blk_list ob) in
      g_tasks s' = wake_tasks (event_woken now) met (g_tasks s) ->
      g_objs s' = <[o := set_body (KEvent (flags_after (g_tasks s) now now (blk_list ob))) (unlinked_all met ob)]> (g_objs s) ->
      set_spec s o ob flags opt (Ret RHINO_SUCCESS) s'.

Lemma wp_event_set s o ob flags opt :
  wf s -> g_objs s !! o = Some ob -> 0 <= flags < 2 ^ 32 -> opt = RHINO_AND \/ opt = RHINO_OR ->
  wp (event_set o flags opt) (fun r s' => wf s' /\ set_spec s o ob flags opt r s') s.
Proof.
  intros Hwf Ho Hf Hopt. unfold event_set.
  eapply wp_type_check; [exact Ho|intros H; split; [done|by apply set_type]|intros Hty].
  destruct (event_body_ok _ _ _ (wf_pre _ Hwf) Ho Hty) as (cur & Hef & Hb & Hc).
  rewrite Hef. apply wp_bind, wp_ret. destruct Hopt as [-> | ->]; cbn [Z.land Z.ltb RHINO_AND RHINO_OR].
  - change (0 <? Z.land RHINO_AND RHINO_FLAGS_AND_MASK) with true. cbv iota. kstart Hwf. do 3 kstep.
    assert (Hl := event_like ob cur _ Hty Hb (land_width cur flags 32 ltac:(lia) Hc)).
    split; [exact (wf_obj _ _ _ _ _ _ _ _ Hwf0 Ho Hl)|by eapply set_and].
  - change (0 <? Z.land RHINO_OR RHINO_FLAGS_AND_MASK) with false. cbv iota zeta. kstart Hwf. do 2 kstep.
    assert (Hnow := lor_width cur flags 32 ltac:(lia) Hc Hf). set (now := Z.lor cur flags) in *.
    assert (Hl := event_like ob cur _ Hty Hb Hnow). assert (Hk := kpre_obj _ _ _ _ _ _ _ _ Hpre Ho Hl). kstep.
    eapply wp_event_wake_loop; [exact Hk|apply lookup_insert_eq|exact Hty|done|exact Hnow| |done|].
    { eapply bk_nodup; [apply Hmid|exact Ho]. }
    intros rq' th' T' ob' Hk'. subst T' ob'. rewrite insert_insert_eq in *.
    eapply wp_exit_sched; [split; [exact Hk'|]|].
    + apply none_insert; [apply Hpre|]. cbn. by rewrite Hty.
    + intros s' Hwf' (p & a & ->). split; [exact Hwf'|]. by eapply set_or.
Qed.

Inductive get_spec (s : kstate) (o : nat) (ob : kobj) (flags opt ticks : Z) : kret * option Z -> kstate -> Prop :=
  | get_opt : opt ∉ [RHINO_AND; RHINO_OR; RHINO_AND_CLEAR; RHINO_OR_CLEAR] ->
      get_spec s o ob flags opt ticks (Ret RHINO_NO_THIS_EVENT_OPT, None) s
  | get_intrpt : 0 < g_intrpt_nested_level s -> get_spec s o ob flags opt ticks (Ret RHINO_NOT_CALLED_BY_INTRPT, None) s
  | get_type : obj_type ob <> RHINO_EVENT_OBJ_TYPE -> get_spec s o ob flags opt ticks (Ret RHINO_KOBJ_TYPE_ERR, None) s
  | get_now cur : event_flags ob = Some cur -> event_met opt cur flags = true -> Z.land opt RHINO_FLAGS_CLEAR_MASK = 0 ->
      get_spec s o ob flags opt ticks (Ret RHINO_SUCCESS, Some cur) s
  | get_clear cur : event_flags ob = Some cur -> event_met opt cur flags = true ->
      0 < Z.land opt RHINO_FLAGS_CLEAR_MASK ->
      get_spec s o ob flags opt ticks (Ret RHINO_SUCCESS, Some cur) (with_obj o (set_body (KEvent (clear_bits cur flags)) ob) s)
  | get_nowait cur : event_flags ob = Some cur -> event_met opt cur flags = false -> ticks = RHINO_NO_WAIT ->
      get_spec s o ob flags opt ticks (Ret RHINO_NO_PEND_WAIT, None) s
  | get_locked cur : event_flags ob = Some cur -> event_met opt cur flags = false -> 0 < g_sched_lock s ->
      get_spec s o ob flags opt ticks (Ret RHINO_SCHED_DISABLE, None) s
  | get_block cur s' ak : event_flags ob = Some cur -> event_met opt cur flags = false -> blocks_on s o ob s' ->
      g_tasks s' !! g_active_task s = Some ak -> pend_option ak = opt -> pend_flags ak = flags ->
      get_spec s o ob flags opt ticks (Blocked, None) s'.

Lemma wp_krhino_event_get s o ob flags opt actl ticks :
  wf s -> g_active_task s <> g_idle_task -> g_objs s !! o = Some ob -> 0 <= ticks < 2 ^ 64 ->
  wp (krhino_event_get (Some o) flags opt (Some actl) ticks) (fun r s' => wf s' /\ get_spec s o ob flags opt ticks r s') s.
Proof.
  intros Hwf Hidle Ho Ht. unfold krhino_event_get, NULL_PARA_CHK.
  destruct ((opt =? RHINO_AND) || (opt =? RHINO_OR) || (opt =? RHINO_AND_CLEAR) || (opt =? RHINO_OR_CLEAR)) eqn:Hopt; cbn [negb].
  2: { apply wp_ret. split; [done|]. apply get_opt. rewrite !not_elem_of_cons, elem_of_nil.
       apply orb_false_iff in Hopt as [[[H1 H2]%orb_false_iff H3]%orb_false_iff H4].
       apply Z.eqb_neq in H1, H2, H3, H4. tauto. }
  apply wp_keeps_checks; [intros H; split; [done|by apply get_intrpt]|intros Hn].
  eapply wp_type_check; [exact Ho|intros H; split; [done|by apply get_type]|intros Hty].
  destruct (event_body_ok _ _ _ (wf_pre _ Hwf) Ho Hty) as (cur & Hef & Hb & Hc).
  destruct (so_nested _ _ _ _ (kp_sched _ (kp_mid _ (wf_pre _ Hwf)))) as [Hn0 _].
  destruct (so_lock _ _ _ _ (kp_sched _ (kp_mid _ (wf_pre _ Hwf)))) as [Hl0 _].
  rewrite Hef. apply wp_bind, wp_ret. destruct (event_met opt cur flags) eqn:Hmet.
  { destruct (Z.ltb_spec 0 (Z.land opt RHINO_FLAGS_CLEAR_MASK)) as [Hclr|Hclr].
    - kstart Hwf. do 3 kstep.
      assert (Hl := event_like ob cur _ Hty Hb (clear_bits_range cur flags Hc)).
      split; [exact (wf_obj _ _ _ _ _ _ _ _ Hwf0 Ho Hl)|by eapply get_clear].
    - apply wp_bind, wp_ret, wp_ret. split; [done|]. eapply get_now; [done..|].
      change RHINO_FLAGS_CLEAR_MASK with (Z.ones 1) in *. rewrite land_ones_mod in * by lia.
      pose proof (Z.mod_pos_bound opt (2 ^ 1)). lia. }
  destruct (Z.eqb_spec ticks RHINO_NO_WAIT) as [->|Hnz].
  { apply wp_ret. split; [done|by eapply get_nowait]. }
  apply wp_lock_check; [intros H; split; [done|by eapply get_locked]|intros Hl].
  destruct (active_rdy _ Hwf) as (ak & Ha & Hr); [lia|].
  kstart Hwf. do 7 kstep.
  set (ak1 := set_pend_flags flags (set_pend_option opt ak)).
  assert (Hlike : task_like ak ak1) by done.
  eapply (wp_block_sched (<[g_active_task s := ak1]> (g_tasks s)));
    [by eapply kpre_task_like|apply lookup_insert_eq|exact Hr|done|lia|lia| |exact Ho|..].
  - intros u Hu. by rewrite lookup_insert_ne.
  - unfold not_mutex. by rewrite Hty.
  - intros l. unfold obj_ok. cbn. by rewrite Hty, Hb.
  - by rewrite Hty.
  - unfold RHINO_NO_WAIT in Hnz. lia.
  - exact (kp_mid _ (wf_pre _ Hwf)).
  - intros s' Hwf' Hbl HT _. apply wp_ret. split; [exact Hwf'|].
    eapply get_block; [done|done|exact Hbl|rewrite HT; apply lookup_insert_eq|..]; unfold blocked; by destruct (ticks =? _).
Qed.

(** ** Deleting and creating *)

Section destroy.
Context (s : kstate) (o : nat) (ob : kobj) (Hwf : wf s) (Ho : g_objs s !! o = Some ob).

Lemma wp_event_destroy (R : unit -> kstate -> Prop) :
  obj_type ob = RHINO_EVENT_OBJ_TYPE ->
  (forall s', kpre s' -> g_objs s' !! o = Some (set_body (KEvent 0) (deleted_obj ob)) -> R tt s') ->
  wp (event_destroy o) R s.
Proof using Hwf Ho.
  intros Hty HR. unfold event_destroy. kstart Hwf. do 3 kstep.
  eapply wp_delete_waiting; [exact Hpre|exact Ho|by unfold not_mutex; rewrite Hty|].
  intros rq' th' ob' -> Hk'. do 3 kstep.
  assert (Hk2 := kpre_deleted_body _ _ _ _ _ _ _ (KEvent 0) Hk' (lookup_insert_eq _ _ _) eq_refl).
  rewrite insert_insert_eq in Hk2. apply HR; [exact (kpre_kobj_list _ _ Hk2)|apply lookup_insert_eq].
Qed.

Lemma krhino_event_del_wf : keeps (krhino_event_del (Some o)) s.
Proof using Hwf Ho.
  unfold krhino_event_del, NULL_PARA_CHK, keeps.
  apply wp_keeps_checks; [done|intros _]. eapply wp_type_check; [exact Ho|done|intros Hty].
  apply wp_flag_check; [done|intros _]. eapply wp_delete_static. intros R. by apply wp_event_destroy.
Qed.

Lemma krhino_event_dyn_del_wf : keeps (krhino_event_dyn_del (Some o)) s.
Proof using Hwf Ho.
  unfold krhino_event_dyn_del, NULL_PARA_CHK, keeps.
  apply wp_keeps_checks; [done|intros _]. eapply wp_type_check; [exact Ho|done|intros Hty].
  apply wp_flag_check; [done|intros _]. eapply wp_delete_dyn; [|intros R; by apply wp_event_destroy]. done.
Qed.
End destroy.

Lemma event_create_keeps (Inv : kstate -> Prop) `{!Creates Inv} s event name flags flag :
  Inv s -> (forall o, event = Some o -> fresh_obj s o) -> 0 <= flags < 2 ^ 32 -> creates Inv (event_create event name flags flag) s.
Proof.
  intros Hi Hf Hr. unfold event_create, NULL_PARA_CHK. destruct event as [o|]; [|by apply creates_err].
  destruct name; [|by apply creates_err]. apply wp_bind, wp_modify, wp_bind, wp_modify, wp_ret.
  apply creates_new; [done|by apply Hf|done..].
Qed.
