(* ===== verification/Queue.v ===== *)
(** * Message queues ([core/k_queue.c])

    A queue carries pointers, four bytes each in a ring of fixed-size blocks. *)

From S2P Require Import Prelude Config RingBuf State Sched Inv Tick Pend KInv.
Open Scope Z_scope.

(** ** The code *)

(** a pointer in memory, and read back *)
Definition ptr_bytes (p : Z) : list Z := [byte_of p 0; byte_of p 1; byte_of p 2; byte_of p 3].

Definition queue_body (ob : kobj) : option (k_ringbuf_t * Z * Z * Z) :=
  match body ob with KQueue r size cur peak => Some (r, size, cur, peak) | _ => None end.

Definition task_msg_recv (msg : Z) (t : nat) : K unit :=
  upd_task t (set_msg msg);; pend_task_wakeup t.

(** [start] is the memory of the ring, [None] for NULL *)
Definition queue_create (queue name : option nat) (start : option (list Z)) (msg_num mm_alloc_flag : Z)
    : K kret :=
  NULL_PARA_CHK queue (fun o =>
  NULL_PARA_CHK start (fun buf =>
  NULL_PARA_CHK name (fun _ =>
  if msg_num =? 0 then ret RHINO_INV_PARAM else
    new_obj o (mkObj [] BLK_POLICY_PRI RHINO_QUEUE_OBJ_TYPE mm_alloc_flag
      (KQueue (ringbuf_init (take (Z.to_nat msg_num * sizeof_ptr) buf) RINGBUF_TYPE_FIX sizeof_ptr)
         msg_num 0 0));;
    upd_kobj_list (fun l => set_queue_head (queue_head l ++ [o]) l);;
    ret RHINO_SUCCESS))).

Definition krhino_queue_create (queue name : option nat) (start : option (list Z)) (msg_num : Z) : K kret :=
  queue_create queue name start msg_num K_OBJ_STATIC_ALLOC.

Definition queue_ring_reset (o : nat) : K unit :=
  ob ← get_obj o;
  '(r, size, cur, peak) ← lift (queue_body ob);
  upd_obj o (set_body (KQueue (ringbuf_reset r).2 size cur peak)).

Definition queue_destroy (o : nat) : K unit :=
  upd_obj o (set_obj_type RHINO_OBJ_TYPE_NONE);;
  (* all task blocked on this queue is waken up *)
  for_all_waiting o pend_task_rm;;
  upd_kobj_list (fun l => set_queue_head (klist_del o (queue_head l)) l);;
  queue_ring_reset o.

Definition krhino_queue_del (queue : option nat) : K kret :=
  NULL_PARA_CHK queue (fun o =>
  INTRPT_NESTED_LEVEL_CHK (
  OBJ_TYPE_CHK o RHINO_QUEUE_OBJ_TYPE (fun ob =>
  ALLOC_FLAG_CHK ob K_OBJ_STATIC_ALLOC (
    queue_destroy o;; exit_sched (Ret RHINO_SUCCESS))))).

(** [alloc] is the block for the queue, [start] the block for the ring *)
Definition krhino_queue_dyn_create (queue alloc name : option nat) (start : option (list Z)) (msg_num : Z)
    : K (kret * option nat) :=
  NULL_PARA_CHK queue (fun _ =>
  dyn_create alloc (fun o =>
    match start with
    | None => ret RHINO_NO_MEM
    | Some _ => queue_create (Some o) name start msg_num K_OBJ_DYN_ALLOC
    end)).

Definition krhino_queue_dyn_del (queue : option nat) : K kret :=
  NULL_PARA_CHK queue (fun o =>
  INTRPT_NESTED_LEVEL_CHK (
  OBJ_TYPE_CHK o RHINO_QUEUE_OBJ_TYPE (fun ob =>
  ALLOC_FLAG_CHK ob K_OBJ_DYN_ALLOC (
    queue_destroy o;; core_sched;; free_obj o;; ret RHINO_SUCCESS)))).

Definition msg_send (queue : option nat) (p_void : Z) (opt_wake_all : bool) : K kret :=
  NULL_PARA_CHK queue (fun o =>
  OBJ_TYPE_CHK o RHINO_QUEUE_OBJ_TYPE (fun ob =>
    '(r, size, cur, peak) ← lift (queue_body ob);
    if size <=? cur then ret RHINO_QUEUE_FULL else
    match blk_list ob with
    | [] =>
        (* queue is not full here, if there is no blocked receive task *)
        let cur := cur + 1 in
        x ← lift (ringbuf_push r (ptr_bytes p_void) sizeof_ptr);
        upd_obj o (set_body (KQueue x.2 size cur (if peak <? cur then cur else peak)));;
        ret RHINO_SUCCESS
    | t :: _ =>
        (* wake all the task blocked on this queue, or the first *)
        (if opt_wake_all then for_all_waiting o (task_msg_recv p_void) else task_msg_recv p_void t);;
        exit_sched (Ret RHINO_SUCCESS)
    end)).

Definition krhino_queue_back_send (queue : option nat) (msg : Z) : K kret := msg_send queue msg false.
Definition krhino_queue_all_send (queue : option nat) (msg : Z) : K kret := msg_send queue msg true.

(** the second component is what is stored in [*msg]; 0 is NULL *)
Definition krhino_queue_recv (queue : option nat) (ticks : Z) (msg : option nat) : K (kret * option Z) :=
  NULL_PARA_CHK queue (fun o =>
  NULL_PARA_CHK msg (fun _ =>
  nested ← gets g_intrpt_nested_level;
  if (0 <? nested) && negb (ticks =? RHINO_NO_WAIT) then ret RHINO_NOT_CALLED_BY_INTRPT else
  OBJ_TYPE_CHK o RHINO_QUEUE_OBJ_TYPE (fun ob =>
    '(r, size, cur, peak) ← lift (queue_body ob);
    (* if queue has msgs, just receive it *)
    if 0 <? cur then
      '(_, r', data, _) ← lift (ringbuf_pop r);
      d ← lift data;
      upd_obj o (set_body (KQueue r' size (cur - 1) peak));;
      mret (Ret RHINO_SUCCESS, Some (word_of d))
    else if ticks =? RHINO_NO_WAIT then mret (Ret RHINO_NO_PEND_WAIT, Some 0)
    else
      (* if system is locked, block operation is not allowed *)
      lock ← gets g_sched_lock;
      if 0 <? lock then mret (Ret RHINO_SCHED_DISABLE, Some 0) else
      a ← gets g_active_task;
      pend_to_blk_obj o a ticks;;
      core_sched;;
      mret (Blocked, None)))).

Definition krhino_queue_recv_resume : K (kret * option Z) :=
  a ← gets g_active_task;
  st ← pend_state_end_proc a;
  tk ← get_task a;
  mret (Ret st, Some (if bool_decide (st = RHINO_SUCCESS) then msg tk else 0)).

Definition krhino_queue_is_full (queue : option nat) : K kret :=
  NULL_PARA_CHK queue (fun o =>
  OBJ_TYPE_CHK o RHINO_QUEUE_OBJ_TYPE (fun ob =>
    '(_, size, cur, _) ← lift (queue_body ob);
    if size <=? cur then ret RHINO_QUEUE_FULL else ret RHINO_QUEUE_NOT_FULL)).

Definition krhino_queue_flush (queue : option nat) : K kret :=
  NULL_PARA_CHK queue (fun o =>
  INTRPT_NESTED_LEVEL_CHK (
  OBJ_TYPE_CHK o RHINO_QUEUE_OBJ_TYPE (fun ob =>
    '(r, size, cur, peak) ← lift (queue_body ob);
    upd_obj o (set_body (KQueue (ringbuf_reset r).2 size 0 peak));;
    ret RHINO_SUCCESS))).

(** [peak_num], [cur_num], [size] and the first waiting task *)
Definition krhino_queue_info_get (queue info : option nat) : K (kret * option (Z * Z * Z * option nat)) :=
  NULL_PARA_CHK queue (fun o =>
  NULL_PARA_CHK info (fun _ =>
  OBJ_TYPE_CHK o RHINO_QUEUE_OBJ_TYPE (fun ob =>
    '(_, size, cur, peak) ← lift (queue_body ob);
    mret (Ret RHINO_SUCCESS, Some (peak, cur, size, head (blk_list ob)))))).

(** ** What the calls do *)

(** the queue holds the messages [ms] and has room for [size] *)
Definition queue_holds (ob : kobj) (size : Z) (ms : list (list Z)) : Prop :=
  exists r cur peak, body ob = KQueue r size cur peak /\ queue_ring r size cur ms.

Lemma queue_body_ok o ob s :
  kpre s -> g_objs s !! o = Some ob -> obj_type ob = RHINO_QUEUE_OBJ_TYPE ->
  exists r size cur peak ms, queue_body ob = Some (r, size, cur, peak) /\ body ob = KQueue r size cur peak /\
    queue_ring r size cur ms /\ (ms <> [] -> blk_list ob = []).
Proof.
  intros Hk Ho Hty. pose proof (c_obj _ _ _ _ _ _ _ (kp_core _ (kp_mid _ Hk)) _ _ Ho) as Hok.
  unfold obj_ok in Hok. rewrite Hty in Hok. unfold queue_body.
  destruct (body ob) as [| |r size cur peak| |]; try done. destruct Hok as [[ms Hms] Hl].
  exists r, size, cur, peak, ms. split_and!; try done. intros Hne. apply Hl. destruct Hms as (_ & -> & _).
  destruct ms; [done|]. cbn. lia.
Qed.

Lemma queue_like ob r size cur peak r' cur' peak' ms' :
  obj_type ob = RHINO_QUEUE_OBJ_TYPE -> body ob = KQueue r size cur peak ->
  queue_ring r' size cur' ms' -> (ms' <> [] -> blk_list ob = []) ->
  obj_like ob (set_body (KQueue r' size cur' peak') ob).
Proof.
  intros Hty Hb Hr Hl. split; try done.
  - unfold owner_of, mutex_owner. cbn. by rewrite Hb.
  - unfold obj_ok. cbn. rewrite Hty. split; [by exists ms'|]. intros Hc. apply Hl.
    destruct Hr as (_ & -> & _). by destruct ms'.
Qed.

Definition queue_woken (p : Z) (tk : ktask) : ktask := woken BLK_FINISH (set_msg p tk).

Lemma task_msg_recv_wakes p : wakes (task_msg_recv p) (queue_woken p).
Proof.
  intros T objs rq th s t tk o ob Q Hk Ht Hw Ho Hnm HQ. unfold task_msg_recv. do 2 kstep.
  assert (Hl : task_like tk (set_msg p tk)) by done.
  rewrite pend_task_wakeup_end. eapply pend_task_end_wakes; [by eapply kmid_task_like|apply lookup_insert_eq| |exact Ho|exact Hnm|].
  - by rewrite (like_waits T t tk _ Ht Hl t).
  - intros rq'. rewrite insert_insert_eq. apply HQ.
Qed.

Lemma queue_ring_push r size cur ms d : queue_ring r size cur ms -> length d = sizeof_ptr -> cur < size ->
  exists r', ringbuf_push r d sizeof_ptr = Some (RHINO_SUCCESS, r') /\ queue_ring r' size (cur + 1) (ms ++ [d]).
Proof.
  intros (Hr & -> & Hs) Hd Hc. pose proof (ring_push _ _ _ d Hr Hd) as Hp. rewrite sum_list_with_const in Hp.
  rewrite (proj2 (Nat.leb_le _ _)) in Hp by (unfold sizeof_ptr; lia).
  destruct Hp as (r' & E & Hr'). rewrite Hd in E. exists r'. split; [done|]. split; [done|]. split; [|done].
  rewrite length_app. cbn. lia.
Qed.

Lemma queue_ring_pop r size cur m ms : queue_ring r size cur (m :: ms) ->
  exists r', ringbuf_pop r = Some (RHINO_SUCCESS, r', Some m, Some (length m)) /\ queue_ring r' size (cur - 1) ms.
Proof.
  intros (Hr & -> & Hs). destruct (ring_pop _ _ _ _ Hr) as (r' & E & Hr'). exists r'. split; [done|].
  split; [done|]. split; [|done]. cbn. lia.
Qed.

Lemma queue_ring_reset_ok r size cur ms : queue_ring r size cur ms -> queue_ring (ringbuf_reset r).2 size 0 [].
Proof. intros (Hr & _ & Hs). split; [by eapply ring_reset|done]. Qed.

Inductive send_spec (s : kstate) (o : nat) (ob : kobj) (p : Z) (wake_all : bool) : kret -> kstate -> Prop :=
  | send_type : obj_type ob <> RHINO_QUEUE_OBJ_TYPE -> send_spec s o ob p wake_all (Ret RHINO_KOBJ_TYPE_ERR) s
  | send_full size ms : queue_holds ob size ms -> size <= Z.of_nat (length ms) ->
      send_spec s o ob p wake_all (Ret RHINO_QUEUE_FULL) s
  | send_store size ms b : queue_holds ob size ms -> Z.of_nat (length ms) < size -> blk_list ob = [] ->
      queue_holds (set_body b ob) size (ms ++ [ptr_bytes p]) ->
      send_spec s o ob p wake_all (Ret RHINO_SUCCESS) (with_obj o (set_body b ob) s)
  | send_one t l s' : blk_list ob = t :: l -> wake_all = false ->
      g_tasks s' = alter (queue_woken p) t (g_tasks s) ->
      g_objs s' = <[o := set_blk_list l ob]> (g_objs s) -> send_spec s o ob p wake_all (Ret RHINO_SUCCESS) s'
  | send_all s' : blk_list ob <> [] -> wake_all = true ->
      g_tasks s' = wake_tasks (queue_woken p) (blk_list ob) (g_tasks s) ->
      g_objs s' = <[o := set_blk_list [] ob]> (g_objs s) -> send_spec s o ob p wake_all (Ret RHINO_SUCCESS) s'.

Lemma wp_msg_send s o ob p wake_all :
  wf s -> g_objs s !! o = Some ob ->
  wp (msg_send (Some o) p wake_all) (fun r s' => wf s' /\ send_spec s o ob p wake_all r s') s.
Proof.
  intros Hwf Ho. unfold msg_send, NULL_PARA_CHK.
  eapply wp_type_check; [exact Ho|intros H; split; [done|by apply send_type]|intros Hty].
  destruct (queue_body_ok _ _ _ (wf_pre _ Hwf) Ho Hty) as (r & size & cur & peak & ms & Hqb & Hb & Hr & Hl).
  rewrite Hqb. apply wp_bind, wp_ret. assert (Hh : queue_holds ob size ms) by (by exists r, cur, peak).
  assert (Hcur : cur = Z.of_nat (length ms)) by apply Hr. assert (Hsz : 0 < size) by apply Hr.
  destruct (Z.leb_spec size cur).
  { apply wp_ret. split; [done|]. eapply send_full; [exact Hh|lia]. }
  assert (Hnm : not_mutex ob) by (unfold not_mutex; by rewrite Hty).
  kstart Hwf. destruct (blk_list ob) as [|t l] eqn:Hbl.
  - destruct (queue_ring_push r size cur ms (ptr_bytes p) Hr eq_refl ltac:(lia)) as (r' & E & Hr').
    rewrite E. do 5 kstep. cbn [snd].
    assert (Hlike := queue_like ob r size cur peak r' (cur + 1) (if peak <? cur + 1 then cur + 1 else peak) _ Hty Hb Hr' ltac:(by rewrite Hbl)).
    split; [exact (wf_obj _ _ _ _ _ _ _ _ Hwf0 Ho Hlike)|].
    rewrite kput_eta in *. eapply send_store; [exact Hh|lia|exact Hbl|]. by eexists _, _, _.
  - assert (Hw : waits (g_tasks s) t = Some o).
    { apply (bk_in _ _ _ (c_blk _ _ _ _ _ _ _ (kp_core _ Hmid)) _ _ t Ho). rewrite Hbl. left. }
    destruct (waits_inv _ _ _ Hw) as (tk & Ht & _). kstep. destruct wake_all.
    + eapply wp_for_all_waiting; [apply task_msg_recv_wakes|exact Hmid|exact Ho|exact Hnm|]. intros rq' th' Hk'.
      eapply wp_exit_sched; [split; [exact Hk'|]|].
      * by apply none_insert; [apply Hpre|].
      * intros s' Hwf' (q & a' & ->). split; [exact Hwf'|]. eapply send_all; cbn; [by rewrite Hbl|done..].
    + eapply task_msg_recv_wakes; [exact Hmid|exact Ht|exact Hw|exact Ho|exact Hnm|]. intros rq' Hk'.
      eapply wp_exit_sched; [split; [exact Hk'|]|].
      * apply none_insert; [apply Hpre|]. cbn. by rewrite Hty.
      * intros s' Hwf' (q & a' & ->). split; [exact Hwf'|]. eapply send_one; cbn; [exact Hbl|done| |].
        -- symmetry. by apply alter_some.
        -- pose proof (bk_nodup _ _ _ (c_blk _ _ _ _ _ _ _ (kp_core _ Hmid)) _ _ Ho) as Hnd.
           cbn in Hnd. rewrite Hbl in Hnd. apply NoDup_cons in Hnd as [Hnt _].
           unfold unlinked. by rewrite Hbl, klist_del_head.
Qed.

Inductive recv_spec (s : kstate) (o : nat) (ob : kobj) (ticks : Z) : kret * option Z -> kstate -> Prop :=
  | recv_intrpt : 0 < g_intrpt_nested_level s -> ticks <> RHINO_NO_WAIT ->
      recv_spec s o ob ticks (Ret RHINO_NOT_CALLED_BY_INTRPT, None) s
  | recv_type : obj_type ob <> RHINO_QUEUE_OBJ_TYPE -> recv_spec s o ob ticks (Ret RHINO_KOBJ_TYPE_ERR, None) s
  | recv_now size m ms b : queue_holds ob size (m :: ms) -> queue_holds (set_body b ob) size ms ->
      recv_spec s o ob ticks (Ret RHINO_SUCCESS, Some (word_of m)) (with_obj o (set_body b ob) s)
  | recv_nowait size : queue_holds ob size [] -> ticks = RHINO_NO_WAIT ->
      recv_spec s o ob ticks (Ret RHINO_NO_PEND_WAIT, Some 0) s
  | recv_locked size : queue_holds ob size [] -> 0 < g_sched_lock s ->
      recv_spec s o ob ticks (Ret RHINO_SCHED_DISABLE, Some 0) s
  | recv_block size s' : queue_holds ob size [] -> blocks_on s o ob s' -> recv_spec s o ob ticks (Blocked, None) s'.

Lemma wp_krhino_queue_recv s o ob ticks msg :
  wf s -> g_active_task s <> g_idle_task -> g_objs s !! o = Some ob -> 0 <= ticks < 2 ^ 64 ->
  wp (krhino_queue_recv (Some o) ticks (Some msg)) (fun r s' => wf s' /\ recv_spec s o ob ticks r s') s.
Proof.
  intros Hwf Hidle Ho Ht. unfold krhino_queue_recv, NULL_PARA_CHK.
  apply wp_bind, wp_gets. destruct ((0 <? g_intrpt_nested_level s) && negb (ticks =? RHINO_NO_WAIT)) eqn:Hi.
  { apply andb_true_iff in Hi as [H1%Z.ltb_lt H2%negb_true_iff%Z.eqb_neq]. apply wp_ret. split; [done|by apply recv_intrpt]. }
  eapply wp_type_check; [exact Ho|intros H; split; [done|by apply recv_type]|intros Hty].
  destruct (queue_body_ok _ _ _ (wf_pre _ Hwf) Ho Hty) as (r & size & cur & peak & ms & Hqb & Hb & Hr & Hl).
  rewrite Hqb. apply wp_bind, wp_ret. assert (Hh : queue_holds ob size ms) by (by exists r, cur, peak).
  assert (Hcur : cur = Z.of_nat (length ms)) by apply Hr.
  destruct (so_nested _ _ _ _ (kp_sched _ (kp_mid _ (wf_pre _ Hwf)))) as [Hn0 _].
  destruct (so_lock _ _ _ _ (kp_sched _ (kp_mid _ (wf_pre _ Hwf)))) as [Hl0 _].
  destruct ms as [|m ms]; (destruct (Z.ltb_spec 0 cur) as [Hpos|Hzero]; [|]); cbn in Hcur; try lia.
  2: { destruct (queue_ring_pop _ _ _ _ _ Hr) as (r' & E & Hr'). rewrite E.
       kstart Hwf. repeat kstep.
       assert (Hlike := queue_like ob r size cur peak r' (cur - 1) peak ms Hty Hb Hr' ltac:(intros _; by apply Hl)).
       split; [exact (wf_obj _ _ _ _ _ _ _ _ Hwf0 Ho Hlike)|].
       rewrite kput_eta in *. eapply recv_now; [exact Hh|]. by eexists _, _, _. }
  destruct (Z.eqb_spec ticks RHINO_NO_WAIT) as [->|Hnz].
  { apply wp_ret. split; [done|by eapply recv_nowait]. }
  apply wp_bind, wp_gets. destruct (Z.ltb_spec 0 (g_sched_lock s)) as [Hlk|Hlk].
  { apply wp_ret. split; [done|by eapply recv_locked]. }
  apply andb_false_iff in Hi as [Hi|Hi]; [|done]. apply Z.ltb_ge in Hi.
  destruct (active_rdy _ Hwf) as (ak & Ha & Har); [lia|].
  kstart Hwf. do 3 kstep. eapply wp_block_sched; [exact Hpre|exact Ha|exact Har|done|lia|lia|done|exact Ho|..].
  - unfold not_mutex. by rewrite Hty.
  - intros l. unfold obj_ok. cbn. rewrite Hty, Hb. split; [by exists []|lia].
  - by rewrite Hty.
  - unfold RHINO_NO_WAIT in Hnz. lia.
  - exact (kp_mid _ (wf_pre _ Hwf)).
  - intros s' Hwf' Hbl _ _. apply wp_ret. split; [exact Hwf'|]. by eapply recv_block.
Qed.

(** ** Deleting, creating, flushing *)

Section destroy.
Context (s : kstate) (o : nat) (ob : kobj) (Hwf : wf s) (Ho : g_objs s !! o = Some ob).

Lemma wp_queue_destroy (R : unit -> kstate -> Prop) r size cur peak :
  obj_type ob = RHINO_QUEUE_OBJ_TYPE -> body ob = KQueue r size cur peak ->
  (forall s', kpre s' ->
     g_objs s' !! o = Some (set_body (KQueue (ringbuf_reset r).2 size cur peak) (deleted_obj ob)) -> R tt s') ->
  wp (queue_destroy o) R s.
Proof using Hwf Ho.
  intros Hty Hb HR. unfold queue_destroy. kstart Hwf. do 3 kstep.
  eapply wp_delete_waiting; [exact Hpre|exact Ho|by unfold not_mutex; rewrite Hty|].
  intros rq' th' ob' -> Hk'. do 2 kstep. unfold queue_ring_reset.
  apply wp_kput. cbn [g_tasks g_objs g_ready_queue g_tick_head set_g_kobj_list kput]. do 2 kstep.
  unfold queue_body. cbn [body set_blk_list set_obj_type]. rewrite Hb. do 3 kstep.
  assert (Hk2 := kpre_deleted_body _ _ _ _ _ _ _ (KQueue (ringbuf_reset r).2 size cur peak) Hk' (lookup_insert_eq _ _ _) eq_refl).
  rewrite insert_insert_eq in Hk2. apply HR; [exact (kpre_kobj_list _ _ Hk2)|apply lookup_insert_eq].
Qed.

Lemma krhino_queue_del_wf : keeps (krhino_queue_del (Some o)) s.
Proof using Hwf Ho.
  unfold krhino_queue_del, NULL_PARA_CHK, keeps.
  apply wp_keeps_checks; [done|intros _]. eapply wp_type_check; [exact Ho|done|intros Hty].
  destruct (queue_body_ok _ _ _ (wf_pre _ Hwf) Ho Hty) as (r & size & cur & peak & _ & _ & Hb & _).
  apply wp_flag_check; [done|intros _]. eapply wp_delete_static. intros R. by apply wp_queue_destroy.
Qed.

Lemma krhino_queue_dyn_del_wf : keeps (krhino_queue_dyn_del (Some o)) s.
Proof using Hwf Ho.
  unfold krhino_queue_dyn_del, NULL_PARA_CHK, keeps.
  apply wp_keeps_checks; [done|intros _]. eapply wp_type_check; [exact Ho|done|intros Hty].
  destruct (queue_body_ok _ _ _ (wf_pre _ Hwf) Ho Hty) as (r & size & cur & peak & _ & _ & Hb & _).
  apply wp_flag_check; [done|intros _]. eapply wp_delete_dyn; [|intros R; by apply wp_queue_destroy]. done.
Qed.

Lemma krhino_queue_flush_wf : keeps (krhino_queue_flush (Some o)) s.
Proof using Hwf Ho.
  unfold krhino_queue_flush, NULL_PARA_CHK, keeps.
  apply wp_keeps_checks; [done|intros _]. eapply wp_type_check; [exact Ho|done|intros Hty].
  destruct (queue_body_ok _ _ _ (wf_pre _ Hwf) Ho Hty) as (r & size & cur & peak & ms & Hqb & Hb & Hr & Hl).
  rewrite Hqb. apply wp_bind, wp_ret. kstart Hwf. do 3 kstep.
  eapply wf_obj; [exact Hwf0|exact Ho|]. apply (queue_like ob r size cur peak _ 0 peak [] Hty Hb); [|done].
  by eapply queue_ring_reset_ok.
Qed.
End destroy.

(** the memory of the ring must be as large as its messages *)
Lemma queue_create_keeps (Inv : kstate -> Prop) `{!Creates Inv} s queue name start num flag :
  Inv s -> (forall o, queue = Some o -> fresh_obj s o) ->
  (forall mem, start = Some mem -> num <= Z.of_nat (length mem) / Z.of_nat sizeof_ptr) -> 0 <= num ->
  creates Inv (queue_create queue name start num flag) s.
Proof.
  intros Hi Hf Hmem Hn. unfold queue_create, NULL_PARA_CHK. destruct queue as [o|]; [|by apply creates_err].
  destruct start as [mem|]; [|by apply creates_err]. destruct name; [|by apply creates_err].
  destruct (Z.eqb_spec num 0) as [->|Hne]; [by apply creates_err|].
  apply wp_bind, wp_modify, wp_bind, wp_modify, wp_ret. apply creates_new; [done|by apply Hf| |done|done].
  unfold obj_ok. cbn. split; [|lia]. exists []. split_and!; [|done|lia].
  specialize (Hmem _ eq_refl). unfold sizeof_ptr in *.
  assert (Hlen : length (take (Z.to_nat num * 4) mem) = (Z.to_nat num * 4)%nat).
  { rewrite length_take. pose proof (Z.mul_div_le (Z.of_nat (length mem)) (Z.of_nat 4)). lia. }
  rewrite <- Hlen at 1. apply fix_init; rewrite ?Hlen; [lia|lia|]. apply Nat.divide_factor_r.
Qed.

(** a pointer comes back from the ring as it was sent *)
Lemma word_of_ptr p : 0 <= p < 2 ^ 32 -> word_of (ptr_bytes p) = p.
Proof.
  intros Hp. unfold ptr_bytes, byte_of. change 0xff with (Z.ones 8).
  rewrite !Z.land_ones, !Z.shiftr_div_pow2 by lia. rewrite word_of_bytes by (apply Z.mod_pos_bound; lia).
  cbn [Z.of_nat Z.mul]. zlia.
Qed.
