(* ===== verification/BufQueue.v ===== *)
(** * Buffer queues ([core/k_buf_queue.c])

    A buffer queue copies messages into a ring, or straight into the buffer of
    a waiting task. *)

From S2P Require Import Prelude Config RingBuf State Sched Inv Tick Pend KInv.
Open Scope Z_scope.

(** ** The code *)

Definition buf_queue_body (ob : kobj) : option (k_ringbuf_t * Z * Z * Z * Z) :=
  match body ob with KBufQueue r mx cur peak mn => Some (r, mx, cur, peak, mn) | _ => None end.

(** [buf] is the memory of the ring *)
Definition buf_queue_create (queue name : option nat) (buf : option (list Z)) (size max_msg mm_alloc_flag : Z)
    (type : ringbuf_type) : K kret :=
  NULL_PARA_CHK queue (fun o =>
  NULL_PARA_CHK buf (fun mem =>
  NULL_PARA_CHK name (fun _ =>
  if max_msg =? 0 then ret RHINO_INV_PARAM else
  if size =? 0 then ret RHINO_BUF_QUEUE_SIZE_ZERO else
    let r := ringbuf_init (take (Z.to_nat size) mem) type (Z.to_nat max_msg) in
    new_obj o (mkObj [] BLK_POLICY_PRI RHINO_BUF_QUEUE_OBJ_TYPE mm_alloc_flag
      (KBufQueue r max_msg 0 0 (Z.of_nat (rb_freesize r))));;
    upd_kobj_list (fun l => set_buf_queue_head (buf_queue_head l ++ [o]) l);;
    ret RHINO_SUCCESS))).

Definition krhino_buf_queue_create (queue name : option nat) (buf : option (list Z)) (size max_msg : Z)
    : K kret :=
  buf_queue_create queue name buf size max_msg K_OBJ_STATIC_ALLOC RINGBUF_TYPE_DYN.

Definition krhino_fix_buf_queue_create (queue name : option nat) (buf : option (list Z))
    (msg_size msg_num : Z) : K kret :=
  buf_queue_create queue name buf (u32 (msg_size * msg_num)) msg_size K_OBJ_STATIC_ALLOC RINGBUF_TYPE_FIX.

Definition buf_queue_ring_reset (o : nat) : K unit :=
  ob ← get_obj o;
  '(r, mx, cur, peak, mn) ← lift (buf_queue_body ob);
  upd_obj o (set_body (KBufQueue (ringbuf_reset r).2 mx cur peak mn)).

Definition buf_queue_destroy (o : nat) : K unit :=
  upd_obj o (set_obj_type RHINO_OBJ_TYPE_NONE);;
  (* all task blocked on this queue is waken up *)
  for_all_waiting o pend_task_rm;;
  upd_kobj_list (fun l => set_buf_queue_head (klist_del o (buf_queue_head l)) l);;
  buf_queue_ring_reset o.

Definition krhino_buf_queue_del (queue : option nat) : K kret :=
  NULL_PARA_CHK queue (fun o =>
  INTRPT_NESTED_LEVEL_CHK (
  OBJ_TYPE_CHK o RHINO_BUF_QUEUE_OBJ_TYPE (fun ob =>
  ALLOC_FLAG_CHK ob K_OBJ_STATIC_ALLOC (
    buf_queue_destroy o;; exit_sched (Ret RHINO_SUCCESS))))).

Definition krhino_buf_queue_dyn_create (queue alloc name : option nat) (buf : option (list Z)) (size max_msg : Z)
    : K (kret * option nat) :=
  NULL_PARA_CHK queue (fun _ =>
  if size =? 0 then ret RHINO_BUF_QUEUE_SIZE_ZERO else
  dyn_create alloc (fun o =>
    match buf with
    | None => ret RHINO_NO_MEM
    | Some _ => buf_queue_create (Some o) name buf size max_msg K_OBJ_DYN_ALLOC RINGBUF_TYPE_DYN
    end)).

Definition krhino_buf_queue_dyn_del (queue : option nat) : K kret :=
  NULL_PARA_CHK queue (fun o =>
  INTRPT_NESTED_LEVEL_CHK (
  OBJ_TYPE_CHK o RHINO_BUF_QUEUE_OBJ_TYPE (fun ob =>
  ALLOC_FLAG_CHK ob K_OBJ_DYN_ALLOC (
    buf_queue_destroy o;; core_sched;; free_obj o;; ret RHINO_SUCCESS)))).

(** [msg] is the memory the caller passes, [msg_size] the size it states *)
Definition buf_queue_send (o : nat) (msg : list Z) (msg_size : Z) : K kret :=
  OBJ_TYPE_CHK o RHINO_BUF_QUEUE_OBJ_TYPE (fun ob =>
    '(r, mx, cur, peak, mn) ← lift (buf_queue_body ob);
    if mx <? msg_size then ret RHINO_BUF_QUEUE_MSG_SIZE_OVERFLOW else
    if msg_size =? 0 then ret RHINO_INV_PARAM else
    match blk_list ob with
    | [] =>
        (* buf queue is not full here, if there is no blocked receive task *)
        '(err, r') ← lift (ringbuf_push r msg (Z.to_nat msg_size));
        if bool_decide (err = RHINO_SUCCESS) then
          let cur := cur + 1 in
          let free := Z.of_nat (rb_freesize r') in
          upd_obj o (set_body (KBufQueue r' mx cur (if peak <? cur then cur else peak)
                                         (if free <? mn then free else mn)));;
          ret RHINO_SUCCESS
        else ret (if bool_decide (err = RHINO_RINGBUF_FULL) then RHINO_BUF_QUEUE_FULL else err)
    | t :: _ =>
        d ← lift (mem_read msg 0 (Z.to_nat msg_size));
        upd_task t (set_msg_buf d);;
        upd_task t (set_bq_msg_size msg_size);;
        pend_task_wakeup t;;
        exit_sched (Ret RHINO_SUCCESS)
    end).

Definition krhino_buf_queue_send (queue : option nat) (msg : option (list Z)) (size : Z) : K kret :=
  NULL_PARA_CHK queue (fun o => NULL_PARA_CHK msg (fun m => buf_queue_send o m size)).

(** the second component is the bytes stored in [msg] and the value stored in
    [*size] *)
Definition krhino_buf_queue_recv (queue : option nat) (ticks : Z) (msg size : option nat)
    : K (kret * option (list Z * Z)) :=
  NULL_PARA_CHK queue (fun o =>
  NULL_PARA_CHK msg (fun _ =>
  NULL_PARA_CHK size (fun _ =>
  nested ← gets g_intrpt_nested_level;
  if (0 <? nested) && negb (ticks =? RHINO_NO_WAIT) then ret RHINO_NOT_CALLED_BY_INTRPT else
  OBJ_TYPE_CHK o RHINO_BUF_QUEUE_OBJ_TYPE (fun ob =>
    '(r, mx, cur, peak, mn) ← lift (buf_queue_body ob);
    if negb (ringbuf_is_empty r) then
      '(_, r', data, len) ← lift (ringbuf_pop r);
      d ← lift data;
      n ← lift len;
      upd_obj o (set_body (KBufQueue r' mx (cur - 1) peak mn));;
      mret (Ret RHINO_SUCCESS, Some (d, Z.of_nat n))
    else if ticks =? RHINO_NO_WAIT then mret (Ret RHINO_NO_PEND_WAIT, Some ([], 0))
    else
      lock ← gets g_sched_lock;
      if 0 <? lock then mret (Ret RHINO_SCHED_DISABLE, Some ([], 0)) else
      a ← gets g_active_task;
      upd_task a (set_msg_buf []);;
      pend_to_blk_obj o a ticks;;
      core_sched;;
      mret (Blocked, None))))).

Definition krhino_buf_queue_recv_resume : K (kret * option (list Z * Z)) :=
  a ← gets g_active_task;
  st ← pend_state_end_proc a;
  tk ← get_task a;
  mret (Ret st, Some (msg_buf tk, if bool_decide (st = RHINO_SUCCESS) then bq_msg_size tk else 0)).

Definition krhino_buf_queue_flush (queue : option nat) : K kret :=
  NULL_PARA_CHK queue (fun o =>
  INTRPT_NESTED_LEVEL_CHK (
  OBJ_TYPE_CHK o RHINO_BUF_QUEUE_OBJ_TYPE (fun ob =>
    '(r, mx, cur, peak, mn) ← lift (buf_queue_body ob);
    let r := (ringbuf_reset r).2 in
    upd_obj o (set_body (KBufQueue r mx 0 0 (Z.of_nat (rb_freesize r))));;
    ret RHINO_SUCCESS))).

(** [free_buf_size], [min_free_buf_size], [buf_size], [max_msg_size],
    [cur_num] and [peak_num] *)
Definition krhino_buf_queue_info_get (queue info : option nat)
    : K (kret * option (Z * Z * Z * Z * Z * Z)) :=
  NULL_PARA_CHK queue (fun o =>
  NULL_PARA_CHK info (fun _ =>
  OBJ_TYPE_CHK o RHINO_BUF_QUEUE_OBJ_TYPE (fun ob =>
    '(r, mx, cur, peak, mn) ← lift (buf_queue_body ob);
    mret (Ret RHINO_SUCCESS,
          Some (Z.of_nat (rb_freesize r), mn, Z.of_nat (rb_end r), mx, cur, peak))))).

(** ** The ring of a buffer queue *)

(** the bytes a message takes in the ring *)
Definition buf_cost (r : k_ringbuf_t) (m : list Z) : nat :=
  match rb_type r with RINGBUF_TYPE_DYN => length (dyn_encode m) | RINGBUF_TYPE_FIX => rb_blk_size r end.

Definition buf_fits (r : k_ringbuf_t) (ms : list (list Z)) (d : list Z) : Prop :=
  (sum_list_with (buf_cost r) ms + buf_cost r d <= rb_end r)%nat.

(** what can be sent: a message of the size of the blocks, in mode FIX *)
Definition buf_msg (r : k_ringbuf_t) (mx : Z) (d : list Z) : Prop :=
  rb_type r = RINGBUF_TYPE_FIX -> Z.of_nat (length d) = mx.

Lemma sum_list_with_ext {A} (f g : A -> nat) l : (forall x, f x = g x) -> sum_list_with f l = sum_list_with g l.
Proof. intros H. induction l as [|x l IH]; [done|]. cbn. by rewrite H, IH. Qed.

(** a message longer than a header can say *)
Lemma dyn_push_big r d : rb_type r = RINGBUF_TYPE_DYN -> RINGBUF_LEN_3BYTES_MAXVALUE < Z.of_nat (length d) ->
  exists err, ringbuf_push r d (length d) = Some (err, r) /\ (err = RHINO_RINGBUF_FULL \/ err = RHINO_INV_PARAM).
Proof.
  intros Hty Hd. unfold ringbuf_push. rewrite Hty. destruct (ringbuf_is_full r); [by eexists; split; [|left]|].
  unfold ringbuf_headlen_compress, COMPRESS_LEN, RINGBUF_LEN_1BYTE_MAXVALUE, RINGBUF_LEN_2BYTES_MAXVALUE,
    RINGBUF_LEN_3BYTES_MAXVALUE in *.
  rewrite !(proj2 (Z.leb_gt _ _)) by lia. eexists. split; [reflexivity|by right].
Qed.

Inductive buf_push_spec (r : k_ringbuf_t) (mx cur : Z) (ms : list (list Z)) (d : list Z) : kstat_t -> k_ringbuf_t -> Prop :=
  | push_ok r' : buf_ring r' mx (cur + 1) (ms ++ [d]) -> buf_fits r ms d -> buf_push_spec r mx cur ms d RHINO_SUCCESS r'
  | push_full : ~ buf_fits r ms d -> buf_push_spec r mx cur ms d RHINO_RINGBUF_FULL r
  | push_big err : RINGBUF_LEN_3BYTES_MAXVALUE < Z.of_nat (length d) ->
      err = RHINO_RINGBUF_FULL \/ err = RHINO_INV_PARAM -> buf_push_spec r mx cur ms d err r.

Lemma buf_ring_push r mx cur ms d :
  buf_ring r mx cur ms -> (1 <= length d)%nat -> Z.of_nat (length d) <= mx -> buf_msg r mx d ->
  exists err r', ringbuf_push r d (length d) = Some (err, r') /\ buf_push_spec r mx cur ms d err r'.
Proof.
  intros (Hr & -> & Hms) Hd Hmx Hmsg.
  assert (Hnext : forall r', dyn_ring (rb_end r) r' (ms ++ [d]) \/ fix_ring (Z.to_nat mx) (rb_end r) r' (ms ++ [d]) ->
            buf_ring r' mx (Z.of_nat (length ms) + 1) (ms ++ [d])).
  { intros r' Hr'. split_and!.
    - destruct Hr' as [[Hr' E]|(Hr' & E1 & E2)]; [left|right]; by split_and?.
    - rewrite length_app. cbn. lia.
    - apply Forall_app. by repeat constructor. }
  destruct Hr as [Hr|Hr].
  - pose proof (proj1 (proj1 Hr)) as Hty.
    assert (Hcost : forall m, buf_cost r m = length (dyn_encode m)) by (intros m; unfold buf_cost; by rewrite Hty).
    destruct (Z.le_gt_cases (Z.of_nat (length d)) RINGBUF_LEN_3BYTES_MAXVALUE) as [Hle|Hbig].
    + pose proof (ring_push _ _ _ d Hr (conj Hd Hle)) as Hp. cbv beta in Hp. unfold buf_fits.
      destruct (Nat.leb_spec (sum_list_with (fun m => length (dyn_encode m)) ms + length (dyn_encode d)) (rb_end r)) as [Hf|Hf].
      * destruct Hp as (r' & E & Hr'). exists RHINO_SUCCESS, r'. split; [done|]. apply push_ok; [by apply Hnext; left|].
        unfold buf_fits. by rewrite (sum_list_with_ext _ _ ms Hcost), Hcost.
      * exists RHINO_RINGBUF_FULL, r. split; [done|]. apply push_full. unfold buf_fits.
        rewrite (sum_list_with_ext _ _ ms Hcost), Hcost. lia.
    + destruct (dyn_push_big r d Hty Hbig) as (err & E & Herr). exists err, r. split; [done|]. by apply push_big.
  - pose proof (proj1 (proj1 Hr)) as Hty. specialize (Hmsg Hty).
    assert (Hcost : forall m, buf_cost r m = Z.to_nat mx).
    { intros m. unfold buf_cost. rewrite Hty. apply Hr. }
    assert (Hlen : length d = Z.to_nat mx) by lia.
    pose proof (ring_push _ _ _ d Hr Hlen) as Hp. cbv beta in Hp. unfold buf_fits.
    destruct (Nat.leb_spec (sum_list_with (fun _ => Z.to_nat mx) ms + Z.to_nat mx) (rb_end r)) as [Hf|Hf].
    + destruct Hp as (r' & E & Hr'). exists RHINO_SUCCESS, r'. split; [done|]. apply push_ok; [by apply Hnext; right|].
      unfold buf_fits. by rewrite (sum_list_with_ext _ _ ms Hcost), Hcost.
    + exists RHINO_RINGBUF_FULL, r. split; [done|]. apply push_full. unfold buf_fits.
      rewrite (sum_list_with_ext _ _ ms Hcost), Hcost. lia.
Qed.

Lemma buf_ring_empty r mx cur ms : buf_ring r mx cur ms -> ringbuf_is_empty r = true <-> ms = [].
Proof. intros ([Hr|Hr] & _); exact (ring_empty _ _ _ Hr). Qed.

Lemma buf_ring_pop r mx cur m ms : buf_ring r mx cur (m :: ms) ->
  exists r', ringbuf_pop r = Some (RHINO_SUCCESS, r', Some m, Some (length m)) /\ buf_ring r' mx (cur - 1) ms.
Proof.
  intros (Hr & -> & Hms). apply Forall_cons in Hms as [_ Hms].
  destruct Hr as [Hr|Hr]; destruct (ring_pop _ _ _ _ Hr) as (r' & E & Hr'); exists r'; (split; [done|]);
    (split_and!; [|cbn; lia|done]); [left; destruct Hr' as [Hr' E']|right; destruct Hr' as (Hr' & E' & E2)]; by split_and?.
Qed.

Lemma buf_ring_reset_ok r mx cur ms : buf_ring r mx cur ms -> buf_ring (ringbuf_reset r).2 mx 0 [].
Proof.
  intros (Hr & _ & _). split_and!; [|done|done].
  destruct Hr as [Hr|Hr]; [left|right]; exact (ring_reset _ _ _ Hr).
Qed.

(** ** What the calls do *)

Definition buf_holds (ob : kobj) (mx : Z) (ms : list (list Z)) : Prop :=
  exists r cur peak mn, body ob = KBufQueue r mx cur peak mn /\ buf_ring r mx cur ms.

Lemma buf_body_ok o ob s :
  kpre s -> g_objs s !! o = Some ob -> obj_type ob = RHINO_BUF_QUEUE_OBJ_TYPE ->
  exists r mx cur peak mn ms, buf_queue_body ob = Some (r, mx, cur, peak, mn) /\ body ob = KBufQueue r mx cur peak mn /\
    buf_ring r mx cur ms /\ (ms <> [] -> blk_list ob = []).
Proof.
  intros Hk Ho Hty. pose proof (c_obj _ _ _ _ _ _ _ (kp_core _ (kp_mid _ Hk)) _ _ Ho) as Hok.
  unfold obj_ok in Hok. rewrite Hty in Hok. unfold buf_queue_body.
  destruct (body ob) as [| | |r mx cur peak mn|]; try done. destruct Hok as [[ms Hms] Hl].
  exists r, mx, cur, peak, mn, ms. split_and!; try done. intros Hne. apply Hl. destruct Hms as (_ & -> & _).
  destruct ms; [done|]. cbn. lia.
Qed.

Lemma buf_like ob r mx cur peak mn r' cur' peak' mn' ms' :
  obj_type ob = RHINO_BUF_QUEUE_OBJ_TYPE -> body ob = KBufQueue r mx cur peak mn ->
  buf_ring r' mx cur' ms' -> (ms' <> [] -> blk_list ob = []) ->
  obj_like ob (set_body (KBufQueue r' mx cur' peak' mn') ob).
Proof.
  intros Hty Hb Hr Hl. split; try done.
  - unfold owner_of, mutex_owner. cbn. by rewrite Hb.
  - unfold obj_ok. cbn. rewrite Hty. split; [by exists ms'|]. intros Hc. apply Hl.
    destruct Hr as (_ & -> & _). by destruct ms'.
Qed.

(** the message is in the buffer of the task *)
Definition buf_woken (d : list Z) (tk : ktask) : ktask :=
  woken BLK_FINISH (set_bq_msg_size (Z.of_nat (length d)) (set_msg_buf d tk)).

Inductive bsend_spec (s : kstate) (o : nat) (ob : kobj) (d : list Z) : kret -> kstate -> Prop :=
  | bsend_type : obj_type ob <> RHINO_BUF_QUEUE_OBJ_TYPE -> bsend_spec s o ob d (Ret RHINO_KOBJ_TYPE_ERR) s
  | bsend_ovf mx ms : buf_holds ob mx ms -> mx < Z.of_nat (length d) ->
      bsend_spec s o ob d (Ret RHINO_BUF_QUEUE_MSG_SIZE_OVERFLOW) s
  | bsend_nil : d = [] -> bsend_spec s o ob d (Ret RHINO_INV_PARAM) s
  | bsend_full r mx cur peak mn ms : body ob = KBufQueue r mx cur peak mn -> buf_ring r mx cur ms ->
      blk_list ob = [] -> ~ buf_fits r ms d -> bsend_spec s o ob d (Ret RHINO_BUF_QUEUE_FULL) s
  | bsend_big err : RINGBUF_LEN_3BYTES_MAXVALUE < Z.of_nat (length d) ->
      err = RHINO_BUF_QUEUE_FULL \/ err = RHINO_INV_PARAM -> bsend_spec s o ob d (Ret err) s
  | bsend_store mx ms b : buf_holds ob mx ms -> blk_list ob = [] -> buf_holds (set_body b ob) mx (ms ++ [d]) ->
      bsend_spec s o ob d (Ret RHINO_SUCCESS) (with_obj o (set_body b ob) s)
  | bsend_hand t l s' : blk_list ob = t :: l -> g_tasks s' = alter (buf_woken d) t (g_tasks s) ->
      g_objs s' = <[o := set_blk_list l ob]> (g_objs s) -> bsend_spec s o ob d (Ret RHINO_SUCCESS) s'.

(** the caller's buffer holds the bytes of the message and no more *)
Lemma wp_buf_queue_send s o ob d :
  wf s -> g_objs s !! o = Some ob ->
  (forall r mx cur peak mn, body ob = KBufQueue r mx cur peak mn -> buf_msg r mx d) ->
  wp (buf_queue_send o d (Z.of_nat (length d))) (fun r s' => wf s' /\ bsend_spec s o ob d r s') s.
Proof.
  intros Hwf Ho Hmsg. unfold buf_queue_send.
  eapply wp_type_check; [exact Ho|intros H; split; [done|by apply bsend_type]|intros Hty].
  destruct (buf_body_ok _ _ _ (wf_pre _ Hwf) Ho Hty) as (r & mx & cur & peak & mn & ms & Hqb & Hb & Hr & Hl).
  rewrite Hqb. apply wp_bind, wp_ret. assert (Hh : buf_holds ob mx ms) by (by exists r, cur, peak, mn).
  destruct (Z.ltb_spec mx (Z.of_nat (length d))) as [Hov|Hov].
  { apply wp_ret. split; [done|]. by eapply bsend_ovf. }
  destruct (Z.eqb_spec (Z.of_nat (length d)) 0) as [Hz|Hz].
  { apply wp_ret. split; [done|]. apply bsend_nil. by destruct d. }
  rewrite !Nat2Z.id. assert (Hnm : not_mutex ob) by (unfold not_mutex; by rewrite Hty).
  kstart Hwf. destruct (blk_list ob) as [|t l] eqn:Hbl.
  - destruct (buf_ring_push r mx cur ms d Hr ltac:(lia) Hov (Hmsg _ _ _ _ _ Hb)) as (err & r' & E & Hp).
    rewrite E. do 2 kstep. rewrite kput_eta in Hwf0. destruct Hp as [r' Hr' _|Hnf|err Hbig Herr].
    + rewrite bool_decide_eq_true_2 by done. do 3 kstep.
      assert (Hlike := fun pk mn' => buf_like ob r mx cur peak mn r' (cur + 1) pk mn' _ Hty Hb Hr' ltac:(by rewrite Hbl)).
      rewrite <- (kput_eta s) in Hwf0. split; [exact (wf_obj _ _ _ _ _ _ _ _ Hwf0 Ho (Hlike _ _))|].
      eapply bsend_store; [exact Hh|done|]. by eexists _, _, _, _.
    + rewrite bool_decide_eq_false_2, bool_decide_eq_true_2 by done. kstep. rewrite kput_eta. split; [done|]. by eapply bsend_full.
    + rewrite bool_decide_eq_false_2 by (destruct Herr; congruence). kstep. rewrite kput_eta. split; [done|].
      apply bsend_big; [done|]. case_bool_decide; [by left|]. destruct Herr as [? | ->]; [done|by right].
  - assert (Hw : waits (g_tasks s) t = Some o).
    { apply (bk_in _ _ _ (c_blk _ _ _ _ _ _ _ (kp_core _ Hmid)) _ _ t Ho). rewrite Hbl. left. }
    destruct (waits_inv _ _ _ Hw) as (tk & Ht & _). rewrite mem_read_spec, drop_0, take_ge by lia. do 7 kstep.
    set (tk1 := set_bq_msg_size _ _). assert (Hlike : task_like tk tk1) by done.
    rewrite pend_task_wakeup_end. eapply pend_task_end_wakes; [by eapply kmid_task_like|apply lookup_insert_eq| |exact Ho|exact Hnm|].
    { by rewrite (like_waits _ t tk _ Ht Hlike t). }
    intros rq'. rewrite insert_insert_eq. intros Hk'.
    eapply wp_exit_sched; [split; [exact Hk'|]|].
    + apply none_insert; [apply Hpre|]. cbn. by rewrite Hty.
    + intros s' Hwf' (q & a' & ->). split; [exact Hwf'|]. eapply bsend_hand; cbn; [done| |].
      * exact (eq_sym (alter_some (buf_woken d) _ _ _ Ht)).
      * pose proof (bk_nodup _ _ _ (c_blk _ _ _ _ _ _ _ (kp_core _ Hmid)) _ _ Ho) as Hnd.
        cbn in Hnd. rewrite Hbl in Hnd. apply NoDup_cons in Hnd as [Hnt _]. unfold unlinked. by rewrite Hbl, klist_del_head.
Qed.

Inductive brecv_spec (s : kstate) (o : nat) (ob : kobj) (ticks : Z) : kret * option (list Z * Z) -> kstate -> Prop :=
  | brecv_intrpt : 0 < g_intrpt_nested_level s -> ticks <> RHINO_NO_WAIT ->
      brecv_spec s o ob ticks (Ret RHINO_NOT_CALLED_BY_INTRPT, None) s
  | brecv_type : obj_type ob <> RHINO_BUF_QUEUE_OBJ_TYPE -> brecv_spec s o ob ticks (Ret RHINO_KOBJ_TYPE_ERR, None) s
  | brecv_now mx m ms b : buf_holds ob mx (m :: ms) -> buf_holds (set_body b ob) mx ms ->
      brecv_spec s o ob ticks (Ret RHINO_SUCCESS, Some (m, Z.of_nat (length m))) (with_obj o (set_body b ob) s)
  | brecv_nowait mx : buf_holds ob mx [] -> ticks = RHINO_NO_WAIT ->
      brecv_spec s o ob ticks (Ret RHINO_NO_PEND_WAIT, Some ([], 0)) s
  | brecv_locked mx : buf_holds ob mx [] -> 0 < g_sched_lock s ->
      brecv_spec s o ob ticks (Ret RHINO_SCHED_DISABLE, Some ([], 0)) s
  | brecv_block mx s' : buf_holds ob mx [] -> blocks_on s o ob s' -> brecv_spec s o ob ticks (Blocked, None) s'.

Lemma wp_krhino_buf_queue_recv s o ob ticks msg size :
  wf s -> g_active_task s <> g_idle_task -> g_objs s !! o = Some ob -> 0 <= ticks < 2 ^ 64 ->
  wp (krhino_buf_queue_recv (Some o) ticks (Some msg) (Some size)) (fun r s' => wf s' /\ brecv_spec s o ob ticks r s') s.
Proof.
  intros Hwf Hidle Ho Ht. unfold krhino_buf_queue_recv, NULL_PARA_CHK.
  apply wp_bind, wp_gets. destruct ((0 <? g_intrpt_nested_level s) && negb (ticks =? RHINO_NO_WAIT)) eqn:Hi.
  { apply andb_true_iff in Hi as [H1%Z.ltb_lt H2%negb_true_iff%Z.eqb_neq]. apply wp_ret. split; [done|by apply brecv_intrpt]. }
  eapply wp_type_check; [exact Ho|intros H; split; [done|by apply brecv_type]|intros Hty].
  destruct (buf_body_ok _ _ _ (wf_pre _ Hwf) Ho Hty) as (r & mx & cur & peak & mn & ms & Hqb & Hb & Hr & Hl).
  rewrite Hqb. apply wp_bind, wp_ret. assert (Hh : buf_holds ob mx ms) by (by exists r, cur, peak, mn).
  destruct (so_nested _ _ _ _ (kp_sched _ (kp_mid _ (wf_pre _ Hwf)))) as [Hn0 _].
  destruct (so_lock _ _ _ _ (kp_sched _ (kp_mid _ (wf_pre _ Hwf)))) as [Hl0 _].
  destruct ms as [|m ms].
  2: { destruct (ringbuf_is_empty r) eqn:He; [by apply (buf_ring_empty _ _ _ _ Hr) in He|]. cbn [negb].
       destruct (buf_ring_pop _ _ _ _ _ Hr) as (r' & E & Hr'). rewrite E.
       kstart Hwf. repeat kstep.
       assert (Hlike := buf_like ob r mx cur peak mn r' (cur - 1) peak mn ms Hty Hb Hr' ltac:(intros _; by apply Hl)).
       split; [exact (wf_obj _ _ _ _ _ _ _ _ Hwf0 Ho Hlike)|].
       rewrite kput_eta in *. eapply brecv_now; [exact Hh|]. by eexists _, _, _, _. }
  rewrite (proj2 (buf_ring_empty _ _ _ _ Hr) eq_refl). cbn [negb].
  destruct (Z.eqb_spec ticks RHINO_NO_WAIT) as [->|Hnz].
  { apply wp_ret. split; [done|by eapply brecv_nowait]. }
  apply wp_bind, wp_gets. destruct (Z.ltb_spec 0 (g_sched_lock s)) as [Hlk|Hlk].
  { apply wp_ret. split; [done|by eapply brecv_locked]. }
  apply andb_false_iff in Hi as [Hi|Hi]; [|done]. apply Z.ltb_ge in Hi.
  destruct (active_rdy _ Hwf) as (ak & Ha & Har); [lia|].
  kstart Hwf. do 5 kstep. assert (Hlike : task_like ak (set_msg_buf [] ak)) by done.
  eapply (wp_block_sched (<[g_active_task s := set_msg_buf [] ak]> (g_tasks s)));
    [by eapply kpre_task_like|apply lookup_insert_eq|exact Har|done|lia|lia| |exact Ho|..].
  - intros u Hu. by rewrite lookup_insert_ne.
  - unfold not_mutex. by rewrite Hty.
  - intros l. unfold obj_ok. cbn. rewrite Hty, Hb. split; [by exists []|]. destruct Hr as (_ & -> & _). cbn. lia.
  - by rewrite Hty.
  - unfold RHINO_NO_WAIT in Hnz. lia.
  - exact (kp_mid _ (wf_pre _ Hwf)).
  - intros s' Hwf' Hbl _ _. apply wp_ret. split; [exact Hwf'|]. by eapply brecv_block.
Qed.

(** ** Deleting, creating, flushing *)

Section destroy.
Context (s : kstate) (o : nat) (ob : kobj) (Hwf : wf s) (Ho : g_objs s !! o = Some ob).

Lemma wp_buf_queue_destroy (R : unit -> kstate -> Prop) r mx cur peak mn :
  obj_type ob = RHINO_BUF_QUEUE_OBJ_TYPE -> body ob = KBufQueue r mx cur peak mn ->
  (forall s', kpre s' ->
     g_objs s' !! o = Some (set_body (KBufQueue (ringbuf_reset r).2 mx cur peak mn) (deleted_obj ob)) -> R tt s') ->
  wp (buf_queue_destroy o) R s.
Proof using Hwf Ho.
  intros Hty Hb HR. unfold buf_queue_destroy. kstart Hwf. do 3 kstep.
  eapply wp_delete_waiting; [exact Hpre|exact Ho|by unfold not_mutex; rewrite Hty|].
  intros rq' th' ob' -> Hk'. do 2 kstep. unfold buf_queue_ring_reset.
  apply wp_kput. cbn [g_tasks g_objs g_ready_queue g_tick_head set_g_kobj_list kput]. do 2 kstep.
  unfold buf_queue_body. cbn [body set_blk_list set_obj_type]. rewrite Hb. do 3 kstep.
  assert (Hk2 := kpre_deleted_body _ _ _ _ _ _ _ (KBufQueue (ringbuf_reset r).2 mx cur peak mn) Hk' (lookup_insert_eq _ _ _) eq_refl).
  rewrite insert_insert_eq in Hk2. apply HR; [exact (kpre_kobj_list _ _ Hk2)|apply lookup_insert_eq].
Qed.

Lemma krhino_buf_queue_del_wf : keeps (krhino_buf_queue_del (Some o)) s.
Proof using Hwf Ho.
  unfold krhino_buf_queue_del, NULL_PARA_CHK, keeps.
  apply wp_keeps_checks; [done|intros _]. eapply wp_type_check; [exact Ho|done|intros Hty].
  destruct (buf_body_ok _ _ _ (wf_pre _ Hwf) Ho Hty) as (r & mx & cur & peak & mn & _ & _ & Hb & _).
  apply wp_flag_check; [done|intros _]. eapply wp_delete_static. intros R. by apply wp_buf_queue_destroy.
Qed.

Lemma krhino_buf_queue_dyn_del_wf : keeps (krhino_buf_queue_dyn_del (Some o)) s.
Proof using Hwf Ho.
  unfold krhino_buf_queue_dyn_del, NULL_PARA_CHK, keeps.
  apply wp_keeps_checks; [done|intros _]. eapply wp_type_check; [exact Ho|done|intros Hty].
  destruct (buf_body_ok _ _ _ (wf_pre _ Hwf) Ho Hty) as (r & mx & cur & peak & mn & _ & _ & Hb & _).
  apply wp_flag_check; [done|intros _]. eapply wp_delete_dyn; [|intros R; by apply wp_buf_queue_destroy]. done.
Qed.

Lemma krhino_buf_queue_flush_wf : keeps (krhino_buf_queue_flush (Some o)) s.
Proof using Hwf Ho.
  unfold krhino_buf_queue_flush, NULL_PARA_CHK, keeps.
  apply wp_keeps_checks; [done|intros _]. eapply wp_type_check; [exact Ho|done|intros Hty].
  destruct (buf_body_ok _ _ _ (wf_pre _ Hwf) Ho Hty) as (r & mx & cur & peak & mn & ms & Hqb & Hb & Hr & Hl).
  rewrite Hqb. apply wp_bind, wp_ret. kstart Hwf. do 3 kstep.
  eapply wf_obj; [exact Hwf0|exact Ho|]. apply (buf_like ob r mx cur peak mn _ 0 0 _ [] Hty Hb); [|done].
  by eapply buf_ring_reset_ok.
Qed.
End destroy.

Definition new_buf_queue (mem : list Z) (size mx flag : Z) (type : ringbuf_type) : kobj :=
  let r := ringbuf_init (take (Z.to_nat size) mem) type (Z.to_nat mx) in
  mkObj [] BLK_POLICY_PRI RHINO_BUF_QUEUE_OBJ_TYPE flag (KBufQueue r mx 0 0 (Z.of_nat (rb_freesize r))).

Lemma new_buf_queue_ok mem size mx flag type :
  0 < size <= Z.of_nat (length mem) -> 0 < mx -> (type = RINGBUF_TYPE_FIX -> (mx | size)) ->
  obj_ok (new_buf_queue mem size mx flag type).
Proof.
  intros Hs Hm Hty. unfold obj_ok. cbn. split; [|lia]. exists [].
  assert (Hlen : length (take (Z.to_nat size) mem) = Z.to_nat size) by (rewrite length_take; lia).
  split_and!; [|done|done]. destruct type.
  - right. apply (fix_init (take (Z.to_nat size) mem)); rewrite ?Hlen; [lia|lia|].
    destruct (Hty eq_refl) as [k ->]. exists (Z.to_nat k). nia.
  - left. apply (dyn_init (take (Z.to_nat size) mem)). rewrite Hlen. lia.
Qed.

Lemma buf_queue_create_keeps (Inv : kstate -> Prop) `{!Creates Inv} s queue name buf size mx flag type :
  Inv s -> (forall o, queue = Some o -> fresh_obj s o) ->
  (forall mem, buf = Some mem -> size <= Z.of_nat (length mem)) -> 0 <= size -> 0 <= mx ->
  (type = RINGBUF_TYPE_FIX -> (mx | size)) ->
  creates Inv (buf_queue_create queue name buf size mx flag type) s.
Proof.
  intros Hi Hf Hmem Hs Hm Hty. unfold buf_queue_create, NULL_PARA_CHK. destruct queue as [o|]; [|by apply creates_err].
  destruct buf as [mem|]; [|by apply creates_err]. destruct name; [|by apply creates_err].
  destruct (Z.eqb_spec mx 0) as [->|Hmne]; [by apply creates_err|]. destruct (Z.eqb_spec size 0) as [->|Hsne]; [by apply creates_err|].
  specialize (Hmem _ eq_refl). apply wp_bind, wp_modify, wp_bind, wp_modify, wp_ret.
  apply creates_new; [done|by apply Hf| |done|done]. apply new_buf_queue_ok; [lia|lia|done].
Qed.
