(* ===== verification/Task.v ===== *)
(** * Tasks ([core/k_task.c])

    Creation, deletion, sleeping, suspension, change of priority and time
    slices.  [task_pri_change] is in [PriChange]. *)

From S2P Require Import Prelude Config State Sched Inv Tick Pend PriChange KInv Sem.

(** ** The code *)

(** [task] is the control block, [stack_buf] and [entry] are only compared with
    NULL; the state of a new task is that of a block set to zero *)
Definition task_create (task name : option nat) (prio ticks : Z) (stack_buf : option nat)
    (stack_size : Z) (entry : option nat) (autorun mm_alloc_flag : Z) : K kret :=
  NULL_PARA_CHK task (fun t =>
  NULL_PARA_CHK name (fun _ =>
  NULL_PARA_CHK entry (fun _ =>
  NULL_PARA_CHK stack_buf (fun _ =>
  if stack_size =? 0 then ret RHINO_TASK_INV_STACK_SIZE else
  if RHINO_CONFIG_PRI_MAX <=? prio then ret RHINO_BEYOND_MAX_PRI else
  INTRPT_NESTED_LEVEL_CHK (
    spawned ← gets g_idle_task_spawned;
    (* idle task is only allowed to create once *)
    if (prio =? RHINO_IDLE_PRI) && (0 <? spawned) then ret RHINO_IDLE_TASK_EXIST else
    (if prio =? RHINO_IDLE_PRI then modify (set_g_idle_task_spawned 1) else mret tt);;
    let total := if 0 <? ticks then u32 ticks else RHINO_CONFIG_TIME_SLICE_DEFAULT in
    let tk := set_time_slice total (set_time_total total (set_sched_policy KSCHED_RR zero_task)) in
    let tk := if 0 <? autorun then set_task_state K_RDY tk
              else set_suspend_count 1 (set_task_state K_SUSPENDED tk) in
    let tk := set_mm_alloc_flag mm_alloc_flag (set_stack_size stack_size
                (set_b_prio prio (set_prio prio tk))) in
    modify (fun s => set_g_tasks (<[t := tk]> (g_tasks s)) s);;
    upd_kobj_list (fun l => set_task_head (task_head l ++ [t]) l);;
    if 0 <? autorun then
      ready_list_add_tail t;;
      (* if system is not start,not call core_sched *)
      st ← gets g_sys_stat;
      if bool_decide (st = RHINO_RUNNING) then exit_sched (Ret RHINO_SUCCESS)
      else ret RHINO_SUCCESS
    else ret RHINO_SUCCESS))))).

Definition krhino_task_create (task name : option nat) (prio ticks : Z) (stack_buf : option nat)
    (stack_size : Z) (entry : option nat) (autorun : Z) : K kret :=
  task_create task name prio ticks stack_buf stack_size entry autorun K_OBJ_STATIC_ALLOC.

(** the control block follows the stack in the block [alloc] *)
Definition task_dyn_create (task alloc name : option nat) (pri ticks stack : Z) (entry : option nat)
    (autorun : Z) : K (kret * option nat) :=
  NULL_PARA_CHK task (fun _ =>
    if stack =? 0 then ret RHINO_INV_PARAM else
    match alloc with
    | None => ret RHINO_NO_MEM
    | Some t =>
        r ← task_create (Some t) name pri ticks (Some t) stack entry autorun K_OBJ_DYN_ALLOC;
        match r with
        | Ret RHINO_SUCCESS | Ret RHINO_STOPPED => mret (r, Some t)
        | _ => mret (r, None)
        end
    end).

Definition krhino_task_dyn_create (task alloc name : option nat) (pri ticks stack : Z) (entry : option nat)
    (autorun : Z) : K (kret * option nat) :=
  task_dyn_create task alloc name pri ticks stack entry autorun.

Definition krhino_task_sleep (ticks : Z) : K kret :=
  if ticks =? 0 then ret RHINO_INV_PARAM else
  INTRPT_NESTED_LEVEL_CHK (
  (* system is locked so task can not be blocked just return immediately *)
  SCHED_LOCK_CHK (
    a ← gets g_active_task;
    upd_task a (set_task_state K_SLEEP);;
    tick_list_insert a ticks;;
    ready_list_rm a;;
    exit_sched Blocked)).

(** is task timeout normally after sleep *)
Definition krhino_task_sleep_resume : K kret :=
  a ← gets g_active_task; st ← pend_state_end_proc a; mret (Ret st).

Definition krhino_task_yield : K kret :=
  (* make current task to the end of ready list *)
  a ← gets g_active_task;
  ready_list_head_to_tail a;;
  exit_sched (Ret RHINO_SUCCESS).

Definition SUSPEND_COUNT_MAX : Z := 2 ^ 8 - 1.

Definition task_suspend (t : nat) : K kret :=
  a ← gets g_active_task;
  lock ← gets g_sched_lock;
  if bool_decide (t = a) && (0 <? lock) then ret RHINO_SCHED_DISABLE else
  tk ← get_task t;
  match task_state tk with
  | K_RDY =>
      upd_task t (set_suspend_count 1);;
      upd_task t (set_task_state K_SUSPENDED);;
      ready_list_rm t;;
      exit_sched (Ret RHINO_SUCCESS)
  | K_SLEEP =>
      upd_task t (set_suspend_count 1);;
      upd_task t (set_task_state K_SLEEP_SUSPENDED);;
      exit_sched (Ret RHINO_SUCCESS)
  | K_PEND =>
      upd_task t (set_suspend_count 1);;
      upd_task t (set_task_state K_PEND_SUSPENDED);;
      exit_sched (Ret RHINO_SUCCESS)
  | K_SUSPENDED | K_SLEEP_SUSPENDED | K_PEND_SUSPENDED =>
      if suspend_count tk =? SUSPEND_COUNT_MAX then ret RHINO_SUSPENDED_COUNT_OVF else
      upd_task t (set_suspend_count (suspend_count tk + 1));;
      exit_sched (Ret RHINO_SUCCESS)
  | K_SEED | K_DELETED => ret RHINO_INV_TASK_STATE
  end.

Definition krhino_task_suspend (task : option nat) : K kret :=
  NULL_PARA_CHK task (fun t =>
    tk ← get_task t;
    if prio tk =? RHINO_IDLE_PRI then ret RHINO_TASK_SUSPEND_NOT_ALLOWED
    else task_suspend t).

(** [task->suspend_count--; if (task->suspend_count == 0) ...] *)
Definition resume_step (t : nat) (k : K unit) : K kret :=
  upd_task t (fun tk => set_suspend_count (u8 (suspend_count tk - 1)) tk);;
  tk ← get_task t;
  (if suspend_count tk =? 0 then k else mret tt);;
  exit_sched (Ret RHINO_SUCCESS).

Definition task_resume (t : nat) : K kret :=
  tk ← get_task t;
  match task_state tk with
  | K_RDY | K_SLEEP | K_PEND => ret RHINO_TASK_NOT_SUSPENDED
  | K_SUSPENDED =>
      (* Make task ready *)
      resume_step t (upd_task t (set_task_state K_RDY);; ready_list_add t)
  | K_SLEEP_SUSPENDED => resume_step t (upd_task t (set_task_state K_SLEEP))
  | K_PEND_SUSPENDED => resume_step t (upd_task t (set_task_state K_PEND))
  | K_SEED | K_DELETED => ret RHINO_INV_TASK_STATE
  end.

Definition krhino_task_resume (task : option nat) : K kret :=
  NULL_PARA_CHK task task_resume.

(** the second component is what is stored in [*old_pri] *)
Definition krhino_task_pri_change (task : option nat) (pri : Z) (old_pri : option nat)
    : K (kret * option Z) :=
  NULL_PARA_CHK task (fun t =>
  NULL_PARA_CHK old_pri (fun _ =>
  tk ← get_task t;
  (* idle task is not allowed to change prio *)
  if RHINO_IDLE_PRI <=? prio tk then ret RHINO_PRI_CHG_NOT_ALLOWED else
  (* not allowed change to idle prio *)
  if RHINO_IDLE_PRI <=? pri then ret RHINO_PRI_CHG_NOT_ALLOWED else
  (* deleted task is not allowed to change prio *)
  if bool_decide (task_state tk = K_DELETED) then ret RHINO_INV_TASK_STATE else
  INTRPT_NESTED_LEVEL_CHK (
    (* limit the prio change by mutex at task prio change *)
    pri_limit ← mutex_pri_limit t pri;
    upd_task t (set_b_prio pri);;
    error ← task_pri_change t pri_limit;
    if bool_decide (error = RHINO_SUCCESS) then
      core_sched;; mret (Ret RHINO_SUCCESS, Some (prio tk))
    else mret (Ret error, Some (prio tk))))).

(** free all the mutex which task hold: [chain] is what is left of its
    [mutex_list] *)
Fixpoint mutex_free_loop (chain : list nat) : K unit :=
  match chain with
  | [] => mret tt
  | m :: next_mutex =>
      ob ← get_obj m;
      match body ob with
      | KMutex _ nested =>
          match blk_list ob with
          | next_task :: _ =>
              (* wakeup wait task *)
              pend_task_wakeup next_task;;
              (* change mutex get task *)
              upd_obj m (set_body (KMutex (Some next_task) nested));;
              upd_task next_task (fun nk => set_mutex_list (m :: mutex_list nk) nk)
          | [] =>
              (* no wait task *)
              upd_obj m (set_body (KMutex None nested))
          end
      | _ => undef
      end;;
      mutex_free_loop next_mutex
  end.

Definition task_mutex_free (t : nat) : K unit :=
  tk ← get_task t; mutex_free_loop (mutex_list tk).

(** the [switch (task->task_state)] of the two deletions *)
Definition task_unlink (t : nat) (invalid : K kret) (k : K kret) : K kret :=
  tk ← get_task t;
  match task_state tk with
  | K_RDY => ready_list_rm t;; upd_task t (set_task_state K_DELETED);; k
  | K_SUSPENDED => upd_task t (set_task_state K_DELETED);; k
  | K_SLEEP | K_SLEEP_SUSPENDED => tick_list_rm t;; upd_task t (set_task_state K_DELETED);; k
  | K_PEND | K_PEND_SUSPENDED =>
      tick_list_rm t;;
      klist_rm_task t;;
      upd_task t (set_task_state K_DELETED);;
      mutex_task_pri_reset t;;
      k
  | K_SEED | K_DELETED => invalid
  end.

Definition krhino_task_del (task : option nat) : K kret :=
  INTRPT_NESTED_LEVEL_CHK (
    a ← gets g_active_task;
    let t := default a task in
    tk ← get_task t;
    if prio tk =? RHINO_IDLE_PRI then ret RHINO_TASK_DEL_NOT_ALLOWED else
    if negb (mm_alloc_flag tk =? K_OBJ_STATIC_ALLOC) then ret RHINO_KOBJ_DEL_ERR else
    lock ← gets g_sched_lock;
    if bool_decide (t = a) && (0 <? lock) then ret RHINO_SCHED_DISABLE else
    (* free all the mutex which task hold *)
    task_mutex_free t;;
    task_unlink t (ret RHINO_INV_TASK_STATE) (
      upd_kobj_list (fun l => set_task_head (klist_del t (task_head l)) l);;
      exit_sched (Ret RHINO_SUCCESS))).

Definition krhino_task_dyn_del (task : option nat) : K kret :=
  INTRPT_NESTED_LEVEL_CHK (
    a ← gets g_active_task;
    let t := default a task in
    tk ← get_task t;
    if prio tk =? RHINO_IDLE_PRI then ret RHINO_TASK_DEL_NOT_ALLOWED else
    if negb (mm_alloc_flag tk =? K_OBJ_DYN_ALLOC) then ret RHINO_KOBJ_DEL_ERR else
    lock ← gets g_sched_lock;
    if bool_decide (t = a) && (0 <? lock) then ret RHINO_SCHED_DISABLE else
    if bool_decide (task_state tk = K_DELETED) then ret RHINO_INV_TASK_STATE else
    (* the block is freed by the task dyn_mem *)
    modify (set_g_sched_lock (u8 (lock + 1)));;
    modify (fun s => set_g_res_list (g_res_list s ++ [t]) s);;
    r ← krhino_sem_give (Some g_res_sem);
    modify (fun s => set_g_sched_lock (u8 (g_sched_lock s - 1)) s);;
    match r with
    | Ret RHINO_SUCCESS =>
        task_mutex_free t;;
        let finish :=
          upd_kobj_list (fun l => set_task_head (klist_del t (task_head l)) l);;
          exit_sched (Ret RHINO_SUCCESS) in
        task_unlink t finish finish
    | _ => k_err_proc RHINO_SYS_SP_ERR
    end).

(** what a task that returns from its entry function runs *)
Definition krhino_task_deathbed : K kret :=
  t ← krhino_cur_task_get;
  tk ← get_task t;
  if mm_alloc_flag tk =? K_OBJ_DYN_ALLOC then krhino_task_dyn_del None else krhino_task_del None.

Definition krhino_task_time_slice_set (task : option nat) (slice : Z) : K kret :=
  NULL_PARA_CHK task (fun t =>
  INTRPT_NESTED_LEVEL_CHK (
    let total := if 0 <? slice then slice else RHINO_CONFIG_TIME_SLICE_DEFAULT in
    upd_task t (set_time_total total);;
    upd_task t (set_time_slice total);;
    ret RHINO_SUCCESS)).

Definition krhino_sched_policy_set (task : option nat) (policy : Z) : K kret :=
  NULL_PARA_CHK task (fun t =>
  if negb (policy =? KSCHED_FIFO) && negb (policy =? KSCHED_RR) then ret RHINO_INV_SCHED_WAY else
  INTRPT_NESTED_LEVEL_CHK (
    upd_task t (set_sched_policy policy);; ret RHINO_SUCCESS)).

Definition krhino_sched_policy_get (task policy : option nat) : K (kret * option Z) :=
  NULL_PARA_CHK task (fun t =>
  NULL_PARA_CHK policy (fun _ =>
  INTRPT_NESTED_LEVEL_CHK (
    tk ← get_task t; mret (Ret RHINO_SUCCESS, Some (sched_policy tk))))).

(** ** Scheduling calls *)

Lemma kpre_lock s l : kpre s -> is_Some (ready (g_tasks s) (g_active_task s)) -> 0 <= l < 2 ^ 8 ->
  kpre (set_g_sched_lock l s).
Proof. intros [[Hc Hpi [Hi Hu Ha Hl Hnn Hr]] Hno] Hrd Hlk. split; [split|]; [done..| |done]. by split. Qed.

(** what the lock of the scheduler counts *)
Inductive disable_spec (s : kstate) : kret -> kstate -> Prop :=
  | dis_intrpt : 0 < g_intrpt_nested_level s -> disable_spec s (Ret RHINO_NOT_CALLED_BY_INTRPT) s
  | dis_ovf : SCHED_MAX_LOCK_COUNT <= g_sched_lock s -> disable_spec s (Ret RHINO_SCHED_LOCK_COUNT_OVF) s
  | dis_ok : g_sched_lock s < SCHED_MAX_LOCK_COUNT ->
      disable_spec s (Ret RHINO_SUCCESS) (set_g_sched_lock (g_sched_lock s + 1) s).

Lemma wp_krhino_sched_disable s : wf s -> wp krhino_sched_disable (fun r s' => wf s' /\ disable_spec s r s') s.
Proof.
  intros Hwf. apply wp_keeps_checks; [intros H; split; [done|by apply dis_intrpt]|intros Hn]. apply wp_bind, wp_gets.
  destruct (Z.leb_spec SCHED_MAX_LOCK_COUNT (g_sched_lock s)) as [H|Hlk]; [apply wp_ret; split; [done|by apply dis_ovf]|].
  pose proof (kp_sched _ (kp_mid _ (wf_pre _ Hwf))) as Hs. destruct (so_lock _ _ _ _ Hs), (so_nested _ _ _ _ Hs).
  apply wp_bind, wp_modify, wp_ret. pose proof Hlk as Hlk'. unfold SCHED_MAX_LOCK_COUNT in Hlk'.
  rewrite u8_small by lia. split; [|by apply dis_ok]. assert (Hr := wf_ready _ Hwf ltac:(lia)).
  split; cbn; [apply kpre_lock; [apply Hwf|done|lia]|done|intros; lia].
Qed.

Inductive enable_spec (s : kstate) : kret -> kstate -> Prop :=
  | en_intrpt : 0 < g_intrpt_nested_level s -> enable_spec s (Ret RHINO_NOT_CALLED_BY_INTRPT) s
  | en_zero : g_sched_lock s = 0 -> enable_spec s (Ret RHINO_SCHED_ALREADY_ENABLED) s
  | en_less : 1 < g_sched_lock s -> enable_spec s (Ret RHINO_SCHED_DISABLE) (set_g_sched_lock (g_sched_lock s - 1) s)
  | en_last p a : g_sched_lock s = 1 -> g_intrpt_nested_level s = 0 ->
      enable_spec s (Ret RHINO_SUCCESS) (set_g_active_task a (set_g_preferred_ready_task p (set_g_sched_lock 0 s))).

Lemma wp_krhino_sched_enable s : wf s -> wp krhino_sched_enable (fun r s' => wf s' /\ enable_spec s r s') s.
Proof.
  intros Hwf. apply wp_keeps_checks; [intros H; split; [done|by apply en_intrpt]|intros Hn]. apply wp_bind, wp_gets.
  destruct (Z.eqb_spec (g_sched_lock s) 0) as [|Hnz]; [apply wp_ret; split; [done|by apply en_zero]|].
  pose proof (kp_sched _ (kp_mid _ (wf_pre _ Hwf))) as Hs. destruct (so_lock _ _ _ _ Hs), (so_nested _ _ _ _ Hs).
  apply wp_bind, wp_modify. assert (Hr := wf_ready _ Hwf ltac:(lia)).
  assert (Hk : kpre (set_g_sched_lock (g_sched_lock s - 1) s)) by (apply kpre_lock; [apply Hwf|done|lia]).
  destruct (Z.ltb_spec 0 (g_sched_lock s - 1)).
  - apply wp_ret. split; [|apply en_less; lia]. split; cbn; [done|done|intros; lia].
  - assert (E : g_sched_lock s = 1) by lia. rewrite E in *. eapply wp_exit_sched; [exact Hk|]. intros s' Hwf' (p & a & ->).
    split; [done|apply en_last; lia].
Qed.

(** the head of a ring goes to its end *)
Definition turned (rq : runqueue_t) (p : Z) (t : nat) (l : list nat) (rq' : runqueue_t) : Prop :=
  ring rq p = t :: l /\ forall q, ring rq' q = if decide (q = p) then l ++ [t] else ring rq q.

Lemma rq_head_to_tail_ok R rq p t l : rq_ok R rq -> 0 <= p < RHINO_CONFIG_PRI_MAX -> ring rq p = t :: l ->
  exists rq', rq_head_to_tail rq p = Some rq' /\ rq_ok R rq' /\ turned rq p t l rq'.
Proof.
  intros H Hp E. unfold rq_head_to_tail, turned. rewrite E. eexists. split; [done|].
  pose proof (rq_nodup _ _ H p) as Hnd. rewrite E in Hnd. apply NoDup_cons in Hnd as [Ht Hl].
  split; [|split; [done|intros q; apply ring_insert]]. eapply rq_ok_change; try done.
  - by rewrite E.
  - by destruct l.
  - apply NoDup_app. split; [done|]. split; [|apply NoDup_singleton]. by intros u Hu ->%list_elem_of_singleton.
  - intros u. rewrite elem_of_app, list_elem_of_singleton, <- (rq_in _ _ H), E, elem_of_cons. tauto.
Qed.

Lemma kpre_rq T objs rq rq' th s : kpre (kput T objs rq th s) -> rq_ok (ready T) rq' -> kpre (kput T objs rq' th s).
Proof. intros [[[? ? ? ? ? ? ?] ? ?] ?] H. split; [split|]; [split|..]; done. Qed.

(** the active task goes behind the ready tasks of its priority, the first of
    which runs unless the scheduler is locked *)
Record yielded (s s' : kstate) : Prop := {
  yd_tasks : g_tasks s' = g_tasks s;
  yd_ring : exists (ak : ktask) t l, g_tasks s !! g_active_task s = Some ak /\
              turned (g_ready_queue s) (prio ak) t l (g_ready_queue s');
  yd_run : g_sched_lock s = 0 -> forall p t l, ring (g_ready_queue s) p = g_active_task s :: t :: l -> g_active_task s' = t
}.

Lemma wp_krhino_task_yield s : wf s -> g_intrpt_nested_level s = 0 ->
  wp krhino_task_yield (fun r s' => wf s' /\ r = Ret RHINO_SUCCESS /\ yielded s s') s.
Proof.
  intros Hwf Hn. unfold krhino_task_yield, keeps. destruct (active_rdy _ Hwf Hn) as (ak & Ha & Hr).
  kstart Hwf. do 3 kstep. unfold ready_list_head_to_tail, on_rq. do 4 kstep.
  pose proof (c_rq _ _ _ _ _ _ _ (kp_core _ Hmid)) as Hrq. cbn in Hrq.
  assert (Hrd : ready (g_tasks s) (g_active_task s) = Some (prio ak)).
  { unfold ready. rewrite (tview_lookup _ _ _ _ _ Ha). unfold ready_of. by rewrite Hr. }
  assert (Hin : g_active_task s ∈ ring (g_ready_queue s) (prio ak)) by (by apply (rq_in _ _ Hrq)).
  destruct (ring (g_ready_queue s) (prio ak)) as [|t l] eqn:E; [by apply elem_of_nil in Hin|].
  destruct (rq_head_to_tail_ok _ _ (prio ak) t l Hrq (rq_ok_prio _ _ _ _ Hrq Hrd) E) as (rq' & -> & Hrq' & Hturn).
  do 3 kstep. eapply wp_exit_sched; [by eapply kpre_rq|]. intros s' Hwf' (q & a & ->). split; [done|]. split; [done|].
  split; cbn; [done|by eauto 6|]. intros Hl p u l' Hp.
  assert (p = prio ak) as ->.
  { assert (Hap : g_active_task s ∈ ring (g_ready_queue s) p) by (rewrite Hp; left).
    apply (rq_in _ _ Hrq) in Hap. congruence. }
  pose proof (wf_top _ Hwf Hn Hl) as Ht. pose proof (wf_top _ Hwf' Hn Hl) as Ht'. cbn in Ht'. unfold top in *.
  pose proof (rq_highest_le _ _ Hrq _ _ Hrd). destruct (Z.eq_dec (highest_pri (g_ready_queue s)) (prio ak)) as [Eh|Hne].
  - assert (Eh' : highest_pri rq' = highest_pri (g_ready_queue s)).
    { pose proof (rq_highest_le _ _ Hrq' _ _ Hrd). destruct (rq_highest_in _ _ Hrq') as [Hm|Hm].
      - pose proof (rq_ok_prio _ _ _ _ Hrq Hrd). lia.
      - destruct (ring rq' (highest_pri rq')) as [|v ?] eqn:Ev; [done|].
        assert (Hv : v ∈ ring rq' (highest_pri rq')) by (rewrite Ev; left).
        apply (rq_in _ _ Hrq'), (rq_highest_le _ _ Hrq) in Hv. lia. }
    rewrite Eh', Eh, (proj2 Hturn), decide_True in Ht' by done. assert (l = u :: l') as -> by congruence. by injection Ht'.
  - destruct (ring (g_ready_queue s) (highest_pri (g_ready_queue s))) as [|v ?] eqn:Ev; [done|]. injection Ht as ->.
    assert (Hv : g_active_task s ∈ ring (g_ready_queue s) (highest_pri (g_ready_queue s))) by (rewrite Ev; left).
    apply (rq_in _ _ Hrq) in Hv. congruence.
Qed.

(** what the tick does to the first ready task of the priority of the active
    task: a round-robin task that has company uses up its slice, then goes to
    the end of the ring with a new one *)
Inductive slice_spec (s : kstate) (p : Z) : kstate -> Prop :=
  | slice_none : ring (g_ready_queue s) p = [] -> slice_spec s p s
  | slice_keep t l tk : ring (g_ready_queue s) p = t :: l -> g_tasks s !! t = Some tk ->
      sched_policy tk = KSCHED_FIFO \/ l = [] ->
      slice_spec s p (set_g_tasks (<[t := set_runtime (u32 (runtime tk + 1)) tk]> (g_tasks s)) s)
  | slice_use t l tk : ring (g_ready_queue s) p = t :: l -> g_tasks s !! t = Some tk ->
      sched_policy tk <> KSCHED_FIFO -> l <> [] -> 1 < time_slice tk ->
      slice_spec s p (set_g_tasks
        (<[t := set_time_slice (time_slice tk - 1) (set_runtime (u32 (runtime tk + 1)) tk)]> (g_tasks s)) s)
  | slice_turn t l tk rq' : g_tasks s !! t = Some tk ->
      sched_policy tk <> KSCHED_FIFO -> l <> [] -> time_slice tk <= 1 -> turned (g_ready_queue s) p t l rq' ->
      slice_spec s p (set_g_ready_queue rq' (set_g_tasks
        (<[t := set_time_slice (time_total tk) (set_runtime (u32 (runtime tk + 1)) tk)]> (g_tasks s)) s)).

(** in the tick interrupt *)
Lemma wp_time_slice_update s ak : wf s -> 0 < g_intrpt_nested_level s -> g_tasks s !! g_active_task s = Some ak ->
  wp time_slice_update (fun _ s' => wf s' /\ slice_spec s (prio ak) s') s.
Proof.
  intros Hwf Hn Ha. unfold time_slice_update.
  kstart Hwf. do 6 kstep. pose proof (c_rq _ _ _ _ _ _ _ (kp_core _ Hmid)) as Hrq. cbn in Hrq.
  destruct (ring (g_ready_queue s) (prio ak)) as [|t l] eqn:E.
  { kstep. split; [by apply wf_nested|]. rewrite kput_eta. by apply slice_none. }
  assert (Ht : ready (g_tasks s) t = Some (prio ak)) by (apply (rq_in _ _ Hrq); rewrite E; left).
  assert (exists tk, g_tasks s !! t = Some tk /\ prio tk = prio ak) as (tk & Htk & Hp).
  { unfold ready, tview in Ht. destruct (g_tasks s !! t) as [tk|]; [|done]. cbn in Ht. unfold ready_of in Ht.
    exists tk. split; [done|]. destruct (task_state tk); congruence. }
  set (tk1 := set_runtime (u32 (runtime tk + 1)) tk).
  assert (Hlike : forall n, kpre (kput (<[t := set_time_slice n tk1]> (g_tasks s)) (g_objs s) (g_ready_queue s) (g_tick_head s) s)).
  { intros n. by eapply kpre_task_like. }
  assert (Hk1 := Hlike (time_slice tk)). change (set_time_slice (time_slice tk) tk1) with tk1 in Hk1.
  do 4 kstep. change (sched_policy _) with (sched_policy tk).
  destruct (Z.eqb_spec (sched_policy tk) KSCHED_FIFO) as [Hpol|Hpol].
  { kstep. split; [by apply wf_nested|]. eapply slice_keep; eauto. }
  case_bool_decide as Hl; [kstep; split; [by apply wf_nested|]; eapply slice_keep; eauto|].
  do 4 kstep. change (time_slice (set_runtime _ tk)) with (time_slice tk).
  assert (Hrun : wp (ready_list_head_to_tail t;; upd_task t (fun tk => set_time_slice (time_total tk) tk))
      (fun _ s' => wf s' /\ (time_slice tk <= 1 -> slice_spec s (prio ak) s'))
      (kput (<[t := set_time_slice (if 0 <? time_slice tk then time_slice tk - 1 else time_slice tk) tk1]> (g_tasks s))
        (g_objs s) (g_ready_queue s) (g_tick_head s) s)).
  { kstep. unfold ready_list_head_to_tail, on_rq. do 4 kstep. cbn [prio set_time_slice tk1 set_runtime]. rewrite Hp.
    destruct (rq_head_to_tail_ok _ _ (prio ak) t l Hrq (rq_ok_prio _ _ _ _ Hrq Ht) E) as (rq' & -> & Hrq' & Hturn).
    do 4 kstep. split.
    - apply wf_nested; [|done]. eapply kpre_rq; [apply (Hlike (time_total tk))|].
      rewrite (like_ready _ _ tk) by done. exact Hrq'.
    - intros Hts. exact (slice_turn s (prio ak) t l tk rq' Htk Hpol Hl Hts Hturn). }
  destruct (Z.ltb_spec 0 (time_slice tk)) as [Hpos|Hz]; cbn [time_slice set_time_slice set_runtime];
    fold tk1 in Hrun |- *.
  - destruct (Z.ltb_spec 0 (time_slice tk - 1)).
    + kstep. split; [apply wf_nested; [apply Hlike|done]|]. eapply slice_use; eauto. lia.
    + eapply wp_mono; [|exact Hrun]. intros _ s' [? Hs]. split; [done|]. apply Hs. lia.
  - change (time_slice tk1) with (time_slice tk). rewrite (proj2 (Z.ltb_ge _ _)) by done.
    change (set_time_slice (time_slice tk) tk1) with tk1 in Hrun.
    eapply wp_mono; [|exact Hrun]. intros _ s' [? Hs]. split; [done|]. apply Hs. lia.
Qed.

(** ** Sleeping, suspending and resuming *)

(** the task is out of the run queue and in the tick list *)
Definition asleep (now ticks : Z) (tk : ktask) : ktask := ticked now ticks (set_task_state K_SLEEP tk).

Record sleeps (s : kstate) (ticks : Z) (s' : kstate) : Prop := {
  sl_tasks : exists ak, g_tasks s !! g_active_task s = Some ak /\
               g_tasks s' = <[g_active_task s := asleep (g_tick_count s) ticks ak]> (g_tasks s);
  sl_switch : g_active_task s' <> g_active_task s
}.

Inductive sleep_spec (s : kstate) (ticks : Z) : kret -> kstate -> Prop :=
  | sleep_zero : ticks = 0 -> sleep_spec s ticks (Ret RHINO_INV_PARAM) s
  | sleep_intrpt : 0 < g_intrpt_nested_level s -> sleep_spec s ticks (Ret RHINO_NOT_CALLED_BY_INTRPT) s
  | sleep_locked : 0 < g_sched_lock s -> sleep_spec s ticks (Ret RHINO_SCHED_DISABLE) s
  | sleep_block s' : sleeps s ticks s' -> sleep_spec s ticks Blocked s'.

Lemma asleep_step now ticks tk : task_ok tk -> task_state tk = K_RDY -> task_step tk (asleep now ticks tk).
Proof.
  intros [? ? ? ? ? ? ?] Hr. split; try done.
  - split; try done. intros _. by right.
  - unfold waits_of, is_pending. cbn. by rewrite Hr.
  - unfold is_live. cbn. by rewrite Hr.
Qed.

Lemma wp_krhino_task_sleep s ticks :
  wf s -> g_active_task s <> g_idle_task -> 0 <= ticks < 2 ^ 64 ->
  wp (krhino_task_sleep ticks) (fun r s' => wf s' /\ sleep_spec s ticks r s') s.
Proof.
  intros Hwf Hidle Ht. unfold krhino_task_sleep.
  destruct (Z.eqb_spec ticks 0) as [->|Hnz]; [apply wp_ret; split; [done|by apply sleep_zero]|].
  apply wp_keeps_checks; [intros H; split; [done|by apply sleep_intrpt]|intros Hn].
  apply wp_lock_check; [intros H; split; [done|by apply sleep_locked]|intros Hl].
  pose proof (wf_pre _ Hwf) as [[Hc Hpi Hs] Hno].
  destruct (so_nested _ _ _ _ Hs) as [Hn0 _]. destruct (so_lock _ _ _ _ Hs) as [Hl0 _].
  destruct (active_rdy _ Hwf) as (ak & Ha & Hr); [lia|].
  pose proof (c_task _ _ _ _ _ _ _ Hc _ _ Ha) as Hok.
  destruct (rdy_facts (g_tasks s) (g_active_task s) ak Ha Hr Hok) as (Hnt & Hnw & Hrd).
  destruct (sched_idle_ready _ _ _ _ Hs) as [_ [pi Hpidle]].
  kstart Hwf. do 5 kstep.
  set (ak1 := set_task_state K_SLEEP ak).
  assert (HM : forall A (f : ktask -> A) d, f ak1 = f ak -> tview f d (<[g_active_task s := ak1]> (g_tasks s)) ≐ tview f d (g_tasks s)).
  { intros A f d Hf. by eapply tview_same. }
  eapply (wp_tick_list_insert _ _ _ _ _ 1); [|apply lookup_insert_eq|done|lia|].
  { unfold ticking, matchV. rewrite !HM by done. apply Hc. }
  rewrite insert_insert_eq. kstep.
  eapply (wp_ready_list_rm _ _ _ _ _ (ready (g_tasks s))); [apply Hc|apply lookup_insert_eq|exact Hrd| |exact Hpidle|].
  { by apply not_eq_sym. }
  intros rq' Hrq'.
  assert (Hpos : tick_position (<[g_active_task s := ak1]> (g_tasks s)) (g_tick_count s) ticks (g_active_task s) (g_tick_head s) =
     insert_before (fun u => ticks <? u64 (matchV (g_tasks s) u - g_tick_count s)) (g_active_task s) (g_tick_head s)).
  { apply insert_before_ext. intros u _. unfold matchV. by rewrite (HM _ tick_match). }
  rewrite Hpos. eapply wp_exit_sched.
  - split; [|exact Hno]. eapply (kmid_task_step _ _ _ (asleep (g_tick_count s) ticks ak) Ha); [by apply asleep_step|exact Hmid|done|lia|exact Hrq'|].
    cbn [tick_head tick_match asleep ticked set_tick_head set_tick_remain set_tick_match].
    apply tick_add; [apply Hc| |lia|lia]. unfold ticking. by rewrite (tview_lookup _ _ _ _ _ Ha).
  - intros s' Hwf' (p & a' & ->). split; [exact Hwf'|]. apply sleep_block. split.
    + by exists ak.
    + intros E. cbn in E. subst a'. destruct (active_rdy _ Hwf') as (ak' & Ha' & Hr'); [cbn; lia|].
      cbn in Ha'. rewrite lookup_insert_eq in Ha'. by injection Ha' as <-.
Qed.

(** the state a suspended task is put in *)
Definition suspended_state (st : task_stat_t) : task_stat_t :=
  match st with
  | K_RDY => K_SUSPENDED
  | K_SLEEP => K_SLEEP_SUSPENDED
  | K_PEND => K_PEND_SUSPENDED
  | st => st
  end.

(** ... and the state it comes back to *)
Definition resumed_state (st : task_stat_t) : task_stat_t :=
  match st with
  | K_SUSPENDED => K_RDY
  | K_SLEEP_SUSPENDED => K_SLEEP
  | K_PEND_SUSPENDED => K_PEND
  | st => st
  end.

Definition suspended (n : Z) (tk : ktask) : ktask :=
  set_task_state (suspended_state (task_state tk)) (set_suspend_count n tk).
Definition resumed (tk : ktask) : ktask :=
  set_task_state (resumed_state (task_state tk)) (set_suspend_count 0 tk).

(** one suspension and its end *)
Lemma suspended_once tk : is_live tk = true -> is_suspended tk = false ->
  is_suspended (suspended 1 tk) = true /\ is_live (suspended 1 tk) = true /\ resumed (suspended 1 tk) = set_suspend_count 0 tk.
Proof.
  unfold is_live, is_suspended, resumed, suspended. destruct tk; cbn. by destruct task_state.
Qed.

Lemma suspended_step n tk : task_ok tk -> task_state tk <> K_DELETED -> 1 <= n <= 255 -> task_step tk (suspended n tk).
Proof.
  intros [? ? ? ? ? ? ?] Hd Hn. unfold is_pending, is_sleeping, is_suspended in *. split; try done.
  - split; try done; unfold is_pending, is_sleeping; cbn; destruct (task_state tk); naive_solver.
  - unfold waits_of, is_pending. cbn. by destruct (task_state tk).
  - unfold is_live. cbn. by destruct (task_state tk).
Qed.

Lemma resumed_step tk : task_ok tk -> task_step tk (resumed tk).
Proof.
  intros [? ? Hseed ? ? ? ?]. unfold is_pending, is_sleeping, is_suspended in *. split; try done.
  - split; try done; unfold is_pending, is_sleeping, is_suspended; cbn; destruct (task_state tk); naive_solver.
  - unfold waits_of, is_pending. cbn. by destruct (task_state tk).
  - unfold is_live. cbn. by destruct (task_state tk).
Qed.

(** an update of the task in the state where nothing else changes but the run
    queue *)
Lemma kpre_task_step T objs rq rq' th s t tk tk' :
  kpre (kput T objs rq th s) -> T !! t = Some tk -> task_step tk tk' -> t <> g_idle_task ->
  (t = g_active_task s -> 0 < g_sched_lock s -> task_state tk' = K_RDY) ->
  tick_head tk' = tick_head tk -> tick_match tk' = tick_match tk ->
  rq_ok (fupd (ready T) t (ready_of tk')) rq' -> kpre (kput (<[t := tk']> T) objs rq' th s).
Proof.
  intros [Hm Hn] Ht Hs Hti Hlk Hh Hma Hrq. split; [|exact Hn].
  eapply (kmid_task_step _ _ _ _ Ht Hs); [exact Hm|done|done|exact Hrq|]. eapply tick_ok_keep; [|done..].
  apply (c_tick _ _ _ _ _ _ _ (kp_core _ Hm)).
Qed.

Inductive suspend_spec (s : kstate) (t : nat) (tk : ktask) : kret -> kstate -> Prop :=
  | susp_idle : prio tk = RHINO_IDLE_PRI -> suspend_spec s t tk (Ret RHINO_TASK_SUSPEND_NOT_ALLOWED) s
  | susp_locked : t = g_active_task s -> 0 < g_sched_lock s -> suspend_spec s t tk (Ret RHINO_SCHED_DISABLE) s
  | susp_dead : task_state tk = K_DELETED -> suspend_spec s t tk (Ret RHINO_INV_TASK_STATE) s
  | susp_ovf : is_suspended tk = true -> suspend_count tk = SUSPEND_COUNT_MAX ->
      suspend_spec s t tk (Ret RHINO_SUSPENDED_COUNT_OVF) s
  | susp_ok n s' : task_state tk <> K_DELETED -> n = (if is_suspended tk then suspend_count tk + 1 else 1) ->
      g_tasks s' = <[t := suspended n tk]> (g_tasks s) -> suspend_spec s t tk (Ret RHINO_SUCCESS) s'.

Lemma wp_krhino_task_suspend s t tk :
  wf s -> g_tasks s !! t = Some tk ->
  wp (krhino_task_suspend (Some t)) (fun r s' => wf s' /\ suspend_spec s t tk r s') s.
Proof.
  intros Hwf Ht. unfold krhino_task_suspend, NULL_PARA_CHK. kstart Hwf. do 2 kstep. rewrite kput_eta in Hwf0.
  destruct (Z.eqb_spec (prio tk) RHINO_IDLE_PRI) as [|Hni]; [kstep; rewrite kput_eta; split; [done|by apply susp_idle]|].
  unfold task_suspend. do 4 kstep.
  assert (Hti := active_prio_idle _ _ _ Hmid Ht Hni).
  destruct (bool_decide (t = g_active_task s) && (0 <? g_sched_lock s)) eqn:Hlk.
  { apply andb_true_iff in Hlk as [?%bool_decide_eq_true ?%Z.ltb_lt]. kstep. rewrite kput_eta. split; [done|by apply susp_locked]. }
  assert (Hlk' : t = g_active_task s -> ~ 0 < g_sched_lock s).
  { intros -> H. rewrite bool_decide_eq_true_2 in Hlk by done. by apply Z.ltb_ge in Hlk; lia. }
  clear Hlk. do 2 kstep. pose proof (kmid_task _ _ _ Hmid Ht) as Hok. cbn in Hok.
  pose proof (c_rq _ _ _ _ _ _ _ (kp_core _ Hmid)) as Hrq. cbn in Hrq.
  assert (Hfin : forall n T' rq', n = (if is_suspended tk then suspend_count tk + 1 else 1) -> 1 <= n <= 255 ->
    task_state tk <> K_DELETED ->
    T' = <[t := suspended n tk]> (g_tasks s) -> rq_ok (fupd (ready (g_tasks s)) t None) rq' ->
    wp (exit_sched (Ret RHINO_SUCCESS)) (fun r s' => wf s' /\ suspend_spec s t tk r s')
      (kput T' (g_objs s) rq' (g_tick_head s) s)).
  { intros n T' rq' Hn Hnr Hd -> Hrq'. eapply wp_exit_sched.
    - eapply kpre_task_step; [exact Hpre|exact Ht|by apply suspended_step|done|by intros ? ?%Hlk'|done|done|].
      unfold ready_of, suspended. cbn. by destruct (task_state tk).
    - intros s' Hwf' (p & a & ->). split; [done|]. by eapply susp_ok. }
  assert (Hnone : task_state tk <> K_RDY -> rq_ok (fupd (ready (g_tasks s)) t None) (g_ready_queue s)).
  { intros Hst. rewrite fupd_id; [done|]. unfold ready. rewrite (tview_lookup _ _ _ _ _ Ht). unfold ready_of.
    by destruct (task_state tk). }
  assert (Hagain : is_suspended tk = true -> suspended_state (task_state tk) = task_state tk ->
    wp (if suspend_count tk =? SUSPEND_COUNT_MAX then ret RHINO_SUSPENDED_COUNT_OVF else
        upd_task t (set_suspend_count (suspend_count tk + 1));; exit_sched (Ret RHINO_SUCCESS))
      (fun r s' => wf s' /\ suspend_spec s t tk r s')
      (kput (g_tasks s) (g_objs s) (g_ready_queue s) (g_tick_head s) s)).
  { intros Hs Hst. pose proof (tk_susp _ Hok Hs) as Hn.
    destruct (Z.eqb_spec (suspend_count tk) SUSPEND_COUNT_MAX) as [|Hm].
    { kstep. rewrite kput_eta. split; [done|by apply susp_ovf]. }
    unfold SUSPEND_COUNT_MAX in Hm. do 2 kstep.
    assert (Hd : task_state tk <> K_DELETED /\ task_state tk <> K_RDY).
    { unfold is_suspended in Hs. by destruct (task_state tk). }
    eapply (Hfin (suspend_count tk + 1)); [by rewrite Hs|lia|apply Hd| |apply Hnone, Hd].
    f_equal. unfold suspended. rewrite Hst. by destruct tk. }
  unfold is_suspended, suspended in *. destruct (task_state tk) eqn:Hst.
  - by destruct (tk_seed _ Hok).
  - do 5 kstep. destruct (sched_idle_ready _ _ _ _ (kp_sched _ Hmid)) as [_ [pi Hpi]].
    assert (Hrd : ready (g_tasks s) t = Some (prio tk)).
    { unfold ready. rewrite (tview_lookup _ _ _ _ _ Ht). unfold ready_of. by rewrite Hst. }
    eapply (wp_ready_list_rm _ _ _ _ _ (ready (g_tasks s))); [exact Hrq|apply lookup_insert_eq|exact Hrd| |exact Hpi|].
    { by apply not_eq_sym. }
    intros rq' Hrq'. by eapply Hfin.
  - do 4 kstep. eapply Hfin; try done. by apply Hnone.
  - by apply Hagain.
  - by apply Hagain.
  - do 4 kstep. eapply Hfin; try done. by apply Hnone.
  - by apply Hagain.
  - kstep. rewrite kput_eta. split; [done|by apply susp_dead].
Qed.

Inductive resume_spec (s : kstate) (t : nat) (tk : ktask) : kret -> kstate -> Prop :=
  | res_not : is_suspended tk = false -> is_live tk = true -> resume_spec s t tk (Ret RHINO_TASK_NOT_SUSPENDED) s
  | res_dead : task_state tk = K_DELETED -> resume_spec s t tk (Ret RHINO_INV_TASK_STATE) s
  | res_more s' : is_suspended tk = true -> 1 < suspend_count tk ->
      g_tasks s' = <[t := set_suspend_count (suspend_count tk - 1) tk]> (g_tasks s) ->
      resume_spec s t tk (Ret RHINO_SUCCESS) s'
  | res_ok s' : is_suspended tk = true -> suspend_count tk = 1 -> g_tasks s' = <[t := resumed tk]> (g_tasks s) ->
      resume_spec s t tk (Ret RHINO_SUCCESS) s'.

Lemma wp_krhino_task_resume s t tk :
  wf s -> g_tasks s !! t = Some tk ->
  wp (krhino_task_resume (Some t)) (fun r s' => wf s' /\ resume_spec s t tk r s') s.
Proof.
  intros Hwf Ht. unfold krhino_task_resume, NULL_PARA_CHK, task_resume. kstart Hwf. do 2 kstep. rewrite kput_eta in Hwf0.
  pose proof (kmid_task _ _ _ Hmid Ht) as Hok. cbn in Hok.
  pose proof (c_rq _ _ _ _ _ _ _ (kp_core _ Hmid)) as Hrq. cbn in Hrq.
  assert (Hstep : forall k, is_suspended tk = true -> suspended_state (task_state tk) = task_state tk ->
    (forall Q, (forall rq', rq_ok (fupd (ready (g_tasks s)) t (ready_of (resumed tk))) rq' ->
         Q tt (kput (<[t := resumed tk]> (g_tasks s)) (g_objs s) rq' (g_tick_head s) s)) ->
       wp k Q (kput (<[t := set_suspend_count 0 tk]> (g_tasks s)) (g_objs s) (g_ready_queue s) (g_tick_head s) s)) ->
    wp (resume_step t k) (fun r s' => wf s' /\ resume_spec s t tk r s')
      (kput (g_tasks s) (g_objs s) (g_ready_queue s) (g_tick_head s) s)).
  { intros k Hs Hst Hk. pose proof (tk_susp _ Hok Hs) as Hn. unfold resume_step. do 4 kstep.
    assert (Hti : t <> g_idle_task).
    { intros ->. destruct (so_idle _ _ _ _ (kp_sched _ Hmid)) as (ik & Hik & Hi & _). cbn in Hik. simplify_eq.
      unfold is_suspended in Hs. by rewrite Hi in Hs. }
    assert (Hlk : t = g_active_task s -> 0 < g_sched_lock s -> False).
    { intros -> Hlk. destruct (so_locked _ _ _ _ (kp_sched _ Hmid) Hlk) as [q Hq]. cbn in Hq. unfold ready in Hq.
      rewrite (tview_lookup _ _ _ _ _ Ht) in Hq. unfold ready_of, is_suspended in *. by destruct (task_state tk). }
    change (suspend_count (set_suspend_count _ tk)) with (u8 (suspend_count tk - 1)).
    rewrite u8_small by lia. kstep. destruct (Z.eqb_spec (suspend_count tk - 1) 0) as [Hz|Hz].
    - rewrite Hz. apply Hk. intros rq' Hrq'. eapply wp_exit_sched.
      + eapply kpre_task_step; [exact Hpre|exact Ht|by apply resumed_step|done|by intros ??%Hlk|done|done|exact Hrq'].
      + intros s' Hwf' (p & a & ->). split; [done|]. eapply res_ok; [done|lia|done].
    - kstep. eapply wp_exit_sched.
      + eapply kpre_task_step; [exact Hpre|exact Ht| |done|by intros ??%Hlk|done|done|].
        * destruct Hok. split; try done. split; try done. intros _. cbn. lia.
        * rewrite fupd_id; [done|]. unfold ready. rewrite (tview_lookup _ _ _ _ _ Ht). done.
      + intros s' Hwf' (p & a & ->). split; [done|]. eapply res_more; [done|lia|done]. }
  unfold is_suspended, resumed in *.
  assert (Hnr : task_state tk <> K_RDY -> ready (g_tasks s) t = None).
  { intros Hst. unfold ready. rewrite (tview_lookup _ _ _ _ _ Ht). unfold ready_of. by destruct (task_state tk). }
  destruct (task_state tk) eqn:Hst.
  - by destruct (tk_seed _ Hok).
  - kstep. rewrite kput_eta. split; [done|]. apply res_not; [unfold is_suspended|unfold is_live]; by rewrite Hst.
  - kstep. rewrite kput_eta. split; [done|]. apply res_not; [unfold is_suspended|unfold is_live]; by rewrite Hst.
  - apply Hstep; [done..|]. intros Q HQ. do 2 kstep.
    eapply (wp_ready_list_add _ _ _ _ _ (ready (g_tasks s))); [exact Hrq|apply lookup_insert_eq| |by apply Hnr|apply Hok|exact HQ].
    apply lookup_insert_is_Some'. right. apply (so_active _ _ _ _ (kp_sched _ Hmid)).
  - apply Hstep; [done..|]. intros Q HQ. kstep. apply HQ. rewrite fupd_id; [done|]. by apply Hnr.
  - kstep. rewrite kput_eta. split; [done|]. apply res_not; [unfold is_suspended|unfold is_live]; by rewrite Hst.
  - apply Hstep; [done..|]. intros Q HQ. kstep. apply HQ. rewrite fupd_id; [done|]. by apply Hnr.
  - kstep. rewrite kput_eta. split; [done|by apply res_dead].
Qed.

(** ** Changing a priority *)

Lemma wp_mutex_pri_limit T objs rq th s x lo t tk pri (Q : Z -> kstate -> Prop) :
  core x T objs rq th lo (g_tick_count s) -> T !! t = Some tk -> is_live tk = true ->
  (forall q, is_inh (waits T) (prioV T) q pri (held T t) -> Q q (kput T objs rq th s)) ->
  wp (mutex_pri_limit t pri) Q (kput T objs rq th s).
Proof.
  intros Hc Ht Hl HQ. unfold mutex_pri_limit. do 6 kstep. rewrite pri_limit_look.
  assert (Hh : held T t = mutex_list tk).
  { unfold held. rewrite (tview_lookup _ _ _ _ _ Ht). unfold held_of. by rewrite Hl. }
  destruct (pri_look_loop_spec T objs (c_blk _ _ _ _ _ _ _ Hc) None (mutex_list tk) pri pri) as (q & -> & Hq); [lia| |].
  - intros m Hm _. destruct (held_mutex _ _ _ _ _ _ _ t m Hc) as (_ & ob & Ho & _ & _ & Hp); [by rewrite Hh|]. by exists ob.
  - cbn [fmap option_fmap option_map snd]. kstep. rewrite kept_None, <- Hh in Hq. by apply HQ.
Qed.

Section pri_change.
Context (T : gmap nat ktask) (objs : gmap nat kobj) (rq : runqueue_t) (th : list nat) (s : kstate).
Context (t : nat) (tk : ktask) (pri q : Z).
Context (Hk : kpre (kput T objs rq th s)) (Ht : T !! t = Some tk) (Hl : is_live tk = true).
Context (Hti : t <> g_idle_task) (Hp : 0 <= pri < RHINO_IDLE_PRI).
Context (Hq : is_inh (waits T) (prioV T) q pri (held T t)).
Abbreviation T1 := (<[t := set_b_prio pri tk]> T).

Lemma rebase_view {A} (f : ktask -> A) d : f (set_b_prio pri tk) = f tk -> tview f d T1 ≐ tview f d T.
Proof using Ht. by apply tview_same. Qed.

Lemma rebase_core : core None T1 objs rq th 1 (g_tick_count s).
Proof using Hk Ht Hp.
  pose proof (kp_core _ (kp_mid _ Hk)) as [Hrq Htask Hobj Hblk Htick Hmx Hmw]; cbn in *. split.
  - unfold ready. by rewrite rebase_view.
  - apply map_Forall_insert_2; [|done]. destruct (Htask _ _ Ht). split; try done.
    cbn. clear -Hp. unfold RHINO_IDLE_PRI, RHINO_CONFIG_PRI_MAX in *. lia.
  - done.
  - unfold waits, prioV. by rewrite !rebase_view.
  - unfold ticking, matchV. by rewrite !rebase_view.
  - unfold held. by rewrite rebase_view.
  - unfold waits. by rewrite rebase_view.
Qed.

Lemma rebase_sched : sched_ok T1 (g_active_task s) (g_sched_lock s) (g_intrpt_nested_level s).
Proof using Hk Ht Hti Hp.
  pose proof (kp_sched _ (kp_mid _ Hk)) as [Hi Hu Ha Hlk Hn Hr]; cbn in *. split; try done.
  - by rewrite lookup_insert_ne.
  - intros u uk [[<- <-]|[_ Huk]]%lookup_insert_Some Hne; [apply Hp|by eapply Hu].
  - apply lookup_insert_is_Some'. by right.
  - intros H. unfold ready. rewrite rebase_view by done. by apply Hr.
Qed.

Lemma rebase_pre : change_pre None g_idle_task (waits T1) T1 t q.
Proof using Hk Ht Hl Hti Hp Hq.
  pose proof (kp_mid _ Hk) as [Hc Hpi Hs]; cbn in *. destruct (sched_idle_ready _ _ _ _ rebase_sched) as [Hih Hir].
  assert (HB : bprioV T1 ≐ fupd (bprioV T) t pri) by apply tview_insert.
  split; try done; [|by intros; left|by left|..].
  - rewrite HB. unfold prioV, live, held, waits. rewrite !rebase_view by done. intros u Hu. unfold fupd.
    case_decide as Hd; [by subst|]. by apply Hpi.
  - unfold live. by rewrite (tview_lookup _ _ _ _ _ (lookup_insert_eq _ _ _)).
  - eapply (is_inh_range T); [apply Hc| |exact Hq]. clear -Hp. unfold RHINO_IDLE_PRI, RHINO_CONFIG_PRI_MAX in *. lia.
Qed.

Lemma wp_rebase (Q : kstat_t -> kstate -> Prop) :
  (forall T' objs' rq', kpre (kput T' objs' rq' th s) -> prio_change T1 T' -> Q RHINO_SUCCESS (kput T' objs' rq' th s)) ->
  wp (task_pri_change t q) Q (kput T1 objs rq th s).
Proof using Hk Ht Hl Hti Hp Hq.
  intros HQ. pose proof Hk as [[Hc _ _] Hn]. 
  eapply wp_task_pri_change; [apply rebase_core|apply rebase_pre|by left|].
  intros T' objs' rq' Hc' HT Hobjs Hpi'. apply HQ; [|done].
  assert (HW : waits T' ≐ waits T1) by (by apply prio_change_view).
  split; [split|]; cbn.
  - done.
  - unfold pi_all. by rewrite HW.
  - eapply sched_prio; [apply rebase_sched|done].
  - eapply none_members; [exact Hn|exact Hobjs|apply Hc|apply Hc'|]. intros u o. rewrite (HW u). unfold waits.
    by rewrite rebase_view.
Qed.
End pri_change.

Inductive pri_change_spec (s : kstate) (t : nat) (tk : ktask) (pri : Z) : kret * option Z -> kstate -> Prop :=
  | pc_idle : RHINO_IDLE_PRI <= prio tk \/ RHINO_IDLE_PRI <= pri ->
      pri_change_spec s t tk pri (Ret RHINO_PRI_CHG_NOT_ALLOWED, None) s
  | pc_dead : task_state tk = K_DELETED -> pri_change_spec s t tk pri (Ret RHINO_INV_TASK_STATE, None) s
  | pc_intrpt : 0 < g_intrpt_nested_level s -> pri_change_spec s t tk pri (Ret RHINO_NOT_CALLED_BY_INTRPT, None) s
  | pc_ok s' : prio_change (<[t := set_b_prio pri tk]> (g_tasks s)) (g_tasks s') ->
      pri_change_spec s t tk pri (Ret RHINO_SUCCESS, Some (prio tk)) s'.

Lemma wp_krhino_task_pri_change s t tk pri old :
  wf s -> g_tasks s !! t = Some tk -> 0 <= pri ->
  wp (krhino_task_pri_change (Some t) pri (Some old)) (fun r s' => wf s' /\ pri_change_spec s t tk pri r s') s.
Proof.
  intros Hwf Ht Hp. unfold krhino_task_pri_change, NULL_PARA_CHK. kstart Hwf. do 2 kstep.
  destruct (Z.leb_spec RHINO_IDLE_PRI (prio tk)) as [|Hi]; [kstep; rewrite kput_eta; split; [done|apply pc_idle; by left]|].
  destruct (Z.leb_spec RHINO_IDLE_PRI pri) as [|Hpi]; [kstep; rewrite kput_eta; split; [done|apply pc_idle; by right]|].
  case_bool_decide as Hd; [kstep; rewrite kput_eta; split; [done|by apply pc_dead]|].
  apply wp_keeps_checks; [intros; rewrite kput_eta; split; [done|by apply pc_intrpt]|intros _].
  assert (Hti := active_prio_idle _ _ _ Hmid Ht ltac:(lia)).
  pose proof (kmid_task _ _ _ Hmid Ht) as Hok. cbn in Hok.
  assert (Hl : is_live tk = true) by (unfold is_live; pose proof (tk_seed _ Hok); by destruct (task_state tk)).
  kstep. eapply wp_mutex_pri_limit; [apply Hmid|exact Ht|exact Hl|]. intros q Hq. do 3 kstep.
  eapply (wp_rebase _ _ _ _ _ t tk pri q); try done. intros T' objs' rq' Hk' HT.
  rewrite bool_decide_eq_true_2 by done. apply wp_bind, wp_core_sched; [exact Hk'|].
  intros s' Hwf' (p & a & ->). apply wp_ret. split; [done|]. by apply pc_ok.
Qed.

(** ** Creating tasks *)

(** the control block [task_create] leaves *)
Definition new_task (prio ticks stack_size autorun flag : Z) : ktask :=
  let total := if 0 <? ticks then u32 ticks else RHINO_CONFIG_TIME_SLICE_DEFAULT in
  let tk := set_time_slice total (set_time_total total (set_sched_policy KSCHED_RR zero_task)) in
  let tk := if 0 <? autorun then set_task_state K_RDY tk
            else set_suspend_count 1 (set_task_state K_SUSPENDED tk) in
  set_mm_alloc_flag flag (set_stack_size stack_size (set_b_prio prio (set_prio prio tk))).

Lemma new_task_facts prio ticks size autorun flag :
  0 <= prio < RHINO_CONFIG_PRI_MAX -> let tk := new_task prio ticks size autorun flag in
  task_ok tk /\ (task_state tk = K_RDY \/ task_state tk = K_SUSPENDED) /\ mutex_list tk = [] /\
  prio = b_prio tk /\ prio = State.prio tk /\ task_state tk = (if 0 <? autorun then K_RDY else K_SUSPENDED).
Proof.
  intros Hp. unfold new_task. destruct (0 <? autorun); cbn; (split_and!; [split; cbn; try done|..]; auto).
Qed.

(** what the creation returns when it makes no task *)
Inductive create_err (s : kstate) (ptrs : list (option nat)) (p stack_size : Z) : kstat_t -> Prop :=
  | ce_null : None ∈ ptrs -> create_err s ptrs p stack_size RHINO_NULL_PTR
  | ce_stack : stack_size = 0 -> create_err s ptrs p stack_size RHINO_TASK_INV_STACK_SIZE
  | ce_prio : RHINO_CONFIG_PRI_MAX <= p -> create_err s ptrs p stack_size RHINO_BEYOND_MAX_PRI
  | ce_intrpt : 0 < g_intrpt_nested_level s -> create_err s ptrs p stack_size RHINO_NOT_CALLED_BY_INTRPT
  | ce_idle : p = RHINO_IDLE_PRI -> 0 < g_idle_task_spawned s -> create_err s ptrs p stack_size RHINO_IDLE_TASK_EXIST.

(** the globals the creation changes besides the task and the run queue *)
Definition create_globals (t : nat) (p : Z) (s : kstate) : kstate :=
  let s := if p =? RHINO_IDLE_PRI then set_g_idle_task_spawned 1 s else s in
  set_g_kobj_list (set_task_head (task_head (g_kobj_list s) ++ [t]) (g_kobj_list s)) s.

Lemma create_globals_same t p s : same_view s (create_globals t p s) /\ g_sys_stat (create_globals t p s) = g_sys_stat s.
Proof. unfold create_globals. by destruct (p =? RHINO_IDLE_PRI). Qed.

Section create.
Context (T : gmap nat ktask) (objs : gmap nat kobj) (rq : runqueue_t) (th : list nat) (s : kstate).
Context (Hc : core None T objs rq th 1 (g_tick_count s)) (Hpi : pi_all T).
Context (task : option nat) (Hf : forall t, task = Some t -> fresh_task T t).
Context (p ticks stack_size autorun flag : Z) (Hp : 0 <= p).
Abbreviation tk := (new_task p ticks stack_size autorun flag).

Lemma wp_task_create name stack_buf entry (Q : kret -> kstate -> Prop) :
  (forall st, create_err s [task; name; entry; stack_buf] p stack_size st -> Q (Ret st) (kput T objs rq th s)) ->
  (forall t rq', task = Some t -> fresh_task T t -> p < RHINO_CONFIG_PRI_MAX ->
     (p = RHINO_IDLE_PRI -> g_idle_task_spawned s <= 0) ->
     core None (<[t := tk]> T) objs rq' th 1 (g_tick_count s) -> pi_all (<[t := tk]> T) ->
     let s' := kput (<[t := tk]> T) objs rq' th (create_globals t p s) in
     (g_sys_stat s <> RHINO_RUNNING -> Q (Ret RHINO_SUCCESS) s') /\
     (g_sys_stat s = RHINO_RUNNING -> wp (exit_sched (Ret RHINO_SUCCESS)) Q s') /\
     (autorun <= 0 -> rq' = rq -> Q (Ret RHINO_SUCCESS) s')) ->
  wp (task_create task name p ticks stack_buf stack_size entry autorun flag) Q (kput T objs rq th s).
Proof using Hc Hpi Hf Hp.
  intros Herr Hdone. unfold task_create, NULL_PARA_CHK.
  destruct task as [t|]; [|apply wp_ret, Herr, ce_null; set_solver].
  destruct name; [|apply wp_ret, Herr, ce_null; set_solver].
  destruct entry; [|apply wp_ret, Herr, ce_null; set_solver].
  destruct stack_buf; [|apply wp_ret, Herr, ce_null; set_solver].
  specialize (Hf t eq_refl).
  destruct (Z.eqb_spec stack_size 0) as [Hst|Hst]; [by apply wp_ret, Herr; constructor|].
  destruct (Z.leb_spec RHINO_CONFIG_PRI_MAX p) as [Hb|Hb]; [by apply wp_ret, Herr; constructor|].
  apply wp_keeps_checks; [intros Hn; by apply Herr; constructor|intros Hn].
  kstep. kstep. destruct ((p =? RHINO_IDLE_PRI) && (0 <? g_idle_task_spawned s)) eqn:Hi.
  { apply andb_true_iff in Hi as [H1%Z.eqb_eq H2%Z.ltb_lt]. kstep. by apply Herr; constructor. }
  destruct (new_task_facts p ticks stack_size autorun flag) as (Hok & Hnew & Hm & Hbp & Hpp & Hstate); [lia|].
  fold tk in Hok, Hnew, Hm, Hbp, Hpp, Hstate. specialize (Hdone t).
  destruct (fresh_views _ _ _ _ _ _ _ Hc t Hf) as (Hrd & _).
  set (s1 := if p =? RHINO_IDLE_PRI then set_g_idle_task_spawned 1 s else s).
  assert (Hidle : p = RHINO_IDLE_PRI -> g_idle_task_spawned s <= 0).
  { intros ->. rewrite Z.eqb_refl in Hi. by apply Z.ltb_ge in Hi. }
  kstep. assert (Hsp : forall R : unit -> kstate -> Prop, R tt (kput T objs rq th s1) ->
    wp (if p =? RHINO_IDLE_PRI then modify (set_g_idle_task_spawned 1) else mret tt : K unit) R (kput T objs rq th s)).
  { intros R HR. subst s1. case_match; kstep; exact HR. }
  apply Hsp. clear Hsp. cbv zeta.
  change (set_mm_alloc_flag flag _) with tk. kstep. apply wp_ins_task. do 2 kstep.
  change (set_g_kobj_list _ s1) with (create_globals t p s).
  assert (Hc' := fun rq' Hrq' => core_new_task _ _ _ _ _ _ _ Hc t tk Hf Hok Hnew Hm rq' Hrq').
  assert (Hpi' := pi_new_task _ _ _ _ _ _ _ Hc t tk Hf Hok Hnew Hm ltac:(congruence) Hpi).
  destruct (create_globals_same t p s) as (_ & Hss).
  destruct (Z.ltb_spec 0 autorun) as [Ha|Ha].
  - kstep. eapply (wp_ready_list_add_tail _ _ _ _ _ (ready T)); [apply Hc|apply lookup_insert_eq|done|apply Hok|].
    intros rq' Hrq'. do 2 kstep. rewrite Hss.
    destruct (Hdone rq' eq_refl Hf Hb Hidle) as (D1 & D2 & _); [|done|].
    + apply Hc'. unfold ready_of. by rewrite Hstate.
    + case_bool_decide; [by apply D2|kstep; by apply D1].
  - kstep. destruct (Hdone rq eq_refl Hf Hb Hidle) as (_ & _ & D3); [|done|].
    + apply Hc'. unfold ready_of. rewrite Hstate. rewrite fupd_id; [apply Hc|done].
    + by apply D3.
Qed.
End create.

Lemma fresh_not_idle T a lock nested t : sched_ok T a lock nested -> fresh_task T t -> t <> g_idle_task.
Proof.
  intros [(ik & Hik & Hst & _) _ _ _ _ _] Hf ->. specialize (Hf _ Hik). congruence.
Qed.

Lemma sched_new_task T objs rq th lo now a lock nested t tk :
  core None T objs rq th lo now -> sched_ok T a lock nested -> fresh_task T t -> b_prio tk < RHINO_IDLE_PRI ->
  sched_ok (<[t := tk]> T) a lock nested.
Proof.
  intros Hc Hs Hf Hb. assert (Hti := fresh_not_idle _ _ _ _ _ Hs Hf).
  destruct (fresh_views _ _ _ _ _ _ _ Hc t Hf) as (Hrd & _). destruct Hs as [Hi Hu Ha Hl Hn Hr]. split; try done.
  - by rewrite lookup_insert_ne.
  - intros u uk [[<- <-]|[_ Huk]]%lookup_insert_Some Hne; [done|by eapply Hu].
  - apply lookup_insert_is_Some'. by right.
  - intros Hlk. unfold ready in *. rewrite (tview_insert _ _ _ _ _ a), fupd_ne; [by apply Hr|].
    intros ->. destruct (Hr Hlk) as [q Hq]. unfold ready in Hq. congruence.
Qed.

(** a creation adds one task and changes nothing else but the scheduling *)
Inductive create_spec (s : kstate) (task name stack_buf entry : option nat) (p stack_size : Z) (tk : ktask)
    : kret -> kstate -> Prop :=
  | cr_err st : create_err s [task; name; entry; stack_buf] p stack_size st ->
      create_spec s task name stack_buf entry p stack_size tk (Ret st) s
  | cr_ok t s' : task = Some t -> g_tasks s' = <[t := tk]> (g_tasks s) -> g_objs s' = g_objs s ->
      task_head (g_kobj_list s') = task_head (g_kobj_list s) ++ [t] ->
      create_spec s task name stack_buf entry p stack_size tk (Ret RHINO_SUCCESS) s'.

Lemma wp_task_create_run s task name p ticks stack_buf stack_size entry autorun flag :
  wf s -> g_sys_stat s = RHINO_RUNNING -> 0 < g_idle_task_spawned s -> 0 <= p ->
  (forall t, task = Some t -> fresh_task (g_tasks s) t) ->
  wp (task_create task name p ticks stack_buf stack_size entry autorun flag) (fun r s' => wf s' /\
    create_spec s task name stack_buf entry p stack_size (new_task p ticks stack_size autorun flag) r s') s.
Proof.
  intros Hwf Hrun Hsp Hp Hf. kstart Hwf. pose proof Hmid as [Hc Hpi Hs]. cbn in Hc, Hpi, Hs.
  eapply wp_task_create; [exact Hc|exact Hpi|exact Hf|exact Hp|intros st Hst; rewrite kput_eta; split; [done|by constructor]|].
  intros t rq' Ht Hft Hpm Hidle Hc' Hpi' s'. destruct (create_globals_same t p s) as [Hsame _].
  assert (Hkobj : g_kobj_list s' = set_task_head (task_head (g_kobj_list s) ++ [t]) (g_kobj_list s))
    by (subst s'; unfold create_globals; by destruct (p =? RHINO_IDLE_PRI)).
  assert (Hpn : p <> RHINO_IDLE_PRI) by (intros E; specialize (Hidle E); lia).
  destruct (new_task_facts p ticks stack_size autorun flag) as (Hok & Hnew & Hm & Hbp & Hpp & Hstate); [lia|].
  assert (Hk : kpre s').
  { destruct Hsame as (_ & _ & _ & _ & E5 & E6 & E7 & E8). subst s'. split; [split|exact (kp_none _ Hpre)];
      unfold kput; cbn [g_tasks g_objs g_ready_queue g_tick_head g_tick_count g_active_task g_sched_lock g_intrpt_nested_level];
      rewrite ?E5, ?E6, ?E7, ?E8.
    - exact Hc'.
    - exact Hpi'.
    - eapply sched_new_task; [exact Hc|exact Hs|done|]. rewrite <- Hbp. unfold RHINO_IDLE_PRI, RHINO_CONFIG_PRI_MAX in *. lia. }
  split; [by intros ?|]. split.
  { intros _. eapply wp_exit_sched; [exact Hk|]. intros s2 Hwf2 (pr & a & ->). split; [done|].
    eapply cr_ok; [exact Ht|done|done|]. cbn [g_kobj_list set_g_active_task set_g_preferred_ready_task]. by rewrite Hkobj. }
  intros Ha ->. split; [|eapply cr_ok; [exact Ht|done|done|by rewrite Hkobj]].
  destruct Hsame as (_ & _ & _ & _ & E5 & E6 & E7 & E8). clear Hkobj. split; [exact Hk|..]; subst s'; unfold kput;
    cbn [g_tasks g_ready_queue g_active_task g_sched_lock g_intrpt_nested_level]; rewrite ?E6, ?E7, ?E8; [|apply Hwf].
  intros Hn. destruct (wf_ready _ Hwf Hn) as [q Hq]. exists q. unfold ready in *. rewrite (tview_insert _ _ _ _ _ (g_active_task s)).
  rewrite fupd_ne; [done|]. intros <-. destruct (fresh_views _ _ _ _ _ _ _ Hc _ Hft) as (Hrd & _). unfold ready in Hrd. congruence.
Qed.

Lemma task_create_wf s task name p ticks stack_buf stack_size entry autorun flag :
  wf s -> g_sys_stat s = RHINO_RUNNING -> 0 < g_idle_task_spawned s -> 0 <= p ->
  (forall t, task = Some t -> fresh_task (g_tasks s) t) ->
  keeps (task_create task name p ticks stack_buf stack_size entry autorun flag) s.
Proof. intros. eapply wp_mono; [|by apply wp_task_create_run]. by intros ?? [? _]. Qed.

(** ** Time slices and policies *)

Lemma krhino_task_time_slice_set_wf s t tk slice :
  wf s -> g_tasks s !! t = Some tk -> keeps (krhino_task_time_slice_set (Some t) slice) s.
Proof.
  intros Hwf Ht. apply wp_keeps_checks; [done|intros _]. kstart Hwf. cbv zeta. repeat kstep.
  by apply (wf_task_like _ _ tk).
Qed.

Lemma krhino_sched_policy_set_wf s t tk policy :
  wf s -> g_tasks s !! t = Some tk -> keeps (krhino_sched_policy_set (Some t) policy) s.
Proof.
  intros Hwf Ht. unfold krhino_sched_policy_set, NULL_PARA_CHK, keeps. case_match; [by apply wp_ret|].
  apply wp_keeps_checks; [done|intros _]. kstart Hwf. repeat kstep. by apply (wf_task_like _ _ tk).
Qed.
