(* ===== verification/Frame.v ===== *)
(** * What the routines leave alone

    [Follows R m] says that [m] goes from a state to one that [R] relates to it.
    A routine that makes and deletes no objects and does not touch the lock, the
    interrupts or the clock follows every relation that its elementary steps
    follow ([KRel]); its instances follow the shape of the code.  Two relations:
    [frame], for the scheduler lock, the interrupt level, the tick count and the
    state of the system, and that no task switch happens while the scheduler is
    locked or an interrupt is served; and [same_kinds], for which objects there
    are and of what type. *)

From S2P Require Import Prelude Config RingBuf State Sched Tick Pend PriChange Mutex Sem Event.
From S2P Require Import Queue BufQueue Task.

(** no task switch *)
Definition no_switch (s : kstate) : Prop := 0 < g_sched_lock s \/ 0 < g_intrpt_nested_level s.

Class Follows (R : kstate -> kstate -> Prop) {A} (m : K A) : Prop :=
  follows : forall s, match m s with Ok (_, s') => R s s' | _ => True end.

(** the elementary steps: an object changes but not its type, and the scheduler
    switches when it may *)
Class KRel (R : kstate -> kstate -> Prop) : Prop := {
  kr_pre :: PreOrder R;
  kr_tasks T s : R s (set_g_tasks T s);
  kr_objs objs s : (forall o, obj_type <$> objs !! o = obj_type <$> g_objs s !! o) -> R s (set_g_objs objs s);
  kr_rq rq s : R s (set_g_ready_queue rq s);
  kr_ticks l s : R s (set_g_tick_head l s);
  kr_kobj_list l s : R s (set_g_kobj_list l s);
  kr_spawned s : R s (set_g_idle_task_spawned 1 s);
  kr_preferred p s : ~ no_switch s -> R s (set_g_preferred_ready_task p s);
  kr_active a s : ~ no_switch s -> R s (set_g_active_task a s)
}.

Lemma wp_follows R {A} (m : K A) Q s : Follows R m -> wp m Q s -> wp m (fun a s' => Q a s' /\ R s s') s.
Proof. intros Hf. specialize (Hf s). unfold wp. by destruct (m s) as [[a s']| |]. Qed.

Create HintDb frames.
#[export] Hint Extern 0 (PreOrder _) => typeclasses eauto : frames.
#[export] Hint Extern 0 (KRel _) => typeclasses eauto : frames.

(** ** The combinators *)

Section follows.
Context (R : kstate -> kstate -> Prop) `{!PreOrder R}.

Lemma frames_ret {A} (a : A) : Follows R (mret a : K A).
Proof using All. intros s. cbn. reflexivity. Qed.
Lemma frames_gets {A} (f : kstate -> A) : Follows R (gets f : K A).
Proof using All. intros s. cbn. reflexivity. Qed.
Lemma frames_lift {A} (o : option A) : Follows R (lift o : K A).
Proof using All. intros s. destruct o; cbn; [reflexivity|done]. Qed.
Lemma frames_undef {A} : Follows R (undef : K A).
Proof using Type. done. Qed.
Lemma frames_stop {A} e : Follows R (stop e : K A).
Proof using Type. done. Qed.
Lemma frames_modify f : (forall s, R s (f s)) -> Follows R (modify f : K unit).
Proof using Type. intros H s. apply H. Qed.
Lemma frames_bind {A B} (m : K A) (f : A -> K B) : Follows R m -> (forall a, Follows R (f a)) -> Follows R (m ≫= f).
Proof using All.
  intros Hm Hf s. unfold mbind, M_bind. specialize (Hm s). destruct (m s) as [[a s']| |]; [|done..].
  specialize (Hf a s'). destruct (f a s') as [[b s2]| |]; [|done..]. by etrans.
Qed.
End follows.
#[export] Hint Resolve frames_ret frames_gets frames_lift frames_undef frames_stop : frames.

(** follows the shape of a routine *)
Ltac solve_frames :=
  repeat first
    [ solve [auto with frames]
    | apply frames_bind; [solve [auto with frames]| |intros ?]
    | apply frames_modify; intros ?; solve [apply kr_tasks | apply kr_rq | apply kr_ticks | apply kr_kobj_list | apply kr_spawned]
    | progress cbv beta zeta
    | lazymatch goal with
      | |- Follows _ (match ?x with _ => _ end) => destruct x
      end ].

Lemma frames_get_task R `{!PreOrder R} t : Follows R (get_task t).
Proof. unfold get_task. solve_frames. Qed.
Lemma frames_get_obj R `{!PreOrder R} o : Follows R (get_obj o).
Proof. unfold get_obj. solve_frames. Qed.
#[export] Hint Resolve frames_get_task frames_get_obj : frames.

(** ** The checks *)

Section checks.
Context (R : kstate -> kstate -> Prop) `{!PreOrder R} {A : Type} `{!HasStat A}.
#[local] Set Default Proof Using "All".

Lemma frames_status st : Follows R (ret st : K A).
Proof. unfold ret. solve_frames. Qed.
Hint Resolve frames_status : frames.
Lemma frames_null {P} (p : option P) (k : P -> K A) : (forall x, Follows R (k x)) -> Follows R (NULL_PARA_CHK p k).
Proof. intros H. unfold NULL_PARA_CHK. solve_frames. Qed.
Lemma frames_intrpt (k : K A) : Follows R k -> Follows R (INTRPT_NESTED_LEVEL_CHK k).
Proof. intros H. unfold INTRPT_NESTED_LEVEL_CHK. solve_frames. Qed.
Lemma frames_type o ty (k : kobj -> K A) : (forall ob, Follows R (k ob)) -> Follows R (OBJ_TYPE_CHK o ty k).
Proof. intros H. unfold OBJ_TYPE_CHK. solve_frames. Qed.
Lemma frames_flag ob flag (k : K A) : Follows R k -> Follows R (ALLOC_FLAG_CHK ob flag k).
Proof. intros H. unfold ALLOC_FLAG_CHK. solve_frames. Qed.
Lemma frames_lock (k : K A) : Follows R k -> Follows R (SCHED_LOCK_CHK k).
Proof. intros H. unfold SCHED_LOCK_CHK. solve_frames. Qed.
End checks.
#[export] Hint Resolve frames_status : frames.

(** follows the shape of a kernel call *)
Ltac solve_call :=
  repeat first
    [ progress solve_frames
    | apply frames_null; [solve [auto with frames]|intros ?]
    | apply frames_intrpt; [solve [auto with frames]|]
    | apply frames_type; [solve [auto with frames]|intros ?]
    | apply frames_flag; [solve [auto with frames]|]
    | apply frames_lock; [solve [auto with frames]|] ].

(** ** The routines *)

Section generic.
Context (R : kstate -> kstate -> Prop) `{!KRel R}.
#[local] Set Default Proof Using "All".

Lemma frames_upd_task t f : Follows R (upd_task t f).
Proof. unfold upd_task. solve_frames. Qed.
Lemma frames_put_obj o f : (forall ob, obj_type (f ob) = obj_type ob) -> Follows R (upd_obj o f).
Proof.
  intros Hf s. unfold upd_obj, get_obj, mbind, M_bind, gets, lift. destruct (g_objs s !! o) as [ob|] eqn:E; [|done]. cbn.
  apply kr_objs. intros q. destruct (decide (q = o)) as [->|Hne]; [|by rewrite lookup_insert_ne by done].
  rewrite lookup_insert_eq, E. cbn. by rewrite Hf.
Qed.
Hint Resolve frames_upd_task : frames.
Hint Extern 0 (Follows _ (upd_obj _ _)) => apply frames_put_obj; intros ?; reflexivity : frames.
Lemma frames_on_rq f t : Follows R (on_rq f t).
Proof. unfold on_rq. solve_frames. Qed.
Hint Unfold ready_list_add_tail ready_list_add_head ready_list_rm ready_list_head_to_tail : frames.
Hint Resolve frames_on_rq : frames.
Lemma frames_ready_list_add t : Follows R (ready_list_add t).
Proof. unfold ready_list_add. solve_frames. Qed.
Lemma frames_core_sched : Follows R core_sched.
Proof.
  intros s. unfold core_sched, mbind, M_bind, gets. destruct (Z.ltb_spec 0 (g_intrpt_nested_level s)); [cbn; reflexivity|].
  destruct (Z.ltb_spec 0 (g_sched_lock s)); [cbn; reflexivity|]. unfold preferred_cpu_ready_task_get, mbind, M_bind, gets.
  assert (Hn : ~ no_switch s) by (unfold no_switch; lia). destruct (ring _ _) as [|p l]; [done|]. cbn.
  pose proof (kr_preferred p s Hn). case_bool_decide; [done|]. unfold tspend_handler, mbind, M_bind, gets. cbn.
  destruct (negb _); cbn; [done|]. etrans; [done|]. by apply kr_active.
Qed.
Hint Resolve frames_ready_list_add frames_core_sched : frames.
Lemma frames_exit_sched r : Follows R (exit_sched r).
Proof. unfold exit_sched. solve_frames. Qed.
Lemma frames_tick_list_insert t time : Follows R (tick_list_insert t time).
Proof. unfold tick_list_insert, tick_list_pri_insert. solve_frames. Qed.
Lemma frames_tick_list_rm t : Follows R (tick_list_rm t).
Proof. unfold tick_list_rm. solve_frames. Qed.
Lemma frames_klist_rm_task t : Follows R (klist_rm_task t).
Proof.
  intros s. unfold klist_rm_task, mbind, M_bind, gets. cbn. destruct (existsb _ _); cbn; [|done]. apply kr_objs. intros o.
  rewrite lookup_fmap. by destruct (g_objs s !! o).
Qed.
Hint Resolve frames_exit_sched frames_tick_list_insert frames_tick_list_rm frames_klist_rm_task : frames.
Lemma frames_pend_list_add o t : Follows R (pend_list_add o t).
Proof. unfold pend_list_add. solve_frames. Qed.
Lemma frames_pend_task_end bs t : Follows R (pend_task_end bs t).
Proof. unfold pend_task_end, k_err_proc. solve_frames. Qed.
Hint Resolve frames_pend_list_add frames_pend_task_end : frames.
Lemma frames_pend_task_wakeup t : Follows R (pend_task_wakeup t).
Proof. rewrite pend_task_wakeup_end. solve_frames. Qed.
Lemma frames_pend_task_rm t : Follows R (pend_task_rm t).
Proof. rewrite pend_task_rm_end. solve_frames. Qed.
Lemma frames_pend_to_blk_obj o t timeout : Follows R (pend_to_blk_obj o t timeout).
Proof. unfold pend_to_blk_obj. solve_frames. Qed.
Lemma frames_pend_list_reorder t : Follows R (pend_list_reorder t).
Proof. unfold pend_list_reorder. solve_frames. Qed.
Hint Resolve frames_pend_task_wakeup frames_pend_task_rm frames_pend_to_blk_obj frames_pend_list_reorder : frames.
Lemma frames_for_all_waiting o f : (forall t, Follows R (f t)) -> Follows R (for_all_waiting o f).
Proof.
  intros Hf. unfold for_all_waiting. apply frames_bind; [auto with frames|solve_frames|]. intros ob.
  induction (length (blk_list ob)) as [|n IH]; cbn [while_waiting]; solve_frames.
Qed.
Hint Resolve frames_for_all_waiting : frames.
Lemma frames_pri_change_loop n : forall t p, Follows R (pri_change_loop n t p).
Proof.
  induction n as [|n IH]; intros t p; cbn [pri_change_loop]; [solve_frames|].
  unfold mutex_pri_look. solve_frames.
Qed.
Lemma frames_task_pri_change t p : Follows R (task_pri_change t p).
Proof. unfold task_pri_change. apply frames_bind; [auto with frames|solve_frames|]. intros n. apply frames_pri_change_loop. Qed.
Hint Resolve frames_task_pri_change : frames.
Lemma frames_mutex_release t m : Follows R (mutex_release t m).
Proof. unfold mutex_release, mutex_pri_look. solve_frames. Qed.
Hint Resolve frames_mutex_release : frames.
Lemma frames_mutex_task_pri_reset t : Follows R (mutex_task_pri_reset t).
Proof. unfold mutex_task_pri_reset. solve_frames. Qed.
Lemma frames_upd_kobj_list f : Follows R (upd_kobj_list f).
Proof. unfold upd_kobj_list. solve_frames. Qed.
Lemma frames_pend_state_end_proc t : Follows R (pend_state_end_proc t).
Proof. unfold pend_state_end_proc, k_err_proc. solve_frames. Qed.
Hint Resolve frames_mutex_task_pri_reset frames_upd_kobj_list frames_pend_state_end_proc : frames.
Lemma frames_sem_give o w : Follows R (sem_give o w).
Proof. unfold sem_give. solve_call. Qed.
Hint Resolve frames_sem_give : frames.
Lemma frames_krhino_sem_give s : Follows R (krhino_sem_give s).
Proof. unfold krhino_sem_give. solve_call. Qed.
Lemma frames_krhino_sem_give_all s : Follows R (krhino_sem_give_all s).
Proof. unfold krhino_sem_give_all. solve_call. Qed.
Lemma frames_krhino_sem_take a t : Follows R (krhino_sem_take a t).
Proof. unfold krhino_sem_take. solve_call. Qed.
Lemma frames_krhino_sem_count_set a c : Follows R (krhino_sem_count_set a c).
Proof. unfold krhino_sem_count_set. solve_call. Qed.
Hint Resolve frames_krhino_sem_give frames_krhino_sem_give_all frames_krhino_sem_take frames_krhino_sem_count_set : frames.
Lemma frames_krhino_mutex_lock a t : Follows R (krhino_mutex_lock a t).
Proof. unfold krhino_mutex_lock, k_err_proc. solve_call. Qed.
Lemma frames_krhino_mutex_unlock a : Follows R (krhino_mutex_unlock a).
Proof. unfold krhino_mutex_unlock. solve_call. Qed.
Hint Resolve frames_krhino_mutex_lock frames_krhino_mutex_unlock : frames.
Lemma frames_event_wake_loop o c l : Follows R (event_wake_loop o c l).
Proof. induction l as [|t l IH]; cbn [event_wake_loop]; unfold event_wake; solve_call. Qed.
Hint Resolve frames_event_wake_loop : frames.
Lemma frames_krhino_event_get a f o p t : Follows R (krhino_event_get a f o p t).
Proof. unfold krhino_event_get. solve_call. Qed.
Lemma frames_krhino_event_set a f o : Follows R (krhino_event_set a f o).
Proof. unfold krhino_event_set, event_set. solve_call. Qed.
Hint Resolve frames_krhino_event_get frames_krhino_event_set : frames.
Lemma frames_task_msg_recv p t : Follows R (task_msg_recv p t).
Proof. unfold task_msg_recv. solve_call. Qed.
Hint Resolve frames_task_msg_recv : frames.
Lemma frames_msg_send a p w : Follows R (msg_send a p w).
Proof. unfold msg_send. solve_call. Qed.
Lemma frames_krhino_queue_recv a t m : Follows R (krhino_queue_recv a t m).
Proof. unfold krhino_queue_recv. solve_call. Qed.
Lemma frames_krhino_queue_flush a : Follows R (krhino_queue_flush a).
Proof. unfold krhino_queue_flush. solve_call. Qed.
Hint Resolve frames_msg_send frames_krhino_queue_recv frames_krhino_queue_flush : frames.
Lemma frames_buf_queue_send o m n : Follows R (buf_queue_send o m n).
Proof. unfold buf_queue_send. solve_call. Qed.
Hint Resolve frames_buf_queue_send : frames.
Lemma frames_krhino_buf_queue_send a m n : Follows R (krhino_buf_queue_send a m n).
Proof. unfold krhino_buf_queue_send. solve_call. Qed.
Lemma frames_krhino_buf_queue_recv a t m n : Follows R (krhino_buf_queue_recv a t m n).
Proof. unfold krhino_buf_queue_recv. solve_call. Qed.
Lemma frames_krhino_buf_queue_flush a : Follows R (krhino_buf_queue_flush a).
Proof. unfold krhino_buf_queue_flush. solve_call. Qed.
Hint Resolve frames_krhino_buf_queue_send frames_krhino_buf_queue_recv frames_krhino_buf_queue_flush : frames.
Lemma frames_task_create a b p n c k d e f : Follows R (task_create a b p n c k d e f).
Proof.
  unfold task_create. solve_call; apply frames_modify; intros ?; (split; [done..|cbn; try done; lia]).
Qed.
Hint Resolve frames_task_create : frames.
Lemma frames_krhino_task_create a b p n c k d e : Follows R (krhino_task_create a b p n c k d e).
Proof. unfold krhino_task_create. solve_call. Qed.
Lemma frames_krhino_task_dyn_create q a b p n c k d : Follows R (krhino_task_dyn_create q a b p n c k d).
Proof. unfold krhino_task_dyn_create, task_dyn_create. solve_call. Qed.
Lemma frames_krhino_task_sleep t : Follows R (krhino_task_sleep t).
Proof. unfold krhino_task_sleep. solve_call. Qed.
Lemma frames_krhino_task_yield : Follows R krhino_task_yield.
Proof. unfold krhino_task_yield. solve_call. Qed.
Lemma frames_krhino_task_suspend t : Follows R (krhino_task_suspend t).
Proof. unfold krhino_task_suspend, task_suspend. solve_call. Qed.
Lemma frames_krhino_task_resume t : Follows R (krhino_task_resume t).
Proof. unfold krhino_task_resume, task_resume, resume_step. solve_call. Qed.
Lemma frames_krhino_task_pri_change t p o : Follows R (krhino_task_pri_change t p o).
Proof. unfold krhino_task_pri_change, mutex_pri_limit. solve_call. Qed.
Hint Resolve frames_krhino_task_create frames_krhino_task_dyn_create frames_krhino_task_sleep frames_krhino_task_yield frames_krhino_task_suspend frames_krhino_task_resume frames_krhino_task_pri_change : frames.
Lemma frames_mutex_free_loop l : Follows R (mutex_free_loop l).
Proof. induction l as [|m l IH]; cbn [mutex_free_loop]; solve_call. Qed.
Hint Resolve frames_mutex_free_loop : frames.
Lemma frames_task_mutex_free t : Follows R (task_mutex_free t).
Proof. unfold task_mutex_free. solve_call. Qed.
Hint Resolve frames_task_mutex_free : frames.
Lemma frames_task_unlink t i k : Follows R i -> Follows R k -> Follows R (task_unlink t i k).
Proof. intros Hi Hk. unfold task_unlink. solve_call. Qed.
Lemma frames_krhino_task_del t : Follows R (krhino_task_del t).
Proof. unfold krhino_task_del. solve_call. Qed.
Lemma frames_time_slice_update : Follows R time_slice_update.
Proof. unfold time_slice_update. solve_call. Qed.
Lemma frames_krhino_task_time_slice_set t n : Follows R (krhino_task_time_slice_set t n).
Proof. unfold krhino_task_time_slice_set. solve_call. Qed.
Lemma frames_krhino_sched_policy_set t n : Follows R (krhino_sched_policy_set t n).
Proof. unfold krhino_sched_policy_set. solve_call. Qed.
Hint Resolve frames_krhino_task_del frames_time_slice_update frames_krhino_task_time_slice_set frames_krhino_sched_policy_set : frames.
End generic.
#[export] Hint Unfold ready_list_add_tail ready_list_add_head ready_list_rm ready_list_head_to_tail : frames.
#[export] Hint Resolve frames_upd_task frames_on_rq frames_ready_list_add frames_core_sched frames_exit_sched
  frames_tick_list_insert frames_tick_list_rm frames_klist_rm_task frames_pend_list_add frames_pend_task_end
  frames_pend_task_wakeup frames_pend_task_rm frames_pend_to_blk_obj frames_pend_list_reorder frames_for_all_waiting
  frames_task_pri_change frames_mutex_release frames_mutex_task_pri_reset frames_upd_kobj_list frames_pend_state_end_proc
  frames_sem_give frames_krhino_sem_give frames_krhino_sem_give_all frames_krhino_sem_take frames_krhino_sem_count_set
  frames_krhino_mutex_lock frames_krhino_mutex_unlock frames_event_wake_loop frames_krhino_event_get
  frames_krhino_event_set frames_task_msg_recv frames_msg_send frames_krhino_queue_recv frames_krhino_queue_flush
  frames_buf_queue_send frames_krhino_buf_queue_send frames_krhino_buf_queue_recv frames_krhino_buf_queue_flush
  frames_task_create frames_krhino_task_create frames_krhino_task_dyn_create frames_krhino_task_sleep
  frames_krhino_task_yield frames_krhino_task_suspend frames_krhino_task_resume frames_krhino_task_pri_change
  frames_mutex_free_loop frames_task_mutex_free frames_krhino_task_del frames_time_slice_update
  frames_krhino_task_time_slice_set frames_krhino_sched_policy_set : frames.
#[export] Hint Extern 0 (Follows _ (upd_obj _ _)) => apply frames_put_obj; [typeclasses eauto|intros ?; reflexivity] : frames.

(** ** The globals of the scheduler *)

Definition statics (s : kstate) : Z * Z * Z * kstat_t :=
  (g_sched_lock s, g_intrpt_nested_level s, g_tick_count s, g_sys_stat s).

Record frame (s s' : kstate) : Prop := {
  fm_statics : statics s' = statics s;
  fm_active : no_switch s -> g_active_task s' = g_active_task s;
  fm_spawned : 0 < g_idle_task_spawned s -> 0 < g_idle_task_spawned s'
}.

#[export] Instance frame_pre : PreOrder frame.
Proof.
  split; [done|]. intros s s' s2 [H1 H2 ?] [H3 H4 ?]. split; [congruence| |auto]. intros Hn. rewrite H4, H2; try done.
  unfold no_switch, statics in *. injection H1 as -> -> _ _. done.
Qed.

(** no task switch when there must be none *)
#[export] Instance frame_KRel : KRel frame.
Proof. split; try done; try apply _; intros; by split. Qed.

Abbreviation Frames := (Follows frame).

Lemma wp_frames {A} (m : K A) Q s : Frames m -> wp m Q s -> wp m (fun a s' => Q a s' /\ frame s s') s.
Proof. apply wp_follows. Qed.

(** making and deleting objects *)
Lemma frames_upd_obj o f : Frames (upd_obj o f).
Proof. unfold upd_obj. apply frames_bind; [auto with frames|auto with frames|]. intros ob. by apply frames_modify. Qed.
Lemma frames_new_obj o ob : Frames (new_obj o ob).
Proof. by apply frames_modify. Qed.
Lemma frames_free_obj o : Frames (free_obj o).
Proof. by apply frames_modify. Qed.
#[export] Hint Resolve frames_upd_obj frames_new_obj frames_free_obj : frames.
Lemma frames_dyn_create alloc create : (forall o, Frames (create o)) -> Frames (dyn_create alloc create).
Proof. intros H. unfold dyn_create. solve_frames. Qed.

Lemma frames_sem_create a b c d : Frames (sem_create a b c d).
Proof. unfold sem_create. solve_call. Qed.
Lemma frames_sem_destroy o : Frames (sem_destroy o).
Proof. unfold sem_destroy. solve_call. Qed.
#[local] Hint Resolve frames_sem_create frames_sem_destroy : frames.
Lemma frames_krhino_sem_create a b c : Frames (krhino_sem_create a b c).
Proof. unfold krhino_sem_create. solve_call. Qed.
Lemma frames_krhino_sem_del a : Frames (krhino_sem_del a).
Proof. unfold krhino_sem_del. solve_call. Qed.
Lemma frames_krhino_sem_dyn_create p a b c : Frames (krhino_sem_dyn_create p a b c).
Proof. apply frames_null; [auto with frames|]. intros _. apply frames_dyn_create. intros o. solve_call. Qed.
Lemma frames_krhino_sem_dyn_del a : Frames (krhino_sem_dyn_del a).
Proof. unfold krhino_sem_dyn_del. solve_call. Qed.
#[export] Hint Resolve frames_krhino_sem_create frames_krhino_sem_del frames_krhino_sem_dyn_create
  frames_krhino_sem_dyn_del : frames.

Lemma frames_mutex_create a b c : Frames (mutex_create a b c).
Proof. unfold mutex_create. solve_call. Qed.
Lemma frames_mutex_destroy m : Frames (mutex_destroy m).
Proof. unfold mutex_destroy. solve_call. Qed.
#[local] Hint Resolve frames_mutex_create frames_mutex_destroy : frames.
Lemma frames_krhino_mutex_create a b : Frames (krhino_mutex_create a b).
Proof. unfold krhino_mutex_create. solve_call. Qed.
Lemma frames_krhino_mutex_dyn_create p a b : Frames (krhino_mutex_dyn_create p a b).
Proof. apply frames_null; [auto with frames|]. intros _. apply frames_dyn_create. intros o. solve_call. Qed.
Lemma frames_krhino_mutex_del a : Frames (krhino_mutex_del a).
Proof. unfold krhino_mutex_del. solve_call. Qed.
Lemma frames_krhino_mutex_dyn_del a : Frames (krhino_mutex_dyn_del a).
Proof. unfold krhino_mutex_dyn_del. solve_call. Qed.
#[export] Hint Resolve frames_krhino_mutex_create frames_krhino_mutex_dyn_create frames_krhino_mutex_del
  frames_krhino_mutex_dyn_del : frames.

Lemma frames_event_create a b c d : Frames (event_create a b c d).
Proof. unfold event_create. solve_call. Qed.
Lemma frames_event_destroy o : Frames (event_destroy o).
Proof. unfold event_destroy. solve_call. Qed.
#[local] Hint Resolve frames_event_create frames_event_destroy : frames.
Lemma frames_krhino_event_create a b c : Frames (krhino_event_create a b c).
Proof. unfold krhino_event_create. solve_call. Qed.
Lemma frames_krhino_event_dyn_create p a b c : Frames (krhino_event_dyn_create p a b c).
Proof. apply frames_null; [auto with frames|]. intros _. apply frames_dyn_create. intros o. solve_call. Qed.
Lemma frames_krhino_event_del a : Frames (krhino_event_del a).
Proof. unfold krhino_event_del. solve_call. Qed.
Lemma frames_krhino_event_dyn_del a : Frames (krhino_event_dyn_del a).
Proof. unfold krhino_event_dyn_del. solve_call. Qed.
#[export] Hint Resolve frames_krhino_event_create frames_krhino_event_dyn_create frames_krhino_event_del
  frames_krhino_event_dyn_del : frames.

Lemma frames_queue_create a b c d e : Frames (queue_create a b c d e).
Proof. unfold queue_create. solve_call. Qed.
Lemma frames_queue_destroy o : Frames (queue_destroy o).
Proof. unfold queue_destroy, queue_ring_reset. solve_call. Qed.
#[local] Hint Resolve frames_queue_create frames_queue_destroy : frames.
Lemma frames_krhino_queue_create a b c d : Frames (krhino_queue_create a b c d).
Proof. unfold krhino_queue_create. solve_call. Qed.
Lemma frames_krhino_queue_dyn_create p a b c d : Frames (krhino_queue_dyn_create p a b c d).
Proof. apply frames_null; [auto with frames|]. intros _. apply frames_dyn_create. intros o. solve_call. Qed.
Lemma frames_krhino_queue_del a : Frames (krhino_queue_del a).
Proof. unfold krhino_queue_del. solve_call. Qed.
Lemma frames_krhino_queue_dyn_del a : Frames (krhino_queue_dyn_del a).
Proof. unfold krhino_queue_dyn_del. solve_call. Qed.
#[export] Hint Resolve frames_krhino_queue_create frames_krhino_queue_dyn_create frames_krhino_queue_del
  frames_krhino_queue_dyn_del : frames.

Lemma frames_buf_queue_create a b c d e f g : Frames (buf_queue_create a b c d e f g).
Proof. unfold buf_queue_create. solve_call. Qed.
Lemma frames_buf_queue_destroy o : Frames (buf_queue_destroy o).
Proof. unfold buf_queue_destroy, buf_queue_ring_reset. solve_call. Qed.
#[local] Hint Resolve frames_buf_queue_create frames_buf_queue_destroy : frames.
Lemma frames_krhino_buf_queue_create a b c d e : Frames (krhino_buf_queue_create a b c d e).
Proof. unfold krhino_buf_queue_create. solve_call. Qed.
Lemma frames_krhino_fix_buf_queue_create a b c d e : Frames (krhino_fix_buf_queue_create a b c d e).
Proof. unfold krhino_fix_buf_queue_create. solve_call. Qed.
Lemma frames_krhino_buf_queue_dyn_create p a b c d e : Frames (krhino_buf_queue_dyn_create p a b c d e).
Proof.
  unfold krhino_buf_queue_dyn_create. apply frames_null; [auto with frames|]. intros _. destruct (d =? 0); [solve_frames|]. apply frames_dyn_create. intros o. solve_call.
Qed.
Lemma frames_krhino_buf_queue_del a : Frames (krhino_buf_queue_del a).
Proof. unfold krhino_buf_queue_del. solve_call. Qed.
Lemma frames_krhino_buf_queue_dyn_del a : Frames (krhino_buf_queue_dyn_del a).
Proof. unfold krhino_buf_queue_dyn_del. solve_call. Qed.
#[export] Hint Resolve frames_krhino_buf_queue_create frames_krhino_fix_buf_queue_create
  frames_krhino_buf_queue_dyn_create frames_krhino_buf_queue_del frames_krhino_buf_queue_dyn_del : frames.

(** ** The objects and their types *)

Definition kind (s : kstate) (o : nat) : option kobj_type_t := obj_type <$> g_objs s !! o.

Definition same_kinds (s s' : kstate) : Prop := forall o, kind s' o = kind s o.

#[export] Instance same_kinds_pre : PreOrder same_kinds.
Proof. split; [done|]. intros s s' s2 H1 H2 o. by rewrite H2, H1. Qed.

#[export] Instance same_kinds_KRel : KRel same_kinds.
Proof. split; try done; apply _. Qed.
