(* ===== verification/TaskDel.v ===== *)
(** * Deleting a task ([task_mutex_free], [krhino_task_del] of [core/k_task.c])

    [task_mutex_free] walks the chain of the mutexes of the task without taking
    them out of it.  The proof follows the kernel as it would be with the
    mutexes already passed taken out, [chain_as]: no routine the loop calls
    reads the chain. *)

From S2P Require Import Prelude Config State Sched Inv Tick Pend PriChange KInv Mutex Sem Task Frame.

(** ** Handing the mutexes over *)

(** the tasks as if the chain of [t] were [chain] *)
Definition chain_as (chain : list nat) (t : nat) (T : gmap nat ktask) : gmap nat ktask :=
  alter (set_mutex_list chain) t T.

Section chain_as.
Context (chain : list nat) (t : nat) (T : gmap nat ktask) (tk : ktask) (Ht : T !! t = Some tk).

Lemma chain_as_insert : chain_as chain t T = <[t := set_mutex_list chain tk]> T.
Proof using Ht. by apply alter_some. Qed.

Lemma chain_as_view {A} (f : ktask -> A) d :
  f (set_mutex_list chain tk) = f tk -> tview f d (chain_as chain t T) ≐ tview f d T.
Proof using Ht. intros Hf. rewrite chain_as_insert. by eapply tview_same. Qed.

Lemma chain_as_held : is_live tk = true -> held (chain_as chain t T) t = chain.
Proof using Ht.
  intros Hl. rewrite chain_as_insert. unfold held. rewrite (tview_lookup _ _ _ _ _ (lookup_insert_eq _ _ _)).
  unfold held_of. by replace (is_live (set_mutex_list chain tk)) with (is_live tk) by done; rewrite Hl.
Qed.

Lemma chain_as_other u uk : u <> t -> chain_as chain t (<[u := uk]> T) = <[u := uk]> (chain_as chain t T).
Proof using Type. intros Hne. unfold chain_as. apply alter_insert_ne. congruence. Qed.

Lemma chain_as_lookup u : u <> t -> chain_as chain t T !! u = T !! u.
Proof using Type. intros Hne. unfold chain_as. by apply lookup_alter_ne. Qed.
End chain_as.

(** the invariant of the loop: [chain] is what is left *)
Record freeing (chain : list nat) (t : nat) (T : gmap nat ktask) (objs : gmap nat kobj) (rq : runqueue_t)
    (th : list nat) (s : kstate) : Prop := {
  fr_core : core None (chain_as chain t T) objs rq th 1 (g_tick_count s);
  fr_pi : pi_but t (chain_as chain t T);
  fr_sched : sched_ok (chain_as chain t T) (g_active_task s) (g_sched_lock s) (g_intrpt_nested_level s);
  fr_none : none_ok objs
}.

Section free_step.
Context (t : nat) (tk : ktask) (m : nat) (chain : list nat) (T : gmap nat ktask) (objs : gmap nat kobj)
  (rq : runqueue_t) (th : list nat) (s : kstate).
Context (Ht : T !! t = Some tk) (Hl : is_live tk = true) (Hti : t <> g_idle_task).
Context (Hfr : freeing (m :: chain) t T objs rq th s).
Abbreviation Tv := (chain_as (m :: chain) t T).
Abbreviation tv := (set_mutex_list (m :: chain) tk).
Abbreviation Tc := (chain_as chain t T).

Lemma free_owner : exists ob nested, objs !! m = Some ob /\ obj_type ob = RHINO_MUTEX_OBJ_TYPE /\
  body ob = KMutex (Some t) nested /\ 0 <= nested < 2 ^ 32 /\ own None objs m = Some t.
Proof using Ht Hl Hfr.
  assert (Hin : m ∈ held Tv t) by (rewrite (chain_as_held _ _ _ _ Ht Hl); left).
  pose proof (fr_core _ _ _ _ _ _ _ Hfr) as Hc.
  destruct (held_mutex _ _ _ _ _ _ _ _ _ Hc Hin) as (_ & ob & Ho & Hty & Hown & _).
  pose proof (c_obj _ _ _ _ _ _ _ Hc _ _ Ho) as Hok. unfold obj_ok in Hok. rewrite Hty in Hok.
  unfold mutex_owner in Hown. destruct (body ob) as [|mt nested| | |] eqn:Hb; try done. subst mt.
  exists ob, nested. split_and!; try done; [apply Hok..|]. by apply (mx_in _ _ (c_mutex _ _ _ _ _ _ _ Hc)).
Qed.

(** the chain is cut after [m] *)
Lemma free_cut : Tv !! t = Some tv /\ m ∈ mutex_list tv /\ is_live tv = true /\
  <[t := set_mutex_list (kept (Some m) (mutex_list tv)) tv]> Tv = Tc.
Proof using Ht Hl Hfr.
  assert (Htv : Tv !! t = Some tv) by (rewrite (chain_as_insert _ _ _ _ Ht); apply lookup_insert_eq).
  split_and!; [done|left|done|].
  pose proof (mx_nodup _ _ (c_mutex _ _ _ _ _ _ _ (fr_core _ _ _ _ _ _ _ Hfr)) t) as Hnd.
  rewrite (chain_as_held _ _ _ _ Ht Hl) in Hnd. apply NoDup_cons in Hnd as [Hm _].
  rewrite kept_del. cbn [mutex_list set_mutex_list]. rewrite klist_del_head by done.
  rewrite !(chain_as_insert _ _ _ _ Ht), insert_insert_eq. done.
Qed.

Lemma free_unwaited ob nested : objs !! m = Some ob -> obj_type ob = RHINO_MUTEX_OBJ_TYPE ->
  blk_list ob = [] -> 0 <= nested < 2 ^ 32 ->
  freeing chain t T (<[m := set_body (KMutex None nested) ob]> objs) rq th s.
Proof using Ht Hl Hti Hfr.
  intros Ho Hty Hnil Hn. destruct free_cut as (Htv & Hin & Hlv & HTc).
  destruct Hfr as [Hc Hpi Hs Hno]. split.
  - rewrite <- HTc. apply core_unown; try done. intros u Hu.
    apply (bk_in _ _ _ (c_blk _ _ _ _ _ _ _ Hc) _ _ u Ho) in Hu. rewrite Hnil in Hu. by apply elem_of_nil in Hu.
  - rewrite <- HTc. by apply released_pi.
  - rewrite <- HTc. by apply released_sched.
  - by apply none_insert.
Qed.

(** the first waiting task of the mutex *)
Lemma free_waiter ob u l : objs !! m = Some ob -> obj_type ob = RHINO_MUTEX_OBJ_TYPE -> blk_list ob = u :: l ->
  waits Tc u = Some m /\ u <> t /\ (forall v, m ∉ held Tc v) /\ (forall v, waits Tc v = Some m -> prioV Tc u <= prioV Tc v).
Proof using Ht Hl Hfr.
  intros Ho Hty Hbl. destruct free_cut as (Htv & Hin & Hlv & HTc).
  assert (Hhole := core_hole _ _ _ _ _ _ _ _ _ (fr_core _ _ _ _ _ _ _ Hfr) Htv Hlv Hin). rewrite HTc in Hhole.
  assert (Hw : waits Tc u = Some m) by (by eapply hand_waits).
  split_and!; [done| |by eapply hand_unheld|by eapply hand_first].
  destruct (free_owner) as (ob' & n & Ho' & _ & _ & _ & Hown).
  assert (HW : waits Tc ≐ waits Tv).
  { unfold waits. by rewrite !(chain_as_view _ _ _ _ Ht). }
  rewrite (HW u) in Hw.
  destruct (c_mwait _ _ _ _ _ _ _ (fr_core _ _ _ _ _ _ _ Hfr) u m ob Hw Ho Hty) as (v & Hv & Hne); congruence.
Qed.

Lemma wp_free_waiter ob nested u l (Q : unit -> kstate -> Prop) :
  objs !! m = Some ob -> obj_type ob = RHINO_MUTEX_OBJ_TYPE -> blk_list ob = u :: l -> 0 <= nested < 2 ^ 32 ->
  (forall uk rq' th',
     let T' := <[u := set_mutex_list (m :: mutex_list uk) (woken BLK_FINISH uk)]> T in
     let objs' := <[m := set_body (KMutex (Some u) nested) (unlinked u ob)]> objs in
     freeing chain t T' objs' rq' th' s -> T !! u = Some uk -> is_pending uk = true -> u <> t ->
     Q tt (kput T' objs' rq' th' s)) ->
  wp (pend_task_wakeup u;;
      upd_obj m (set_body (KMutex (Some u) nested));;
      upd_task u (fun nk => set_mutex_list (m :: mutex_list nk) nk)) Q (kput T objs rq th s).
Proof using Ht Hl Hti Hfr.
  intros Ho Hty Hbl Hn HQ. destruct (free_waiter ob u l Ho Hty Hbl) as (Hw & Hut & Hunheld & Hfirst).
  destruct free_cut as (Htv & Hin & Hlv & HTc).
  assert (Hhole := core_hole _ _ _ _ _ _ _ _ _ (fr_core _ _ _ _ _ _ _ Hfr) Htv Hlv Hin). rewrite HTc in Hhole.
  assert (Hpi := released_pi _ _ _ m Htv Hlv (fr_pi _ _ _ _ _ _ _ Hfr)). rewrite HTc in Hpi.
  assert (Hs := released_sched _ _ _ m Htv _ _ _ (fr_sched _ _ _ _ _ _ _ Hfr) Hti). rewrite HTc in Hs.
  destruct (waits_inv _ _ _ Hw) as (uk & Huc & Hp & Hb). pose proof Huc as Hu. rewrite chain_as_lookup in Hu by done.
  assert (Hsame : forall A (f : ktask -> A) d, f (set_mutex_list chain tk) = f tk -> tview f d Tc ≐ tview f d T)
    by (intros; by eapply chain_as_view).
  pose proof Hhole as [Hrq Htask Hobj Hblk Htick Hmx Hmw].
  kstep. rewrite pend_task_wakeup_end.
  eapply (wp_pend_task_end_run T objs rq th s u m uk ob Hu Hp Hb Ho BLK_FINISH 1 (prioV T)).
  - unfold ready in *. by rewrite Hsame in Hrq.
  - by apply (Htask u).
  - unfold waits, prioV in *. by rewrite !Hsame in Hblk.
  - unfold ticking, matchV in *. by rewrite !Hsame in Htick.
  - destruct (so_active _ _ _ _ Hs) as [ak Hak]. unfold chain_as in Hak.
    destruct (T !! g_active_task s) eqn:Ha; [done|]. destruct (decide (t = g_active_task s)) as [->|Hne]; [congruence|].
    rewrite lookup_alter_ne in Hak by done. congruence.
  - intros rq' Hrq'. do 3 kstep. set (wu := woken BLK_FINISH uk) in *.
    set (T1 := <[u := set_mutex_list (m :: mutex_list wu) wu]> T).
    set (objs1 := <[m := set_body (KMutex (Some u) nested) (unlinked u ob)]> objs).
    assert (HT1 : chain_as chain t T1 = <[u := set_mutex_list (m :: mutex_list wu) wu]> (<[u := wu]> Tc)).
    { subst T1. by rewrite chain_as_other, insert_insert_eq by done. }
    assert (Hc1 : core (Some m) (<[u := wu]> Tc) (<[m := unlinked u ob]> objs) rq' (klist_del u th) 1 (g_tick_count s)).
    { apply (woken_core Tc objs rq th s (Some m) 1 Hhole u m uk ob Huc Hp Hb Ho).
      unfold ready in *. by rewrite tview_insert, Hsame, <- (tview_insert ready_of None T u). }
    assert (Hlu : is_live wu = true) by (unfold is_live, is_pending in *; cbn; by destruct (task_state uk)).
    assert (Hlu0 : is_live uk = true) by (unfold is_live, is_pending in *; by destruct (task_state uk)).
    assert (HWu : waits_of wu = None) by (unfold waits_of, is_pending in *; cbn; by destruct (task_state uk)).
    assert (HW1 : waits (<[u := wu]> Tc) ≐ fupd (waits Tc) u None) by (unfold waits; by rewrite tview_insert, HWu).
    assert (HP1 : prioV (<[u := wu]> Tc) ≐ prioV Tc) by (by eapply tview_same).
    assert (Hui : u <> g_idle_task).
    { intros ->. destruct (so_idle _ _ _ _ Hs) as (ik & Hik & Hst & _). rewrite Huc in Hik. injection Hik as <-.
      unfold is_pending in Hp. by rewrite Hst in Hp. }
    assert (Hlk : u = g_active_task s -> 0 < g_sched_lock s -> False).
    { intros -> Hlk. destruct (so_locked _ _ _ _ Hs Hlk) as [q Hq]. by rewrite (woken_not_ready _ _ _ Huc Hp) in Hq. }
    apply (HQ uk); [|done..]. change (freeing chain t T1 objs1 rq' (klist_del u th) s). split.
    + rewrite HT1. subst objs1. rewrite <- (insert_insert_eq objs m _ (unlinked u ob)).
      apply (core_acquire (Some m)); try done; [apply lookup_insert_eq|apply lookup_insert_eq| |by right|rewrite (HW1 u), fupd_eq; done|].
      * unfold own. by rewrite decide_True.
      * pose proof (Hobj _ _ Ho) as Hok. unfold obj_ok in Hok. rewrite Hty in Hok. cbn. destruct (body ob); try done. apply Hok.
    + rewrite HT1. apply pi_acquire_but; [|apply lookup_insert_eq|done|].
      * apply (pi_wait_but _ _ _ uk); try done; [congruence|]. intros o [Ho'|Ho'] v; [|congruence].
        assert (o = m) as -> by congruence. apply Hunheld.
      * intros v Hv. rewrite (HW1 v) in Hv. unfold fupd in Hv. case_decide; [done|]. rewrite !HP1. by apply Hfirst.
    + rewrite HT1. eapply sched_upd; [|apply lookup_insert_eq|done|done|by intros ??%Hlk].
      eapply sched_upd; [exact Hs|exact Huc|done|done|by intros ??%Hlk].
    + apply none_insert; [apply Hfr|]. cbn. by rewrite Hty.
Qed.
End free_step.

(** What handing over the mutexes [chain] of [t] does.  A mutex is given to the
    first of the tasks that wait for it, with the count of its locks, or is free;
    the new owner is woken.  Nothing else changes. *)
Definition given (t m : nat) (objs : gmap nat kobj) (T' : gmap nat ktask) (objs' : gmap nat kobj) : Prop :=
  exists ob nested ob', objs !! m = Some ob /\ body ob = KMutex (Some t) nested /\
    objs' !! m = Some ob' /\ body ob' = KMutex (head (blk_list ob)) nested /\
    forall u, head (blk_list ob) = Some u -> u <> t /\ exists uk, T' !! u = Some uk /\ is_pending uk = false /\
      blk_state uk = BLK_FINISH /\ m ∈ mutex_list uk.

Record gives (t : nat) (chain : list nat) (T : gmap nat ktask) (objs : gmap nat kobj) (T' : gmap nat ktask)
    (objs' : gmap nat kobj) : Prop := {
  gi_keep : forall v vk, T !! v = Some vk -> is_pending vk = false -> T' !! v = Some vk;
  gi_self : T' !! t = T !! t;
  gi_objs : forall o, o ∉ chain -> objs' !! o = objs !! o;
  gi_given : Forall (fun m => given t m objs T' objs') chain
}.

Lemma gives_none t T objs : gives t [] T objs T objs.
Proof. split; [done|done|done|constructor]. Qed.

Lemma given_later t m objs objs1 T' objs' : objs1 !! m = objs !! m -> given t m objs1 T' objs' -> given t m objs T' objs'.
Proof. intros E (ob & nested & ob' & Ho & H). exists ob, nested, ob'. by rewrite <- E. Qed.

(** the first mutex, then the rest *)
Lemma gives_cons t m chain T objs T1 objs1 T' objs' :
  m ∉ chain -> (forall v vk, T !! v = Some vk -> is_pending vk = false -> T1 !! v = Some vk) -> T1 !! t = T !! t ->
  (forall o, o <> m -> objs1 !! o = objs !! o) -> given t m objs T1 objs1 -> gives t chain T1 objs1 T' objs' ->
  gives t (m :: chain) T objs T' objs'.
Proof.
  intros Hm Hkeep Hself Hobjs (ob & nested & ob1 & Ho & Hb & Ho1 & Hb1 & Hu) [Hk Hs Ho' Hg]. split.
  - intros v vk Hv Hp. apply Hk; auto.
  - congruence.
  - intros o Hno. rewrite Ho' by set_solver. apply Hobjs. set_solver.
  - constructor.
    + exists ob, nested, ob1. split_and!; [done|done|by rewrite Ho'|done|]. intros u E.
      destruct (Hu u E) as (Hne & uk & H1 & H2 & H3 & H4). split; [done|]. exists uk. split; [by apply Hk|done].
    + rewrite Forall_forall in Hg |- *. intros q Hq. eapply given_later; [|by apply Hg]. apply Hobjs. by intros ->.
Qed.

(** the loop gives every mutex of the chain away *)
Lemma wp_mutex_free_loop t tk chain : forall T objs rq th s (Q : unit -> kstate -> Prop),
  T !! t = Some tk -> is_live tk = true -> t <> g_idle_task -> freeing chain t T objs rq th s ->
  (forall T' objs' rq' th', freeing [] t T' objs' rq' th' s -> gives t chain T objs T' objs' -> Q tt (kput T' objs' rq' th' s)) ->
  wp (mutex_free_loop chain) Q (kput T objs rq th s).
Proof.
  induction chain as [|m chain IH]; intros T objs rq th s Q Ht Hl Hti Hfr HQ; cbn [mutex_free_loop].
  { kstep. apply HQ; [done|apply gives_none]. }
  destruct (free_owner t tk m chain T objs rq th s Ht Hl Hfr) as (ob & nested & Ho & Hty & Hb & Hn & _).
  assert (Hnd : m ∉ chain).
  { pose proof (mx_nodup _ _ (c_mutex _ _ _ _ _ _ _ (fr_core _ _ _ _ _ _ _ Hfr)) t) as Hnd.
    rewrite (chain_as_held _ _ _ _ Ht Hl) in Hnd. by apply NoDup_cons in Hnd as [? _]. }
  do 3 kstep. rewrite Hb. destruct (blk_list ob) as [|u l] eqn:Hbl.
  - kstep. eapply IH; [exact Ht|exact Hl|exact Hti|by eapply free_unwaited|].
    intros T' objs' rq' th' Hfr' Hg. apply HQ; [done|]. eapply gives_cons; [done|done|done| | |exact Hg].
    + intros o Hne. by apply lookup_insert_ne.
    + eexists ob, nested, _. split_and!; [done|done|apply lookup_insert_eq|by rewrite Hbl|by rewrite Hbl].
  - eapply wp_free_waiter; [exact Ht|exact Hl|exact Hti|exact Hfr|exact Ho|exact Hty|exact Hbl|exact Hn|].
    intros uk rq1 th1 T1 objs1 Hfr1 Hu Hp Hne. assert (Ht1 : T1 !! t = Some tk) by (unfold T1; by rewrite lookup_insert_ne).
    eapply IH; [exact Ht1|exact Hl|exact Hti|exact Hfr1|].
    intros T' objs' rq' th' Hfr' Hg. apply HQ; [done|]. eapply gives_cons; [done| |by rewrite Ht1| | |exact Hg].
    + intros v vk Hv Hvp. unfold T1. rewrite lookup_insert_ne; [done|]. intros ->. congruence.
    + intros o Hno. by apply lookup_insert_ne.
    + eexists ob, nested, _. split_and!; [done|done|apply lookup_insert_eq|by rewrite Hbl|]. rewrite Hbl. intros v [= <-]. split; [done|].
      eexists. split; [apply lookup_insert_eq|]. split_and!; [|done|left]. unfold is_pending in *. cbn. by destruct (task_state uk).
Qed.

Lemma wp_task_mutex_free T objs rq th s t tk (Q : unit -> kstate -> Prop) :
  kpre (kput T objs rq th s) -> T !! t = Some tk -> is_live tk = true -> t <> g_idle_task ->
  (forall T' objs' rq' th', freeing [] t T' objs' rq' th' s -> gives t (mutex_list tk) T objs T' objs' ->
     Q tt (kput T' objs' rq' th' s)) ->
  wp (task_mutex_free t) Q (kput T objs rq th s).
Proof.
  intros [[Hc Hpi Hs] Hn] Ht Hl Hti HQ. unfold task_mutex_free. do 2 kstep.
  eapply wp_mutex_free_loop; [exact Ht|exact Hl|exact Hti| |exact HQ].
  assert (Hid : chain_as (mutex_list tk) t T = T).
  { rewrite (chain_as_insert _ _ _ _ Ht). apply insert_id. rewrite Ht. by destruct tk. }
  split; rewrite ?Hid; [exact Hc|by apply pi_all_but|exact Hs|exact Hn].
Qed.

(** ** Unlinking *)

Section kill.
Context (t : nat) (tk tk' : ktask) (T : gmap nat ktask) (objs : gmap nat kobj) (rq : runqueue_t) (th : list nat) (s : kstate).
Context (Ht : T !! t = Some tk) (Hl : is_live tk = true) (Hti : t <> g_idle_task).
Context (Hfr : freeing [] t T objs rq th s).
Context (Hd : task_state tk' = K_DELETED) (Hp : prio tk' = prio tk) (Hbp : b_prio tk' = b_prio tk)
  (Hth : tick_head tk' = false) (Hm : tick_match tk' = tick_match tk).
Abbreviation T' := (<[t := tk']> T).
Abbreviation Tc := (chain_as [] t T).

Lemma kill_views : ready T' ≐ fupd (ready T) t None /\ waits T' ≐ fupd (waits T) t None /\
  ticking T' ≐ fupd (ticking T) t false /\ matchV T' ≐ matchV T /\ prioV T' ≐ prioV T /\ held T' ≐ held Tc.
Proof using Ht Hl Hd Hp Hth Hm.
  unfold ready, waits, ticking, matchV, prioV. rewrite !tview_insert. unfold ready_of at 2, waits_of at 2, is_pending.
  rewrite Hd, Hth. split_and!; try done.
  - apply fupd_id. rewrite Hm. by apply (tview_lookup tick_match).
  - apply fupd_id. rewrite Hp. by apply (tview_lookup prio).
  - intros u. destruct (decide (u = t)) as [->|Hne].
    + rewrite (chain_as_held _ _ _ _ Ht Hl). unfold held. rewrite (tview_lookup _ _ _ _ _ (lookup_insert_eq _ _ _)).
      unfold held_of, is_live. by rewrite Hd.
    + unfold held, tview. by rewrite lookup_insert_ne, chain_as_lookup by done.
Qed.

Lemma kill_same {A} (f : ktask -> A) d : f (set_mutex_list [] tk) = f tk -> tview f d Tc ≐ tview f d T.
Proof using Ht. by apply chain_as_view. Qed.

Lemma kill_core objs' rq' th' :
  rq_ok (fupd (ready T) t None) rq' -> map_Forall (fun _ => obj_ok) objs' ->
  blks_ok (fupd (waits T) t None) (prioV T) objs' -> own None objs' ≐ own None objs ->
  (forall o ob', objs' !! o = Some ob' -> exists ob, objs !! o = Some ob /\ obj_type ob = obj_type ob') ->
  tick_ok 1 (fupd (ticking T) t false) (matchV T) (g_tick_count s) th' ->
  core None T' objs' rq' th' 1 (g_tick_count s).
Proof using Ht Hl Hfr Hd Hp Hbp Hth Hm.
  intros Hrq Hobj Hblk Hown Hty Htick. destruct kill_views as (VR & VW & VC & VM & VP & VH).
  destruct (fr_core _ _ _ _ _ _ _ Hfr) as [_ Htask _ _ _ Hmx Hmw]. split.
  - by rewrite VR.
  - intros u uk [[<- <-]|[Hne Hu]]%lookup_insert_Some.
    + assert (Hok := Htask t). rewrite (chain_as_insert _ _ _ _ Ht), lookup_insert_eq in Hok. destruct (Hok _ eq_refl).
      split; rewrite ?Hp, ?Hbp, ?Hd, ?Hth; try done; unfold is_pending, is_sleeping, is_suspended; by rewrite Hd.
    + apply (Htask u). by rewrite chain_as_lookup.
  - done.
  - by rewrite VW, VP.
  - by rewrite VC, VM.
  - by rewrite VH, Hown.
  - intros u m mb Hu Hmb Hmty Hx. rewrite (VW u) in Hu. unfold fupd in Hu. case_decide; [done|]. rewrite (Hown m).
    destruct (Hty _ _ Hmb) as (mb0 & Hmb0 & Hmty0). apply (Hmw u m mb0); [|done|congruence|done].
    unfold waits in *. by rewrite (kill_same waits_of).
Qed.

(** the others have their priority, as if [t] still waited *)
Lemma kill_pi W : (forall u, u <> t -> W u = waits T u) -> W t = waits T t ->
  pi_ok (prioV T') (live T') (bprioV T') (held T') W (prioV T').
Proof using Ht Hl Hfr Hd Hp Hbp Hth Hm.
  intros HW HWt. destruct kill_views as (_ & _ & _ & _ & VP & VH).
  assert (HW' : W ≐ waits Tc).
  { intros u. unfold waits. rewrite (kill_same waits_of) by done. destruct (decide (u = t)) as [->|]; [done|by apply HW]. }
  assert (HB : bprioV T' ≐ bprioV Tc).
  { unfold bprioV. rewrite kill_same by done. by eapply tview_same. }
  assert (HP : prioV T' ≐ prioV Tc) by (unfold prioV in *; by rewrite (kill_same prio)).
  rewrite HP, VH, HW', HB. intros u Hu. destruct (decide (u = t)) as [->|Hne].
  - unfold live in Hu. rewrite (tview_lookup _ _ _ _ _ (lookup_insert_eq _ _ _)) in Hu. unfold is_live in Hu. by rewrite Hd in Hu.
  - apply (fr_pi _ _ _ _ _ _ _ Hfr); [done|]. unfold live, tview in *. rewrite lookup_insert_ne in Hu by done.
    by rewrite chain_as_lookup.
Qed.

Lemma kill_sched : (t = g_active_task s -> ~ 0 < g_sched_lock s) ->
  sched_ok T' (g_active_task s) (g_sched_lock s) (g_intrpt_nested_level s).
Proof using Ht Hti Hfr Hbp.
  intros Hlk. assert (Hs := fr_sched _ _ _ _ _ _ _ Hfr).
  assert (HT' : T' = <[t := tk']> Tc) by (by rewrite (chain_as_insert _ _ _ _ Ht), insert_insert_eq).
  rewrite HT'. apply (sched_upd _ _ _ _ _ (set_mutex_list [] tk)); [exact Hs| |done|exact Hbp|by intros ??%Hlk].
  rewrite (chain_as_insert _ _ _ _ Ht). apply lookup_insert_eq.
Qed.
End kill.

(** ** The two deletions *)

(** what taking [t] out of the lists leaves of tasks and objects *)
Record unlinks (t : nat) (T : gmap nat ktask) (objs : gmap nat kobj) (T' : gmap nat ktask) (objs' : gmap nat kobj) : Prop := {
  un_dead : exists tk', T' !! t = Some tk' /\ task_state tk' = K_DELETED;
  un_tasks : forall u uk, u <> t -> T !! u = Some uk -> exists p, T' !! u = Some (set_prio p uk);
  un_objs : forall o ob, objs !! o = Some ob -> exists ob', objs' !! o = Some ob' /\ body ob' = body ob
}.

Lemma unlinks_alone t T objs tk' : task_state tk' = K_DELETED -> unlinks t T objs (<[t := tk']> T) objs.
Proof.
  intros Hd. split; [eexists; split; [apply lookup_insert_eq|done]| |by eauto].
  intros u uk Hne Hu. exists (prio uk). rewrite lookup_insert_ne, Hu by done. by destruct uk.
Qed.

Lemma unlinks_pend t T objs tk' o ob T' objs' : task_state tk' = K_DELETED -> objs !! o = Some ob ->
  prio_change (<[t := tk']> T) T' -> relist (<[o := unlinked t ob]> objs) objs' -> unlinks t T objs T' objs'.
Proof.
  intros Hd Ho HT Hobjs. split.
  - destruct (same_keys_lookup _ _ _ _ _ HT (lookup_insert_eq _ _ _)) as (k' & Hk & p & ->). by eexists.
  - intros u uk Hne Hu. destruct (same_keys_lookup _ _ _ u uk HT) as (k' & Hk & p & ->); [by rewrite lookup_insert_ne|]. by exists p.
  - intros q qb Hq. destruct (decide (q = o)) as [->|Hne].
    + destruct (same_keys_lookup _ _ _ _ _ Hobjs (lookup_insert_eq _ _ _)) as (b' & Hb & l & ->). eexists. split; [exact Hb|].
      cbn. congruence.
    + destruct (same_keys_lookup _ _ _ q qb Hobjs) as (b' & Hb & l & ->); [by rewrite lookup_insert_ne|]. by eexists.
Qed.

Lemma given_unlinks t m objs T1 objs1 T' objs' : given t m objs T1 objs1 -> unlinks t T1 objs1 T' objs' -> given t m objs T' objs'.
Proof.
  intros (ob & nested & ob1 & Ho & Hb & Ho1 & Hb1 & Hu) [_ Ht Hobjs]. destruct (Hobjs _ _ Ho1) as (ob' & Ho' & Hb').
  exists ob, nested, ob'. split_and!; [done..|congruence|]. intros u E. destruct (Hu u E) as (Hne & uk & Huk & H). split; [done|].
  destruct (Ht u uk Hne Huk) as (p & Hp). by exists (set_prio p uk).
Qed.

Section unlink.
Context (t : nat) (tk : ktask) (T : gmap nat ktask) (objs : gmap nat kobj) (rq : runqueue_t) (th : list nat) (s : kstate).
Context (Ht : T !! t = Some tk) (Hl : is_live tk = true) (Hti : t <> g_idle_task).
Context (Hfr : freeing [] t T objs rq th s).
Context (Hlk : t = g_active_task s -> ~ 0 < g_sched_lock s).

Lemma unlink_views : rq_ok (ready T) rq /\ tick_ok 1 (ticking T) (matchV T) (g_tick_count s) th /\
  blks_ok (waits T) (prioV T) objs /\ (exists i, ready T g_idle_task = Some i) /\ task_ok tk.
Proof using Ht Hti Hfr.
  assert (Hs : forall A (f : ktask -> A) d, f (set_mutex_list [] tk) = f tk -> tview f d (chain_as [] t T) ≐ tview f d T)
    by (intros; by eapply chain_as_view).
  destruct (fr_core _ _ _ _ _ _ _ Hfr) as [Hrq Htask Hobj Hblk Htick Hmx Hmw].
  unfold ready, ticking, matchV, waits, prioV in *. rewrite !Hs in * by done. split_and!; try done.
  - destruct (sched_idle_ready _ _ _ _ (fr_sched _ _ _ _ _ _ _ Hfr)) as [_ [i Hi]]. exists i.
    unfold ready in Hi. by rewrite (Hs _ ready_of) in Hi.
  - specialize (Htask t). rewrite (chain_as_insert _ _ _ _ Ht), lookup_insert_eq in Htask. by destruct (Htask _ eq_refl).
Qed.

(** a task that waits for nothing *)
Lemma unlink_free tk' rq' th' : waits T t = None -> task_state tk' = K_DELETED -> prio tk' = prio tk ->
  b_prio tk' = b_prio tk -> tick_head tk' = false -> tick_match tk' = tick_match tk ->
  rq_ok (fupd (ready T) t None) rq' -> tick_ok 1 (fupd (ticking T) t false) (matchV T) (g_tick_count s) th' ->
  kpre (kput (<[t := tk']> T) objs rq' th' s).
Proof using Ht Hl Hti Hfr Hlk.
  intros Hw Hd Hp Hbp Hth Hm Hrq' Hth'. destruct unlink_views as (Hrq & Htick & Hblk & _ & _). split; [split|]; cbn.
  - eapply kill_core; try done.
    + apply Hfr.
    + by rewrite fupd_id.
    + intros o ob Ho. by exists ob.
  - destruct (kill_views t tk tk' T) as (_ & VW & _); try done. unfold pi_all. rewrite VW, fupd_id by done.
    by eapply (kill_pi t tk).
  - by eapply kill_sched.
  - apply Hfr.
Qed.

(** a waiting task: the owner of the mutex it waited for may lose priority *)
Lemma wp_unlink_pend o ob (k : K kret) (Q : kret -> kstate -> Prop) :
  is_pending tk = true -> blk_obj tk = Some o -> objs !! o = Some ob ->
  (forall T' objs' rq' th', kpre (kput T' objs' rq' th' s) -> unlinks t T objs T' objs' -> wp k Q (kput T' objs' rq' th' s)) ->
  wp (tick_list_rm t;; klist_rm_task t;; upd_task t (set_task_state K_DELETED);; mutex_task_pri_reset t;; k) Q
    (kput T objs rq th s).
Proof using Ht Hl Hti Hfr Hlk.
  intros Hp Hb Ho HQ. destruct unlink_views as (Hrq & Htick & Hblk & _ & Hok).
  assert (Hw : waits T t = Some o) by (by eapply woken_waits).
  assert (Hnr : ready T t = None) by (by eapply woken_not_ready).
  kstep. eapply wp_tick_list_rm; [exact Htick|exact Ht|].
  kstep. eapply wp_klist_rm_task; [exact Hblk|exact Hw|exact Ho|].
  do 2 kstep. fold (unlinked t ob). set (tk' := set_task_state K_DELETED (set_tick_head false tk)).
  destruct (kill_views t tk tk' T Ht Hl) as (VR & VW & VC & VM & VP & VH); try done.
  assert (Hs' := kill_sched t tk tk' T objs rq th s Ht Hti Hfr eq_refl Hlk).
  assert (Hown : own None (<[o := unlinked t ob]> objs) ≐ own None objs) by (by eapply own_same).
  destruct (fr_core _ _ _ _ _ _ _ Hfr) as [_ _ Hobj _ _ _ Hmw].
  assert (Hc' : core None (<[t := tk']> T) (<[o := unlinked t ob]> objs) rq (klist_del t th) 1 (g_tick_count s)).
  { eapply kill_core; try done.
    - by rewrite fupd_id.
    - apply map_Forall_insert_2; [|done]. specialize (Hobj _ _ Ho). unfold obj_ok in *. cbn.
      destruct (obj_type ob), (body ob); try done; destruct Hobj as [? Hc0]; split; try done; intros Hz; by rewrite (Hc0 Hz).
    - by apply blks_del.
    - intros q qb [[<- <-]|[_ Hq]]%lookup_insert_Some; [by exists ob|by exists qb].
    - by apply tick_del. }
  kstep. eapply (wp_mutex_task_pri_reset _ _ None 1 g_idle_task); [done|exact Hc'|apply lookup_insert_eq|exact Hb|
    apply lookup_insert_eq|by rewrite (VW t), fupd_eq| |by eapply sched_idle_ready| |].
  - intros Hty. rewrite (Hown o). destruct (Hmw t o ob) as (v & Hv & _); [|done|done|done|congruence].
    unfold waits in *. by rewrite (chain_as_view _ _ _ _ Ht).
  - eapply (kill_pi t tk); try done.
    + intros u Hu. rewrite fupd_ne by done. rewrite (VW u). by rewrite fupd_ne.
    + by rewrite fupd_eq.
  - intros T2 objs2 rq2 Hc2 HT2 Hobjs2 Hpi2. apply HQ; [|by apply (unlinks_pend t T objs tk' o ob)]. split; [split|]; cbn.
    + exact Hc2.
    + exact Hpi2.
    + by eapply sched_prio.
    + eapply none_members; [|exact Hobjs2|apply Hc'|apply Hc2|].
      * apply none_insert; [apply Hfr|]. cbn. intros Hty. by rewrite (fr_none _ _ _ _ _ _ _ Hfr _ _ Ho Hty).
      * intros u q. by rewrite (same_view_waits _ _ u HT2).
Qed.

(** the [switch] *)
Lemma wp_task_unlink (invalid k : K kret) (Q : kret -> kstate -> Prop) :
  (forall T' objs' rq' th', kpre (kput T' objs' rq' th' s) ->
     unlinks t T objs T' objs' -> wp k Q (kput T' objs' rq' th' s)) ->
  wp (task_unlink t invalid k) Q (kput T objs rq th s).
Proof using Ht Hl Hti Hfr Hlk.
  intros HQ. destruct unlink_views as (Hrq & Htick & Hblk & (i & Hidle) & Hok).
  assert (Hrd : ready T t = ready_of tk) by (by apply (tview_lookup ready_of)).
  assert (Hcd : ticking T t = tick_head tk) by (by apply (tview_lookup tick_head)).
  assert (Hwd : waits T t = waits_of tk) by (by apply (tview_lookup waits_of)).
  unfold task_unlink. do 2 kstep.
  assert (Hsleep : is_sleeping tk = true ->
    wp (tick_list_rm t;; upd_task t (set_task_state K_DELETED);; k) Q (kput T objs rq th s)).
  { intros Hsl. kstep. eapply wp_tick_list_rm; [exact Htick|exact Ht|]. do 2 kstep. apply HQ.
    - eapply unlink_free; try done.
      + rewrite Hwd. unfold waits_of, is_pending, is_sleeping in *. by destruct (task_state tk).
      + rewrite fupd_id; [done|]. rewrite Hrd. unfold ready_of, is_sleeping in *. by destruct (task_state tk).
      + by apply tick_del.
    - by apply unlinks_alone. }
  assert (Hpend : is_pending tk = true ->
    wp (tick_list_rm t;; klist_rm_task t;; upd_task t (set_task_state K_DELETED);; mutex_task_pri_reset t;; k) Q
       (kput T objs rq th s)).
  { intros Hp. destruct (blk_obj tk) as [o|] eqn:Hb; [|by destruct (tk_pend _ Hok Hp)].
    destruct (bk_obj _ _ _ Hblk t o) as [ob Ho]; [by eapply woken_waits|].
    apply (wp_unlink_pend o ob k Q Hp Hb Ho). intros T' objs' rq' th' Hk HT. by apply HQ. }
  assert (Hawake : is_sleeping tk = false -> is_pending tk = false -> tick_head tk = false).
  { intros Hs Hp. destruct (tick_head tk) eqn:E; [|done]. destruct (tk_tick _ Hok E); congruence. }
  pose proof Hl as Hl'. unfold is_sleeping, is_pending in Hsleep, Hpend, Hawake. unfold is_live in Hl'.
  destruct (task_state tk) eqn:Hst; try done.
  - kstep. eapply (wp_ready_list_rm _ _ _ _ _ (ready T)); [exact Hrq|exact Ht|rewrite Hrd; unfold ready_of; by rewrite Hst| |exact Hidle|].
    { by apply not_eq_sym. }
    intros rq' Hrq'. do 2 kstep. apply HQ; [|by apply unlinks_alone].
    eapply unlink_free; try done; [|by apply Hawake|].
    + rewrite Hwd. unfold waits_of, is_pending. by rewrite Hst.
    + rewrite fupd_id; [done|]. rewrite Hcd. by apply Hawake.
  - by apply Hpend.
  - do 2 kstep. apply HQ; [|by apply unlinks_alone].
    eapply unlink_free; try done; [|by apply Hawake| |].
    + rewrite Hwd. unfold waits_of, is_pending. by rewrite Hst.
    + rewrite fupd_id; [done|]. rewrite Hrd. unfold ready_of. by rewrite Hst.
    + rewrite fupd_id; [done|]. rewrite Hcd. by apply Hawake.
  - by apply Hpend.
  - by apply Hsleep.
  - by apply Hsleep.
Qed.
End unlink.

(** the task is in no list of the kernel, and another one runs *)
Record gone (t : nat) (s' : kstate) : Prop := {
  go_dead : exists tk', g_tasks s' !! t = Some tk' /\ task_state tk' = K_DELETED;
  go_active : g_active_task s' <> t;
  go_ready : forall p, t ∉ ring (g_ready_queue s') p;
  go_blk : forall o ob, g_objs s' !! o = Some ob -> t ∉ blk_list ob;
  go_tick : t ∉ g_tick_head s';
  go_held : forall o ob, g_objs s' !! o = Some ob -> obj_type ob = RHINO_MUTEX_OBJ_TYPE -> mutex_owner ob <> Some t;
  go_list : t ∉ task_head (g_kobj_list s')
}.

(** the memory of [t] waits to be freed, and the semaphore of the task that frees
    it counts one more, or the first task that waits for the semaphore is woken *)
Definition handed (s : kstate) (t : nat) (s' : kstate) : Prop :=
  g_res_list s' = g_res_list s ++ [t] /\
  forall ob count peak, g_objs s !! g_res_sem = Some ob -> body ob = KSem count peak ->
    exists ob', g_objs s' !! g_res_sem = Some ob' /\
      match blk_list ob with
      | [] => body ob' = KSem (count + 1) (Z.max peak (count + 1))
      | u :: _ => body ob' = KSem count peak /\
          (u <> t -> exists uk, g_tasks s' !! u = Some uk /\ is_pending uk = false /\ blk_state uk = BLK_FINISH)
      end.

(** what a deletion does *)
Inductive del_spec (s : kstate) (t : nat) (tk : ktask) (flag : Z) : kret -> kstate -> Prop :=
  | del_intrpt : 0 < g_intrpt_nested_level s -> del_spec s t tk flag (Ret RHINO_NOT_CALLED_BY_INTRPT) s
  | del_idle : prio tk = RHINO_IDLE_PRI -> del_spec s t tk flag (Ret RHINO_TASK_DEL_NOT_ALLOWED) s
  | del_flag : mm_alloc_flag tk <> flag -> del_spec s t tk flag (Ret RHINO_KOBJ_DEL_ERR) s
  | del_locked : t = g_active_task s -> 0 < g_sched_lock s -> del_spec s t tk flag (Ret RHINO_SCHED_DISABLE) s
  | del_dead : task_state tk = K_DELETED -> del_spec s t tk flag (Ret RHINO_INV_TASK_STATE) s
  | del_ok s' : gone t s' -> Forall (fun m => given t m (g_objs s) (g_tasks s') (g_objs s')) (mutex_list tk) ->
      (if flag =? K_OBJ_DYN_ALLOC then handed s t s' else g_res_list s' = g_res_list s) ->
      del_spec s t tk flag (Ret RHINO_SUCCESS) s'.

Lemma live_not_deleted s t tk : kmid s -> g_tasks s !! t = Some tk -> task_state tk <> K_DELETED -> is_live tk = true.
Proof.
  intros Hk Ht Hd. pose proof (tk_seed _ (kmid_task _ _ _ Hk Ht)). unfold is_live. by destruct (task_state tk).
Qed.

Lemma wf_gone s t tk : wf s -> g_intrpt_nested_level s = 0 -> g_tasks s !! t = Some tk -> task_state tk = K_DELETED ->
  t ∉ task_head (g_kobj_list s) -> gone t s.
Proof.
  intros Hwf Hn Ht Hd Hl. pose proof (kp_core _ (kp_mid _ (wf_pre _ Hwf))) as [Hrq Htask _ Hblk Htick Hmx _].
  assert (Hheld : held (g_tasks s) t = []). { unfold held. rewrite (tview_lookup _ _ _ _ _ Ht). unfold held_of, is_live. by rewrite Hd. }
  split; [by exists tk| | | | | |done].
  - intros <-. destruct (active_rdy _ Hwf Hn) as (ak & Ha & Hr). congruence.
  - intros p Hin. apply (rq_in _ _ Hrq) in Hin. unfold ready in Hin. rewrite (tview_lookup _ _ _ _ _ Ht) in Hin.
    unfold ready_of in Hin. by rewrite Hd in Hin.
  - intros o ob Ho Hin. apply (bk_in _ _ _ Hblk _ _ _ Ho) in Hin. unfold waits in Hin. rewrite (tview_lookup _ _ _ _ _ Ht) in Hin.
    unfold waits_of, is_pending in Hin. by rewrite Hd in Hin.
  - intros Hin. apply (ti_in _ _ _ _ _ Htick) in Hin. unfold ticking in Hin. rewrite (tview_lookup _ _ _ _ _ Ht) in Hin.
    destruct (tk_tick _ (Htask _ _ Ht) Hin) as [H|H]; unfold is_pending, is_sleeping in H; by rewrite Hd in H.
  - intros o ob Ho Hty Hown. assert (Hin : o ∈ held (g_tasks s) t); [|rewrite Hheld in Hin; by apply elem_of_nil in Hin].
    apply (mx_in _ _ Hmx). unfold own. rewrite decide_False, Ho by done. cbn. unfold owner_of. by rewrite Hty.
Qed.

(** the two halves of a deletion *)
Lemma freed_given t chain T objs T1 objs1 T' objs' : gives t chain T objs T1 objs1 -> unlinks t T1 objs1 T' objs' ->
  Forall (fun m => given t m objs T' objs') chain.
Proof. intros Hg Hu. eapply Forall_impl; [apply Hg|]. intros m Hm. eapply given_unlinks; [exact Hm|exact Hu]. Qed.

Lemma wp_krhino_task_del s task tk :
  let t := default (g_active_task s) task in
  wf s -> g_tasks s !! t = Some tk -> task_state tk <> K_DELETED ->
  wp (krhino_task_del task) (fun r s' => wf s' /\ del_spec s t tk K_OBJ_STATIC_ALLOC r s') s.
Proof.
  intros t Hwf Ht Hdel. unfold krhino_task_del.
  apply wp_keeps_checks; [intros H; split; [done|by apply del_intrpt]|intros Hn].
  pose proof (kp_sched _ (kp_mid _ (wf_pre _ Hwf))) as Hsch. destruct (so_nested _ _ _ _ Hsch) as [Hn0 _].
  kstart Hwf. kstep. kstep. fold t. do 2 kstep.
  destruct (Z.eqb_spec (prio tk) RHINO_IDLE_PRI) as [|Hi]; [kstep; rewrite kput_eta; split; [done|by apply del_idle]|].
  destruct (Z.eqb_spec (mm_alloc_flag tk) K_OBJ_STATIC_ALLOC) as [Hf|Hf]; cbn [negb];
    [|kstep; rewrite kput_eta; split; [done|by apply del_flag]].
  do 2 kstep. destruct (bool_decide (t = g_active_task s) && (0 <? g_sched_lock s)) eqn:Hlk.
  { apply andb_true_iff in Hlk as [?%bool_decide_eq_true ?%Z.ltb_lt]. kstep. rewrite kput_eta. split; [done|by apply del_locked]. }
  assert (Hlk' : t = g_active_task s -> ~ 0 < g_sched_lock s).
  { intros E H. rewrite bool_decide_eq_true_2 in Hlk by done. by apply Z.ltb_ge in Hlk; lia. }
  assert (Hti := active_prio_idle _ _ _ Hmid Ht Hi). assert (Hl := live_not_deleted _ _ _ Hmid Ht Hdel).
  kstep. eapply wp_task_mutex_free; [exact Hpre|exact Ht|exact Hl|exact Hti|]. intros T' objs' rq' th' Hfr Hg.
  eapply wp_task_unlink; [rewrite (gi_self _ _ _ _ _ _ Hg); exact Ht|exact Hl|exact Hti|exact Hfr|exact Hlk'|].
  intros T2 objs2 rq2 th2 Hk2 Hun. pose proof Hun as [(tk' & Htk' & Hd') _ _]. do 2 kstep.
  eapply wp_exit_sched; [exact (kpre_kobj_list _ _ Hk2)|]. intros s' Hwf' (p & a & ->). split; [exact Hwf'|].
  apply del_ok; [|by eapply freed_given|done].
  eapply wf_gone; [exact Hwf'|cbn; lia|exact Htk'|exact Hd'|]. cbn. by intros [? _]%elem_of_klist_del.
Qed.

(** the object [g_res_sem] can count one more block to free *)
Definition res_sem_room (s : kstate) : Prop :=
  exists ob count peak, g_objs s !! g_res_sem = Some ob /\ obj_type ob = RHINO_SEM_OBJ_TYPE /\
    body ob = KSem count peak /\ count <> SEM_COUNT_MAX.

(** the kernel with the scheduler locked once more, or once less *)
Lemma wf_lock_more s l : wf s -> g_intrpt_nested_level s = 0 -> 0 < l < 2 ^ 8 -> wf (set_g_sched_lock l s).
Proof.
  intros [[[Hc Hpi [Hi Hu Ha Hl Hnn Hr]] Hno] Hrdy Htop] Hn Hlk. split; cbn; [|done|lia].
  split; cbn; [|done]. split; cbn; [done..|]. split; try done; [lia|]. intros _. by apply Hrdy.
Qed.

(** the semaphore given while the memory of [t] is handed over *)
Record sent (s : kstate) (t : nat) (tk : ktask) (s' : kstate) (tk' : ktask) : Prop := {
  sn_handed : handed s t s';
  sn_objs : forall o, o <> g_res_sem -> g_objs s' !! o = g_objs s !! o;
  sn_task : g_tasks s' !! t = Some tk';
  sn_live : is_live tk' = true;
  sn_mutex : mutex_list tk' = mutex_list tk
}.

Lemma give_room s t tk r s' ob : let s1 := set_g_res_list (g_res_list s ++ [t]) (set_g_sched_lock (g_sched_lock s + 1) s) in
  kmid s -> res_sem_room s -> g_objs s !! g_res_sem = Some ob -> give_spec s1 g_res_sem ob false r s' ->
  g_tasks s !! t = Some tk -> is_live tk = true -> r = Ret RHINO_SUCCESS /\ exists tk', sent s t tk s' tk'.
Proof.
  intros s1 Hk (ob' & count & peak & Ho' & Hty & Hb & Hne) Ho Hg Ht Hl. assert (ob' = ob) as -> by congruence.
  destruct Hg as [|p' _ Hsb|c p' Hbl Hsb _|u l s' Hbl _ HT HO HR|s' _ [=] _ _]; [done| | |].
  - unfold sem_body in Hsb. rewrite Hb in Hsb. by simplify_eq.
  - split; [done|]. exists tk. unfold sem_body in Hsb. rewrite Hb in Hsb. injection Hsb as -> ->. split; [|intros o Hno|done..].
    + split; [done|]. intros ob1 c1 p1 Ho1 Hb1. cbn in Ho1. simplify_eq. rewrite Hb in Hb1. injection Hb1 as <- <-.
      eexists. split; [apply lookup_insert_eq|]. by rewrite Hbl.
    + by apply lookup_insert_ne.
  - split; [done|]. cbn in HT, HO, HR.
    assert (Hw : waits (g_tasks s) u = Some g_res_sem).
    { apply (bk_in _ _ _ (c_blk _ _ _ _ _ _ _ (kp_core _ Hk)) _ _ u Ho). rewrite Hbl. left. }
    destruct (waits_inv _ _ _ Hw) as (uk & Hu & Hp & _).
    assert (Hwk : exists tk', g_tasks s' !! t = Some tk' /\ is_live tk' = true /\ mutex_list tk' = mutex_list tk).
    { rewrite HT. destruct (decide (t = u)) as [->|Hne'].
      - rewrite lookup_alter_eq, Ht. eexists. split; [done|]. unfold is_live in *. cbn. by destruct (task_state tk).
      - rewrite lookup_alter_ne by done. by exists tk. }
    destruct Hwk as (tk' & H1 & H2 & H3). exists tk'. split; [|intros o Hno; rewrite HO; by apply lookup_insert_ne|done..].
    split; [exact HR|]. intros ob1 c1 p1 Ho1 Hb1. simplify_eq. eexists. rewrite HO. split; [apply lookup_insert_eq|]. rewrite Hbl.
    split; [done|]. intros _. rewrite HT, lookup_alter_eq, Hu. eexists. split; [done|]. split; [|done].
    unfold is_pending in *. cbn. by destruct (task_state uk).
Qed.

(** the rest of the deletion keeps it *)
Lemma handed_after s t s1 chain T1 objs1 s' : handed s t s1 -> (exists ob count peak, g_objs s !! g_res_sem = Some ob /\ body ob = KSem count peak) ->
  gives t chain (g_tasks s1) (g_objs s1) T1 objs1 -> unlinks t T1 objs1 (g_tasks s') (g_objs s') -> g_res_list s' = g_res_list s1 ->
  (g_res_sem ∉ chain) /\ handed s t s'.
Proof.
  intros [Hl Hs] (ob & count & peak & Ho & Hb) Hg Hu Hr. destruct (Hs _ _ _ Ho Hb) as (ob1 & Ho1 & H1).
  assert (Hns : exists c p, body ob1 = KSem c p) by (destruct (blk_list ob); [eauto|destruct H1; eauto]).
  assert (Hno : g_res_sem ∉ chain).
  { intros Hin. pose proof (gi_given _ _ _ _ _ _ Hg) as Hf. rewrite Forall_forall in Hf.
    destruct (Hf _ Hin) as (ob2 & n & _ & Ho2 & Hb2 & _). destruct Hns as (c & p & Hc). congruence. }
  split; [done|]. split; [congruence|]. intros ob2 c2 p2 Ho2 Hb2. simplify_eq.
  pose proof (gi_objs _ _ _ _ _ _ Hg _ Hno) as E. rewrite Ho1 in E. destruct (un_objs _ _ _ _ _ Hu _ _ E) as (ob' & Ho' & Hb').
  exists ob'. split; [done|]. rewrite Hb'. rewrite Hb in Hb2. injection Hb2 as <- <-. destruct (blk_list ob) as [|u l]; [done|].
  destruct H1 as [H1 H2]. split; [done|]. intros Hne. destruct (H2 Hne) as (uk & Huk & Hp & Hbs).
  destruct (un_tasks _ _ _ _ _ Hu u uk Hne) as (p & Hp'); [by apply (gi_keep _ _ _ _ _ _ Hg)|]. by exists (set_prio p uk).
Qed.

Lemma sent_given s t tk s1 tk1 T' objs' : sent s t tk s1 tk1 -> g_res_sem ∉ mutex_list tk1 ->
  Forall (fun m => given t m (g_objs s1) T' objs') (mutex_list tk1) -> Forall (fun m => given t m (g_objs s) T' objs') (mutex_list tk).
Proof.
  intros Hs Hno Hf. rewrite <- (sn_mutex _ _ _ _ _ Hs). rewrite Forall_forall in Hf |- *. intros m Hm.
  eapply given_later; [|by apply Hf]. apply (sn_objs _ _ _ _ _ Hs). by intros ->.
Qed.

(** from the lock to the unlock *)
Lemma wp_hand_to_dyn_mem s t tk (k : kret -> K kret) (Q : kret -> kstate -> Prop) :
  wf s -> g_intrpt_nested_level s = 0 -> 0 <= g_sched_lock s < 2 ^ 8 - 1 -> res_sem_room s ->
  g_tasks s !! t = Some tk -> is_live tk = true -> (t = g_active_task s -> ~ 0 < g_sched_lock s) ->
  (forall s' tk', kpre s' -> sent s t tk s' tk' -> frame s s' ->
     (t = g_active_task s' -> ~ 0 < g_sched_lock s') -> wp (k (Ret RHINO_SUCCESS)) Q s') ->
  wp (modify (set_g_sched_lock (u8 (g_sched_lock s + 1)));;
      modify (fun s => set_g_res_list (g_res_list s ++ [t]) s);;
      r ← krhino_sem_give (Some g_res_sem);
      modify (fun s => set_g_sched_lock (u8 (g_sched_lock s - 1)) s);;
      k r) Q s.
Proof.
  intros Hwf Hn Hlk Hroom Ht Hl Hact HQ. pose proof Hroom as (ob & count & peak & Ho & _).
  rewrite u8_small by lia. apply wp_bind, wp_modify, wp_bind, wp_modify, wp_bind.
  set (s1 := set_g_res_list _ _).
  assert (Hwf1 : wf s1).
  { apply (wf_same (set_g_sched_lock (g_sched_lock s + 1) s)); [done|]. apply wf_lock_more; [done..|lia]. }
  eapply wp_mono; [|apply (wp_frames _ (fun r s' => wf s' /\ give_spec s1 g_res_sem ob false r s') s1);
    [typeclasses eauto with frames|by apply wp_sem_give]].
  cbv beta. intros r s2 ((Hwf2 & Hg) & [Hst Hsw Hsp]). injection Hst as Hl2 Hn2 Hc2 Hs2. cbn in Hl2, Hn2.
  destruct (give_room s t tk r s2 ob) as (-> & tk' & Hsent); [apply Hwf|done..|]. apply wp_bind, wp_modify.
  rewrite Hl2. replace (g_sched_lock s + 1 - 1) with (g_sched_lock s) by lia. rewrite u8_small by lia.
  apply (HQ _ tk'); cbn.
  - apply kpre_lock; [apply Hwf2|apply Hwf2; lia|lia].
  - by destruct Hsent.
  - split; cbn; [|intros _; rewrite Hsw; [done|left; cbn; lia]|exact Hsp]. unfold statics. cbn. by rewrite Hn2, Hc2, Hs2.
  - rewrite Hsw by (left; cbn; lia). exact Hact.
Qed.

Lemma wp_krhino_task_dyn_del s task tk :
  let t := default (g_active_task s) task in
  wf s -> g_tasks s !! t = Some tk -> g_sched_lock s < 2 ^ 8 - 1 -> res_sem_room s ->
  wp (krhino_task_dyn_del task) (fun r s' => (wf s' /\ del_spec s t tk K_OBJ_DYN_ALLOC r s') /\ frame s s') s.
Proof.
  intros t Hwf Ht Hlk Hroom. unfold krhino_task_dyn_del.
  assert (Hret : forall st, del_spec s t tk K_OBJ_DYN_ALLOC (Ret st) s ->
    (wf s /\ del_spec s t tk K_OBJ_DYN_ALLOC (Ret st) s) /\ frame s s) by done.
  apply wp_keeps_checks; [intros H; by apply Hret, del_intrpt|intros Hn].
  pose proof (kp_sched _ (kp_mid _ (wf_pre _ Hwf))) as Hsch. destruct (so_nested _ _ _ _ Hsch) as [Hn0 _].
  destruct (so_lock _ _ _ _ Hsch) as [Hlk0 _].
  kstart Hwf. kstep. kstep. fold t. do 2 kstep. rewrite kput_eta in *.
  destruct (Z.eqb_spec (prio tk) RHINO_IDLE_PRI) as [|Hi]; [kstep; by apply Hret, del_idle|].
  destruct (Z.eqb_spec (mm_alloc_flag tk) K_OBJ_DYN_ALLOC) as [Hf|Hf]; cbn [negb]; [|kstep; by apply Hret, del_flag].
  apply wp_bind, wp_gets. destruct (bool_decide (t = g_active_task s) && (0 <? g_sched_lock s)) eqn:Hl.
  { apply andb_true_iff in Hl as [?%bool_decide_eq_true ?%Z.ltb_lt]. kstep. by apply Hret, del_locked. }
  destruct (decide (task_state tk = K_DELETED)) as [Hd|Hd].
  { rewrite bool_decide_eq_true_2 by done. kstep. by apply Hret, del_dead. }
  rewrite (bool_decide_eq_false_2 (task_state tk = K_DELETED)) by done.
  assert (Hact : t = g_active_task s -> ~ 0 < g_sched_lock s).
  { intros E H. rewrite bool_decide_eq_true_2 in Hl by done. by apply Z.ltb_ge in Hl; lia. }
  assert (Hti := active_prio_idle _ _ _ Hmid Ht Hi). assert (Hlive := live_not_deleted _ _ _ Hmid Ht Hd).
  eapply (wp_hand_to_dyn_mem s t tk _ _ Hwf); [lia|lia|exact Hroom|exact Ht|exact Hlive|exact Hact|].
  intros s1 tk1 Hk1 Hsent Hfr1 Hact1. cbv beta iota zeta. pose proof Hsent as [Hhd _ Ht1 Hl1 _].
  eapply wp_mono; [|apply (wp_frames _ (fun r s' => wf s' /\ del_spec s t tk K_OBJ_DYN_ALLOC r s'));
    [apply frames_bind; [auto with frames|apply frames_task_mutex_free; auto with frames|intros _; apply frames_task_unlink; [auto with frames|solve_call..]]|]].
  { cbv beta. intros r s' [Hq Hf']. split; [exact Hq|by etrans]. }
  apply wp_kput. pose proof Hk1 as Hk1'. rewrite <- (kput_eta s1) in Hk1'.
  kstep. eapply wp_task_mutex_free; [exact Hk1'|exact Ht1|exact Hl1|exact Hti|]. intros T' objs' rq' th' Hfr Hg.
  eapply wp_task_unlink; [rewrite (gi_self _ _ _ _ _ _ Hg); exact Ht1|exact Hl1|exact Hti|exact Hfr|exact Hact1|].
  intros T2 objs2 rq2 th2 Hk2 Hun. pose proof Hun as [(tk' & Htk' & Hd') _ _]. do 2 kstep.
  eapply wp_exit_sched; [exact (kpre_kobj_list _ _ Hk2)|]. intros s' Hwf' (p & a & ->). split; [exact Hwf'|].
  pose proof (fm_statics _ _ Hfr1) as Hst. unfold statics in Hst. injection Hst as _ Hn1 _ _.
  destruct (handed_after s t s1 (mutex_list tk1) T' objs' (kput T2 objs2 rq2 th2 s1)) as [Hno Hh]; [exact Hhd| |exact Hg|exact Hun|done|].
  { destruct Hroom as (ob & c & pk & Ho & _ & Hb & _). eauto. }
  apply del_ok; [|eapply (sent_given _ _ _ _ _ _ _ Hsent Hno), freed_given; [exact Hg|exact Hun]|exact Hh].
  eapply wf_gone; [exact Hwf'|cbn; lia|exact Htk'|exact Hd'|]. cbn. by intros [? _]%elem_of_klist_del.
Qed.
