(* ===== verification/Time.v ===== *)
(** * Ticks and time ([core/k_time.c], [tick_list_update] of [core/k_tick.c]) *)

From S2P Require Import Prelude Config State Sched Inv Tick Pend PriChange KInv Mutex Task.

(** ** The code *)

(** the tick count has reached the time of the task *)
Definition tick_expire (t : nat) : K unit :=
  tk ← get_task t;
  match task_state tk with
  | K_SLEEP =>
      upd_task t (set_blk_state BLK_FINISH);;
      upd_task t (set_task_state K_RDY);;
      tick_list_rm t;;
      ready_list_add t
  | K_PEND =>
      tick_list_rm t;;
      (* remove task on the block list because task is timeout *)
      klist_rm_task t;;
      ready_list_add t;;
      upd_task t (set_blk_state BLK_TIMEOUT);;
      upd_task t (set_task_state K_RDY);;
      mutex_task_pri_reset t;;
      upd_task t (set_blk_obj None)
  | K_PEND_SUSPENDED =>
      tick_list_rm t;;
      (* remove task on the block list because task is timeout *)
      klist_rm_task t;;
      upd_task t (set_blk_state BLK_TIMEOUT);;
      upd_task t (set_task_state K_SUSPENDED);;
      mutex_task_pri_reset t;;
      upd_task t (set_blk_obj None)
  | K_SLEEP_SUSPENDED =>
      upd_task t (set_task_state K_SUSPENDED);;
      upd_task t (set_blk_state BLK_FINISH);;
      tick_list_rm t
  | _ => k_err_proc RHINO_SYS_FATAL_ERR
  end.

(** the loop over the list as it is when the tick arrives: [iter_temp] is read
    before the task is unlinked, and no other task is unlinked *)
Fixpoint tick_update_loop (l : list nat) : K unit :=
  match l with
  | [] => mret tt
  | t :: l' =>
      tk ← get_task t;
      now ← gets g_tick_count;
      let delta := i64 (tick_match tk - now) in
      if delta <=? 0 then tick_expire t;; tick_update_loop l' else mret tt
  end.

Definition tick_list_update (ticks : Z) : K unit :=
  modify (fun s => set_g_tick_count (u64 (g_tick_count s + ticks)) s);;
  l ← gets g_tick_head;
  tick_update_loop l.

Definition krhino_tick_proc : K unit :=
  tick_list_update 1;;
  time_slice_update.

Definition krhino_sys_tick_get : K Z := gets g_tick_count.

Definition krhino_sys_time_get : K Z :=
  tick ← krhino_sys_tick_get;
  mret (u64 (tick * 1000) / RHINO_CONFIG_TICKS_PER_SECOND).

(** [sys_time_t] and [tick_t] have 64 bits, [surplus] and [padding] 16 and 32 *)
Definition krhino_ms_to_ticks (ms : Z) : Z :=
  let surplus := u16 (ms mod 1000) in
  let ticks := u64 ((ms / 1000) * RHINO_CONFIG_TICKS_PER_SECOND) in
  let padding := u16 (1000 / RHINO_CONFIG_TICKS_PER_SECOND) in
  let padding := if 0 <? padding then padding - 1 else 0 in
  u64 (ticks + ((surplus + padding) * RHINO_CONFIG_TICKS_PER_SECOND) / 1000).

Definition krhino_ticks_to_ms (ticks : Z) : Z :=
  let surplus := u32 (ticks mod RHINO_CONFIG_TICKS_PER_SECOND) in
  let time := u64 ((ticks / RHINO_CONFIG_TICKS_PER_SECOND) * 1000) in
  let padding := u32 (RHINO_CONFIG_TICKS_PER_SECOND / 1000) in
  let padding := if 0 <? padding then padding - 1 else 0 in
  u64 (time + u32 ((u32 (surplus + padding) * 1000)) / RHINO_CONFIG_TICKS_PER_SECOND).

(** ** One tick *)

(** [kpre] while the list is searched: the tasks at its head may be due *)
Record ktick (s : kstate) : Prop := {
  kt_core : core None (g_tasks s) (g_objs s) (g_ready_queue s) (g_tick_head s) 0 (g_tick_count s);
  kt_pi : pi_all (g_tasks s);
  kt_sched : sched_ok (g_tasks s) (g_active_task s) (g_sched_lock s) (g_intrpt_nested_level s);
  kt_none : none_ok (g_objs s)
}.

(** a task whose time has come *)
Definition expired (tk : ktask) : ktask :=
  if is_pending tk then woken BLK_TIMEOUT tk
  else set_tick_head false (set_blk_state BLK_FINISH (set_task_state (awake_state (task_state tk)) tk)).

Lemma expired_prio p tk : expired (set_prio p tk) = set_prio p (expired tk).
Proof. unfold expired. change (is_pending (set_prio p tk)) with (is_pending tk). by destruct (is_pending tk). Qed.

Section expire.
Context (T : gmap nat ktask) (objs : gmap nat kobj) (rq : runqueue_t) (th : list nat) (s : kstate).
Context (Hk : ktick (kput T objs rq th s)) (t : nat) (tk : ktask) (Ht : T !! t = Some tk) (Hth : tick_head tk = true).

Definition expire_post (Q : unit -> kstate -> Prop) : Prop :=
  forall T' objs' rq', ktick (kput T' objs' rq' (klist_del t th) s) -> prio_change (<[t := expired tk]> T) T' ->
    Q tt (kput T' objs' rq' (klist_del t th) s).

Lemma expire_ok : task_ok tk.
Proof using Hk Ht. by apply (c_task _ _ _ _ _ _ _ (kt_core _ Hk) t). Qed.

Lemma expire_not_idle : t <> g_idle_task.
Proof using Hk Ht Hth.
  intros E. destruct (so_idle _ _ _ _ (kt_sched _ Hk)) as (ik & Hik & Hst & _). cbn in Hik.
  assert (ik = tk) as -> by congruence.
  destruct (tk_tick _ expire_ok Hth) as [H|H]; unfold is_pending, is_sleeping in H; by rewrite Hst in H.
Qed.

Lemma expire_locked tk' : b_prio tk' = b_prio tk ->
  sched_ok (<[t := tk']> T) (g_active_task s) (g_sched_lock s) (g_intrpt_nested_level s).
Proof using Hk Ht Hth.
  intros Hb. eapply sched_upd; [apply (kt_sched _ Hk)|exact Ht|apply expire_not_idle|done|].
  intros E Hl. destruct (so_locked _ _ _ _ (kt_sched _ Hk) Hl) as [p Hp]. cbn in Hp. unfold ready in Hp.
  rewrite <- E, (tview_lookup _ _ _ _ _ Ht) in Hp. unfold ready_of in Hp.
  destruct (tk_tick _ expire_ok Hth) as [H|H]; unfold is_pending, is_sleeping in H; by destruct (task_state tk).
Qed.

(** a sleeping task *)
Lemma expire_sleep rq' : is_sleeping tk = true -> rq_ok (ready (<[t := expired tk]> T)) rq' ->
  ktick (kput (<[t := expired tk]> T) objs rq' (klist_del t th) s).
Proof using Hk Ht Hth.
  intros Hs Hrq. pose proof Hk as [Hc Hpi _ Hn]. pose proof expire_ok as Hok.
  assert (Hp : is_pending tk = false) by (unfold is_sleeping, is_pending in *; by destruct (task_state tk)).
  assert (Hstep : task_step tk (expired tk)).
  { unfold expired. rewrite Hp. split; try done.
    - destruct Hok as [? ? ? ? ? ? ?]. unfold is_sleeping in Hs.
      split; unfold is_pending, is_sleeping, is_suspended in *; cbn; destruct (task_state tk); try done; auto.
    - unfold waits_of, is_pending. unfold is_sleeping in Hs. cbn. by destruct (task_state tk).
    - unfold is_live. unfold is_sleeping in Hs. cbn. by destruct (task_state tk). }
  split; cbn.
  - eapply core_task_step; [exact Ht|exact Hstep|exact Hc| |].
    + unfold ready in *. by rewrite tview_insert in Hrq.
    + unfold expired. rewrite Hp. cbn. rewrite (fupd_id (matchV T)); [by apply tick_del, Hc|].
      by apply (tview_lookup tick_match).
  - by eapply pi_task_step.
  - apply expire_locked. unfold expired. by rewrite Hp.
  - exact Hn.
Qed.

Lemma wp_expire_sleep (Q : unit -> kstate -> Prop) : is_sleeping tk = true -> expire_post Q ->
  wp (tick_expire t) Q (kput T objs rq th s).
Proof using Hk Ht Hth.
  intros Hs HQ. pose proof Hk as [Hc _ _ _]. cbn in Hc. pose proof expire_ok as Hok.
  destruct (so_active _ _ _ _ (kt_sched _ Hk)) as [ak Ha]. cbn in Ha.
  assert (Hp : is_pending tk = false) by (unfold is_sleeping, is_pending in *; by destruct (task_state tk)).
  assert (Hr : ready T t = None).
  { unfold ready. rewrite (tview_lookup _ _ _ _ _ Ht). unfold ready_of, is_sleeping in *. by destruct (task_state tk). }
  assert (Hfin : forall rq', rq_ok (fupd (ready T) t (match task_state tk with
      | K_PEND | K_SLEEP => Some (prio tk) | _ => None end)) rq' ->
    Q tt (kput (<[t := expired tk]> T) objs rq' (klist_del t th) s)).
  { intros rq' Hrq'. apply HQ; [|done]. apply expire_sleep; [done|].
    rewrite (ready_awake T t tk (expired tk)); [exact Hrq'|exact Ht|by right|unfold expired; by rewrite Hp..]. }
  unfold expired in Hfin. rewrite Hp in Hfin. unfold tick_expire. do 2 kstep.
  unfold is_sleeping in Hs. destruct (task_state tk) eqn:Hst; try done.
  - do 4 kstep. kstep. eapply wp_tick_list_rm; [|apply lookup_insert_eq|].
    { unfold ticking, matchV. rewrite !(tview_same _ _ T t tk) by done. apply Hc. }
    rewrite insert_insert_eq. eapply wp_ready_list_add; [|apply lookup_insert_eq| | |apply Hok|].
    + apply Hc.
    + apply lookup_insert_is_Some'. right. by exists ak.
    + exact Hr.
    + intros rq' Hrq'. by apply Hfin.
  - do 4 kstep. eapply wp_tick_list_rm; [|apply lookup_insert_eq|].
    { unfold ticking, matchV. rewrite !(tview_same _ _ T t tk) by done. apply Hc. }
    rewrite insert_insert_eq. apply Hfin. rewrite fupd_id; [apply Hc|exact Hr].
Qed.
End expire.

Section expire_pend.
Context (T : gmap nat ktask) (objs : gmap nat kobj) (rq : runqueue_t) (th : list nat) (s : kstate).
Context (Hk : ktick (kput T objs rq th s)) (t : nat) (tk : ktask) (Ht : T !! t = Some tk) (Hth : tick_head tk = true).
Context (Hp : is_pending tk = true).

(** the task before [blk_obj] is cleared *)
Abbreviation late := (set_task_state (awake_state (task_state tk)) (set_blk_state BLK_TIMEOUT (set_tick_head false tk))).

Lemma late_ok : task_ok late.
Proof using Hk Ht Hp.
  pose proof (c_task _ _ _ _ _ _ _ (kt_core _ Hk) _ _ Ht) as [? ? ? ? ? ? ?].
  split; unfold is_pending, is_sleeping, is_suspended in *; cbn; destruct (task_state tk); try done; auto.
Qed.

(** a task whose wait has timed out: the owner of the mutex it waited for may
    lose priority *)
Lemma wp_expire_reset o ob (Q : unit -> kstate -> Prop) rq' :
  blk_obj tk = Some o -> objs !! o = Some ob -> rq_ok (ready (<[t := late]> T)) rq' -> expire_post T th s t tk Q ->
  wp (mutex_task_pri_reset t;; upd_task t (set_blk_obj None)) Q
    (kput (<[t := late]> T) (<[o := unlinked t ob]> objs) rq' (klist_del t th) s).
Proof using Hk Ht Hth Hp.
  intros Hb Ho Hrq' HQ. pose proof Hk as [Hc Hpi Hs Hn]. cbn in Hc, Hpi, Hs, Hn.
  assert (Hw : waits T t = Some o) by (by eapply woken_waits).
  assert (Hc' : core None (<[t := late]> T) (<[o := unlinked t ob]> objs) rq' (klist_del t th) 0 (g_tick_count s)).
  { eapply unlink_core; try done; [apply late_ok| |]; unfold is_pending, held_of, is_live in *; cbn;
      by destruct (task_state tk). }
  assert (Hs' := expire_locked _ _ _ _ _ Hk t tk Ht Hth late eq_refl).
  assert (Hown : own None (<[o := unlinked t ob]> objs) ≐ own None objs) by (by eapply own_same).
  assert (HW : waits (<[t := late]> T) ≐ fupd (waits T) t None).
  { unfold waits. rewrite tview_insert. unfold waits_of at 2, is_pending. unfold is_pending in Hp. cbn.
    by destruct (task_state tk). }
  kstep. eapply (wp_mutex_task_pri_reset _ _ None 0 g_idle_task); [done|exact Hc'|apply lookup_insert_eq|exact Hb|
    apply lookup_insert_eq|by rewrite (HW t), fupd_eq| |by eapply sched_idle_ready| |].
  - intros Hty. rewrite (Hown o). destruct (c_mwait _ _ _ _ _ _ _ Hc t o ob) as (v & Hv & _); [done..|congruence].
  - assert (HP : prioV (<[t := late]> T) ≐ prioV T) by (by eapply tview_same).
    assert (HB : bprioV (<[t := late]> T) ≐ bprioV T) by (by eapply tview_same).
    assert (HL : live (<[t := late]> T) ≐ live T).
    { eapply tview_same; [exact Ht|]. unfold is_live, is_pending in *. cbn. by destruct (task_state tk). }
    assert (HH : held (<[t := late]> T) ≐ held T).
    { eapply tview_same; [exact Ht|]. unfold held_of, is_live, is_pending in *. cbn. by destruct (task_state tk). }
    rewrite HP, HB, HL, HH, HW, fupd_fupd, fupd_id by done. exact Hpi.
  - intros T2 objs2 rq2 Hc2 HT2 Hobjs2 Hpi2.
    destruct (same_keys_lookup _ _ _ _ _ HT2 (lookup_insert_eq _ _ _)) as (tk2 & Htk2 & p & ->).
    assert (Hn2 : none_ok objs2).
    { eapply none_members; [|exact Hobjs2|apply Hc'|apply Hc2|].
      - apply none_insert; [exact Hn|]. cbn. intros Hty. by rewrite (Hn _ _ Ho Hty).
      - intros u q. by rewrite (same_view_waits _ _ u HT2). }
    kstep. apply HQ.
    + assert (Hstep : task_step (set_prio p late) (set_blk_obj None (set_prio p late))).
      { pose proof (c_task _ _ _ _ _ _ _ Hc2 _ _ Htk2) as [? ? ? ? ? ? ?].
        split; try done; [split|]; unfold waits_of, is_pending, is_sleeping, is_suspended in *; cbn in *;
          destruct (task_state tk); try done; auto. }
      split; cbn.
      * eapply core_task_step; [exact Htk2|exact Hstep|exact Hc2| |].
        -- rewrite fupd_id; [apply Hc2|]. exact (tview_lookup ready_of None _ _ _ Htk2).
        -- eapply tick_ok_keep; [apply Hc2|exact Htk2|done..].
      * by eapply pi_task_step.
      * eapply sched_upd; [by eapply sched_prio|exact Htk2|by eapply expire_not_idle|done|].
        intros E Hl. cbn. destruct (so_locked _ _ _ _ Hs Hl) as [q Hq].
        rewrite <- E in Hq. rewrite (woken_not_ready _ _ _ Ht Hp) in Hq. done.
      * exact Hn2.
    + unfold expired. rewrite Hp. intros u. specialize (HT2 u). destruct (decide (u = t)) as [->|Hne].
      * rewrite !lookup_insert_eq. by exists p.
      * by rewrite !lookup_insert_ne in * by done.
Qed.

Lemma wp_expire_pend (Q : unit -> kstate -> Prop) : expire_post T th s t tk Q ->
  wp (tick_expire t) Q (kput T objs rq th s).
Proof using Hk Ht Hth Hp.
  intros HQ. pose proof Hk as [Hc _ Hs _]. cbn in Hc, Hs. pose proof (c_task _ _ _ _ _ _ _ Hc _ _ Ht) as Hok.
  destruct (so_active _ _ _ _ Hs) as [ak Ha]. destruct (blk_obj tk) as [o|] eqn:Hb; [|by destruct (tk_pend _ Hok Hp)].
  assert (Hw : waits T t = Some o) by (by eapply woken_waits). assert (Hr := woken_not_ready _ _ _ Ht Hp).
  destruct (bk_obj _ _ _ (c_blk _ _ _ _ _ _ _ Hc) _ _ Hw) as [ob Ho].
  assert (Hrun := fun rq' => wp_expire_reset o ob Q rq' Hb Ho).
  assert (Hra : ready (<[t := late]> T) ≐ fupd (ready T) t (match task_state tk with
      | K_PEND | K_SLEEP => Some (prio tk) | _ => None end)) by (apply ready_awake; auto).
  unfold tick_expire. do 2 kstep. pose proof Hp as Hp'. unfold is_pending in Hp'.
  destruct (task_state tk) eqn:Hst; try done.
  - kstep. eapply wp_tick_list_rm; [apply Hc|exact Ht|]. kstep. eapply wp_klist_rm_task; [apply Hc|exact Hw|exact Ho|].
    kstep. eapply wp_ready_list_add; [apply Hc|apply lookup_insert_eq| | |apply Hok|].
    + apply lookup_insert_is_Some'. right. by exists ak.
    + exact Hr.
    + intros rq' Hrq'. do 4 kstep. apply Hrun; [by rewrite Hra|exact HQ].
  - kstep. eapply wp_tick_list_rm; [apply Hc|exact Ht|]. kstep. eapply wp_klist_rm_task; [apply Hc|exact Hw|exact Ho|].
    do 4 kstep. apply Hrun; [|exact HQ]. rewrite Hra, fupd_id; [apply Hc|exact Hr].
Qed.
End expire_pend.

Lemma wp_tick_expire T objs rq th s t tk (Q : unit -> kstate -> Prop) :
  ktick (kput T objs rq th s) -> T !! t = Some tk -> tick_head tk = true -> expire_post T th s t tk Q ->
  wp (tick_expire t) Q (kput T objs rq th s).
Proof.
  intros Hk Ht Hth HQ. destruct (tk_tick _ (c_task _ _ _ _ _ _ _ (kt_core _ Hk) _ _ Ht) Hth).
  - by eapply wp_expire_pend.
  - by eapply wp_expire_sleep.
Qed.

(** ** The search *)

(** the tasks the search takes when the counter is [now] *)
Fixpoint due (Mt : nat -> Z) (now : Z) (l : list nat) : list nat :=
  match l with
  | [] => []
  | t :: l' => if i64 (Mt t - now) <=? 0 then t :: due Mt now l' else []
  end.

Lemma due_ext Mt Mt' now l : Mt ≐ Mt' -> due Mt now l = due Mt' now l.
Proof. intros HM. induction l as [|t l IH]; [done|]. cbn. by rewrite IH, (HM t). Qed.

Lemma wake_tasks_prio l T T' : prio_change T T' -> prio_change (wake_tasks expired l T) (wake_tasks expired l T').
Proof.
  revert T T'. induction l as [|t l IH]; intros T T' HT; [done|]. apply IH. intros u. specialize (HT u).
  destruct (decide (u = t)) as [->|Hne]; [rewrite !lookup_alter_eq|by rewrite !lookup_alter_ne].
  destruct (T !! t) as [tk|], (T' !! t) as [tk'|]; try done. destruct HT as [p ->]. exists p. apply expired_prio.
Qed.

Lemma expired_match T T' t tk : T !! t = Some tk -> prio_change (<[t := expired tk]> T) T' -> matchV T' ≐ matchV T.
Proof.
  intros Ht HT. unfold matchV. rewrite (prio_change_view tick_match _ _ _ (fun _ _ => eq_refl) HT).
  eapply tview_same; [exact Ht|]. unfold expired. by destruct (is_pending tk).
Qed.

Lemma i64_pos_key x : 0 < i64 x -> 1 <= u64 x.
Proof. unfold i64, u64. zlia. Qed.

Lemma ktick_kpre s : ktick s ->
  (forall t l, g_tick_head s = t :: l -> 0 < i64 (matchV (g_tasks s) t - g_tick_count s)) -> kpre s.
Proof.
  intros [Hc Hpi Hs Hn] Hhd. split; [split|]; try done. destruct Hc as [? ? ? ? Htick ? ?]. split; try done.
  destruct Htick as [? ? Hsort _]. split; try done. intros u Hu. destruct (g_tick_head s) as [|t l]; [by apply elem_of_nil in Hu|].
  pose proof (i64_pos_key _ (Hhd _ _ eq_refl)) as H1. apply elem_of_cons in Hu as [->|Hu]; [done|].
  apply StronglySorted_inv in Hsort as [_ Hall]. rewrite Forall_forall in Hall. specialize (Hall _ Hu).
  unfold tick_key in *. lia.
Qed.

Lemma wp_tick_update_loop l : forall T objs rq s (Q : unit -> kstate -> Prop),
  ktick (kput T objs rq l s) ->
  (forall T' objs' rq' l2, kpre (kput T' objs' rq' l2 s) -> l = due (matchV T) (g_tick_count s) l ++ l2 ->
     prio_change (wake_tasks expired (due (matchV T) (g_tick_count s) l) T) T' -> Q tt (kput T' objs' rq' l2 s)) ->
  wp (tick_update_loop l) Q (kput T objs rq l s).
Proof.
  induction l as [|t l IH]; intros T objs rq s Q Hk HQ; cbn [tick_update_loop due] in *.
  - kstep. apply (HQ T objs rq []); [|done..]. by apply ktick_kpre.
  - pose proof (c_tick _ _ _ _ _ _ _ (kt_core _ Hk)) as Htick. cbn in Htick.
    destruct (tick_listed _ _ _ _ t Htick) as (tk & Ht & Hth); [left|]. do 4 kstep.
    assert (Hm : matchV T t = tick_match tk) by (by apply (tview_lookup tick_match)).
    rewrite Hm in HQ. destruct (Z.leb_spec (i64 (tick_match tk - g_tick_count s)) 0).
    + kstep. eapply wp_tick_expire; [exact Hk|exact Ht|exact Hth|]. intros T' objs' rq'.
      assert (t ∉ l) by (by pose proof (ti_nodup _ _ _ _ _ Htick) as [? ?]%NoDup_cons). rewrite klist_del_head by done.
      intros Hk' HT'. apply IH; [exact Hk'|]. rewrite (due_ext (matchV T') (matchV T)) by (by eapply expired_match).
      intros T2 objs2 rq2 l2 Hk2 Hl2 HT2. apply HQ; [exact Hk2|by rewrite Hl2 at 1|]. cbn [wake_tasks].
      rewrite (alter_some _ _ _ _ Ht). etrans; [|exact HT2]. by apply wake_tasks_prio.
    + kstep. apply (HQ T objs rq (t :: l)); [|done..]. apply ktick_kpre; [exact Hk|]. cbn. intros ? ? [= <- <-]. by rewrite Hm.
Qed.

Lemma tick_key_arrives C Mt now l t : tick_ok 1 C Mt now l -> t ∈ l ->
  tick_key Mt (u64 (now + 1)) t = tick_key Mt now t - 1.
Proof.
  intros [_ _ _ Hlo] Ht. specialize (Hlo t Ht). unfold tick_key in *. rewrite u64_sub_r.
  replace (Mt t - (now + 1)) with (Mt t - now - 1) by lia. rewrite <- u64_sub_l. apply u64_small.
  pose proof (u64_range (Mt t - now)). lia.
Qed.

Lemma tick_arrives C Mt now l : tick_ok 1 C Mt now l -> tick_ok 0 C Mt (u64 (now + 1)) l.
Proof.
  intros H. assert (Hkey := fun t => tick_key_arrives C Mt now l t H). destruct H as [Hn Hi Hs Hlo]. split; [done|done| |].
  - eapply StronglySorted_weaken; [|exact Hs]. cbv beta. intros t u Ht Hu. rewrite !Hkey by done. lia.
  - intros t Ht. rewrite Hkey by done. specialize (Hlo t Ht). lia.
Qed.

(** what one tick does to the tasks, up to the priorities of mutex owners *)
Definition tick_spec (s s' : kstate) : Prop :=
  let now := u64 (g_tick_count s + 1) in
  let l := due (matchV (g_tasks s)) now (g_tick_head s) in
  g_tick_count s' = now /\ g_tick_head s = l ++ g_tick_head s' /\
  prio_change (wake_tasks expired l (g_tasks s)) (g_tasks s').

(** what the tick does not touch: it switches no task *)
Definition ctl (s : kstate) : nat * Z * Z * kstat_t * Z :=
  (g_active_task s, g_sched_lock s, g_intrpt_nested_level s, g_sys_stat s, g_idle_task_spawned s).

Lemma wp_tick_list_update s :
  wf s -> wp (tick_list_update 1) (fun _ s' => kpre s' /\ tick_spec s s' /\ ctl s' = ctl s) s.
Proof.
  intros Hwf. kstart Hwf. unfold tick_list_update. kstep. kstep. do 2 kstep.
  change (kput _ _ _ _ _) with (kput (g_tasks s) (g_objs s) (g_ready_queue s) (g_tick_head s)
    (set_g_tick_count (u64 (g_tick_count s + 1)) s)).
  apply wp_tick_update_loop.
  - pose proof Hmid as [[? ? ? ? Htick ? ?] ? ?]. split; cbn; [|done..|apply Hpre]. split; try done. by apply tick_arrives.
  - intros T' objs' rq' l2 Hk Hl HT. split; [done|]. split; [|done]. by split.
Qed.

Lemma wp_krhino_tick_proc s :
  wf s -> 0 < g_intrpt_nested_level s ->
  wp krhino_tick_proc (fun _ s' => wf s' /\ ctl s' = ctl s /\ exists s1 p, tick_spec s s1 /\ slice_spec s1 p s') s.
Proof.
  intros Hwf Hn0. unfold krhino_tick_proc. apply wp_bind. eapply wp_mono; [|by apply wp_tick_list_update].
  cbv beta. intros _ s1 (Hk & Hs & Hn1). 
  assert (Hn : 0 < g_intrpt_nested_level s1) by (unfold ctl in Hn1; injection Hn1 as _ _ -> _ _; done).
  destruct (so_active _ _ _ _ (kp_sched _ (kp_mid _ Hk))) as [ak Ha].
  eapply wp_mono; [|apply (wp_time_slice_update s1 ak); [by apply wf_nested|done|exact Ha]].
  intros _ s' [? Hsl]. split; [done|]. split; [|by exists s1, (prio ak)]. rewrite <- Hn1. by destruct Hsl.
Qed.

(** ** How long a task waits *)

(** the ticks that remain to a task of the tick list *)
Definition remaining (s : kstate) (t : nat) : Z := tick_key (matchV (g_tasks s)) (g_tick_count s) t.

(** every timeout is less than half the range of the counter *)
Definition small_timeouts (s : kstate) : Prop := forall t, t ∈ g_tick_head s -> remaining s t < 2 ^ 63.

Lemma i64_nonpos_key x : u64 x < 2 ^ 63 -> (i64 x <= 0 <-> u64 x = 0).
Proof. unfold i64, u64. zlia. Qed.

Lemma due_key Mt now l t :
  StronglySorted (fun t u => tick_key Mt now t <= tick_key Mt now u) l ->
  (forall u, u ∈ l -> tick_key Mt now u < 2 ^ 63) -> (t ∈ due Mt now l <-> t ∈ l /\ tick_key Mt now t = 0).
Proof.
  induction 1 as [|u l Hl IH Hall]; intros Hsm; cbn [due].
  { rewrite elem_of_nil. tauto. }
  pose proof (i64_nonpos_key (Mt u - now) (Hsm u ltac:(left))) as Hu.
  destruct (Z.leb_spec (i64 (Mt u - now)) 0) as [Hd|Hd].
  - rewrite !elem_of_cons, IH by (intros; apply Hsm; by right). unfold tick_key in *. naive_solver.
  - split; [by intros []%elem_of_nil|]. intros [[->|Ht]%elem_of_cons Hz]; exfalso.
    + unfold tick_key in Hz. lia.
    + rewrite Forall_forall in Hall. specialize (Hall _ Ht). unfold tick_key in *. pose proof (u64_range (Mt u - now)). lia.
Qed.

(** one tick seen by one task *)
Record tick_one (s s' : kstate) (t : nat) (tk tk' : ktask) : Prop := {
  to_due : remaining s t = 1 -> ~ (t ∈ g_tick_head s') /\ task_state tk' = awake_state (task_state tk) /\
             blk_state tk' = (if is_pending tk then BLK_TIMEOUT else BLK_FINISH);
  to_later : 1 < remaining s t -> t ∈ g_tick_head s' /\ task_state tk' = task_state tk /\ blk_state tk' = blk_state tk /\
             remaining s' t = remaining s t - 1
}.

Lemma slice_like s p s' : slice_spec s p s' ->
  g_tick_head s' = g_tick_head s /\ g_tick_count s' = g_tick_count s /\
  forall t tk, g_tasks s !! t = Some tk -> exists tk', g_tasks s' !! t = Some tk' /\ task_like tk tk' /\ blk_state tk' = blk_state tk.
Proof.
  assert (Hins : forall u uk uk', g_tasks s !! u = Some uk -> task_like uk uk' -> blk_state uk' = blk_state uk ->
    forall t tk, g_tasks s !! t = Some tk ->
      exists tk', <[u := uk']> (g_tasks s) !! t = Some tk' /\ task_like tk tk' /\ blk_state tk' = blk_state tk).
  { intros u uk uk' Hu Hl Hb t tk Ht. destruct (decide (u = t)) as [->|Hne].
    - rewrite lookup_insert_eq. assert (tk = uk) as -> by congruence. by exists uk'.
    - rewrite lookup_insert_ne by done. by exists tk. }
  destruct 1; (split; [done|]; split; [done|]); cbn; [intros t tk Ht; by exists tk|by eapply Hins..].
Qed.

Lemma expired_after l T T' t tk :
  NoDup l -> prio_change (wake_tasks expired l T) T' -> T !! t = Some tk ->
  exists p, T' !! t = Some (set_prio p (if decide (t ∈ l) then expired tk else tk)).
Proof.
  intros Hl HT Ht. specialize (HT t). rewrite wake_tasks_lookup, Ht in HT by done.
  destruct (T' !! t) as [tk'|]; destruct (decide (t ∈ l)); try done; destruct HT as [p ->]; by exists p.
Qed.

Lemma tick_spec_match s s1 t tk :
  wf s -> tick_spec s s1 -> g_tasks s !! t = Some tk -> matchV (g_tasks s1) t = matchV (g_tasks s) t.
Proof.
  intros Hwf (Hnow & Hl & HT) Ht. pose proof (ti_nodup _ _ _ _ _ (c_tick _ _ _ _ _ _ _ (kp_core _ (kp_mid _ (wf_pre _ Hwf))))) as Hnd.
  rewrite Hl in Hnd. apply NoDup_app in Hnd as [Hnd _]. destruct (expired_after _ _ _ _ _ Hnd HT Ht) as [p Hp].
  unfold matchV. rewrite (tview_lookup _ _ _ _ _ Hp), (tview_lookup _ _ _ _ _ Ht).
  destruct (decide _); [|done]. unfold expired. by destruct (is_pending tk).
Qed.

Section tick_counts.
Context (s s1 s' : kstate) (p : Z) (Hwf : wf s) (Hsm : small_timeouts s).
Context (Hspec : tick_spec s s1) (Hsl : slice_spec s1 p s').

Lemma counts_tick_ok : tick_ok 1 (ticking (g_tasks s)) (matchV (g_tasks s)) (g_tick_count s) (g_tick_head s).
Proof using Hwf. apply (kp_core _ (kp_mid _ (wf_pre _ Hwf))). Qed.

Lemma counts_due t : t ∈ due (matchV (g_tasks s)) (u64 (g_tick_count s + 1)) (g_tick_head s) <->
  (t ∈ g_tick_head s /\ remaining s t = 1).
Proof using Hwf Hsm.
  pose proof counts_tick_ok as H. rewrite due_key.
  - unfold remaining. split; intros [Hin Hk]; (split; [done|]); rewrite (tick_key_arrives _ _ _ _ _ H Hin) in *; lia.
  - apply (tick_arrives _ _ _ _ H).
  - intros u Hu. rewrite (tick_key_arrives _ _ _ _ _ H Hu). specialize (Hsm u Hu). unfold remaining in Hsm. lia.
Qed.

Lemma counts_remaining t : t ∈ g_tick_head s -> remaining s' t = remaining s t - 1.
Proof using Hwf Hspec Hsl.
  intros Ht. pose proof counts_tick_ok as H. destruct (tick_listed _ _ _ _ _ H Ht) as (tk & Htk & _).
  destruct (slice_like _ _ _ Hsl) as (_ & Hcnt & Hlike). pose proof (tick_spec_match _ _ _ _ Hwf Hspec Htk) as Hm.
  pose proof Hspec as (Hnow & Hl & HT). pose proof (ti_nodup _ _ _ _ _ H) as Hnd. rewrite Hl in Hnd.
  apply NoDup_app in Hnd as [Hnd _]. destruct (expired_after _ _ _ _ _ Hnd HT Htk) as [q Hq].
  destruct (Hlike _ _ Hq) as (tk' & Htk' & Hlk & _). unfold remaining, tick_key.
  assert (matchV (g_tasks s') t = matchV (g_tasks s) t) as ->.
  { rewrite <- Hm. unfold matchV. rewrite (tview_lookup _ _ _ _ _ Htk'), (tview_lookup _ _ _ _ _ Hq). apply Hlk. }
  rewrite Hcnt, Hnow. exact (tick_key_arrives _ _ _ _ _ H Ht).
Qed.

Lemma counts_head t : t ∈ g_tick_head s' <-> t ∈ g_tick_head s /\ remaining s t <> 1.
Proof using Hwf Hsm Hspec Hsl.
  pose proof counts_tick_ok as H. destruct (slice_like _ _ _ Hsl) as (-> & _ & _). pose proof Hspec as (Hnow & Hl & _).
  pose proof (ti_nodup _ _ _ _ _ H) as Hnd. pose proof (counts_due t) as Hd. split.
  - intros Ht. rewrite Hl in Hnd |- *. apply NoDup_app in Hnd as (_ & Hdis & _). split; [apply elem_of_app; by right|].
    intros Hr. apply (Hdis t); [|done]. apply Hd. split; [rewrite Hl; apply elem_of_app; by right|done].
  - intros [Ht Hr]. rewrite Hl in Ht. apply elem_of_app in Ht as [Ht|Ht]; [|done]. by apply Hd in Ht as [_ ?].
Qed.

Lemma counts_small : small_timeouts s'.
Proof using Hwf Hsm Hspec Hsl.
  intros t [Ht _]%counts_head. rewrite counts_remaining by done. specialize (Hsm t Ht). lia.
Qed.

Lemma counts_one t tk : t ∈ g_tick_head s -> g_tasks s !! t = Some tk ->
  exists tk', g_tasks s' !! t = Some tk' /\ tick_one s s' t tk tk'.
Proof using Hwf Hsm Hspec Hsl.
  intros Ht Htk. pose proof counts_tick_ok as H. pose proof (counts_due t) as Hd. pose proof (counts_head t) as Hh.
  pose proof (counts_remaining t Ht) as Hr. destruct (slice_like _ _ _ Hsl) as (_ & _ & Hlike).
  pose proof Hspec as (Hnow & Hl & HT). pose proof (ti_nodup _ _ _ _ _ H) as Hnd. rewrite Hl in Hnd.
  apply NoDup_app in Hnd as [Hnd _]. destruct (expired_after _ _ _ _ _ Hnd HT Htk) as [q Hq].
  destruct (Hlike _ _ Hq) as (tk' & Htk' & Hlk & Hb). exists tk'. split; [done|]. pose proof (tl_state _ _ Hlk) as Hst.
  split; intros Hrem.
  - rewrite decide_True in Hst, Hb by (apply Hd; done). split; [rewrite Hh; tauto|]. rewrite Hst, Hb.
    unfold expired. by destruct (is_pending tk).
  - assert (~ t ∈ due (matchV (g_tasks s)) (u64 (g_tick_count s + 1)) (g_tick_head s)) as Hno by (rewrite Hd; lia).
    rewrite decide_False in Hst, Hb by done. split; [apply Hh; split; [done|lia]|]. done.
Qed.
End tick_counts.

(** ** Several ticks *)

Fixpoint ticks_proc (n : nat) : K unit :=
  match n with O => mret tt | S n => krhino_tick_proc;; ticks_proc n end.

(** a task of the tick list waits for its remaining ticks and no longer, when
    nothing but the tick interrupt happens *)
Lemma wp_ticks_proc n : forall s t tk,
  wf s -> 0 < g_intrpt_nested_level s -> small_timeouts s -> t ∈ g_tick_head s -> g_tasks s !! t = Some tk ->
  Z.of_nat n <= remaining s t ->
  wp (ticks_proc n) (fun _ s' => wf s' /\ exists tk', g_tasks s' !! t = Some tk' /\
    (Z.of_nat n < remaining s t -> t ∈ g_tick_head s' /\ task_state tk' = task_state tk /\ blk_state tk' = blk_state tk) /\
    (Z.of_nat n = remaining s t -> ~ (t ∈ g_tick_head s') /\ task_state tk' = awake_state (task_state tk) /\
       blk_state tk' = (if is_pending tk then BLK_TIMEOUT else BLK_FINISH))) s.
Proof.
  induction n as [|n IH]; intros s t tk Hwf Hn Hsm Ht Htk Hle; cbn [ticks_proc].
  - apply wp_ret. split; [done|]. exists tk. split; [done|]. split; [done|]. intros H.
    pose proof (ti_lo _ _ _ _ _ (counts_tick_ok s Hwf) _ Ht) as Hlo. unfold remaining in *. lia.
  - apply wp_bind. eapply wp_mono; [|by apply wp_krhino_tick_proc]. cbv beta. intros _ s' (Hwf' & Hn' & s1 & p & Hs1 & Hsl).
    destruct (counts_one s s1 s' p Hwf Hsm Hs1 Hsl t tk Ht Htk) as (tk' & Htk' & [Hdue Hlater]).
    assert (Hni : 0 < g_intrpt_nested_level s') by (unfold ctl in Hn'; injection Hn' as _ _ -> _ _; done).
    pose proof (counts_small s s1 s' p Hwf Hsm Hs1 Hsl) as Hsm'.
    pose proof (ti_lo _ _ _ _ _ (counts_tick_ok s Hwf) _ Ht) as Hlo. fold (remaining s t) in Hlo.
    destruct (Z.eq_dec (remaining s t) 1) as [E|Hne].
    + assert (n = O) as -> by lia. apply wp_ret. split; [done|]. exists tk'. split; [done|]. split; [lia|auto].
    + destruct Hlater as (Ht' & Hst & Hb & Hr); [lia|]. eapply wp_mono; [|apply (IH s' t tk'); try done; lia].
      cbv beta. intros _ s2 (Hwf2 & tk2 & Htk2 & Hl2 & Hd2). split; [done|]. exists tk2. split; [done|]. split; intros H.
      * destruct Hl2 as (? & -> & ->); [lia|]. done.
      * destruct Hd2 as (? & -> & ->); [lia|]. unfold is_pending. by rewrite Hst.
Qed.

(** ** Milliseconds *)

(** at 1000 ticks per second the conversions do not round *)
Lemma krhino_ms_to_ticks_id ms : 0 <= ms < 2 ^ 64 -> krhino_ms_to_ticks ms = ms.
Proof.
  intros H. unfold krhino_ms_to_ticks, u16, u64, RHINO_CONFIG_TICKS_PER_SECOND. cbv zeta.
  change (1000 / 1000 mod 2 ^ 16) with 1. change (0 <? 1) with true. cbv iota. rewrite (Z.mod_small (ms mod 1000)) by zlia.
  rewrite (Z.mod_small (ms / 1000 * 1000)) by zlia. rewrite Z.mod_small by zlia. zlia.
Qed.

Lemma krhino_ticks_to_ms_id ticks : 0 <= ticks < 2 ^ 64 -> krhino_ticks_to_ms ticks = ticks.
Proof.
  intros H. unfold krhino_ticks_to_ms, u32, u64, RHINO_CONFIG_TICKS_PER_SECOND.
  change (1000 / 1000 mod 2 ^ 32) with 1. change (0 <? 1) with true. cbv iota zeta. rewrite (Z.mod_small (ticks mod 1000)) by zlia.
  rewrite (Z.mod_small (ticks / 1000 * 1000)) by zlia. rewrite (Z.mod_small (ticks mod 1000 + (1 - 1))) by zlia.
  rewrite (Z.mod_small ((ticks mod 1000 + (1 - 1)) * 1000)) by zlia. rewrite Z.mod_small by zlia. zlia.
Qed.
