(* ===== verification/Timer.v ===== *)
(** * Software timers ([core/k_timer.c])

    The timers belong to the timer task: the calls of the other tasks put a
    command in its queue, the task executes the commands and calls the callbacks
    of the timers that are due.  [tstate] is what the task keeps; its operations
    are those of the code, the list being the sequence its pointers make (see
    [KList]).  A callback is recorded in [fired] where the code calls it: it is
    user code, which reaches the timers through commands only. *)

From S2P Require Import Prelude Config State Inv Tick KInv.

(** ** The code *)

Inductive k_timer_state_t : Set := TIMER_DEACTIVE | TIMER_ACTIVE.

#[export] Instance timer_state_eq_dec : EqDecision k_timer_state_t.
Proof. solve_decision. Defined.

Record ktimer := mkTimer {
  to_head : bool;
  timer_cb_arg : Z;
  tm_match : Z;
  remain : Z;
  init_count : Z;
  round_ticks : Z;
  tm_obj_type : kobj_type_t;
  timer_state : k_timer_state_t;
  tm_alloc_flag : Z
}.

Definition set_to_head v r := mkTimer v (timer_cb_arg r) (tm_match r) (remain r) (init_count r) (round_ticks r)
  (tm_obj_type r) (timer_state r) (tm_alloc_flag r).
Definition set_timer_cb_arg v r := mkTimer (to_head r) v (tm_match r) (remain r) (init_count r) (round_ticks r)
  (tm_obj_type r) (timer_state r) (tm_alloc_flag r).
Definition set_tm_match v r := mkTimer (to_head r) (timer_cb_arg r) v (remain r) (init_count r) (round_ticks r)
  (tm_obj_type r) (timer_state r) (tm_alloc_flag r).
Definition set_remain v r := mkTimer (to_head r) (timer_cb_arg r) (tm_match r) v (init_count r) (round_ticks r)
  (tm_obj_type r) (timer_state r) (tm_alloc_flag r).
Definition set_init_count v r := mkTimer (to_head r) (timer_cb_arg r) (tm_match r) (remain r) v (round_ticks r)
  (tm_obj_type r) (timer_state r) (tm_alloc_flag r).
Definition set_round_ticks v r := mkTimer (to_head r) (timer_cb_arg r) (tm_match r) (remain r) (init_count r) v
  (tm_obj_type r) (timer_state r) (tm_alloc_flag r).
Definition set_tm_obj_type v r := mkTimer (to_head r) (timer_cb_arg r) (tm_match r) (remain r) (init_count r) (round_ticks r)
  v (timer_state r) (tm_alloc_flag r).
Definition set_timer_state v r := mkTimer (to_head r) (timer_cb_arg r) (tm_match r) (remain r) (init_count r) (round_ticks r)
  (tm_obj_type r) v (tm_alloc_flag r).

Record tstate := mkTs {
  g_timers : gmap nat ktimer;
  g_timer_head : list nat;
  g_timer_count : Z;
  (** the callbacks called, with their arguments *)
  fired : list (nat * Z)
}.

Definition set_g_timers v s := mkTs v (g_timer_head s) (g_timer_count s) (fired s).
Definition set_g_timer_head v s := mkTs (g_timers s) v (g_timer_count s) (fired s).
Definition set_g_timer_count v s := mkTs (g_timers s) (g_timer_head s) v (fired s).
Definition set_fired v s := mkTs (g_timers s) (g_timer_head s) (g_timer_count s) v.

Abbreviation TM := (M kstat_t tstate).

Definition get_timer (t : nat) : TM ktimer := m ← gets g_timers; lift (m !! t).
Definition upd_timer (t : nat) (f : ktimer -> ktimer) : TM unit :=
  tm ← get_timer t; modify (fun s => set_g_timers (<[t := f tm]> (g_timers s)) s).

(** [(task_iter_temp->match - g_timer_count) > val] *)
Definition timer_stop (timers : gmap nat ktimer) (now val : Z) (q : nat) : option bool :=
  tm ← timers !! q; Some (val <? u64 (tm_match tm - now)).

Definition timer_list_pri_insert (t : nat) : TM unit :=
  tm ← get_timer t;
  timers ← gets g_timers;
  now ← gets g_timer_count;
  l ← gets g_timer_head;
  l' ← lift (insert_beforeM (timer_stop timers now (remain tm)) t l);
  modify (set_g_timer_head l').

Definition timer_list_rm (t : nat) : TM unit :=
  tm ← get_timer t;
  if to_head tm then
    l ← gets g_timer_head;
    (if bool_decide (t ∈ l) then modify (set_g_timer_head (klist_del t l)) else undef);;
    upd_timer t (set_to_head false)
  else mret tt.

(** [q->next], [None] at the end of the list *)
Fixpoint list_next (q : nat) (l : list nat) : option nat :=
  match l with
  | [] => None
  | a :: l => if bool_decide (a = q) then head l else list_next q l
  end.

(** the loop of [timer_cb_proc] from the node [q]: a node that was removed still
    points to the one that followed it, a timer put back points to its new
    successor *)
Fixpoint timer_cb_loop (fuel : nat) (q : option nat) : TM unit :=
  match q, fuel with
  | None, _ => mret tt
  | Some _, O => undef
  | Some t, S n =>
      tm ← get_timer t;
      now ← gets g_timer_count;
      let delta := i64 (tm_match tm - now) in
      if delta <=? 0 then
        modify (fun s => set_fired (fired s ++ [(t, timer_cb_arg tm)]) s);;
        l ← gets g_timer_head;
        timer_list_rm t;;
        if 0 <? round_ticks tm then
          upd_timer t (set_remain (round_ticks tm));;
          upd_timer t (set_tm_match (u64 (now + round_ticks tm)));;
          upd_timer t (set_to_head true);;
          timer_list_pri_insert t;;
          l' ← gets g_timer_head;
          timer_cb_loop n (list_next t l')
        else
          upd_timer t (set_timer_state TIMER_DEACTIVE);;
          timer_cb_loop n (list_next t l)
      else mret tt
  end.

(** every turn but the last makes a timer that was due wait or removes it *)
Definition timer_cb_proc : TM unit :=
  l ← gets g_timer_head;
  timer_cb_loop (S (length l)) (head l).

Inductive timer_cmd : Set :=
  | TIMER_CMD_CB | TIMER_CMD_START | TIMER_CMD_STOP | TIMER_CMD_CHG | TIMER_ARG_CHG
  | TIMER_ARG_CHG_AUTO | TIMER_CMD_DEL | TIMER_CMD_DYN_DEL.

Definition cmd_num (c : timer_cmd) : Z :=
  match c with
  | TIMER_CMD_CB => 0 | TIMER_CMD_START => 1 | TIMER_CMD_STOP => 2 | TIMER_CMD_CHG => 3 | TIMER_ARG_CHG => 4
  | TIMER_ARG_CHG_AUTO => 5 | TIMER_CMD_DEL => 6 | TIMER_CMD_DYN_DEL => 7
  end.

(** the union [u] is kept as its eight bytes: the pointer [u.arg] is the first four *)
Record k_timer_queue_cb := mkCb { cb_timer : nat; cb_num : Z; cb_first : Z; cb_u : Z }.

(** [if (timer->obj_type != RHINO_TIMER_OBJ_TYPE) break;] *)
Definition for_timer (t : nat) (k : ktimer -> TM unit) : TM unit :=
  tm ← get_timer t;
  if bool_decide (tm_obj_type tm = RHINO_TIMER_OBJ_TYPE) then k tm else mret tt.

Definition inactive (tm : ktimer) : bool := bool_decide (timer_state tm = TIMER_DEACTIVE).

Definition cmd_proc (cb : k_timer_queue_cb) (cmd : Z) : TM unit :=
  let t := cb_timer cb in
  if cmd =? cmd_num TIMER_CMD_START then
    for_timer t (fun tm =>
    if bool_decide (timer_state tm = TIMER_ACTIVE) then mret tt else
    now ← gets g_timer_count;
    upd_timer t (set_tm_match (u64 (now + init_count tm)));;
    upd_timer t (set_remain (init_count tm));;
    upd_timer t (set_to_head true);;
    timer_list_pri_insert t;;
    upd_timer t (set_timer_state TIMER_ACTIVE))
  else if cmd =? cmd_num TIMER_CMD_STOP then
    for_timer t (fun tm =>
    if inactive tm then mret tt else
    timer_list_rm t;;
    upd_timer t (set_timer_state TIMER_DEACTIVE))
  else if cmd =? cmd_num TIMER_CMD_CHG then
    if cb_first cb =? 0 then mret tt else
    for_timer t (fun tm =>
    (if inactive tm then mret tt
     else timer_list_rm t;; upd_timer t (set_timer_state TIMER_DEACTIVE));;
    upd_timer t (set_init_count (cb_first cb));;
    upd_timer t (set_round_ticks (cb_u cb)))
  else if cmd =? cmd_num TIMER_ARG_CHG then
    for_timer t (fun tm =>
    if inactive tm then upd_timer t (set_timer_cb_arg (u32 (cb_u cb))) else mret tt)
  else if cmd =? cmd_num TIMER_CMD_DEL then
    for_timer t (fun tm =>
    if negb (inactive tm) then mret tt else
    if negb (tm_alloc_flag tm =? K_OBJ_STATIC_ALLOC) then mret tt else
    upd_timer t (set_tm_obj_type RHINO_OBJ_TYPE_NONE))
  else if cmd =? cmd_num TIMER_CMD_DYN_DEL then
    for_timer t (fun tm =>
    if negb (inactive tm) then mret tt else
    if negb (tm_alloc_flag tm =? K_OBJ_DYN_ALLOC) then mret tt else
    upd_timer t (set_tm_obj_type RHINO_OBJ_TYPE_NONE);;
    modify (fun s => set_g_timers (delete t (g_timers s)) s))
  else stop RHINO_SYS_FATAL_ERR.

Definition timer_cmd_proc (cb : k_timer_queue_cb) : TM unit :=
  if cb_num cb =? cmd_num TIMER_ARG_CHG_AUTO then
    cmd_proc cb (cmd_num TIMER_CMD_STOP);;
    cmd_proc cb (cmd_num TIMER_ARG_CHG);;
    cmd_proc cb (cmd_num TIMER_CMD_START)
  else cmd_proc cb (cb_num cb).

(** ** Well-formed timers *)

Definition MAX_TIMER_TICKS : Z := Z.shiftr (2 ^ 64 - 1) 1.

Lemma MAX_TIMER_TICKS_eq : MAX_TIMER_TICKS = 2 ^ 63 - 1.
Proof. done. Qed.

(** a timer is in the list when it is active; an active one was not deleted *)
Record timer_ok (tm : ktimer) : Prop := {
  tm_head : to_head tm = bool_decide (timer_state tm = TIMER_ACTIVE);
  tm_type : timer_state tm = TIMER_ACTIVE -> tm_obj_type tm = RHINO_TIMER_OBJ_TYPE;
  tm_round : 0 <= round_ticks tm < MAX_TIMER_TICKS;
  tm_init : 0 < init_count tm < MAX_TIMER_TICKS
}.

Definition listed (timers : gmap nat ktimer) (t : nat) : bool := from_option to_head false (timers !! t).
Definition tmatch (timers : gmap nat ktimer) (t : nat) : Z := from_option tm_match 0 (timers !! t).

Record timers_ok (timers : gmap nat ktimer) (l : list nat) : Prop := {
  ts_nodup : NoDup l;
  ts_in : forall t, t ∈ l <-> listed timers t = true;
  ts_timer : map_Forall (fun _ => timer_ok) timers
}.

Definition tok (s : tstate) : Prop := timers_ok (g_timers s) (g_timer_head s).

(** the timer [t] is due *)
Definition due_at (timers : gmap nat ktimer) (now : Z) (t : nat) : Prop := i64 (tmatch timers t - now) <= 0.

(** no timer is late at the tick [now], and the list is in order *)
Definition timely (now : Z) (timers : gmap nat ktimer) (l : list nat) : Prop :=
  tick_ok 0 (listed timers) (tmatch timers) now l /\ forall t, t ∈ l -> tick_key (tmatch timers) now t < 2 ^ 63.

(** a timer whose callback was called at [now] *)
Definition after_fire (now : Z) (tm : ktimer) : ktimer :=
  if 0 <? round_ticks tm
  then set_to_head true (set_tm_match (u64 (now + round_ticks tm)) (set_remain (round_ticks tm) (set_to_head false tm)))
  else set_timer_state TIMER_DEACTIVE (set_to_head false tm).

Definition fire_head (now : Z) (timers : gmap nat ktimer) (t : nat) (tm : ktimer) (l : list nat) : list nat :=
  if 0 <? round_ticks tm
  then insert_before (fun u => round_ticks tm <? u64 (tmatch timers u - now)) t (klist_del t l)
  else klist_del t l.

Lemma listed_lookup timers t : listed timers t = true -> exists tm, timers !! t = Some tm /\ to_head tm = true.
Proof. unfold listed. destruct (timers !! t) as [tm|]; [|done]. by exists tm. Qed.

Lemma listed_insert timers t tm u : listed (<[t := tm]> timers) u = fupd (listed timers) t (to_head tm) u.
Proof. unfold listed, fupd. case_decide; subst; [by rewrite lookup_insert_eq|by rewrite lookup_insert_ne]. Qed.

Lemma tmatch_insert timers t tm u : tmatch (<[t := tm]> timers) u = fupd (tmatch timers) t (tm_match tm) u.
Proof. unfold tmatch, fupd. case_decide; subst; [by rewrite lookup_insert_eq|by rewrite lookup_insert_ne]. Qed.

Lemma list_next_spec t l1 l2 : t ∉ l1 -> list_next t (l1 ++ t :: l2) = head l2.
Proof.
  induction l1 as [|a l1 IH]; cbn; intros Ht; [by rewrite bool_decide_eq_true_2|].
  rewrite bool_decide_eq_false_2 by set_solver. apply IH. set_solver.
Qed.

Lemma list_next_in t l u : list_next t l = Some u -> u ∈ l.
Proof.
  induction l as [|a l IH]; cbn; [done|]. case_bool_decide; [|right; auto].
  destruct l; cbn; [done|]. intros [= ->]. right. left.
Qed.

Lemma list_next_other t l u : NoDup l -> list_next t l = Some u -> u <> t.
Proof.
  induction l as [|a l IH]; cbn; [done|]. intros [Ha Hn]%NoDup_cons. case_bool_decide; [subst|auto].
  destruct l; cbn; [done|]. intros [= ->] ->. apply Ha. left.
Qed.

(** ** Symbolic execution *)

Section steps.
Context (T : gmap nat ktimer) (l : list nat) (c : Z) (f : list (nat * Z)).
Abbreviation st := (mkTs T l c f).

Lemma wp_get_timer t tm (Q : ktimer -> tstate -> Prop) : T !! t = Some tm -> Q tm st -> wp (get_timer t) Q st.
Proof using. intros Ht HQ. unfold get_timer, wp, mbind, M_bind, gets, lift. cbn. by rewrite Ht. Qed.

Lemma wp_upd_timer t g tm (Q : unit -> tstate -> Prop) :
  T !! t = Some tm -> Q tt (mkTs (<[t := g tm]> T) l c f) -> wp (upd_timer t g) Q st.
Proof using. intros Ht HQ. apply wp_bind. by eapply wp_get_timer. Qed.

Lemma wp_timer_list_rm t tm (Q : unit -> tstate -> Prop) :
  timers_ok T l -> T !! t = Some tm -> to_head tm = true ->
  Q tt (mkTs (<[t := set_to_head false tm]> T) (klist_del t l) c f) -> wp (timer_list_rm t) Q st.
Proof using.
  intros Hok Ht Hh HQ. apply wp_bind. eapply wp_get_timer; [done|]. rewrite Hh. apply wp_bind, wp_gets, wp_bind. cbn.
  rewrite bool_decide_eq_true_2; [|apply (ts_in _ _ Hok); unfold listed; by rewrite Ht].
  apply wp_modify. cbn. unfold set_g_timer_head. cbn. unfold upd_timer. apply wp_bind. unfold get_timer, wp, mbind, M_bind, gets, lift.
  cbn. rewrite Ht. exact HQ.
Qed.

(** the node itself is out of the list *)
Lemma wp_timer_list_pri_insert t tm (Q : unit -> tstate -> Prop) :
  T !! t = Some tm -> (forall u, u ∈ l -> is_Some (T !! u)) ->
  Q tt (mkTs T (insert_before (fun u => remain tm <? u64 (tmatch T u - c)) t l) c f) -> wp (timer_list_pri_insert t) Q st.
Proof using.
  intros Ht Hl HQ. apply wp_bind. eapply wp_get_timer; [done|]. do 3 (apply wp_bind, wp_gets). cbn. apply wp_bind.
  eapply wp_lift; [|apply wp_modify, HQ]. apply insert_beforeM_total. intros u Hu. destruct (Hl u Hu) as [um Hum].
  unfold timer_stop, tmatch. by rewrite Hum.
Qed.
End steps.

Ltac tstep := first
  [eapply wp_get_timer; [first [apply lookup_insert_eq|eassumption]|]
  |eapply wp_upd_timer; [first [apply lookup_insert_eq|eassumption]|]
  |apply wp_bind|apply wp_gets|apply wp_modify|apply wp_ret];
  unfold set_g_timers, set_g_timer_head, set_g_timer_count, set_fired;
  cbn [g_timers g_timer_head g_timer_count fired].

Lemma wp_timer_cb_step T l c f n t tm (Q : unit -> tstate -> Prop) :
  timers_ok T l -> T !! t = Some tm -> t ∈ l -> i64 (tm_match tm - c) <= 0 ->
  wp (timer_cb_loop n (list_next t (if 0 <? round_ticks tm then fire_head c T t tm l else l))) Q
    (mkTs (<[t := after_fire c tm]> T) (fire_head c T t tm l) c (f ++ [(t, timer_cb_arg tm)])) ->
  wp (timer_cb_loop (S n) (Some t)) Q (mkTs T l c f).
Proof.
  intros Hok Ht Hl Hd. assert (Hh : to_head tm = true).
  { apply (ts_in _ _ Hok) in Hl. unfold listed in Hl. by rewrite Ht in Hl. }
  unfold after_fire, fire_head. intros HQ. cbn [timer_cb_loop]. do 4 tstep. rewrite (proj2 (Z.leb_le _ _) Hd). do 3 tstep.
  eapply wp_timer_list_rm; [done..|]. revert HQ. destruct (0 <? round_ticks tm); intros HQ.
  - do 6 tstep. rewrite !insert_insert_eq. tstep. eapply wp_timer_list_pri_insert; [apply lookup_insert_eq| |].
    + intros u [_ Hu]%elem_of_klist_del. apply (ts_in _ _ Hok), listed_lookup in Hu as (um & Hum & _).
      apply lookup_insert_is_Some'. right. by eexists.
    + do 2 tstep. cbn [remain set_to_head set_tm_match set_remain]. erewrite insert_before_ext; [exact HQ|].
      intros u [Hu _]%elem_of_klist_del. unfold tmatch. by rewrite lookup_insert_ne by done.
  - do 2 tstep. rewrite !insert_insert_eq. exact HQ.
Qed.

(** ** One callback *)

Section fire.
Context (T : gmap nat ktimer) (l : list nat) (c : Z) (t : nat) (tm : ktimer).
Context (Hok : timers_ok T l) (Ht : T !! t = Some tm) (Hl : t ∈ l).
Abbreviation T' := (<[t := after_fire c tm]> T).
Abbreviation l' := (fire_head c T t tm l).

Lemma fire_active : to_head tm = true /\ timer_state tm = TIMER_ACTIVE /\ timer_ok tm.
Proof using Hok Ht Hl.
  pose proof (ts_timer _ _ Hok _ _ Ht) as Htm. assert (Hh : to_head tm = true).
  { apply (ts_in _ _ Hok) in Hl. unfold listed in Hl. by rewrite Ht in Hl. }
  split_and!; [done| |done]. pose proof (tm_head _ Htm) as H. rewrite Hh in H. symmetry in H. by apply bool_decide_eq_true in H.
Qed.

Lemma fire_listed : listed T' ≐ (if 0 <? round_ticks tm then fupd (fupd (listed T) t false) t true else fupd (listed T) t false).
Proof using.
  intros u. rewrite listed_insert. unfold after_fire. destruct (0 <? round_ticks tm); cbn; [|done]. unfold fupd. by case_decide.
Qed.

Lemma fire_tmatch : tmatch T' ≐ (if 0 <? round_ticks tm then fupd (tmatch T) t (u64 (c + round_ticks tm)) else tmatch T).
Proof using Ht.
  intros u. rewrite tmatch_insert. unfold after_fire. destruct (0 <? round_ticks tm); cbn; [done|]. unfold fupd, tmatch.
  case_decide; [subst; by rewrite Ht|done].
Qed.

Lemma elem_of_fire_head u : u ∈ l' <-> (u = t /\ 0 < round_ticks tm) \/ (u <> t /\ u ∈ l).
Proof using.
  unfold fire_head. destruct (Z.ltb_spec 0 (round_ticks tm)).
  - rewrite elem_of_insert_before, elem_of_klist_del. naive_solver.
  - rewrite elem_of_klist_del. split; [naive_solver|]. intros [[_ ?]|?]; [lia|done].
Qed.

Lemma fire_ok : timers_ok T' l'.
Proof using Hok Ht Hl.
  destruct fire_active as (Hh & Ha & [_ H2 H3 H4]). split.
  - unfold fire_head. pose proof (klist_del_NoDup t l (ts_nodup _ _ Hok)). destruct (0 <? round_ticks tm); [|done].
    apply NoDup_insert_before; [done|]. intros [? _]%elem_of_klist_del. done.
  - intros u. rewrite elem_of_fire_head, fire_listed, (ts_in _ _ Hok). destruct (Z.ltb_spec 0 (round_ticks tm)); unfold fupd;
      repeat case_decide; naive_solver lia.
  - apply map_Forall_insert_2; [|apply Hok]. unfold after_fire. destruct (0 <? round_ticks tm).
    + split; cbn; try done. by rewrite Ha.
    + by split.
Qed.

(** a timer that was called is not due again *)
Lemma fired_not_due : t ∈ l' -> ~ due_at T' c t.
Proof using Hok Ht Hl.
  rewrite elem_of_fire_head. intros [[_ Hr]|[? _]]; [|done]. destruct fire_active as (_ & _ & [_ _ H3 _]).
  unfold due_at. rewrite fire_tmatch. rewrite (proj2 (Z.ltb_lt _ _) Hr), fupd_eq.
  rewrite <- i64_u64, u64_sub_l, i64_u64. replace (c + round_ticks tm - c) with (round_ticks tm) by lia.
  rewrite MAX_TIMER_TICKS_eq in H3. rewrite i64_small; lia.
Qed.

Lemma fire_other u : u <> t -> (due_at T' c u <-> due_at T c u) /\ T' !! u = T !! u /\ (u ∈ l' <-> u ∈ l).
Proof using.
  intros Hu. unfold due_at, tmatch. rewrite lookup_insert_ne by done. split_and!; [done|done|].
  rewrite elem_of_fire_head. naive_solver.
Qed.

Lemma fire_timely : timely c T l -> timely c T' l'.
Proof using Hok Ht Hl.
  intros [Htk Hlt]. destruct fire_active as (_ & _ & [_ _ H3 _]). rewrite MAX_TIMER_TICKS_eq in H3.
  pose proof (tick_del _ _ _ _ _ t Htk) as Hd. split.
  - rewrite fire_listed, fire_tmatch. unfold fire_head. destruct (Z.ltb_spec 0 (round_ticks tm)); [|done].
    apply tick_add; [done|apply fupd_eq|lia|lia].
  - intros u Hu. apply elem_of_fire_head in Hu as [[-> Hr]|[Hne Hu]]; unfold tick_key; rewrite fire_tmatch.
    + rewrite (proj2 (Z.ltb_lt _ _) Hr), fupd_eq, u64_sub_l. replace (c + round_ticks tm - c) with (round_ticks tm) by lia.
      rewrite u64_small; lia.
    + specialize (Hlt u Hu). unfold tick_key in Hlt. destruct (0 <? round_ticks tm); [by rewrite fupd_ne|done].
Qed.
End fire.

(** ** Sequences of callbacks *)

#[export] Instance due_at_dec T c t : Decision (due_at T c t).
Proof. unfold due_at. apply _. Defined.

(** the argument of the callback of [t] *)
Definition targ (T : gmap nat ktimer) (t : nat) : Z := from_option timer_cb_arg 0 (T !! t).

(** the callbacks of [ts] were called at the tick [c]: each timer once at most,
    each when due, and is not due again; the other timers are untouched *)
Record fires (c : Z) (ts : list nat) (T : gmap nat ktimer) (l : list nat) (T' : gmap nat ktimer) (l' : list nat) : Prop := {
  fi_ok : timers_ok T' l';
  fi_once : NoDup ts;
  fi_due : forall t, t ∈ ts -> t ∈ l /\ due_at T c t /\ (t ∈ l' -> ~ due_at T' c t);
  fi_after : forall t, t ∈ ts -> T' !! t = after_fire c <$> T !! t;
  fi_other : forall t, t ∉ ts -> T' !! t = T !! t /\ (t ∈ l' <-> t ∈ l);
  fi_timely : timely c T l -> timely c T' l'
}.

Lemma fires_nil c T l : timers_ok T l -> fires c [] T l T l.
Proof. intros H. split; try done; [constructor|..]; by intros ? ?%elem_of_nil. Qed.

Lemma fires_one c T l t tm : timers_ok T l -> T !! t = Some tm -> t ∈ l -> due_at T c t ->
  fires c [t] T l (<[t := after_fire c tm]> T) (fire_head c T t tm l).
Proof.
  intros Hok Ht Hl Hd. split.
  - by apply fire_ok.
  - apply NoDup_singleton.
  - intros u ->%list_elem_of_singleton. split_and!; [done|done|]. by apply fired_not_due.
  - intros u ->%list_elem_of_singleton. by rewrite lookup_insert_eq, Ht.
  - intros u Hu. apply (fire_other T l c t tm). set_solver.
  - by apply fire_timely.
Qed.

Lemma due_lookup T T' c t : T' !! t = T !! t -> due_at T' c t <-> due_at T c t.
Proof. intros E. unfold due_at, tmatch. by rewrite E. Qed.

Lemma fires_app c ts1 ts2 T l T1 l1 T2 l2 :
  fires c ts1 T l T1 l1 -> fires c ts2 T1 l1 T2 l2 -> fires c (ts1 ++ ts2) T l T2 l2.
Proof.
  intros [O1 N1 D1 A1 U1 M1] [O2 N2 D2 A2 U2 M2].
  assert (Hdis : forall t, t ∈ ts1 -> t ∉ ts2) by (intros t H1 H2; destruct (D1 t H1), (D2 t H2); naive_solver).
  split; [done|by apply NoDup_app| | | |auto].
  - intros t [H|H]%elem_of_app.
    + destruct (D1 t H) as (? & ? & Hn). destruct (U2 t (Hdis t H)) as [E Hl]. split_and!; [done|done|].
      rewrite Hl, (due_lookup _ _ _ _ E). done.
    + destruct (D2 t H) as (Hl & Hd & ?). destruct (U1 t ltac:(naive_solver)) as [E Hl']. rewrite <- Hl', <- (due_lookup _ _ _ _ E). done.
  - intros t [H|H]%elem_of_app.
    + rewrite (proj1 (U2 t (Hdis t H))). auto.
    + rewrite (A2 t H), (proj1 (U1 t ltac:(naive_solver))). done.
  - intros t Ht. destruct (U1 t ltac:(set_solver)) as [E1 H1], (U2 t ltac:(set_solver)) as [E2 H2]. by rewrite E2, E1, H2, H1.
Qed.

Lemma fires_arg c ts T l T' l' t : fires c ts T l T' l' -> targ T' t = targ T t.
Proof.
  intros H. unfold targ. destruct (decide (t ∈ ts)) as [Ht|Ht]; [rewrite (fi_after _ _ _ _ _ _ H t Ht)|by rewrite (proj1 (fi_other _ _ _ _ _ _ H t Ht))].
  destruct (T !! t) as [tm|]; [|done]. cbn. unfold after_fire. by destruct (0 <? round_ticks tm).
Qed.

Lemma fired_ext c ts T l T' l' (ts2 : list nat) : fires c ts T l T' l' ->
  ((fun t => (t, targ T' t)) <$> ts2) = ((fun t => (t, targ T t)) <$> ts2).
Proof. intros H. apply list_fmap_ext. intros i u _. f_equal. by eapply fires_arg. Qed.

(** the timers that are due *)
Definition due_list (c : Z) (T : gmap nat ktimer) (l : list nat) : list nat := filter (due_at T c) l.

Lemma fires_due_less c ts T l T' l' : timers_ok T l -> fires c ts T l T' l' ->
  (length ts + length (due_list c T' l') <= length (due_list c T l))%nat.
Proof.
  intros Hok H. rewrite <- length_app. apply submseteq_length, NoDup_submseteq.
  - apply NoDup_app. split_and!; [apply H| |apply NoDup_filter, (fi_ok _ _ _ _ _ _ H)].
    intros t Ht [Hd Hl]%list_elem_of_filter. destruct (fi_due _ _ _ _ _ _ H t Ht) as (_ & _ & Hn). by apply Hn.
  - intros t [Ht|[Hd Hl]%list_elem_of_filter]%elem_of_app; apply list_elem_of_filter.
    + by destruct (fi_due _ _ _ _ _ _ H t Ht) as (? & ? & _).
    + destruct (decide (t ∈ ts)) as [Ht|Ht]; [destruct (fi_due _ _ _ _ _ _ H t Ht) as (_ & _ & Hn); by destruct Hn|].
      destruct (fi_other _ _ _ _ _ _ H t Ht) as [E Hl']. by rewrite <- Hl', <- (due_lookup _ _ _ _ E).
Qed.

Lemma wp_timer_cb_loop c n : forall q T l f (Q : unit -> tstate -> Prop),
  timers_ok T l -> (forall t, q = Some t -> t ∈ l) -> (length (due_list c T l) < n)%nat ->
  (forall ts T' l', fires c ts T l T' l' -> (forall t, q = Some t -> due_at T c t -> ts <> []) ->
     Q tt (mkTs T' l' c (f ++ ((fun t => (t, targ T t)) <$> ts)))) ->
  wp (timer_cb_loop n q) Q (mkTs T l c f).
Proof.
  induction n as [|n IH]; intros q T l f Q Hok Hq Hn HQ; [lia|].
  destruct q as [t|]; [|apply wp_ret; rewrite <- (app_nil_r f); apply (HQ []); [by apply fires_nil|done]].
  specialize (Hq t eq_refl). destruct (listed_lookup T t) as (tm & Ht & Hh); [by apply (ts_in _ _ Hok)|].
  assert (Hdue : due_at T c t <-> i64 (tm_match tm - c) <= 0) by (unfold due_at, tmatch; by rewrite Ht).
  destruct (decide (due_at T c t)) as [Hd|Hd].
  - pose proof (fires_one c T l t tm Hok Ht Hq Hd) as H1. pose proof (fires_due_less _ _ _ _ _ _ Hok H1) as Hless. cbn in Hless.
    eapply wp_timer_cb_step; [done..|by apply Hdue|]. apply IH; [apply H1| |lia|].
    + intros u Hu. rewrite elem_of_fire_head. destruct (Z.ltb_spec 0 (round_ticks tm)).
      * apply list_next_in in Hu. by rewrite elem_of_fire_head in Hu.
      * right. split; [eapply list_next_other; [apply Hok|done]|by eapply list_next_in].
    + intros ts T' l' Hf _. rewrite <- app_assoc. rewrite (fired_ext c [t] T l (<[t := after_fire c tm]> T) _ ts H1).
      replace [(t, timer_cb_arg tm)] with ((fun t => (t, targ T t)) <$> [t]) by (cbn; unfold targ; by rewrite Ht).
      rewrite <- fmap_app. apply HQ; [by eapply fires_app|done].
  - cbn [timer_cb_loop]. do 4 tstep. replace (i64 (tm_match tm - c) <=? 0) with false by (symmetry; apply Z.leb_gt; rewrite Hdue in Hd; lia).
    apply wp_ret. rewrite <- (app_nil_r f). apply (HQ []); [by apply fires_nil|]. by intros ? [= <-] ?.
Qed.

(** one pass over the list *)
Lemma wp_timer_cb_proc c T l f (Q : unit -> tstate -> Prop) :
  timers_ok T l ->
  (forall ts T' l', fires c ts T l T' l' -> (forall t, head l = Some t -> due_at T c t -> ts <> []) ->
     Q tt (mkTs T' l' c (f ++ ((fun t => (t, targ T t)) <$> ts)))) ->
  wp timer_cb_proc Q (mkTs T l c f).
Proof.
  intros Hok HQ. unfold timer_cb_proc. do 2 tstep. apply wp_timer_cb_loop; [done| | |done].
  - intros t Ht. destruct l; cbn in Ht; [done|]. injection Ht as ->. left.
  - unfold due_list. pose proof (length_filter (due_at T c) l). lia.
Qed.

(** ** Timers called on time *)

(** the first timer of the list is the first to be due *)
Lemma timely_head c T l : timely c T l -> (forall t, head l = Some t -> ~ due_at T c t) ->
  forall t, t ∈ l -> ~ due_at T c t.
Proof.
  intros [Htk Hlt] Hh t Ht Hd. destruct l as [|x l]; [by apply elem_of_nil in Ht|]. apply (Hh x eq_refl).
  pose proof (ti_sorted _ _ _ _ _ Htk) as Hs. apply StronglySorted_inv in Hs as [_ Hs]. rewrite Forall_forall in Hs.
  assert (Hkey : tick_key (tmatch T) c x <= tick_key (tmatch T) c t) by (apply elem_of_cons in Ht as [->|Ht]; [lia|by apply Hs]).
  unfold due_at in *. rewrite <- i64_u64 in Hd |- *. pose proof (Hlt t Ht) as H1. pose proof (Hlt x ltac:(left)) as H2.
  unfold tick_key in *. pose proof (u64_range (tmatch T t - c)). pose proof (u64_range (tmatch T x - c)).
  rewrite i64_small in Hd |- *; lia.
Qed.

(** ** The commands *)

Section updates.
Context (T : gmap nat ktimer) (l : list nat) (c : Z) (t : nat) (tm tm' : ktimer) (r : Z).
Context (Hok : timers_ok T l) (Ht : T !! t = Some tm) (Htm' : timer_ok tm').
Abbreviation T1 := (<[t := tm']> T).

Lemma upd_listed_same : to_head tm' = to_head tm -> listed T1 ≐ listed T.
Proof using Ht. intros E u. rewrite listed_insert. unfold fupd, listed. case_decide; [subst|done]. by rewrite Ht, E. Qed.

(** a timer that stays where it is *)
Lemma keep_ok : to_head tm' = to_head tm -> timers_ok T1 l.
Proof using Hok Ht Htm'.
  intros E. split; [apply Hok| |by apply map_Forall_insert_2; [|apply Hok]]. intros u. rewrite upd_listed_same by done. apply Hok.
Qed.

Lemma keep_timely : to_head tm' = to_head tm -> tm_match tm' = tm_match tm -> timely c T l -> timely c T1 l.
Proof using Ht.
  intros E Em [Htk Hlt]. assert (HM : tmatch T1 ≐ tmatch T).
  { intros u. rewrite tmatch_insert. unfold fupd, tmatch. case_decide; [subst|done]. by rewrite Ht, Em. }
  split; [by rewrite upd_listed_same, HM|]. intros u Hu. unfold tick_key. rewrite HM. by apply Hlt.
Qed.

(** a timer taken from the list *)
Lemma remove_ok : to_head tm' = false -> timers_ok T1 (klist_del t l).
Proof using Hok Ht Htm'.
  intros E. split; [apply klist_del_NoDup, Hok| |by apply map_Forall_insert_2; [|apply Hok]].
  intros u. rewrite elem_of_klist_del, listed_insert, (ts_in _ _ Hok). unfold fupd. rewrite E. case_decide; naive_solver.
Qed.

Lemma remove_timely : to_head tm' = false -> tm_match tm' = tm_match tm -> timely c T l -> timely c T1 (klist_del t l).
Proof using Ht.
  intros E Em [Htk Hlt]. assert (HM : tmatch T1 ≐ tmatch T).
  { intros u. rewrite tmatch_insert. unfold fupd, tmatch. case_decide; [subst|done]. by rewrite Ht, Em. }
  assert (HL : listed T1 ≐ fupd (listed T) t false) by (intros u; by rewrite listed_insert, E).
  split; [rewrite HL, HM; by apply tick_del|]. intros u [_ Hu]%elem_of_klist_del. unfold tick_key. rewrite HM. by apply Hlt.
Qed.

(** a timer put in the list for [r] ticks *)
Abbreviation l1 := (insert_before (fun u => r <? u64 (tmatch T u - c)) t l).

Lemma insert_ok : to_head tm = false -> to_head tm' = true -> timers_ok T1 l1.
Proof using Hok Ht Htm'.
  intros Ef E. assert (Hn : t ∉ l) by (rewrite (ts_in _ _ Hok); unfold listed; rewrite Ht; cbn; congruence).
  split; [apply NoDup_insert_before; [apply Hok|done]| |by apply map_Forall_insert_2; [|apply Hok]].
  intros u. rewrite elem_of_insert_before, listed_insert, (ts_in _ _ Hok). unfold fupd. rewrite E. case_decide; naive_solver.
Qed.

Lemma insert_timely : to_head tm = false -> to_head tm' = true -> tm_match tm' = u64 (c + r) -> 0 <= r < 2 ^ 63 ->
  timely c T l -> timely c T1 l1.
Proof using Ht.
  intros Ef E Em Hr [Htk Hlt]. assert (HM : tmatch T1 ≐ fupd (tmatch T) t (u64 (c + r))) by (intros u; by rewrite tmatch_insert, Em).
  assert (HL : listed T1 ≐ fupd (listed T) t true) by (intros u; by rewrite listed_insert, E).
  assert (Hf : listed T t = false) by (unfold listed; by rewrite Ht).
  split; [rewrite HL, HM; apply tick_add; [done|done|lia|lia]|].
  intros u Hu. unfold tick_key. rewrite HM. apply elem_of_insert_before in Hu as [->|Hu].
  - rewrite fupd_eq, u64_sub_l. replace (c + r - c) with r by lia. rewrite u64_small; lia.
  - rewrite fupd_ne; [by apply Hlt|]. intros ->. apply (ti_in _ _ _ _ _ Htk) in Hu. congruence.
Qed.
End updates.

(** what a command makes of its timer; [None] when its memory is freed *)
Definition started (now : Z) (tm : ktimer) : ktimer :=
  set_timer_state TIMER_ACTIVE (set_to_head true (set_remain (init_count tm) (set_tm_match (u64 (now + init_count tm)) tm))).
Definition stopped (tm : ktimer) : ktimer := set_timer_state TIMER_DEACTIVE (set_to_head false tm).

Definition cmd_timer (now : Z) (cb : k_timer_queue_cb) (cmd : timer_cmd) (tm : ktimer) : option ktimer :=
  if negb (bool_decide (tm_obj_type tm = RHINO_TIMER_OBJ_TYPE)) then Some tm else
  match cmd with
  | TIMER_CMD_START => Some (if inactive tm then started now tm else tm)
  | TIMER_CMD_STOP => Some (stopped tm)
  | TIMER_CMD_CHG => Some (if cb_first cb =? 0 then tm
                           else set_round_ticks (cb_u cb) (set_init_count (cb_first cb) (stopped tm)))
  | TIMER_ARG_CHG => Some (if inactive tm then set_timer_cb_arg (u32 (cb_u cb)) tm else tm)
  | TIMER_ARG_CHG_AUTO => Some (started now (set_timer_cb_arg (u32 (cb_u cb)) (stopped tm)))
  | TIMER_CMD_DEL => Some (if inactive tm && (tm_alloc_flag tm =? K_OBJ_STATIC_ALLOC)
                           then set_tm_obj_type RHINO_OBJ_TYPE_NONE tm else tm)
  | TIMER_CMD_DYN_DEL => if inactive tm && (tm_alloc_flag tm =? K_OBJ_DYN_ALLOC) then None else Some tm
  | TIMER_CMD_CB => Some tm
  end.

Definition with_timer (t : nat) (r : option ktimer) (T : gmap nat ktimer) : gmap nat ktimer :=
  match r with Some tm => <[t := tm]> T | None => delete t T end.

(** a command and the numbers [krhino_timer_create] would accept *)
Definition cmd_legal (cb : k_timer_queue_cb) (cmd : timer_cmd) : Prop :=
  cmd <> TIMER_CMD_CB /\
  (cmd = TIMER_CMD_CHG -> 0 <= cb_first cb < MAX_TIMER_TICKS /\ 0 <= cb_u cb < MAX_TIMER_TICKS).

(** the state the commands leave *)
Definition cmd_post (T : gmap nat ktimer) (l : list nat) (c : Z) (f : list (nat * Z)) (t : nat) (r : option ktimer)
    (Q : unit -> tstate -> Prop) : Prop :=
  forall l', timers_ok (with_timer t r T) l' -> (timely c T l -> timely c (with_timer t r T) l') ->
    Q tt (mkTs (with_timer t r T) l' c f).

Section cmds.
Context (T : gmap nat ktimer) (l : list nat) (c : Z) (f : list (nat * Z)) (cb : k_timer_queue_cb) (tm : ktimer).
Context (Hok : timers_ok T l) (Ht : T !! cb_timer cb = Some tm).
Abbreviation t := (cb_timer cb).
Abbreviation post := (cmd_post T l c f t).

Lemma cmd_same (Q : unit -> tstate -> Prop) : post (Some tm) Q -> Q tt (mkTs T l c f).
Proof using Hok Ht. intros HQ. specialize (HQ l). cbn in HQ. rewrite insert_id in HQ by done. by apply HQ. Qed.

Lemma wp_for_timer k (r : option ktimer) (Q : unit -> tstate -> Prop) :
  (tm_obj_type tm <> RHINO_TIMER_OBJ_TYPE -> r = Some tm) ->
  (tm_obj_type tm = RHINO_TIMER_OBJ_TYPE -> wp (k tm) Q (mkTs T l c f)) ->
  post r Q -> wp (for_timer t k) Q (mkTs T l c f).
Proof using Hok Ht.
  intros Hr Hk HQ. unfold for_timer. do 2 tstep. case_bool_decide as Hty; [auto|]. apply wp_ret. rewrite Hr in HQ by done. by apply cmd_same.
Qed.

Lemma timer_state_cases : (inactive tm = true /\ timer_state tm = TIMER_DEACTIVE /\ to_head tm = false) \/
  (inactive tm = false /\ timer_state tm = TIMER_ACTIVE /\ to_head tm = true).
Proof using Hok Ht.
  pose proof (tm_head _ (ts_timer _ _ Hok _ _ Ht)) as H. unfold inactive. destruct (timer_state tm); [left|right]; by rewrite H.
Qed.

Lemma timer_started_ok tm0 : timer_ok tm0 -> tm_obj_type tm0 = RHINO_TIMER_OBJ_TYPE -> timer_ok (started c tm0).
Proof using. intros [H1 H2 H3 H4] Hty. by split. Qed.

Lemma wp_cmd_start (Q : unit -> tstate -> Prop) :
  post (cmd_timer c cb TIMER_CMD_START tm) Q -> wp (cmd_proc cb (cmd_num TIMER_CMD_START)) Q (mkTs T l c f).
Proof using Hok Ht.
  intros HQ. cbn [cmd_proc cmd_num Z.eqb Pos.eqb]. eapply wp_for_timer; [| |exact HQ].
  - unfold cmd_timer. intros ?. by rewrite bool_decide_eq_false_2.
  - intros Hty. unfold cmd_timer in HQ. rewrite bool_decide_eq_true_2 in HQ by done. cbn [negb] in HQ.
    pose proof (ts_timer _ _ Hok _ _ Ht) as Htm. pose proof (tm_init _ Htm) as Hi0. rewrite MAX_TIMER_TICKS_eq in Hi0.
    destruct timer_state_cases as [(Hi & Hs & Hh)|(Hi & Hs & Hh)]; rewrite Hi, ?Hs in *.
    + rewrite bool_decide_eq_false_2 by done. do 7 tstep. rewrite !insert_insert_eq. tstep.
      eapply wp_timer_list_pri_insert; [apply lookup_insert_eq| |].
      { intros u Hu. apply lookup_insert_is_Some'. apply (ts_in _ _ Hok), listed_lookup in Hu as (um & Hum & _). right. by eexists. }
      tstep. rewrite insert_insert_eq. cbn [remain set_to_head set_remain].
      erewrite insert_before_ext; [apply HQ; cbn [with_timer]|].
      * eapply insert_ok; [done..|by apply timer_started_ok|done|done].
      * intros Htl. eapply insert_timely; try done. cbn. lia.
      * intros u Hu. unfold tmatch. rewrite lookup_insert_ne; [done|]. intros <-. apply (ts_in _ _ Hok) in Hu.
        unfold listed in Hu. rewrite Ht in Hu. cbn in Hu. congruence.
    + rewrite bool_decide_eq_true_2 by done. apply wp_ret. by apply cmd_same.
Qed.

(** the guard on the type of the timer is the first thing every command looks at *)
Lemma wp_cmd_typed (cmd : timer_cmd) k (Q : unit -> tstate -> Prop) :
  (tm_obj_type tm = RHINO_TIMER_OBJ_TYPE -> post (cmd_timer c cb cmd tm) Q -> wp (k tm) Q (mkTs T l c f)) ->
  post (cmd_timer c cb cmd tm) Q -> wp (for_timer t k) Q (mkTs T l c f).
Proof using Hok Ht.
  intros Hk HQ. eapply wp_for_timer; [|auto|exact HQ]. unfold cmd_timer. intros ?. by rewrite bool_decide_eq_false_2.
Qed.

Lemma cmd_typed : tm_obj_type tm = RHINO_TIMER_OBJ_TYPE -> bool_decide (tm_obj_type tm = RHINO_TIMER_OBJ_TYPE) = true.
Proof using. by apply bool_decide_eq_true_2. Qed.

Lemma stopped_inactive : timer_state tm = TIMER_DEACTIVE -> to_head tm = false -> stopped tm = tm.
Proof using. clear Ht. unfold stopped, set_timer_state, set_to_head. destruct tm; cbn. by intros -> ->. Qed.

Lemma stopped_ok tm0 : timer_ok tm0 -> timer_ok (stopped tm0).
Proof using. intros [H1 H2 H3 H4]. by split. Qed.

Lemma wp_cmd_stop (Q : unit -> tstate -> Prop) :
  post (cmd_timer c cb TIMER_CMD_STOP tm) Q -> wp (cmd_proc cb (cmd_num TIMER_CMD_STOP)) Q (mkTs T l c f).
Proof using Hok Ht.
  intros HP. cbn [cmd_proc cmd_num Z.eqb Pos.eqb]. eapply wp_cmd_typed; [|exact HP]. clear HP. intros Hty HQ.
  unfold cmd_timer in HQ. rewrite cmd_typed in HQ by done. cbn [negb] in HQ. pose proof (ts_timer _ _ Hok _ _ Ht) as Htm.
  destruct timer_state_cases as [(Hi & Hs & Hh)|(Hi & Hs & Hh)]; rewrite Hi in *.
  - apply wp_ret. rewrite stopped_inactive in HQ by done. by apply cmd_same.
  - tstep. eapply wp_timer_list_rm; [done..|]. tstep. rewrite insert_insert_eq.
    apply HQ; cbn [with_timer]; [eapply remove_ok; [done..|by apply stopped_ok|done]|intros ?; by eapply remove_timely].
Qed.

Lemma changed_ok tm0 a b : timer_ok tm0 -> 0 < a < MAX_TIMER_TICKS -> 0 <= b < MAX_TIMER_TICKS ->
  timer_ok (set_round_ticks b (set_init_count a tm0)).
Proof using. intros [H1 H2 H3 H4]. by split. Qed.

Lemma wp_cmd_chg (Q : unit -> tstate -> Prop) :
  cmd_legal cb TIMER_CMD_CHG -> post (cmd_timer c cb TIMER_CMD_CHG tm) Q ->
  wp (cmd_proc cb (cmd_num TIMER_CMD_CHG)) Q (mkTs T l c f).
Proof using Hok Ht.
  intros [_ Hleg] HP. destruct (Hleg eq_refl) as [Ha Hb]. cbn [cmd_proc cmd_num Z.eqb Pos.eqb].
  destruct (Z.eqb_spec (cb_first cb) 0) as [E|E].
  { apply wp_ret. unfold cmd_timer in HP. rewrite (proj2 (Z.eqb_eq _ _) E) in HP. destruct (negb _); by apply cmd_same. }
  eapply wp_cmd_typed; [|exact HP]. clear HP. intros Hty HQ.
  unfold cmd_timer in HQ. rewrite cmd_typed in HQ by done. cbn [negb] in HQ. rewrite (proj2 (Z.eqb_neq _ _) E) in HQ.
  pose proof (ts_timer _ _ Hok _ _ Ht) as Htm.
  destruct timer_state_cases as [(Hi & Hs & Hh)|(Hi & Hs & Hh)]; rewrite Hi in *.
  - rewrite stopped_inactive in HQ by done. apply wp_bind, wp_ret. do 3 tstep. rewrite insert_insert_eq.
    apply HQ; cbn [with_timer]; [eapply keep_ok; [done..|apply changed_ok; [done|lia|lia]|done]|intros ?; by eapply keep_timely].
  - do 2 tstep. eapply wp_timer_list_rm; [done..|]. do 4 tstep. rewrite !insert_insert_eq.
    apply HQ; cbn [with_timer]; [eapply remove_ok; [done..|apply changed_ok; [by apply stopped_ok|lia|lia]|done]|
      intros ?; by eapply remove_timely].
Qed.

Lemma wp_cmd_arg (Q : unit -> tstate -> Prop) :
  post (cmd_timer c cb TIMER_ARG_CHG tm) Q -> wp (cmd_proc cb (cmd_num TIMER_ARG_CHG)) Q (mkTs T l c f).
Proof using Hok Ht.
  intros HP. cbn [cmd_proc cmd_num Z.eqb Pos.eqb]. eapply wp_cmd_typed; [|exact HP]. clear HP. intros Hty HQ.
  unfold cmd_timer in HQ. rewrite cmd_typed in HQ by done. cbn [negb] in HQ. destruct (ts_timer _ _ Hok _ _ Ht) as [H1 H2 H3 H4].
  destruct (inactive tm); [|apply wp_ret; by apply cmd_same]. tstep.
  apply HQ; cbn [with_timer]; [eapply keep_ok; [done..|by split|done]|intros ?; by eapply keep_timely].
Qed.

Lemma wp_cmd_del (Q : unit -> tstate -> Prop) :
  post (cmd_timer c cb TIMER_CMD_DEL tm) Q -> wp (cmd_proc cb (cmd_num TIMER_CMD_DEL)) Q (mkTs T l c f).
Proof using Hok Ht.
  intros HP. cbn [cmd_proc cmd_num Z.eqb Pos.eqb]. eapply wp_cmd_typed; [|exact HP]. clear HP. intros Hty HQ.
  unfold cmd_timer in HQ. rewrite cmd_typed in HQ by done. cbn [negb] in HQ. destruct (ts_timer _ _ Hok _ _ Ht) as [H1 H2 H3 H4].
  destruct timer_state_cases as [(Hi & Hs & Hh)|(Hi & Hs & Hh)]; rewrite Hi in *; cbn [negb andb] in *; [|apply wp_ret; by apply cmd_same].
  destruct (tm_alloc_flag tm =? K_OBJ_STATIC_ALLOC); cbn [negb]; [|apply wp_ret; by apply cmd_same]. tstep.
  apply HQ; cbn [with_timer]; [eapply keep_ok; [done..|split; cbn; [done|by rewrite Hs|done|done]|done]|intros ?; by eapply keep_timely].
Qed.

(** the memory of an inactive timer, given back *)
Lemma delete_ok : to_head tm = false -> timers_ok (delete t T) l.
Proof using Hok Ht.
  intros E. split; [apply Hok| |by apply map_Forall_delete, Hok]. intros u. rewrite (ts_in _ _ Hok). unfold listed.
  destruct (decide (u = t)) as [->|]; [rewrite lookup_delete_eq, Ht; cbn; by rewrite E|by rewrite lookup_delete_ne].
Qed.

Lemma delete_timely : to_head tm = false -> timely c T l -> timely c (delete t T) l.
Proof using Hok Ht.
  intros E [Htk Hlt]. assert (Hn : t ∉ l) by (rewrite (ts_in _ _ Hok); unfold listed; rewrite Ht; cbn; congruence).
  assert (Hlk : forall u, u <> t -> delete t T !! u = T !! u) by (intros u Hu; by apply lookup_delete_ne).
  destruct Htk as [H1 H2 H3 H4]. assert (HM : forall u, u ∈ l -> tmatch (delete t T) u = tmatch T u).
  { intros u Hu. unfold tmatch. rewrite Hlk; [done|]. by intros ->. }
  assert (HL : listed (delete t T) ≐ listed T).
  { intros u. unfold listed. destruct (decide (u = t)) as [->|]; [rewrite lookup_delete_eq, Ht; cbn; by rewrite E|by rewrite Hlk]. }
  split; [split|].
  - done.
  - intros u. by rewrite H2, HL.
  - eapply StronglySorted_weaken; [|exact H3]. intros u v Hu Hv. unfold tick_key. by rewrite !HM.
  - intros u Hu. unfold tick_key. rewrite HM by done. by apply H4.
  - intros u Hu. unfold tick_key. rewrite HM by done. by apply Hlt.
Qed.

Lemma wp_cmd_dyn_del (Q : unit -> tstate -> Prop) :
  post (cmd_timer c cb TIMER_CMD_DYN_DEL tm) Q -> wp (cmd_proc cb (cmd_num TIMER_CMD_DYN_DEL)) Q (mkTs T l c f).
Proof using Hok Ht.
  intros HP. cbn [cmd_proc cmd_num Z.eqb Pos.eqb]. eapply wp_cmd_typed; [|exact HP]. clear HP. intros Hty HQ.
  unfold cmd_timer in HQ. rewrite cmd_typed in HQ by done. cbn [negb] in HQ.
  destruct timer_state_cases as [(Hi & Hs & Hh)|(Hi & Hs & Hh)]; rewrite Hi in *; cbn [negb andb] in *; [|apply wp_ret; by apply cmd_same].
  destruct (tm_alloc_flag tm =? K_OBJ_DYN_ALLOC); cbn [negb]; [|apply wp_ret; by apply cmd_same]. do 3 tstep.
  rewrite delete_insert_eq. apply HQ; cbn [with_timer]; [by apply delete_ok|by apply delete_timely].
Qed.
End cmds.

(** ** A command *)

Lemma cmd_post_mono T l c f t r (P Q : unit -> tstate -> Prop) :
  (forall s, P tt s -> Q tt s) -> cmd_post T l c f t r P -> cmd_post T l c f t r Q.
Proof. intros H HP l' H1 H2. by apply H, HP. Qed.

(** [TIMER_ARG_CHG_AUTO] is three commands *)
Lemma wp_cmd_auto T l c f cb tm (Q : unit -> tstate -> Prop) :
  timers_ok T l -> T !! cb_timer cb = Some tm ->
  cmd_post T l c f (cb_timer cb) (cmd_timer c cb TIMER_ARG_CHG_AUTO tm) Q ->
  wp (cmd_proc cb (cmd_num TIMER_CMD_STOP);; cmd_proc cb (cmd_num TIMER_ARG_CHG);; cmd_proc cb (cmd_num TIMER_CMD_START)) Q
    (mkTs T l c f).
Proof.
  intros Hok Ht HQ. unfold cmd_timer in HQ. apply wp_bind. eapply wp_cmd_stop; [done..|]. unfold cmd_timer.
  case_bool_decide as Hty; cbn [negb] in *.
  2: { rewrite <- (insert_id T _ _ Ht) in HQ. intros l1 Hok1 Hti1. cbn [with_timer] in *. rewrite insert_id in * by done.
       apply wp_bind. eapply wp_cmd_arg; [done..|]. unfold cmd_timer. rewrite bool_decide_eq_false_2 by done.
       intros l2 Hok2 Hti2. cbn [with_timer negb] in *. rewrite insert_id in * by done.
       eapply wp_cmd_start; [done..|]. unfold cmd_timer. rewrite bool_decide_eq_false_2 by done.
       intros l3 Hok3 Hti3. cbn [with_timer negb] in *. rewrite insert_id in * by done.
       specialize (HQ l3). cbn [with_timer] in HQ. rewrite insert_id in HQ by done. apply HQ; auto. }
  intros l1 Hok1 Hti1. cbn [with_timer] in *. apply wp_bind. eapply wp_cmd_arg; [done|apply lookup_insert_eq|].
  unfold cmd_timer. rewrite bool_decide_eq_true_2 by done. cbn [negb].
  intros l2 Hok2 Hti2. cbn [with_timer] in *. rewrite insert_insert_eq in *. eapply wp_cmd_start; [done|apply lookup_insert_eq|].
  unfold cmd_timer. rewrite bool_decide_eq_true_2 by done. cbn [negb].
  intros l3 Hok3 Hti3. cbn [with_timer] in *. rewrite insert_insert_eq in *. apply HQ; auto.
Qed.

(** a legal command does what [cmd_timer] says and keeps the list in order *)
Lemma wp_timer_cmd_proc T l c f cb cmd tm (Q : unit -> tstate -> Prop) :
  timers_ok T l -> T !! cb_timer cb = Some tm -> cb_num cb = cmd_num cmd -> cmd_legal cb cmd ->
  cmd_post T l c f (cb_timer cb) (cmd_timer c cb cmd tm) Q -> wp (timer_cmd_proc cb) Q (mkTs T l c f).
Proof.
  intros Hok Ht Hnum Hleg HQ. unfold timer_cmd_proc. rewrite Hnum.
  destruct cmd; [by destruct Hleg|..]; cbn [cmd_num Z.eqb Pos.eqb].
  - by eapply wp_cmd_start.
  - by eapply wp_cmd_stop.
  - by eapply wp_cmd_chg.
  - by eapply wp_cmd_arg.
  - by eapply wp_cmd_auto.
  - by eapply wp_cmd_del.
  - by eapply wp_cmd_dyn_del.
Qed.
