(* ===== verification/Sys.v ===== *)
(** * Starting the system and interrupts ([core/k_sys.c]) *)

From S2P Require Import Prelude Config RingBuf Bitmap State Sched Inv Tick Pend PriChange KInv Sem BufQueue Task Frame.
Open Scope Z_scope.

(** ** The code *)

Definition RHINO_VERSION : Z := 10000.
Definition RHINO_CONFIG_K_DYN_MEM_TASK_PRI : Z := RHINO_CONFIG_PRI_MAX - 2.
Definition RHINO_CONFIG_K_DYN_TASK_STACK : Z := 64.
Definition RHINO_CONFIG_IDLE_TASK_STACK_SIZE : Z := 64.
Definition RHINO_CONFIG_TIMER_TASK_PRI : Z := 5.
Definition RHINO_CONFIG_TIMER_TASK_STACK_SIZE : Z := 200.
Definition RHINO_CONFIG_TIMER_MSG_NUM : Z := 10.
(** [timer], [cb_num], [first] and [u] with their padding *)
Definition sizeof_k_timer_queue_cb : Z := 24.

(** the globals before [krhino_init], zero apart from the lists it sets up;
    [g_active_task] is NULL until [krhino_start] and is not read before *)
Definition boot_state : kstate :=
  mkK ∅ ∅ runqueue_init [] 0 g_idle_task g_idle_task 0 0 RHINO_STOPPED 0
      (mkKobjList [] [] [] [] [] []) [].

Definition dyn_mem_proc_task_start : K kret :=
  krhino_task_create (Some g_dyn_task) (Some 0%nat) RHINO_CONFIG_K_DYN_MEM_TASK_PRI 0 (Some 0%nat)
    RHINO_CONFIG_K_DYN_TASK_STACK (Some 0%nat) 1.

Definition ktimer_init : K kret :=
  krhino_fix_buf_queue_create (Some g_timer_queue) (Some 0%nat)
    (Some (replicate (Z.to_nat (sizeof_k_timer_queue_cb * RHINO_CONFIG_TIMER_MSG_NUM)) 0))
    sizeof_k_timer_queue_cb RHINO_CONFIG_TIMER_MSG_NUM;;
  krhino_task_create (Some g_timer_task) (Some 0%nat) RHINO_CONFIG_TIMER_TASK_PRI 0 (Some 0%nat)
    RHINO_CONFIG_TIMER_TASK_STACK_SIZE (Some 0%nat) 1.

Definition krhino_init : K kret :=
  modify (set_g_sys_stat RHINO_STOPPED);;
  modify (set_g_ready_queue runqueue_init);;
  modify (set_g_tick_head []);;
  modify (set_g_kobj_list (mkKobjList [] [] [] [] [] []));;
  modify (set_g_res_list []);;
  krhino_sem_create (Some g_res_sem) (Some 0%nat) 0;;
  dyn_mem_proc_task_start;;
  krhino_task_create (Some g_idle_task) (Some 0%nat) RHINO_IDLE_PRI 0 (Some 0%nat)
    RHINO_CONFIG_IDLE_TASK_STACK_SIZE (Some 0%nat) 1;;
  ktimer_init;;
  ret RHINO_SUCCESS.

(** [cpu_first_task_start] jumps to the first task: the call does not return
    to its caller, [Blocked] *)
Definition krhino_start : K kret :=
  st ← gets g_sys_stat;
  if bool_decide (st = RHINO_STOPPED) then
    preferred_cpu_ready_task_get;;
    p ← gets g_preferred_ready_task;
    modify (set_g_active_task p);;
    modify (set_g_sys_stat RHINO_RUNNING);;
    mret Blocked
  else ret RHINO_RUNNING.

Definition krhino_intrpt_enter : K kret :=
  n ← gets g_intrpt_nested_level;
  if RHINO_CONFIG_INTRPT_MAX_NESTED_LEVEL <=? n then k_err_proc RHINO_INTRPT_NESTED_LEVEL_OVERFLOW
  else
    modify (set_g_intrpt_nested_level (u8 (n + 1)));;
    ret RHINO_SUCCESS.

Definition krhino_intrpt_exit : K unit :=
  n ← gets g_intrpt_nested_level;
  if n =? 0 then k_err_proc RHINO_INV_INTRPT_NESTED_LEVEL else
  let n := u8 (n - 1) in
  modify (set_g_intrpt_nested_level n);;
  if 0 <? n then mret tt else
  lock ← gets g_sched_lock;
  if 0 <? lock then mret tt else
  preferred_cpu_ready_task_get;;
  p ← gets g_preferred_ready_task;
  a ← gets g_active_task;
  if bool_decide (p = a) then mret tt else tspend_handler.

Definition krhino_version_get : Z := RHINO_VERSION.

(** ** Interrupts *)

Lemma kpre_nested s n : kpre s -> 0 <= n < 2 ^ 8 -> kpre (set_g_intrpt_nested_level n s).
Proof. intros [[Hc Hpi [? ? ? ? ? ?]] Hno] Hn. split; [split|]; [done..| |done]. by split. Qed.

(** entering an interrupt up to the level the configuration allows *)
Lemma krhino_intrpt_enter_wf s : wf s -> g_intrpt_nested_level s < RHINO_CONFIG_INTRPT_MAX_NESTED_LEVEL ->
  wp krhino_intrpt_enter (fun r s' => r = Ret RHINO_SUCCESS /\ wf s' /\
    s' = set_g_intrpt_nested_level (g_intrpt_nested_level s + 1) s) s.
Proof.
  intros Hwf Hn. unfold krhino_intrpt_enter, RHINO_CONFIG_INTRPT_MAX_NESTED_LEVEL in *. apply wp_bind, wp_gets.
  destruct (Z.leb_spec 188 (g_intrpt_nested_level s)); [lia|]. apply wp_bind, wp_modify, wp_ret. split; [done|].
  pose proof (so_nested _ _ _ _ (kp_sched _ (kp_mid _ (wf_pre _ Hwf)))). rewrite u8_small by lia. split; [|done].
  apply wf_nested; [apply kpre_nested; [apply Hwf|lia]|cbn; lia].
Qed.

Lemma krhino_intrpt_enter_ovf s : RHINO_CONFIG_INTRPT_MAX_NESTED_LEVEL <= g_intrpt_nested_level s ->
  krhino_intrpt_enter s = Reset RHINO_INTRPT_NESTED_LEVEL_OVERFLOW.
Proof.
  intros Hn. unfold krhino_intrpt_enter, mbind, M_bind, gets. by rewrite (proj2 (Z.leb_le _ _) Hn).
Qed.

(** leaving an interrupt runs the scheduler when it was the outermost one *)
Lemma intrpt_exit_sched s Q : g_intrpt_nested_level s <> 0 ->
  wp core_sched Q (set_g_intrpt_nested_level (u8 (g_intrpt_nested_level s - 1)) s) -> wp krhino_intrpt_exit Q s.
Proof.
  intros Hn HQ. unfold krhino_intrpt_exit. apply wp_bind, wp_gets. destruct (Z.eqb_spec (g_intrpt_nested_level s) 0); [done|].
  cbv zeta. apply wp_bind, wp_modify. exact HQ.
Qed.

Lemma krhino_intrpt_exit_wf s : wf s -> 0 < g_intrpt_nested_level s ->
  wp krhino_intrpt_exit (fun _ s' => (wf s' /\ exists p a,
    s' = set_g_active_task a (set_g_preferred_ready_task p (set_g_intrpt_nested_level (g_intrpt_nested_level s - 1) s))) /\
    (no_switch s' -> g_active_task s' = g_active_task s)) s.
Proof.
  intros Hwf Hn. pose proof (so_nested _ _ _ _ (kp_sched _ (kp_mid _ (wf_pre _ Hwf)))). apply intrpt_exit_sched; [lia|].
  rewrite u8_small by lia. eapply wp_mono; [|apply (wp_frames core_sched (fun _ s' => wf s' /\ exists p a,
    s' = set_g_active_task a (set_g_preferred_ready_task p (set_g_intrpt_nested_level (g_intrpt_nested_level s - 1) s))))].
  - cbv beta. intros _ s' [[Hwf' (p & a & ->)] Hf]. split; [split; [done|by exists p, a]|]. exact (fm_active _ _ Hf).
  - auto with frames.
  - apply wp_core_sched; [apply kpre_nested; [apply Hwf|lia]|]. intros s' Hwf' (p & a & ->). split; [done|by exists p, a].
Qed.

Lemma krhino_intrpt_exit_inv s : g_intrpt_nested_level s = 0 -> krhino_intrpt_exit s = Reset RHINO_INV_INTRPT_NESTED_LEVEL.
Proof. intros Hn. unfold krhino_intrpt_exit, mbind, M_bind, gets. by rewrite Hn. Qed.

(** ** Before the system runs *)

Record booting (s : kstate) : Prop := {
  bt_core : core None (g_tasks s) (g_objs s) (g_ready_queue s) (g_tick_head s) 1 (g_tick_count s);
  bt_pi : pi_all (g_tasks s);
  bt_none : none_ok (g_objs s);
  bt_stat : g_sys_stat s = RHINO_STOPPED;
  bt_levels : g_intrpt_nested_level s = 0 /\ g_sched_lock s = 0;
  bt_active : g_active_task s = g_idle_task;
  bt_idle : forall ik, g_tasks s !! g_idle_task = Some ik ->
              task_state ik = K_RDY /\ b_prio ik = RHINO_IDLE_PRI /\ mutex_list ik = [] /\ 0 < g_idle_task_spawned s;
  bt_user : forall t tk, g_tasks s !! t = Some tk -> t <> g_idle_task -> b_prio tk < RHINO_IDLE_PRI
}.

Lemma booting_boot : booting (set_g_res_list [] boot_state).
Proof.
  assert (Hring : forall p, ring runqueue_init p = []) by done.
  split; try done. split; cbn; try done.
  - split; try done.
    + intros p. rewrite Hring. apply NoDup_nil_2.
    + intros p t. rewrite Hring. split; [by intros ?%elem_of_nil|done].
    + split; [|done]. by repeat constructor.
    + intros p Hp. rewrite Hring. unfold bm_bit. cbn [task_bit_map runqueue_init].
      destruct ([0; 0] !! BITMAP_WORD p) as [w|] eqn:E; [|done].
      apply list_elem_of_lookup_2 in E. assert (w = 0) as -> by set_solver. by rewrite Z.bits_0.
    + by left.
  - split; cbn; try done; [apply NoDup_nil_2| |constructor|by intros t ?%elem_of_nil].
    intros t. split; [by intros ?%elem_of_nil|done].
  - split; cbn; [|intros; apply NoDup_nil_2]. intros t m. split; [by intros ?%elem_of_nil|done].
Qed.

(** a new object *)
Lemma booting_new_obj s o ob : booting s -> fresh_obj s o -> obj_ok ob -> blk_list ob = [] ->
  owner_of ob = None -> booting (with_obj o ob s).
Proof.
  intros [Hc Hpi Hno ? ? ? ? ?] Ho Hok Hl Hw. destruct (fresh_core _ _ _ _ _ _ Hc Hno Ho).
  split; cbn; try done; [|by apply none_insert]. by apply core_new_obj.
Qed.

(** a creation before the start: one more task, and the idle task is the one of
    the lowest priority *)
Lemma booting_task_create s task name p ticks stack_buf size entry autorun flag :
  booting s -> 0 <= p -> (forall t, task = Some t -> fresh_task (g_tasks s) t) ->
  (p = RHINO_IDLE_PRI -> g_idle_task_spawned s <= 0 -> task = Some g_idle_task /\ 0 < autorun) ->
  (p <> RHINO_IDLE_PRI -> task <> Some g_idle_task) ->
  wp (task_create task name p ticks stack_buf size entry autorun flag)
    (fun r s' => (exists st, r = Ret st /\ s' = s /\ create_err s [task; name; entry; stack_buf] p size st) \/
       exists t, task = Some t /\ r = Ret RHINO_SUCCESS /\ booting s' /\ g_objs s' = g_objs s /\
         g_tasks s' = <[t := new_task p ticks size autorun flag]> (g_tasks s) /\
         g_idle_task_spawned s' = if decide (p = RHINO_IDLE_PRI) then 1 else g_idle_task_spawned s) s.
Proof.
  intros [Hc Hpi Hno Hst [Hn Hl] Ha Hi Hu] Hp Hf Hidle Hother. apply wp_kput.
  eapply wp_task_create; [exact Hc|exact Hpi|exact Hf|lia| |].
  { intros st Herr. left. exists st. by rewrite kput_eta. }
  intros t rq' Ht Hft Hpm Hsp0 Hc' Hpi' s'. destruct (create_globals_same t p s) as [Hsame Hss].
  destruct (new_task_facts p ticks size autorun flag) as (Hok & Hnew & Hm & Hbp & Hpp & Hstate); [lia|].
  destruct Hsame as (_ & _ & _ & _ & E5 & E6 & E7 & E8). assert (Hsp : g_idle_task_spawned (create_globals t p s) =
    if decide (p = RHINO_IDLE_PRI) then 1 else g_idle_task_spawned s).
  { unfold create_globals. destruct (decide (p = RHINO_IDLE_PRI)) as [->|Hne]; [done|]. by rewrite (proj2 (Z.eqb_neq _ _) Hne). }
  assert (Hb : booting s'); [|assert (Hdone := conj Ht (conj (eq_refl (Ret RHINO_SUCCESS)) (conj Hb
    (conj (eq_refl (g_objs s')) (conj (eq_refl (g_tasks s')) Hsp))))); split_and!;
    [intros _; right; by exists t|by rewrite Hst|intros _ _; right; by exists t]].
  subst s'. split; unfold kput;
    cbn [g_tasks g_objs g_ready_queue g_tick_head g_tick_count g_active_task g_sched_lock g_intrpt_nested_level
         g_sys_stat g_idle_task_spawned]; rewrite ?E5, ?E6, ?E7, ?E8, ?Hss, ?Hsp; try done.
  - intros ik [[-> <-]|[Hne Hik]]%lookup_insert_Some.
    + destruct (decide (p = RHINO_IDLE_PRI)) as [->|Hpn]; [|by destruct (Hother Hpn)].
      destruct (Hidle eq_refl (Hsp0 eq_refl)) as [_ Hau]. rewrite Hstate, <- Hbp, (proj2 (Z.ltb_lt _ _) Hau). done.
    + destruct (Hi _ Hik) as (? & ? & ? & ?). split_and!; try done. by case_decide.
  - intros u uk [[<- <-]|[_ Huk]]%lookup_insert_Some Hne; [|by eapply Hu].
    rewrite <- Hbp. destruct (decide (p = RHINO_IDLE_PRI)) as [->|]; [|unfold RHINO_IDLE_PRI in *; lia].
    destruct (Hidle eq_refl (Hsp0 eq_refl)) as [? _]. congruence.
Qed.

Lemma booting_task s t name stack_buf p ticks size entry autorun :
  booting s -> g_tasks s !! t = None -> 0 <= p < RHINO_CONFIG_PRI_MAX -> size <> 0 ->
  (if decide (t = g_idle_task) then p = RHINO_IDLE_PRI /\ 0 < autorun /\ g_idle_task_spawned s = 0 else p < RHINO_IDLE_PRI) ->
  wp (krhino_task_create (Some t) (Some name) p ticks (Some stack_buf) size (Some entry) autorun)
    (fun r s' => r = Ret RHINO_SUCCESS /\ booting s' /\ g_objs s' = g_objs s /\
       g_tasks s' = <[t := new_task p ticks size autorun K_OBJ_STATIC_ALLOC]> (g_tasks s) /\
       g_idle_task_spawned s' = if decide (p = RHINO_IDLE_PRI) then 1 else g_idle_task_spawned s) s.
Proof.
  intros Hb Ht Hp Hsz Hidle. pose proof (bt_levels _ Hb) as [Hn _]. eapply wp_mono; [|apply booting_task_create; [exact Hb|lia|..]].
  - cbv beta. intros r s' [(st & _ & _ & Herr)|(t' & [= <-] & H)]; [|exact H]. exfalso.
    destruct Herr; [set_solver|lia|lia|lia|]. case_decide; [destruct Hidle as (_ & _ & ?)|]; lia.
  - intros u [= <-] ??. congruence.
  - intros -> _. case_decide as Ht'; [subst; split; [done|lia]|lia].
  - intros Hne [= ->]. rewrite decide_True in Hidle by done. by destruct Hidle.
Qed.

(** the idle task and the objects of the kernel are there *)
Record initialised (s : kstate) : Prop := {
  in_boot : booting s;
  in_tasks : dom (g_tasks s) = ({[g_idle_task; g_dyn_task; g_timer_task]} : gset nat);
  in_spawned : g_idle_task_spawned s = 1;
  in_sem : g_objs s !! g_res_sem = Some (mkObj [] BLK_POLICY_PRI RHINO_SEM_OBJ_TYPE K_OBJ_STATIC_ALLOC (KSem 0 0));
  in_queue : exists ob, g_objs s !! g_timer_queue = Some ob /\ obj_type ob = RHINO_BUF_QUEUE_OBJ_TYPE
}.

(** Set up: [krhino_init] has run and [krhino_start] has not, whatever tasks and
    objects were created in between. *)
Record setup (s : kstate) : Prop := {
  su_boot : booting s;
  su_idle : is_Some (g_tasks s !! g_idle_task);
  su_spawned : g_idle_task_spawned s = 1
}.

Lemma booting_same s s' : same_view s s' -> g_sys_stat s' = g_sys_stat s -> g_idle_task_spawned s' = g_idle_task_spawned s ->
  booting s -> booting s'.
Proof.
  intros (H1 & H2 & H3 & H4 & H5 & H6 & H7 & H8) H9 H10 [? ? ? ? ? ? ? ?].
  split; rewrite ?H1, ?H2, ?H3, ?H4, ?H5, ?H6, ?H7, ?H8, ?H9, ?H10; done.
Qed.

Lemma booting_ktimer_init s : booting s -> g_tasks s !! g_timer_task = None -> g_objs s !! g_timer_queue = None ->
  wp ktimer_init (fun r s' => booting s' /\ dom (g_tasks s') = {[g_timer_task]} ∪ dom (g_tasks s) /\
    g_idle_task_spawned s' = g_idle_task_spawned s /\
    exists ob, obj_type ob = RHINO_BUF_QUEUE_OBJ_TYPE /\ g_objs s' = <[g_timer_queue := ob]> (g_objs s)) s.
Proof.
  intros Hb Ht Ho. unfold ktimer_init, krhino_fix_buf_queue_create. change (u32 _) with 240. apply wp_bind.
  unfold buf_queue_create, NULL_PARA_CHK. set (mem := replicate _ 0). change (sizeof_k_timer_queue_cb =? 0) with false.
  change (240 =? 0) with false. cbv iota zeta. apply wp_bind, wp_modify, wp_bind, wp_modify, wp_ret.
  change (mkObj _ _ _ _ _) with (new_buf_queue mem 240 sizeof_k_timer_queue_cb K_OBJ_STATIC_ALLOC RINGBUF_TYPE_FIX).
  set (ob := new_buf_queue _ _ _ _ _). assert (Hok : obj_ok ob).
  { apply new_buf_queue_ok; [subst mem; rewrite length_replicate; by vm_compute|done|]. intros _. by exists 10. }
  eapply wp_mono; [|eapply booting_task; [eapply (booting_same (set_g_objs (<[g_timer_queue := ob]> (g_objs s)) s));
    [done..|by apply booting_new_obj; [|intros ??; congruence|..]]|exact Ht|done|done|by rewrite decide_False]].
  cbv beta. intros r s' (_ & Hb' & Hobjs & Htasks & Hsp). split_and!; [done| |by rewrite Hsp|by exists ob].
  by rewrite Htasks, dom_insert_L.
Qed.

Lemma wp_krhino_init : wp krhino_init (fun r s => r = Ret RHINO_SUCCESS /\ initialised s) boot_state.
Proof.
  unfold krhino_init. do 5 (apply wp_bind, wp_modify). apply wp_bind.
  change (set_g_res_list _ _) with (set_g_res_list [] boot_state).
  unfold krhino_sem_create, sem_create, NULL_PARA_CHK. apply wp_bind, wp_modify, wp_bind, wp_modify, wp_ret, wp_bind.
  set (sem := mkObj _ _ _ _ _). eapply wp_mono; [|eapply booting_task;
    [eapply (booting_same (set_g_objs (<[g_res_sem := sem]> ∅) (set_g_res_list [] boot_state)));
      [done..|apply (booting_new_obj _ _ _ booting_boot); try done; by vm_compute]|done|done|done|by rewrite decide_False]].
  cbv beta. intros _ s1 (_ & Hb1 & Ho1 & Ht1 & Hs1). cbn in Ho1, Ht1, Hs1. apply wp_bind.
  eapply wp_mono; [|eapply booting_task; [exact Hb1|by rewrite Ht1|done|done|by rewrite decide_True]].
  cbv beta. intros _ s2 (_ & Hb2 & Ho2 & Ht2 & Hs2). apply wp_bind.
  eapply wp_mono; [|apply (booting_ktimer_init s2 Hb2); [by rewrite Ht2, Ht1|by rewrite Ho2, Ho1]].
  cbv beta. intros _ s3 (Hb3 & Hd3 & Hs3 & ob & Hty & Ho3). apply wp_ret. split; [done|]. split; [done| |by rewrite Hs3, Hs2, decide_True|..].
  - rewrite Hd3, Ht2, dom_insert_L, Ht1, dom_insert_L. by vm_compute.
  - by rewrite Ho3, Ho2, Ho1.
  - exists ob. rewrite Ho3. split; [apply lookup_insert_eq|done].
Qed.

Lemma initialised_setup s : initialised s -> setup s.
Proof. intros [Hb Hd Hs _ _]. split; [done| |done]. apply elem_of_dom. rewrite Hd. set_solver. Qed.

#[export] Instance setup_creates : Creates setup.
Proof.
  split.
  - intros s o ob [Hb Hi Hs] Ho Hok Hl Hw. split; [by apply booting_new_obj|done..].
  - intros s l [Hb Hi Hs]. split; [by apply (booting_same s)|done..].
Qed.

Lemma setup_task_create s task name p ticks stack_buf size entry autorun flag :
  setup s -> 0 <= p -> (forall t, task = Some t -> fresh_task (g_tasks s) t) ->
  wp (task_create task name p ticks stack_buf size entry autorun flag) (fun _ s' => setup s') s.
Proof.
  intros [Hb [ik Hik] Hs] Hp Hf. assert (Hni : task <> Some g_idle_task).
  { intros Et. specialize (Hf _ Et _ Hik). destruct (bt_idle _ Hb _ Hik) as [? _]. congruence. }
  eapply wp_mono; [|apply booting_task_create; [exact Hb|done|done|lia|done]]. cbv beta.
  intros r s' [(st & _ & -> & _)|(t & Et & _ & Hb' & _ & HT & Hsp)]; [split; [done|by exists ik|done]|].
  split; [done| |rewrite Hsp; by case_decide]. rewrite HT. apply lookup_insert_is_Some'. right. by exists ik.
Qed.

(** ** Starting *)

(** the system is started once, on the ready task with the highest priority *)
Lemma wp_krhino_start s : setup s ->
  wp krhino_start (fun r s' => r = Blocked /\ wf s' /\ g_sys_stat s' = RHINO_RUNNING /\ 0 < g_idle_task_spawned s' /\
    exists t, s' = set_g_sys_stat RHINO_RUNNING (set_g_active_task t (set_g_preferred_ready_task t s))) s.
Proof.
  intros [[Hc Hpi Hno Hst [Hn Hl] Ha Hi Hu] [ik Hik] _]. destruct (Hi _ Hik) as (Hir & Hib & Him & Hsp).
  assert (Hk : kpre s).
  { split; [split|]; try done. rewrite Ha. split; try done; [by eexists|lia|lia|lia]. }
  assert (Hidle : is_Some (ready (g_tasks s) g_idle_task)).
  { unfold ready. rewrite (tview_lookup _ _ _ _ _ Hik). unfold ready_of. rewrite Hir. by eexists. }
  unfold krhino_start. apply wp_bind, wp_gets. rewrite Hst, bool_decide_eq_true_2 by done. apply wp_bind.
  unfold preferred_cpu_ready_task_get. apply wp_bind, wp_gets.
  destruct (top_some _ _ _ (c_rq _ _ _ _ _ _ _ Hc) Hidle) as (t & l & E). rewrite E.
  apply wp_modify, wp_bind, wp_gets, wp_bind, wp_modify, wp_bind, wp_modify, wp_ret.
  pose proof (top_ready _ _ _ _ (c_rq _ _ _ _ _ _ _ Hc) E) as Ht. split_and!; [done| |done|done|by exists t].
  eapply (wf_same (set_g_active_task t (set_g_preferred_ready_task t s))); [done|].
  eapply kpre_active; [done|exact Ht|done..|]. unfold top. by rewrite E.
Qed.

Lemma krhino_start_twice s : g_sys_stat s = RHINO_RUNNING -> krhino_start s = Ok (Ret RHINO_RUNNING, s).
Proof. intros H. unfold krhino_start, mbind, M_bind, gets. by rewrite H. Qed.
