(* ===== verification/TimerTask.v ===== *)
(** * The timer task and the timer calls ([core/k_timer.c])

    A call puts a command in the queue of the timer task, [g_timer_queue]: the
    bytes of a [k_timer_queue_cb].  The task executes the commands and calls
    the callbacks ([Timer]); it runs on the kernel, so its state is here a pair
    of the kernel's and of its own. *)

From S2P Require Import Prelude Config RingBuf State Sched Inv Tick Pend KInv BufQueue Time Timer Sys.
Open Scope Z_scope.

(** ** Messages in memory *)

(** the [n] bytes of an integer, little-endian *)
Fixpoint le (n : nat) (v : Z) : list Z :=
  match n with O => [] | S n => Z.land v 255 :: le n (Z.shiftr v 8) end.

Fixpoint of_le (l : list Z) : Z :=
  match l with [] => 0 | b :: l => b + Z.shiftl (of_le l) 8 end.

(** the fields of [k_timer_queue_cb]; [u] is a union *)
Definition put_timer (t : nat) (m : list Z) : option (list Z) := mem_write m 0 (le 4 (Z.of_nat t)).
Definition put_cb_num (cmd : timer_cmd) (m : list Z) : option (list Z) := mem_write m 4 (le 1 (cmd_num cmd)).
Definition put_first (first : Z) (m : list Z) : option (list Z) := mem_write m 8 (le 8 first).
Definition put_round (round : Z) (m : list Z) : option (list Z) := mem_write m 16 (le 8 round).
Definition put_arg (arg : Z) (m : list Z) : option (list Z) := mem_write m 16 (le 4 arg).

Definition cb_read (m : list Z) : option k_timer_queue_cb :=
  t ← mem_read m 0 4; n ← mem_read m 4 1; f ← mem_read m 8 8; u ← mem_read m 16 8;
  Some (mkCb (Z.to_nat (of_le t)) (of_le n) (of_le f) (of_le u)).

(** ** The calls: [m] is what the stack holds where [cb] is *)

Definition timer_send (m : option (list Z)) : K kret :=
  m ← lift m; krhino_buf_queue_send (Some g_timer_queue) (Some m) sizeof_k_timer_queue_cb.

Definition krhino_timer_del (timer : option nat) (m : list Z) : K kret :=
  NULL_PARA_CHK timer (fun t => timer_send (m ← put_timer t m; put_cb_num TIMER_CMD_DEL m)).

Definition krhino_timer_dyn_del (timer : option nat) (m : list Z) : K kret :=
  NULL_PARA_CHK timer (fun t => timer_send (m ← put_timer t m; put_cb_num TIMER_CMD_DYN_DEL m)).

Definition krhino_timer_start (timer : option nat) (m : list Z) : K kret :=
  NULL_PARA_CHK timer (fun t => timer_send (m ← put_timer t m; put_cb_num TIMER_CMD_START m)).

Definition krhino_timer_stop (timer : option nat) (m : list Z) : K kret :=
  NULL_PARA_CHK timer (fun t => timer_send (m ← put_timer t m; put_cb_num TIMER_CMD_STOP m)).

(** [(tick_t)-1] *)
Definition krhino_timer_change (timer : option nat) (first round : Z) (m : list Z) : K kret :=
  NULL_PARA_CHK timer (fun t =>
  if u64 (-1) <=? first then ret RHINO_INV_PARAM else
  if u64 (-1) <=? round then ret RHINO_INV_PARAM else
  timer_send (m ← put_timer t m; m ← put_first first m; m ← put_round round m; put_cb_num TIMER_CMD_CHG m)).

Definition krhino_timer_arg_change (timer : option nat) (arg : Z) (m : list Z) : K kret :=
  NULL_PARA_CHK timer (fun t => timer_send (m ← put_timer t m; m ← put_arg arg m; put_cb_num TIMER_ARG_CHG m)).

Definition krhino_timer_arg_change_auto (timer : option nat) (arg : Z) (m : list Z) : K kret :=
  NULL_PARA_CHK timer (fun t => timer_send (m ← put_timer t m; m ← put_arg arg m; put_cb_num TIMER_ARG_CHG_AUTO m)).

(** ** The kernel with the timers *)

Record tsys := mkSys { kern : kstate; tims : tstate }.

Abbreviation TS := (M kstat_t tsys).

Definition in_kern {A} (m : K A) : TS A := fun s =>
  match m (kern s) with Ok (a, k) => Ok (a, mkSys k (tims s)) | Reset e => Reset e | Undef => Undef end.
Definition in_tims {A} (m : TM A) : TS A := fun s =>
  match m (tims s) with Ok (a, t) => Ok (a, mkSys (kern s) t) | Reset e => Reset e | Undef => Undef end.

Definition new_timer (first round arg mm_alloc_flag : Z) : ktimer :=
  mkTimer false arg 0 0 first round RHINO_TIMER_OBJ_TYPE TIMER_DEACTIVE mm_alloc_flag.

Definition timer_create (timer name cb : option nat) (first round arg auto_run mm_alloc_flag : Z) (m : list Z) : TS kret :=
  match timer, name, cb with
  | Some t, Some _, Some _ =>
      if first =? 0 then mret (Ret RHINO_INV_PARAM) else
      if MAX_TIMER_TICKS <=? first then mret (Ret RHINO_INV_PARAM) else
      if MAX_TIMER_TICKS <=? round then mret (Ret RHINO_INV_PARAM) else
      in_tims (modify (fun s => set_g_timers (<[t := new_timer first round arg mm_alloc_flag]> (g_timers s)) s));;
      if 0 <? auto_run then in_kern (krhino_timer_start (Some t) m) else mret (Ret RHINO_SUCCESS)
  | _, _, _ => mret (Ret RHINO_NULL_PTR)
  end.

Definition krhino_timer_create (timer name cb : option nat) (first round arg auto_run : Z) (m : list Z) : TS kret :=
  timer_create timer name cb first round arg auto_run K_OBJ_STATIC_ALLOC m.

(** [alloc] is what [krhino_mm_alloc] returns, the last component what is
    stored through [timer] *)
Definition krhino_timer_dyn_create (timer alloc name cb : option nat) (first round arg auto_run : Z) (m : list Z)
    : TS (kret * option nat) :=
  if bool_decide (timer = None) then mret (Ret RHINO_NULL_PTR, None) else
  if MAX_TIMER_TICKS <=? first then mret (Ret RHINO_INV_PARAM, None) else
  if MAX_TIMER_TICKS <=? round then mret (Ret RHINO_INV_PARAM, None) else
  match alloc with
  | None => mret (Ret RHINO_NO_MEM, None)
  | Some t =>
      r ← timer_create (Some t) name cb first round arg auto_run K_OBJ_DYN_ALLOC m;
      match r with
      | Ret RHINO_SUCCESS => mret (r, Some t)
      | _ => in_tims (modify (fun s => set_g_timers (delete t (g_timers s)) s));; mret (r, None)
      end
  end.

(** ** The task *)

(** where the task waits: the first [krhino_buf_queue_recv], or the one of the
    inner loop *)
Inductive tpc := AtCommand | AtTimer.

Definition timer_recv (ticks : Z) : TS (kret * option (list Z * Z)) :=
  in_kern (krhino_buf_queue_recv (Some g_timer_queue) ticks (Some 0%nat) (Some 0%nat)).

Definition run_msg (msg : option (list Z * Z)) : TS unit :=
  in_tims ('(m, _) ← lift msg; cb ← lift (cb_read m); timer_cmd_proc cb).

(** the task after the wait, up to the test of the inner loop *)
Definition timer_got (pc : tpc) (err : kstat_t) (msg : option (list Z * Z)) : TS unit :=
  tick_end ← in_kern krhino_sys_tick_get;
  match pc with
  | AtCommand =>
      (if bool_decide (err = RHINO_SUCCESS) then in_tims (modify (set_g_timer_count tick_end)) else stop RHINO_SYS_FATAL_ERR);;
      run_msg msg
  | AtTimer =>
      (if bool_decide (err = RHINO_BLK_TIMEOUT) then in_tims (modify (set_g_timer_count tick_end))
       else if bool_decide (err = RHINO_SUCCESS) then in_tims (modify (set_g_timer_count tick_end));; run_msg msg
       else stop RHINO_SYS_FATAL_ERR);;
      in_tims timer_cb_proc
  end.

(** the inner loop, and the outer one, until the task waits; each turn takes a
    command or calls a callback *)
Fixpoint timer_loop (fuel : nat) : TS tpc :=
  match fuel with
  | O => undef
  | S n =>
      l ← in_tims (gets g_timer_head);
      match l with
      | [] =>
          '(r, msg) ← timer_recv RHINO_WAIT_FOREVER;
          match r with
          | Blocked => mret AtCommand
          | Ret err => timer_got AtCommand err msg;; timer_loop n
          end
      | t :: _ =>
          tm ← in_tims (get_timer t);
          tick_start ← in_kern krhino_sys_tick_get;
          let delta := i64 (tm_match tm - tick_start) in
          if 0 <? delta then
            '(r, msg) ← timer_recv (u64 delta);
            match r with
            | Blocked => mret AtTimer
            | Ret err => timer_got AtTimer err msg;; timer_loop n
            end
          else
            in_tims (modify (set_g_timer_count tick_start));;
            in_tims timer_cb_proc;;
            timer_loop n
      end
  end.

(** the task when the wait at [pc] ends *)
Definition timer_task_resume (fuel : nat) (pc : tpc) : TS tpc :=
  '(r, msg) ← in_kern krhino_buf_queue_recv_resume;
  match r with
  | Ret err => timer_got pc err msg;; timer_loop fuel
  | Blocked => undef
  end.

Definition timer_task (fuel : nat) : TS tpc :=
  '(r, msg) ← timer_recv RHINO_WAIT_FOREVER;
  match r with
  | Blocked => mret AtCommand
  | Ret err => timer_got AtCommand err msg;; timer_loop fuel
  end.

(** ** Messages: reading what was written *)

Lemma length_le n v : length (le n v) = n.
Proof. revert v. induction n; cbn; auto. Qed.

Lemma of_le_le n v : 0 <= v < 2 ^ (8 * Z.of_nat n) -> of_le (le n v) = v.
Proof.
  revert v. induction n as [|n IH]; intros v Hv; cbn [le of_le]; [cbn in Hv; lia|].
  rewrite IH. { change 255 with (Z.ones 8). rewrite Z.land_ones, Z.shiftl_mul_pow2, Z.shiftr_div_pow2 by lia. zlia. }
  rewrite Z.shiftr_div_pow2 by lia. split; [apply Z.div_pos; lia|]. apply Z.div_lt_upper_bound; [lia|].
  rewrite <- Z.pow_add_r by lia. replace (8 + 8 * Z.of_nat n) with (8 * Z.of_nat (S n)) by lia. lia.
Qed.

Lemma mem_write_ok m off d : (off + length d <= length m)%nat -> exists m', mem_write m off d = Some m'.
Proof. intros H. unfold mem_write. rewrite (proj2 (Nat.leb_le _ _) H). by eexists. Qed.

Lemma mem_write_length m off d m' : mem_write m off d = Some m' -> length m' = length m.
Proof.
  unfold mem_write. destruct (Nat.leb_spec (off + length d) (length m)); [|done]. intros [= <-].
  rewrite !length_app, length_take, length_drop. lia.
Qed.

Lemma mem_read_write m off d m' n : mem_write m off d = Some m' -> n = length d -> mem_read m' off n = Some d.
Proof.
  intros H ->. pose proof (mem_write_length _ _ _ _ H) as Hl. revert H Hl. unfold mem_write, mem_read.
  destruct (Nat.leb_spec (off + length d) (length m)); [|done]. intros [= <-] Hl. rewrite Hl, (proj2 (Nat.leb_le _ _)) by lia.
  rewrite drop_app_ge, length_take by (rewrite length_take; lia).
  replace (off - off `min` length m)%nat with O by lia. rewrite drop_0, <- (Nat.add_0_r (length d)), take_app_add. cbn. by rewrite app_nil_r.
Qed.

Lemma mem_read_write_ne m off d m' o n : mem_write m off d = Some m' ->
  (o + n <= off \/ off + length d <= o)%nat -> mem_read m' o n = mem_read m o n.
Proof.
  intros H Ho. pose proof (mem_write_length _ _ _ _ H) as Hl. revert H Hl. unfold mem_write, mem_read.
  destruct (Nat.leb_spec (off + length d) (length m)) as [Hw|]; [|done]. intros [= <-] Hl. rewrite Hl.
  destruct (Nat.leb_spec (o + n) (length m)) as [Hr|]; [|done]. f_equal. apply list_eq. intros i.
  destruct (decide (i < n)%nat); [|by rewrite !lookup_take_ge by lia]. rewrite !lookup_take_lt, !lookup_drop by done.
  destruct Ho.
  - rewrite lookup_app_l by (rewrite length_take; lia). by rewrite lookup_take_lt by lia.
  - rewrite lookup_app_r, lookup_app_r, lookup_drop; rewrite ?length_take; [|lia..]. f_equal. lia.
Qed.

Lemma mem_read_ok m o n : (o + n <= length m)%nat -> exists d, mem_read m o n = Some d /\ length d = n.
Proof.
  intros H. unfold mem_read. rewrite (proj2 (Nat.leb_le _ _) H). eexists. split; [done|]. rewrite length_take, length_drop. lia.
Qed.

Lemma mem_read_app m o n1 n2 d1 d2 : mem_read m o n1 = Some d1 -> mem_read m (o + n1) n2 = Some d2 ->
  mem_read m o (n1 + n2) = Some (d1 ++ d2).
Proof.
  unfold mem_read. destruct (Nat.leb_spec (o + n1) (length m)); [|done]. intros [= <-].
  destruct (Nat.leb_spec (o + n1 + n2) (length m)); [|done]. intros [= <-]. rewrite (proj2 (Nat.leb_le _ _)) by lia.
  f_equal. rewrite <- drop_drop, take_take_drop. done.
Qed.

Lemma of_le_app l1 l2 : of_le (l1 ++ l2) = of_le l1 + 2 ^ (8 * Z.of_nat (length l1)) * of_le l2.
Proof.
  induction l1 as [|b l1 IH]; [cbn; lia|]. cbn [app of_le length]. rewrite IH, !Z.shiftl_mul_pow2 by lia.
  replace (8 * Z.of_nat (S (length l1))) with (8 + 8 * Z.of_nat (length l1)) by lia. rewrite Z.pow_add_r by lia. ring.
Qed.

(** ** What the calls send *)

Inductive timer_req :=
  | ReqStart | ReqStop | ReqDel | ReqDynDel
  | ReqChange (first round : Z) | ReqArg (arg : Z) | ReqArgAuto (arg : Z).

Definition run_req (q : timer_req) (timer : option nat) (m : list Z) : K kret :=
  match q with
  | ReqStart => krhino_timer_start timer m
  | ReqStop => krhino_timer_stop timer m
  | ReqDel => krhino_timer_del timer m
  | ReqDynDel => krhino_timer_dyn_del timer m
  | ReqChange first round => krhino_timer_change timer first round m
  | ReqArg arg => krhino_timer_arg_change timer arg m
  | ReqArgAuto arg => krhino_timer_arg_change_auto timer arg m
  end.

Definition req_cmd (q : timer_req) : timer_cmd :=
  match q with
  | ReqStart => TIMER_CMD_START
  | ReqStop => TIMER_CMD_STOP
  | ReqDel => TIMER_CMD_DEL
  | ReqDynDel => TIMER_CMD_DYN_DEL
  | ReqChange _ _ => TIMER_CMD_CHG
  | ReqArg _ => TIMER_ARG_CHG
  | ReqArgAuto _ => TIMER_ARG_CHG_AUTO
  end.

(** the arguments the C types allow, and those a call refuses *)
Definition req_typed (q : timer_req) : Prop :=
  match q with
  | ReqChange first round => 0 <= first < 2 ^ 64 /\ 0 <= round < 2 ^ 64
  | ReqArg arg | ReqArgAuto arg => 0 <= arg < 2 ^ 32
  | _ => True
  end.
Definition req_refused (q : timer_req) : bool :=
  match q with ReqChange first round => (u64 (-1) <=? first) || (u64 (-1) <=? round) | _ => false end.

(** the message for the request *)
Definition req_says (q : timer_req) (t : nat) (m : list Z) : Prop :=
  length m = 24%nat /\ exists cb, cb_read m = Some cb /\ cb_timer cb = t /\ cb_num cb = cmd_num (req_cmd q) /\
  match q with
  | ReqChange first round => cb_first cb = first /\ cb_u cb = round
  | ReqArg arg | ReqArgAuto arg => u32 (cb_u cb) = arg
  | _ => True
  end.

Section messages.
Context (t : nat) (Ht : Z.of_nat t < 2 ^ 32).

(** the four fields, written or not *)
Lemma cb_read_fields m n f u :
  mem_read m 0 4 = Some (le 4 (Z.of_nat t)) -> mem_read m 4 1 = Some n -> mem_read m 8 8 = Some f -> mem_read m 16 8 = Some u ->
  cb_read m = Some (mkCb t (of_le n) (of_le f) (of_le u)).
Proof using Ht.
  intros E1 E2 E3 E4. unfold cb_read. rewrite E1, E2, E3, E4. cbn [mbind option_bind]. f_equal. f_equal.
  rewrite of_le_le by lia. lia.
Qed.

Lemma cmd_le cmd : of_le (le 1 (cmd_num cmd)) = cmd_num cmd.
Proof using. by destruct cmd. Qed.

(** reads over a sequence of writes *)
Ltac reads :=
  repeat match goal with
  | H : mem_write ?m ?o ?d = Some ?m' |- context [mem_read ?m' ?o' ?n] =>
      first [rewrite (mem_read_write _ _ _ _ n H) by reflexivity
            |rewrite (mem_read_write_ne _ _ _ _ o' n H) by (rewrite length_le; lia)]
  end.
Ltac writes := repeat match goal with
  | |- context [mem_write ?m ?o ?d] =>
      let m' := fresh "m" in let E := fresh "E" in
      destruct (mem_write_ok m o d) as [m' E]; [rewrite length_le; try (repeat match goal with
        | H : mem_write _ _ _ = Some ?x |- context [length ?x] => rewrite (mem_write_length _ _ _ _ H) end); lia|];
      rewrite E; cbn [mbind option_bind]
  end.
Ltac lens := repeat match goal with
  | H : mem_write _ _ _ = Some ?x |- context [length ?x] => rewrite (mem_write_length _ _ _ _ H) end.

Lemma two_fields cmd m : length m = 24%nat -> exists m' cb,
  (m1 ← put_timer t m; put_cb_num cmd m1) = Some m' /\ length m' = 24%nat /\ cb_read m' = Some cb /\ cb_timer cb = t /\ cb_num cb = cmd_num cmd.
Proof using Ht.
  intros Hm. unfold put_timer, put_cb_num. writes. destruct (mem_read_ok m1 8 8) as (f & Ef & _); [lens; lia|].
  destruct (mem_read_ok m1 16 8) as (u & Eu & _); [lens; lia|]. eexists _, _. split_and!; [done|lens; lia| | |].
  - eapply cb_read_fields; [by reads|by reads|exact Ef|exact Eu].
  - done.
  - apply cmd_le.
Qed.

Lemma arg_fields cmd arg m : length m = 24%nat -> 0 <= arg < 2 ^ 32 -> exists m' cb,
  (m1 ← put_timer t m; m2 ← put_arg arg m1; put_cb_num cmd m2) = Some m' /\ length m' = 24%nat /\ cb_read m' = Some cb /\
  cb_timer cb = t /\ cb_num cb = cmd_num cmd /\ u32 (cb_u cb) = arg.
Proof using Ht.
  intros Hm Ha. unfold put_timer, put_cb_num, put_arg. writes. destruct (mem_read_ok m2 8 8) as (f & Ef & _); [lens; lia|].
  destruct (mem_read_ok m2 20 4) as (u & Eu & Hu); [lens; lia|]. eexists _, _. split_and!; [done|lens; lia| | | |].
  - eapply cb_read_fields; [by reads|by reads|exact Ef|].
    apply (mem_read_app _ 16 4 4); [by reads|exact Eu].
  - done.
  - apply cmd_le.
  - cbn [cb_u]. rewrite of_le_app, length_le, of_le_le by (cbn; lia). unfold u32.
    change (8 * Z.of_nat 4) with 32. rewrite (Z.mul_comm (2 ^ 32)). rewrite Z_mod_plus_full. apply Z.mod_small. lia.
Qed.

Lemma change_fields first round m : length m = 24%nat -> 0 <= first < 2 ^ 64 -> 0 <= round < 2 ^ 64 -> exists m' cb,
  (m1 ← put_timer t m; m2 ← put_first first m1; m3 ← put_round round m2; put_cb_num TIMER_CMD_CHG m3) = Some m' /\
  length m' = 24%nat /\ cb_read m' = Some cb /\ cb_timer cb = t /\ cb_num cb = cmd_num TIMER_CMD_CHG /\ cb_first cb = first /\ cb_u cb = round.
Proof using Ht.
  intros Hm Hf Hr. unfold put_timer, put_cb_num, put_first, put_round. writes. eexists _, _. split_and!; [done|lens; lia| | | | |].
  - eapply cb_read_fields; [by reads|by reads|by reads|by reads].
  - done.
  - apply (cmd_le TIMER_CMD_CHG).
  - apply of_le_le. cbn. lia.
  - apply of_le_le. cbn. lia.
Qed.

Lemma wp_run_req q m (Q : kret -> kstate -> Prop) s :
  length m = 24%nat -> req_typed q -> (req_refused q = true -> Q (Ret RHINO_INV_PARAM) s) ->
  (forall m', req_says q t m' -> req_refused q = false ->
     wp (buf_queue_send g_timer_queue m' (Z.of_nat (length m'))) Q s) ->
  wp (run_req q (Some t) m) Q s.
Proof using Ht.
  intros Hm Hq Hrf HQ. assert (Hsend : forall w m', w = Some m' -> req_says q t m' -> req_refused q = false -> wp (timer_send w) Q s).
  { intros w m' -> Hs Hf. specialize (HQ m' Hs Hf). destruct Hs as [Hl _]. by rewrite Hl in HQ. }
  destruct q as [| | | |first round|arg|arg]; cbn [run_req req_refused req_typed] in *;
    unfold krhino_timer_start, krhino_timer_stop, krhino_timer_del, krhino_timer_dyn_del, krhino_timer_arg_change,
      krhino_timer_arg_change_auto, krhino_timer_change, NULL_PARA_CHK.
  1-4: match goal with |- context [put_cb_num ?c] => destruct (two_fields c m Hm) as (m' & cb & E & Hl & Hr & ? & ?) end;
    eapply Hsend; [exact E|split; [done|by exists cb]|done].
  - destruct (u64 (-1) <=? first); [by apply Hrf|]. destruct (u64 (-1) <=? round); [by apply Hrf|].
    destruct Hq as [Hf Hr]. destruct (change_fields first round m Hm Hf Hr) as (m' & cb & E & Hl & Hrd & ? & ? & ? & ?).
    eapply Hsend; [exact E|split; [done|by exists cb]|done].
  - destruct (arg_fields TIMER_ARG_CHG arg m Hm Hq) as (m' & cb & E & Hl & Hr & ? & ? & ?).
    eapply Hsend; [exact E|split; [done|by exists cb]|done].
  - destruct (arg_fields TIMER_ARG_CHG_AUTO arg m Hm Hq) as (m' & cb & E & Hl & Hr & ? & ? & ?).
    eapply Hsend; [exact E|split; [done|by exists cb]|done].
Qed.
End messages.

(** ** The queue of the task *)

(** the commands that wait in the queue *)
Definition timer_queue (k : kstate) (ms : list (list Z)) : Prop :=
  exists ob, g_objs k !! g_timer_queue = Some ob /\ obj_type ob = RHINO_BUF_QUEUE_OBJ_TYPE /\
    buf_holds ob sizeof_k_timer_queue_cb ms.

Lemma buf_ring_inj r mx mx' cur ms ms' : buf_ring r mx cur ms -> buf_ring r mx' cur ms' -> ms = ms'.
Proof.
  revert r cur ms'. induction ms as [|m ms IH]; intros r cur ms' H H'.
  - symmetry. apply (buf_ring_empty _ _ _ _ H'). by apply (buf_ring_empty _ _ _ _ H).
  - destruct ms' as [|m' ms'].
    { apply (buf_ring_empty _ _ _ _ H). by apply (buf_ring_empty _ _ _ _ H'). }
    destruct (buf_ring_pop _ _ _ _ _ H) as (r1 & E & H1), (buf_ring_pop _ _ _ _ _ H') as (r1' & E' & H1').
    rewrite E in E'. injection E' as -> -> _. f_equal. by eapply IH.
Qed.

Lemma buf_holds_inj ob mx mx' ms ms' : buf_holds ob mx ms -> buf_holds ob mx' ms' -> mx = mx' /\ ms = ms'.
Proof.
  intros (r & c & p & mn & E & H) (r' & c' & p' & mn' & E' & H'). rewrite E in E'. injection E' as <- <- <- <- <-.
  split; [done|]. by eapply buf_ring_inj.
Qed.

(** a request, when the task waits for nothing else *)
Lemma wp_timer_req s ms q t m :
  wf s -> timer_queue s ms -> Z.of_nat t < 2 ^ 32 -> length m = 24%nat -> req_typed q ->
  wp (run_req q (Some t) m) (fun r s' => wf s' /\
    if req_refused q then r = Ret RHINO_INV_PARAM /\ s' = s
    else exists ob m', g_objs s !! g_timer_queue = Some ob /\ req_says q t m' /\ bsend_spec s g_timer_queue ob m' r s') s.
Proof.
  intros Hwf (ob & Ho & Hty & Hh) Ht Hm Hq. apply wp_run_req; [done..| |].
  - intros ->. done.
  - intros m' Hs ->. eapply wp_mono; [|apply (wp_buf_queue_send s g_timer_queue ob m' Hwf Ho)].
    + cbv beta. intros r s' [? ?]. split; [done|]. by exists ob, m'.
    + intros r mx cur peak mn Hb _. destruct Hh as (r' & c' & p' & mn' & Hb' & _). rewrite Hb in Hb'. injection Hb' as <- -> <- <- <-.
      by rewrite (proj1 Hs).
Qed.

(** ** The task on the kernel *)

Lemma wp_in_kern {A} (m : K A) (Q : A -> tsys -> Prop) k ts :
  wp m (fun a k' => Q a (mkSys k' ts)) k -> wp (in_kern m) Q (mkSys k ts).
Proof. unfold wp, in_kern. cbn. by destruct (m k) as [[a k']| |]. Qed.

Lemma wp_in_tims {A} (m : TM A) (Q : A -> tsys -> Prop) k ts :
  wp m (fun a ts' => Q a (mkSys k ts')) ts -> wp (in_tims m) Q (mkSys k ts).
Proof. unfold wp, in_tims. cbn. by destruct (m ts) as [[a ts']| |]. Qed.

(** the task runs at the tick [c], the commands [ms] wait *)
Record timer_runs (c : Z) (k : kstate) (ms : list (list Z)) : Prop := {
  tr_wf : wf k;
  tr_active : g_active_task k = g_timer_task;
  tr_nested : g_intrpt_nested_level k = 0;
  tr_lock : g_sched_lock k = 0;
  tr_tick : g_tick_count k = c;
  tr_queue : timer_queue k ms
}.

Definition timer_waits (k : kstate) : Prop := wf k /\ waits (g_tasks k) g_timer_task = Some g_timer_queue.

Lemma wp_timer_recv c k ms ts ticks (Q : kret * option (list Z * Z) -> tsys -> Prop) :
  timer_runs c k ms -> 0 < ticks < 2 ^ 64 ->
  (forall m ms' k', ms = m :: ms' -> timer_runs c k' ms' -> Q (Ret RHINO_SUCCESS, Some (m, Z.of_nat (length m))) (mkSys k' ts)) ->
  (forall k', ms = [] -> timer_waits k' -> Q (Blocked, None) (mkSys k' ts)) ->
  wp (timer_recv ticks) Q (mkSys k ts).
Proof.
  intros [Hwf Ha Hn Hl Hc (ob & Ho & Hty & Hh)] Ht HQ1 HQ2. apply wp_in_kern.
  eapply wp_mono; [|apply (wp_krhino_buf_queue_recv k g_timer_queue ob ticks 0 0 Hwf); [by rewrite Ha|exact Ho|lia]].
  cbv beta. intros r k' [Hwf' Hs]. inversion Hs as [| |mx m ms1 b Hh1 Hh2 E1 E2| | |mx s1 Hh1 Hbl E1 E2]; subst r; try subst k'.
  - lia.
  - done.
  - destruct (buf_holds_inj _ _ _ _ _ Hh Hh1) as [<- E]. apply (HQ1 _ _ _ E). split; try done.
    exists (set_body b ob). split_and!; [apply lookup_insert_eq|done|done].
  - unfold RHINO_NO_WAIT in *. lia.
  - lia.
  - destruct (buf_holds_inj _ _ _ _ _ Hh Hh1) as [_ E]. apply (HQ2 _ E). split; [done|]. rewrite <- Ha. apply Hbl.
Qed.

(** ** Commands that wait *)

(** legal commands for timers that are not freed by then *)
Fixpoint cmds_ok (D : gset nat) (ms : list (list Z)) : Prop :=
  match ms with
  | [] => True
  | m :: ms => exists cb cmd, cb_read m = Some cb /\ cb_num cb = cmd_num cmd /\ cmd_legal cb cmd /\ cb_timer cb ∈ D /\
      cmds_ok (if bool_decide (cmd_num cmd = cmd_num TIMER_CMD_DYN_DEL) then D ∖ {[cb_timer cb]} else D) ms
  end.

Lemma cmds_ok_mono D D' ms : D ⊆ D' -> cmds_ok D ms -> cmds_ok D' ms.
Proof.
  revert D D'. induction ms as [|m ms IH]; intros D D' HD; [done|]. cbn [cmds_ok]. intros (cb & cmd & ? & ? & ? & ? & H).
  exists cb, cmd. split_and!; [done..|set_solver|]. eapply IH; [|exact H]. case_bool_decide; set_solver.
Qed.

Lemma cmd_dom c cb cmd tm (T : gmap nat ktimer) : T !! cb_timer cb = Some tm ->
  (if bool_decide (cmd_num cmd = cmd_num TIMER_CMD_DYN_DEL) then dom T ∖ {[cb_timer cb]} else dom T) ⊆
  dom (with_timer (cb_timer cb) (cmd_timer c cb cmd tm) T).
Proof.
  intros Ht. destruct (cmd_timer c cb cmd tm) eqn:E; cbn [with_timer].
  - rewrite dom_insert. case_bool_decide; set_solver.
  - rewrite dom_delete. unfold cmd_timer in E. destruct (negb _); [done|]. by destruct cmd.
Qed.

(** no timer becomes due by a command *)
Lemma cmd_due c cb cmd tm (T : gmap nat ktimer) l l' :
  timers_ok T l -> T !! cb_timer cb = Some tm -> timers_ok (with_timer (cb_timer cb) (cmd_timer c cb cmd tm) T) l' ->
  forall t, t ∈ l' -> due_at (with_timer (cb_timer cb) (cmd_timer c cb cmd tm) T) c t -> t ∈ l /\ due_at T c t.
Proof.
  intros Hok Ht Hok' t. rewrite (ts_in _ _ Hok'), (ts_in _ _ Hok).
  pose proof (tm_init _ (ts_timer _ _ Hok _ _ Ht)) as Hi. rewrite MAX_TIMER_TICKS_eq in Hi.
  assert (Hstart : forall tm1, init_count tm1 = init_count tm -> ~ i64 (tm_match (started c tm1) - c) <= 0).
  { intros tm1 E1. cbn. rewrite E1, <- i64_u64, u64_sub_l, i64_u64. replace (c + init_count tm - c) with (init_count tm) by lia.
    rewrite i64_small; lia. }
  destruct (decide (t = cb_timer cb)) as [->|Hne].
  2: { assert (E : with_timer (cb_timer cb) (cmd_timer c cb cmd tm) T !! t = T !! t).
       { destruct (cmd_timer c cb cmd tm); cbn [with_timer]; [by rewrite lookup_insert_ne|by rewrite lookup_delete_ne]. }
       unfold listed, due_at, tmatch. by rewrite E. }
  unfold listed, due_at, tmatch. rewrite Ht. unfold cmd_timer.
  destruct (bool_decide (tm_obj_type tm = RHINO_TIMER_OBJ_TYPE)); cbn [negb with_timer]; [|by rewrite lookup_insert_eq].
  destruct cmd; cbn [with_timer];
    repeat match goal with |- context [if ?b then _ else _] => destruct b eqn:?; cbn [with_timer] end;
    rewrite ?lookup_insert_eq, ?lookup_delete_eq; cbn [from_option]; try done.
  - intros _ Hd. by destruct (Hstart tm eq_refl).
  - intros _ Hd. by destruct (Hstart _ eq_refl Hd).
Qed.

Lemma cmd_due_less c cb cmd tm (T : gmap nat ktimer) l l' :
  timers_ok T l -> T !! cb_timer cb = Some tm -> timers_ok (with_timer (cb_timer cb) (cmd_timer c cb cmd tm) T) l' ->
  (length (due_list c (with_timer (cb_timer cb) (cmd_timer c cb cmd tm) T) l') <= length (due_list c T l))%nat.
Proof.
  intros Hok Ht Hok'. apply submseteq_length, NoDup_submseteq; [apply NoDup_filter, Hok'|].
  intros t [Hd Hl]%list_elem_of_filter. apply list_elem_of_filter. by destruct (cmd_due c cb cmd tm T l l' Hok Ht Hok' t Hl Hd).
Qed.

Lemma fires_dom c ts T l T' l' : fires c ts T l T' l' -> dom T' = dom T.
Proof.
  intros H. apply set_eq. intros t. rewrite !elem_of_dom. destruct (decide (t ∈ ts)) as [Ht|Ht].
  - by rewrite (fi_after _ _ _ _ _ _ H t Ht), fmap_is_Some.
  - by rewrite (proj1 (fi_other _ _ _ _ _ _ H t Ht)).
Qed.

(** ** What the task does *)

Definition all_cmds : list timer_cmd :=
  [TIMER_CMD_START; TIMER_CMD_STOP; TIMER_CMD_CHG; TIMER_ARG_CHG; TIMER_ARG_CHG_AUTO; TIMER_CMD_DEL; TIMER_CMD_DYN_DEL].
Definition cmd_of (n : Z) : option timer_cmd := find (fun cmd => cmd_num cmd =? n) all_cmds.

(** what the command of the message [m] makes of the timers at the tick [c] *)
Definition exec_msg (c : Z) (T : gmap nat ktimer) (m : list Z) : gmap nat ktimer :=
  match cb_read m with
  | Some cb =>
      match cmd_of (cb_num cb), T !! cb_timer cb with
      | Some cmd, Some tm => with_timer (cb_timer cb) (cmd_timer c cb cmd tm) T
      | _, _ => T
      end
  | None => T
  end.

(** the timers when every one that is due was called *)
Definition fire_due (c : Z) (T : gmap nat ktimer) : gmap nat ktimer :=
  (fun tm => if to_head tm && (i64 (tm_match tm - c) <=? 0) then after_fire c tm else tm) <$> T.

(** when no timer is late: the command [msg] that ended the wait is executed
    before the callbacks, the commands [ms] that wait one by one after them *)
Definition timers_after (c : Z) (msg ms : list (list Z)) (T : gmap nat ktimer) : gmap nat ktimer :=
  fold_left (fun T m => fire_due c (exec_msg c T m)) ms (fire_due c (fold_left (exec_msg c) msg T)).

Lemma cmd_of_num cmd : cmd <> TIMER_CMD_CB -> cmd_of (cmd_num cmd) = Some cmd.
Proof. by destruct cmd. Qed.

Definition head_not_due (c : Z) (T : gmap nat ktimer) (l : list nat) : Prop := forall t, head l = Some t -> ~ due_at T c t.

Definition called (T : gmap nat ktimer) (ts : list nat) : list (nat * Z) := (fun t => (t, targ T t)) <$> ts.

(** one command: its timer is what [cmd_timer] says and the list follows *)
Definition commanded (c : Z) (m : list Z) (T : gmap nat ktimer) (l : list nat) (T1 : gmap nat ktimer) (l1 : list nat) : Prop :=
  T1 = exec_msg c T m /\ timers_ok T1 l1 /\ (timely c T l -> timely c T1 l1).

(** The task from one wait to the next, with the commands [ms] in its queue: it
    takes a command when the first timer is not due, calls callbacks of timers
    that are due, and waits again with an empty queue. *)
Inductive task_run (c : Z) : gmap nat ktimer -> list nat -> list (nat * Z) -> list (list Z) ->
    gmap nat ktimer -> list nat -> list (nat * Z) -> Prop :=
  | run_wait T l f : head_not_due c T l -> task_run c T l f [] T l f
  | run_cmd T l f m ms T1 l1 T' l' f' : head_not_due c T l -> commanded c m T l T1 l1 ->
      task_run c T1 l1 f ms T' l' f' -> task_run c T l f (m :: ms) T' l' f'
  | run_fire ts T l f ms T1 l1 T' l' f' : fires c ts T l T1 l1 ->
      task_run c T1 l1 (f ++ called T ts) ms T' l' f' -> task_run c T l f ms T' l' f'.

(** ... after a wait that the command [msg] ended, if there is one *)
Inductive task_resumed (c : Z) (T : gmap nat ktimer) (l : list nat) (f : list (nat * Z)) :
    list (list Z) -> list (list Z) -> gmap nat ktimer -> list nat -> list (nat * Z) -> Prop :=
  | resumed_timeout ms T' l' f' : task_run c T l f ms T' l' f' -> task_resumed c T l f [] ms T' l' f'
  | resumed_cmd m ms T1 l1 T' l' f' : commanded c m T l T1 l1 -> task_run c T1 l1 f ms T' l' f' ->
      task_resumed c T l f [m] ms T' l' f'.

Section runs.
Context (c : Z).

Lemma fire_due_idle T l : timers_ok T l -> (forall t, t ∈ l -> ~ due_at T c t) -> fire_due c T = T.
Proof using.
  intros Hok Hd. apply map_eq. intros t. unfold fire_due. rewrite lookup_fmap. destruct (T !! t) as [tm|] eqn:Ht; [|done]. cbn. f_equal.
  destruct (to_head tm) eqn:Hh; [|done]. cbn [andb]. specialize (Hd t). rewrite (ts_in _ _ Hok) in Hd.
  unfold listed, due_at, tmatch in Hd. rewrite Ht in Hd. cbn in Hd. specialize (Hd Hh). destruct (Z.leb_spec (i64 (tm_match tm - c)) 0); [lia|done].
Qed.

Lemma fires_due ts T l T1 l1 : timers_ok T l -> fires c ts T l T1 l1 -> fire_due c T1 = fire_due c T.
Proof using.
  intros Hok Hf. apply map_eq. intros t. unfold fire_due. rewrite !lookup_fmap. destruct (decide (t ∈ ts)) as [Hin|Hin].
  2: { by rewrite (proj1 (fi_other _ _ _ _ _ _ Hf t Hin)). }
  destruct (fi_due _ _ _ _ _ _ Hf t Hin) as (Hl & Hd & Hn). pose proof (fi_after _ _ _ _ _ _ Hf t Hin) as E. rewrite E.
  apply (ts_in _ _ Hok), listed_lookup in Hl as (tm & Ht & Hh). rewrite Ht in *. cbn in E |- *.
  unfold due_at, tmatch in Hd, Hn. rewrite Ht in Hd. rewrite E in Hn. cbn in Hd, Hn. rewrite (proj2 (Z.leb_le _ _) Hd), Hh. cbn [andb].
  destruct (to_head (after_fire c tm)) eqn:Hh'; [|done]. cbn [andb].
  destruct (Z.leb_spec (i64 (tm_match (after_fire c tm) - c)) 0); [|done]. exfalso. apply Hn; [|done].
  apply (ts_in _ _ (fi_ok _ _ _ _ _ _ Hf)). unfold listed. by rewrite E.
Qed.

(** without commands, callbacks only *)
Lemma run_fires T l f T' l' f' : task_run c T l f [] T' l' f' -> timers_ok T l ->
  exists ts, fires c ts T l T' l' /\ f' = f ++ called T ts.
Proof using.
  remember [] as ms eqn:E. induction 1 as [T l f _|T l f m ms T1 l1 T' l' f' _ _ _ _|ts T l f ms T1 l1 T' l' f' Hf _ IH]; intros Hok.
  - exists []. split; [by apply fires_nil|]. by rewrite app_nil_r.
  - done.
  - destruct (IH E (fi_ok _ _ _ _ _ _ Hf)) as (ts2 & Hf2 & ->). exists (ts ++ ts2). split; [by eapply fires_app|].
    unfold called. by rewrite (fired_ext _ _ _ _ _ _ ts2 Hf), fmap_app, app_assoc.
Qed.

(** on time, the timers are what [timers_after] computes *)
Lemma run_timers_after T l f ms T' l' f' : task_run c T l f ms T' l' f' -> timers_ok T l -> timely c T l ->
  T' = timers_after c [] ms T.
Proof using.
  unfold timers_after. cbn [fold_left].
  induction 1 as [T l f Hh|T l f m ms T1 l1 T' l' f' Hh (-> & Hok1 & Hti1) _ IH|ts T l f ms T1 l1 T' l' f' Hf _ IH]; intros Hok Hti.
  - cbn. symmetry. eapply fire_due_idle; [done|]. by apply timely_head.
  - cbn [fold_left]. rewrite (fire_due_idle T l) by (done || by apply timely_head). by apply IH, Hti1.
  - rewrite <- (fires_due _ _ _ _ _ Hok Hf). apply IH; by apply Hf.
Qed.

Lemma resumed_timers_after T l f msg ms T' l' f' : task_resumed c T l f msg ms T' l' f' -> timers_ok T l -> timely c T l ->
  T' = timers_after c msg ms T.
Proof using.
  intros [ms' T2 l2 f2 Hr|m ms' T1 l1 T2 l2 f2 (-> & Hok1 & Hti1) Hr] Hok Hti; [by eapply run_timers_after|].
  rewrite (run_timers_after _ _ _ _ _ _ _ Hr Hok1 (Hti1 Hti)). done.
Qed.
End runs.

(** ** The loop of the task *)

(** the task waits: for a command when it has no timer, else for a command or
    the first timer, which is not due *)
Record timer_blocked (c : Z) (pc : tpc) (k' : kstate) (ts' : tstate) : Prop := {
  tb_waits : timer_waits k';
  tb_ok : tok ts';
  tb_pc : pc = AtCommand <-> g_timer_head ts' = [];
  tb_head : head_not_due c (g_timers ts') (g_timer_head ts')
}.

Definition ran (c : Z) (T : gmap nat ktimer) (l : list nat) (f : list (nat * Z)) (ms : list (list Z)) (pc : tpc) (s : tsys) : Prop :=
  timer_blocked c pc (kern s) (tims s) /\
  task_run c T l f ms (g_timers (tims s)) (g_timer_head (tims s)) (fired (tims s)).

Lemma wp_run_msg c T l f m ms (D : gset nat) k (Q : unit -> tsys -> Prop) :
  timers_ok T l -> D ⊆ dom T -> cmds_ok D (m :: ms) ->
  (forall T' l', commanded c m T l T' l' -> cmds_ok (dom T') ms -> (length (due_list c T' l') <= length (due_list c T l))%nat ->
     Q tt (mkSys k (mkTs T' l' c f))) ->
  wp (run_msg (Some (m, Z.of_nat (length m)))) Q (mkSys k (mkTs T l c f)).
Proof.
  intros Hok HD (cb & cmd & Hr & Hn & Hleg & Ht & Hms) HQ.
  assert (is_Some (T !! cb_timer cb)) as [tm Htm] by (apply elem_of_dom; set_solver).
  assert (Hx : exec_msg c T m = with_timer (cb_timer cb) (cmd_timer c cb cmd tm) T).
  { unfold exec_msg. rewrite Hr, Hn, cmd_of_num, Htm by apply Hleg. done. }
  unfold run_msg. apply wp_in_tims. apply wp_bind, wp_ret, wp_bind. rewrite Hr. apply wp_ret.
  eapply wp_timer_cmd_proc; [done..|]. intros l' Hok' Hti. apply HQ; [by split; [by rewrite Hx|]| |by eapply cmd_due_less].
  eapply cmds_ok_mono; [|exact Hms]. etransitivity; [|by apply cmd_dom]. case_bool_decide; set_solver.
Qed.

Ltac tims := apply wp_in_tims; first [apply wp_modify|apply wp_gets]; unfold set_g_timer_count; cbn [g_timers g_timer_head g_timer_count fired].

Lemma wp_timer_loop c n : forall T l f c0 k ms (Q : tpc -> tsys -> Prop),
  timers_ok T l -> timer_runs c k ms -> cmds_ok (dom T) ms -> (length ms + length (due_list c T l) < n)%nat ->
  (forall pc s, ran c T l f ms pc s -> Q pc s) ->
  wp (timer_loop n) Q (mkSys k (mkTs T l c0 f)).
Proof.
  induction n as [|n IH]; intros T l f c0 k ms Q Hok Hk Hms Hn HQ; [lia|]. cbn [timer_loop]. apply wp_bind. tims.
  destruct l as [|t l0] eqn:El.
  - apply wp_bind. eapply wp_timer_recv; [exact Hk|by vm_compute| |].
    + intros m ms' k' -> Hk'. apply wp_bind. unfold timer_got. apply wp_bind, wp_in_kern, wp_gets, wp_bind, wp_in_tims.
      rewrite (tr_tick _ _ _ Hk'). apply wp_modify.
      unfold set_g_timer_count; cbn [g_timers g_timer_head g_timer_count fired].
      eapply wp_run_msg; [exact Hok|reflexivity|exact Hms|]. intros T' l' Hx Hms' Hd. cbn [length] in Hn.
      eapply IH; [apply Hx|done|done|lia|]. intros pc s [B R]. apply HQ. split; [done|]. by eapply run_cmd; [|exact Hx|exact R].
    + intros k' -> Hw. apply wp_ret, HQ. split; [by split|by apply run_wait].
  - rewrite <- El in *. assert (Ht : t ∈ l) by (rewrite El; left).
    destruct (listed_lookup T t) as (tm & Htm & Hh); [by apply (ts_in _ _ Hok)|].
    assert (Hdue : due_at T c t <-> i64 (tm_match tm - c) <= 0) by (unfold due_at, tmatch; by rewrite Htm).
    apply wp_bind, wp_in_tims. eapply wp_get_timer; [exact Htm|]. apply wp_bind, wp_in_kern, wp_gets.
    rewrite (tr_tick _ _ _ Hk). destruct (Z.ltb_spec 0 (i64 (tm_match tm - c))) as [Hpos|Hle].
    + assert (Hnd : head_not_due c T l) by (intros u Hu; rewrite El in Hu; injection Hu as <-; rewrite Hdue; lia).
      apply wp_bind. eapply wp_timer_recv; [exact Hk| | |].
      * assert (i64 (tm_match tm - c) < 2 ^ 63) by (unfold i64; zlia). rewrite u64_small; lia.
      * intros m ms' k' -> Hk'. apply wp_bind. unfold timer_got. apply wp_bind, wp_in_kern, wp_gets.
        rewrite (tr_tick _ _ _ Hk'). do 2 apply wp_bind.
        apply wp_in_tims, wp_modify. unfold set_g_timer_count; cbn [g_timers g_timer_head g_timer_count fired].
        eapply wp_run_msg; [exact Hok|reflexivity|exact Hms|]. intros T' l' Hx Hms' Hd. cbn [length] in Hn.
        apply wp_in_tims, wp_timer_cb_proc; [apply Hx|]. intros ts T2 l2 Hf _.
        pose proof (fires_due_less _ _ _ _ _ _ (proj1 (proj2 Hx)) Hf).
        eapply IH; [apply Hf|done|by rewrite (fires_dom _ _ _ _ _ _ Hf)|lia|].
        intros pc s [B R]. apply HQ. split; [done|]. eapply run_cmd; [exact Hnd|exact Hx|]. by eapply run_fire.
      * intros k' -> Hw. apply wp_ret, HQ. split; [|by apply run_wait]. split; try done. by rewrite El.
    + apply wp_bind. tims. apply wp_bind, wp_in_tims, wp_timer_cb_proc; [done|]. intros ts T2 l2 Hf Hsome.
      pose proof (fires_due_less _ _ _ _ _ _ Hok Hf) as Hless.
      assert (ts <> []) by (apply (Hsome t); [by rewrite El|by apply Hdue]). destruct ts as [|t1 ts]; [done|]. cbn [length] in Hless.
      eapply IH; [apply Hf|done|by rewrite (fires_dom _ _ _ _ _ _ Hf)|lia|].
      intros pc s [B R]. apply HQ. split; [done|]. by eapply run_fire.
Qed.

(** how the wait of the task ended: a command was handed to it, or, in the
    inner loop, the time was over *)
Definition woken_by (k : kstate) (pc : tpc) (msg : list (list Z)) : Prop :=
  exists tk, g_tasks k !! g_timer_task = Some tk /\
    match blk_state tk with
    | BLK_FINISH => msg = [msg_buf tk] /\ bq_msg_size tk = Z.of_nat (length (msg_buf tk))
    | BLK_TIMEOUT => msg = [] /\ pc = AtTimer
    | _ => False
    end.

Definition resumed (c : Z) (T : gmap nat ktimer) (l : list nat) (f : list (nat * Z)) (msg ms : list (list Z)) (pc : tpc) (s : tsys) : Prop :=
  timer_blocked c pc (kern s) (tims s) /\
  task_resumed c T l f msg ms (g_timers (tims s)) (g_timer_head (tims s)) (fired (tims s)).

Lemma wp_timer_task_resume c n T l f c0 k pc msg ms :
  timers_ok T l -> timer_runs c k ms -> woken_by k pc msg -> cmds_ok (dom T) (msg ++ ms) ->
  (length ms + length (due_list c T l) < n)%nat ->
  wp (timer_task_resume n pc) (resumed c T l f msg ms) (mkSys k (mkTs T l c0 f)).
Proof.
  intros Hok Hk (tk & Htk & Hb) Hms Hn. unfold timer_task_resume. apply wp_bind, wp_in_kern. unfold krhino_buf_queue_recv_resume.
  apply wp_bind, wp_gets. rewrite (tr_active _ _ _ Hk). apply wp_bind. unfold pend_state_end_proc, get_task.
  do 2 apply wp_bind. apply wp_gets. rewrite Htk. apply wp_ret. destruct (blk_state tk); try done; destruct Hb as [-> Hb].
  - apply wp_ret. do 2 apply wp_bind. apply wp_gets. rewrite Htk. do 2 apply wp_ret. rewrite bool_decide_eq_true_2 by done. rewrite Hb.
    apply wp_bind. unfold timer_got. apply wp_bind, wp_in_kern, wp_gets. rewrite (tr_tick _ _ _ Hk). cbn [app] in Hms. destruct pc.
    + apply wp_bind, wp_in_tims, wp_modify. unfold set_g_timer_count; cbn [g_timers g_timer_head g_timer_count fired].
      eapply wp_run_msg; [exact Hok|reflexivity|exact Hms|]. intros T' l' Hx Hms' Hd.
      eapply wp_timer_loop; [apply Hx|done|done|lia|]. intros pc' s [B R]. split; [done|]. by eapply resumed_cmd.
    + do 2 apply wp_bind. apply wp_in_tims, wp_modify. unfold set_g_timer_count; cbn [g_timers g_timer_head g_timer_count fired].
      eapply wp_run_msg; [exact Hok|reflexivity|exact Hms|]. intros T' l' Hx Hms' Hd.
      apply wp_in_tims, wp_timer_cb_proc; [apply Hx|]. intros ts T2 l2 Hf _. pose proof (fires_due_less _ _ _ _ _ _ (proj1 (proj2 Hx)) Hf).
      eapply wp_timer_loop; [apply Hf|done|by rewrite (fires_dom _ _ _ _ _ _ Hf)|lia|]. intros pc' s [B R].
      split; [done|]. eapply resumed_cmd; [exact Hx|]. by eapply run_fire.
  - subst pc. apply wp_ret. do 2 apply wp_bind. apply wp_gets. rewrite Htk. do 2 apply wp_ret.
    apply wp_bind. unfold timer_got. apply wp_bind, wp_in_kern, wp_gets. rewrite (tr_tick _ _ _ Hk).
    apply wp_bind, wp_in_tims, wp_modify. unfold set_g_timer_count; cbn [g_timers g_timer_head g_timer_count fired].
    apply wp_in_tims, wp_timer_cb_proc; [done|]. intros ts T2 l2 Hf _. pose proof (fires_due_less _ _ _ _ _ _ Hok Hf).
    eapply wp_timer_loop; [apply Hf|done|by rewrite (fires_dom _ _ _ _ _ _ Hf)|lia|]. intros pc' s [B R].
    split; [done|]. apply resumed_timeout. by eapply run_fire.
Qed.

(** when no timer was late and there was no command, the task called those that
    are due, each once, and waits with none that is due *)
Lemma resumed_timely c T l f T' l' f' : timers_ok T l -> timely c T l -> task_resumed c T l f [] [] T' l' f' -> head_not_due c T' l' ->
  exists ts, f' = f ++ called T ts /\ NoDup ts /\ (forall t, t ∈ ts <-> t ∈ l /\ due_at T c t) /\
    (forall t, t ∈ l' -> ~ due_at T' c t).
Proof.
  intros Hok Ht Hr Hh. inversion Hr as [ms' T2 l2 f2 Hrun|]; subst. destruct (run_fires _ _ _ _ _ _ _ Hrun Hok) as (ts & Hfi & ->).
  pose proof (timely_head _ _ _ (fi_timely _ _ _ _ _ _ Hfi Ht) Hh) as Hnd. exists ts. split_and!; [done|apply Hfi| |done].
  intros t. split; [intros H; by destruct (fi_due _ _ _ _ _ _ Hfi t H) as (? & ? & _)|].
  intros [Hl Hd]. destruct (decide (t ∈ ts)) as [|Hn]; [done|exfalso]. destruct (fi_other _ _ _ _ _ _ Hfi t Hn) as [E' Hl'].
  apply (Hnd t); [by apply Hl'|]. by apply (due_lookup _ _ _ _ E').
Qed.
