(* ===== verification/WorkQueue.v ===== *)
(** * Work queues ([core/k_workqueue.c])

    A work queue is a list of works, a semaphore that counts them and a worker
    task that runs them one after the other.  Works are put in the list by tasks
    and interrupts or, when they have a delay, by the callback of a timer.  The
    module is a client of the kernel: its state is that of the kernel with the
    timers and its own.  The worker and the semaphore are members of the queue
    and have its address here, one as a task and one as an object. *)

From S2P Require Import Prelude Config State Sched Inv Pend KInv Sem Task Timer TimerTask.
Open Scope Z_scope.

(** ** State *)

Record kwork_t := mkWork { handle : Z; work_arg : Z; dly : Z; timer : option nat; wq : option nat; work_exit : Z }.
Record kworkqueue_t := mkWq { work_list : list nat; work_current : option nat }.

(** [timer_priv] is the member [priv] of the timers of works; [handled] are the
    calls of [work->handle(work->arg)], by queue and work *)
Record wstate := mkWs {
  works : gmap nat kwork_t;
  queues : gmap nat kworkqueue_t;
  g_workqueue_list_head : list nat;
  timer_priv : gmap nat nat;
  handled : list (nat * nat)
}.

Record wsys := mkWsys { w_sys : tsys; w_st : wstate }.

Definition set_works v s := mkWs v (queues s) (g_workqueue_list_head s) (timer_priv s) (handled s).
Definition set_queues v s := mkWs (works s) v (g_workqueue_list_head s) (timer_priv s) (handled s).
Definition set_wq_head v s := mkWs (works s) (queues s) v (timer_priv s) (handled s).
Definition set_timer_priv v s := mkWs (works s) (queues s) (g_workqueue_list_head s) v (handled s).
Definition set_handled v s := mkWs (works s) (queues s) (g_workqueue_list_head s) (timer_priv s) v.

Abbreviation WM := (M kstat_t wstate).
Abbreviation WS := (M kstat_t wsys).

Definition in_sys {A} (m : TS A) : WS A := fun s =>
  match m (w_sys s) with Ok (a, t) => Ok (a, mkWsys t (w_st s)) | Reset e => Reset e | Undef => Undef end.
Definition in_k {A} (m : K A) : WS A := in_sys (in_kern m).
Definition in_w {A} (m : WM A) : WS A := fun s =>
  match m (w_st s) with Ok (a, w) => Ok (a, mkWsys (w_sys s) w) | Reset e => Reset e | Undef => Undef end.

Definition get_work (w : nat) : WM kwork_t := m ← gets works; lift (m !! w).
Definition get_queue (q : nat) : WM kworkqueue_t := m ← gets queues; lift (m !! q).
Definition upd_work (w : nat) (f : kwork_t -> kwork_t) : WM unit :=
  m ← gets works; k ← lift (m !! w); modify (set_works (<[w := f k]> m)).
Definition upd_queue (q : nat) (f : kworkqueue_t -> kworkqueue_t) : WM unit :=
  m ← gets queues; k ← lift (m !! q); modify (set_queues (<[q := f k]> m)).

Definition set_wq v k := mkWork (handle k) (work_arg k) (dly k) (timer k) v (work_exit k).
Definition set_work_exit v k := mkWork (handle k) (work_arg k) (dly k) (timer k) (wq k) v.
Definition set_timer v k := mkWork (handle k) (work_arg k) (dly k) v (wq k) (work_exit k).
Definition set_work_list v k := mkWq v (work_current k).
Definition set_work_current v k := mkWq (work_list k) v.

(** [klist_rm_init(&work->work_node)]: whatever list the work is in *)
Definition work_unlink (w : nat) (m : gmap nat kworkqueue_t) : gmap nat kworkqueue_t :=
  (fun k => set_work_list (klist_del w (work_list k)) k) <$> m.

(** ** Queues *)

Definition workqueue_is_exist (workqueue : nat) : WM bool :=
  l ← gets g_workqueue_list_head; mret (bool_decide (workqueue ∈ l)).

Definition krhino_workqueue_create (workqueue name : option nat) (pri : Z) (stack_buf : option nat) (stack_size : Z) : WS kret :=
  match workqueue, name, stack_buf with
  | Some q, Some _, Some _ =>
      if RHINO_CONFIG_PRI_MAX <=? pri then mret (Ret RHINO_BEYOND_MAX_PRI) else
      if stack_size =? 0 then mret (Ret RHINO_TASK_INV_STACK_SIZE) else
      e ← in_w (workqueue_is_exist q);
      if e : bool then mret (Ret RHINO_WORKQUEUE_EXIST) else
      in_w (modify (fun s => set_queues (<[q := mkWq [] None]> (queues s)) s));;
      r ← in_k (krhino_sem_create (Some q) (Some 0%nat) 0);
      if negb (bool_decide (r = Ret RHINO_SUCCESS)) then mret r else
      in_w (modify (fun s => set_wq_head (g_workqueue_list_head s ++ [q]) s));;
      r ← in_k (krhino_task_create (Some q) name pri 0 stack_buf stack_size (Some 0%nat) 1);
      if negb (bool_decide (r = Ret RHINO_SUCCESS)) then
        in_w (modify (fun s => set_wq_head (klist_del q (g_workqueue_list_head s)) s));;
        in_k (krhino_sem_del (Some q));;
        mret r
      else mret (Ret RHINO_SUCCESS)
  | _, _, _ => mret (Ret RHINO_NULL_PTR)
  end.

Definition krhino_workqueue_del (workqueue : option nat) : WS kret :=
  match workqueue with
  | None => mret (Ret RHINO_NULL_PTR)
  | Some q =>
      e ← in_w (workqueue_is_exist q);
      if negb e then mret (Ret RHINO_WORKQUEUE_NOT_EXIST) else
      k ← in_w (get_queue q);
      if negb (bool_decide (work_list k = [])) then mret (Ret RHINO_WORKQUEUE_BUSY) else
      if negb (bool_decide (work_current k = None)) then mret (Ret RHINO_WORKQUEUE_BUSY) else
      r ← in_k (krhino_task_del (Some q));
      if negb (bool_decide (r = Ret RHINO_SUCCESS)) then mret r else
      r ← in_k (krhino_sem_del (Some q));
      if negb (bool_decide (r = Ret RHINO_SUCCESS)) then mret r else
      in_w (modify (fun s => set_wq_head (klist_del q (g_workqueue_list_head s)) s));;
      mret (Ret RHINO_SUCCESS)
  end.

(** ** Works *)

(** the critical section that puts a work in a list; the semaphore is given after
    it, when the result is [RHINO_SUCCESS] *)
Definition work_insert (q w : nat) : WM kstat_t :=
  k ← get_queue q;
  wk ← get_work w;
  if bool_decide (work_current k = Some w) then mret RHINO_WORKQUEUE_WORK_RUNNING else
  if work_exit wk =? 1 then mret RHINO_WORKQUEUE_WORK_EXIST else
  modify (fun s => set_queues (work_unlink w (queues s)) s);;
  upd_queue q (fun k => set_work_list (work_list k ++ [w]) k);;
  upd_work w (fun wk => set_work_exit 1 (set_wq (Some q) wk));;
  mret RHINO_SUCCESS.

(** [arg] is the queue *)
Definition work_timer_cb (tm arg : nat) : WS unit :=
  p ← in_w (gets timer_priv);
  w ← lift (p !! tm);
  st ← in_w (work_insert arg w);
  if bool_decide (st = RHINO_SUCCESS) then in_k (krhino_sem_give (Some arg));; mret tt else mret tt.

(** [alloc] is the memory of the timer, [m] that of its message *)
Definition krhino_work_init (work h : option nat) (arg dly : Z) (alloc : option nat) (m : list Z) : WS kret :=
  match work, h with
  | Some w, Some f =>
      in_w (modify (fun s => set_works (<[w := mkWork (Z.of_nat f) arg dly None None 0]> (works s)) s));;
      if 0 <? dly then
        '(r, t) ← in_sys (krhino_timer_dyn_create (Some 0%nat) alloc (Some 0%nat) (Some 0%nat) dly 0 (Z.of_nat w) 0 m);
        in_w (upd_work w (set_timer t));;
        mret (if bool_decide (r = Ret RHINO_SUCCESS) then Ret RHINO_SUCCESS else r)
      else mret (Ret RHINO_SUCCESS)
  | _, _ => mret (Ret RHINO_NULL_PTR)
  end.

Definition krhino_work_run (workqueue work : option nat) (m : list Z) : WS kret :=
  match workqueue, work with
  | Some q, Some w =>
      wk ← in_w (get_work w);
      if dly wk =? 0 then
        st ← in_w (work_insert q w);
        if negb (bool_decide (st = RHINO_SUCCESS)) then mret (Ret st) else
        r ← in_k (krhino_sem_give (Some q));
        mret (if negb (bool_decide (r = Ret RHINO_SUCCESS)) then r else Ret RHINO_SUCCESS)
      else
        t ← lift (timer wk);
        in_w (modify (fun s => set_timer_priv (<[t := w]> (timer_priv s)) s));;
        r ← in_k (krhino_timer_arg_change_auto (Some t) (Z.of_nat q) m);
        mret (if negb (bool_decide (r = Ret RHINO_SUCCESS)) then r else Ret RHINO_SUCCESS)
  | _, _ => mret (Ret RHINO_NULL_PTR)
  end.

Definition g_workqueue_default : nat := 1.

Definition krhino_work_sched (work : option nat) (m : list Z) : WS kret := krhino_work_run (Some g_workqueue_default) work m.

Definition krhino_work_cancel (work : option nat) (m : list Z) : WS kret :=
  match work with
  | None => mret (Ret RHINO_NULL_PTR)
  | Some w =>
      wk ← in_w (get_work w);
      match wq wk with
      | None =>
          (if 0 <? dly wk then in_k (krhino_timer_stop (timer wk) m);; mret tt else mret tt);;
          mret (Ret RHINO_SUCCESS)
      | Some q =>
          k ← in_w (get_queue q);
          if bool_decide (work_current k = Some w) then mret (Ret RHINO_WORKQUEUE_WORK_RUNNING) else
          if work_exit wk =? 1 then mret (Ret RHINO_WORKQUEUE_WORK_EXIST) else
          in_w (modify (fun s => set_queues (work_unlink w (queues s)) s));;
          in_w (upd_work w (set_wq None));;
          mret (Ret RHINO_SUCCESS)
      end
  end.

Definition workqueue_init (pri stack_size : Z) : WS unit :=
  in_w (modify (set_wq_head []));;
  krhino_workqueue_create (Some g_workqueue_default) (Some 0%nat) pri (Some 0%nat) stack_size;;
  mret tt.

(** ** The worker *)

(** where the worker of a queue is: before the semaphore, in it, with a unit of
    it, about to run a work, having run it *)
Inductive worker_pc := AtSem | InSem | HasUnit | HasWork (w : nat) | WorkDone.

Definition worker_got (r : kret) : WS worker_pc :=
  match r with
  | Blocked => mret InSem
  | Ret RHINO_SUCCESS => mret HasUnit
  | Ret e => stop e
  end.

(** the first critical section: the list has a first work *)
Definition worker_get (q : nat) : WM worker_pc :=
  k ← get_queue q;
  w ← lift (head (work_list k));
  modify (fun s => set_queues (work_unlink w (queues s)) s);;
  upd_queue q (set_work_current (Some w));;
  upd_work w (set_work_exit 0);;
  mret (HasWork w).

(** [worker_task], from one of its points to the next *)
Definition worker_task (q : nat) (pc : worker_pc) : WS worker_pc :=
  match pc with
  | AtSem => r ← in_k (krhino_sem_take (Some q) RHINO_WAIT_FOREVER); worker_got r
  | InSem => r ← in_k krhino_sem_take_resume; worker_got r
  | HasUnit => in_w (worker_get q)
  | HasWork w => in_w (modify (fun s => set_handled (handled s ++ [(q, w)]) s));; mret WorkDone
  | WorkDone => in_w (upd_queue q (set_work_current None));; mret AtSem
  end.
