(* ===== verification/Csi.v ===== *)
(** * The CSI interface ([adapter/csi_rhino.c])

    The calls the SDK uses: each checks its arguments, translates them, makes
    one or two calls of the kernel and translates the result.  The calls that
    make and delete objects take their memory from the heap, so their state is
    the pair of the kernel's and the heap's. *)

From S2P Require Import Prelude Config RingBuf State Sched Sem Mutex Event BufQueue Task TaskDel Time.
From S2P Require Import Sys Mem MmBlk Mm.
Open Scope Z_scope.

(** ** Results *)

(** [errno.h] *)
Definition EPERM : Z := 1.
Definition EINVAL : Z := 22.
Definition EOPNOTSUPP : Z := 95.
Definition ETIMEDOUT : Z := 110.

(** what a call of type [k_status_t] does for its caller: it returns a number,
    or the caller is blocked and the rest of the call runs when it runs again *)
Inductive cret := CRet (r : Z) | CBlocked.

#[export] Instance cret_eq_dec : EqDecision cret.
Proof. solve_decision. Defined.

(** [if (ret == RHINO_SUCCESS) return 0; else return -EPERM;] *)
Definition status (r : kret) : cret :=
  match r with Blocked => CBlocked | Ret RHINO_SUCCESS => CRet 0 | Ret _ => CRet (- EPERM) end.

(** ... with [-ETIMEDOUT] for [RHINO_BLK_TIMEOUT] *)
Definition wait_status (r : kret) : cret :=
  match r with
  | Blocked => CBlocked | Ret RHINO_SUCCESS => CRet 0 | Ret RHINO_BLK_TIMEOUT => CRet (- ETIMEDOUT) | Ret _ => CRet (- EPERM)
  end.

(** ... and 0 for [RHINO_MUTEX_OWNER_NESTED] *)
Definition unlock_status (r : kret) : cret := match r with Ret RHINO_MUTEX_OWNER_NESTED => CRet 0 | _ => status r end.
Definition lock_status (r : kret) : cret := match r with Ret RHINO_MUTEX_OWNER_NESTED => CRet 0 | _ => wait_status r end.

(** [if (timeout < 0) t = RHINO_WAIT_FOREVER; else t = timeout;] *)
Definition wait_ticks (timeout : Z) : Z := if timeout <? 0 then RHINO_WAIT_FOREVER else timeout.

(** [int32_t] *)
Definition i32 (x : Z) : Z := (x + 2 ^ 31) mod 2 ^ 32 - 2 ^ 31.

(** [if (handle == NULL) return -EINVAL;] *)
Definition HANDLE_CHK (h : option nat) (k : nat -> K cret) : K cret :=
  match h with None => mret (CRet (- EINVAL)) | Some o => k o end.

(** ** The kernel *)

Definition csi_kernel_init : K cret := r ← krhino_init; mret (status r).

(** [krhino_start] switches to the first task *)
Definition csi_kernel_start : K cret := r ← krhino_start; mret (status r).

Inductive k_sched_stat_t : Set :=
  | KSCHED_ST_INACTIVE | KSCHED_ST_READY | KSCHED_ST_RUNNING | KSCHED_ST_LOCKED | KSCHED_ST_SUSPEND | KSCHED_ST_ERROR.

Definition csi_kernel_get_stat : K k_sched_stat_t :=
  get ← gets g_sys_stat;
  mret (if bool_decide (get = RHINO_STOPPED) then KSCHED_ST_INACTIVE
        else if bool_decide (get = RHINO_RUNNING) then KSCHED_ST_RUNNING else KSCHED_ST_ERROR).

Definition csi_kernel_sched_lock : Z := - EOPNOTSUPP.
Definition csi_kernel_sched_unlock : Z := - EOPNOTSUPP.
Definition csi_kernel_sched_restore_lock (lock : Z) : Z := - EOPNOTSUPP.

Definition csi_kernel_sched_suspend : K Z :=
  st ← gets g_sys_stat;
  if bool_decide (st = RHINO_RUNNING) then krhino_sched_disable;; mret 0 else mret 0.

Definition csi_kernel_sched_resume (sleep_ticks : Z) : K unit :=
  st ← gets g_sys_stat;
  if bool_decide (st = RHINO_RUNNING) then krhino_sched_enable;; mret tt else mret tt.

(** ** Tasks *)

(** [k_priority_t] *)
Definition KPRIO_IDLE : Z := 0.
Definition KPRIO_REALTIME7 : Z := 48.
Definition KPRIO_ERROR : Z := 50.
Definition RHINO_CONFIG_USER_PRI_MAX : Z := RHINO_CONFIG_PRI_MAX - 2.

(** [task], [name] and [task_handle] are compared with NULL; [alloc] is the memory
    [krhino_task_dyn_create] gets; the second component is what is stored through
    [task_handle] *)
Definition csi_kernel_task_new (task name : option nat) (prio time_quanta : Z) (stack : option nat) (stack_size : Z)
    (task_handle : option nat) (alloc : option nat) : K (cret * option nat) :=
  if bool_decide (task_handle = None) || negb (stack_size mod 4 =? 0) || ((stack_size =? 0) && bool_decide (stack = None))
     || (prio <=? KPRIO_IDLE) || (KPRIO_REALTIME7 <? prio)
  then mret (CRet (- EINVAL), None) else
  let prio_trans := u8 (RHINO_CONFIG_USER_PRI_MAX - prio) in
  csi_kernel_sched_suspend;;
  (* without a name it is "user_task" *)
  '(ret, t) ← krhino_task_dyn_create task_handle alloc (Some (default 0%nat name)) prio_trans time_quanta (stack_size / 4) task 1;
  csi_kernel_sched_resume 0;;
  mret (status ret, t).

Definition csi_kernel_task_del (task_handle : option nat) : K cret :=
  HANDLE_CHK task_handle (fun t => r ← krhino_task_dyn_del (Some t); mret (status r)).

Definition csi_kernel_task_get_cur : K nat := gets g_active_task.

Inductive k_task_stat_t : Set :=
  | KTASK_ST_INACTIVE | KTASK_ST_READY | KTASK_ST_RUNNING | KTASK_ST_BLOCKED | KTASK_ST_TERMINATED | KTASK_ST_ERROR.

Definition csi_kernel_task_get_stat (task_handle : option nat) : K k_task_stat_t :=
  match task_handle with
  | None => mret KTASK_ST_ERROR
  | Some t =>
      a ← csi_kernel_task_get_cur;
      if bool_decide (a = t) then mret KTASK_ST_RUNNING else
      tk ← get_task t;
      mret match task_state tk with
           | K_PEND | K_SUSPENDED | K_PEND_SUSPENDED | K_SLEEP | K_SLEEP_SUSPENDED => KTASK_ST_BLOCKED
           | K_DELETED => KTASK_ST_TERMINATED
           | K_RDY => KTASK_ST_READY
           | _ => KTASK_ST_ERROR
           end
  end.

Definition csi_kernel_task_set_prio (task_handle : option nat) (priority : Z) : K cret :=
  if bool_decide (task_handle = None) || (priority <=? KPRIO_IDLE) || (KPRIO_REALTIME7 <? priority)
  then mret (CRet (- EINVAL)) else
  '(r, _) ← krhino_task_pri_change task_handle (u8 (RHINO_CONFIG_USER_PRI_MAX - priority)) (Some 0%nat);
  mret (status r).

Definition csi_kernel_task_get_prio (task_handle : option nat) : K Z :=
  match task_handle with
  | None => mret KPRIO_ERROR
  | Some t =>
      tk ← get_task t;
      let ret := prio tk in
      mret (if ret <=? RHINO_CONFIG_USER_PRI_MAX then u8 (RHINO_CONFIG_USER_PRI_MAX - ret) else u8 (RHINO_CONFIG_PRI_MAX - ret))
  end.

Definition csi_kernel_task_suspend (task_handle : option nat) : K cret :=
  HANDLE_CHK task_handle (fun t => r ← krhino_task_suspend (Some t); mret (status r)).

Definition csi_kernel_task_resume (task_handle : option nat) : K cret :=
  HANDLE_CHK task_handle (fun t => r ← krhino_task_resume (Some t); mret (status r)).

Definition csi_kernel_task_terminate (task_handle : option nat) : K cret := csi_kernel_task_del task_handle.

Definition csi_kernel_task_exit : K cret := a ← csi_kernel_task_get_cur; csi_kernel_task_del (Some a).

Definition csi_kernel_task_yield : K cret := r ← krhino_task_yield; mret (status r).

Definition csi_kernel_task_get_count : K Z := l ← gets g_kobj_list; mret (Z.of_nat (length (task_head l))).

Definition csi_kernel_task_get_stack_size (task_handle : option nat) : K Z :=
  match task_handle with None => mret 0 | Some t => tk ← get_task t; mret (u32 (4 * stack_size tk)) end.

(** the second loop of [csi_kernel_task_list]: [tk_tmp] advances, [real_tsk_num]
    does not change *)
Fixpoint store_tasks (tasks : list nat) (tk_tmp : nat) (real_tsk_num : Z) (task_array : list nat) : option (list nat) :=
  match tasks with
  | [] => Some task_array
  | t :: tasks =>
      if 1 <=? real_tsk_num then
        if decide (tk_tmp < length task_array)%nat
        then store_tasks tasks (S tk_tmp) real_tsk_num (<[tk_tmp := t]> task_array) else None
      else Some task_array
  end.

(** [task_array] is the memory of the caller; what it holds at the end is the
    second component *)
Definition csi_kernel_task_list (task_array : option (list nat)) (array_items : Z) : K (Z * option (list nat)) :=
  match task_array with
  | None => mret (0, None)
  | Some arr =>
      if array_items =? 0 then mret (0, Some arr) else
      l ← gets g_kobj_list;
      let n := Z.of_nat (length (task_head l)) in
      let real_tsk_num := if array_items <? n then array_items else n in
      arr ← lift (store_tasks (task_head l) 0 real_tsk_num arr);
      mret (real_tsk_num, Some arr)
  end.

(** [struct os_task_info] without the name *)
Record os_task_info := mkInfo { ti_id : Z; ti_time : Z; ti_stack : Z; ti_prio : Z; ti_arg : nat }.

(** [ret] starts at 0; the comparison with [count] is unsigned *)
Fixpoint task_runtime_loop (tasks : list nat) (ret count : Z) (tsk_rumtime : list os_task_info) : K (Z * list os_task_info) :=
  match tasks with
  | [] => mret (ret, tsk_rumtime)
  | t :: tasks =>
      if ret <? count then
        tk ← get_task t;
        arr ← lift (if decide (Z.to_nat ret < length tsk_rumtime)%nat
                    then Some (<[Z.to_nat ret := mkInfo ret (u32 (runtime tk)) (stack_size tk) (prio tk) t]> tsk_rumtime) else None);
        upd_task t (set_runtime 0);;
        task_runtime_loop tasks (ret + 1) count arr
      else mret (ret, tsk_rumtime)
  end.

Definition csi_kernel_task_runtime (tsk_rumtime : list os_task_info) (count : Z) : K (Z * list os_task_info) :=
  l ← gets g_kobj_list; task_runtime_loop (task_head l) 0 (u32 count) tsk_rumtime.

(** ** Interrupts and time *)

Definition csi_kernel_intrpt_enter : K cret := r ← krhino_intrpt_enter; mret (status r).
Definition csi_kernel_intrpt_exit : K cret := krhino_intrpt_exit;; mret (CRet 0).

Definition csi_kernel_delay (ticks : Z) : K cret := r ← krhino_task_sleep ticks; mret (status r).

(** the rest of a call that sleeps, and of one that waits, when the task runs
    again *)
Definition csi_kernel_delay_resume : K cret := r ← krhino_task_sleep_resume; mret (status r).

Definition csi_kernel_delay_until (ticks : Z) : Z := - EOPNOTSUPP.

Definition RHINO_OS_MS_PERIOD_TICK : Z := 1000 / RHINO_CONFIG_TICKS_PER_SECOND.

Definition csi_kernel_tick2ms (ticks : Z) : Z := u64 (ticks * RHINO_OS_MS_PERIOD_TICK).

Definition csi_kernel_ms2tick (ms : Z) : Z := if ms <? RHINO_OS_MS_PERIOD_TICK then 0 else ms / RHINO_OS_MS_PERIOD_TICK.

Definition csi_kernel_delay_ms (ms : Z) : K cret :=
  let ms_get := if (ms <? RHINO_OS_MS_PERIOD_TICK) && negb (ms =? 0) then RHINO_OS_MS_PERIOD_TICK else ms in
  r ← krhino_task_sleep (csi_kernel_ms2tick ms_get); mret (status r).

Definition csi_kernel_get_ticks : K Z := krhino_sys_tick_get.
Definition csi_kernel_suspend_tick : Z := 0.
Definition csi_kernel_get_tick_freq : Z := RHINO_CONFIG_TICKS_PER_SECOND.
Definition csi_kernel_get_systimer_freq : Z := 0.

(** the clock of [driver/systick.c] *)
Record osclock := mkClock { g_sys_tick_count : Z; tv_sec : Z; tv_msec : Z }.

(** one tick: what [systick_handler] does before [krhino_tick_proc] *)
Definition systick_clock (c : osclock) : osclock :=
  let msec := tv_msec c + 1000 / RHINO_CONFIG_TICKS_PER_SECOND in
  if 1000 <? msec then mkClock (u64 (g_sys_tick_count c + 1)) (i32 (tv_sec c + 1)) 0
  else mkClock (u64 (g_sys_tick_count c + 1)) (tv_sec c) (i32 msec).

Definition csi_kernel_update_tick (ms : Z) (c : osclock) : osclock :=
  let ticks := u32 (ms * RHINO_CONFIG_TICKS_PER_SECOND) / 1000 in
  let msec := i32 (tv_msec c + csi_kernel_tick2ms ticks) in
  if 1000 <? msec then mkClock (u64 (g_sys_tick_count c + ticks)) (i32 (tv_sec c + msec / 1000)) (msec mod 1000)
  else mkClock (u64 (g_sys_tick_count c + ticks)) (tv_sec c) msec.

(** ** Waiting on objects *)

Definition csi_kernel_mutex_lock (mutex_handle : option nat) (timeout : Z) : K cret :=
  HANDLE_CHK mutex_handle (fun m => r ← krhino_mutex_lock (Some m) (wait_ticks timeout); mret (lock_status r)).

Definition csi_kernel_mutex_lock_resume : K cret := r ← krhino_mutex_lock_resume; mret (lock_status r).

Definition csi_kernel_mutex_unlock (mutex_handle : option nat) : K cret :=
  HANDLE_CHK mutex_handle (fun m => r ← krhino_mutex_unlock (Some m); mret (unlock_status r)).

Definition csi_kernel_mutex_get_owner (mutex_handle : option nat) : K (option nat) :=
  match mutex_handle with None => mret None | Some m => ob ← get_obj m; b ← lift (mutex_body ob); mret b.1 end.

Definition csi_kernel_sem_wait (sem_handle : option nat) (timeout : Z) : K cret :=
  HANDLE_CHK sem_handle (fun o => r ← krhino_sem_take (Some o) (wait_ticks timeout); mret (wait_status r)).

Definition csi_kernel_sem_wait_resume : K cret := r ← krhino_sem_take_resume; mret (wait_status r).

Definition csi_kernel_sem_post (sem_handle : option nat) : K cret :=
  HANDLE_CHK sem_handle (fun o => r ← krhino_sem_give (Some o); mret (status r)).

Definition csi_kernel_sem_get_count (sem_handle : option nat) : K Z :=
  match sem_handle with
  | None => mret (- EINVAL)
  | Some o =>
      '(r, cnt) ← krhino_sem_count_get (Some o) (Some 0%nat);
      mret match r, cnt with Ret RHINO_SUCCESS, Some c => i32 c | _, _ => - EPERM end
  end.

(** the second component is what is stored through [ret_flags] *)
Definition csi_kernel_event_set (ev_handle : option nat) (flags : Z) (ret_flags : option nat) : K (cret * option Z) :=
  match ev_handle, ret_flags with
  | Some o, Some _ =>
      ret ← krhino_event_set (Some o) flags RHINO_OR;
      if bool_decide (ret = Ret RHINO_SUCCESS) then
        ob ← get_obj o; f ← lift (event_flags ob); mret (CRet 0, Some f)
      else mret (status ret, None)
  | _, _ => mret (CRet (- EINVAL), None)
  end.

Definition csi_kernel_event_clear (ev_handle : option nat) (flags : Z) (ret_flags : option nat) : Z := - EOPNOTSUPP.

Definition csi_kernel_event_get (ev_handle ret_flags : option nat) : K (cret * option Z) :=
  match ev_handle, ret_flags with
  | Some o, Some _ => ob ← get_obj o; f ← lift (event_flags ob); mret (CRet 0, Some f)
  | _, _ => mret (CRet (- EINVAL), None)
  end.

(** [k_event_opt_t] *)
Definition KEVENT_OPT_SET_ANY : Z := 0.
Definition KEVENT_OPT_SET_ALL : Z := 1.
Definition KEVENT_OPT_CLR_ANY : Z := 2.
Definition KEVENT_OPT_CLR_ALL : Z := 3.

Definition event_opt (options clr_on_exit : Z) : Z :=
  if options =? KEVENT_OPT_SET_ANY then if clr_on_exit =? 1 then RHINO_OR_CLEAR else RHINO_OR
  else if options =? KEVENT_OPT_SET_ALL then if clr_on_exit =? 1 then RHINO_AND_CLEAR else RHINO_AND
  else 0.

Definition csi_kernel_event_wait (ev_handle : option nat) (flags options clr_on_exit : Z) (actl_flags : option nat)
    (timeout : Z) : K (cret * option Z) :=
  if bool_decide (ev_handle = None) || bool_decide (actl_flags = None) || (negb (clr_on_exit =? 0) && negb (clr_on_exit =? 1))
  then mret (CRet (- EINVAL), None) else
  if (options =? KEVENT_OPT_CLR_ANY) || (options =? KEVENT_OPT_CLR_ALL) then mret (CRet (- EOPNOTSUPP), None) else
  '(r, f) ← krhino_event_get ev_handle flags (event_opt options clr_on_exit) actl_flags (wait_ticks timeout);
  mret (wait_status r, f).

Definition csi_kernel_event_wait_resume : K cret := r ← krhino_event_get_resume; mret (wait_status r).

(** ** Message queues *)

Record mq_adapter_t := mkMq { buf_q : option nat; msg_size : Z; msg_count : Z }.

(** [handle] is the memory of the adapter, [alloc] and [buf] that of the queue;
    the sizes are computed in [int32_t] *)
Definition csi_kernel_msgq_new (count size : Z) (handle alloc : option nat) (buf : option (list Z)) : K (option mq_adapter_t) :=
  if (count <=? 0) || (size <=? 0) then mret None else
  match handle with
  | None => mret None
  | Some _ =>
      '(r, q) ← krhino_buf_queue_dyn_create (Some 0%nat) alloc (Some 0%nat) buf (u32 (size * (count + 1))) size;
      mret (if bool_decide (r = Ret RHINO_SUCCESS) then Some (mkMq q size count) else None)
  end.

(** the adapter is freed with the queue *)
Definition csi_kernel_msgq_del (mq_handle : option mq_adapter_t) : K cret :=
  match mq_handle with
  | None => mret (CRet (- EINVAL))
  | Some h => r ← krhino_buf_queue_dyn_del (buf_q h); mret (status r)
  end.

Definition csi_kernel_msgq_put (mq_handle : option mq_adapter_t) (msg_ptr : option (list Z)) (front_or_back timeout : Z) : K cret :=
  match mq_handle, msg_ptr with
  | Some h, Some _ =>
      if negb (front_or_back =? 0) && negb (front_or_back =? 1) then mret (CRet (- EINVAL)) else
      r ← krhino_buf_queue_send (buf_q h) msg_ptr (msg_size h); mret (status r)
  | _, _ => mret (CRet (- EINVAL))
  end.

Definition csi_kernel_msgq_get (mq_handle : option mq_adapter_t) (msg_ptr : option nat) (timeout : Z)
    : K (cret * option (list Z * Z)) :=
  match mq_handle, msg_ptr with
  | Some h, Some p =>
      '(r, d) ← krhino_buf_queue_recv (buf_q h) (wait_ticks timeout) (Some p) (Some 0%nat); mret (wait_status r, d)
  | _, _ => mret (CRet (- EINVAL), None)
  end.

Definition csi_kernel_msgq_get_resume : K (cret * option (list Z * Z)) :=
  '(r, d) ← krhino_buf_queue_recv_resume; mret (wait_status r, d).

Definition csi_kernel_msgq_get_count (mq_handle : option mq_adapter_t) : K Z :=
  match mq_handle with
  | None => mret (- EINVAL)
  | Some h =>
      '(r, info) ← krhino_buf_queue_info_get (buf_q h) (Some 0%nat);
      mret match r, info with Ret RHINO_SUCCESS, Some (_, _, _, _, cur_num, _) => i32 cur_num | _, _ => - EPERM end
  end.

Definition csi_kernel_msgq_get_capacity (mq_handle : option mq_adapter_t) : Z :=
  match mq_handle with None => 0 | Some h => u32 (msg_count h) end.

(** [handle->buf_q->max_msg_size] *)
Definition csi_kernel_msgq_get_msg_size (mq_handle : option mq_adapter_t) : K Z :=
  match mq_handle with
  | None => mret 0
  | Some h => q ← lift (buf_q h); ob ← get_obj q; '(_, max_msg_size, _, _, _) ← lift (buf_queue_body ob); mret (u32 max_msg_size)
  end.

Definition csi_kernel_msgq_flush (mq_handle : option mq_adapter_t) : K cret :=
  match mq_handle with
  | None => mret (CRet (- EINVAL))
  | Some h => r ← krhino_buf_queue_flush (buf_q h); mret (status r)
  end.

(** ** The kernel and the heap *)

Record csys := mkCsi { c_kern : kstate; c_heap : hstate }.

Abbreviation C := (M kstat_t csys).

Definition kern {A} (m : K A) : C A := fun s =>
  match m (c_kern s) with Ok (a, k) => Ok (a, mkCsi k (c_heap s)) | Reset e => Reset e | Undef => Undef end.
Definition heap {A} (m : H A) : C A := fun s =>
  match m (c_heap s) with Ok (a, h) => Ok (a, mkCsi (c_kern s) h) | Reset e => Reset e | Undef => Undef end.

Definition sizeof_ksem_t : Z := 36.
Definition sizeof_kmutex_t : Z := 40.
Definition sizeof_kevent_t : Z := 32.

Section heap.
(** [g_kmm_head] *)
Context (mh : Z).

(** [handle = krhino_mm_alloc(size)], then [create(handle)]; an object at the
    address [a] is the object [Z.to_nat a] of the kernel *)
Definition object_new (size : Z) (create : option nat -> K kret) : C (option nat) :=
  handle ← heap (krhino_mm_alloc mh size);
  if handle =? 0 then mret None else
  ret ← kern (create (Some (Z.to_nat handle)));
  mret (if bool_decide (ret = Ret RHINO_SUCCESS) then Some (Z.to_nat handle) else None).

(** [del(handle)], then [krhino_mm_free(handle)]: there is no object any more *)
Definition object_del (handle : option nat) (del : option nat -> K kret) : C cret :=
  match handle with
  | None => mret (CRet (- EINVAL))
  | Some o =>
      ret ← kern (del handle);
      (if bool_decide (ret = Ret RHINO_SUCCESS)
       then kern (free_obj o);; heap (krhino_mm_free mh (Z.of_nat o)) else mret tt);;
      mret (status ret)
  end.

Definition csi_kernel_sem_new (max_count initial_count : Z) : C (option nat) :=
  if (max_count <=? 0) || (initial_count <? 0) then mret None else
  if max_count <? initial_count then mret None else
  object_new sizeof_ksem_t (fun handle => krhino_sem_create handle (Some 0%nat) (u32 initial_count)).

Definition csi_kernel_sem_del (sem_handle : option nat) : C cret := object_del sem_handle krhino_sem_del.

Definition csi_kernel_mutex_new : C (option nat) := object_new sizeof_kmutex_t (fun handle => krhino_mutex_create handle (Some 0%nat)).

Definition csi_kernel_mutex_del (mutex_handle : option nat) : C cret := object_del mutex_handle krhino_mutex_del.

Definition csi_kernel_event_new : C (option nat) := object_new sizeof_kevent_t (fun handle => krhino_event_create handle (Some 0%nat) 0).

Definition csi_kernel_event_del (ev_handle : option nat) : C cret := object_del ev_handle krhino_event_del.

Definition csi_kernel_malloc (size : Z) : C Z :=
  if size <? 1 then mret 0 else
  kern csi_kernel_sched_suspend;;
  ret ← heap (krhino_mm_alloc mh size);
  kern (csi_kernel_sched_resume 0);;
  mret ret.

Definition csi_kernel_free (ptr : Z) : C unit :=
  kern csi_kernel_sched_suspend;;
  heap (krhino_mm_free mh ptr);;
  kern (csi_kernel_sched_resume 0).

Definition csi_kernel_realloc (ptr size : Z) : C Z := heap (krhino_mm_realloc mh ptr (u32 size)).

(** *** Memory pools *)

(** the sizes are computed in [int32_t]; the name is a string *)
Definition csi_kernel_mpool_new (p_addr block_count block_size : Z) : H Z :=
  if (p_addr =? 0) || (block_count <? 0) || (block_size <=? 0) || negb (block_size mod 4 =? 0) then mret 0 else
  handle ← krhino_mm_alloc mh sizeof_mblk_pool_t;
  if handle =? 0 then mret 0 else
  ret ← krhino_mblk_pool_init handle 1 p_addr block_size (u32 (block_count * block_size));
  mret (if bool_decide (ret = RHINO_SUCCESS) then handle else 0).

(** [memset(mp_handle, 0, sizeof(mblk_pool_t))] *)
Fixpoint zero_handle (n : nat) (p : Z) : H unit :=
  match n with O => mret tt | S n => st p 0;; zero_handle n (p + 4) end.

Definition csi_kernel_mpool_del (mp_handle : Z) : H Z :=
  if mp_handle =? 0 then mret (- EINVAL) else
  zero_handle (Z.to_nat (sizeof_mblk_pool_t / 4)) mp_handle;;
  krhino_mm_free mh mp_handle;;
  mret 0.
End heap.

Definition csi_kernel_mpool_alloc (mp_handle timeout : Z) : H Z :=
  if mp_handle =? 0 then mret 0 else
  '(ret, blk) ← krhino_mblk_alloc mp_handle (Some 0%nat);
  mret (if bool_decide (ret = RHINO_SUCCESS) then default 0 blk else 0).

Definition csi_kernel_mpool_free (mp_handle block : Z) : H Z :=
  if (mp_handle =? 0) || (block =? 0) then mret (- EINVAL) else
  ret ← krhino_mblk_free mp_handle block;
  mret (if bool_decide (ret = RHINO_SUCCESS) then 0 else - EPERM).

Definition csi_kernel_mpool_get_count (mp_handle : Z) : H Z :=
  if mp_handle =? 0 then mret 0 else
  whole ← ld (mp_blk_whole mp_handle); avail ← ld (mp_blk_avail mp_handle); mret (i32 (whole - avail)).

Definition csi_kernel_mpool_get_capacity (mp_handle : Z) : H Z :=
  if mp_handle =? 0 then mret 0 else ld (mp_blk_whole mp_handle).

Definition csi_kernel_mpool_get_block_size (mp_handle : Z) : H Z :=
  if mp_handle =? 0 then mret 0 else ld (mp_blk_size mp_handle).

(** what is stored through [total], [used], [free] and [peak] *)
Definition csi_kernel_get_mminfo : H (Z * (Z * Z * Z * Z)) :=
  h ← gets mmhead;
  mret (0, (i32 (used_size h + free_size h), i32 (used_size h), i32 (free_size h), i32 (maxused_size h))).
