(* ===== verification/Kernel.v ===== *)
(** * The kernel as a whole

    The calls of the kernel as the labels of a transition system: [run c] is the
    code of the call [c], [legal s c] what the caller owes it in the state [s]
    (pointers that designate objects, sizes that match the memory, blocking
    calls not from the idle task).  [kinv] holds in every state that legal calls
    and interrupts reach from the start of the system, and no legal call stops
    the kernel or accesses memory it should not. *)

From S2P Require Import Prelude Config RingBuf State Sched Inv Tick Pend PriChange KInv Mutex Sem.
From S2P Require Import Event Queue BufQueue Task Frame TaskDel Time Sys.

Inductive call :=
  | SemCreate (o name : option nat) (count : Z) | SemDynCreate (ptr alloc name : option nat) (count : Z)
  | SemDel (o : nat) | SemDynDel (o : nat)
  | SemTake (o : nat) (ticks : Z) | SemGive (o : nat) | SemGiveAll (o : nat) | SemCountSet (o : nat) (count : Z)
  | MutexCreate (o name : option nat) | MutexDynCreate (ptr alloc name : option nat)
  | MutexDel (o : nat) | MutexDynDel (o : nat)
  | MutexLock (o : nat) (ticks : Z) | MutexUnlock (o : nat)
  | EventCreate (o name : option nat) (flags : Z) | EventDynCreate (ptr alloc name : option nat) (flags : Z)
  | EventDel (o : nat) | EventDynDel (o : nat)
  | EventGet (o : nat) (flags opt ticks : Z) | EventSet (o : nat) (flags opt : Z)
  | QueueCreate (o name : option nat) (mem : option (list Z)) (num : Z)
  | QueueDynCreate (ptr alloc name : option nat) (mem : option (list Z)) (num : Z)
  | QueueDel (o : nat) | QueueDynDel (o : nat)
  | QueueBackSend (o : nat) (msg : Z) | QueueAllSend (o : nat) (msg : Z) | QueueRecv (o : nat) (ticks : Z) | QueueFlush (o : nat)
  | BufQueueCreate (o name : option nat) (mem : option (list Z)) (size max_msg : Z)
  | FixBufQueueCreate (o name : option nat) (mem : option (list Z)) (msg_size msg_num : Z)
  | BufQueueDynCreate (ptr alloc name : option nat) (mem : option (list Z)) (size max_msg : Z)
  | BufQueueDel (o : nat) | BufQueueDynDel (o : nat)
  | BufQueueSend (o : nat) (msg : list Z) | BufQueueRecv (o : nat) (ticks : Z) | BufQueueFlush (o : nat)
  | TaskCreate (t name : option nat) (pri ticks : Z) (stack : option nat) (size : Z) (entry : option nat) (autorun : Z)
  | TaskDynCreate (ptr alloc name : option nat) (pri ticks size : Z) (entry : option nat) (autorun : Z)
  | TaskDel (t : option nat) | TaskDynDel (t : option nat)
  | TaskSleep (ticks : Z) | TaskYield | TaskSuspend (t : nat) | TaskResume (t : nat)
  | TaskPriChange (t : nat) (pri : Z) | TaskTimeSliceSet (t : nat) (slice : Z) | SchedPolicySet (t : nat) (policy : Z)
  | SchedDisable | SchedEnable | IntrptEnter | IntrptExit | TickProc.

(** the result of a call goes to its caller *)
Definition done_with {A} (m : K A) : K unit := m;; mret tt.

Definition run (c : call) : K unit :=
  match c with
  | SemCreate o n v => done_with (krhino_sem_create o n v)
  | SemDynCreate p o n v => done_with (krhino_sem_dyn_create p o n v)
  | SemDel o => done_with (krhino_sem_del (Some o))
  | SemDynDel o => done_with (krhino_sem_dyn_del (Some o))
  | SemTake o ticks => done_with (krhino_sem_take (Some o) ticks)
  | SemGive o => done_with (krhino_sem_give (Some o))
  | SemGiveAll o => done_with (krhino_sem_give_all (Some o))
  | SemCountSet o v => done_with (krhino_sem_count_set (Some o) v)
  | MutexCreate o n => done_with (krhino_mutex_create o n)
  | MutexDynCreate p o n => done_with (krhino_mutex_dyn_create p o n)
  | MutexDel o => done_with (krhino_mutex_del (Some o))
  | MutexDynDel o => done_with (krhino_mutex_dyn_del (Some o))
  | MutexLock o ticks => done_with (krhino_mutex_lock (Some o) ticks)
  | MutexUnlock o => done_with (krhino_mutex_unlock (Some o))
  | EventCreate o n f => done_with (krhino_event_create o n f)
  | EventDynCreate p o n f => done_with (krhino_event_dyn_create p o n f)
  | EventDel o => done_with (krhino_event_del (Some o))
  | EventDynDel o => done_with (krhino_event_dyn_del (Some o))
  | EventGet o f opt ticks => done_with (krhino_event_get (Some o) f opt (Some 0%nat) ticks)
  | EventSet o f opt => done_with (krhino_event_set (Some o) f opt)
  | QueueCreate o n mem num => done_with (krhino_queue_create o n mem num)
  | QueueDynCreate p o n mem num => done_with (krhino_queue_dyn_create p o n mem num)
  | QueueDel o => done_with (krhino_queue_del (Some o))
  | QueueDynDel o => done_with (krhino_queue_dyn_del (Some o))
  | QueueBackSend o msg => done_with (krhino_queue_back_send (Some o) msg)
  | QueueAllSend o msg => done_with (krhino_queue_all_send (Some o) msg)
  | QueueRecv o ticks => done_with (krhino_queue_recv (Some o) ticks (Some 0%nat))
  | QueueFlush o => done_with (krhino_queue_flush (Some o))
  | BufQueueCreate o n mem size mx => done_with (krhino_buf_queue_create o n mem size mx)
  | FixBufQueueCreate o n mem size num => done_with (krhino_fix_buf_queue_create o n mem size num)
  | BufQueueDynCreate p o n mem size mx => done_with (krhino_buf_queue_dyn_create p o n mem size mx)
  | BufQueueDel o => done_with (krhino_buf_queue_del (Some o))
  | BufQueueDynDel o => done_with (krhino_buf_queue_dyn_del (Some o))
  | BufQueueSend o msg => done_with (krhino_buf_queue_send (Some o) (Some msg) (Z.of_nat (length msg)))
  | BufQueueRecv o ticks => done_with (krhino_buf_queue_recv (Some o) ticks (Some 0%nat) (Some 0%nat))
  | BufQueueFlush o => done_with (krhino_buf_queue_flush (Some o))
  | TaskCreate t n p ticks st size e a => done_with (krhino_task_create t n p ticks st size e a)
  | TaskDynCreate q t n p ticks size e a => done_with (krhino_task_dyn_create q t n p ticks size e a)
  | TaskDel t => done_with (krhino_task_del t)
  | TaskDynDel t => done_with (krhino_task_dyn_del t)
  | TaskSleep ticks => done_with (krhino_task_sleep ticks)
  | TaskYield => done_with krhino_task_yield
  | TaskSuspend t => done_with (krhino_task_suspend (Some t))
  | TaskResume t => done_with (krhino_task_resume (Some t))
  | TaskPriChange t p => done_with (krhino_task_pri_change (Some t) p (Some 0%nat))
  | TaskTimeSliceSet t n => done_with (krhino_task_time_slice_set (Some t) n)
  | SchedPolicySet t p => done_with (krhino_sched_policy_set (Some t) p)
  | SchedDisable => done_with krhino_sched_disable
  | SchedEnable => done_with krhino_sched_enable
  | IntrptEnter => done_with krhino_intrpt_enter
  | IntrptExit => krhino_intrpt_exit
  | TickProc => krhino_tick_proc
  end.

(** ** What the caller owes *)

Section legal.
Context (s : kstate).

(** the pointer designates an object, whatever its type *)
Definition has_obj (o : nat) : Prop := is_Some (g_objs s !! o).
Definition has_task (t : nat) : Prop := is_Some (g_tasks s !! t).
(** the caller may block *)
Definition may_block (ticks : Z) : Prop := g_active_task s <> g_idle_task /\ 0 <= ticks < 2 ^ 64.
(** memory for a new object: unused, or what a deleted object left *)
Definition for_obj (o : option nat) : Prop := forall m, o = Some m -> fresh_obj s m.
(** memory from the allocator *)
Definition allocated (o : option nat) : Prop := forall m, o = Some m -> g_objs s !! m = None.
Definition for_task (t : option nat) : Prop := forall u, t = Some u -> fresh_task (g_tasks s) u.
(** the buffer has the size the call says *)
Definition room (mem : option (list Z)) (size : Z) : Prop :=
  0 <= size /\ forall l, mem = Some l -> size <= Z.of_nat (length l).

Definition legal (c : call) : Prop :=
  match c with
  | SemCreate o _ v => for_obj o /\ 0 <= v < 2 ^ 32
  | SemDynCreate _ o _ v => allocated o /\ 0 <= v < 2 ^ 32
  | SemCountSet o v => has_obj o /\ 0 <= v < 2 ^ 32
  | SemTake o ticks | QueueRecv o ticks | BufQueueRecv o ticks => has_obj o /\ may_block ticks
  | SemDel o | SemDynDel o | SemGive o | SemGiveAll o | MutexDel o | MutexDynDel o | MutexUnlock o | EventDel o | EventDynDel o
  | QueueDel o | QueueDynDel o | QueueBackSend o _ | QueueAllSend o _ | QueueFlush o
  | BufQueueDel o | BufQueueDynDel o | BufQueueFlush o => has_obj o
  | MutexCreate o _ => for_obj o
  | MutexDynCreate _ o _ => allocated o
  | MutexLock o ticks => has_obj o /\ may_block ticks /\
      forall ob, g_objs s !! o = Some ob -> body ob <> KMutex (Some (g_active_task s)) MUTEX_NESTED_MAX
  | EventCreate o _ f => for_obj o /\ 0 <= f < 2 ^ 32
  | EventDynCreate _ o _ f => allocated o /\ 0 <= f < 2 ^ 32
  | EventGet o _ _ ticks => has_obj o /\ may_block ticks
  | EventSet o f _ => has_obj o /\ 0 <= f < 2 ^ 32
  | QueueCreate o _ mem num => for_obj o /\ 0 <= num /\ room mem (num * Z.of_nat sizeof_ptr)
  | QueueDynCreate _ o _ mem num => allocated o /\ 0 <= num /\ room mem (num * Z.of_nat sizeof_ptr)
  | BufQueueCreate o _ mem size mx => for_obj o /\ room mem size /\ 0 <= mx
  | FixBufQueueCreate o _ mem size num =>
      for_obj o /\ 0 <= size /\ 0 <= num /\ size * num < 2 ^ 32 /\ room mem (size * num)
  | BufQueueDynCreate _ o _ mem size mx => allocated o /\ room mem size /\ 0 <= mx
  | BufQueueSend o msg => has_obj o /\ forall ob r mx cur peak mn, g_objs s !! o = Some ob ->
      body ob = KBufQueue r mx cur peak mn -> buf_msg r mx msg
  | TaskCreate t _ p _ _ _ _ _ => for_task t /\ 0 <= p
  | TaskDynCreate _ t _ p _ _ _ _ => for_task t /\ 0 <= p
  | TaskDel t => exists tk, g_tasks s !! default (g_active_task s) t = Some tk /\ task_state tk <> K_DELETED
  | TaskDynDel t => has_task (default (g_active_task s) t) /\ res_sem_room s
  | TaskSleep ticks => may_block ticks
  | TaskYield => g_intrpt_nested_level s = 0
  | TaskSuspend t | TaskResume t | TaskTimeSliceSet t _ | SchedPolicySet t _ => has_task t
  | TaskPriChange t p => has_task t /\ 0 <= p
  | SchedDisable | SchedEnable => True
  | IntrptEnter => g_intrpt_nested_level s < RHINO_CONFIG_INTRPT_MAX_NESTED_LEVEL
  | IntrptExit | TickProc => 0 < g_intrpt_nested_level s
  end.
End legal.

(** ** The invariant of the running system *)

Record kinv (s : kstate) : Prop := {
  ki_wf : wf s;
  ki_lock : g_sched_lock s <= SCHED_MAX_LOCK_COUNT;
  ki_stat : g_sys_stat s = RHINO_RUNNING;
  ki_spawned : 0 < g_idle_task_spawned s
}.

Definition run_ok (c : call) (s : kstate) : Prop := wp (run c) (fun _ s' => kinv s') s.

Lemma wp_done_with {A} (m : K A) (Q : kstate -> Prop) s : wp m (fun _ s' => Q s') s -> wp (done_with m) (fun _ s' => Q s') s.
Proof. intros H. apply wp_bind. eapply wp_mono; [|exact H]. cbv beta. intros. by apply wp_ret. Qed.

(** a call that leaves the globals of the scheduler alone keeps the invariant
    when it keeps [wf] *)
Lemma frame_ok {A} (m : K A) s (P : A -> kstate -> Prop) :
  kinv s -> wp m (fun r s' => (wf s' /\ P r s') /\ frame s s') s -> wp (done_with m) (fun _ s' => kinv s') s.
Proof.
  intros [Hwf Hl Hst Hsp] Hm. apply wp_done_with. eapply wp_mono; [|exact Hm]. cbv beta.
  intros _ s' ([Hwf' _] & [Hs _ Hsp']). unfold statics in Hs. injection Hs as Hl' _ _ Hst'. split; [done|lia|congruence|auto].
Qed.

Lemma framed_ok {A} (m : K A) s : Frames m -> kinv s -> wp m (fun _ s' => wf s') s -> wp (done_with m) (fun _ s' => kinv s') s.
Proof.
  intros Hf Hk Hm. apply (frame_ok m s (fun _ _ => True)); [done|]. apply wp_frames; [done|].
  eapply wp_mono; [|exact Hm]. by cbv beta.
Qed.

(** ... from its specification *)
Lemma framed_spec {A} (m : K A) s (P : A -> kstate -> Prop) :
  Frames m -> kinv s -> wp m (fun r s' => wf s' /\ P r s') s -> wp (done_with m) (fun _ s' => kinv s') s.
Proof. intros Hf Hk Hm. apply framed_ok; [done..|]. eapply wp_mono; [|exact Hm]. by intros ?? [? _]. Qed.

Ltac framed := apply framed_ok; [auto with frames|assumption|].
Ltac framed_by H := eapply framed_spec; [auto with frames|assumption|]; apply H.

Lemma fresh_none s o : g_objs s !! o = None -> fresh_obj s o.
Proof. intros Ho ob Hob. congruence. Qed.

(** ** Creations *)

Definition creation (c : call) : bool :=
  match c with
  | SemCreate _ _ _ | SemDynCreate _ _ _ _ | MutexCreate _ _ | MutexDynCreate _ _ _ | EventCreate _ _ _ | EventDynCreate _ _ _ _
  | QueueCreate _ _ _ _ | QueueDynCreate _ _ _ _ _ | BufQueueCreate _ _ _ _ _ | FixBufQueueCreate _ _ _ _ _
  | BufQueueDynCreate _ _ _ _ _ _ | TaskCreate _ _ _ _ _ _ _ _ | TaskDynCreate _ _ _ _ _ _ _ _ => true
  | _ => false
  end.

Section creation.
Context (Inv : kstate -> Prop) `{!Creates Inv} (s : kstate) (Hi : Inv s).

Lemma obj_creation_ok c : creation c = true -> legal s c ->
  match c with
  | TaskCreate _ _ _ _ _ _ _ _ | TaskDynCreate _ _ _ _ _ _ _ _ => True
  | _ => wp (run c) (fun _ s' => Inv s') s
  end.
Proof using Hi Creates0.
  destruct c; try done; cbn [run legal]; intros _; try exact (fun _ => I).
  - intros [Ho Hv]. by apply wp_done_with, creates_keeps, sem_create_keeps.
  - intros [Ho Hv]. apply wp_done_with. destruct ptr; [|by apply wp_ret]. apply dyn_create_keeps; [done|].
    intros m Hm. split; [by apply Ho|]. apply sem_create_keeps; [done..| |done]. intros ? [= <-]. by apply fresh_none, Ho.
  - intros Ho. by apply wp_done_with, creates_keeps, mutex_create_keeps.
  - intros Ho. apply wp_done_with. destruct ptr; [|by apply wp_ret]. apply dyn_create_keeps; [done|].
    intros m Hm. split; [by apply Ho|]. apply mutex_create_keeps; [done..|]. intros ? [= <-]. by apply fresh_none, Ho.
  - intros [Ho Hv]. by apply wp_done_with, creates_keeps, event_create_keeps.
  - intros [Ho Hv]. apply wp_done_with. destruct ptr; [|by apply wp_ret]. apply dyn_create_keeps; [done|].
    intros m Hm. split; [by apply Ho|]. apply event_create_keeps; [done..| |done]. intros ? [= <-]. by apply fresh_none, Ho.
  - intros (Ho & Hn & _ & Hm). apply wp_done_with, creates_keeps, queue_create_keeps; try done.
    intros l Hl. specialize (Hm l Hl). unfold sizeof_ptr in *. zlia.
  - intros (Ho & Hn & _ & Hm). apply wp_done_with. destruct ptr; [|by apply wp_ret]. apply dyn_create_keeps; [done|].
    intros m Hl. split; [by apply Ho|].
    destruct mem as [l|]; [|by apply creates_err]. apply queue_create_keeps; [done|done| | |done].
    + intros ? [= <-]. by apply fresh_none, Ho.
    + intros ? [= <-]. specialize (Hm l eq_refl). unfold sizeof_ptr in *. zlia.
  - intros (Ho & [Hs Hm] & Hx). by apply wp_done_with, creates_keeps, buf_queue_create_keeps.
  - intros (Ho & Hs & Hn & Hlt & _ & Hm). unfold krhino_fix_buf_queue_create. rewrite u32_small by nia.
    apply wp_done_with, creates_keeps, buf_queue_create_keeps; try done; [nia|]. intros _. by exists msg_num; lia.
  - intros (Ho & [Hs Hm] & Hx). apply wp_done_with. unfold krhino_buf_queue_dyn_create.
    destruct ptr; [|by apply wp_ret]. cbn [NULL_PARA_CHK]. case_match; [by apply wp_ret|].
    apply dyn_create_keeps; [done|]. intros m Hl. split; [by apply Ho|].
    destruct mem as [l|]; [|by apply creates_err]. apply buf_queue_create_keeps; try done.
    intros ? [= <-]. by apply fresh_none, Ho.
Qed.

(** with what a task needs, the creations keep the invariant *)
Context (Htask : forall task name p ticks stack_buf size entry autorun flag,
  0 <= p -> (forall t, task = Some t -> fresh_task (g_tasks s) t) ->
  wp (task_create task name p ticks stack_buf size entry autorun flag) (fun _ s' => Inv s') s).

Lemma creation_ok c : creation c = true -> legal s c -> wp (run c) (fun _ s' => Inv s') s.
Proof using All.
  intros Hc Hl. pose proof (obj_creation_ok c Hc Hl). destruct c; try done; cbn [run legal] in *; destruct Hl as [Ht Hp].
  - by apply wp_done_with, Htask.
  - apply wp_done_with. unfold krhino_task_dyn_create, task_dyn_create. destruct ptr; [|by apply wp_ret]. cbn [NULL_PARA_CHK].
    case_match; [by apply wp_ret|]. destruct alloc as [t|]; [|by apply wp_ret]. apply wp_bind.
    eapply wp_mono; [|by apply (Htask (Some t))].
    cbv beta. intros r s' Hi'. destruct r as [[]|]; by apply wp_ret.
Qed.
End creation.

#[export] Instance kinv_creates : Creates kinv.
Proof.
  split.
  - intros s o ob [Hwf Hl Hst Hsp] Ho Hok Hb Hw. split; [by apply wf_new|done..].
  - intros s l [Hwf Hl Hst Hsp]. split; [by apply wf_kobj_list|done..].
Qed.

(** the calls of one family *)
Ltac family c := destruct c; try exact (fun _ => I); unfold run_ok; cbn [run legal].

Section run_ok.
Context (s : kstate) (Hk : kinv s).

Lemma run_wf : wf s.
Proof using Hk. apply Hk. Qed.
Hint Resolve run_wf fresh_none : core.

Lemma creation_run_ok c : creation c = true -> legal s c -> run_ok c s.
Proof using Hk.
  apply creation_ok; [apply _|done|]. intros task name p ticks stack_buf size entry autorun flag Hp Hf.
  pose proof (wp_frames (task_create task name p ticks stack_buf size entry autorun flag) (fun _ s' => wf s') s) as H.
  eapply wp_mono; [|apply H; [auto with frames|apply task_create_wf; try done; apply Hk]]. cbv beta.
  pose proof Hk as [_ Hl Hst Hsp]. intros _ s' [Hwf' [Hs _ Hsp']]. unfold statics in Hs. injection Hs as Hl' _ _ Hst'.
  split; [done|lia|congruence|auto].
Qed.

Lemma sem_run_ok c : legal s c ->
  match c with
  | SemDel _ | SemDynDel _ | SemTake _ _ | SemGive _ | SemGiveAll _
  | SemCountSet _ _ => run_ok c s
  | _ => True
  end.
Proof using Hk.
  family c.
  - intros [ob Ho]. framed. by eapply krhino_sem_del_wf.
  - intros [ob Ho]. framed. by eapply krhino_sem_dyn_del_wf.
  - intros [[ob Ho] [Ha Ht]]. framed_by wp_krhino_sem_take; done.
  - intros [ob Ho]. framed_by wp_sem_give; done.
  - intros [ob Ho]. framed_by wp_sem_give; done.
  - intros [[ob Ho] Hv]. framed. by eapply krhino_sem_count_set_wf.
Qed.

Lemma mutex_run_ok c : legal s c ->
  match c with
  | MutexDel _ | MutexDynDel _ | MutexLock _ _ | MutexUnlock _ => run_ok c s
  | _ => True
  end.
Proof using Hk.
  family c.
  - intros [ob Ho]. framed. by eapply krhino_mutex_del_wf.
  - intros [ob Ho]. framed. by eapply krhino_mutex_dyn_del_wf.
  - intros ([ob Ho] & [Ha Ht] & Hn). framed_by wp_krhino_mutex_lock; try done. by apply Hn.
  - intros [ob Ho]. framed_by wp_krhino_mutex_unlock; done.
Qed.

Lemma event_run_ok c : legal s c ->
  match c with
  | EventDel _ | EventDynDel _ | EventGet _ _ _ _ | EventSet _ _ _ => run_ok c s
  | _ => True
  end.
Proof using Hk.
  family c.
  - intros [ob Ho]. framed. by eapply krhino_event_del_wf.
  - intros [ob Ho]. framed. by eapply krhino_event_dyn_del_wf.
  - intros [[ob Ho] [Ha Ht]]. framed_by wp_krhino_event_get; done.
  - intros [[ob Ho] Hf]. framed. unfold krhino_event_set, NULL_PARA_CHK.
    destruct ((opt =? RHINO_AND) || (opt =? RHINO_OR)) eqn:E; cbn [negb]; [|by apply wp_ret].
    eapply wp_mono; [|apply (wp_event_set s o ob flags opt); try done]; [by intros ?? [? _]|].
    apply orb_true_iff in E as [?%Z.eqb_eq|?%Z.eqb_eq]; auto.
Qed.

Lemma queue_run_ok c : legal s c ->
  match c with
  | QueueDel _ | QueueDynDel _ | QueueBackSend _ _ | QueueAllSend _ _
  | QueueRecv _ _ | QueueFlush _ => run_ok c s
  | _ => True
  end.
Proof using Hk.
  family c.
  - intros [ob Ho]. framed. by eapply krhino_queue_del_wf.
  - intros [ob Ho]. framed. by eapply krhino_queue_dyn_del_wf.
  - intros [ob Ho]. unfold krhino_queue_back_send. framed_by wp_msg_send; done.
  - intros [ob Ho]. unfold krhino_queue_all_send. framed_by wp_msg_send; done.
  - intros [[ob Ho] [Ha Ht]]. framed_by wp_krhino_queue_recv; done.
  - intros [ob Ho]. framed. by eapply krhino_queue_flush_wf.
Qed.

Lemma buf_queue_run_ok c : legal s c ->
  match c with
  | BufQueueDel _ | BufQueueDynDel _
  | BufQueueSend _ _ | BufQueueRecv _ _ | BufQueueFlush _ => run_ok c s
  | _ => True
  end.
Proof using Hk.
  family c.
  - intros [ob Ho]. framed. by eapply krhino_buf_queue_del_wf.
  - intros [ob Ho]. framed. by eapply krhino_buf_queue_dyn_del_wf.
  - intros [[ob Ho] Hm]. framed_by wp_buf_queue_send; [done|exact Ho|]. intros. by eapply Hm.
  - intros [[ob Ho] [Ha Ht]]. framed_by wp_krhino_buf_queue_recv; done.
  - intros [ob Ho]. framed. by eapply krhino_buf_queue_flush_wf.
Qed.

Lemma task_run_ok c : legal s c ->
  match c with
  | TaskDel _ | TaskDynDel _ | TaskSleep _ | TaskYield
  | TaskSuspend _ | TaskResume _ | TaskPriChange _ _ | TaskTimeSliceSet _ _ | SchedPolicySet _ _ => run_ok c s
  | _ => True
  end.
Proof using Hk.
  family c.
  - intros (tk & Ht & Hd). framed_by wp_krhino_task_del; done.
  - intros [[tk Ht] Hroom]. eapply (frame_ok _ _ _ Hk), (wp_krhino_task_dyn_del s t tk); try done.
    pose proof (ki_lock _ Hk). unfold SCHED_MAX_LOCK_COUNT in *. lia.
  - intros [Ha Ht]. framed_by wp_krhino_task_sleep; done.
  - intros Hn. framed_by wp_krhino_task_yield; done.
  - intros [tk Ht]. framed_by wp_krhino_task_suspend; done.
  - intros [tk Ht]. framed_by wp_krhino_task_resume; done.
  - intros [[tk Ht] Hp]. framed_by wp_krhino_task_pri_change; done.
  - intros [tk Ht]. framed. by eapply krhino_task_time_slice_set_wf.
  - intros [tk Ht]. framed. by eapply krhino_sched_policy_set_wf.
Qed.

Lemma control_run_ok c : legal s c ->
  match c with
  | SchedDisable | SchedEnable | IntrptEnter | IntrptExit | TickProc => run_ok c s
  | _ => True
  end.
Proof using Hk.
  pose proof Hk as [Hwf Hl Hst Hsp]. family c.
  - intros _. apply wp_done_with. eapply wp_mono; [|by apply wp_krhino_sched_disable]. cbv beta. intros r s' [Hwf' Hd].
    destruct Hd; split; try done. cbn. lia.
  - intros _. apply wp_done_with. eapply wp_mono; [|by apply wp_krhino_sched_enable]. cbv beta. intros r s' [Hwf' Hd].
    destruct Hd; split; try done; cbn; unfold SCHED_MAX_LOCK_COUNT in *; lia.
  - intros Hn. apply wp_done_with. eapply wp_mono; [|by apply krhino_intrpt_enter_wf]. cbv beta.
    intros r s' (_ & Hwf' & ->). by split.
  - intros Hn. eapply wp_mono; [|by apply krhino_intrpt_exit_wf]. cbv beta. intros _ s' ((Hwf' & p & a & ->) & _). by split.
  - intros Hn. eapply wp_mono; [|by apply wp_krhino_tick_proc]. cbv beta. intros _ s' (Hwf' & Hc & _).
    unfold ctl in Hc. injection Hc as _ Hl' _ Hst' Hsp'. split; [done|lia|congruence|lia].
Qed.

(** a legal call returns, or blocks its caller, and keeps the invariant *)
Lemma call_ok c : legal s c -> run_ok c s.
Proof using Hk.
  intros Hc. pose proof (creation_run_ok c) as H0. destruct (creation c) eqn:E; [by apply H0|]. pose proof (sem_run_ok c Hc). pose proof (mutex_run_ok c Hc). pose proof (event_run_ok c Hc).
  pose proof (queue_run_ok c Hc). pose proof (buf_queue_run_ok c Hc). pose proof (task_run_ok c Hc).
  pose proof (control_run_ok c Hc). by destruct c.
Qed.
End run_ok.

(** ** The system as a transition system *)

Inductive step (s : kstate) : call -> kstate -> Prop :=
  | step_call c s' : legal s c -> run c s = Ok (tt, s') -> step s c s'.

(** the states between [krhino_init] and [krhino_start]: the program creates its
    tasks and its objects *)
Inductive prepared : kstate -> Prop :=
  | prep_init r s : krhino_init boot_state = Ok (r, s) -> prepared s
  | prep_create s c s' : prepared s -> creation c = true -> step s c s' -> prepared s'.

Definition started (s : kstate) : Prop := exists s0 r, prepared s0 /\ krhino_start s0 = Ok (r, s).

Inductive reachable : kstate -> Prop :=
  | reach_start s : started s -> reachable s
  | reach_step s c s' : reachable s -> step s c s' -> reachable s'.

Lemma setup_creation_ok s c : setup s -> creation c = true -> legal s c -> wp (run c) (fun _ s' => setup s') s.
Proof. intros Hs. apply creation_ok; [apply _|done|]. intros. by apply setup_task_create. Qed.

Lemma prepared_setup s : prepared s -> setup s.
Proof.
  induction 1 as [r s E|s c s' _ IH Hc Hs].
  - by apply initialised_setup, (wp_elim _ _ _ _ _ wp_krhino_init E).
  - destruct Hs as [c s2 Hl E]. exact (wp_elim _ _ _ _ _ (setup_creation_ok s c IH Hc Hl) E).
Qed.

Lemma setup_start s : setup s -> exists t,
  let s' := set_g_sys_stat RHINO_RUNNING (set_g_active_task t (set_g_preferred_ready_task t s)) in
  krhino_start s = Ok (Blocked, s') /\ kinv s'.
Proof.
  intros Hs. destruct (proj1 (wp_Ok _ _ _) (wp_krhino_start s Hs)) as (r & s' & E & -> & Hwf & Hst & Hsp & t & ->).
  exists t. split; [done|]. split; [done| |done|done]. destruct (bt_levels _ (su_boot _ Hs)) as [_ Hl].
  cbn [set_g_sys_stat set_g_active_task set_g_preferred_ready_task g_sched_lock]. rewrite Hl. unfold SCHED_MAX_LOCK_COUNT. lia.
Qed.

Lemma started_ok s : started s -> kinv s.
Proof. intros (s0 & r & Hp & E). destruct (setup_start s0 (prepared_setup _ Hp)) as (t & E' & Hk). rewrite E in E'. by injection E' as -> ->. Qed.

Lemma step_kinv s c s' : kinv s -> step s c s' -> kinv s'.
Proof. intros Hk [c' s2 Hc Hr]. exact (wp_elim _ _ _ _ _ (call_ok s Hk c' Hc) Hr). Qed.

Lemma reachable_kinv s : reachable s -> kinv s.
Proof. induction 1 as [s Hs|s c s' _ IH Hs]; [by apply started_ok|by eapply step_kinv]. Qed.

(** a legal call is not stuck: no reset, no access it should not make *)
Lemma reachable_progress s c : reachable s -> legal s c -> exists s', step s c s'.
Proof.
  intros Hr Hc. destruct (proj1 (wp_Ok _ _ _) (call_ok s (reachable_kinv s Hr) c Hc)) as ([] & s' & E & _).
  exists s'. by constructor.
Qed.

(** ** No switch while the scheduler is locked or an interrupt is served *)

(** the calls that keep the globals of the scheduler *)
Lemma call_frames c :
  match c with
  | SchedDisable | SchedEnable | IntrptEnter | IntrptExit | TickProc | TaskDynDel _ => True
  | _ => Frames (run c)
  end.
Proof.
  destruct c; try exact I; apply frames_bind; auto with frames;
    [unfold krhino_queue_back_send|unfold krhino_queue_all_send]; auto with frames.
Qed.

Lemma done_elim {A} (m : K A) (P : A -> kstate -> Prop) s s' :
  wp m P s -> done_with m s = Ok (tt, s') -> exists r, P r s'.
Proof.
  intros H E. unfold wp, done_with, mbind, M_bind in *. destruct (m s) as [[r s1]| |]; try done. cbn in E. injection E as ->. by exists r.
Qed.

Lemma step_no_switch s c s' : kinv s -> step s c s' -> no_switch s -> no_switch s' -> g_active_task s' = g_active_task s.
Proof.
  intros Hk [c' s2 Hc Hr] Hs Hs2. pose proof (call_frames c') as Hf. pose proof (ki_wf _ Hk) as Hwf.
  destruct c'; try (specialize (Hf s); rewrite Hr in Hf; by apply Hf); cbn [legal run] in Hc, Hr.
  - destruct Hc as [[tk Ht] Hroom]. pose proof (ki_lock _ Hk). unfold SCHED_MAX_LOCK_COUNT in *.
    destruct (done_elim _ _ _ _ (wp_krhino_task_dyn_del s t tk Hwf Ht ltac:(lia) Hroom) Hr) as (r & _ & Hfr). by apply Hfr.
  - destruct (done_elim _ _ _ _ (wp_krhino_sched_disable s Hwf) Hr) as (r & _ & Hd). by destruct Hd.
  - destruct (done_elim _ _ _ _ (wp_krhino_sched_enable s Hwf) Hr) as (r & _ & Hd).
    destruct Hd; try done. cbn. unfold no_switch in Hs2. cbn in Hs2. lia.
  - destruct (done_elim _ _ _ _ (krhino_intrpt_enter_wf s Hwf Hc) Hr) as (r & _ & _ & ->). done.
  - exact (proj2 (wp_elim _ _ _ _ _ (krhino_intrpt_exit_wf s Hwf Hc) Hr) Hs2).
  - destruct (wp_elim _ _ _ _ _ (wp_krhino_tick_proc s Hwf Hc) Hr) as (_ & Hctl & _). by injection Hctl.
Qed.
