(* ===== verification/WorkInv.v ===== *)
(** * The work queues as a system

    The steps of the tasks, interrupts and timers that use work queues, cut where
    another one may come in between: a work is put in its list in one critical
    section and the semaphore is given in another; the worker takes the semaphore,
    takes the work, runs it, and forgets it.  The invariant counts the units of
    the semaphore: those that are there, those still to be given and the one the
    worker has are as many as the works in the list. *)

From S2P Require Import Prelude Config RingBuf State Inv Pend KInv Sem BufQueue Frame Kernel.
From S2P Require Import Timer TimerTask WorkQueue.
Open Scope Z_scope.

(** ** The steps *)

(** [pcs]: where the workers are; [gives]: how many works are in the list of a
    queue for which the semaphore is still to be given; [accepted]: the works
    that were put in the lists, in order *)
Record wqsys := mkWqs { ws : wsys; pcs : nat -> worker_pc; gives : nat -> Z; accepted : list (nat * nat) }.

Definition kst (s : wqsys) : kstate := kern (w_sys (ws s)).
Definition wst (s : wqsys) : wstate := w_st (ws s).

(** [EvInsert] and [EvTimer] are the first critical sections of [krhino_work_run],
    for a work without delay, and of [work_timer_cb]; [EvGive] is the rest *)
Inductive wq_event :=
  | EvInsert (q w : nat) | EvTimer (tm q : nat) | EvGive (q : nat) | EvWorker (q : nat)
  | EvDelayed (q w : nat) (m : list Z) | EvCancel (w : nat) (m : list Z)
  | EvInit (w f : nat) (arg dly : Z) (alloc : option nat) (m : list Z)
  | EvKernel (c : call).

Definition then_ok {A} (r : res kstat_t (A * wsys)) (f : A -> wsys -> wqsys) : res kstat_t wqsys :=
  match r with Ok (a, s) => Ok (f a s) | Reset e => Reset e | Undef => Undef end.

Definition insert_step (q w : nat) (s : wqsys) : res kstat_t wqsys :=
  then_ok (in_w (work_insert q w) (ws s)) (fun st s1 =>
    if bool_decide (st = RHINO_SUCCESS) then mkWqs s1 (pcs s) (fupd (gives s) q (gives s q + 1)) (accepted s ++ [(q, w)])
    else mkWqs s1 (pcs s) (gives s) (accepted s)).

Definition quiet (s : wqsys) (s1 : wsys) : wqsys := mkWqs s1 (pcs s) (gives s) (accepted s).

Definition wq_exec (e : wq_event) (s : wqsys) : res kstat_t wqsys :=
  match e with
  | EvInsert q w => insert_step q w s
  | EvTimer tm q => match timer_priv (wst s) !! tm with Some w => insert_step q w s | None => Undef end
  | EvGive q => then_ok (in_k (krhino_sem_give (Some q)) (ws s)) (fun _ s1 => mkWqs s1 (pcs s) (fupd (gives s) q (gives s q - 1)) (accepted s))
  | EvWorker q => then_ok (worker_task q (pcs s q) (ws s)) (fun pc s1 => mkWqs s1 (fupd (pcs s) q pc) (gives s) (accepted s))
  | EvDelayed q w m => then_ok (krhino_work_run (Some q) (Some w) m (ws s)) (fun _ => quiet s)
  | EvCancel w m => then_ok (krhino_work_cancel (Some w) m (ws s)) (fun _ => quiet s)
  | EvInit w f arg dly alloc m => then_ok (krhino_work_init (Some w) (Some f) arg dly alloc m (ws s)) (fun _ => quiet s)
  | EvKernel c => then_ok (in_k (run c) (ws s)) (fun _ => quiet s)
  end.

(** ** What is owed *)

Definition bstate : gmap nat ktask -> nat -> option blk_state_t := tview (fun tk => Some (blk_state tk)) None.

(** a step of the kernel leaves the semaphore of [q] alone, who waits for it, and
    its worker while it is in the semaphore *)
Record spares (q : nat) (pc : worker_pc) (k k' : kstate) : Prop := {
  sp_obj : forall ob, g_objs k !! q = Some ob -> exists ob', g_objs k' !! q = Some ob' /\ obj_type ob' = obj_type ob /\ body ob' = body ob;
  sp_waits : forall t, waits (g_tasks k') t = Some q <-> waits (g_tasks k) t = Some q;
  sp_worker : pc = InSem -> waits (g_tasks k') q = waits (g_tasks k) q /\ bstate (g_tasks k') q = bstate (g_tasks k) q
}.

(** a call with a delay puts a message in the queue of the timer task *)
Definition can_message (k : kstate) (t : option nat) (m : list Z) : Prop :=
  (exists ms, timer_queue k ms) /\ (forall u, t = Some u -> Z.of_nat u < 2 ^ 32) /\ length m = 24%nat.

Definition wq_legal (s : wqsys) (e : wq_event) : Prop :=
  let W := wst s in
  match e with
  | EvInsert q w => q ∈ g_workqueue_list_head W /\ exists wk, works W !! w = Some wk /\ dly wk = 0
  | EvTimer tm q => q ∈ g_workqueue_list_head W /\ exists w, timer_priv W !! tm = Some w /\ is_Some (works W !! w)
  | EvGive q => q ∈ g_workqueue_list_head W /\ 0 < gives s q
  | EvWorker q => q ∈ g_workqueue_list_head W /\ g_active_task (kst s) = q /\ g_intrpt_nested_level (kst s) = 0 /\ g_sched_lock (kst s) = 0
  | EvDelayed q w m => exists wk t, works W !! w = Some wk /\ dly wk <> 0 /\ timer wk = Some t /\ can_message (kst s) (Some t) m /\ Z.of_nat q < 2 ^ 32
  | EvCancel w m => exists wk, works W !! w = Some wk /\ can_message (kst s) (timer wk) m
  | EvInit w f arg dly alloc m => (forall wk, works W !! w = Some wk -> work_exit wk <> 1) /\
      (works W !! w = None -> Z.of_nat (S (size (works W))) < SEM_COUNT_MAX)
  | EvKernel c => legal (kst s) c /\
      forall k', run c (kst s) = Ok (tt, k') -> forall q, q ∈ g_workqueue_list_head W -> spares q (pcs s q) (kst s) k'
  end.

(** queues that were just made *)
Record wq_ready (s : wqsys) : Prop := {
  wr_kinv : kinv (kst s);
  wr_works : works (wst s) = ∅;
  wr_queues : forall q, q ∈ g_workqueue_list_head (wst s) -> queues (wst s) !! q = Some (mkWq [] None) /\ q <> g_idle_task /\
    exists ob peak, g_objs (kst s) !! q = Some ob /\ obj_type ob = RHINO_SEM_OBJ_TYPE /\ body ob = KSem 0 peak /\ blk_list ob = [];
  wr_only : forall q, is_Some (queues (wst s) !! q) -> q ∈ g_workqueue_list_head (wst s);
  wr_empty : (forall q, pcs s q = AtSem) /\ (forall q, gives s q = 0) /\ accepted s = [] /\ handled (wst s) = []
}.

Inductive wq_reach : wqsys -> Prop :=
  | wq_start s : wq_ready s -> wq_reach s
  | wq_step s e s' : wq_reach s -> wq_legal s e -> wq_exec e s = Ok s' -> wq_reach s'.

(** ** The invariant *)

(** the works of a queue in a list of queues and works *)
Definition on (q : nat) (l : list (nat * nat)) : list nat := snd <$> filter (fun p => p.1 = q) l.
#[local] Arguments on : simpl never.

Lemma on_snoc q p l : on q (l ++ [p]) = on q l ++ (if decide (p.1 = q) then [p.2] else []).
Proof. unfold on. rewrite filter_app, fmap_app. f_equal. rewrite filter_cons. by case_decide. Qed.

Definition running (pc : worker_pc) : list nat := match pc with HasWork w => [w] | _ => [] end.

(** the unit of the semaphore that the worker has, or was given in its sleep *)
Definition unit_of (T : gmap nat ktask) (q : nat) (pc : worker_pc) : Z :=
  match pc with HasUnit => 1 | InSem => if decide (waits T q = Some q) then 0 else 1 | _ => 0 end.

Definition pc_ok (T : gmap nat ktask) (q : nat) (pc : worker_pc) : Prop :=
  match pc with
  | InSem => waits T q = Some q \/ (waits T q = None /\ bstate T q = Some BLK_FINISH)
  | _ => waits T q <> Some q
  end.

Record queue_ok (s : wqsys) (q : nat) (kq : kworkqueue_t) : Prop := {
  qo_idle : q <> g_idle_task;
  qo_sem : exists ob count peak, g_objs (kst s) !! q = Some ob /\ obj_type ob = RHINO_SEM_OBJ_TYPE /\ body ob = KSem count peak /\
    count + gives s q + unit_of (g_tasks (kst s)) q (pcs s q) = Z.of_nat (length (work_list kq));
  qo_gives : 0 <= gives s q;
  qo_waits : forall t, waits (g_tasks (kst s)) t = Some q -> t = q;
  qo_pc : pc_ok (g_tasks (kst s)) q (pcs s q);
  qo_fifo : on q (accepted s) = on q (handled (wst s)) ++ running (pcs s q) ++ work_list kq
}.

(** the lists hold the works whose [work_exit] is 1, each in one list and once *)
Record lists_ok (W : wstate) : Prop := {
  lo_in : forall q kq w, queues W !! q = Some kq -> w ∈ work_list kq ->
    exists wk, works W !! w = Some wk /\ work_exit wk = 1 /\ wq wk = Some q;
  lo_nodup : forall q kq, queues W !! q = Some kq -> NoDup (work_list kq);
  lo_head : forall q, q ∈ g_workqueue_list_head W <-> is_Some (queues W !! q);
  lo_wq : forall w wk q, works W !! w = Some wk -> wq wk = Some q -> is_Some (queues W !! q);
  lo_size : Z.of_nat (size (works W)) < SEM_COUNT_MAX
}.

Record wq_inv (s : wqsys) : Prop := {
  wi_kinv : kinv (kst s);
  wi_lists : lists_ok (wst s);
  wi_queue : forall q kq, queues (wst s) !! q = Some kq -> queue_ok s q kq
}.

(** ** Steps of the kernel *)

Lemma framed_kinv {A} (m : K A) s (P : A -> kstate -> Prop) :
  Frames m -> kinv s -> wp m (fun r s' => wf s' /\ P r s') s -> wp m (fun r s' => kinv s' /\ P r s') s.
Proof.
  intros Hf [Hwf Hl Hst Hsp] Hm. eapply wp_mono; [|apply (wp_frames m); [exact Hf|exact Hm]]. cbv beta.
  intros r s' ([Hwf' HP] & [Hs _ Hsp']). unfold statics in Hs. injection Hs as Hl' _ _ Hst'. split; [split; [done|lia|congruence|auto]|done].
Qed.

Lemma spares_refl q pc k k' : g_tasks k' = g_tasks k -> g_objs k' = g_objs k -> spares q pc k k'.
Proof. intros HT HO. split; rewrite ?HT, ?HO; eauto. Qed.

(** another object changes *)
Lemma spares_obj q pc k k' o ob : o <> q -> g_tasks k' = g_tasks k -> g_objs k' = <[o := ob]> (g_objs k) -> spares q pc k k'.
Proof.
  intros Hne HT HO. split; rewrite ?HT; try done. intros obq Hq. exists obq. by rewrite HO, lookup_insert_ne.
Qed.

Lemma waits_alter T t f u tk : T !! t = Some tk -> waits (alter f t T) u = if decide (u = t) then waits_of (f tk) else waits T u.
Proof.
  intros Ht. rewrite (alter_some _ _ _ _ Ht). unfold waits. rewrite tview_insert. unfold fupd. done.
Qed.

Lemma bstate_alter T t f u : u <> t -> bstate (alter f t T) u = bstate T u.
Proof. intros Hne. unfold bstate, tview. by rewrite lookup_alter_ne. Qed.

(** a task that waited for another object is woken *)
Lemma spares_wake q pc k k' o ob f t : o <> q -> waits (g_tasks k) t = Some o -> (forall tk, waits_of (f tk) = None) ->
  g_tasks k' = alter f t (g_tasks k) -> g_objs k' = <[o := ob]> (g_objs k) -> pc_ok (g_tasks k) q pc -> spares q pc k k'.
Proof.
  intros Hne Hw Hf HT HO Hpc. destruct (waits_inv _ _ _ Hw) as (tk & Ht & _). split; rewrite ?HT.
  - intros obq Hq. exists obq. by rewrite HO, lookup_insert_ne.
  - intros u. rewrite (waits_alter _ _ _ _ _ Ht), Hf. case_decide as E; [subst u; rewrite Hw|done]. split; congruence.
  - intros ->. assert (Hqt : q <> t). { intros ->. destruct Hpc as [Hq|[Hq _]]; congruence. }
    rewrite (waits_alter _ _ _ _ _ Ht), bstate_alter by done. by rewrite decide_False.
Qed.

(** the running task goes to sleep on another object *)
Lemma spares_block q pc k k' o ob f : o <> q -> wf k -> g_intrpt_nested_level k = 0 -> g_active_task k <> q ->
  (forall tk, waits_of (f tk) = Some o) ->
  g_tasks k' = alter f (g_active_task k) (g_tasks k) -> g_objs k' = <[o := ob]> (g_objs k) -> spares q pc k k'.
Proof.
  intros Hne Hwf Hn Ha Hf HT HO. destruct (active_rdy _ Hwf Hn) as (ak & Hak & _). split; rewrite ?HT.
  - intros obq Hq. exists obq. by rewrite HO, lookup_insert_ne.
  - intros u. rewrite (waits_alter _ _ _ _ _ Hak), Hf. case_decide as E; [subst u|done]. split; [congruence|].
    intros Hw. destruct (wf_not_running _ _ _ Hwf Hn Hw). done.
  - intros ->. rewrite (waits_alter _ _ _ _ _ Hak), bstate_alter by done. by rewrite decide_False.
Qed.

Lemma woken_waits_none bs tk : waits_of (woken bs tk) = None.
Proof. unfold waits_of. by case_match. Qed.

Lemma buf_woken_waits d tk : waits_of (buf_woken d tk) = None.
Proof. unfold waits_of. by case_match. Qed.

Lemma blocked_waits_of o now ticks tk : waits_of (blocked o now ticks tk) = Some o.
Proof. unfold waits_of, blocked. by destruct (ticks =? _). Qed.

Lemma head_waits k o ob t l : wf k -> g_objs k !! o = Some ob -> blk_list ob = t :: l -> waits (g_tasks k) t = Some o.
Proof.
  intros Hwf Ho Hl. apply (bk_in _ _ _ (c_blk _ _ _ _ _ _ _ (kp_core _ (kp_mid _ (wf_pre _ Hwf)))) _ _ t Ho). rewrite Hl. left.
Qed.

(** a message to the timer task *)
Lemma message_spares q pc k k' ob m r : wf k -> g_objs k !! g_timer_queue = Some ob -> bsend_spec k g_timer_queue ob m r k' ->
  g_timer_queue <> q -> pc_ok (g_tasks k) q pc -> spares q pc k k'.
Proof.
  intros Hwf Ho Hs Hne Hpc. destruct Hs as [| | | | |mx ms b _ _ _|t l s' Hl HT HO]; try (by apply spares_refl).
  - by eapply spares_obj.
  - eapply spares_wake; [exact Hne|by eapply head_waits|apply buf_woken_waits|exact HT|exact HO|exact Hpc].
Qed.

(** semaphores other than that of [q] *)
Lemma give_spares q pc k k' o ob r : wf k -> g_objs k !! o = Some ob -> give_spec k o ob false r k' -> o <> q ->
  pc_ok (g_tasks k) q pc -> spares q pc k k'.
Proof.
  intros Hwf Ho Hs Hne Hpc. inversion Hs as [| |c pk _ _ _|t l s1 Hbl _ HT HO _|]; subst; try done; try (by apply spares_refl); [by eapply spares_obj|].
  eapply spares_wake; [exact Hne|by eapply head_waits|apply woken_waits_none|exact HT|exact HO|exact Hpc].
Qed.

Lemma take_spares q pc k k' o ob ticks r : wf k -> g_intrpt_nested_level k = 0 -> take_spec k o ob ticks r k' -> o <> q ->
  g_active_task k <> q -> spares q pc k k'.
Proof.
  intros Hwf Hn Hs Hne Ha. inversion Hs as [| |c pk _ _| | |pk s1 _ _ HT (l & HO)]; subst; try (by apply spares_refl); [eapply spares_obj; [exact Hne|done..]|].
  eapply spares_block; [exact Hne|exact Hwf|exact Hn|exact Ha|intros tk; apply blocked_waits_of|exact HT|exact HO].
Qed.

(** ** Steps of the lists *)

Definition unlisted (w : nat) (W : wstate) : Prop := forall q kq, queues W !! q = Some kq -> w ∉ work_list kq.

Lemma unlisted_exit W w wk : lists_ok W -> works W !! w = Some wk -> work_exit wk <> 1 -> unlisted w W.
Proof. intros HW Hw Hx q kq Hq Hin. destruct (lo_in _ HW _ _ _ Hq Hin) as (wk' & Hw' & Hx' & _). congruence. Qed.

Lemma unlink_lookup w m q : work_unlink w m !! q = (fun k => set_work_list (klist_del w (work_list k)) k) <$> m !! q.
Proof. apply lookup_fmap. Qed.

Lemma unlink_none w W : unlisted w W -> work_unlink w (queues W) = queues W.
Proof.
  intros Hu. apply map_eq. intros q. rewrite unlink_lookup. destruct (queues W !! q) as [k|] eqn:E; [|done]. cbn. f_equal.
  rewrite klist_del_notin by by eapply Hu. by destruct k.
Qed.

Definition inserted (q w : nat) (kq : kworkqueue_t) (wk : kwork_t) (W : wstate) : wstate :=
  set_works (<[w := set_work_exit 1 (set_wq (Some q) wk)]> (works W))
    (set_queues (<[q := set_work_list (work_list kq ++ [w]) kq]> (queues W)) W).

Definition taken (q w : nat) (l : list nat) (wk : kwork_t) (W : wstate) : wstate :=
  set_works (<[w := set_work_exit 0 wk]> (works W)) (set_queues (<[q := mkWq l (Some w)]> (queues W)) W).

Lemma work_insert_run W q kq w wk : lists_ok W -> queues W !! q = Some kq -> works W !! w = Some wk ->
  work_insert q w W = Ok (
    if bool_decide (work_current kq = Some w) then (RHINO_WORKQUEUE_WORK_RUNNING, W)
    else if work_exit wk =? 1 then (RHINO_WORKQUEUE_WORK_EXIST, W) else (RHINO_SUCCESS, inserted q w kq wk W)).
Proof.
  intros HW Hq Hw. unfold work_insert, get_queue, get_work, mbind, M_bind, gets. rewrite Hq. cbn. rewrite Hw. cbn.
  case_bool_decide; [done|]. destruct (Z.eqb_spec (work_exit wk) 1) as [|Hx]; [done|]. cbn.
  rewrite unlink_none by by eapply unlisted_exit. unfold upd_queue, upd_work, mbind, M_bind, gets. cbn.
  rewrite Hq. cbn. by rewrite Hw.
Qed.

Lemma inserted_ok W q kq w wk : lists_ok W -> queues W !! q = Some kq -> works W !! w = Some wk -> unlisted w W ->
  lists_ok (inserted q w kq wk W).
Proof.
  intros HW Hq Hw Hu. pose proof HW as [H1 H2 H3 H4 H5]. split; cbn.
  - intros q' kq' u [[<- <-]|[Hne Hq']]%lookup_insert_Some Hin; cbn in *.
    + apply elem_of_app in Hin as [Hin| ->%list_elem_of_singleton]; [|rewrite lookup_insert_eq; eauto].
      rewrite lookup_insert_ne by (intros <-; by eapply Hu). by eapply H1.
    + rewrite lookup_insert_ne by (intros <-; by eapply Hu). by eapply H1.
  - intros q' kq' [[<- <-]|[_ Hq']]%lookup_insert_Some; [|by eapply H2]. cbn. apply NoDup_app.
    split_and!; [by eapply H2| |apply NoDup_singleton]. intros u Hin ->%list_elem_of_singleton. by eapply Hu.
  - intros q'. rewrite lookup_insert_is_Some'. rewrite H3. naive_solver.
  - intros u uk q' [[<- <-]|[_ Hu']]%lookup_insert_Some E; apply lookup_insert_is_Some'; cbn in E; [left; congruence|right; by eapply H4].
  - by rewrite map_size_insert_Some by by eexists.
Qed.

(** the first work of [q] is in no other list *)
Lemma unlink_first W q kq w l : lists_ok W -> queues W !! q = Some kq -> work_list kq = w :: l ->
  work_unlink w (queues W) = <[q := set_work_list l kq]> (queues W).
Proof.
  intros HW Hq Hl. apply map_eq. intros u. rewrite unlink_lookup. destruct (decide (u = q)) as [->|Hne].
  - rewrite Hq, lookup_insert_eq. transitivity (Some (set_work_list (klist_del w (work_list kq)) kq)); [done|].
    rewrite Hl, klist_del_head; [done|].
    pose proof (lo_nodup _ HW _ _ Hq) as Hnd. rewrite Hl in Hnd. by apply NoDup_cons in Hnd as [? _].
  - rewrite lookup_insert_ne by done. destruct (queues W !! u) as [k|] eqn:E; [|done]. cbn. f_equal.
    rewrite klist_del_notin; [by destruct k|]. intros Hin.
    destruct (lo_in _ HW _ _ _ E Hin) as (wk & Hw & _ & E1).
    destruct (lo_in _ HW _ _ w Hq) as (wk' & Hw' & _ & E2); [rewrite Hl; left|]. congruence.
Qed.

Lemma worker_get_run W q kq w l wk : lists_ok W -> queues W !! q = Some kq -> work_list kq = w :: l -> works W !! w = Some wk ->
  worker_get q W = Ok (HasWork w, taken q w l wk W).
Proof.
  intros HW Hq Hl Hw. unfold worker_get, get_queue, mbind, M_bind, gets. rewrite Hq. cbn. rewrite Hl. cbn.
  rewrite (unlink_first _ _ _ _ _ HW Hq Hl). unfold upd_queue, upd_work, mbind, M_bind, gets. cbn.
  rewrite lookup_insert_eq. cbn. rewrite Hw. cbn. by rewrite insert_insert_eq.
Qed.

Lemma taken_ok W q kq w l wk : lists_ok W -> queues W !! q = Some kq -> work_list kq = w :: l -> works W !! w = Some wk ->
  lists_ok (taken q w l wk W).
Proof.
  intros HW Hq Hl Hw. pose proof HW as [H1 H2 H3 H4 H5].
  pose proof (lo_nodup _ HW _ _ Hq) as Hnd. rewrite Hl in Hnd. apply NoDup_cons in Hnd as [Hn Hnd].
  assert (Hother : forall q' kq', queues W !! q' = Some kq' -> q' <> q -> w ∉ work_list kq').
  { intros q' kq' Hq' Hne Hin. destruct (H1 _ _ _ Hq' Hin) as (? & ? & _ & ?).
    destruct (H1 _ _ w Hq) as (? & ? & _ & ?); [rewrite Hl; left|]. congruence. }
  split; cbn.
  - intros q' kq' u [[<- <-]|[Hne Hq']]%lookup_insert_Some Hin; cbn in *.
    + rewrite lookup_insert_ne by (by intros <-). eapply H1; [exact Hq|]. rewrite Hl. by right.
    + rewrite lookup_insert_ne by (intros <-; by eapply Hother). by eapply H1.
  - intros q' kq' [[<- <-]|[_ Hq']]%lookup_insert_Some; [done|by eapply H2].
  - intros q'. rewrite lookup_insert_is_Some'. rewrite H3. naive_solver.
  - intros u uk q' [[<- <-]|[_ Hu']]%lookup_insert_Some E; apply lookup_insert_is_Some'; right; by eapply H4.
  - by rewrite map_size_insert_Some by by eexists.
Qed.

Lemma lists_same W W' : works W' = works W -> queues W' = queues W -> g_workqueue_list_head W' = g_workqueue_list_head W ->
  lists_ok W -> lists_ok W'.
Proof. intros E1 E2 E3 [H1 H2 H3 H4 H5]. split; rewrite ?E1, ?E2, ?E3; done. Qed.

(** a list is not longer than there are works *)
Lemma list_size W q kq : lists_ok W -> queues W !! q = Some kq -> Z.of_nat (length (work_list kq)) <= Z.of_nat (size (works W)).
Proof.
  intros HW Hq. rewrite <- (size_dom (works W)), <- (size_list_to_set (C := gset nat) _ (lo_nodup _ HW _ _ Hq)).
  apply inj_le, subseteq_size. intros w Hw%elem_of_list_to_set. apply elem_of_dom.
  destruct (lo_in _ HW _ _ _ Hq Hw) as (wk & -> & _). by eexists.
Qed.

(** other fields of a work, and of the queues, than the lists depend on *)
Lemma lists_works W w wk wk' : lists_ok W -> works W !! w = Some wk -> unlisted w W ->
  (forall q, wq wk' = Some q -> is_Some (queues W !! q)) -> lists_ok (set_works (<[w := wk']> (works W)) W).
Proof.
  intros [H1 H2 H3 H4 H5] Hw Hu Hq. split; cbn; try done.
  - intros q kq u Hk Hin. rewrite lookup_insert_ne by (intros <-; by eapply Hu). by eapply H1.
  - intros u uk q [[<- <-]|[_ Hu']]%lookup_insert_Some E; [by apply Hq|by eapply H4].
  - by rewrite map_size_insert_Some by by eexists.
Qed.

Lemma lists_new W w wk : lists_ok W -> unlisted w W -> wq wk = None ->
  (works W !! w = None -> Z.of_nat (S (size (works W))) < SEM_COUNT_MAX) -> lists_ok (set_works (<[w := wk]> (works W)) W).
Proof.
  intros HW Hu Hq Hs. destruct (works W !! w) as [wk0|] eqn:Hw; [eapply lists_works; [exact HW|exact Hw|exact Hu|intros; congruence]|].
  destruct HW as [H1 H2 H3 H4 H5]. split; cbn; try done.
  - intros q kq u Hk Hin. rewrite lookup_insert_ne by (intros <-; by eapply Hu). by eapply H1.
  - intros u uk q [[<- <-]|[_ Hu']]%lookup_insert_Some E; [congruence|by eapply H4].
  - rewrite map_size_insert_None by done. by apply Hs.
Qed.

Lemma lists_current W q kq c : lists_ok W -> queues W !! q = Some kq -> lists_ok (set_queues (<[q := set_work_current c kq]> (queues W)) W).
Proof.
  intros [H1 H2 H3 H4 H5] Hq. split; cbn; try done.
  - intros q' kq' w [[<- <-]|[_ Hq']]%lookup_insert_Some Hin; [exact (H1 _ _ _ Hq Hin)|exact (H1 _ _ _ Hq' Hin)].
  - intros q' kq' [[<- <-]|[_ Hq']]%lookup_insert_Some; [exact (H2 _ _ Hq)|by eapply H2].
  - intros q'. rewrite lookup_insert_is_Some', H3. naive_solver.
  - intros w wk q' Hw E. apply lookup_insert_is_Some'. right. by eapply H4.
Qed.

(** ** Every step keeps the invariant *)

(** what the step does to the other queues *)
Lemma queue_ok_other s s' q kq kq' : queue_ok s q kq -> spares q (pcs s q) (kst s) (kst s') -> pcs s' q = pcs s q ->
  gives s' q = gives s q -> on q (accepted s') = on q (accepted s) -> on q (handled (wst s')) = on q (handled (wst s)) ->
  work_list kq' = work_list kq -> queue_ok s' q kq'.
Proof.
  intros [Hi (ob & c & pk & Ho & Hty & Hb & Hc) Hg Hw Hp Hf] [So Sw Sp] Epc Eg Ea Eh Ew.
  assert (Eu : unit_of (g_tasks (kst s')) q (pcs s q) = unit_of (g_tasks (kst s)) q (pcs s q)).
  { unfold unit_of. destruct (pcs s q); try done. destruct (Sp eq_refl) as [-> _]. done. }
  split; rewrite ?Epc, ?Eg, ?Ea, ?Eh, ?Ew; [done| |done|intros t Ht; by apply Hw, Sw| |done].
  - destruct (So _ Ho) as (ob' & Ho' & Hty' & Hb'). exists ob', c, pk. rewrite Hty', Hb', Eu. done.
  - unfold pc_ok in *. destruct (pcs s q); [by rewrite Sw| |by rewrite Sw..]. destruct (Sp eq_refl) as [-> ->]. done.
Qed.

(** the kernel moves and spares all queues *)
Lemma kernel_inv s s' : wq_inv s -> kinv (kst s') -> wst s' = wst s -> pcs s' = pcs s -> gives s' = gives s -> accepted s' = accepted s ->
  (forall q, q ∈ g_workqueue_list_head (wst s) -> spares q (pcs s q) (kst s) (kst s')) -> wq_inv s'.
Proof.
  intros [Hk HL HQ] Hk' EW Ep Eg Ea Hs. split; [done|by rewrite EW|]. rewrite EW. intros q kq Hq.
  eapply queue_ok_other; [by apply HQ|apply Hs, (lo_head _ HL); by eexists|by rewrite Ep|by rewrite Eg|by rewrite Ea|by rewrite EW|done].
Qed.

Definition steps_ok (r : res kstat_t wqsys) : Prop := exists s', r = Ok s' /\ wq_inv s'.

Lemma in_w_run {A} (m : M kstat_t wstate A) s a W : m (w_st s) = Ok (a, W) -> in_w m s = Ok (a, mkWsys (w_sys s) W).
Proof. unfold in_w. by intros ->. Qed.

Lemma in_k_run {A} (m : K A) s a k : m (kern (w_sys s)) = Ok (a, k) -> in_k m s = Ok (a, mkWsys (mkSys k (tims (w_sys s))) (w_st s)).
Proof. unfold in_k, in_sys, in_kern. by intros ->. Qed.

Section steps.
Context (s : wqsys) (Hi : wq_inv s).
Let W := wst s.
Let k := kst s.
#[local] Set Default Proof Using "All".

Lemma queue_of q : q ∈ g_workqueue_list_head W -> exists kq, queues W !! q = Some kq /\ queue_ok s q kq.
Proof. intros Hq%(lo_head _ (wi_lists _ Hi)). destruct Hq as [kq Hq]. exists kq. split; [done|by apply Hi]. Qed.

(** a step that changes the works and the queues only where no invariant looks *)
Lemma lists_step s1 : lists_ok (w_st s1) -> handled (w_st s1) = handled W ->
  (forall q kq', queues (w_st s1) !! q = Some kq' -> exists kq, queues W !! q = Some kq /\ work_list kq' = work_list kq) ->
  kinv (kern (w_sys s1)) -> (forall q, q ∈ g_workqueue_list_head W -> spares q (pcs s q) k (kern (w_sys s1))) ->
  wq_inv (quiet s s1).
Proof.
  intros HL Eh Hsame Hk Hs. split; [done|done|]. intros q kq' Hq'. destruct (Hsame _ _ Hq') as (kq & Hq & El).
  eapply queue_ok_other; [by eapply Hi| |done|done|done| |done].
  - apply Hs, (lo_head _ (wi_lists _ Hi)). by eexists.
  - change (wst (quiet s s1)) with (w_st s1). by rewrite Eh.
Qed.

Lemma insert_steps q w : q ∈ g_workqueue_list_head W -> is_Some (works W !! w) -> steps_ok (insert_step q w s).
Proof.
  intros Hq [wk Hw]. destruct (queue_of q Hq) as (kq & Hkq & HQ). pose proof (wi_lists _ Hi) as HL.
  pose proof (work_insert_run W q kq w wk HL Hkq Hw) as Hrun.
  assert (Hsame : steps_ok (Ok (quiet s (mkWsys (w_sys (ws s)) W)))) by (exists s; split; [by destruct s as [[]]|done]).
  unfold insert_step. case_bool_decide as Hc; [|destruct (Z.eqb_spec (work_exit wk) 1) as [|Hx]];
    rewrite (in_w_run _ _ _ _ Hrun); unfold then_ok; [rewrite bool_decide_eq_false_2 by done; exact Hsame..|].
  eexists. split; [done|]. rewrite bool_decide_eq_true_2 by done. split; [apply Hi|eapply inserted_ok; [done..|by eapply unlisted_exit]|].
  cbn. intros q' kq' [[<- <-]|[Hne Hq']]%lookup_insert_Some.
  - destruct HQ as [H1 (ob & c & pk & Ho & Hty & Hb & Hcnt) H3 H4 H5 H6]. unfold kst in Hcnt. split; cbn; try done.
    + exists ob, c, pk. split_and!; [done..|]. rewrite fupd_eq, length_app. unfold kst. cbn. lia.
    + rewrite fupd_eq. lia.
    + rewrite on_snoc, decide_True by done. cbn. fold W. rewrite H6, <- !app_assoc. done.
  - eapply queue_ok_other; [by eapply Hi|by apply spares_refl|done|cbn; by rewrite fupd_ne|cbn; rewrite on_snoc, decide_False by done; by rewrite app_nil_r|done|done].
Qed.

(** the units there are, and the works they are for *)
Lemma sem_range q kq ob c pk : queues W !! q = Some kq -> g_objs k !! q = Some ob -> body ob = KSem c pk -> obj_type ob = RHINO_SEM_OBJ_TYPE ->
  0 <= c < 2 ^ 32 /\ (0 < c -> blk_list ob = []) /\ Z.of_nat (length (work_list kq)) < SEM_COUNT_MAX.
Proof.
  intros Hq Ho Hb Hty. destruct (sem_body_ok q ob k (wf_pre _ (ki_wf _ (wi_kinv _ Hi))) Ho Hty) as (c' & pk' & _ & Hb' & Hc & Hl).
  rewrite Hb in Hb'. injection Hb' as <- <-. split; [done|]. split; [done|].
  pose proof (list_size W q kq (wi_lists _ Hi) Hq). pose proof (lo_size _ (wi_lists _ Hi)) as Hs. fold W in Hs. lia.
Qed.

Lemma unit_nonneg T q pc : 0 <= unit_of T q pc.
Proof. unfold unit_of. destruct pc; try lia. case_decide; lia. Qed.

(** the step is one of the queue [q]: the others are spared *)
Lemma queue_step q s' : kinv (kst s') -> lists_ok (wst s') ->
  (forall q', q' <> q -> pcs s' q' = pcs s q' /\ gives s' q' = gives s q' /\ on q' (accepted s') = on q' (accepted s) /\
     on q' (handled (wst s')) = on q' (handled W)) ->
  (forall q' kq', q' <> q -> queues (wst s') !! q' = Some kq' -> exists kq, queues W !! q' = Some kq /\ work_list kq' = work_list kq) ->
  (forall q' kq, q' <> q -> queues W !! q' = Some kq -> spares q' (pcs s q') k (kst s')) ->
  (forall kq', queues (wst s') !! q = Some kq' -> queue_ok s' q kq') -> wq_inv s'.
Proof.
  intros Hk HL Hsame Hq Hsp HQ. split; [done..|]. intros q' kq' Hq'. destruct (decide (q' = q)) as [->|Hne]; [by apply HQ|].
  destruct (Hsame _ Hne) as (E1 & E2 & E3 & E4). destruct (Hq _ _ Hne Hq') as (kq & Hkq & El).
  eapply queue_ok_other; [by eapply Hi|by eapply Hsp|done..].
Qed.

(** the semaphore has room for the unit of each work *)
Lemma give_runs q kq : queues W !! q = Some kq -> 0 < gives s q -> exists ob k', g_objs k !! q = Some ob /\
  krhino_sem_give (Some q) k = Ok (Ret RHINO_SUCCESS, k') /\ kinv k' /\ give_spec k q ob false (Ret RHINO_SUCCESS) k'.
Proof.
  intros Hkq Hg. pose proof (wi_kinv _ Hi) as Hk.
  destruct (wi_queue _ Hi _ _ Hkq) as [_ (ob & c & pk & Ho & Hty & Hb & Hcnt) _ _ _ _].
  destruct (sem_range _ _ _ _ _ Hkq Ho Hb Hty) as (Hc & _ & Hlen). pose proof (unit_nonneg (g_tasks (kst s)) q (pcs s q)) as Hu.
  destruct (proj1 (wp_Ok _ _ _) (framed_kinv (krhino_sem_give (Some q)) (kst s) _ ltac:(auto with frames) Hk
    (wp_sem_give (kst s) q ob false (ki_wf _ Hk) Ho))) as (r & k' & E & Hk' & Hspec).
  exists ob, k'. assert (r = Ret RHINO_SUCCESS) as ->; [|done].
  inversion Hspec as [|pk' _ Hsb'| | |]; subst; try done. unfold sem_body in Hsb'. rewrite Hb in Hsb'. injection Hsb' as -> ->. lia.
Qed.

Lemma give_steps q : q ∈ g_workqueue_list_head W -> 0 < gives s q -> steps_ok (wq_exec (EvGive q) s).
Proof.
  intros Hq Hg. destruct (queue_of q Hq) as (kq & Hkq & HQ). pose proof (wi_kinv _ Hi) as Hk. pose proof (ki_wf _ Hk) as Hwf.
  destruct HQ as [H1 (ob & c & pk & Ho & Hty & Hb & Hcnt) H3 H4 H5 H6].
  destruct (sem_range _ _ _ _ _ Hkq Ho Hb Hty) as (Hc & Hl & Hlen).
  destruct (give_runs q kq Hkq Hg) as (ob' & k' & Ho' & E & Hk' & Hspec). unfold k in *. assert (ob' = ob) as -> by congruence.
  cbn [wq_exec]. rewrite (in_k_run _ _ _ _ E). eexists. split; [done|].
  assert (Hsb : sem_body ob = Some (c, pk)) by (unfold sem_body; by rewrite Hb).
  assert (Hother : forall q' kq, q' <> q -> queues W !! q' = Some kq -> spares q' (pcs s q') (kst s) k').
  { intros q' kq' Hne Hq'. eapply give_spares; [exact Hwf|exact Ho|exact Hspec|by apply not_eq_sym|apply (wi_queue _ Hi _ _ Hq')]. }
  apply (queue_step q); [done|apply Hi|intros q' Hne; cbn; by rewrite fupd_ne|by eauto|exact Hother|].
  intros kq' Hq'. assert (kq' = kq) as -> by (change (queues W !! q = Some kq') in Hq'; congruence). clear Hq' Hother.
  pose proof (unit_nonneg (g_tasks (kst s)) q (pcs s q)) as Hu.
  inversion Hspec as [| |c' pk' Hbl Hsb' Hlt|t l s1 Hbl _ HT HO _|]; subst; try done.
  - rewrite Hsb in Hsb'. injection Hsb' as <- <-. split; try done.
    + exists (set_body (KSem (c + 1) (Z.max pk (c + 1))) ob), (c + 1), (Z.max pk (c + 1)). split_and!; [apply lookup_insert_eq|done|done|].
      cbn. rewrite fupd_eq. fold (kst s). lia.
    + cbn. rewrite fupd_eq. lia.
  - assert (Ht : waits (g_tasks (kst s)) t = Some q) by by eapply head_waits. assert (t = q) as -> by by apply H4.
    destruct (waits_inv _ _ _ Ht) as (tk & Htk & _).
    assert (Epc : pcs s q = InSem) by (unfold pc_ok in H5; by destruct (pcs s q)).
    assert (Hw' : waits (g_tasks k') q = None) by (by rewrite HT, (waits_alter _ _ _ _ _ Htk), decide_True, woken_waits_none).
    rewrite Epc in *. unfold unit_of in Hcnt. rewrite decide_True in Hcnt by done. split; try done.
    + exists (set_blk_list l ob), c, pk. unfold kst. cbn. rewrite HO, lookup_insert_eq, fupd_eq, Epc. split_and!; [done..|].
      unfold unit_of. rewrite Hw', decide_False by done. lia.
    + cbn. rewrite fupd_eq. lia.
    + intros u. unfold kst. cbn. rewrite HT, (waits_alter _ _ _ _ _ Htk), woken_waits_none. case_decide; [done|apply H4].
    + cbn. rewrite Epc. right. split; [done|]. unfold kst. cbn. rewrite HT. unfold bstate, tview. by rewrite lookup_alter_eq, Htk.
    + cbn. by rewrite Epc.
Qed.

(** *** The worker *)

Lemma unit_is q kq pc : queues W !! q = Some kq -> pcs s q = pc -> unit_of (g_tasks k) q pc = 1 ->
  exists w l wk, work_list kq = w :: l /\ works W !! w = Some wk.
Proof.
  intros Hq Hpc Hu. destruct (wi_queue _ Hi _ _ Hq) as [_ (ob & c & pk & Ho & Hty & Hb & Hcnt) Hg _ _ _].
  destruct (sem_range _ _ _ _ _ Hq Ho Hb Hty) as (Hc & _). rewrite Hpc in Hcnt. fold k in Hcnt.
  destruct (work_list kq) as [|w l] eqn:El; [cbn in Hcnt; lia|].
  destruct (lo_in _ (wi_lists _ Hi) _ _ w Hq) as (wk & Hw & _); [rewrite El; left|]. by exists w, l, wk.
Qed.

Lemma sem_steps q : q ∈ g_workqueue_list_head W -> g_active_task k = q -> g_intrpt_nested_level k = 0 -> g_sched_lock k = 0 ->
  pcs s q = AtSem -> steps_ok (wq_exec (EvWorker q) s).
Proof.
  intros Hq Ha Hn Hlk Hpc. destruct (queue_of q Hq) as (kq & Hkq & HQ). pose proof (wi_kinv _ Hi) as Hk. pose proof (ki_wf _ Hk) as Hwf.
  destruct HQ as [H1 (ob & c & pk & Ho & Hty & Hb & Hcnt) H3 H4 H5 H6].
  destruct (sem_range _ _ _ _ _ Hkq Ho Hb Hty) as (Hc & Hl & Hlen).
  destruct (proj1 (wp_Ok _ _ _) (framed_kinv (krhino_sem_take (Some q) RHINO_WAIT_FOREVER) (kst s) _ ltac:(auto with frames) Hk
    (wp_krhino_sem_take (kst s) q ob RHINO_WAIT_FOREVER Hwf ltac:(fold k; congruence) Ho ltac:(done)))) as (r & k' & E & Hk' & Hspec).
  cbn [wq_exec]. rewrite Hpc. unfold worker_task, mbind, M_bind. rewrite (in_k_run _ _ _ _ E).
  assert (Hsb : sem_body ob = Some (c, pk)) by (unfold sem_body; by rewrite Hb).
  destruct (active_rdy _ Hwf Hn) as (ak & Hak & Hr). fold k in Hak. rewrite Ha in Hak.
  rewrite Hpc in *. cbn in H5, H6, Hcnt.
  assert (Hother : forall q', q' <> q -> spares q' (pcs s q') (kst s) k').
  { intros q' Hne. eapply take_spares; [exact Hwf|exact Hn|exact Hspec|by apply not_eq_sym|]. fold k. rewrite Ha. by apply not_eq_sym. }
  inversion Hspec as [Hx| |c' pk' Hsb' Hpos|pk' _ Hx|pk' _ Hx|pk' s1 Hsb' Hbl HT (l & HO)]; subst r; try subst k'; try done;
    try (fold k in Hx; lia).
  - rewrite Hsb in Hsb'. injection Hsb' as <- <-. eexists. split; [done|].
    apply (queue_step q); [done|apply Hi|intros q' Hne; cbn; by rewrite fupd_ne|by eauto|intros q' kq' Hne _; by apply Hother|].
    intros kq' Hq'. assert (kq' = kq) as -> by (change (queues W !! q = Some kq') in Hq'; congruence). split; try done.
    + exists (set_body (KSem (c - 1) pk) ob), (c - 1), pk. split_and!; [apply lookup_insert_eq|done|done|]. cbn. rewrite fupd_eq. cbn. lia.
    + cbn. by rewrite fupd_eq.
    + cbn. rewrite fupd_eq. done.
  - rewrite Hsb in Hsb'. injection Hsb' as -> <-. eexists. split; [done|]. fold k in HT. rewrite Ha in HT.
    apply (queue_step q); [done|apply Hi|intros q' Hne; cbn; by rewrite fupd_ne|by eauto|intros q' kq' Hne _; by apply Hother|].
    intros kq' Hq'. assert (kq' = kq) as -> by (change (queues W !! q = Some kq') in Hq'; congruence).
    assert (Hw' : waits (g_tasks s1) q = Some q) by (by rewrite HT, (waits_alter _ _ _ _ _ Hak), decide_True, blocked_waits_of).
    split; try done.
    + exists (set_blk_list l ob), 0, pk. unfold kst. cbn. rewrite HO, lookup_insert_eq, fupd_eq. split_and!; [done..|].
      unfold unit_of. rewrite decide_True by done. lia.
    + intros u. unfold kst. cbn. rewrite HT, (waits_alter _ _ _ _ _ Hak). case_decide; [done|apply H4].
    + cbn. rewrite fupd_eq. by left.
    + cbn. by rewrite fupd_eq.
Qed.

Lemma woken_steps q : q ∈ g_workqueue_list_head W -> g_active_task k = q -> g_intrpt_nested_level k = 0 ->
  pcs s q = InSem -> steps_ok (wq_exec (EvWorker q) s).
Proof.
  intros Hq Ha Hn Hpc. destruct (queue_of q Hq) as (kq & Hkq & HQ). pose proof (ki_wf _ (wi_kinv _ Hi)) as Hwf.
  destruct HQ as [H1 (ob & c & pk & Ho & Hty & Hb & Hcnt) H3 H4 H5 H6]. rewrite Hpc in *. cbn in H5, H6.
  destruct H5 as [Hw|[Hw Hbs]]; [destruct (wf_not_running _ _ _ Hwf Hn Hw); fold k; congruence|].
  unfold bstate, tview in Hbs. destruct (g_tasks (kst s) !! q) as [tk|] eqn:Htk; [|done]. injection Hbs as Hbs.
  assert (E : krhino_sem_take_resume (kst s) = Ok (Ret RHINO_SUCCESS, kst s)).
  { unfold krhino_sem_take_resume, pend_state_end_proc, get_task, mbind, M_bind, gets, lift. cbn. fold k. rewrite Ha.
    unfold k. rewrite Htk. cbn. by rewrite Hbs. }
  cbn [wq_exec]. rewrite Hpc. unfold worker_task, mbind, M_bind. rewrite (in_k_run _ _ _ _ E). cbn [worker_got]. eexists. split; [done|].
  apply (queue_step q); [apply Hi|apply Hi|intros q' Hne; cbn; by rewrite fupd_ne|by eauto|intros q' kq' Hne _; by apply spares_refl|].
  intros kq' Hq'. assert (kq' = kq) as -> by (change (queues W !! q = Some kq') in Hq'; congruence).
  unfold unit_of in Hcnt. rewrite decide_False in Hcnt by (unfold kst in Hw |- *; congruence). split; try done.
  - exists ob, c, pk. split_and!; [done..|]. cbn. rewrite fupd_eq. done.
  - cbn. rewrite fupd_eq. cbn. unfold kst in *. cbn. congruence.
  - cbn. by rewrite fupd_eq.
Qed.

Lemma get_steps q : q ∈ g_workqueue_list_head W -> pcs s q = HasUnit -> steps_ok (wq_exec (EvWorker q) s).
Proof.
  intros Hq Hpc. destruct (queue_of q Hq) as (kq & Hkq & HQ). pose proof (wi_lists _ Hi) as HL.
  destruct (unit_is _ _ _ Hkq Hpc eq_refl) as (w & l & wk & Hl & Hw).
  destruct HQ as [H1 (ob & c & pk & Ho & Hty & Hb & Hcnt) H3 H4 H5 H6]. rewrite Hpc, Hl in *.
  cbn [wq_exec]. rewrite Hpc. unfold worker_task. rewrite (in_w_run _ _ _ _ (worker_get_run _ _ _ _ _ _ HL Hkq Hl Hw)). eexists. split; [done|].
  apply (queue_step q); [apply Hi|by eapply taken_ok|intros q' Hne; cbn; by rewrite fupd_ne| |intros q' kq' Hne _; by apply spares_refl|].
  - cbn. intros q' kq' Hne. rewrite lookup_insert_ne by done. eauto.
  - cbn. rewrite lookup_insert_eq. intros kq' [= <-]. split; try done.
    + exists ob, c, pk. split_and!; [done..|]. cbn. rewrite fupd_eq. cbn in Hcnt |- *. lia.
    + cbn. by rewrite fupd_eq.
    + cbn. by rewrite fupd_eq.
Qed.

Lemma run_steps q w : q ∈ g_workqueue_list_head W -> pcs s q = HasWork w -> steps_ok (wq_exec (EvWorker q) s).
Proof.
  intros Hq Hpc. destruct (queue_of q Hq) as (kq & Hkq & HQ).
  destruct HQ as [H1 (ob & c & pk & Ho & Hty & Hb & Hcnt) H3 H4 H5 H6]. rewrite Hpc in *.
  cbn [wq_exec]. rewrite Hpc. eexists. split; [reflexivity|].
  apply (queue_step q); [apply Hi|by eapply lists_same, Hi| |by eauto|intros q' kq' Hne _; by apply spares_refl|].
  - intros q' Hne. cbn. rewrite fupd_ne, on_snoc, decide_False by (cbn; congruence). by rewrite app_nil_r.
  - intros kq' Hq'. assert (kq' = kq) as -> by (change (queues W !! q = Some kq') in Hq'; congruence). split; try done.
    + exists ob, c, pk. split_and!; [done..|]. cbn. rewrite fupd_eq. done.
    + cbn. by rewrite fupd_eq.
    + cbn. rewrite fupd_eq, on_snoc, decide_True by done. cbn. rewrite H6. by rewrite <- app_assoc.
Qed.

Lemma done_steps q : q ∈ g_workqueue_list_head W -> pcs s q = WorkDone -> steps_ok (wq_exec (EvWorker q) s).
Proof.
  intros Hq Hpc. destruct (queue_of q Hq) as (kq & Hkq & HQ).
  destruct HQ as [H1 (ob & c & pk & Ho & Hty & Hb & Hcnt) H3 H4 H5 H6]. rewrite Hpc in *.
  assert (E : upd_queue q (set_work_current None) W = Ok (tt, set_queues (<[q := set_work_current None kq]> (queues W)) W)).
  { unfold upd_queue, mbind, M_bind, gets. cbn. by rewrite Hkq. }
  cbn [wq_exec]. rewrite Hpc. unfold worker_task, mbind, M_bind. rewrite (in_w_run _ _ _ _ E). eexists. split; [reflexivity|].
  apply (queue_step q); [apply Hi|by apply lists_current; [apply Hi|]|intros q' Hne; cbn; by rewrite fupd_ne| |intros q' kq' Hne _; by apply spares_refl|].
  - cbn. intros q' kq' Hne. rewrite lookup_insert_ne by done. eauto.
  - cbn. rewrite lookup_insert_eq. intros kq' [= <-]. split; try done.
    + exists ob, c, pk. split_and!; [done..|]. cbn. rewrite fupd_eq. done.
    + cbn. by rewrite fupd_eq.
    + cbn. by rewrite fupd_eq.
Qed.

(** *** The other calls *)

Lemma message_run req t m : can_message k (Some t) m -> req_typed req -> req_refused req = false ->
  (forall r t m, run_req req t m = r -> Frames r) ->
  exists r k', run_req req (Some t) m k = Ok (r, k') /\ kinv k' /\ forall q, q ∈ g_workqueue_list_head W -> spares q (pcs s q) k k'.
Proof.
  intros ((ms & Hms) & Ht & Hm) Hty Href Hf. pose proof (wi_kinv _ Hi) as Hk.
  destruct (proj1 (wp_Ok _ _ _) (framed_kinv _ (kst s) _ (Hf _ _ _ eq_refl) Hk
    (wp_timer_req (kst s) ms req t m (ki_wf _ Hk) Hms (Ht _ eq_refl) Hm Hty))) as (r & k' & E & Hk' & Hspec).
  exists r, k'. split_and!; [done..|]. rewrite Href in Hspec. destruct Hspec as (ob & m' & Ho & _ & Hs). intros q Hq.
  destruct (queue_of q Hq) as (kq & _ & HQ). eapply message_spares; [apply Hk|exact Ho|exact Hs| |apply HQ].
  destruct (qo_sem _ _ _ HQ) as (ob' & c & pk & Ho' & Hty' & _). destruct Hms as (ob2 & Ho2 & Hty2 & _). unfold k in *. congruence.
Qed.

Lemma delayed_steps q w m : wq_legal s (EvDelayed q w m) -> steps_ok (wq_exec (EvDelayed q w m) s).
Proof.
  intros (wk & t & Hw & Hd & Ht & Hm & Hq). fold W in Hw. cbn [wq_exec]. unfold krhino_work_run.
  assert (Eg : get_work w W = Ok (wk, W)) by (unfold get_work, mbind, M_bind, gets; cbn; by rewrite Hw).
  destruct (message_run (ReqArgAuto (Z.of_nat q)) t m Hm ltac:(cbn; lia) eq_refl) as (r & k' & E & Hk' & Hs).
  { intros ? t' m' <-. cbn. unfold krhino_timer_arg_change_auto, timer_send. solve_call. }
  unfold mbind at 1, M_bind at 1. rewrite (in_w_run _ _ _ _ Eg). destruct (Z.eqb_spec (dly wk) 0) as [|_]; [done|]. rewrite Ht.
  unfold mbind, M_bind, lift, mret, M_ret. rewrite (in_w_run _ _ _ _ (eq_refl : modify _ _ = _)).
  cbn [run_req] in E. rewrite (in_k_run _ (mkWsys (w_sys (ws s)) _) _ _ E). eexists. split; [reflexivity|].
  apply lists_step; [by eapply lists_same, Hi|done|by eauto|done|done].
Qed.

Lemma cancel_steps w m : wq_legal s (EvCancel w m) -> steps_ok (wq_exec (EvCancel w m) s).
Proof.
  intros (wk & Hw & Hm). fold W in Hw. cbn [wq_exec]. unfold krhino_work_cancel. pose proof (wi_lists _ Hi) as HL.
  assert (Eg : get_work w W = Ok (wk, W)) by (unfold get_work, mbind, M_bind, gets; cbn; by rewrite Hw).
  assert (Hsame : forall s1, w_st s1 = W -> kern (w_sys s1) = k -> wq_inv (quiet s s1)).
  { intros s1 E1 E2. apply lists_step; rewrite ?E1, ?E2; [done|done|by eauto|apply Hi|intros; by apply spares_refl]. }
  unfold mbind at 1, M_bind at 1. rewrite (in_w_run _ _ _ _ Eg). destruct (wq wk) as [q|] eqn:Ewq.
  - destruct (lo_wq _ HL _ _ _ Hw Ewq) as [kq Hkq]. fold W in Hkq.
    assert (Eq : get_queue q W = Ok (kq, W)) by (unfold get_queue, mbind, M_bind, gets; cbn; by rewrite Hkq).
    unfold mbind at 1, M_bind at 1. rewrite (in_w_run _ (mkWsys (w_sys (ws s)) W) _ _ Eq). case_bool_decide; [eexists; split; [done|by apply Hsame]|].
    destruct (Z.eqb_spec (work_exit wk) 1) as [|Hx]; [eexists; split; [done|by apply Hsame]|].
    pose proof (unlisted_exit _ _ _ HL Hw Hx) as Hu.
    unfold mbind, M_bind, mret, M_ret.
    assert (Em : (modify (fun s => set_queues (work_unlink w (queues s)) s) : WM unit) W = Ok (tt, set_queues (queues W) W))
      by (unfold modify; by rewrite unlink_none).
    cbn [w_sys]. rewrite (in_w_run _ (mkWsys (w_sys (ws s)) W) _ _ Em).
    assert (Eu : upd_work w (set_wq None) (set_queues (queues W) W) = Ok (tt, set_works (<[w := set_wq None wk]> (works W)) (set_queues (queues W) W))).
    { unfold upd_work, mbind, M_bind, gets. cbn. by rewrite Hw. }
    rewrite (in_w_run _ (mkWsys _ (set_queues (queues W) W)) _ _ Eu). eexists. split; [reflexivity|].
    apply lists_step; [|done|by eauto|apply Hi|intros; by apply spares_refl].
    eapply (lists_same (set_works (<[w := set_wq None wk]> (works W)) W)); [done..|]. by eapply lists_works.
  - unfold mbind, M_bind, mret, M_ret. destruct (0 <? dly wk); [|eexists; split; [done|by apply Hsame]].
    destruct (timer wk) as [t|].
    + destruct (message_run ReqStop t m Hm I eq_refl) as (r & k' & E & Hk' & Hs).
      { intros ? t' m' <-. cbn. unfold krhino_timer_stop, timer_send. solve_call. }
      cbn [run_req] in E. rewrite (in_k_run _ (mkWsys (w_sys (ws s)) W) _ _ E). eexists. split; [reflexivity|].
      apply lists_step; [done|done|by eauto|done|done].
    + rewrite (in_k_run _ (mkWsys (w_sys (ws s)) W) _ k (eq_refl : krhino_timer_stop None m _ = _)). eexists. split; [reflexivity|]. by apply Hsame.
Qed.

Lemma timer_create_kernel alloc dly w m (S : tsys) : 0 < dly -> exists r t ts,
  krhino_timer_dyn_create (Some 0%nat) alloc (Some 0%nat) (Some 0%nat) dly 0 (Z.of_nat w) 0 m S = Ok ((r, t), mkSys (kern S) ts).
Proof.
  intros Hd. unfold krhino_timer_dyn_create, timer_create. destruct (MAX_TIMER_TICKS <=? dly) eqn:Ed; [by destruct S; eauto|].
  replace (MAX_TIMER_TICKS <=? 0) with false by done. destruct alloc as [t|]; [|by destruct S; eauto].
  destruct (Z.eqb_spec dly 0) as [|_]; [lia|]. cbn. eauto.
Qed.

Lemma init_steps w f arg dly alloc m : wq_legal s (EvInit w f arg dly alloc m) -> steps_ok (wq_exec (EvInit w f arg dly alloc m) s).
Proof.
  intros [Hx Hsz]. cbn [wq_exec]. unfold krhino_work_init. pose proof (wi_lists _ Hi) as HL.
  assert (Hu : unlisted w W).
  { intros q kq Hq Hin. destruct (lo_in _ HL _ _ _ Hq Hin) as (wk & Hw & E & _). by apply (Hx _ Hw). }
  set (wk := mkWork (Z.of_nat f) arg dly None None 0).
  assert (Hinv : forall t s1, kern (w_sys s1) = k -> w_st s1 = set_works (<[w := set_timer t wk]> (works W)) W -> wq_inv (quiet s s1)).
  { intros t s1 E1 E2. apply lists_step; rewrite ?E1, ?E2; [by apply lists_new|done|by eauto|apply Hi|intros; by apply spares_refl]. }
  unfold mbind, M_bind, mret, M_ret. rewrite (in_w_run _ _ _ _ (eq_refl : modify _ _ = _)).
  destruct (Z.ltb_spec 0 dly) as [Hd|Hd]; [|eexists; split; [reflexivity|by apply (Hinv None)]].
  destruct (timer_create_kernel alloc dly w m (w_sys (ws s)) Hd) as (r & t & ts & E).
  unfold in_sys. cbn [w_sys]. rewrite E. cbn [w_st].
  assert (Eu : upd_work w (set_timer t) (set_works (<[w := wk]> (works W)) W) = Ok (tt, set_works (<[w := set_timer t wk]> (works W)) W)).
  { unfold upd_work, mbind, M_bind, gets. cbn. rewrite lookup_insert_eq. cbn. by rewrite insert_insert_eq. }
  rewrite (in_w_run _ (mkWsys _ (set_works (<[w := wk]> (works W)) W)) _ _ Eu). eexists. split; [reflexivity|]. by apply (Hinv t).
Qed.

Lemma kernel_steps c : wq_legal s (EvKernel c) -> steps_ok (wq_exec (EvKernel c) s).
Proof.
  intros [Hc Hs]. destruct (proj1 (wp_Ok _ _ _) (call_ok (kst s) (wi_kinv _ Hi) c Hc)) as ([] & k' & E & Hk').
  cbn [wq_exec]. rewrite (in_k_run _ _ _ _ E). eexists. split; [reflexivity|].
  apply lists_step; [apply Hi|done|by eauto|done|]. intros q Hq. by apply Hs.
Qed.

Lemma wq_steps e : wq_legal s e -> steps_ok (wq_exec e s).
Proof.
  destruct e as [q w|tm q|q|q|q w m|w m|w f arg dly alloc m|c]; intros He.
  - destruct He as (Hq & wk & Hw & _). apply insert_steps; [done|by eexists].
  - destruct He as (Hq & w & Ht & Hw). cbn [wq_exec]. rewrite Ht. by apply insert_steps.
  - destruct He as [Hq Hg]. by apply give_steps.
  - destruct He as (Hq & Ha & Hn & Hl). destruct (pcs s q) eqn:Hpc.
    + by apply sem_steps.
    + by apply woken_steps.
    + by apply get_steps.
    + by eapply run_steps.
    + by apply done_steps.
  - by apply delayed_steps.
  - by apply cancel_steps.
  - by apply init_steps.
  - by apply kernel_steps.
Qed.
End steps.

(** ** What can be reached *)

Lemma idle_waits k q ob t : wf k -> g_objs k !! q = Some ob -> blk_list ob = [] -> waits (g_tasks k) t <> Some q.
Proof.
  intros Hwf Ho Hl Hw. apply (bk_in _ _ _ (c_blk _ _ _ _ _ _ _ (kp_core _ (kp_mid _ (wf_pre _ Hwf)))) _ _ t Ho) in Hw.
  rewrite Hl in Hw. by apply elem_of_nil in Hw.
Qed.

Lemma ready_inv s : wq_ready s -> wq_inv s.
Proof.
  intros [Hk Hw HQ Honly (Hp & Hg & Ha & Hh)]. split; [done| |].
  - split; rewrite ?Hw.
    + intros q kq w Hq Hin. destruct (HQ q) as [E _]; [apply Honly; by eexists|]. rewrite E in Hq. injection Hq as <-.
      by apply elem_of_nil in Hin.
    + intros q kq Hq. destruct (HQ q) as [E _]; [apply Honly; by eexists|]. rewrite E in Hq. injection Hq as <-. constructor.
    + intros q. split; [|by apply Honly]. intros Hq. destruct (HQ q Hq) as [-> _]. by eexists.
    + intros w wk q Hwk. by rewrite lookup_empty in Hwk.
    + rewrite map_size_empty. done.
  - intros q kq Hq. destruct (HQ q) as (E & Hid & ob & peak & Ho & Hty & Hb & Hl); [apply Honly; by eexists|].
    rewrite E in Hq. injection Hq as <-.
    assert (Hnw : forall t, waits (g_tasks (kst s)) t <> Some q) by (intros t; by eapply idle_waits; [apply Hk|..]).
    split; rewrite ?Hp, ?Hg, ?Ha, ?Hh; try done.
    + exists ob, 0, peak. done.
    + intros t Ht. by apply Hnw in Ht.
    + apply Hnw.
Qed.

Lemma wq_reach_inv s : wq_reach s -> wq_inv s.
Proof.
  induction 1 as [s H|s e s' _ IH Hl He]; [by apply ready_inv|].
  destruct (wq_steps s IH e Hl) as (s1 & E & H). congruence.
Qed.

Lemma reach_steps s e : wq_reach s -> wq_legal s e -> exists s', wq_exec e s = Ok s' /\ wq_reach s'.
Proof. intros Hr Hl. destruct (wq_steps s (wq_reach_inv s Hr) e Hl) as (s' & E & _). exists s'. split; [done|by eapply wq_step]. Qed.

(** a worker that sleeps has nothing to do *)
Lemma asleep_empty s q kq : wq_inv s -> queues (wst s) !! q = Some kq -> waits (g_tasks (kst s)) q = Some q -> gives s q = 0 ->
  work_list kq = [] /\ running (pcs s q) = [].
Proof.
  intros Hi Hq Hw Hg. destruct (wi_queue _ Hi _ _ Hq) as [_ (ob & c & pk & Ho & Hty & Hb & Hc) _ _ Hp _].
  destruct (sem_range s Hi _ _ _ _ _ Hq Ho Hb Hty) as (Hc0 & Hl & _). pose proof (ki_wf _ (wi_kinv _ Hi)) as Hwf.
  assert (Epc : pcs s q = InSem) by (unfold pc_ok in Hp; by destruct (pcs s q)).
  rewrite Epc, Hg in Hc. unfold unit_of in Hc. rewrite decide_True in Hc by done.
  destruct (decide (0 < c)) as [Hpos|]; [by destruct (idle_waits _ _ _ q Hwf Ho (Hl Hpos))|].
  rewrite Epc. split; [|done]. destruct (work_list kq); [done|cbn in Hc; lia].
Qed.

(** ** The worker gets through its list *)

Fixpoint wq_run (es : list wq_event) (s : wqsys) : res kstat_t wqsys :=
  match es with
  | [] => Ok s
  | e :: es => match wq_exec e s with Ok s1 => wq_run es s1 | Reset e => Reset e | Undef => Undef end
  end.

Lemma wq_run_app es1 es2 s s1 : wq_run es1 s = Ok s1 -> wq_run (es1 ++ es2) s = wq_run es2 s1.
Proof.
  revert s. induction es1 as [|e es1 IH]; intros s; cbn; [by intros [= ->]|]. destruct (wq_exec e s); [apply IH|done..].
Qed.

Definition has_cpu (q : nat) (s : wqsys) : Prop :=
  g_active_task (kst s) = q /\ g_intrpt_nested_level (kst s) = 0 /\ g_sched_lock (kst s) = 0.

Lemma worker_legal q s : q ∈ g_workqueue_list_head (wst s) -> has_cpu q s -> wq_legal s (EvWorker q).
Proof. intros Hq (Ha & Hn & Hl). done. Qed.

Lemma step_inv s e s1 : wq_inv s -> wq_legal s e -> wq_exec e s = Ok s1 -> wq_inv s1.
Proof. intros Hi Hl E. destruct (wq_steps s Hi e Hl) as (s' & E' & H). congruence. Qed.

(** there is a unit for each work when none is still to be given *)
Lemma take_unit s q kq : wq_inv s -> queues (wst s) !! q = Some kq -> work_list kq <> [] -> gives s q = 0 -> pcs s q = AtSem ->
  has_cpu q s -> exists k', wq_exec (EvWorker q) s = Ok (mkWqs (mkWsys (mkSys k' (tims (w_sys (ws s)))) (wst s)) (fupd (pcs s) q HasUnit) (gives s) (accepted s)) /\
    g_active_task k' = q /\ g_intrpt_nested_level k' = 0 /\ g_sched_lock k' = 0.
Proof.
  intros Hi Hq Hne Hg Hpc (Ha & Hn & Hlk). pose proof (ki_wf _ (wi_kinv _ Hi)) as Hwf.
  destruct (wi_queue _ Hi _ _ Hq) as [Hid (ob & c & pk & Ho & Hty & Hb & Hc) _ _ _ _]. rewrite Hg, Hpc in Hc. cbn in Hc.
  assert (Hpos : 0 < c) by (destruct (work_list kq); [done|cbn in Hc; lia]).
  destruct (proj1 (wp_Ok _ _ _) (wp_krhino_sem_take (kst s) q ob RHINO_WAIT_FOREVER Hwf ltac:(congruence) Ho ltac:(done)))
    as (r & k' & E & _ & Hspec).
  assert (Hsb : sem_body ob = Some (c, pk)) by (unfold sem_body; by rewrite Hb).
  cbn [wq_exec]. rewrite Hpc. unfold worker_task, mbind, M_bind. rewrite (in_k_run _ _ _ _ E).
  inversion Hspec as [Hx| |c' pk' Hsb' _|pk' Hsb'|pk' Hsb'|pk' s1 Hsb']; subst r; try subst k'; try done;
    try (rewrite Hsb in Hsb'; injection Hsb' as -> _; lia); [lia|]. by eexists.
Qed.

Lemma worker_round s q kq w l : wq_inv s -> queues (wst s) !! q = Some kq -> work_list kq = w :: l -> gives s q = 0 -> pcs s q = AtSem ->
  has_cpu q s -> exists s', wq_run (replicate 4 (EvWorker q)) s = Ok s' /\ wq_inv s' /\ has_cpu q s' /\ pcs s' q = AtSem /\ gives s' q = 0 /\
    (exists kq', queues (wst s') !! q = Some kq' /\ work_list kq' = l) /\ handled (wst s') = handled (wst s) ++ [(q, w)].
Proof.
  intros Hi Hq El Hg Hpc Hcpu. assert (Hin : q ∈ g_workqueue_list_head (wst s)) by (apply (lo_head _ (wi_lists _ Hi)); by eexists).
  destruct (take_unit s q kq Hi Hq ltac:(by rewrite El) Hg Hpc Hcpu) as (k' & E1 & Hcpu1).
  pose proof (step_inv _ _ _ Hi (worker_legal _ _ Hin Hcpu) E1) as Hi1. set (s1 := mkWqs _ _ _ _) in *.
  destruct (lo_in _ (wi_lists _ Hi) _ _ w Hq) as (wk & Hw & _); [rewrite El; left|].
  pose proof (worker_get_run (wst s1) q kq w l wk (wi_lists _ Hi1) Hq El Hw) as E2.
  set (W2 := taken q w l wk (wst s1)) in *.
  set (W3 := set_handled (handled W2 ++ [(q, w)]) W2).
  set (W4 := set_queues (<[q := mkWq l None]> (queues W3)) W3).
  assert (E4 : upd_queue q (set_work_current None) W3 = Ok (tt, W4)).
  { unfold upd_queue, mbind, M_bind, gets. cbn. by rewrite lookup_insert_eq. }
  set (P := fun pc => fupd (pcs s1) q pc).
  set (s2 := mkWqs (mkWsys (w_sys (ws s1)) W2) (P (HasWork w)) (gives s1) (accepted s1)).
  set (s3 := mkWqs (mkWsys (w_sys (ws s1)) W3) (fupd (pcs s2) q WorkDone) (gives s1) (accepted s1)).
  set (s4 := mkWqs (mkWsys (w_sys (ws s1)) W4) (fupd (pcs s3) q AtSem) (gives s1) (accepted s1)).
  assert (X2 : wq_exec (EvWorker q) s1 = Ok s2).
  { cbn [wq_exec]. unfold s1 at 1. cbn [pcs]. rewrite fupd_eq. cbn [worker_task]. by rewrite (in_w_run _ _ _ _ E2). }
  assert (X3 : wq_exec (EvWorker q) s2 = Ok s3).
  { cbn [wq_exec]. unfold s2 at 1, P at 1. cbn [pcs]. rewrite fupd_eq. done. }
  assert (X4 : wq_exec (EvWorker q) s3 = Ok s4).
  { cbn [wq_exec]. unfold s3 at 1. cbn [pcs]. rewrite fupd_eq. cbn [worker_task]. unfold mbind, M_bind.
    by rewrite (in_w_run _ (ws s3) _ _ E4). }
  pose proof (step_inv _ _ _ Hi1 (worker_legal q s1 Hin Hcpu1) X2) as Hi2.
  pose proof (step_inv _ _ _ Hi2 (worker_legal q s2 Hin Hcpu1) X3) as Hi3.
  pose proof (step_inv _ _ _ Hi3 (worker_legal q s3 Hin Hcpu1) X4) as Hi4.
  exists s4. split_and!; [|done|done|cbn; by rewrite fupd_eq|done|exists (mkWq l None); split; [cbn; by rewrite lookup_insert_eq|done]|done].
  cbn [replicate wq_run]. by rewrite E1, X2, X3, X4.
Qed.

(** without interruption, a worker that has the processor runs all its works *)
Lemma worker_drains s q kq : wq_inv s -> queues (wst s) !! q = Some kq -> gives s q = 0 -> pcs s q = AtSem -> has_cpu q s ->
  exists s', wq_run (replicate (length (work_list kq) * 4) (EvWorker q)) s = Ok s' /\
    handled (wst s') = handled (wst s) ++ (pair q <$> work_list kq) /\ on q (accepted s') = on q (handled (wst s')).
Proof.
  remember (work_list kq) as l eqn:El. symmetry in El. revert s kq El. induction l as [|w l IH]; intros s kq El Hi Hq Hg Hpc Hcpu.
  - exists s. rewrite fmap_nil, app_nil_r. split_and!; [done..|]. rewrite (qo_fifo _ _ _ (wi_queue _ Hi _ _ Hq)), Hpc, El. cbn. by rewrite app_nil_r.
  - destruct (worker_round s q kq w l Hi Hq El Hg Hpc Hcpu) as (s1 & E1 & Hi1 & Hc1 & Hp1 & Hg1 & (kq1 & Hq1 & El1) & Eh).
    destruct (IH s1 kq1 El1 Hi1 Hq1 Hg1 Hp1 Hc1) as (s' & E & Ehd & Ea). exists s'. split_and!; [|by rewrite Ehd, Eh, <- app_assoc|done].
    replace (length (w :: l) * 4)%nat with (4 + length l * 4)%nat by (cbn; lia). rewrite replicate_add. by rewrite (wq_run_app _ _ _ _ E1).
Qed.

(** ** The calls are their events *)

(** the effect of an [EvInsert] and, when it put the work in the list, of the
    [EvGive] that follows *)
Definition insert_give (q w : nat) (s : wqsys) : res kstat_t (kstat_t * wqsys) :=
  match in_w (work_insert q w) (ws s) with
  | Ok (st, _) => match wq_run (EvInsert q w :: if bool_decide (st = RHINO_SUCCESS) then [EvGive q] else []) s with
                  | Ok s' => Ok (st, s') | Reset e => Reset e | Undef => Undef end
  | Reset e => Reset e
  | Undef => Undef
  end.

Lemma insert_give_run s q w wk : wq_inv s -> q ∈ g_workqueue_list_head (wst s) -> works (wst s) !! w = Some wk -> dly wk = 0 ->
  exists st s', insert_give q w s = Ok (st, s') /\ (forall m, krhino_work_run (Some q) (Some w) m (ws s) = Ok (Ret st, ws s')) /\
    (forall tm, timer_priv (wst s) !! tm = Some w -> work_timer_cb tm q (ws s) = Ok (tt, ws s')).
Proof.
  intros Hi Hq Hw Hd. destruct (queue_of s Hi q Hq) as (kq & Hkq & _). pose proof (wi_lists _ Hi) as HL.
  pose proof (work_insert_run (wst s) q kq w wk HL Hkq Hw) as Hrun.
  assert (Eg : get_work w (wst s) = Ok (wk, wst s)) by (unfold get_work, mbind, M_bind, gets; cbn; by rewrite Hw).
  assert (Hsame : mkWsys (w_sys (ws s)) (wst s) = ws s) by (unfold wst; by destruct (ws s)).
  assert (Hno : forall st, st <> RHINO_SUCCESS -> work_insert q w (wst s) = Ok (st, wst s) ->
    insert_give q w s = Ok (st, s) /\ (forall m, krhino_work_run (Some q) (Some w) m (ws s) = Ok (Ret st, ws s)) /\
    (forall tm, timer_priv (wst s) !! tm = Some w -> work_timer_cb tm q (ws s) = Ok (tt, ws s))).
  { intros st Hst E. pose proof (in_w_run (work_insert q w) (ws s) _ _ E) as Ei. rewrite Hsame in Ei. split_and!.
    - unfold insert_give. rewrite Ei, bool_decide_eq_false_2 by done. cbn [wq_run wq_exec]. unfold insert_step. rewrite Ei. cbn.
      rewrite bool_decide_eq_false_2 by done. by destruct s.
    - intros m. unfold krhino_work_run, mbind, M_bind. rewrite (in_w_run _ _ _ _ Eg), Hsame, Hd, Z.eqb_refl. cbv beta iota. rewrite Ei.
      by rewrite bool_decide_eq_false_2.
    - intros tm Ht. unfold work_timer_cb, mbind, M_bind. rewrite (in_w_run _ _ _ _ (eq_refl : gets timer_priv _ = _)).
      fold (wst s). rewrite Hsame, Ht. cbv beta iota delta [lift mret M_ret]. rewrite Ei. by rewrite bool_decide_eq_false_2. }
  case_bool_decide as Hc; [eexists _, s; apply (Hno RHINO_WORKQUEUE_WORK_RUNNING); done|].
  destruct (Z.eqb_spec (work_exit wk) 1) as [|Hx]; [eexists _, s; apply (Hno RHINO_WORKQUEUE_WORK_EXIST); done|].
  destruct (insert_steps s Hi q w Hq ltac:(by eexists)) as (s1 & E1 & Hi1). pose proof E1 as X1. unfold insert_step in E1.
  pose proof (in_w_run (work_insert q w) (ws s) _ _ Hrun) as Ei. rewrite Ei in E1. unfold then_ok in E1.
  rewrite bool_decide_eq_true_2 in E1 by done. injection E1 as <-. set (s1 := mkWqs _ _ _ _) in *.
  assert (Hq1 : exists kq1, queues (wst s1) !! q = Some kq1) by (eexists; cbn; apply lookup_insert_eq). destruct Hq1 as [kq1 Hq1].
  destruct (give_runs s1 Hi1 q kq1 Hq1) as (ob & k' & _ & Eg1 & _); [cbn; rewrite fupd_eq; pose proof (qo_gives _ _ _ (wi_queue _ Hi _ _ Hkq)); lia|].
  pose proof (in_k_run (krhino_sem_give (Some q)) (ws s1) _ _ Eg1) as Ek.
  pose proof Ek as Ek'. unfold s1 at 1 in Ek'. cbn [ws] in Ek'. exists RHINO_SUCCESS. eexists. split_and!.
  - unfold insert_give. rewrite Ei, bool_decide_eq_true_2 by done. cbn [wq_run wq_exec]. rewrite X1, Ek. done.
  - intros m. unfold krhino_work_run, mbind, M_bind. rewrite (in_w_run _ _ _ _ Eg), Hsame, Hd, Z.eqb_refl. cbv beta iota. rewrite Ei.
    rewrite bool_decide_eq_true_2 by done. cbv beta iota delta [negb]. by rewrite Ek'.
  - intros tm Ht. unfold work_timer_cb, mbind, M_bind. rewrite (in_w_run _ _ _ _ (eq_refl : gets timer_priv _ = _)).
    fold (wst s). rewrite Hsame, Ht. cbv beta iota delta [lift mret M_ret]. rewrite Ei. rewrite bool_decide_eq_true_2 by done. by rewrite Ek'.
Qed.
