(* ===== verification/CsiSys.v ===== *)
(** * The CSI interface on the kernel and the heap

    A client of the CSI calls works with one system made of the kernel and the
    heap.  [csi_legal] says what it owes, which no longer has the conditions on
    fresh memory of the kernel's own calls: the heap meets them.  [csi_call_ok]
    proves that every legal call returns and keeps the system whole: the
    invariant of the kernel, that of the heap, and that every object made by a
    call has a block of the heap for itself. *)

From S2P Require Import Prelude Config RingBuf State Sched Inv Tick Pend PriChange KInv Mutex.
From S2P Require Import Sem Event BufQueue Task Frame TaskDel Time Sys Kernel Mem Mm MmInit.
From S2P Require Import MmUse Csi.
Open Scope Z_scope.

(** ** Symbolic execution *)

Lemma wp_kern {A} (m : K A) (Q : A -> csys -> Prop) s :
  wp m (fun a k => Q a (mkCsi k (c_heap s))) (c_kern s) -> wp (kern m) Q s.
Proof. unfold wp, kern. by destruct (m (c_kern s)) as [[a k]| |]. Qed.

Lemma wp_heap {A} (m : H A) (Q : A -> csys -> Prop) s :
  wp m (fun a h => Q a (mkCsi (c_kern s) h)) (c_heap s) -> wp (heap m) Q s.
Proof. unfold wp, heap. by destruct (m (c_heap s)) as [[a h]| |]. Qed.

(** ** Which calls leave the objects alone *)

Ltac kinds := repeat first
  [ progress solve_call
  | apply frames_modify; intros ?; intros ?; reflexivity ].

Lemma kinds_sched_disable : Follows same_kinds krhino_sched_disable.
Proof. unfold krhino_sched_disable. kinds. Qed.
Lemma kinds_sched_enable : Follows same_kinds krhino_sched_enable.
Proof. unfold krhino_sched_enable. kinds. Qed.
Lemma kinds_intrpt_enter : Follows same_kinds krhino_intrpt_enter.
Proof. unfold krhino_intrpt_enter, k_err_proc. kinds. Qed.
Lemma kinds_intrpt_exit : Follows same_kinds krhino_intrpt_exit.
Proof. unfold krhino_intrpt_exit, k_err_proc, preferred_cpu_ready_task_get, tspend_handler. kinds. Qed.
Lemma kinds_task_dyn_del t : Follows same_kinds (krhino_task_dyn_del t).
Proof. unfold krhino_task_dyn_del, k_err_proc. kinds. all: apply frames_task_unlink; kinds. Qed.
Lemma kinds_tick_expire t : Follows same_kinds (tick_expire t).
Proof. unfold tick_expire, k_err_proc. kinds. Qed.
Lemma kinds_tick_update_loop l : Follows same_kinds (tick_update_loop l).
Proof. induction l as [|t l IH]; cbn [tick_update_loop]; [kinds|]. pose proof kinds_tick_expire. kinds. Qed.
Lemma kinds_tick_proc : Follows same_kinds krhino_tick_proc.
Proof. unfold krhino_tick_proc, tick_list_update. pose proof kinds_tick_update_loop. kinds. Qed.
#[export] Hint Resolve kinds_sched_disable kinds_sched_enable kinds_intrpt_enter kinds_intrpt_exit kinds_task_dyn_del kinds_tick_proc : frames.

(** ** Making and deleting an object *)

(** [m] leaves the object [o] as the type of a deleted one, and no other *)
Definition removed (o : nat) (s s' : kstate) : Prop :=
  kind s' o = Some RHINO_OBJ_TYPE_NONE /\ forall q, q <> o -> kind s' q = kind s q.

(** a call that deletes the object [o], or fails and changes nothing *)
Class Removes (o : nat) (m : K kret) : Prop :=
  removes : forall s, match m s with
    | Ok (r, s') => if bool_decide (r = Ret RHINO_SUCCESS) then removed o s s' else s' = s
    | _ => True
    end.

Section removes.
Context (o : nat).

Lemma removes_ret st : st <> RHINO_SUCCESS -> Removes o (ret st).
Proof using. intros H s. cbn. rewrite bool_decide_false; [done|]. by intros [= ?]. Qed.

Lemma removes_intrpt m : Removes o m -> Removes o (INTRPT_NESTED_LEVEL_CHK m).
Proof using. intros Hm s. unfold INTRPT_NESTED_LEVEL_CHK, mbind, M_bind, gets. destruct (0 <? _); [by apply removes_ret|apply Hm]. Qed.

Lemma removes_type q ty k : (forall ob, Removes o (k ob)) -> Removes o (OBJ_TYPE_CHK q ty k).
Proof using.
  intros Hk s. unfold OBJ_TYPE_CHK, get_obj, mbind, M_bind, gets, lift. destruct (g_objs s !! q) as [ob|]; [|done]. cbn.
  case_bool_decide; [apply Hk|by apply removes_ret].
Qed.

Lemma removes_flag ob flag m : Removes o m -> Removes o (ALLOC_FLAG_CHK ob flag m).
Proof using. intros Hm s. unfold ALLOC_FLAG_CHK. destruct (_ =? _); [apply Hm|by apply removes_ret]. Qed.

(** the type is reset, and what follows keeps it *)
Lemma removes_reset (m : K unit) : Follows same_kinds m ->
  Removes o ((upd_obj o (set_obj_type RHINO_OBJ_TYPE_NONE);; m);; exit_sched (Ret RHINO_SUCCESS)).
Proof using.
  intros Hm s. unfold upd_obj, get_obj, mbind, M_bind, gets, lift, modify. destruct (g_objs s !! o) as [ob|] eqn:Ho; [|done]. cbn.
  specialize (Hm (set_g_objs (<[o := set_obj_type RHINO_OBJ_TYPE_NONE ob]> (g_objs s)) s)). destruct (m _) as [[[] s1]| |]; [|done..].
  pose proof (frames_exit_sched same_kinds (Ret RHINO_SUCCESS) s1) as He. destruct (exit_sched _ s1) as [[r s2]| |] eqn:E; [|done..].
  assert (r = Ret RHINO_SUCCESS) as ->.
  { unfold exit_sched, mbind, M_bind in E. destruct (core_sched s1) as [[[] ?]| |]; [|done..]. cbn in E. by injection E. }
  rewrite bool_decide_true by done. split.
  - rewrite (He o), (Hm o). unfold kind. cbn. by rewrite lookup_insert_eq.
  - intros q Hq. rewrite (He q), (Hm q). unfold kind. cbn. by rewrite lookup_insert_ne.
Qed.
End removes.

Lemma bind_assoc {A B D} (m : K A) (f : A -> K B) (g : B -> K D) s : ((m ≫= f) ≫= g) s = (m ≫= (fun a => f a ≫= g)) s.
Proof. unfold mbind, M_bind. by destruct (m s) as [[a s']| |]. Qed.

Lemma removes_sem o : Removes o (krhino_sem_del (Some o)).
Proof.
  apply removes_intrpt, removes_type. intros ob. apply removes_flag. unfold sem_destroy.
  apply removes_reset. kinds.
Qed.

Lemma removes_event o : Removes o (krhino_event_del (Some o)).
Proof.
  apply removes_intrpt, removes_type. intros ob. apply removes_flag. unfold event_destroy.
  apply removes_reset. kinds.
Qed.

Lemma removes_mutex o : Removes o (krhino_mutex_del (Some o)).
Proof.
  apply removes_intrpt, removes_type. intros ob. apply removes_flag. intros s. unfold mutex_destroy.
  rewrite bind_assoc. unfold get_obj, mbind at 1, M_bind at 1, mbind at 1, M_bind at 1, gets at 1, lift at 1.
  destruct (g_objs s !! o) as [ob2|]; [|done]. cbn. rewrite bind_assoc. unfold mbind at 1, M_bind at 1, lift at 1.
  destruct (mutex_body ob2) as [b|]; [|done]. cbn. apply removes_reset. kinds.
Qed.

(** ** The calls of a client *)

Inductive csi_call :=
  | CSemNew (max_count initial_count : Z) | CMutexNew | CEventNew
  | CSemDel (h : option nat) | CMutexDel (h : option nat) | CEventDel (h : option nat)
  | CSemWait (h : option nat) (timeout : Z) | CSemPost (h : option nat)
  | CMutexLock (h : option nat) (timeout : Z) | CMutexUnlock (h : option nat)
  | CEventSet (h : option nat) (flags : Z) (out : option nat)
  | CEventWait (h : option nat) (flags options clr : Z) (out : option nat) (timeout : Z)
  | CTaskNew (task name : option nat) (prio quanta : Z) (stack : option nat) (size : Z) (out alloc : option nat)
  | CTaskDel (h : option nat) | CTaskExit | CTaskSetPrio (h : option nat) (p : Z)
  | CTaskSuspend (h : option nat) | CTaskResume (h : option nat) | CTaskYield
  | CDelay (ticks : Z) | CDelayMs (ms : Z)
  | CMalloc (size : Z) | CFree (p : Z) | CRealloc (p size : Z)
  | CWrite (p i v : Z)   (* the client writes a word of its memory *)
  | CIntrptEnter | CIntrptExit | CTick.

Inductive cresult := RStat (r : cret) | RHandle (h : option nat) | RPtr (p : Z).

Section system.
Context (addr len : Z).
Abbreviation mh := (init_addr addr).

Definition stat_of {A} (m : K A) (f : A -> cret) : C cresult := r ← kern m; mret (RStat (f r)).

Definition csi_exec (c : csi_call) : C cresult :=
  match c with
  | CSemNew mx v => h ← csi_kernel_sem_new mh mx v; mret (RHandle h)
  | CMutexNew => h ← csi_kernel_mutex_new mh; mret (RHandle h)
  | CEventNew => h ← csi_kernel_event_new mh; mret (RHandle h)
  | CSemDel h => r ← csi_kernel_sem_del mh h; mret (RStat r)
  | CMutexDel h => r ← csi_kernel_mutex_del mh h; mret (RStat r)
  | CEventDel h => r ← csi_kernel_event_del mh h; mret (RStat r)
  | CSemWait h t => stat_of (csi_kernel_sem_wait h t) id
  | CSemPost h => stat_of (csi_kernel_sem_post h) id
  | CMutexLock h t => stat_of (csi_kernel_mutex_lock h t) id
  | CMutexUnlock h => stat_of (csi_kernel_mutex_unlock h) id
  | CEventSet h f out => stat_of (csi_kernel_event_set h f out) fst
  | CEventWait h f o c out t => stat_of (csi_kernel_event_wait h f o c out t) fst
  | CTaskNew t n p q st sz out al => stat_of (csi_kernel_task_new t n p q st sz out al) fst
  | CTaskDel h => stat_of (csi_kernel_task_del h) id
  | CTaskExit => stat_of csi_kernel_task_exit id
  | CTaskSetPrio h p => stat_of (csi_kernel_task_set_prio h p) id
  | CTaskSuspend h => stat_of (csi_kernel_task_suspend h) id
  | CTaskResume h => stat_of (csi_kernel_task_resume h) id
  | CTaskYield => stat_of csi_kernel_task_yield id
  | CDelay n => stat_of (csi_kernel_delay n) id
  | CDelayMs n => stat_of (csi_kernel_delay_ms n) id
  | CMalloc n => p ← csi_kernel_malloc mh n; mret (RPtr p)
  | CFree p => csi_kernel_free mh p;; mret (RPtr 0)
  | CRealloc p n => r ← csi_kernel_realloc mh p n; mret (RPtr r)
  | CWrite p i v => heap (st (p + i) v);; mret (RPtr 0)
  | CIntrptEnter => stat_of csi_kernel_intrpt_enter id
  | CIntrptExit => stat_of csi_kernel_intrpt_exit id
  | CTick => stat_of krhino_tick_proc (fun _ => CRet 0)
  end.

(** *** What the client owes, and what it has: [U] are its blocks, those of its
    objects and those it asked for *)

Section legal.
Context (s : csys) (U : gmap Z Z).

Definition points (h : option nat) : Prop := forall o, h = Some o -> has_obj (c_kern s) o.
(** ... to an object made by a CSI call *)
Definition own_obj (h : option nat) : Prop := forall o, h = Some o -> has_obj (c_kern s) o /\ is_Some (U !! Z.of_nat o).
Definition is_task (h : option nat) : Prop := forall t, h = Some t -> has_task (c_kern s) t.
(** ... to a block that is not an object *)
Definition own_block (p : Z) : Prop := is_Some (U !! p) /\ kind (c_kern s) (Z.to_nat p) = None.

Definition csi_legal (c : csi_call) : Prop :=
  match c with
  | CSemNew _ _ | CMutexNew | CEventNew => True
  | CSemDel h | CMutexDel h | CEventDel h => own_obj h
  | CSemWait h t | CEventWait h _ _ _ _ t => points h /\ g_active_task (c_kern s) <> g_idle_task /\ t < 2 ^ 31
  | CMutexLock h t => points h /\ g_active_task (c_kern s) <> g_idle_task /\ t < 2 ^ 31 /\
      forall o ob, h = Some o -> g_objs (c_kern s) !! o = Some ob -> body ob <> KMutex (Some (g_active_task (c_kern s))) MUTEX_NESTED_MAX
  | CSemPost h | CMutexUnlock h => points h
  | CEventSet h f _ => points h /\ 0 <= f < 2 ^ 32
  | CTaskNew _ _ _ _ _ _ _ alloc => for_task (c_kern s) alloc
  | CTaskDel h => is_task h /\ res_sem_room (c_kern s)
  | CTaskExit => has_task (c_kern s) (g_active_task (c_kern s)) /\ res_sem_room (c_kern s)
  | CTaskSetPrio h _ | CTaskSuspend h | CTaskResume h => is_task h
  | CTaskYield => g_intrpt_nested_level (c_kern s) = 0
  | CDelay n | CDelayMs n => may_block (c_kern s) n
  | CMalloc n => n <> 1 /\ n < 2 ^ 31
  | CFree p => p = 0 \/ own_block p
  | CRealloc p n => (p = 0 \/ own_block p) /\ (n = 0 \/ 2 <= n < 2 ^ 31)
  | CWrite p i v => own_block p /\ heap_legal U (HWrite p i v)
  | CIntrptEnter => g_intrpt_nested_level (c_kern s) < RHINO_CONFIG_INTRPT_MAX_NESTED_LEVEL
  | CIntrptExit | CTick => 0 < g_intrpt_nested_level (c_kern s)
  end.

Definition obj_size (ty : kobj_type_t) : Z :=
  match ty with
  | RHINO_SEM_OBJ_TYPE => sizeof_ksem_t | RHINO_MUTEX_OBJ_TYPE => sizeof_kmutex_t | RHINO_EVENT_OBJ_TYPE => sizeof_kevent_t
  | _ => 0
  end.

(** the type of the object a call makes *)
Definition makes (c : csi_call) : option kobj_type_t :=
  match c with
  | CSemNew _ _ => Some RHINO_SEM_OBJ_TYPE | CMutexNew => Some RHINO_MUTEX_OBJ_TYPE | CEventNew => Some RHINO_EVENT_OBJ_TYPE
  | _ => None
  end.
Definition deletes (c : csi_call) : option nat := match c with CSemDel h | CMutexDel h | CEventDel h => h | _ => None end.

(** the blocks of the client after the call *)
Definition csi_after (c : csi_call) (r : cresult) : gmap Z Z :=
  match c, r with
  | CMalloc n, RPtr p => heap_after U (HAlloc n) p
  | CFree p, _ => heap_after U (HFree p) 0
  | CRealloc p n, RPtr q => heap_after U (HRealloc p n) q
  | _, RHandle (Some o) => match makes c with Some ty => <[Z.of_nat o := obj_size ty]> U | None => U end
  | _, RStat (CRet 0) => match deletes c with Some o => delete (Z.of_nat o) U | None => U end
  | _, _ => U
  end.

(** the block a call may write, resize or free *)
Definition touches (c : csi_call) : option Z :=
  match c with CFree p | CRealloc p _ | CWrite p _ _ => Some p | _ => Z.of_nat <$> deletes c end.

(** what a call gives and what it leaves alone *)
Definition csi_gives (c : csi_call) (r : cresult) (s' : csys) : Prop :=
  (forall q n a, U !! q = Some n -> touches c <> Some q -> q <= a < q + n -> h_mem (c_heap s') !! a = h_mem (c_heap s) !! a) /\
  match c, r with
  | CMalloc _, RPtr p => p <> 0 -> U !! p = None
  | _, RHandle (Some o) => U !! Z.of_nat o = None /\ kind (c_kern s) o = None /\ kind (c_kern s') o = makes c /\
      forall q, q <> o -> kind (c_kern s') q = kind (c_kern s) q
  | _, RStat (CRet 0) => match deletes c with
      | Some o => kind (c_kern s') o = None /\ forall q, q <> o -> kind (c_kern s') q = kind (c_kern s) q
      | None => same_kinds (c_kern s) (c_kern s')
      end
  | _, _ => same_kinds (c_kern s) (c_kern s')
  end.
End legal.

(** *** The system is whole *)

Record csi_ok (s : csys) (U : gmap Z Z) : Prop := {
  co_kern : kinv (c_kern s);
  co_heap : heap_ok (in_heap addr len) (c_heap s) U;
  (** an object in the heap has its block *)
  co_objs : forall o ty, kind (c_kern s) o = Some ty -> in_heap addr len (Z.of_nat o) -> U !! Z.of_nat o = Some (obj_size ty)
}.

Inductive csi_reach : csys -> gmap Z Z -> Prop :=
  | csi_start k h : started k -> heap_reach addr len h ∅ ->
      (forall o ty, kind k o = Some ty -> ~ in_heap addr len (Z.of_nat o)) -> csi_reach (mkCsi k h) ∅
  | csi_step s U c r s' : csi_reach s U -> csi_legal s U c -> csi_exec c s = Ok (r, s') -> csi_reach s' (csi_after U c r).
End system.

(** ** Every legal call returns and keeps the system whole *)

Lemma wp_done_inv {A} (m : K A) (Q : kstate -> Prop) s : wp (done_with m) (fun _ s' => Q s') s -> wp m (fun _ s' => Q s') s.
Proof. unfold wp, done_with, mbind, M_bind. by destruct (m s) as [[a s']| |]. Qed.

(** a call of the kernel from a call of the CSI *)
Lemma kcall c {A} (m : K A) k (Q : A -> kstate -> Prop) :
  run c = done_with m -> kinv k -> legal k c -> (forall a k', kinv k' -> Q a k') -> wp m Q k.
Proof.
  intros E Hk Hl HQ. eapply wp_mono; [|apply (wp_done_inv m kinv)]; [intros a k'; apply HQ|]. rewrite <- E. by apply (call_ok k Hk c).
Qed.

Lemma wait_ticks_range t : t < 2 ^ 31 -> 0 <= wait_ticks t < 2 ^ 64.
Proof. intros Ht. unfold wait_ticks, RHINO_WAIT_FOREVER. destruct (Z.ltb_spec t 0); lia. Qed.

Lemma wp_suspend k (Q : Z -> kstate -> Prop) : kinv k ->
  (forall k', kinv k' -> same_kinds k k' -> g_tasks k' = g_tasks k -> Q 0 k') -> wp csi_kernel_sched_suspend Q k.
Proof.
  intros Hk HQ. unfold csi_kernel_sched_suspend. apply wp_bind, wp_gets. rewrite (ki_stat _ Hk), bool_decide_true by done.
  pose proof (wp_done_inv _ _ _ (call_ok k Hk SchedDisable I)) as H1.
  pose proof (wp_follows same_kinds _ _ _ kinds_sched_disable H1) as H2. pose proof (wp_krhino_sched_disable k (ki_wf _ Hk)) as H3.
  apply wp_bind. unfold wp in *. destruct (krhino_sched_disable k) as [[r k']| |]; [|done..].
  apply HQ; [apply H2|apply H2|]. destruct H3 as [_ H3]. by destruct H3.
Qed.

Lemma wp_resume k n (Q : unit -> kstate -> Prop) : kinv k ->
  (forall k', kinv k' -> same_kinds k k' -> Q tt k') -> wp (csi_kernel_sched_resume n) Q k.
Proof.
  intros Hk HQ. unfold csi_kernel_sched_resume. apply wp_bind, wp_gets. rewrite (ki_stat _ Hk), bool_decide_true by done.
  pose proof (wp_done_inv _ _ _ (call_ok k Hk SchedEnable I)) as H1.
  pose proof (wp_follows same_kinds _ _ _ kinds_sched_enable H1) as H2.
  apply wp_bind. eapply wp_mono; [|exact H2]. cbv beta. intros r k' [Hk' Hs]. apply wp_ret. by apply HQ.
Qed.

Lemma kinds_suspend : Follows same_kinds csi_kernel_sched_suspend.
Proof. unfold csi_kernel_sched_suspend. kinds. Qed.
Lemma kinds_resume n : Follows same_kinds (csi_kernel_sched_resume n).
Proof. unfold csi_kernel_sched_resume. kinds. Qed.
#[export] Hint Resolve kinds_suspend kinds_resume : frames.

(** ** The calls with a status *)

Section status.
Context (addr len : Z) (s : csys) (U : gmap Z Z).
Context (Hs : csi_ok addr len s U).
Abbreviation ks := (c_kern s).

Lemma co_k : kinv ks.
Proof using Hs. apply Hs. Qed.

(** what the proof of such a call has to give *)
Definition status_ok {A} (m : K A) : Prop := Follows same_kinds m /\ wp m (fun _ k => kinv k) ks.

Lemma status_ret {A} (a : A) : status_ok (mret a).
Proof using Hs. split; [kinds|]. apply wp_ret. exact co_k. Qed.

Lemma status_call c {A B} (m : K A) (f : A -> B) : Follows same_kinds m -> run c = done_with m -> legal ks c ->
  status_ok (a ← m; mret (f a)).
Proof using Hs.
  intros Hm E Hl. split; [kinds|]. apply wp_bind, (kcall c); [done|exact co_k|done|]. intros a k' Hk'. by apply wp_ret.
Qed.

Lemma status_handle h (k : nat -> K cret) : (forall o, h = Some o -> status_ok (k o)) -> status_ok (HANDLE_CHK h k).
Proof using Hs. intros H. unfold HANDLE_CHK. destruct h as [o|]; [by apply H|apply status_ret]. Qed.

Lemma may_wait t : g_active_task ks <> g_idle_task -> t < 2 ^ 31 -> may_block ks (wait_ticks t).
Proof using. intros Ha Ht. split; [done|]. by apply wait_ticks_range. Qed.

Lemma status_sem_wait h t : csi_legal s U (CSemWait h t) -> status_ok (csi_kernel_sem_wait h t).
Proof using Hs.
  intros (Hh & Ha & Ht). apply status_handle. intros o ->. apply (status_call (SemTake o (wait_ticks t))); [kinds|done|].
  split; [by apply Hh|by apply may_wait].
Qed.

Lemma status_sem_post h : csi_legal s U (CSemPost h) -> status_ok (csi_kernel_sem_post h).
Proof using Hs. intros Hh. apply status_handle. intros o ->. apply (status_call (SemGive o)); [kinds|done|by apply Hh]. Qed.

Lemma status_mutex_lock h t : csi_legal s U (CMutexLock h t) -> status_ok (csi_kernel_mutex_lock h t).
Proof using Hs.
  intros (Hh & Ha & Ht & Hn). apply status_handle. intros o ->. apply (status_call (MutexLock o (wait_ticks t))); [kinds|done|].
  split; [by apply Hh|]. split; [by apply may_wait|]. intros ob. by apply Hn.
Qed.

Lemma status_mutex_unlock h : csi_legal s U (CMutexUnlock h) -> status_ok (csi_kernel_mutex_unlock h).
Proof using Hs. intros Hh. apply status_handle. intros o ->. apply (status_call (MutexUnlock o)); [kinds|done|by apply Hh]. Qed.

(** [krhino_event_set] succeeds on an event only *)
Lemma event_set_type o f ob : g_objs ks !! o = Some ob -> wp (krhino_event_set (Some o) f RHINO_OR)
  (fun r k => r = Ret RHINO_SUCCESS -> kind k o = Some RHINO_EVENT_OBJ_TYPE) ks ->
  status_ok (krhino_event_set (Some o) f RHINO_OR) -> status_ok (csi_kernel_event_set (Some o) f (Some 0%nat)).
Proof using Hs.
  intros Ho Ht [Hf Hk]. split; [unfold csi_kernel_event_set; kinds|]. unfold csi_kernel_event_set. apply wp_bind.
  unfold wp in *. destruct (krhino_event_set _ _ _ _) as [[r k]| |]; [|done..]. case_bool_decide as Hr; [|done].
  specialize (Ht Hr). unfold kind in Ht. destruct (g_objs k !! o) as [ob2|] eqn:Eo; [|done]. injection Ht as Ht.
  destruct (event_body_ok o ob2 k (wf_pre _ (ki_wf _ Hk)) Eo Ht) as (fl & Hfl & _).
  unfold mbind, M_bind, get_obj, gets, lift. cbn. unfold mbind, M_bind. rewrite Eo. cbn. by rewrite Hfl.
Qed.

Lemma status_event_set h f out : csi_legal s U (CEventSet h f out) -> status_ok (csi_kernel_event_set h f out).
Proof using Hs.
  intros [Hh Hf]. destruct h as [o|]; [|apply status_ret]. destruct out as [x|]; [|apply status_ret].
  destruct (Hh o eq_refl) as [ob Ho]. change (Some x) with (Some x). assert (Hok : status_ok (krhino_event_set (Some o) f RHINO_OR)).
  { split; [kinds|]. apply (kcall (EventSet o f RHINO_OR)); [done|exact co_k|by split; [apply Hh|]|done]. }
  apply (event_set_type o f ob Ho); [|exact Hok]. destruct (decide (obj_type ob = RHINO_EVENT_OBJ_TYPE)) as [Hty|Hty].
  - destruct Hok as [Hkd Hk]. eapply wp_mono; [|exact (wp_follows _ _ _ _ Hkd Hk)]. cbv beta. intros r k [_ Hkk] _.
    rewrite (Hkk o). unfold kind. by rewrite Ho, <- Hty.
  - unfold krhino_event_set, NULL_PARA_CHK, event_set, OBJ_TYPE_CHK, wp. cbn. unfold mbind, M_bind, get_obj, gets, lift, mbind, M_bind. cbn.
    rewrite Ho. cbn. by rewrite bool_decide_false.
Qed.

Lemma status_event_wait h f o c out t : csi_legal s U (CEventWait h f o c out t) -> status_ok (csi_kernel_event_wait h f o c out t).
Proof using Hs.
  intros (Hh & Ha & Ht). unfold csi_kernel_event_wait. case_match eqn:E1; [apply status_ret|]. case_match; [apply status_ret|].
  destruct h as [o'|]; [|done]. destruct out as [x|]; [|done]. split; [kinds|]. apply wp_bind.
  apply (kcall (EventGet o' f (event_opt o c) (wait_ticks t))); [done|exact co_k|by split; [apply Hh|apply may_wait]|].
  intros [r fl] k' Hk'. by apply wp_ret.
Qed.

Lemma status_task_new t n p qt st sz out al : csi_legal s U (CTaskNew t n p qt st sz out al) ->
  status_ok (csi_kernel_task_new t n p qt st sz out al).
Proof using Hs.
  intros Hal. unfold csi_kernel_task_new. case_match; [apply status_ret|]. split; [kinds|].
  apply wp_bind, wp_suspend; [exact co_k|]. intros k Hk _ Ht. apply wp_bind.
  apply (kcall (TaskDynCreate out al (Some (default 0%nat n)) (u8 (RHINO_CONFIG_USER_PRI_MAX - p)) qt (sz / 4) t 1)); [done|done| |].
  - split; [intros u Hu; rewrite Ht; by apply Hal|]. unfold u8. by apply Z.mod_pos_bound.
  - intros [r th] k' Hk'. apply wp_bind, wp_resume; [done|]. intros k2 Hk2 _. by apply wp_ret.
Qed.

Lemma status_task_del h : csi_legal s U (CTaskDel h) -> status_ok (csi_kernel_task_del h).
Proof using Hs. intros [Hh Hr]. apply status_handle. intros t ->. apply (status_call (TaskDynDel (Some t))); [kinds|done|by split; [apply Hh|]]. Qed.

Lemma status_task_exit : csi_legal s U CTaskExit -> status_ok csi_kernel_task_exit.
Proof using Hs.
  intros [Ha Hr]. split; [unfold csi_kernel_task_exit, csi_kernel_task_get_cur, csi_kernel_task_del, HANDLE_CHK; kinds|].
  unfold csi_kernel_task_exit, csi_kernel_task_get_cur. apply wp_bind, wp_gets. apply status_task_del. split; [|done]. by intros ? [= <-].
Qed.

Lemma status_task_set_prio h p : csi_legal s U (CTaskSetPrio h p) -> status_ok (csi_kernel_task_set_prio h p).
Proof using Hs.
  intros Hh. unfold csi_kernel_task_set_prio. case_match; [apply status_ret|]. destruct h as [t|]; [|done]. split; [kinds|]. apply wp_bind.
  apply (kcall (TaskPriChange t (u8 (RHINO_CONFIG_USER_PRI_MAX - p)))); [done|exact co_k| |intros [r old] k' Hk'; by apply wp_ret].
  split; [by apply Hh|]. unfold u8. by apply Z.mod_pos_bound.
Qed.

Lemma status_task_suspend h : csi_legal s U (CTaskSuspend h) -> status_ok (csi_kernel_task_suspend h).
Proof using Hs. intros Hh. apply status_handle. intros t ->. apply (status_call (TaskSuspend t)); [kinds|done|by apply Hh]. Qed.

Lemma status_task_resume h : csi_legal s U (CTaskResume h) -> status_ok (csi_kernel_task_resume h).
Proof using Hs. intros Hh. apply status_handle. intros t ->. apply (status_call (TaskResume t)); [kinds|done|by apply Hh]. Qed.

Lemma status_task_yield : csi_legal s U CTaskYield -> status_ok csi_kernel_task_yield.
Proof using Hs. intros Hn. by apply (status_call TaskYield); [kinds|..]. Qed.

Lemma status_delay n : csi_legal s U (CDelay n) -> status_ok (csi_kernel_delay n).
Proof using Hs. intros Hb. by apply (status_call (TaskSleep n)); [kinds|..]. Qed.

Lemma status_delay_ms n : csi_legal s U (CDelayMs n) -> status_ok (csi_kernel_delay_ms n).
Proof using Hs.
  intros [Ha Hn]. unfold csi_kernel_delay_ms. cbv zeta. eapply (status_call (TaskSleep _)); [kinds|reflexivity|]. split; [done|].
  unfold csi_kernel_ms2tick. change RHINO_OS_MS_PERIOD_TICK with 1. rewrite !Z.div_1_r. destruct (Z.ltb_spec n 1), (Z.eqb_spec n 0); cbn [andb negb];
    [destruct (Z.ltb_spec n 1)|destruct (Z.ltb_spec 1 1)|destruct (Z.ltb_spec n 1)..]; lia.
Qed.

Lemma status_intrpt_enter : csi_legal s U CIntrptEnter -> status_ok csi_kernel_intrpt_enter.
Proof using Hs. intros Hn. by apply (status_call IntrptEnter); [kinds|..]. Qed.

Lemma status_intrpt_exit : csi_legal s U CIntrptExit -> status_ok csi_kernel_intrpt_exit.
Proof using Hs.
  intros Hn. split; [unfold csi_kernel_intrpt_exit; kinds|]. apply wp_bind. eapply wp_mono; [|exact (call_ok ks co_k IntrptExit Hn)].
  intros [] k Hk. by apply wp_ret.
Qed.

Lemma status_tick : csi_legal s U CTick -> status_ok krhino_tick_proc.
Proof using Hs.
  intros Hn. split; [kinds|]. eapply wp_mono; [|exact (call_ok ks co_k TickProc Hn)]. by intros [] k Hk.
Qed.

(** ** The same in the system *)

Lemma wp_status {A} (m : K A) f c (Q : cresult -> csys -> Prop) : status_ok m -> csi_exec addr c = stat_of m f ->
  (forall x k, kinv k -> same_kinds ks k -> Q (RStat x) (mkCsi k (c_heap s))) -> wp (csi_exec addr c) Q s.
Proof using.
  intros [Hf Hk] -> HQ. apply wp_bind, wp_kern. eapply wp_mono; [|exact (wp_follows _ _ _ _ Hf Hk)]. cbv beta.
  intros a k [Hk' Hs']. apply wp_ret. by apply HQ.
Qed.

(** the kernel has changed, but not its objects *)
Lemma csi_ok_same k : kinv k -> same_kinds ks k -> csi_ok addr len (mkCsi k (c_heap s)) U.
Proof using Hs. intros Hk Hsk. destruct Hs as [_ H2 H3]. split; [done|done|]. intros o ty. cbn. rewrite Hsk. apply H3. Qed.

Definition call_post (c : csi_call) (r : cresult) (s' : csys) : Prop :=
  csi_ok addr len s' (csi_after U c r) /\ csi_gives s U c r s'.

Lemma post_status c x k : makes c = None -> deletes c = None -> match c with CMalloc _ | CFree _ | CRealloc _ _ | CWrite _ _ _ => False | _ => True end ->
  kinv k -> same_kinds ks k -> call_post c (RStat x) (mkCsi k (c_heap s)).
Proof using Hs.
  intros Hm Hd Hc Hk Hsk. assert (HU : csi_after U c (RStat x) = U).
  { unfold csi_after. rewrite Hd. destruct c; try done; destruct x as [[]|]; done. }
  split; [rewrite HU; by apply csi_ok_same|]. split; [done|]. rewrite Hd. destruct c; try done; destruct x as [[]|]; done.
Qed.

Lemma wp_status_call {A} (m : K A) f c : status_ok m -> csi_exec addr c = stat_of m f -> makes c = None -> deletes c = None ->
  match c with CMalloc _ | CFree _ | CRealloc _ _ | CWrite _ _ _ => False | _ => True end -> wp (csi_exec addr c) (call_post c) s.
Proof using Hs. intros Hm E H1 H2 H3. apply (wp_status m f); [done|done|]. intros x k Hk Hsk. by apply post_status. Qed.
End status.

(** ** Objects *)

Section objects.
Context (addr len : Z) (s : csys) (U : gmap Z Z).
Context (Haddr : 0 < addr) (Hs : csi_ok addr len s U).
Abbreviation ks := (c_kern s).
Abbreviation hs := (c_heap s).

Lemma heap_run c : heap_legal U c -> wp (heap_exec (init_addr addr) c) (heap_post (in_heap addr len) hs U c) hs.
Proof using Haddr Hs. intros Hc. apply heap_call_ok; [by apply init_addr_pos|apply Hs|done]. Qed.

(** the words of the other blocks *)
Lemma spared (c : heap_call) r t h' : heap_post (in_heap addr len) hs U c r h' ->
  match c with HAlloc _ => True | HFree p | HRealloc p _ | HWrite p _ _ => t = Some p end -> heap_legal U c ->
  forall q n a, U !! q = Some n -> t <> Some q -> q <= a < q + n -> h_mem h' !! a = h_mem hs !! a.
Proof using Hs.
  intros (_ & _ & Hsp & _) Ht Hl q n a Hq Hne Ha. apply Hsp. exists q, n. split_and!; [done|lia|lia|].
  destruct c as [m|p|p m|p i v]; [done| | |]; subst t; [congruence|right; congruence|].
  destruct Hl as (k & Hp & Hi & Hi2 & _). intros ->. assert (Hpq : p <> q) by congruence.
  destruct (heap_apart _ _ _ _ _ _ _ (co_heap _ _ _ _ Hs) Hp Hq Hpq); lia.
Qed.

(** a block the record does not have holds no object *)
Lemma no_object p : in_heap addr len p -> 0 < p -> U !! p = None -> kind ks (Z.to_nat p) = None.
Proof using Hs.
  intros Hin Hp HU. destruct (kind ks (Z.to_nat p)) as [ty|] eqn:E; [|done].
  pose proof (co_objs _ _ _ _ Hs _ _ E) as H. rewrite Z2Nat.id in H by lia. rewrite H in HU by done. done.
Qed.

(** a new block *)
Lemma new_block h' n r : heap_post (in_heap addr len) hs U (HAlloc n) r h' -> r <> 0 -> 1 < n ->
  0 < r /\ U !! r = None /\ kind ks (Z.to_nat r) = None /\ heap_ok (in_heap addr len) h' (<[r := n]> U).
Proof using Hs.
  intros (Hok & Hg & _) Hr Hn. cbn [heap_after] in Hok. rewrite (proj2 (Z.eqb_neq r 0)) in Hok by done. destruct (Hg Hr) as [_ HU].
  destruct (heap_block _ _ _ r n Hok ltac:(by rewrite lookup_insert_eq)) as (Hp & _ & _ & Hin & _).
  split_and!; [done|done| |done]. apply no_object; [apply Hin; lia|done|done].
Qed.

(** what the creation of an object does in the kernel *)
Definition makes_obj (ty : kobj_type_t) (create : option nat -> K kret) : Prop :=
  forall o, kind ks o = None -> wp (create (Some o)) (fun r k => r = Ret RHINO_SUCCESS /\ kinv k /\ kind k o = Some ty /\
    forall q, q <> o -> kind k q = kind ks q) ks.

Lemma wp_object_new c ty create : makes c = Some ty -> deletes c = None -> 1 < obj_size ty <= 0xFC000000 -> makes_obj ty create ->
  wp (h ← object_new (init_addr addr) (obj_size ty) create; mret (RHandle h)) (call_post addr len s U c) s.
Proof using Haddr Hs.
  intros Hm Hd Hsz Hc. assert (Hnc : match c with CMalloc _ | CFree _ | CRealloc _ _ => False | _ => True end) by by destruct c.
  assert (HL : heap_legal U (HAlloc (obj_size ty))) by (right; lia).
  apply wp_bind. unfold object_new. apply wp_bind, wp_heap. eapply wp_mono; [|exact (heap_run _ HL)].
  cbv beta. intros r h' Hp. destruct (Z.eqb_spec r 0) as [->|Hr].
  - apply wp_ret, wp_ret. split.
    + replace (csi_after U c (RHandle None)) with U by (destruct c; done). split; [apply Hs|apply Hp|apply Hs].
    + split; [exact (spared _ _ (touches c) _ Hp I HL)|]. by destruct c.
  - destruct (new_block _ _ _ Hp Hr) as (Hr0 & HU & Hk0 & Hok); [lia|]. apply wp_bind, wp_kern. cbn [c_kern c_heap].
    eapply wp_mono; [|exact (Hc _ Hk0)]. cbv beta. intros kr k (-> & Hk & Hko & Hkq). rewrite bool_decide_true by done. apply wp_ret, wp_ret.
    split.
    + assert (HE : csi_after U c (RHandle (Some (Z.to_nat r))) = <[r := obj_size ty]> U).
      { unfold csi_after. rewrite Hm, Z2Nat.id by lia. by destruct c. }
      rewrite HE. split; [done|done|]. intros o ty' Ho Hin. cbn in Ho. destruct (decide (o = Z.to_nat r)) as [->|Hne].
      * rewrite Z2Nat.id by lia. rewrite lookup_insert_eq. congruence.
      * rewrite lookup_insert_ne by lia. rewrite Hkq in Ho by done. by apply (co_objs _ _ _ _ Hs).
    + split; [exact (spared _ _ (touches c) _ Hp I HL)|].
      assert (HG : U !! Z.of_nat (Z.to_nat r) = None /\ kind ks (Z.to_nat r) = None /\ kind k (Z.to_nat r) = makes c /\
        forall q, q <> Z.to_nat r -> kind k q = kind ks q) by (rewrite Z2Nat.id, Hm by lia; done).
      by destruct c.
Qed.

Lemma kind_new o ob k q : kind (set_g_objs (<[o := ob]> (g_objs k)) k) q = if decide (q = o) then Some (obj_type ob) else kind k q.
Proof using. unfold kind. cbn. case_decide as H; [subst; by rewrite lookup_insert_eq|by rewrite lookup_insert_ne]. Qed.

Lemma makes_call ty create (kc : nat -> call) ob k' : (forall o, run (kc o) = done_with (create (Some o))) ->
  (forall o, kind ks o = None -> legal ks (kc o)) ->
  (forall o, create (Some o) ks = Ok (Ret RHINO_SUCCESS, set_g_kobj_list (k' o) (set_g_objs (<[o := ob]> (g_objs ks)) ks))) ->
  obj_type ob = ty ->
  makes_obj ty create.
Proof using Hs.
  intros Hrun Hl Hc Hty o Ho. assert (Hk : wp (create (Some o)) (fun _ k => kinv k) ks).
  { apply (kcall (kc o)); [done|apply Hs|by apply Hl|done]. }
  unfold wp in *. rewrite Hc in *. split_and!; [done|done| |].
  - unfold kind. cbn. by rewrite lookup_insert_eq, <- Hty.
  - intros q Hq. unfold kind. cbn. by rewrite lookup_insert_ne.
Qed.

Lemma kind_fresh o : kind ks o = None -> fresh_obj ks o.
Proof using. unfold kind, fresh_obj. destruct (g_objs ks !! o); [done|]. by intros _ ob. Qed.

Lemma sem_create_eq o n v k : krhino_sem_create (Some o) (Some n) v k = Ok (Ret RHINO_SUCCESS,
  set_g_kobj_list (set_sem_head (sem_head (g_kobj_list k) ++ [o]) (g_kobj_list k))
    (set_g_objs (<[o := mkObj [] BLK_POLICY_PRI RHINO_SEM_OBJ_TYPE K_OBJ_STATIC_ALLOC (KSem v v)]> (g_objs k)) k)).
Proof using. reflexivity. Qed.

Lemma mutex_create_eq o n k : krhino_mutex_create (Some o) (Some n) k = Ok (Ret RHINO_SUCCESS,
  set_g_kobj_list (set_mutex_head (mutex_head (g_kobj_list k) ++ [o]) (g_kobj_list k))
    (set_g_objs (<[o := mkObj [] BLK_POLICY_PRI RHINO_MUTEX_OBJ_TYPE K_OBJ_STATIC_ALLOC (KMutex None 0)]> (g_objs k)) k)).
Proof using. reflexivity. Qed.

Lemma event_create_eq o n f k : krhino_event_create (Some o) (Some n) f k = Ok (Ret RHINO_SUCCESS,
  set_g_kobj_list (set_event_head (event_head (g_kobj_list k) ++ [o]) (g_kobj_list k))
    (set_g_objs (<[o := mkObj [] BLK_POLICY_PRI RHINO_EVENT_OBJ_TYPE K_OBJ_STATIC_ALLOC (KEvent f)]> (g_objs k)) k)).
Proof using. reflexivity. Qed.

Lemma makes_sem v : makes_obj RHINO_SEM_OBJ_TYPE (fun h => krhino_sem_create h (Some 0%nat) (u32 v)).
Proof using Hs.
  eapply (makes_call _ _ (fun o => SemCreate (Some o) (Some 0%nat) (u32 v))); [done| |intros o; apply sem_create_eq|done].
  intros o Ho. split; [intros m [= <-]; by apply kind_fresh|]. unfold u32. by apply Z.mod_pos_bound.
Qed.

Lemma makes_mutex : makes_obj RHINO_MUTEX_OBJ_TYPE (fun h => krhino_mutex_create h (Some 0%nat)).
Proof using Hs.
  eapply (makes_call _ _ (fun o => MutexCreate (Some o) (Some 0%nat))); [done| |intros o; apply mutex_create_eq|done].
  intros o Ho m [= <-]. by apply kind_fresh.
Qed.

Lemma makes_event : makes_obj RHINO_EVENT_OBJ_TYPE (fun h => krhino_event_create h (Some 0%nat) 0).
Proof using Hs.
  eapply (makes_call _ _ (fun o => EventCreate (Some o) (Some 0%nat) 0)); [done| |intros o; apply event_create_eq|done].
  intros o Ho. split; [intros m [= <-]; by apply kind_fresh|lia].
Qed.

Lemma kinv_free k o : kinv k -> kind k o = Some RHINO_OBJ_TYPE_NONE -> kinv (set_g_objs (delete o (g_objs k)) k).
Proof using.
  intros [Hwf Hl Hst Hsp] Ho. unfold kind in Ho. destruct (g_objs k !! o) as [ob|] eqn:E; [|done]. injection Ho as Ho.
  split; [by eapply wf_free|done..].
Qed.

Lemma wp_object_del c o del kc : touches c = Some (Z.of_nat o) -> deletes c = Some o -> makes c = None ->
  own_obj s U (Some o) -> Removes o (del (Some o)) -> run kc = done_with (del (Some o)) -> legal ks kc ->
  wp (r ← object_del (init_addr addr) (Some o) del; mret (RStat r)) (call_post addr len s U c) s.
Proof using Haddr Hs.
  intros Ht Hd Hm Hown Hrm Hrun Hl. destruct (Hown o eq_refl) as [_ HUo]. unfold object_del. apply wp_bind, wp_bind, wp_kern.
  assert (Hk : wp (del (Some o)) (fun _ k => kinv k) ks) by (apply (kcall kc); [done|apply Hs|done|done]).
  assert (Hnc : match c with CSemDel _ | CMutexDel _ | CEventDel _ => True | _ => False end) by by destruct c.
  specialize (Hrm ks). unfold wp in Hk |- *. destruct (del (Some o) ks) as [[r k]| |]; [|done..].
  case_bool_decide as Hr.
  - destruct Hrm as [Hno Hoth]. subst r. apply wp_bind, wp_bind, wp_kern, wp_modify. cbn [c_kern c_heap].
    assert (HL : heap_legal U (HFree (Z.of_nat o))) by by right. apply wp_heap. cbn [c_kern c_heap].
    pose proof (heap_run _ HL) as HF. cbn [heap_exec] in HF. unfold wp, mbind, M_bind in HF |- *.
    destruct (krhino_mm_free _ _ hs) as [[[] h']| |]; [|done..]. cbn in HF. cbn.
    assert (Hkd : forall q, kind (set_g_objs (delete o (g_objs k)) k) q = if decide (q = o) then None else kind ks q).
    { intros q. unfold kind at 1. cbn. case_decide as Hq; [subst; by rewrite lookup_delete_eq|].
      rewrite lookup_delete_ne by done. exact (Hoth q Hq). }
    split.
    + assert (HE : csi_after U c (RStat (CRet 0)) = delete (Z.of_nat o) U).
      { unfold csi_after. rewrite Hd. by destruct c. }
      rewrite HE. split; [by apply kinv_free|apply HF|]. cbn [c_kern]. intros q ty. rewrite Hkd. case_decide as Hq; [done|]. intros H1 H2.
      rewrite lookup_delete_ne by lia. by apply (co_objs _ _ _ _ Hs).
    + split; [rewrite Ht; exact (spared _ _ _ _ HF eq_refl HL)|].
      assert (HG : kind (set_g_objs (delete o (g_objs k)) k) o = None /\
        forall q, q <> o -> kind (set_g_objs (delete o (g_objs k)) k) q = kind ks q).
      { split; [rewrite Hkd; by rewrite decide_True|]. intros q Hq. rewrite Hkd. by rewrite decide_False. }
      destruct c; try done; cbn [deletes] in Hd |- *; by rewrite Hd.
  - subst k. cbn. change (mkCsi (c_kern s) (c_heap s)) with (mkCsi ks hs).
    assert (HE : csi_after U c (RStat (status r)) = U /\ csi_gives s U c (RStat (status r)) (mkCsi ks hs)).
    { unfold csi_after, csi_gives. rewrite Hd. destruct r as [st|]; [destruct st; try done|]; (split; [by destruct c|split; [done|by destruct c]]). }
    destruct HE as [HE1 HE2]. split; [rewrite HE1; destruct Hs; by split|done].
Qed.

(** ** Memory *)

(** a call of the heap on memory of the client *)
Lemma csi_ok_heap c r h' k : heap_post (in_heap addr len) hs U c r h' -> kinv k -> same_kinds ks k ->
  match c with
  | HAlloc n | HRealloc _ n => n = 0 -> r = 0
  | _ => True
  end ->
  match c with HFree p | HRealloc p _ => p = 0 \/ kind ks (Z.to_nat p) = None | _ => True end ->
  csi_ok addr len (mkCsi k h') (heap_after U c r).
Proof using Hs.
  intros (Hok & Hg & _) Hk Hsk Hn Hp. split; [done|done|]. cbn [c_kern]. intros o ty Ho Hin. rewrite Hsk in Ho.
  pose proof (co_objs _ _ _ _ Hs _ _ Ho Hin) as HU. destruct (heap_block _ _ _ _ _ (co_heap _ _ _ _ Hs) HU) as (H0 & _).
  assert (Hne : forall p, p = 0 \/ kind ks (Z.to_nat p) = None -> p <> Z.of_nat o).
  { intros p [->|Hp0]; [lia|]. intros ->. rewrite Nat2Z.id in Hp0. congruence. }
  destruct c as [n|p|p n|p i v]; cbn [heap_after heap_gives] in *.
  - destruct (Z.eqb_spec r 0) as [->|Hr]; [done|]. rewrite lookup_insert_ne; [done|]. intros ->. destruct (Hg Hr) as [_ ?]. congruence.
  - rewrite lookup_delete_ne by by apply Hne. done.
  - destruct (Z.eqb_spec n 0); [rewrite lookup_delete_ne by (by apply Hne); done|].
    destruct (Z.eqb_spec r 0) as [->|Hr]; [done|]. destruct (Hg Hr) as (_ & Hrp & _).
    rewrite lookup_insert_ne; [rewrite lookup_delete_ne by (by apply Hne); done|]. intros ->. destruct Hrp as [Hrp|Hrp]; [|congruence].
    by apply (Hne p Hp).
  - done.
Qed.

Lemma wp_csi_malloc n : csi_legal s U (CMalloc n) -> wp (csi_exec addr (CMalloc n)) (call_post addr len s U (CMalloc n)) s.
Proof using Haddr Hs.
  intros [Hn1 Hn]. cbn [csi_exec]. unfold csi_kernel_malloc. apply wp_bind. destruct (Z.ltb_spec n 1) as [Hlt|Hge].
  { apply wp_ret, wp_ret. split; [exact Hs|]. by split. }
  assert (HL : heap_legal U (HAlloc n)) by (right; lia).
  apply wp_bind, wp_kern, wp_suspend; [apply Hs|]. intros k Hk Hsk _. apply wp_bind, wp_heap. cbn [c_kern c_heap].
  eapply wp_mono; [|exact (heap_run _ HL)]. cbv beta. intros r h' Hp. apply wp_bind, wp_kern, wp_resume; [done|]. cbn [c_kern c_heap].
  intros k2 Hk2 Hsk2. apply wp_ret, wp_ret. split.
  - apply (csi_ok_heap _ _ _ _ Hp); [done|by etrans|lia|done].
  - split; [exact (spared _ _ None _ Hp I HL)|]. cbn. intros Hr. by apply Hp.
Qed.

Lemma own_heap p : p = 0 \/ own_block s U p -> (p = 0 \/ is_Some (U !! p)) /\ (p = 0 \/ kind ks (Z.to_nat p) = None).
Proof using. intros [->|[? ?]]; [by split; left|by split; right]. Qed.

Lemma wp_csi_free p : csi_legal s U (CFree p) -> wp (csi_exec addr (CFree p)) (call_post addr len s U (CFree p)) s.
Proof using Haddr Hs.
  intros [HL Hko]%own_heap. cbn [csi_exec]. unfold csi_kernel_free.
  apply wp_bind, wp_bind, wp_kern, wp_suspend; [apply Hs|]. intros k Hk Hsk _. apply wp_bind, wp_heap. cbn [c_kern c_heap].
  pose proof (heap_run (HFree p) HL) as HF. cbn [heap_exec] in HF. unfold wp, mbind, M_bind in HF |- *.
  destruct (krhino_mm_free _ _ hs) as [[[] h']| |]; [|done..]. cbn in HF. apply wp_kern. cbn [c_kern c_heap].
  apply wp_resume; [done|]. intros k2 Hk2 Hsk2. cbn. split.
  - apply (csi_ok_heap (HFree p) 0 _ _ HF); [done|by etrans|done|done].
  - split; [exact (spared (HFree p) 0 _ _ HF eq_refl HL)|]. cbn. by etrans.
Qed.

Lemma wp_csi_realloc p n : csi_legal s U (CRealloc p n) -> wp (csi_exec addr (CRealloc p n)) (call_post addr len s U (CRealloc p n)) s.
Proof using Haddr Hs.
  intros [[HL Hko]%own_heap Hn]. cbn [csi_exec]. unfold csi_kernel_realloc. rewrite u32_small by lia.
  assert (HL2 : heap_legal U (HRealloc p n)) by (split; [done|destruct Hn; [by left|right; lia]]).
  apply wp_bind, wp_heap. eapply wp_mono; [|exact (heap_run _ HL2)]. cbv beta. intros r h' Hp. apply wp_ret. split.
  - apply (csi_ok_heap (HRealloc p n) r _ _ Hp); [apply Hs|done| |done]. intros Hn0. destruct (decide (r = 0)) as [?|Hr]; [done|].
    destruct Hp as (_ & Hg & _). destruct (Hg Hr) as [? _]. done.
  - split; [exact (spared (HRealloc p n) r _ _ Hp eq_refl HL2)|]. done.
Qed.

Lemma wp_csi_write p i v : csi_legal s U (CWrite p i v) -> wp (csi_exec addr (CWrite p i v)) (call_post addr len s U (CWrite p i v)) s.
Proof using Haddr Hs.
  intros [[HUp Hko] HL]. cbn [csi_exec]. apply wp_bind, wp_heap. pose proof (heap_run (HWrite p i v) HL) as HF. cbn [heap_exec] in HF.
  unfold wp, mbind, M_bind in HF |- *. destruct (st (p + i) v hs) as [[[] h']| |]; [|done..]. cbn in HF. cbn. split.
  - apply (csi_ok_heap (HWrite p i v) 0 _ _ HF); [apply Hs|done..].
  - split; [exact (spared (HWrite p i v) 0 _ _ HF eq_refl HL)|]. done.
Qed.

(** ** All calls *)

#[local] Ltac status_call H := eapply wp_status_call; [eassumption|eapply H; eassumption|done..].

Lemma csi_call_ok c : csi_legal s U c -> wp (csi_exec addr c) (call_post addr len s U c) s.
Proof using Haddr Hs.
  destruct c as [mx v| | |h|h|h|h t|h|h t|h|h f out|h f o cl out t|t n p q st sz out al|h| |h p|h|h| |n|n|n|p|p n|p i v| | |]; intros Hl.
  - cbn [csi_exec]. unfold csi_kernel_sem_new. destruct (_ || _); [|destruct (mx <? v)].
    + apply wp_bind, wp_ret, wp_ret. by split.
    + apply wp_bind, wp_ret, wp_ret. by split.
    + by apply (wp_object_new (CSemNew mx v) RHINO_SEM_OBJ_TYPE), makes_sem.
  - by apply (wp_object_new CMutexNew RHINO_MUTEX_OBJ_TYPE), makes_mutex.
  - by apply (wp_object_new CEventNew RHINO_EVENT_OBJ_TYPE), makes_event.
  - destruct h as [o|]; [|by apply wp_bind, wp_ret, wp_ret].
    apply (wp_object_del (CSemDel (Some o)) o _ (SemDel o)); try done; [apply removes_sem|by apply (Hl o)].
  - destruct h as [o|]; [|by apply wp_bind, wp_ret, wp_ret].
    apply (wp_object_del (CMutexDel (Some o)) o _ (MutexDel o)); try done; [apply removes_mutex|by apply (Hl o)].
  - destruct h as [o|]; [|by apply wp_bind, wp_ret, wp_ret].
    apply (wp_object_del (CEventDel (Some o)) o _ (EventDel o)); try done; [apply removes_event|by apply (Hl o)].
  - status_call status_sem_wait.
  - status_call status_sem_post.
  - status_call status_mutex_lock.
  - status_call status_mutex_unlock.
  - status_call status_event_set.
  - status_call status_event_wait.
  - status_call status_task_new.
  - status_call status_task_del.
  - status_call status_task_exit.
  - status_call status_task_set_prio.
  - status_call status_task_suspend.
  - status_call status_task_resume.
  - status_call status_task_yield.
  - status_call status_delay.
  - status_call status_delay_ms.
  - by apply wp_csi_malloc.
  - by apply wp_csi_free.
  - by apply wp_csi_realloc.
  - by apply wp_csi_write.
  - status_call status_intrpt_enter.
  - status_call status_intrpt_exit.
  - status_call status_tick.
Qed.
End objects.

(** ** Histories *)

Lemma csi_reach_ok addr len s U : csi_reach addr len s U -> csi_ok addr len s U /\ 0 < addr.
Proof.
  induction 1 as [k h Hk Hh Hout|s U c r s' Hr [IH Ha] Hc E].
  - destruct (heap_reach_ok _ _ _ _ Hh) as [Hok Ha]. split; [|done]. split; [by apply started_ok|done|]. intros o ty Ho Hin.
    by destruct (Hout _ _ Ho).
  - split; [|done]. pose proof (csi_call_ok addr len s U Ha IH c Hc) as Hw. unfold wp in Hw. rewrite E in Hw. apply Hw.
Qed.

Lemma csi_progress addr len s U c : csi_reach addr len s U -> csi_legal s U c -> exists r s',
  csi_exec addr c s = Ok (r, s') /\ csi_reach addr len s' (csi_after U c r) /\ csi_gives s U c r s'.
Proof.
  intros Hr Hc. destruct (csi_reach_ok _ _ _ _ Hr) as [Hok Ha]. pose proof (csi_call_ok addr len s U Ha Hok c Hc) as Hw.
  unfold wp in Hw. destruct (csi_exec addr c s) as [[r s']| |] eqn:E; [|done..]. exists r, s'. split; [done|]. split; [|apply Hw].
  by eapply csi_step.
Qed.

(** ** Tasks *)

(** the numbers of the CSI go up with the priority, those of the kernel down *)
Lemma csi_prio_range p : 0 < p <= KPRIO_REALTIME7 ->
  u8 (RHINO_CONFIG_USER_PRI_MAX - p) = RHINO_CONFIG_USER_PRI_MAX - p /\ 12 <= RHINO_CONFIG_USER_PRI_MAX - p < RHINO_CONFIG_USER_PRI_MAX.
Proof. unfold KPRIO_REALTIME7, RHINO_CONFIG_USER_PRI_MAX, RHINO_CONFIG_PRI_MAX. intros Hp. rewrite u8_small by lia. lia. Qed.

Lemma wp_get_prio t tk s (Q : Z -> kstate -> Prop) : g_tasks s !! t = Some tk -> 0 <= prio tk <= RHINO_CONFIG_USER_PRI_MAX ->
  Q (RHINO_CONFIG_USER_PRI_MAX - prio tk) s -> wp (csi_kernel_task_get_prio (Some t)) Q s.
Proof.
  intros Ht Hp HQ. unfold csi_kernel_task_get_prio, get_task, wp, mbind, M_bind, gets, lift. cbn. rewrite Ht. cbn.
  rewrite (proj2 (Z.leb_le _ _)) by lia. unfold RHINO_CONFIG_USER_PRI_MAX, RHINO_CONFIG_PRI_MAX in *. by rewrite u8_small by lia.
Qed.

(** the priority of a task after its base priority was changed *)
Lemma changed_prio s s' t tk pri : wf s' -> is_live tk = true -> g_tasks s !! t = Some tk ->
  prio_change (<[t := set_b_prio pri tk]> (g_tasks s)) (g_tasks s') ->
  exists tk', g_tasks s' !! t = Some tk' /\ 0 <= prio tk' /\
    is_inh (waits (g_tasks s')) (prioV (g_tasks s')) (prio tk') pri (mutex_list tk).
Proof.
  intros Hwf Hl Ht Hc. specialize (Hc t). rewrite lookup_insert_eq in Hc. destruct (g_tasks s' !! t) as [tk'|] eqn:Et; [|done].
  destruct Hc as [x ->]. exists (set_prio x (set_b_prio pri tk)). split; [done|].
  pose proof (kmid_task _ _ _ (kp_mid _ (wf_pre _ Hwf)) Et) as Hok. pose proof (kp_pi _ (kp_mid _ (wf_pre _ Hwf)) t) as Hpi.
  unfold live, prioV at 2, bprioV, held in Hpi. rewrite !(tview_lookup _ _ _ _ _ Et) in Hpi. specialize (Hpi Hl).
  unfold held_of in Hpi. change (is_live (set_prio x (set_b_prio pri tk))) with (is_live tk) in Hpi. rewrite Hl in Hpi.
  cbn [prio b_prio set_prio set_b_prio mutex_list] in *. split; [apply Hok|done].
Qed.

(** the priority the interface shows for a task *)
Definition shown_prio (T : gmap nat ktask) (u : nat) : Z := RHINO_CONFIG_USER_PRI_MAX - prioV T u.

(** [q] is [p], or what a task that waits for one of the mutexes [ms] lends,
    and no task that waits for one of them has more *)
Definition lent_prio (T : gmap nat ktask) (ms : list nat) (p q : Z) : Prop :=
  p <= q /\ (forall m u, m ∈ ms -> waits T u = Some m -> shown_prio T u <= q) /\
  (q = p \/ exists m u, m ∈ ms /\ waits T u = Some m /\ q = shown_prio T u).

Lemma inh_lent T ms p x : is_inh (waits T) (prioV T) x (RHINO_CONFIG_USER_PRI_MAX - p) ms ->
  lent_prio T ms p (RHINO_CONFIG_USER_PRI_MAX - x).
Proof.
  intros [H1 H2 H3]. split; [lia|]. split.
  - intros m u Hm Hu. specialize (H2 m u Hm Hu). unfold shown_prio. lia.
  - destruct H3 as [->|(m & u & Hm & Hu & ->)]; [left; lia|right; by exists m, u].
Qed.

(** the calls that change nothing *)
Lemma pri_change_idle s t tk pri : g_tasks s !! t = Some tk -> RHINO_IDLE_PRI <= prio tk ->
  krhino_task_pri_change (Some t) pri (Some 0%nat) s = Ok ((Ret RHINO_PRI_CHG_NOT_ALLOWED, None), s).
Proof.
  intros Ht Hp. unfold krhino_task_pri_change, NULL_PARA_CHK, mbind, M_bind, get_task, gets, lift. cbn. unfold mbind, M_bind. rewrite Ht. cbn.
  by rewrite (proj2 (Z.leb_le _ _) Hp).
Qed.

Lemma pri_change_intrpt s t tk pri : g_tasks s !! t = Some tk -> prio tk < RHINO_IDLE_PRI -> pri < RHINO_IDLE_PRI -> is_live tk = true ->
  0 < g_intrpt_nested_level s -> krhino_task_pri_change (Some t) pri (Some 0%nat) s = Ok ((Ret RHINO_NOT_CALLED_BY_INTRPT, None), s).
Proof.
  intros Ht Hp1 Hp2 Hl Hn. unfold krhino_task_pri_change, NULL_PARA_CHK, mbind, M_bind, get_task, gets, lift. cbn. unfold mbind, M_bind. rewrite Ht. cbn.
  rewrite (proj2 (Z.leb_gt _ _) Hp1), (proj2 (Z.leb_gt _ _) Hp2), bool_decide_false by (intros E; unfold is_live in Hl; by rewrite E in Hl).
  unfold INTRPT_NESTED_LEVEL_CHK, mbind, M_bind, gets. by rewrite (proj2 (Z.ltb_lt _ _) Hn).
Qed.

Lemma wp_get_prio_any t tk s (Q : Z -> kstate -> Prop) : g_tasks s !! t = Some tk -> (forall q, Q q s) -> wp (csi_kernel_task_get_prio (Some t)) Q s.
Proof. intros Ht HQ. unfold csi_kernel_task_get_prio, get_task, wp, mbind, M_bind, gets, lift. cbn. rewrite Ht. apply HQ. Qed.

Lemma wp_set_get_prio s t tk p : wf s -> g_tasks s !! t = Some tk -> is_live tk = true ->
  wp (r ← csi_kernel_task_set_prio (Some t) p; q ← csi_kernel_task_get_prio (Some t); mret (r, q)) (fun '(r, q) s' =>
    wf s' /\
    if (0 <? p) && (p <=? KPRIO_REALTIME7) && (g_intrpt_nested_level s <=? 0) && (prio tk <? RHINO_IDLE_PRI)
    then r = CRet 0 /\ lent_prio (g_tasks s') (mutex_list tk) p q
    else (r = CRet (- EINVAL) \/ r = CRet (- EPERM)) /\ s' = s) s.
Proof.
  intros Hwf Ht Hl. unfold csi_kernel_task_set_prio. unfold KPRIO_IDLE. rewrite bool_decide_false by done. cbn [orb].
  assert (Hsame : forall (b : bool) r, b = false -> r = CRet (- EINVAL) \/ r = CRet (- EPERM) ->
    wp (q ← csi_kernel_task_get_prio (Some t); mret (r, q)) (fun '(r, q) s' => wf s' /\
      if b then r = CRet 0 /\ lent_prio (g_tasks s') (mutex_list tk) p q else (r = CRet (- EINVAL) \/ r = CRet (- EPERM)) /\ s' = s) s).
  { intros b r -> Hr. apply wp_bind. eapply wp_get_prio_any; [exact Ht|]. intros q. by apply wp_ret. }
  destruct (Z.leb_spec p 0) as [Hp|Hp].
  { apply wp_bind, wp_ret, Hsame; [|by left]. by rewrite (proj2 (Z.ltb_ge 0 p)) by lia. }
  rewrite (proj2 (Z.ltb_lt 0 p)) by lia. cbn [orb andb]. destruct (Z.ltb_spec KPRIO_REALTIME7 p) as [Hp2|Hp2].
  { apply wp_bind, wp_ret, Hsame; [|by left]. by rewrite (proj2 (Z.leb_gt p _)) by lia. }
  destruct (csi_prio_range p ltac:(lia)) as [Eu Hr]. rewrite Eu, (proj2 (Z.leb_le p _)) by lia. cbn [andb]. apply wp_bind, wp_bind.
  set (pri := RHINO_CONFIG_USER_PRI_MAX - p) in *. change RHINO_CONFIG_USER_PRI_MAX with 60 in Hr.
  assert (Hpri : pri < RHINO_IDLE_PRI) by (change RHINO_IDLE_PRI with 61; lia).
  destruct (Z.ltb_spec (prio tk) RHINO_IDLE_PRI) as [Hi|Hi].
  2: { unfold wp at 1. rewrite (pri_change_idle _ _ _ _ Ht Hi). apply wp_ret, Hsame; [by rewrite andb_false_r|by right]. }
  rewrite andb_true_r. destruct (Z.leb_spec (g_intrpt_nested_level s) 0) as [Hn|Hn].
  2: { unfold wp at 1. rewrite (pri_change_intrpt _ _ _ _ Ht Hi Hpri Hl Hn). apply wp_ret, (Hsame false); [done|by right]. }
  eapply wp_mono; [|apply (wp_krhino_task_pri_change s t tk pri); [done|done|lia]]. cbv beta. intros [kr old] s' [Hwf' Hspec].
  apply wp_ret. assert (Hc : kr = Ret RHINO_SUCCESS /\ prio_change (<[t := set_b_prio pri tk]> (g_tasks s)) (g_tasks s')).
  { inversion Hspec; subst; [lia|by unfold is_live in Hl; case_match|lia|done]. }
  destruct Hc as [-> Hc]. destruct (changed_prio _ _ _ _ _ Hwf' Hl Ht Hc) as (tk' & Et & Hx & Hinh).
  pose proof (in_base _ _ _ _ _ Hinh). apply wp_bind. eapply wp_get_prio; [exact Et|change RHINO_CONFIG_USER_PRI_MAX with 60; lia|].
  apply wp_ret. split; [done|]. split; [done|]. by apply inh_lent.
Qed.

(** the loop that stores the tasks, from the entry [i] on *)
Lemma store_tasks_run tasks n : 1 <= n -> forall i arr, (i <= length arr)%nat ->
  store_tasks tasks i n arr = if decide (i + length tasks <= length arr)%nat then Some (take i arr ++ tasks ++ drop (i + length tasks) arr) else None.
Proof.
  intros Hn. induction tasks as [|t tasks IH]; intros i arr Hi; cbn [store_tasks length].
  - rewrite decide_True by lia. rewrite Nat.add_0_r. cbn [app]. by rewrite take_drop.
  - rewrite (proj2 (Z.leb_le 1 n)) by done. destruct (decide (i < length arr)%nat) as [Hlt|Hge].
    + rewrite IH by (rewrite length_insert; lia). rewrite length_insert. destruct (decide (S i + length tasks <= length arr)%nat) as [H|H].
      * rewrite decide_True by lia. f_equal. rewrite (take_S_r _ _ t) by by apply list_lookup_insert_eq.
        rewrite take_insert_ge, drop_insert_lt, <- app_assoc by lia. cbn [app]. do 3 f_equal. by rewrite Nat.add_succ_r.
      * by rewrite decide_False by lia.
    + by rewrite decide_False by lia.
Qed.

Lemma task_list_result s arr : arr <> [] -> let tasks := task_head (g_kobj_list s) in
  csi_kernel_task_list (Some arr) (Z.of_nat (length arr)) s =
  if decide (length tasks <= length arr)%nat
  then Ok ((Z.of_nat (length tasks), Some (tasks ++ drop (length tasks) arr)), s) else Undef.
Proof.
  intros Ha. cbv zeta. assert (0 < length arr)%nat by (destruct arr; [done|cbn; lia]).
  unfold csi_kernel_task_list. rewrite (proj2 (Z.eqb_neq _ 0)) by lia. unfold mbind, M_bind, gets, lift. cbn.
  set (tasks := task_head _). destruct (Z.ltb_spec (Z.of_nat (length arr)) (Z.of_nat (length tasks))) as [Hlt|Hge].
  - rewrite store_tasks_run by lia. by rewrite !decide_False by lia.
  - rewrite (decide_True (P := (length tasks <= length arr)%nat)) by lia. destruct tasks as [|t tasks]; [done|].
    rewrite store_tasks_run by (cbn; lia). by rewrite decide_True by (cbn in *; lia).
Qed.
