(* ===== verification/CsiTimer.v ===== *)
(** * The timers of the CSI interface ([adapter/csi_rhino.c])

    A handle is a block of the heap with the function of the user and a timer of
    the kernel; the argument of that timer is a second block, with the argument
    of the user and the handle.  The calls that send two messages, or send one
    and free the memory, are cut behind the first message, since the timer task
    may run in between: the rest of the call gets the status of the message, and
    looks at it as the source does. *)

From S2P Require Import Prelude Config RingBuf State Inv KInv BufQueue Frame Kernel Mem Mm MmInit MmUse.
From S2P Require Import Csi Timer TimerTask.
Open Scope Z_scope.

(** ** State *)

(** [tmr_ads] are the functions of the handles, [tmr_args] the blocks of type
    [tmr_arg_t]; [called] are the calls of the users' functions *)
Record cts := mkCts {
  ct_sys : tsys;
  ct_heap : hstate;
  tmr_ads : gmap nat Z;
  tmr_args : gmap nat (Z * option nat);
  called : list (Z * Z)
}.

Abbreviation CT := (M kstat_t cts).

Definition on_sys {A} (m : TS A) : CT A := fun s =>
  match m (ct_sys s) with
  | Ok (a, t) => Ok (a, mkCts t (ct_heap s) (tmr_ads s) (tmr_args s) (called s)) | Reset e => Reset e | Undef => Undef end.
Definition on_heap {A} (m : H A) : CT A := fun s =>
  match m (ct_heap s) with
  | Ok (a, h) => Ok (a, mkCts (ct_sys s) h (tmr_ads s) (tmr_args s) (called s)) | Reset e => Reset e | Undef => Undef end.

Definition set_ads (v : gmap nat Z) (s : cts) : cts := mkCts (ct_sys s) (ct_heap s) v (tmr_args s) (called s).
Definition set_args (v : gmap nat (Z * option nat)) (s : cts) : cts := mkCts (ct_sys s) (ct_heap s) (tmr_ads s) v (called s).
Definition set_called (v : list (Z * Z)) (s : cts) : cts := mkCts (ct_sys s) (ct_heap s) (tmr_ads s) (tmr_args s) v.

Definition sizeof_tmr_ad_t : Z := 72.
Definition sizeof_tmr_arg_t : Z := 8.
Definition TMR_ONE_SHOT_DLY : Z := 10.
Definition TMR_PERIODIC_PERIOD : Z := 10.
Definition KTIMER_TYPE_ONCE : Z := 0.
Definition KTIMER_TYPE_PERIODIC : Z := 1.

(** [&handle->tmr] *)
Definition tmr_of (handle : nat) : nat := (handle + 4)%nat.

(** ** The calls *)

(** [timer] is the timer of the kernel that is due *)
Definition tmr_adapt_cb (timer : nat) : CT unit :=
  get ← on_sys (in_tims (get_timer timer));
  args ← gets tmr_args;
  '(arg, above) ← lift (args !! Z.to_nat (timer_cb_arg get));
  ads ← gets tmr_ads;
  func ← lift (h ← above; ads !! h);
  modify (fun s => set_called (called s ++ [(func, arg)]) s).

Section heap.
(** [g_kmm_head] *)
Context (mh : Z).

(** the memory of a handle, or of an argument, is given back *)
Definition free_handle (h : nat) : CT unit :=
  on_heap (krhino_mm_free mh (Z.of_nat h));;
  modify (fun s => set_ads (delete h (tmr_ads s)) s);;
  on_sys (in_tims (modify (fun s => set_g_timers (delete (tmr_of h) (g_timers s)) s))).
Definition free_arg (a : nat) : CT unit :=
  on_heap (krhino_mm_free mh (Z.of_nat a));;
  modify (fun s => set_args (delete a (tmr_args s)) s).

Definition csi_kernel_timer_new (func : option Z) (type arg : Z) (m : list Z) : CT (option nat) :=
  match func with
  | None => mret None
  | Some f =>
      if (type <? 0) || (3 <? type) then mret None else
      let first := TMR_ONE_SHOT_DLY in
      let round := if type =? KTIMER_TYPE_ONCE then 0 else TMR_PERIODIC_PERIOD in
      handle_ad ← on_heap (krhino_mm_alloc mh sizeof_tmr_ad_t);
      if handle_ad =? 0 then mret None else
      get_arg ← on_heap (krhino_mm_alloc mh sizeof_tmr_arg_t);
      if get_arg =? 0 then free_handle (Z.to_nat handle_ad);; mret None else
      let h := Z.to_nat handle_ad in
      let a := Z.to_nat get_arg in
      modify (fun s => set_args (<[a := (arg, None)]> (tmr_args s)) s);;
      ret ← on_sys (krhino_timer_create (Some (tmr_of h)) (Some 0%nat) (Some 0%nat) first round get_arg 0 m);
      if bool_decide (ret = Ret RHINO_SUCCESS) then
        modify (fun s => set_ads (<[h := f]> (tmr_ads s)) s);;
        modify (fun s => set_args (<[a := (arg, Some h)]> (tmr_args s)) s);;
        mret (Some h)
      else free_handle h;; free_arg a;; mret None
  end.

(** up to the message, with its status *)
Definition csi_kernel_timer_del (timer_handle : option nat) (m : list Z) : CT cret :=
  match timer_handle with
  | None => mret (CRet (- EINVAL))
  | Some h => r ← on_sys (in_kern (krhino_timer_del (Some (tmr_of h)) m)); mret (status r)
  end.

(** from the test of the status [ret] on *)
Definition csi_kernel_timer_del_rest (h : nat) (ret : cret) : CT cret :=
  if negb (bool_decide (ret = CRet 0)) then mret ret else
  tm ← on_sys (in_tims (get_timer (tmr_of h)));
  free_arg (Z.to_nat (timer_cb_arg tm));;
  free_handle h;;
  mret (CRet 0).
End heap.

(** up to the first message, with its status *)
Definition csi_kernel_timer_start (timer_handle : option nat) (ticks : Z) (m : list Z) : CT cret :=
  match timer_handle with
  | None => mret (CRet (- EINVAL))
  | Some h =>
      if ticks =? 0 then mret (CRet (- EINVAL)) else
      handle ← on_sys (in_tims (get_timer (tmr_of h)));
      let tr := if negb (round_ticks handle =? 0) then ticks else 0 in
      r ← on_sys (in_kern (krhino_timer_change (Some (tmr_of h)) ticks tr m)); mret (status r)
  end.

(** from the test of the status [ret1] on *)
Definition csi_kernel_timer_start_rest (h : nat) (ret1 : cret) (m : list Z) : CT cret :=
  if negb (bool_decide (ret1 = CRet 0)) then mret ret1 else
  r ← on_sys (in_kern (krhino_timer_start (Some (tmr_of h)) m)); mret (status r).

Definition csi_kernel_timer_stop (timer_handle : option nat) (m : list Z) : CT cret :=
  match timer_handle with
  | None => mret (CRet (- EINVAL))
  | Some h => r ← on_sys (in_kern (krhino_timer_stop (Some (tmr_of h)) m)); mret (status r)
  end.

Inductive k_timer_stat_t : Set := KTIMER_ST_INACTIVE | KTIMER_ST_ACTIVE.

Definition csi_kernel_timer_get_stat (timer_handle : option nat) : CT k_timer_stat_t :=
  match timer_handle with
  | None => mret KTIMER_ST_INACTIVE
  | Some h =>
      tm ← on_sys (in_tims (get_timer (tmr_of h)));
      mret (if bool_decide (timer_state tm = TIMER_DEACTIVE) then KTIMER_ST_INACTIVE else KTIMER_ST_ACTIVE)
  end.

(** ** Making a timer *)

Definition set_ct_heap (v : hstate) (s : cts) : cts := mkCts (ct_sys s) v (tmr_ads s) (tmr_args s) (called s).
Definition ct_timers (s : cts) : gmap nat ktimer := g_timers (tims (ct_sys s)).
Definition set_ct_timers (v : gmap nat ktimer) (s : cts) : cts :=
  mkCts (mkSys (kern (ct_sys s)) (set_g_timers v (tims (ct_sys s)))) (ct_heap s) (tmr_ads s) (tmr_args s) (called s).

Lemma wp_on_sys {A} (m : TS A) (Q : A -> cts -> Prop) s :
  wp m (fun a t => Q a (mkCts t (ct_heap s) (tmr_ads s) (tmr_args s) (called s))) (ct_sys s) -> wp (on_sys m) Q s.
Proof. unfold wp, on_sys. by destruct (m (ct_sys s)) as [[a t]| |]. Qed.

Lemma wp_on_heap {A} (m : H A) (Q : A -> cts -> Prop) s : wp m (fun a h => Q a (set_ct_heap h s)) (ct_heap s) -> wp (on_heap m) Q s.
Proof. unfold wp, on_heap. by destruct (m (ct_heap s)) as [[a h]| |]. Qed.

Section system.
Context (addr len : Z).
Abbreviation mh := (init_addr addr).

(** the client has the blocks [U], those of its timers among them *)
Record ct_ok (s : cts) (U : gmap Z Z) : Prop := {
  ck_timers : tok (tims (ct_sys s));
  ck_heap : heap_reach addr len (ct_heap s) U;
  ck_blocks : forall h, is_Some (ct_timers s !! tmr_of h) -> in_heap addr len (Z.of_nat h) -> U !! Z.of_nat h = Some sizeof_tmr_ad_t
}.

Lemma wp_alloc s U n (Q : Z -> cts -> Prop) : heap_reach addr len (ct_heap s) U -> 2 <= n <= 0xFC000000 ->
  (forall h', heap_reach addr len h' U -> Q 0 (set_ct_heap h' s)) ->
  (forall p h', U !! Z.of_nat p = None -> in_heap addr len (Z.of_nat p) -> 0 < Z.of_nat p -> heap_reach addr len h' (<[Z.of_nat p := n]> U) ->
     Q (Z.of_nat p) (set_ct_heap h' s)) -> wp (on_heap (krhino_mm_alloc mh n)) Q s.
Proof.
  intros Hr Hn Q0 Q1. apply wp_on_heap. destruct (heap_step addr len (ct_heap s) U (HAlloc n) Hr) as (r & h' & E & Hr' & Hok & Hg & _); [by right|].
  cbn [heap_exec] in E. unfold wp. rewrite E. cbn [heap_after] in *. destruct (Z.eqb_spec r 0) as [->|Hr0]; [by apply Q0|].
  destruct (Hg Hr0) as [_ HU]. destruct (heap_block _ _ _ r n Hok ltac:(by rewrite lookup_insert_eq)) as (Hp & _ & _ & Hin & _).
  rewrite <- (Z2Nat.id r) by lia. apply Q1; rewrite ?Z2Nat.id by lia; [done|apply Hin; lia|done|done].
Qed.

Lemma wp_free s U p (Q : unit -> cts -> Prop) : heap_reach addr len (ct_heap s) U -> is_Some (U !! Z.of_nat p) ->
  (forall h', heap_reach addr len h' (delete (Z.of_nat p) U) -> Q tt (set_ct_heap h' s)) -> wp (on_heap (krhino_mm_free mh (Z.of_nat p))) Q s.
Proof.
  intros Hr HU HQ. apply wp_on_heap. destruct (heap_step addr len (ct_heap s) U (HFree (Z.of_nat p)) Hr) as (r & h' & E & Hr' & _); [by right|].
  cbn [heap_exec heap_after] in *. unfold wp, mbind, M_bind in *. destruct (krhino_mm_free _ _ _) as [[[] h1]| |]; [|done..].
  cbn in E. injection E as _ <-. by apply HQ.
Qed.

(** no timer of the kernel is where a new block is *)
Lemma new_timer_fresh s U p : ct_ok s U -> U !! Z.of_nat p = None -> in_heap addr len (Z.of_nat p) -> ct_timers s !! tmr_of p = None.
Proof.
  intros Hs HU Hin. apply eq_None_not_Some. intros H. apply (ck_blocks _ _ Hs) in H; [|done]. congruence.
Qed.

Lemma insert_timer_ok T l t tm : timers_ok T l -> T !! t = None -> timer_ok tm -> to_head tm = false -> timers_ok (<[t := tm]> T) l.
Proof.
  intros [H1 H2 H3] Ht Hok Hh. split; [done| |by apply map_Forall_insert_2]. intros u. rewrite listed_insert, H2. unfold fupd.
  case_decide as E; [subst u|done]. unfold listed. rewrite Ht, Hh. done.
Qed.

Definition new_tmr (type : Z) (a : nat) : ktimer :=
  new_timer TMR_ONE_SHOT_DLY (if type =? KTIMER_TYPE_ONCE then 0 else TMR_PERIODIC_PERIOD) (Z.of_nat a) K_OBJ_STATIC_ALLOC.

(** the new handle, its argument, and its timer, which does not run *)
Record tmr_made (s : cts) (U : gmap Z Z) (f arg type : Z) (h a : nat) (s' : cts) : Prop := {
  tn_new : U !! Z.of_nat h = None /\ U !! Z.of_nat a = None /\ h <> a;
  tn_ok : ct_ok s' (<[Z.of_nat a := sizeof_tmr_arg_t]> (<[Z.of_nat h := sizeof_tmr_ad_t]> U));
  tn_timers : ct_timers s' = <[tmr_of h := new_tmr type a]> (ct_timers s);
  tn_func : tmr_ads s' = <[h := f]> (tmr_ads s);
  tn_arg : tmr_args s' = <[a := (arg, Some h)]> (tmr_args s);
  tn_kern : kern (ct_sys s') = kern (ct_sys s) /\ called s' = called s
}.

Lemma new_tmr_ok type a : timer_ok (new_tmr type a).
Proof. unfold new_tmr. split; cbn; try done. by destruct (type =? KTIMER_TYPE_ONCE). Qed.

Lemma create_run S t type a m : krhino_timer_create (Some t) (Some 0%nat) (Some 0%nat) TMR_ONE_SHOT_DLY
    (if type =? KTIMER_TYPE_ONCE then 0 else TMR_PERIODIC_PERIOD) (Z.of_nat a) 0 m S =
  Ok (Ret RHINO_SUCCESS, mkSys (kern S) (set_g_timers (<[t := new_tmr type a]> (g_timers (tims S))) (tims S))).
Proof. unfold krhino_timer_create, timer_create, new_tmr. by destruct (type =? KTIMER_TYPE_ONCE). Qed.

Lemma ct_ok_heap s U h' : ct_ok s U -> heap_reach addr len h' U -> ct_ok (set_ct_heap h' s) U.
Proof. intros [H1 _ H3] Hr. by split. Qed.

(** a handle without a timer is given back *)
Lemma wp_free_handle s U p n (Q : unit -> cts -> Prop) : ct_ok s U -> U !! Z.of_nat p = None -> in_heap addr len (Z.of_nat p) ->
  forall h1, heap_reach addr len h1 (<[Z.of_nat p := n]> U) ->
  (forall s', ct_ok s' U -> ct_sys s' = ct_sys s -> called s' = called s -> Q tt s') -> wp (free_handle mh p) Q (set_ct_heap h1 s).
Proof.
  intros Hs HU Hin h1 Hr HQ. apply wp_bind. eapply wp_free; [exact Hr|by rewrite lookup_insert_eq|]. intros h2 Hr2.
  rewrite delete_insert_id in Hr2 by done. apply wp_bind, wp_modify, wp_on_sys. cbn. unfold wp, in_tims, modify. cbn.
  pose proof (new_timer_fresh _ _ _ Hs HU Hin) as Hf. unfold ct_timers in Hf. rewrite delete_id by done.
  destruct s as [[k [T l c f]] h ads args cl]. cbn in *. apply HQ; [|done|done]. destruct Hs as [H1 _ H3]. by split.
Qed.

Lemma wp_timer_new s U f type arg m : ct_ok s U -> wp (csi_kernel_timer_new mh (Some f) type arg m) (fun r s' =>
    match r with
    | None => ct_ok s' U /\ ct_sys s' = ct_sys s /\ called s' = called s
    | Some h => exists a, tmr_made s U f arg type h a s'
    end) s.
Proof.
  intros Hs. unfold csi_kernel_timer_new. destruct (_ || _); [by apply wp_ret|]. pose proof (ck_heap _ _ Hs) as Hr.
  apply wp_bind. eapply wp_alloc; [exact Hr|by vm_compute| |].
  - intros h' Hr'. apply wp_ret. split; [by apply ct_ok_heap|done].
  - intros p h' HU Hin Hp Hr'. rewrite (proj2 (Z.eqb_neq _ _)) by lia. apply wp_bind.
    eapply (wp_alloc (set_ct_heap h' s)); [exact Hr'|by vm_compute| |].
    + intros h2 Hr2. cbn [Z.eqb]. rewrite Nat2Z.id. apply wp_bind. eapply (wp_free_handle s U p); [done..|exact Hr2|].
      intros s' H1 H2 H3. by apply wp_ret.
    + intros q h2 HU2 Hin2 Hq Hr2. rewrite (proj2 (Z.eqb_neq _ _)) by lia. rewrite !Nat2Z.id.
      assert (Hne : p <> q) by (intros <-; by rewrite lookup_insert_eq in HU2). rewrite lookup_insert_ne in HU2 by lia.
      apply wp_bind, wp_modify, wp_bind, wp_on_sys. unfold wp at 1. rewrite create_run, bool_decide_eq_true_2 by done.
      apply wp_bind, wp_modify, wp_bind, wp_modify, wp_ret. exists q. pose proof (new_timer_fresh _ _ _ Hs HU Hin) as Hf.
      split; try done; [|cbn; by rewrite insert_insert_eq].
      destruct Hs as [H1 _ H3]. split; [|done|].
      * cbn. apply insert_timer_ok; [exact H1|done|apply new_tmr_ok|done].
      * intros h Ht Hh. destruct (decide (h = p)) as [->|Hhp]; [by rewrite lookup_insert_ne, lookup_insert_eq by lia|].
        unfold ct_timers in *. cbn in Ht. rewrite lookup_insert_ne in Ht by (unfold tmr_of; lia). specialize (H3 h Ht Hh).
        rewrite !lookup_insert_ne; [done|intros E..]; [apply Nat2Z.inj in E; congruence|rewrite E in HU2; congruence].
Qed.

(** the timer of a handle calls its function *)
Lemma wp_adapt_cb s h f arg tm a : ct_timers s !! tmr_of h = Some tm -> timer_cb_arg tm = Z.of_nat a ->
  tmr_args s !! a = Some (arg, Some h) -> tmr_ads s !! h = Some f ->
  tmr_adapt_cb (tmr_of h) s = Ok (tt, set_called (called s ++ [(f, arg)]) s).
Proof.
  intros Ht Ha Harg Hf. destruct s as [[k [T l c fs]] hp ads args cl]. cbn in *. unfold ct_timers in Ht. cbn in Ht.
  unfold tmr_adapt_cb, on_sys, in_tims, get_timer, mbind, M_bind, gets, lift. cbn. rewrite Ht. cbn.
  rewrite Ha, Nat2Z.id, Harg. cbn. by rewrite Hf.
Qed.

Lemma made_calls s U f arg type h a s' : tmr_made s U f arg type h a s' ->
  tmr_adapt_cb (tmr_of h) s' = Ok (tt, set_called (called s ++ [(f, arg)]) s').
Proof.
  intros [_ _ HT Hf Ha [_ Hc]]. rewrite <- Hc. eapply (wp_adapt_cb _ _ _ _ (new_tmr type a) a).
  - by rewrite HT, lookup_insert_eq.
  - done.
  - by rewrite Ha, lookup_insert_eq.
  - by rewrite Hf, lookup_insert_eq.
Qed.

(** ** Deleting a timer that does not run *)

Lemma wp_del_rest s U h tm a : ct_ok s U -> ct_timers s !! tmr_of h = Some tm -> to_head tm = false -> timer_cb_arg tm = Z.of_nat a ->
  U !! Z.of_nat h = Some sizeof_tmr_ad_t -> U !! Z.of_nat a = Some sizeof_tmr_arg_t ->
  wp (csi_kernel_timer_del_rest mh h (CRet 0)) (fun r s' => r = CRet 0 /\ ct_timers s' = delete (tmr_of h) (ct_timers s) /\
    ct_ok s' (delete (Z.of_nat h) (delete (Z.of_nat a) U))) s.
Proof.
  intros Hs Ht Hh Ha HUh HUa. assert (Hne : a <> h) by (intros ->; rewrite HUh in HUa; discriminate HUa).
  destruct Hs as [H1 H2 H3]. destruct s as [[k [T l c fs]] hp ads args cl].
  unfold csi_kernel_timer_del_rest. rewrite bool_decide_eq_true_2 by done. cbn [negb].
  unfold ct_timers in *. cbn in Ht, H1, H2, H3. apply wp_bind, wp_on_sys. cbn [ct_sys]. apply wp_in_tims. eapply wp_get_timer; [exact Ht|].
  rewrite Ha, Nat2Z.id. apply wp_bind, wp_bind. eapply wp_free; [exact H2|by eexists|]. intros h1 Hr1. apply wp_modify.
  apply wp_bind, wp_bind. eapply wp_free; [exact Hr1|by rewrite lookup_delete_ne by lia|]. intros h2 Hr2.
  apply wp_bind, wp_modify, wp_on_sys. apply wp_in_tims, wp_modify, wp_ret. split_and!; [done|done|]. split.
  - by apply (delete_ok T l (mkCb (tmr_of h) 0 0 0) tm).
  - exact Hr2.
  - cbn. intros p [Hp Hin]%lookup_delete_is_Some Hpin. specialize (H3 p Hin Hpin).
    rewrite !lookup_delete_ne; [done|intros E; rewrite E, H3 in HUa; discriminate HUa|intros E; apply Hp; f_equal; lia].
Qed.
End system.

(** ** The messages *)

Definition sent (q : timer_req) (t : nat) (r : kret) (k k' : kstate) : Prop :=
  exists ob m, g_objs k !! g_timer_queue = Some ob /\ req_says q t m /\ bsend_spec k g_timer_queue ob m r k'.

(** the calls that send a message to the timer of a handle change nothing but the
    kernel *)
Lemma wp_send s ms q t m : wf (kern (ct_sys s)) -> timer_queue (kern (ct_sys s)) ms -> Z.of_nat t < 2 ^ 32 -> length m = 24%nat ->
  req_typed q -> req_refused q = false ->
  wp (r ← on_sys (in_kern (run_req q (Some t) m)); mret (status r)) (fun r s' => exists kr, r = status kr /\
    wf (kern (ct_sys s')) /\ sent q t kr (kern (ct_sys s)) (kern (ct_sys s')) /\ tims (ct_sys s') = tims (ct_sys s) /\ ct_heap s' = ct_heap s) s.
Proof.
  intros Hwf Hq Ht Hm Hty Href. apply wp_bind, wp_on_sys. destruct s as [[k ts] hp ads args cl]. apply wp_in_kern. cbn in Hwf, Hq.
  eapply wp_mono; [|by eapply wp_timer_req]. cbv beta. intros kr k' [Hwf' H]. rewrite Href in H. apply wp_ret. by exists kr.
Qed.

Definition period (tm : ktimer) (ticks : Z) : Z := if negb (round_ticks tm =? 0) then ticks else 0.

Lemma wp_start s ms h tm ticks m : wf (kern (ct_sys s)) -> timer_queue (kern (ct_sys s)) ms -> ct_timers s !! tmr_of h = Some tm ->
  Z.of_nat (tmr_of h) < 2 ^ 32 -> length m = 24%nat -> 0 < ticks < 2 ^ 32 ->
  wp (csi_kernel_timer_start (Some h) ticks m) (fun r s' => exists kr, r = status kr /\ wf (kern (ct_sys s')) /\
    sent (ReqChange ticks (period tm ticks)) (tmr_of h) kr (kern (ct_sys s)) (kern (ct_sys s')) /\ tims (ct_sys s') = tims (ct_sys s) /\ ct_heap s' = ct_heap s) s.
Proof.
  intros Hwf Hq Ht Hh Hm Hn. unfold csi_kernel_timer_start. rewrite (proj2 (Z.eqb_neq _ _)) by lia.
  apply wp_bind, wp_on_sys. destruct s as [[k [T l c f]] hp ads args cl]. apply wp_in_tims. unfold ct_timers in Ht. cbn in Ht.
  eapply wp_get_timer; [exact Ht|]. fold (period tm ticks).
  assert (Hp : 0 <= period tm ticks < 2 ^ 32) by (unfold period; destruct (negb _); lia).
  apply (wp_send (mkCts (mkSys k (mkTs T l c f)) hp ads args cl) ms (ReqChange ticks (period tm ticks))); try done.
  - cbn. lia.
  - cbn. change (u64 (-1)) with (2 ^ 64 - 1). rewrite !(proj2 (Z.leb_gt _ _)) by lia. done.
Qed.

(** the timer task, when it has executed the two messages: the timer runs, for
    [ticks] from now, whether it ran before or not *)
Definition restarted (c ticks : Z) (tm : ktimer) : ktimer :=
  Timer.started c (set_round_ticks (period tm ticks) (set_init_count ticks (stopped tm))).

Lemma wp_start_commands T l c f t tm ticks cb1 cb2 (Q : unit -> tstate -> Prop) :
  timers_ok T l -> T !! t = Some tm -> tm_obj_type tm = RHINO_TIMER_OBJ_TYPE -> 0 < ticks < 2 ^ 32 ->
  cb_timer cb1 = t -> cb_num cb1 = cmd_num TIMER_CMD_CHG -> cb_first cb1 = ticks -> cb_u cb1 = period tm ticks ->
  cb_timer cb2 = t -> cb_num cb2 = cmd_num TIMER_CMD_START ->
  cmd_post T l c f t (Some (restarted c ticks tm)) Q -> wp (timer_cmd_proc cb1;; timer_cmd_proc cb2) Q (mkTs T l c f).
Proof.
  intros Hok Ht Hty Hn E1 N1 F1 U1 E2 N2 HQ. subst t. apply wp_bind. eapply (wp_timer_cmd_proc T l c f cb1 TIMER_CMD_CHG); [done..| |].
  - split; [done|]. rewrite F1, U1, MAX_TIMER_TICKS_eq. unfold period. destruct (negb _); lia.
  - unfold cmd_timer. rewrite bool_decide_eq_true_2 by done. cbn [negb]. rewrite F1, U1, (proj2 (Z.eqb_neq ticks 0)) by lia.
    intros l1 Hok1 Hti1. cbn [with_timer] in *.
    eapply (wp_timer_cmd_proc _ l1 c f cb2 TIMER_CMD_START); [exact Hok1|rewrite E2; apply lookup_insert_eq|done|by split|].
    unfold cmd_timer. rewrite bool_decide_eq_true_2 by done. change (inactive (set_round_ticks _ (set_init_count _ (stopped tm)))) with true.
    cbn [negb]. fold (restarted c ticks tm). rewrite E2. intros l2 Hok2 Hti2. cbn [with_timer] in *. rewrite insert_insert_eq in *.
    apply HQ; cbn [with_timer]; auto.
Qed.
