(* ===== verification/Demo.v ===== *)
(** * A small system

    Concrete reachable states at which the properties of [Properties] are
    applied: from the start of the system the first task creates two tasks, one
    object of each type, and waits; [demo] is then the state of the first task,
    and [demo_pi] a state where the second one owns a mutex the first waits
    for. *)

From S2P Require Import Prelude Config RingBuf State Sched Inv KInv Mutex Sem Event Queue BufQueue Task TaskDel Time Sys Kernel.
From S2P Require Import Timer TimerTask.

(** the state after a sequence of calls *)
Fixpoint exec (cs : list call) (s : kstate) : option kstate :=
  match cs with
  | [] => Some s
  | c :: cs => match run c s with Ok (_, s) => exec cs s | _ => None end
  end.

(** the calls are legal, each where it is made *)
Fixpoint legal_run (cs : list call) (s : kstate) : Prop :=
  match cs with
  | [] => True
  | c :: cs => legal s c /\ match run c s with Ok (_, s) => legal_run cs s | _ => False end
  end.

Lemma reachable_exec s cs s' : reachable s -> legal_run cs s -> exec cs s = Some s' -> reachable s'.
Proof.
  revert s. induction cs as [|c cs IH]; intros s Hr Hl E; cbn in *; [by simplify_eq|].
  destruct Hl as [Hc Hl]. destruct (run c s) as [[[] s1]| |] eqn:Es; try done.
  exact (IH s1 (reach_step _ _ _ Hr (step_call _ _ _ Hc Es)) Hl E).
Qed.

Lemma prepared_exec s cs s' : prepared s -> forallb creation cs = true -> legal_run cs s -> exec cs s = Some s' -> prepared s'.
Proof.
  revert s. induction cs as [|c cs IH]; intros s Hr Hcs Hl E; cbn in *; [by simplify_eq|].
  apply andb_true_iff in Hcs as [Hcr Hcs]. destruct Hl as [Hc Hl]. destruct (run c s) as [[[] s1]| |] eqn:Es; try done.
  exact (IH s1 (prep_create _ _ _ Hr Hcr (step_call _ _ _ Hc Es)) Hcs Hl E).
Qed.

Definition first_task : nat := 10.
Definition second_task : nat := 11.
Definition a_sem : nat := 20.
Definition a_mutex : nat := 21.
Definition an_event : nat := 22.
Definition a_queue : nat := 23.
Definition a_buf_queue : nat := 24.

Definition init_state : kstate :=
  Eval vm_compute in match krhino_init boot_state with Ok (_, s) => s | _ => boot_state end.

Definition start_state : kstate :=
  Eval vm_compute in match krhino_start init_state with Ok (_, s) => s | _ => boot_state end.

(** what a program may create before the start *)
Definition main_calls : list call :=
  [TaskCreate (Some first_task) (Some 0%nat) 20 0 (Some 0%nat) 100 (Some 0%nat) 1; MutexCreate (Some a_mutex) (Some 0%nat)].

Definition main_state : kstate := Eval vm_compute in default boot_state (exec main_calls init_state).

Definition demo_calls : list call :=
  [TaskCreate (Some first_task) (Some 0%nat) 20 0 (Some 0%nat) 100 (Some 0%nat) 1;
   TaskCreate (Some second_task) (Some 0%nat) 30 0 (Some 0%nat) 100 (Some 0%nat) 1;
   SemCreate (Some a_sem) (Some 0%nat) 1; MutexCreate (Some a_mutex) (Some 0%nat);
   EventCreate (Some an_event) (Some 0%nat) 5;
   QueueCreate (Some a_queue) (Some 0%nat) (Some (replicate 8 0)) 2;
   BufQueueCreate (Some a_buf_queue) (Some 0%nat) (Some (replicate 16 0)) 16 8;
   BufQueueRecv g_timer_queue RHINO_WAIT_FOREVER].

Definition demo : kstate :=
  Eval vm_compute in default boot_state (exec demo_calls start_state).

Definition pi_calls : list call :=
  [TaskSuspend first_task; MutexLock a_mutex RHINO_WAIT_FOREVER; TaskResume first_task; MutexLock a_mutex 100].

Definition demo_pi : kstate :=
  Eval vm_compute in default boot_state (exec pi_calls demo).

Lemma init_prepared : prepared init_state.
Proof. eapply prep_init. vm_compute. reflexivity. Qed.

Lemma start_started : Kernel.started start_state.
Proof. eexists _, _. split; [exact init_prepared|vm_compute; reflexivity]. Qed.

Lemma start_reachable : reachable start_state.
Proof. apply reach_start, start_started. Qed.

Lemma legal_run_cons s c cs s1 : legal s c -> run c s = Ok (tt, s1) -> legal_run cs s1 -> legal_run (c :: cs) s.
Proof. intros Hc E H. split; [done|]. by rewrite E. Qed.

(** what a call asks of a concrete state, by evaluation *)
Ltac by_eval :=
  repeat match goal with
  | |- _ /\ _ => split
  | |- is_Some _ => eexists; vm_compute; reflexivity
  | H : Some _ = Some _ |- _ => injection H as <-
  | H : g_objs ?s !! ?o = Some _ |- _ => is_ground s; vm_compute in H; (discriminate H || injection H as <-)
  | H : g_tasks ?s !! ?o = Some _ |- _ => is_ground s; vm_compute in H; (discriminate H || injection H as <-)
  | |- forall x, _ => intros
  end; try (vm_compute; first [reflexivity|congruence|lia]).

Ltac legal_step :=
  unfold legal, for_obj, for_task, fresh_obj, fresh_task, has_obj, has_task, may_block, room; by_eval.

Lemma main_prepared : prepared main_state.
Proof.
  apply (prepared_exec init_state main_calls); [exact init_prepared|reflexivity| |vm_compute; reflexivity].
  repeat (eapply legal_run_cons; [legal_step|vm_compute; reflexivity|]). exact I.
Qed.

Lemma demo_legal : legal_run demo_calls start_state.
Proof. repeat (eapply legal_run_cons; [legal_step|vm_compute; reflexivity|]). exact I. Qed.

Lemma demo_reachable : reachable demo.
Proof. eapply reachable_exec; [exact start_reachable|exact demo_legal|vm_compute; reflexivity]. Qed.

Ltac reach_demo calls := apply (reachable_exec demo calls);
  [exact demo_reachable|repeat (eapply legal_run_cons; [legal_step|vm_compute; reflexivity|]); exact I|vm_compute; reflexivity].

Lemma demo_pi_reachable : reachable demo_pi.
Proof. reach_demo pi_calls. Qed.

(** in an interrupt, the first task asleep for three ticks *)
Definition sleep_calls : list call := [TaskSleep 3; IntrptEnter].
Definition demo_sleep : kstate := Eval vm_compute in default boot_state (exec sleep_calls demo).

Lemma demo_sleep_reachable : reachable demo_sleep.
Proof. reach_demo sleep_calls. Qed.

Lemma reachable_wf s : reachable s -> wf s.
Proof. intros H. apply ki_wf. by apply reachable_kinv. Qed.

Definition demo_wf : wf demo := reachable_wf _ demo_reachable.
Definition demo_pi_wf : wf demo_pi := reachable_wf _ demo_pi_reachable.
Definition demo_sleep_wf : wf demo_sleep := reachable_wf _ demo_sleep_reachable.
Definition start_wf : wf start_state := reachable_wf _ start_reachable.

(** the objects and the tasks of the demo *)
Definition the_obj (s : kstate) (o : nat) : kobj := default (deleted_obj (mkObj [] BLK_POLICY_PRI RHINO_OBJ_TYPE_NONE 0 (KEvent 0))) (g_objs s !! o).
Definition the_task (s : kstate) (t : nat) : ktask := default zero_task (g_tasks s !! t).

(** ** Timers *)

Definition a_timer : nat := 30.

(** the timer task after [krhino_timer_start] of a timer, and after it waited
    for the five ticks of the timer *)
Definition start_msg : list Z :=
  Eval vm_compute in default [] (m ← put_timer a_timer (replicate 24 0); put_cb_num TIMER_CMD_START m).
Definition demo_timer : kstate := Eval vm_compute in default boot_state (exec [BufQueueSend g_timer_queue start_msg] demo).
Definition wait_calls : list call :=
  [BufQueueSend g_timer_queue start_msg; BufQueueRecv g_timer_queue 5; IntrptEnter;
   TickProc; TickProc; TickProc; TickProc; TickProc; IntrptExit].
Definition demo_expired : kstate := Eval vm_compute in default boot_state (exec wait_calls demo).

Ltac send_step := split; [eexists; vm_compute; reflexivity|];
  intros ? ? ? ? ? ? Ho Hb; vm_compute in Ho; injection Ho as <-; vm_compute in Hb; injection Hb as <- <- <- <- <-; by vm_compute.

Lemma demo_timer_reachable : reachable demo_timer.
Proof.
  apply (reachable_exec demo [BufQueueSend g_timer_queue start_msg]);
    [exact demo_reachable|eapply legal_run_cons; [send_step|vm_compute; reflexivity|exact I]|vm_compute; reflexivity].
Qed.

Lemma demo_expired_reachable : reachable demo_expired.
Proof.
  apply (reachable_exec demo wait_calls); [exact demo_reachable| |vm_compute; reflexivity].
  eapply legal_run_cons; [send_step|vm_compute; reflexivity|].
  repeat (eapply legal_run_cons; [legal_step|vm_compute; reflexivity|]). exact I.
Qed.

(** no command waits where the counter of the queue is zero *)
Lemma timer_runs_demo s ob r peak mn :
  reachable s -> g_active_task s = g_timer_task -> g_intrpt_nested_level s = 0 -> g_sched_lock s = 0 ->
  g_objs s !! g_timer_queue = Some ob -> obj_type ob = RHINO_BUF_QUEUE_OBJ_TYPE ->
  body ob = KBufQueue r sizeof_k_timer_queue_cb 0 peak mn -> timer_runs (g_tick_count s) s [].
Proof.
  intros Hr Ha Hn Hl Ho Hty Hb. split; try done; [by apply reachable_wf|]. exists ob. split_and!; [done..|].
  destruct (buf_body_ok _ _ _ (wf_pre _ (reachable_wf _ Hr)) Ho Hty) as (r' & mx & cur & p' & mn' & ms & _ & Hb' & Hring & _).
  rewrite Hb in Hb'. injection Hb' as <- <- <- <- <-. exists r, 0, peak, mn. split; [done|].
  pose proof Hring as (_ & E & _). by destruct ms.
Qed.

Lemma demo_timer_runs : timer_runs 0 demo_timer [].
Proof. eapply (timer_runs_demo demo_timer); [exact demo_timer_reachable|vm_compute; reflexivity..]. Qed.

Lemma demo_expired_runs : timer_runs 5 demo_expired [].
Proof. eapply (timer_runs_demo demo_expired); [exact demo_expired_reachable|vm_compute; reflexivity..]. Qed.

(** a timer with a callback after 5 ticks and every 10 ticks from then on *)
Definition an_idle_timer : ktimer := new_timer 5 10 77 K_OBJ_STATIC_ALLOC.
Definition idle_timers : tstate := mkTs {[a_timer := an_idle_timer]} [] 0 [].
Definition run_timers : tstate := mkTs {[a_timer := Timer.started 0 an_idle_timer]} [a_timer] 0 [].

Lemma one_timer_ok tm : timer_ok tm -> timers_ok {[a_timer := tm]} (if to_head tm then [a_timer] else []).
Proof.
  intros Htm. split.
  - destruct (to_head tm); repeat constructor; set_solver.
  - intros t. unfold listed. destruct (decide (t = a_timer)) as [->|Hne].
    + rewrite lookup_singleton_eq. cbn. destruct (to_head tm); set_solver.
    + rewrite lookup_singleton_ne by done. cbn. destruct (to_head tm); set_solver.
  - intros t u [_ <-]%lookup_singleton_Some. done.
Qed.

Lemma idle_timers_ok : timers_ok (g_timers idle_timers) (g_timer_head idle_timers).
Proof. by apply (one_timer_ok an_idle_timer). Qed.

Lemma run_timers_ok : timers_ok (g_timers run_timers) (g_timer_head run_timers).
Proof. by apply (one_timer_ok (Timer.started 0 an_idle_timer)). Qed.

Lemma run_timers_timely : timely 5 (g_timers run_timers) (g_timer_head run_timers).
Proof.
  split.
  - split; [apply run_timers_ok..| |]; [apply SSorted_cons; constructor|]. intros t _. unfold tick_key. apply u64_range.
  - by intros t ->%list_elem_of_singleton.
Qed.

Lemma idle_timers_timely : timely 0 (g_timers idle_timers) (g_timer_head idle_timers).
Proof.
  split; [split|]; [apply idle_timers_ok..|constructor|intros ??; apply u64_range|by intros ? ?%elem_of_nil].
Qed.

(** three timers of the task that runs first, late by 5, 4 and 3 ticks at the
    tick 0 *)
Definition late_timer (m r : Z) : ktimer := mkTimer true 0 m 0 1 r RHINO_TIMER_OBJ_TYPE TIMER_ACTIVE K_OBJ_STATIC_ALLOC.
Definition late_timers : tstate :=
  mkTs (<[1%nat := late_timer (2 ^ 64 - 5) 10]> (<[2%nat := late_timer (2 ^ 64 - 4) 5]> {[3%nat := late_timer (2 ^ 64 - 3) 0]})) [1%nat; 2%nat; 3%nat] (2 ^ 64 - 6) [].

Lemma late_timers_ok : tok late_timers.
Proof.
  split; cbn.
  - repeat constructor; set_solver.
  - intros t. unfold listed. destruct (decide (t = 1%nat)) as [->|H1]; [by vm_compute; split; [|intros _; left]|].
    destruct (decide (t = 2%nat)) as [->|H2]; [vm_compute; split; [done|intros _; right; left]|].
    destruct (decide (t = 3%nat)) as [->|H3]; [vm_compute; split; [done|intros _; right; right; left]|].
    rewrite !lookup_insert_ne, lookup_singleton_ne by done. cbn. set_solver.
  - repeat (apply map_Forall_insert_2; [by split|]). apply map_Forall_empty.
Qed.
