(* ===== verification/Properties.v ===== *)
(** * The properties of the kernel

    The theorems a user of the kernel relies on, each a short consequence of the
    library, and each with hypotheses applied once to the small system of [Demo]. *)

From S2P Require Import Prelude KList Config RingBuf Fifo Bitmap Cpu Atomic State Sched Inv Tick Pend PriChange.
From S2P Require Import KInv Mutex Sem Event Queue BufQueue Task Frame TaskDel Time Sys Kernel.
From S2P Require Import Timer TimerTask Demo.
Open Scope Z_scope.

(** ** Invariants of the running system *)

(** C1: every state reached from the start of the system by legal calls and
    interrupts satisfies the invariant of the kernel: run queue, waiting lists,
    tick list, mutex chains and inherited priorities agree with the fields of
    the tasks, and the right task runs. *)
Theorem reachable_invariant s : reachable s -> kinv s.
Proof. apply reachable_kinv. Qed.

Example reachable_invariant_witness : kinv demo_pi.
Proof. apply reachable_invariant. exact demo_pi_reachable. Defined.

(** C2: a legal call made in a reachable state returns: none of its loops runs
    for ever, it makes no access outside its objects and does not reset the
    system; the state it leaves is reachable again. *)
Theorem legal_call_returns s c : reachable s -> legal s c -> exists s', step s c s' /\ reachable s'.
Proof. intros Hr Hc. destruct (reachable_progress s c Hr Hc) as [s' Hs]. exists s'. split; [done|by eapply reach_step]. Qed.

Example legal_call_returns_witness : exists s', step demo_pi (MutexUnlock a_mutex) s' /\ reachable s'.
Proof. apply legal_call_returns; [exact demo_pi_reachable|legal_step]. Defined.

(** C3: outside interrupts and while the scheduler is not locked, the running
    task is ready and no ready task has a higher priority (a smaller number). *)
Theorem active_task_is_highest s t p :
  reachable s -> g_intrpt_nested_level s = 0 -> g_sched_lock s = 0 -> ready (g_tasks s) t = Some p ->
  exists q, ready (g_tasks s) (g_active_task s) = Some q /\ q <= p.
Proof. intros Hr. apply wf_highest. by apply reachable_wf. Qed.

Example active_task_is_highest_witness : exists q, ready (g_tasks demo) (g_active_task demo) = Some q /\ q <= 30.
Proof. apply (active_task_is_highest demo second_task 30); [exact demo_reachable|by vm_compute..]. Defined.

(** C4: priority inheritance.  The priority of a live task is the highest of its
    base priority and of the priorities of the tasks that wait for a mutex it
    holds, and no other. *)
Theorem priority_inheritance s t tk :
  reachable s -> g_tasks s !! t = Some tk -> is_live tk = true ->
  is_inh (waits (g_tasks s)) (prioV (g_tasks s)) (prio tk) (b_prio tk) (mutex_list tk).
Proof.
  intros Hr Ht Hl. pose proof (kp_pi _ (kp_mid _ (wf_pre _ (reachable_wf _ Hr))) t) as H.
  unfold live, prioV at 2, bprioV, held in H. rewrite !(tview_lookup _ _ _ _ _ Ht) in H. specialize (H Hl).
  unfold held_of in H. by rewrite Hl in H.
Qed.

Example priority_inheritance_witness : let tk := the_task demo_pi second_task in
  is_inh (waits (g_tasks demo_pi)) (prioV (g_tasks demo_pi)) (prio tk) (b_prio tk) (mutex_list tk).
Proof. apply (priority_inheritance demo_pi second_task); [exact demo_pi_reachable|by vm_compute..]. Defined.

(** C5: the waiting list of an object holds the tasks that wait for it, each
    once, and those of a priority-ordered object by priority. *)
Theorem waiting_list_exact s o ob :
  reachable s -> g_objs s !! o = Some ob ->
  NoDup (blk_list ob) /\ (forall t, t ∈ blk_list ob <-> waits (g_tasks s) t = Some o) /\
  (blk_policy ob = BLK_POLICY_PRI ->
     StronglySorted (fun t u => prioV (g_tasks s) t <= prioV (g_tasks s) u) (blk_list ob)).
Proof.
  intros Hr Ho. pose proof (c_blk _ _ _ _ _ _ _ (kp_core _ (kp_mid _ (wf_pre _ (reachable_wf _ Hr))))) as H.
  split; [by eapply bk_nodup|]. split; [intros t; by apply (bk_in _ _ _ H)|intros Hp; by eapply bk_sorted].
Qed.

Example waiting_list_exact_witness : let ob := the_obj demo_pi a_mutex in
  NoDup (blk_list ob) /\ (forall t, t ∈ blk_list ob <-> waits (g_tasks demo_pi) t = Some a_mutex) /\
  (blk_policy ob = BLK_POLICY_PRI ->
     StronglySorted (fun t u => prioV (g_tasks demo_pi) t <= prioV (g_tasks demo_pi) u) (blk_list ob)).
Proof. apply (waiting_list_exact demo_pi a_mutex); [exact demo_pi_reachable|by vm_compute]. Defined.

(** C6: mutual exclusion.  A mutex in the chain of a task is owned by it, so no
    two tasks hold it; a task that waits for a mutex waits for another task, which
    holds it: nobody waits for a mutex that is free. *)
Theorem mutual_exclusion s m :
  reachable s ->
  (forall t, m ∈ held (g_tasks s) t ->
     (exists ob nested, g_objs s !! m = Some ob /\ mutex_body ob = Some (Some t, nested)) /\
     (forall u, m ∈ held (g_tasks s) u -> u = t) /\ waits (g_tasks s) t <> Some m) /\
  (forall u ob, waits (g_tasks s) u = Some m -> g_objs s !! m = Some ob -> obj_type ob = RHINO_MUTEX_OBJ_TYPE ->
     exists t nested, t <> u /\ m ∈ held (g_tasks s) t /\ mutex_body ob = Some (Some t, nested)).
Proof.
  intros Hr. pose proof (kp_core _ (kp_mid _ (wf_pre _ (reachable_wf _ Hr)))) as Hc. split.
  - intros t Hm. destruct (holder_facts _ _ _ _ _ _ _ _ Hc Hm) as (ob & nested & Ho & Hty & Hb & Huniq).
    split; [by exists ob, nested|]. split; [done|]. intros Hw.
    destruct (waiter_facts _ _ _ _ _ _ _ _ _ Hc Hw Ho Hty) as (u & _ & Hne & Hu & _). by apply Hne, Huniq.
  - intros u ob Hw Ho Hty. destruct (waiter_facts _ _ _ _ _ _ _ _ _ Hc Hw Ho Hty) as (t & nested & Hne & Ht & Hb). by exists t, nested.
Qed.

Example mutual_exclusion_witness :
  (exists ob nested, g_objs demo_pi !! a_mutex = Some ob /\ mutex_body ob = Some (Some second_task, nested)) /\
  (forall u, a_mutex ∈ held (g_tasks demo_pi) u -> u = second_task) /\
  exists t nested, t <> first_task /\ a_mutex ∈ held (g_tasks demo_pi) t /\ mutex_body (the_obj demo_pi a_mutex) = Some (Some t, nested).
Proof.
  destruct (mutual_exclusion demo_pi a_mutex demo_pi_reachable) as [Hheld Hwait].
  destruct (Hheld second_task) as (H1 & H2 & _); [vm_compute; left|].
  split; [exact H1|]. split; [exact H2|]. by apply (Hwait first_task); vm_compute.
Defined.

(** C7: nobody waits for what is there: a semaphore with a positive count, a
    queue or a buffer queue with messages has an empty waiting list. *)
Theorem no_lost_wakeup s o ob :
  reachable s -> g_objs s !! o = Some ob ->
  (obj_type ob = RHINO_SEM_OBJ_TYPE -> forall count peak, sem_body ob = Some (count, peak) -> 0 < count -> blk_list ob = []) /\
  (obj_type ob = RHINO_QUEUE_OBJ_TYPE -> forall r size cur peak, queue_body ob = Some (r, size, cur, peak) -> 0 < cur ->
     blk_list ob = []) /\
  (obj_type ob = RHINO_BUF_QUEUE_OBJ_TYPE -> forall r mx cur peak mn, buf_queue_body ob = Some (r, mx, cur, peak, mn) -> 0 < cur ->
     blk_list ob = []).
Proof.
  intros Hr Ho. pose proof (c_obj _ _ _ _ _ _ _ (kp_core _ (kp_mid _ (wf_pre _ (reachable_wf _ Hr)))) _ _ Ho) as H.
  unfold obj_ok in H. unfold sem_body, queue_body, buf_queue_body.
  split_and!; intros Hty; rewrite Hty in H; intros; destruct (body ob); simplify_eq; by apply H.
Qed.

Example no_lost_wakeup_witness : blk_list (the_obj demo a_sem) = [].
Proof.
  exact (proj1 (no_lost_wakeup demo a_sem (the_obj demo a_sem) demo_reachable ltac:(by vm_compute))
    ltac:(by vm_compute) 1 1 ltac:(by vm_compute) ltac:(lia)).
Defined.

(** C8: the tick list holds the tasks with a timeout, each once, by the time
    that remains, which is at least one tick; every sleeping task is in it and
    only tasks that sleep or wait are. *)
Theorem tick_list_exact s :
  reachable s ->
  NoDup (g_tick_head s) /\ StronglySorted (fun t u => remaining s t <= remaining s u) (g_tick_head s) /\
  (forall t, t ∈ g_tick_head s -> 1 <= remaining s t) /\
  (forall t tk, g_tasks s !! t = Some tk -> (t ∈ g_tick_head s <-> tick_head tk = true) /\
     (is_sleeping tk = true -> t ∈ g_tick_head s) /\
     (t ∈ g_tick_head s -> is_pending tk = true \/ is_sleeping tk = true)).
Proof.
  intros Hr. pose proof (kp_core _ (kp_mid _ (wf_pre _ (reachable_wf _ Hr)))) as Hc.
  destruct (c_tick _ _ _ _ _ _ _ Hc) as [Hn Hi Hs Hl]. split_and!; [done|exact Hs|exact Hl|]. intros t tk Ht.
  pose proof (c_task _ _ _ _ _ _ _ Hc _ _ Ht) as Hok. specialize (Hi t). unfold ticking in Hi.
  rewrite (tview_lookup _ _ _ _ _ Ht) in Hi. split_and!; [done| |]; rewrite Hi; apply Hok.
Qed.

Example tick_list_exact_witness : 1 <= remaining demo_sleep first_task.
Proof. apply (tick_list_exact demo_sleep demo_sleep_reachable). vm_compute. left. Defined.

(** C9: while the scheduler is locked or an interrupt is served, before and after
    a call, the call switches no task. *)
Theorem locked_no_switch s c s' :
  reachable s -> step s c s' -> no_switch s -> no_switch s' -> g_active_task s' = g_active_task s.
Proof. intros Hr. apply step_no_switch. by apply reachable_kinv. Qed.

Example locked_no_switch_witness : exists s', step demo_sleep TickProc s' /\ g_active_task s' = g_active_task demo_sleep.
Proof.
  eexists. assert (H : forall s', run TickProc demo_sleep = Ok (tt, s') -> step demo_sleep TickProc s')
    by (intros s' E; constructor; [legal_step|exact E]).
  split; [apply H; vm_compute; reflexivity|].
  eapply (locked_no_switch demo_sleep TickProc); [exact demo_sleep_reachable|apply H; vm_compute; reflexivity|right; by vm_compute..].
Defined.

(** C10: a task of the tick list waits for exactly the ticks that remain to it:
    it is untouched by fewer tick interrupts, and the last one takes it from the
    list and wakes it, with a timeout when it was waiting for an object. *)
Theorem timeout_is_exact n s t tk :
  reachable s -> 0 < g_intrpt_nested_level s -> small_timeouts s -> t ∈ g_tick_head s -> g_tasks s !! t = Some tk ->
  Z.of_nat n <= remaining s t ->
  wp (ticks_proc n) (fun _ s' => wf s' /\ exists tk', g_tasks s' !! t = Some tk' /\
    (Z.of_nat n < remaining s t -> t ∈ g_tick_head s' /\ task_state tk' = task_state tk /\ blk_state tk' = blk_state tk) /\
    (Z.of_nat n = remaining s t -> ~ (t ∈ g_tick_head s') /\ task_state tk' = awake_state (task_state tk) /\
       blk_state tk' = (if is_pending tk then BLK_TIMEOUT else BLK_FINISH))) s.
Proof. intros Hr. apply wp_ticks_proc. by apply reachable_wf. Qed.

Example timeout_is_exact_witness :
  wp (ticks_proc 3) (fun _ s' => task_state (the_task s' first_task) = K_RDY) demo_sleep.
Proof.
  eapply wp_mono; [|apply (timeout_is_exact 3 demo_sleep first_task (the_task demo_sleep first_task))].
  - cbv beta. intros _ s' (_ & tk' & Ht & _ & H). destruct H as (_ & H & _); [by vm_compute|].
    unfold the_task. rewrite Ht. cbn. rewrite H. by vm_compute.
  - exact demo_sleep_reachable.
  - by vm_compute.
  - intros t Ht. vm_compute in Ht. apply list_elem_of_singleton in Ht as ->. by vm_compute.
  - vm_compute. left.
  - by vm_compute.
  - by vm_compute.
Defined.

(** ** The calls *)

(** C11: [krhino_mutex_lock]: every result, when it is given and what the call
    has done; a task that blocks waits for the mutex for at most [ticks] and has
    given its priority to the owner, and locking once more than the counter can hold resets the system.
    [krhino_mutex_unlock]: the last unlock frees the mutex, or makes a waiting
    task of the highest priority its owner. *)
Theorem mutex_correct s m ob :
  wf s -> g_objs s !! m = Some ob ->
  (forall ticks, g_active_task s <> g_idle_task -> 0 <= ticks < 2 ^ 64 ->
   (body ob <> KMutex (Some (g_active_task s)) MUTEX_NESTED_MAX ->
      wp (krhino_mutex_lock (Some m) ticks) (fun r s' => wf s' /\ lock_spec s m ob ticks r s') s) /\
   (g_sys_stat s <> RHINO_STOPPED -> g_intrpt_nested_level s <= 0 -> obj_type ob = RHINO_MUTEX_OBJ_TYPE ->
    body ob = KMutex (Some (g_active_task s)) MUTEX_NESTED_MAX ->
      krhino_mutex_lock (Some m) ticks s = Reset RHINO_MUTEX_NESTED_OVF)) /\
  wp (krhino_mutex_unlock (Some m)) (fun r s' => wf s' /\ unlock_spec s m ob r s') s.
Proof.
  intros Hwf Ho. split; [|by apply wp_krhino_mutex_unlock]. intros ticks Ha Ht. split; [by apply wp_krhino_mutex_lock|].
  intros Hs Hn Hty Hb. by eapply krhino_mutex_lock_ovf.
Qed.

Example mutex_correct_witness :
  wp (krhino_mutex_lock (Some a_mutex) 7) (fun r s' => wf s' /\ lock_spec demo a_mutex (the_obj demo a_mutex) 7 r s') demo /\
  wp (krhino_mutex_unlock (Some a_mutex)) (fun r s' => wf s' /\ unlock_spec demo_pi a_mutex (the_obj demo_pi a_mutex) r s') demo_pi.
Proof.
  split; [apply (mutex_correct demo a_mutex (the_obj demo a_mutex)); [exact demo_wf|by vm_compute..]|].
  apply (mutex_correct demo_pi); [exact demo_pi_wf|by vm_compute].
Defined.

(** C14: [krhino_sem_take] takes one unit, or waits, or says why it does not;
    [krhino_sem_give] and [krhino_sem_give_all] wake the first or all of the
    waiting tasks, or count one unit more, up to the largest count. *)
Theorem sem_correct s o ob :
  wf s -> g_objs s !! o = Some ob ->
  (forall ticks, g_active_task s <> g_idle_task -> 0 <= ticks < 2 ^ 64 ->
   wp (krhino_sem_take (Some o) ticks) (fun r s' => wf s' /\ take_spec s o ob ticks r s') s) /\
  wp (krhino_sem_give (Some o)) (fun r s' => wf s' /\ give_spec s o ob false r s') s /\
  wp (krhino_sem_give_all (Some o)) (fun r s' => wf s' /\ give_spec s o ob true r s') s.
Proof. intros Hwf Ho. split_and!; [intros; by apply wp_krhino_sem_take|by apply wp_sem_give..]. Qed.

Example sem_correct_witness :
  wp (krhino_sem_take (Some g_res_sem) RHINO_WAIT_FOREVER)
    (fun r s' => wf s' /\ take_spec demo g_res_sem (the_obj demo g_res_sem) RHINO_WAIT_FOREVER r s') demo /\
  wp (krhino_sem_give (Some a_sem)) (fun r s' => wf s' /\ give_spec demo a_sem (the_obj demo a_sem) false r s') demo.
Proof.
  split; [apply (sem_correct demo g_res_sem (the_obj demo g_res_sem)); [exact demo_wf|by vm_compute..]|].
  apply (sem_correct demo a_sem (the_obj demo a_sem)); [exact demo_wf|by vm_compute].
Defined.

(** C15: [krhino_event_set] clears flags with [RHINO_AND]; with [RHINO_OR] it
    sets them and wakes exactly the tasks whose condition then holds.
    [krhino_event_get] returns the flags when its condition holds, clearing the
    requested ones if asked, and waits otherwise. *)
Theorem event_correct s o ob flags opt :
  wf s -> g_objs s !! o = Some ob ->
  (0 <= flags < 2 ^ 32 -> opt = RHINO_AND \/ opt = RHINO_OR ->
   wp (krhino_event_set (Some o) flags opt) (fun r s' => wf s' /\ set_spec s o ob flags opt r s') s) /\
  (forall actl ticks, g_active_task s <> g_idle_task -> 0 <= ticks < 2 ^ 64 ->
   wp (krhino_event_get (Some o) flags opt (Some actl) ticks) (fun r s' => wf s' /\ get_spec s o ob flags opt ticks r s') s).
Proof. intros Hwf Ho. split; [intros Hf [-> | ->]; apply wp_event_set; auto|intros; by apply wp_krhino_event_get]. Qed.

Example event_correct_witness :
  wp (krhino_event_set (Some an_event) 2 RHINO_OR)
    (fun r s' => wf s' /\ set_spec demo an_event (the_obj demo an_event) 2 RHINO_OR r s') demo /\
  wp (krhino_event_get (Some an_event) 4 RHINO_OR_CLEAR (Some 0%nat) 9)
    (fun r s' => wf s' /\ get_spec demo an_event (the_obj demo an_event) 4 RHINO_OR_CLEAR 9 r s') demo.
Proof.
  split; [apply (event_correct demo); [exact demo_wf|by vm_compute|by vm_compute|by right]|].
  apply (event_correct demo an_event (the_obj demo an_event) 4 RHINO_OR_CLEAR); [exact demo_wf|by vm_compute..].
Defined.

(** C16: sending to a queue hands the message to the first or all of the waiting
    tasks, or stores it behind the others, unless the queue is full;
    [krhino_queue_recv] takes the oldest message, or waits.  The same of a buffer
    queue, whose messages, the size of their buffers, are copied when they fit
    and come back with their lengths. *)
Theorem queues_correct s o ob :
  wf s -> g_objs s !! o = Some ob ->
  (forall p, wp (krhino_queue_back_send (Some o) p) (fun r s' => wf s' /\ send_spec s o ob p false r s') s /\
             wp (krhino_queue_all_send (Some o) p) (fun r s' => wf s' /\ send_spec s o ob p true r s') s) /\
  (forall ticks msg, g_active_task s <> g_idle_task -> 0 <= ticks < 2 ^ 64 ->
   wp (krhino_queue_recv (Some o) ticks (Some msg)) (fun r s' => wf s' /\ recv_spec s o ob ticks r s') s) /\
  (forall d, (forall r mx cur peak mn, body ob = KBufQueue r mx cur peak mn -> buf_msg r mx d) ->
   wp (krhino_buf_queue_send (Some o) (Some d) (Z.of_nat (length d))) (fun r s' => wf s' /\ bsend_spec s o ob d r s') s) /\
  (forall ticks msg size, g_active_task s <> g_idle_task -> 0 <= ticks < 2 ^ 64 ->
   wp (krhino_buf_queue_recv (Some o) ticks (Some msg) (Some size)) (fun r s' => wf s' /\ brecv_spec s o ob ticks r s') s).
Proof.
  intros Hwf Ho. split_and!; [intros p; split; by apply wp_msg_send|intros; by apply wp_krhino_queue_recv|..].
  - intros d. by apply wp_buf_queue_send.
  - intros. by apply wp_krhino_buf_queue_recv.
Qed.

Example queues_correct_witness :
  wp (krhino_queue_back_send (Some a_queue) 0x1234)
    (fun r s' => wf s' /\ send_spec demo a_queue (the_obj demo a_queue) 0x1234 false r s') demo /\
  wp (krhino_queue_recv (Some a_queue) 3 (Some 0%nat))
    (fun r s' => wf s' /\ recv_spec demo a_queue (the_obj demo a_queue) 3 r s') demo /\
  wp (krhino_buf_queue_send (Some a_buf_queue) (Some [1; 2; 3]) 3)
    (fun r s' => wf s' /\ bsend_spec demo a_buf_queue (the_obj demo a_buf_queue) [1; 2; 3] r s') demo /\
  wp (krhino_buf_queue_recv (Some a_buf_queue) 0 (Some 0%nat) (Some 0%nat))
    (fun r s' => wf s' /\ brecv_spec demo a_buf_queue (the_obj demo a_buf_queue) 0 r s') demo.
Proof.
  pose proof (queues_correct demo a_queue (the_obj demo a_queue) demo_wf ltac:(by vm_compute)) as (H1 & H2 & _ & _).
  pose proof (queues_correct demo a_buf_queue (the_obj demo a_buf_queue) demo_wf ltac:(by vm_compute)) as (_ & _ & H3 & H4).
  split; [apply H1|]. split; [apply H2; by vm_compute|]. split; [apply (H3 [1; 2; 3])|apply H4; by vm_compute].
  intros r mx cur peak mn E. vm_compute in E. injection E as <- <- <- <- <-. by_eval.
Defined.

(** ** Tasks and scheduling *)

(** C23: [krhino_task_create] makes the task its arguments describe, ready or
    suspended, or changes nothing and says why.  [krhino_task_del] and, for a task
    that was allocated, [krhino_task_dyn_del] delete a task that was not: each of
    its mutexes is free or belongs, with the count it had, to the first task that
    waited for it, which does not wait any more; the task is out of the run queue,
    the tick list and every waiting list, and does not run; and the memory of a
    task that was allocated is put behind [g_res_list] and the semaphore of the
    task that frees it is given, while that of another is not.  When the counting
    semaphore has room the call comes back with the scheduler locked as before. *)
Theorem task_life_correct s :
  wf s ->
  (forall task name p ticks stack_buf stack_size entry autorun,
   g_sys_stat s = RHINO_RUNNING -> 0 < g_idle_task_spawned s -> 0 <= p -> (forall t, task = Some t -> fresh_task (g_tasks s) t) ->
   wp (krhino_task_create task name p ticks stack_buf stack_size entry autorun) (fun r s' => wf s' /\
     create_spec s task name stack_buf entry p stack_size (new_task p ticks stack_size autorun K_OBJ_STATIC_ALLOC) r s') s) /\
  (forall task tk, let t := default (g_active_task s) task in g_tasks s !! t = Some tk ->
   (task_state tk <> K_DELETED -> wp (krhino_task_del task) (fun r s' => wf s' /\ del_spec s t tk K_OBJ_STATIC_ALLOC r s') s) /\
   (g_sched_lock s < 2 ^ 8 - 1 -> res_sem_room s ->
    wp (krhino_task_dyn_del task) (fun r s' => (wf s' /\ del_spec s t tk K_OBJ_DYN_ALLOC r s') /\ frame s s') s)).
Proof.
  intros Hwf. split; [intros; by apply wp_task_create_run|].
  intros task tk t Ht. split; [by apply wp_krhino_task_del|by apply wp_krhino_task_dyn_del].
Qed.

Example task_life_correct_witness : let o := Some 12%nat in
  wp (krhino_task_create o o 7 0 o 64 o 1) (fun r s' => wf s' /\
    create_spec demo o o o o 7 64 (new_task 7 0 64 1 K_OBJ_STATIC_ALLOC) r s') demo /\
  wp (krhino_task_del (Some second_task)) (fun r s' => wf s' /\
    del_spec demo_pi second_task (the_task demo_pi second_task) K_OBJ_STATIC_ALLOC r s') demo_pi /\
  wp (krhino_task_dyn_del (Some first_task)) (fun r s' => (wf s' /\
    del_spec demo first_task (the_task demo first_task) K_OBJ_DYN_ALLOC r s') /\ frame demo s') demo.
Proof.
  split_and!.
  - apply (proj1 (task_life_correct demo demo_wf)); [by vm_compute..|]. intros t [= <-] tk Ht. vm_compute in Ht. discriminate Ht.
  - apply (proj2 (task_life_correct demo_pi demo_pi_wf) (Some second_task)); by vm_compute.
  - apply (proj2 (task_life_correct demo demo_wf) (Some first_task)); [by vm_compute..|].
    exists (the_obj demo g_res_sem), 0, 0. by_eval.
Defined.

Lemma wp_suspend_resume s t tk :
  wf s -> g_tasks s !! t = Some tk -> is_suspended tk = false ->
  wp (krhino_task_suspend (Some t)) (fun r s1 => r = Ret RHINO_SUCCESS ->
    wp (krhino_task_resume (Some t)) (fun r s2 => r = Ret RHINO_SUCCESS /\ wf s2 /\
      g_tasks s2 = <[t := set_suspend_count 0 tk]> (g_tasks s)) s1) s.
Proof.
  intros Hwf Ht Hns. eapply wp_mono; [|by eapply wp_krhino_task_suspend]. cbv beta. intros r s1 [Hwf1 Hsp] ->.
  inversion Hsp as [| | | |n s1' Hd Hn HT]; subst. rewrite Hns in HT.
  apply (live_not_deleted _ _ _ (kp_mid _ (wf_pre _ Hwf)) Ht) in Hd. destruct (suspended_once tk Hd Hns) as (Hs & Hl & Hres).
  eapply wp_mono; [|eapply wp_krhino_task_resume; [done|rewrite HT; apply lookup_insert_eq]]. cbv beta.
  intros r s2 [Hwf2 Hre]. destruct Hre as [|Hdead|s2 _ Hc|s2 _ _ HT2]; try congruence.
  - unfold is_live in Hl. by rewrite Hdead in Hl.
  - by cbn in Hc.
  - split_and!; [done|done|]. by rewrite HT2, HT, insert_insert_eq, Hres.
Qed.

(** C21: [krhino_task_sleep] puts the running task on the tick list for the given
    ticks and runs another one; [krhino_task_yield] puts it behind the ready tasks
    of its priority and runs the first of them.  [krhino_task_suspend] suspends a
    task, ready, asleep or waiting, and counts how often it was suspended;
    [krhino_task_resume] undoes one suspension and lets the task go on with what
    it was doing when it was the last.  A task suspended once and resumed is as it
    was, whatever it was doing. *)
Theorem task_states_correct s :
  wf s ->
  (forall ticks, g_active_task s <> g_idle_task -> 0 <= ticks < 2 ^ 64 ->
   wp (krhino_task_sleep ticks) (fun r s' => wf s' /\ sleep_spec s ticks r s') s) /\
  (g_intrpt_nested_level s = 0 -> wp krhino_task_yield (fun r s' => wf s' /\ r = Ret RHINO_SUCCESS /\ yielded s s') s) /\
  (forall t tk, g_tasks s !! t = Some tk ->
   wp (krhino_task_suspend (Some t)) (fun r s' => wf s' /\ suspend_spec s t tk r s') s /\
   wp (krhino_task_resume (Some t)) (fun r s' => wf s' /\ resume_spec s t tk r s') s /\
   (is_suspended tk = false ->
    wp (krhino_task_suspend (Some t)) (fun r s1 => r = Ret RHINO_SUCCESS ->
      wp (krhino_task_resume (Some t)) (fun r s2 => r = Ret RHINO_SUCCESS /\ wf s2 /\
        g_tasks s2 = <[t := set_suspend_count 0 tk]> (g_tasks s)) s1) s)).
Proof.
  intros Hwf. split_and!; [intros ticks; by apply wp_krhino_task_sleep|by apply wp_krhino_task_yield|]. intros t tk Ht.
  split_and!; [by apply wp_krhino_task_suspend|by apply wp_krhino_task_resume|by apply wp_suspend_resume].
Qed.

Example task_states_correct_witness : let t := second_task in let tk := the_task demo t in
  wp (krhino_task_sleep 10) (fun r s' => wf s' /\ sleep_spec demo 10 r s') demo /\
  wp krhino_task_yield (fun r s' => wf s' /\ r = Ret RHINO_SUCCESS /\ yielded demo s') demo /\
  wp (krhino_task_suspend (Some t)) (fun r s1 => r = Ret RHINO_SUCCESS ->
    wp (krhino_task_resume (Some t)) (fun r s2 => r = Ret RHINO_SUCCESS /\ wf s2 /\
      g_tasks s2 = <[t := set_suspend_count 0 tk]> (g_tasks demo)) s1) demo.
Proof.
  cbv zeta. destruct (task_states_correct demo demo_wf) as (H1 & H2 & H3).
  split_and!; [apply H1; by vm_compute|apply H2; by vm_compute|apply H3; by vm_compute].
Defined.

(** C22: [krhino_task_pri_change] gives the task a new base priority and changes
    no other field of a task but priorities; with C4 they are then the inherited
    ones, so the loop along the owners of mutexes ends with the right values. *)
Theorem pri_change_correct s t tk pri old :
  wf s -> g_tasks s !! t = Some tk -> 0 <= pri ->
  wp (krhino_task_pri_change (Some t) pri (Some old)) (fun r s' =>
    wf s' /\ pi_all (g_tasks s') /\ pri_change_spec s t tk pri r s') s.
Proof.
  intros Hwf Ht Hp. eapply wp_mono; [|by eapply wp_krhino_task_pri_change]. cbv beta. intros r s' [Hwf' H].
  split_and!; [done|apply (kp_pi _ (kp_mid _ (wf_pre _ Hwf')))|done].
Qed.

Example pri_change_correct_witness :
  wp (krhino_task_pri_change (Some first_task) 50 (Some 0%nat)) (fun r s' =>
    wf s' /\ pi_all (g_tasks s') /\ pri_change_spec demo_pi first_task (the_task demo_pi first_task) 50 r s') demo_pi.
Proof. apply pri_change_correct; [exact demo_pi_wf|by vm_compute..]. Defined.

(** C24: one tick advances the clock, wakes exactly the tasks that are due, in
    the order of the list, and then charges the time slice of the running
    priority, turning its ring when the slice is used up. *)
Theorem tick_correct s :
  wf s -> 0 < g_intrpt_nested_level s ->
  wp krhino_tick_proc (fun _ s' => wf s' /\ ctl s' = ctl s /\ exists s1 p, tick_spec s s1 /\ slice_spec s1 p s') s.
Proof. apply wp_krhino_tick_proc. Qed.

Example tick_correct_witness :
  wp krhino_tick_proc (fun _ s' => wf s' /\ ctl s' = ctl demo_sleep /\
    exists s1 p, tick_spec demo_sleep s1 /\ slice_spec s1 p s') demo_sleep.
Proof. apply tick_correct; [exact demo_sleep_wf|by vm_compute]. Defined.

(** C25: two counters decide whether tasks are switched.  The lock of the
    scheduler counts: it is bounded, and the call that takes it back to zero runs
    the scheduler.  The nesting of interrupts is checked: one level too many, or
    an exit without an interrupt, resets the system instead of wrapping the
    counter. *)
Theorem switch_counters_checked s :
  (wf s -> wp krhino_sched_disable (fun r s' => wf s' /\ disable_spec s r s') s /\
           wp krhino_sched_enable (fun r s' => wf s' /\ enable_spec s r s') s) /\
  (RHINO_CONFIG_INTRPT_MAX_NESTED_LEVEL <= g_intrpt_nested_level s ->
     krhino_intrpt_enter s = Reset RHINO_INTRPT_NESTED_LEVEL_OVERFLOW) /\
  (g_intrpt_nested_level s = 0 -> krhino_intrpt_exit s = Reset RHINO_INV_INTRPT_NESTED_LEVEL) /\
  (wf s -> g_intrpt_nested_level s < RHINO_CONFIG_INTRPT_MAX_NESTED_LEVEL ->
     wp krhino_intrpt_enter (fun r s' => r = Ret RHINO_SUCCESS /\ wf s' /\
       s' = set_g_intrpt_nested_level (g_intrpt_nested_level s + 1) s) s).
Proof.
  split_and!; [intros Hwf; split; [by apply wp_krhino_sched_disable|by apply wp_krhino_sched_enable]|..].
  - apply krhino_intrpt_enter_ovf.
  - apply krhino_intrpt_exit_inv.
  - apply krhino_intrpt_enter_wf.
Qed.

Example switch_counters_checked_witness :
  wp krhino_sched_disable (fun r s' => wf s' /\ disable_spec demo r s') demo /\
  krhino_intrpt_exit demo = Reset RHINO_INV_INTRPT_NESTED_LEVEL.
Proof.
  split; [apply (proj1 (switch_counters_checked demo) demo_wf)|].
  apply (proj1 (proj2 (proj2 (switch_counters_checked demo)))). by vm_compute.
Defined.

(** C26: the start of the system, whatever the program creates first.  After
    [krhino_init] it may create tasks and objects, and each such call returns
    and leaves a system that may go on so; [krhino_start] then runs it: it does
    not return to its caller, the running task is ready and none has a higher
    priority, the scheduler is unlocked, no task and no object changed, the
    invariant of the kernel holds, and a second start changes nothing. *)
Theorem system_starts s : prepared s ->
  (forall c, creation c = true -> legal s c -> exists s', step s c s' /\ prepared s') /\
  exists s', krhino_start s = Ok (Blocked, s') /\ kinv s' /\ g_tasks s' = g_tasks s /\ g_objs s' = g_objs s /\
    g_sched_lock s' = 0 /\ g_intrpt_nested_level s' = 0 /\
    (exists q, ready (g_tasks s) (g_active_task s') = Some q /\ forall t p, ready (g_tasks s) t = Some p -> q <= p) /\
    krhino_start s' = Ok (Ret RHINO_RUNNING, s').
Proof.
  intros Hp. pose proof (prepared_setup _ Hp) as Hs. split.
  - intros c Hc Hl. destruct (proj1 (wp_Ok _ _ _) (setup_creation_ok s c Hs Hc Hl)) as ([] & s' & E & _).
    exists s'. split; [by constructor|]. by eapply prep_create; [exact Hp|exact Hc|constructor].
  - destruct (setup_start s Hs) as (t & E & Hk). destruct (bt_levels _ (su_boot _ Hs)) as [Hn Hl]. eexists. split; [exact E|].
    split_and!; try done.
    destruct (wf_ready _ (ki_wf _ Hk) Hn) as [q Hq]. exists q. split; [exact Hq|]. intros u p Hu.
    destruct (wf_highest _ u p (ki_wf _ Hk) Hn Hl Hu) as (q' & Hq' & Hle). rewrite Hq in Hq'. by injection Hq' as ->.
Qed.

Example system_starts_witness : exists s', krhino_start main_state = Ok (Blocked, s') /\ kinv s' /\ g_tasks s' = g_tasks main_state.
Proof.
  destruct (system_starts main_state main_prepared) as [_ (s' & E & Hk & HT & _)]. exists s'. split; [exact E|]. split; [exact Hk|exact HT].
Defined.

(** ** Software timers *)

(** C31: the timer task, when its wait ends, at the tick [c] and with commands in
    its queue: it executes every command once, in the order they were sent, each
    making of its timer what [cmd_timer] says, and calls callbacks of timers that
    are due, until its queue is empty and no timer is due first; then it waits
    again.  When no timer was late, the timers are then exactly those
    [timers_after] computes from the commands; and without commands it called the
    timers that were due, once each, and no timer is due any more. *)
Theorem timer_task_correct c n T l f c0 k pc msg ms :
  timers_ok T l -> timer_runs c k ms -> woken_by k pc msg -> cmds_ok (dom T) (msg ++ ms) ->
  (length ms + length (due_list c T l) < n)%nat ->
  wp (timer_task_resume n pc) (fun pc' s' =>
    timer_blocked c pc' (kern s') (tims s') /\
    task_resumed c T l f msg ms (g_timers (tims s')) (g_timer_head (tims s')) (fired (tims s')) /\
    (timely c T l -> g_timers (tims s') = timers_after c msg ms T /\
      (msg ++ ms = [] -> exists ts, fired (tims s') = f ++ called T ts /\ NoDup ts /\ (forall t, t ∈ ts <-> t ∈ l /\ due_at T c t) /\
         (forall t, t ∈ g_timer_head (tims s') -> ~ due_at (g_timers (tims s')) c t)))) (mkSys k (mkTs T l c0 f)).
Proof.
  intros Hok Hk Hw Hms Hn. eapply wp_mono; [|by apply (wp_timer_task_resume c n T l f c0 k pc msg ms)]. cbv beta.
  intros pc' s' [B R]. split; [done|]. split; [done|]. intros Ht. split; [by eapply resumed_timers_after|].
  intros [-> ->]%app_eq_nil. eapply resumed_timely; [done..|apply B].
Qed.

Example timer_task_correct_witness :
  wp (timer_task_resume 1 AtCommand) (fun _ s' => g_timers (tims s') = g_timers run_timers) (mkSys demo_timer idle_timers) /\
  wp (timer_task_resume 2 AtTimer) (fun _ s' => a_timer ∈ (fired (tims s')).*1) (mkSys demo_expired run_timers).
Proof.
  split.
  - eapply wp_mono; [|apply (timer_task_correct 0 1 (g_timers idle_timers) [] [] 0 demo_timer AtCommand [start_msg] [])].
    + cbv beta. intros pc' s' (_ & _ & H). destruct (H idle_timers_timely) as [-> _]. vm_compute. reflexivity.
    + exact idle_timers_ok.
    + exact demo_timer_runs.
    + eexists. split; [vm_compute; reflexivity|by vm_compute].
    + eexists _, TIMER_CMD_START. split; [vm_compute; reflexivity|].
      split; [done|]. split; [by split|]. split; [apply elem_of_dom; eexists; vm_compute; reflexivity|exact I].
    + vm_compute. lia.
  - eapply wp_mono; [|apply (timer_task_correct 5 2 (g_timers run_timers) [a_timer] [] 0 demo_expired AtTimer [] [])].
    + cbv beta. intros pc' s' (_ & _ & H). destruct (H run_timers_timely) as [_ H']. destruct (H' eq_refl) as (ts & -> & _ & Hin & _).
      apply list_elem_of_fmap. exists (a_timer, targ (g_timers run_timers) a_timer). split; [done|]. cbn [app].
      apply list_elem_of_fmap. exists a_timer. split; [done|]. apply Hin. split; [left|by vm_compute].
    + exact run_timers_ok.
    + exact demo_expired_runs.
    + eexists. split; [vm_compute; reflexivity|by vm_compute].
    + exact I.
    + vm_compute. lia.
Defined.

(** C32: a call on a timer takes effect in two steps.  The call puts the message
    for its command and arguments in the queue of the timer task, or hands it to
    the task; [krhino_timer_change] refuses the two times that are as large as
    the counter, and sends nothing.  The task then does with the timer what the
    command says, to no other timer anything, and keeps the list of the timers
    in order; a command that does not apply to the state of its timer changes
    nothing. *)
Theorem timer_calls_correct :
  (forall s ms q t m, wf s -> timer_queue s ms -> Z.of_nat t < 2 ^ 32 -> length m = 24%nat -> req_typed q ->
     wp (run_req q (Some t) m) (fun r s' => wf s' /\
       if req_refused q then r = Ret RHINO_INV_PARAM /\ s' = s
       else exists ob m', g_objs s !! g_timer_queue = Some ob /\ req_says q t m' /\ bsend_spec s g_timer_queue ob m' r s') s) /\
  (forall T l c f cb cmd tm, timers_ok T l -> T !! cb_timer cb = Some tm -> cb_num cb = cmd_num cmd -> cmd_legal cb cmd ->
     wp (timer_cmd_proc cb) (fun _ s' => tok s' /\ g_timers s' = with_timer (cb_timer cb) (cmd_timer c cb cmd tm) T /\
       g_timer_count s' = c /\ fired s' = f /\ (timely c T l -> timely c (g_timers s') (g_timer_head s'))) (mkTs T l c f)).
Proof.
  split; [intros s ms q t m; apply wp_timer_req|]. intros T l c f cb cmd tm Hok Ht Hn Hleg.
  eapply wp_timer_cmd_proc; [done..|]. intros l' Hok' Hti. by split_and!.
Qed.

Example timer_calls_correct_witness :
  wp (krhino_timer_change (Some a_timer) 7 0 (replicate 24 0)) (fun r s' => wf s' /\ exists ob m',
    g_objs demo_timer !! g_timer_queue = Some ob /\ req_says (ReqChange 7 0) a_timer m' /\
    bsend_spec demo_timer g_timer_queue ob m' r s') demo_timer /\
  wp (timer_cmd_proc (mkCb a_timer 5 0 99)) (fun _ s' =>
    g_timers s' !! a_timer = Some (Timer.started 0 (new_timer 5 10 99 K_OBJ_STATIC_ALLOC))) run_timers.
Proof.
  split.
  - apply (proj1 timer_calls_correct demo_timer [] (ReqChange 7 0) a_timer (replicate 24 0)).
    + apply demo_timer_runs.
    + apply demo_timer_runs.
    + by vm_compute.
    + done.
    + by vm_compute.
  - eapply wp_mono; [|apply (proj2 timer_calls_correct (g_timers run_timers) [a_timer] 0 [] (mkCb a_timer 5 0 99) TIMER_ARG_CHG_AUTO
      (Timer.started 0 an_idle_timer))].
    + cbv beta. intros _ s' (_ & -> & _). vm_compute. reflexivity.
    + exact run_timers_ok.
    + by vm_compute.
    + done.
    + done.
Defined.

(** A timer can be left out although it is due: when several timers are late,
    a periodic one that is put back goes before the late ones, and the task waits
    for it first. *)
Theorem late_timer_left_out :
  tok late_timers /\ wf start_state /\
  wp (timer_loop 9) (fun pc s' => pc = AtTimer /\ exists t, t ∈ g_timer_head (tims s') /\ due_at (g_timers (tims s')) 0 t)
    (mkSys start_state late_timers).
Proof.
  split; [exact late_timers_ok|]. split; [exact start_wf|]. apply wp_Ok.
  eexists _, _. split; [vm_compute; reflexivity|]. split; [done|]. exists 3%nat. split; [right; right; left|by vm_compute].
Qed.

(** ** The data structures *)

(** C33: a ring buffer of either type refines a bounded queue of messages: over
    any sequence of pushes, pops and resets it gives the answers the queue gives,
    a message of the variable type costing its bytes and a header of 1 to 3. *)
Theorem ring_buffer_refines_queue buf b cs :
  (0 < length buf)%nat ->
  (Forall (RingBuf.call_ok dyn_msg) cs ->
     ring_run (ringbuf_init buf RINGBUF_TYPE_DYN b) cs =
       Some (spec_run (fun m => length (dyn_encode m)) (length buf) [] cs)) /\
  ((0 < b)%nat -> Nat.divide b (length buf) -> Forall (RingBuf.call_ok (fun m => length m = b)) cs ->
     ring_run (ringbuf_init buf RINGBUF_TYPE_FIX b) cs = Some (spec_run (fun _ => b) (length buf) [] cs)).
Proof.
  intros Hb. split.
  - intros Hcs. exact (ring_run_spec _ _ _ _ (dyn_init buf b Hb) Hcs).
  - intros Hb0 Hd Hcs. exact (ring_run_spec _ _ _ _ (fix_init buf b Hb0 Hb Hd) Hcs).
Qed.

Example ring_buffer_refines_queue_witness :
  ring_run (ringbuf_init (replicate 4 0) RINGBUF_TYPE_DYN 0) [CPush [7; 8]; CPush [9]; CPop; CPop] =
    Some [APush RHINO_SUCCESS; APush RHINO_RINGBUF_FULL; APop RHINO_SUCCESS (Some [7; 8]); APop RHINO_RINGBUF_EMPTY None].
Proof.
  rewrite (proj1 (ring_buffer_refines_queue (replicate 4 0) 0 [CPush [7; 8]; CPush [9]; CPop; CPop] ltac:(vm_compute; lia))).
  - vm_compute. reflexivity.
  - repeat constructor; vm_compute; discriminate.
Defined.

(** C37: the bitmap gives the first bit that is set, after any sets and clears. *)
Theorem find_first_bit_correct bm nr :
  words_ok bm -> 0 <= nr -> bm_bit bm nr = true ->
  exists k, krhino_find_first_bit bm = Some k /\ 0 <= k <= nr /\ bm_bit bm k = true /\
    forall i, 0 <= i < k -> bm_bit bm i = false.
Proof. apply krhino_find_first_bit_spec. Qed.

Example find_first_bit_correct_witness : exists k, krhino_find_first_bit [0; 0x00100000] = Some k /\ 0 <= k <= 43 /\
  bm_bit [0; 0x00100000] k = true /\ forall i, 0 <= i < k -> bm_bit [0; 0x00100000] i = false.
Proof. apply find_first_bit_correct; [repeat constructor; vm_compute; congruence|by vm_compute..]. Defined.

(** C38: the atomic operations, called by tasks and interrupts that preempt each
    other between any two accesses to memory whenever interrupts are enabled.
    No call gets stuck, and however they interleave, the calls that have taken
    effect have an order, in which each context's are those it made, in its order
    and with the results it got, and which later steps only extend; in that order
    every word goes from value to value as if each call were one step.  So no
    addition is lost, the numbers given out by [rhino_atomic_inc] are different
    until the word wraps, and of those who try to replace a value with
    [rhino_atomic_cas] the first one alone succeeds.  The operations on sets of
    CPUs change the bit they name. *)
Theorem atomic_correct :
  (forall m0 (P : gmap nat (bool * list (nat * atomic_op))) first es s,
     map_Forall (fun _ => word) m0 -> is_Some (P !! first) ->
     (forall i b calls t op, P !! i = Some (b, calls) -> (t, op) ∈ calls -> op_ok op /\ is_Some (m0 !! t)) ->
     mruns atomic_call es (mstart m0 P first) = Some s ->
     (forall c, ctxs s !! cur s = Some c -> finished c = false -> is_Some (mstep atomic_call Run s)) /\
     exists l, linear atomic_call m0 P l s /\
       (forall es' s', mruns atomic_call es' s = Some s' -> exists l', linear atomic_call m0 P (l ++ l') s') /\
       forall t v, m0 !! t = Some v -> let ops := ops_on t l in
         results_on t l = answers ops v /\ word (finally ops v) /\
         ((forall c, ctxs s !! cur s = Some c -> between c) -> memory s !! t = Some (finally ops v)) /\
         (forall ds, mapM delta ops = Some ds -> finally ops v = u32 (v + foldr Z.add 0 ds)) /\
         (forall n, ops = replicate n AtInc -> Z.of_nat n <= 2 ^ 32 -> NoDup (results_on t l)) /\
         (forall op ops', ops = op :: ops' -> Forall (fun op => exists b, op = AtCas v b /\ b <> v) ops ->
            results_on t l = 1 :: replicate (length ops') 0)) /\
  (forall m c v n b, m !! c = Some v -> word v -> 0 <= n < 31 ->
     alone (CPUSET_ATOMIC_SET c n) b m = Some (tt, b, <[c := CPUSET_SET v n]> m) /\
     alone (CPUSET_ATOMIC_CLR c n) b m = Some (tt, b, <[c := CPUSET_CLR v n]> m) /\
     forall i, 0 <= i -> CPUSET_ISSET (CPUSET_SET v n) i = bool_decide (i = n) || CPUSET_ISSET v i /\
                         CPUSET_ISSET (CPUSET_CLR v n) i = negb (bool_decide (i = n)) && CPUSET_ISSET v i).
Proof.
  split.
  - intros m0 P first es s Hm Hf HP E.
    destruct (runs_linear atomic_call (fun x => x.1 ∈ dom m0) (dom m0) (fun x _ => atomic_protected x) (atomic_safe (dom m0)) m0 P first es s)
      as (Hpr & l & Hl & Hext); [done|done| |exact E|].
    { intros i b cs Hi. apply Forall_forall. intros [t op] Hin. apply elem_of_dom. by destruct (HP _ _ _ _ _ Hi Hin). }
    split; [exact Hpr|]. exists l. split; [exact Hl|]. split; [exact Hext|]. intros t v Ht ops.
    destruct (li_order _ _ _ _ _ Hl) as (m & Ho & Hmem). destruct (order_words _ _ _ Ho t v Ht) as [Ev Er]. fold ops in Ev, Er.
    assert (Hv : word v) by by apply (Hm t). split; [done|]. split.
    { apply finally_word; [|done]. apply Forall_forall. intros op Hin. apply list_elem_of_fmap in Hin as (d & -> & [_ Hd]%list_elem_of_filter).
      destruct (linear_calls _ _ _ _ _ _ Hl Hd) as ([b cs] & Hp & Hin). destruct (which d) as [u op] eqn:Ed. by destruct (HP _ _ _ _ _ Hp Hin). }
    rewrite Er. split_and!.
    + intros Hb. by rewrite Hmem.
    + intros ds Hds. by apply finally_counts.
    + intros n -> Hn. by apply tickets_differ.
    + intros op ops' Eo Hcas. rewrite (cas_once v) by done. by rewrite Eo, Z.eqb_refl.
  - intros m c v n b Hv Hw Hn. destruct (cpuset_set_run m c n v b Hv ltac:(lia)) as (E1 & H1).
    destruct (cpuset_clr_run m c n v b Hv Hw ltac:(lia)) as (E2 & H2). split_and!; [done..|]. intros i Hi. auto.
Qed.

(** a task that adds 1 and one that adds 2, preempting each other *)
Definition two_adders : gmap nat (bool * list (nat * atomic_op)) :=
  {[0%nat := (true, [(0%nat, AtInc)]); 1%nat := (true, [(0%nat, AtAdd 2)])]}.
Definition adder_events : list event :=
  [Run; Switch 1; Run; Run; Run; Run; Run; Run; Switch 0; Run; Run; Run; Run; Run; Switch 1; Run; Switch 0; Run].
Definition adders_done : machine := Eval vm_compute in
  default (mstart {[0%nat := 5]} two_adders 0) (mruns atomic_call adder_events (mstart {[0%nat := 5]} two_adders 0)).

Example atomic_correct_witness : exists l, linear atomic_call {[0%nat := 5]} two_adders l adders_done /\
  memory adders_done !! 0%nat = Some (finally (ops_on 0 l) 5) /\ memory adders_done !! 0%nat = Some 8.
Proof.
  destruct (proj1 atomic_correct {[0%nat := 5]} two_adders 0%nat adder_events adders_done) as (_ & l & Hl & _ & H).
  - intros t v [_ <-]%lookup_singleton_Some. by vm_compute.
  - by eexists.
  - intros i b calls t op Hi Hin. unfold two_adders in Hi. apply lookup_insert_Some in Hi as [[<- [= <- <-]]|[_ Hi]].
    + apply list_elem_of_singleton in Hin as [= -> ->]. split; [done|by eexists].
    + apply lookup_singleton_Some in Hi as [<- [= <- <-]]. apply list_elem_of_singleton in Hin as [= -> ->]. split; [done|by eexists].
  - vm_compute. reflexivity.
  - exists l. split; [exact Hl|]. split; [|by vm_compute]. apply (H 0%nat 5 eq_refl). intros c Hc. vm_compute in Hc. by injection Hc as <-.
Defined.

(** C39: what goes into a fifo comes out in order: [fifo_in] takes what fits, with
    the indexes wrapping at 32 bits, and [fifo_out_all] gives everything back. *)
Theorem fifo_roundtrip f q src len :
  fifo_rep f q -> 0 <= len < 2 ^ 32 -> len <= Z.of_nat (length src) ->
  let n := Z.min len (f_size f - Z.of_nat (length q)) in
  exists f1 f2, fifo_in f src len = Some (n, f1) /\
    fifo_out_all f1 = Some (Z.of_nat (length q) + n, q ++ take (Z.to_nat n) src, f2) /\ fifo_rep f2 [].
Proof.
  intros Hf Hl Hs n. destruct (fifo_in_spec f q src len Hf Hl Hs) as (f1 & E1 & H1). fold n in E1, H1.
  destruct (fifo_out_all_spec _ _ H1) as (f2 & E2 & H2). exists f1, f2. split_and!; [done| |done]. rewrite E2. repeat f_equal.
  pose proof (fr_fits _ _ Hf). rewrite length_app, length_take. lia.
Qed.

Definition full_fifo : k_fifo := snd (fifo_init (mkFifo 0 0 0 [] 0 0) (replicate 4 0) 4).

Example fifo_roundtrip_witness : exists f1 f2, fifo_in full_fifo [1; 2; 3] 3 = Some (3, f1) /\
  fifo_out_all f1 = Some (3, [1; 2; 3], f2) /\ fifo_rep f2 [].
Proof.
  apply (fifo_roundtrip full_fifo [] [1; 2; 3] 3); [|by vm_compute..].
  destruct (fifo_init_spec (mkFifo 0 0 0 [] 0 0) (replicate 4 0) 2) as (f & E & _ & H); [lia|done|].
  change full_fifo with (snd (fifo_init (mkFifo 0 0 0 [] 0 0) (replicate 4 0) (2 ^ 2))). rewrite E. exact H.
Defined.

(** C40: the linked lists: inserting before the first node that must come later
    gives the sequence [insert_before] describes, and removing a node the
    sequence without it. *)
Theorem list_operations_correct h hd stop l el fuel :
  klist_rep h hd l ->
  (el ∉ hd :: l -> is_Some (h !! el) -> (length l < fuel)%nat ->
     exists h', klist_pri_insert fuel stop hd el h = Some h' /\ klist_rep h' hd (insert_before stop el l)) /\
  (el ∈ l -> exists h', klist_rm el h = Some h' /\ klist_rep h' hd (klist_del el l)).
Proof. intros H. split; [by apply klist_pri_insert_rep|by apply klist_rm_del]. Qed.

Definition two_nodes : KList.store := {[ 1%nat := mkNode 2 2; 2%nat := mkNode 1 1; 3%nat := mkNode 0 0 ]}.

Example list_operations_correct_witness :
  (exists h', klist_pri_insert 9 (fun _ => true) 1 3 two_nodes = Some h' /\ klist_rep h' 1 [3%nat; 2%nat]) /\
  (exists h', klist_rm 2 two_nodes = Some h' /\ klist_rep h' 1 []).
Proof.
  assert (H : klist_rep two_nodes 1 [2%nat]).
  { split; [|by vm_compute]. apply (bool_decide_unpack _). by vm_compute. }
  split.
  - apply (list_operations_correct two_nodes 1 (fun _ => true) [2%nat] 3 9 H); [|by eexists|cbn; lia].
    apply (bool_decide_unpack _). by vm_compute.
  - apply (list_operations_correct two_nodes 1 (fun _ => true) [2%nat] 2 9 H). apply (bool_decide_unpack _). by vm_compute.
Defined.
