(* ===== verification/UartProps.v ===== *)
(** * The property of the UART bus

    The frames that come in over the wire go to the bus one by one and in their
    order, and two traces that show why the conditions are there. *)

From S2P Require Import Prelude Config UartBus.
Open Scope Z_scope.

(** C17: [uart_bus_irq_hdl], [uart_bus_timer_cb] and [uart_bus_task] from
    [mac_bus_uart_attach] on, in any interleaving of the interrupts with the
    pieces of the task in which the bytes that come in are those of the frames
    [fs] (magic number, length at offset 4), no pause inside a frame lets the
    timer go off, a frame does not end before the task has copied the one
    before, the ring has room and the allocations succeed.  The ring is never
    read or written out of its bounds and no copy is longer than its buffer; the
    arguments of [bus.recv] are the first frames of [fs], each whole and none
    twice, and all of them once the task waits and its semaphore is 0. *)
Theorem uart_frames_in_order es fs :
  uart_legal_run frames0 es -> no_pause frames0 es -> bytes_of es = concat fs ->
  Forall frame_ok fs -> Forall (Forall (fun b => 0 <= b < 256)) fs ->
  exists u, uart_run es (mac_bus_uart_attach 0) = Ok (tt, u) /\
    exists w, recvd u ++ w = fs /\ (pc u = AtDown -> sema u = 0 -> w = []).
Proof.
  intros Hl Hp Hb Hf Hr. pose proof (uart_run_ok es _ _ uart_rep_init Hl) as H. apply wp_Ok in H as ([] & u & E & Hu).
  exists u. split; [done|]. exists (waiting (frames_run frames0 es)). split; [|by apply uart_rep_rest].
  rewrite (ur_recvd _ _ Hu). rewrite (frames_run_in_order es frames0 fs Hl Hp); done.
Qed.

(** two frames; the second comes in while the task copies the first *)
Definition frame_a : list Z := [0x2B; 0x1A; 1; 0; 7; 0; 42].
Definition frame_b : list Z := [0x2B; 0x1A; 2; 0; 6; 0].
Definition trace_ab : list uart_event :=
  map EvByte frame_a ++ [EvTask None] ++ map EvByte (take 3 frame_b) ++ [EvTask (Some (replicate 7 99))] ++ map EvByte (drop 3 frame_b) ++
  [EvTask None; EvTask None; EvTimeout; EvTask None; EvTask (Some (replicate 6 99)); EvTask None; EvTask None; EvTask None].

Lemma uart_frames_in_order_witness : exists u, uart_run trace_ab (mac_bus_uart_attach 0) = Ok (tt, u) /\
  exists w, recvd u ++ w = [frame_a; frame_b] /\ (pc u = AtDown -> sema u = 0 -> w = []).
Proof.
  apply (uart_frames_in_order trace_ab [frame_a; frame_b]).
  - cbn. repeat match goal with |- _ /\ _ => split | |- True => exact I | |- _ -> _ => intros ? end; try lia; try done; try (by left); try (by right);
      try (eexists; by split).
  - cbn. repeat match goal with |- _ /\ _ => split | |- True => exact I | |- _ -> _ => intros ? end; done.
  - reflexivity.
  - by repeat constructor.
  - unfold frame_a, frame_b. repeat constructor; lia.
Defined.

Example trace_ab_recvd : match uart_run trace_ab (mac_bus_uart_attach 0) with Ok (_, u) => (recvd u, pc u, sema u) = ([frame_a; frame_b], AtDown, 0) | _ => False end.
Proof. vm_compute. reflexivity. Qed.

(** ** What the conditions keep out *)

(** a frame that ends before the task has copied the one before: the bus gets
    both as one *)
Example frames_run_together :
  match uart_run (map EvByte (frame_a ++ frame_b) ++ [EvTask None; EvTask (Some (replicate 13 0)); EvTask None; EvTask None]) (mac_bus_uart_attach 0) with
  | Ok (_, u) => recvd u = [frame_a ++ frame_b] | _ => False end.
Proof. vm_compute. reflexivity. Qed.

(** a frame of [n] bytes *)
Definition frame_of (n : Z) : list Z := [0x2B; 0x1A; 0; 0; n mod 256; n / 256] ++ replicate (Z.to_nat n - 6) 0.

(** at the end of the ring the same makes the task copy past its buffer: it has
    counted 8 bytes, and copies the 16 up to the end of the ring *)
Example task_copies_too_much :
  uart_run (map EvByte (frame_of 4080) ++ [EvTask None; EvTask (Some (replicate 4080 0)); EvTask None; EvTask None] ++
            map EvByte (frame_of 8) ++ [EvTask None] ++ map EvByte (frame_of 12) ++ [EvTask (Some (replicate 8 0))]) (mac_bus_uart_attach 0) = Undef.
Proof. vm_compute. reflexivity. Qed.
