(* ===== verification/CsiProps.v ===== *)
(** * The properties of the CSI interface

    The interface the SDK programs against, on the kernel and its heap together;
    the priorities and the list of tasks it shows. *)

From S2P Require Import Prelude Config State Inv PriChange KInv Task Frame Sys Kernel Mem Mm.
From S2P Require Import MmInit MmUse HeapProps Csi CsiSys Demo BufQueue RingBuf Timer TimerTask CsiTimer.
Open Scope Z_scope.

(** C12: a program that uses the CSI calls owes them little: pointers to objects
    and tasks, its own blocks, blocking calls outside the idle task; not the
    fresh memory the calls of the kernel ask for.  From the start of the system
    with its heap, a legal call returns whatever came before: the invariants of
    the kernel and of the heap hold again; every object that is in the heap has
    a block of its size for itself; a handle that is given is new, and a deleted
    one is gone, with no other object made or deleted; the words of the other
    blocks are as they were. *)
Theorem csi_system_correct addr len s U c : csi_reach addr len s U -> csi_legal s U c ->
  exists r s', csi_exec addr c s = Ok (r, s') /\ csi_reach addr len s' (csi_after U c r) /\
    kinv (c_kern s') /\ heap_ok (in_heap addr len) (c_heap s') (csi_after U c r) /\
    (forall o ty, kind (c_kern s') o = Some ty -> in_heap addr len (Z.of_nat o) -> csi_after U c r !! Z.of_nat o = Some (obj_size ty)) /\
    csi_gives s U c r s'.
Proof.
  intros Hr Hc. destruct (csi_progress _ _ _ _ _ Hr Hc) as (r & s' & E & Hr' & Hg). exists r, s'.
  destruct (csi_reach_ok _ _ _ _ Hr') as [[H1 H2 H3] _]. done.
Qed.

Lemma start_objs o ty : kind start_state o = Some ty -> (o < 2)%nat.
Proof.
  assert (H : forallb (fun p => (p.1 <? 2)%nat) (map_to_list (g_objs start_state)) = true) by (vm_compute; reflexivity).
  unfold kind. destruct (g_objs start_state !! o) as [ob|] eqn:Eo; [|done]. intros _. rewrite forallb_forall in H.
  assert (Hin : In (o, ob) (map_to_list (g_objs start_state))) by by apply list_elem_of_In, elem_of_map_to_list.
  apply H in Hin. by apply Nat.ltb_lt in Hin.
Qed.

Lemma csi_started : csi_reach 0x1000 10000 (mkCsi start_state heap1) ∅.
Proof.
  apply csi_start; [exact start_started|exact reach1|]. intros o ty Ho [Hin _]. pose proof (start_objs _ _ Ho).
  unfold init_addr in Hin. change head_size with 1952 in Hin. zlia.
Qed.

Example csi_system_correct_witness : exists r s', csi_exec 0x1000 (CSemNew 5 2) (mkCsi start_state heap1) = Ok (r, s') /\
  csi_reach 0x1000 10000 s' (csi_after ∅ (CSemNew 5 2) r).
Proof.
  destruct (csi_system_correct 0x1000 10000 _ _ (CSemNew 5 2) csi_started I) as (r & s' & E & Hr & _). exists r, s'. split; [exact E|exact Hr].
Defined.

(** what such a system does: a semaphore with one unit is made, taken, taken
    again without waiting, and deleted *)
Fixpoint csi_results (cs : list csi_call) (s : csys) : list cresult :=
  match cs with
  | [] => []
  | c :: cs => match csi_exec 0x1000 c s with Ok (r, s') => r :: csi_results cs s' | _ => [] end
  end.

Definition a_handle : nat := Z.to_nat 10208.

Example csi_trace :
  csi_results [CSemNew 5 1; CSemWait (Some a_handle) 0; CSemWait (Some a_handle) 0; CSemPost (Some a_handle); CSemDel (Some a_handle); CMalloc 20]
    (mkCsi start_state heap1) =
  [RHandle (Some a_handle); RStat (CRet 0); RStat (CRet (-1)); RStat (CRet 0); RStat (CRet 0); RPtr 6104].
Proof. vm_compute. reflexivity. Qed.

(** ** Tasks *)

(** C34: a priority given through [csi_kernel_task_set_prio] is what
    [csi_kernel_task_get_prio] shows, unless a task of a higher priority waits for
    a mutex of the task: the priority shown is then the highest of those that
    wait, whether the base priority was raised or lowered.  The call fails for the idle task, in
    interrupts and for arguments that are no priority, and changes nothing
    then.  A larger number is a higher priority, unlike in the kernel. *)
Theorem csi_priority_roundtrip s t tk p : wf s -> g_tasks s !! t = Some tk -> is_live tk = true ->
  wp (r ← csi_kernel_task_set_prio (Some t) p; q ← csi_kernel_task_get_prio (Some t); mret (r, q)) (fun '(r, q) s' =>
    wf s' /\
    if (0 <? p) && (p <=? KPRIO_REALTIME7) && (g_intrpt_nested_level s <=? 0) && (prio tk <? RHINO_IDLE_PRI)
    then r = CRet 0 /\ p <= q /\ (mutex_list tk = [] -> q = p) /\
      (forall m u, m ∈ mutex_list tk -> waits (g_tasks s') u = Some m -> shown_prio (g_tasks s') u <= q) /\
      (q = p \/ exists m u, m ∈ mutex_list tk /\ waits (g_tasks s') u = Some m /\ q = shown_prio (g_tasks s') u)
    else (r = CRet (- EINVAL) \/ r = CRet (- EPERM)) /\ s' = s) s.
Proof.
  intros Hwf Ht Hl. eapply wp_mono; [|by apply (wp_set_get_prio s t tk p)]. intros [r q] s' [Hwf' H]. split; [done|].
  destruct (_ && _); [|done]. destruct H as (-> & Hp & Hw & Hq). split_and!; [done|done| |done|done].
  intros Hm. destruct Hq as [?|(m & u & Hin & _)]; [done|]. rewrite Hm in Hin. by apply elem_of_nil in Hin.
Qed.

Example csi_priority_roundtrip_witness :
  wp (r ← csi_kernel_task_set_prio (Some second_task) 40; q ← csi_kernel_task_get_prio (Some second_task); mret (r, q)) (fun '(r, q) s' =>
    wf s' /\ r = CRet 0 /\ q = 40) demo /\
  wp (r ← csi_kernel_task_set_prio (Some second_task) 3; q ← csi_kernel_task_get_prio (Some second_task); mret (r, q)) (fun '(r, q) s' =>
    r = CRet 0 /\ (q = 3 \/ exists m u, m ∈ [a_mutex] /\ waits (g_tasks s') u = Some m /\ q = shown_prio (g_tasks s') u)) demo_pi.
Proof.
  split.
  - eapply wp_mono; [|apply (csi_priority_roundtrip demo second_task _ 40 demo_wf eq_refl eq_refl)].
    intros [r q] s' (Hwf & Hr & _ & Hq & _). split_and!; [done|done|by apply Hq].
  - eapply wp_mono; [|apply (csi_priority_roundtrip demo_pi second_task _ 3 demo_pi_wf eq_refl eq_refl)].
    intros [r q] s' (Hwf & Hr & _ & _ & _ & Hq). split; [exact Hr|exact Hq].
Defined.

(** ** Timers *)

(** C35: the timers of the interface.  [csi_kernel_timer_new] makes a handle of
    two new blocks of the heap, whose timer calls the function of the user with
    its argument, or gives everything back.  [csi_kernel_timer_start] and
    [csi_kernel_timer_stop] send the timer task the commands they stand for;
    when it has executed those of a start, the timer runs for [ticks] from then,
    and again every [ticks] when it was made periodic, whether it ran before or
    not.  When a timer that does not run is deleted its two blocks are free.  A
    call whose first message was not sent stops there and returns the error. *)
Theorem csi_timer_correct addr len s U : ct_ok addr len s U ->
  (forall f type arg m, wp (csi_kernel_timer_new (init_addr addr) (Some f) type arg m) (fun r s' =>
     match r with
     | None => ct_ok addr len s' U /\ ct_sys s' = ct_sys s
     | Some h => exists a, tmr_made addr len s U f arg type h a s' /\ tmr_adapt_cb (tmr_of h) s' = Ok (tt, set_called (called s ++ [(f, arg)]) s')
     end) s) /\
  (forall h tm ticks m ms, ct_timers s !! tmr_of h = Some tm -> wf (TimerTask.kern (ct_sys s)) -> timer_queue (TimerTask.kern (ct_sys s)) ms ->
     Z.of_nat (tmr_of h) < 2 ^ 32 -> length m = 24%nat -> 0 < ticks < 2 ^ 32 ->
     let sends q := fun r s' => exists kr, r = status kr /\ wf (TimerTask.kern (ct_sys s')) /\
       sent q (tmr_of h) kr (TimerTask.kern (ct_sys s)) (TimerTask.kern (ct_sys s')) /\ tims (ct_sys s') = tims (ct_sys s) /\ ct_heap s' = ct_heap s in
     wp (csi_kernel_timer_start (Some h) ticks m) (sends (ReqChange ticks (period tm ticks))) s /\
     wp (csi_kernel_timer_start_rest h (CRet 0) m) (sends ReqStart) s /\
     (forall ret1, ret1 <> CRet 0 -> csi_kernel_timer_start_rest h ret1 m s = Ok (ret1, s)) /\
     wp (csi_kernel_timer_stop (Some h) m) (sends ReqStop) s /\
     forall cb1 cb2, tm_obj_type tm = RHINO_TIMER_OBJ_TYPE ->
       cb_timer cb1 = tmr_of h -> cb_num cb1 = cmd_num TIMER_CMD_CHG -> cb_first cb1 = ticks -> cb_u cb1 = period tm ticks ->
       cb_timer cb2 = tmr_of h -> cb_num cb2 = cmd_num TIMER_CMD_START ->
       wp (timer_cmd_proc cb1;; timer_cmd_proc cb2) (fun _ ts => tok ts /\
         g_timers ts = <[tmr_of h := restarted (g_timer_count (tims (ct_sys s))) ticks tm]> (ct_timers s)) (tims (ct_sys s))) /\
  (forall h tm a, ct_timers s !! tmr_of h = Some tm -> to_head tm = false -> timer_cb_arg tm = Z.of_nat a ->
     U !! Z.of_nat h = Some sizeof_tmr_ad_t -> U !! Z.of_nat a = Some sizeof_tmr_arg_t ->
     wp (csi_kernel_timer_del_rest (init_addr addr) h (CRet 0)) (fun r s' => r = CRet 0 /\ ct_timers s' = delete (tmr_of h) (ct_timers s) /\
       ct_ok addr len s' (delete (Z.of_nat h) (delete (Z.of_nat a) U))) s) /\
  (forall h ret, ret <> CRet 0 -> csi_kernel_timer_del_rest (init_addr addr) h ret s = Ok (ret, s)).
Proof.
  intros Hs. split_and!.
  - intros f type arg m. eapply wp_mono; [|by eapply wp_timer_new]. cbv beta. intros [h|] s'; [|intuition].
    intros [a Ha]. exists a. split; [done|by eapply made_calls].
  - intros h tm ticks m ms Ht Hwf Hq Hh Hm Hn sends. split_and!.
    + by eapply wp_start.
    + unfold csi_kernel_timer_start_rest. rewrite bool_decide_eq_true_2 by done. by apply (wp_send s ms ReqStart).
    + intros ret1 Hne. unfold csi_kernel_timer_start_rest. by rewrite bool_decide_eq_false_2.
    + by apply (wp_send s ms ReqStop).
    + intros cb1 cb2 Hty E1 N1 F1 U1 E2 N2. pose proof (ck_timers _ _ _ _ Hs) as Hok. destruct s as [[k [T l c fs]] hp ads args cl].
      eapply wp_start_commands; [exact Hok|exact Ht|exact Hty|exact Hn|exact E1|exact N1|exact F1|exact U1|exact E2|exact N2|].
      intros l' Hok' _. by split.
  - intros h tm a Ht Hh Ha HUh HUa. by eapply wp_del_rest.
  - intros h ret Hne. unfold csi_kernel_timer_del_rest. by rewrite bool_decide_eq_false_2.
Qed.

(** no timer yet *)
Definition no_timers : cts := mkCts (mkSys demo (mkTs ∅ [] 0 [])) heap1 ∅ ∅ [].

Lemma no_timers_ok : ct_ok 0x1000 10000 no_timers ∅.
Proof.
  split; [|exact reach1|].
  - split; [constructor| |apply map_Forall_empty]. intros t. split; [by intros ?%elem_of_nil|]. unfold listed. cbn. by rewrite lookup_empty.
  - intros h Hh. unfold ct_timers in Hh. cbn in Hh. rewrite lookup_empty in Hh. by apply is_Some_None in Hh.
Qed.

Definition new_periodic : CT (option nat) := csi_kernel_timer_new (init_addr 0x1000) (Some 7) KTIMER_TYPE_PERIODIC 99 [].

Example csi_timer_correct_witness :
  wp new_periodic (fun r s' => match r with
    | None => ct_ok 0x1000 10000 s' ∅ /\ ct_sys s' = ct_sys no_timers
    | Some h => exists a, tmr_made 0x1000 10000 no_timers ∅ 7 99 KTIMER_TYPE_PERIODIC h a s' /\
        tmr_adapt_cb (tmr_of h) s' = Ok (tt, set_called [(7, 99)] s')
    end) no_timers.
Proof. destruct (csi_timer_correct 0x1000 10000 no_timers ∅ no_timers_ok) as [H _]. exact (H 7 KTIMER_TYPE_PERIODIC 99 []). Defined.

Example new_periodic_handle : match new_periodic no_timers with Ok (Some _, _) => True | _ => False end.
Proof. by vm_compute. Qed.

(** [csi_kernel_timer_del] of a timer that runs: the timer task refuses the
    command, and the caller, who has its 0, frees the timer all the same.  It is
    still in the list of the task, which next looks at freed memory *)
Definition run_then_del : CT cret :=
  h ← new_periodic;
  h ← lift h;
  on_sys (in_tims (timer_cmd_proc (mkCb (tmr_of h) (cmd_num TIMER_CMD_CHG) 20 20);; timer_cmd_proc (mkCb (tmr_of h) (cmd_num TIMER_CMD_START) 0 0)));;
  ret ← csi_kernel_timer_del (Some h) (replicate 24 0);
  on_sys (in_tims (timer_cmd_proc (mkCb (tmr_of h) (cmd_num TIMER_CMD_DEL) 0 0)));;
  csi_kernel_timer_del_rest (init_addr 0x1000) h ret.

Example running_timer_freed :
  match run_then_del no_timers with
  | Ok (r, s) => r = CRet 0 /\ length (g_timer_head (tims (ct_sys s))) = 1%nat /\ timer_cb_proc (tims (ct_sys s)) = Undef
  | _ => False end.
Proof. vm_compute. done. Qed.

(** C36: [csi_kernel_task_list] puts the tasks of the system in an array of
    [items] entries, in the order they were made, when it has room for all of
    them; when there are more tasks than entries it does not stop at the end of
    the array, but writes the tasks behind it. *)
Theorem csi_task_list_correct s arr : arr <> [] -> let tasks := task_head (g_kobj_list s) in
  csi_kernel_task_list (Some arr) (Z.of_nat (length arr)) s =
  if decide (length tasks <= length arr)%nat
  then Ok ((Z.of_nat (length tasks), Some (tasks ++ drop (length tasks) arr)), s) else Undef.
Proof. apply task_list_result. Qed.

Example csi_task_list_correct_witness : csi_kernel_task_list (Some [0; 0]%nat) 2 demo = Undef.
Proof. refine (eq_trans (csi_task_list_correct demo [0; 0]%nat _) _); [done|vm_compute; reflexivity]. Defined.

(** ** What the interface does not do *)

(** a queue for 10 messages of 4 bytes holds 8: the buffer has room for 11 times
    the bytes, but each message takes one more for its length *)
Fixpoint put_all (n : nat) (mq : option mq_adapter_t) : K (list cret) :=
  match n with
  | O => mret []
  | S n => r ← csi_kernel_msgq_put mq (Some [1; 2; 3; 4]) 0 0; rs ← put_all n mq; mret (r :: rs)
  end.

Example msgq_too_small :
  match (mq ← csi_kernel_msgq_new 10 4 (Some 0%nat) (Some 40%nat) (Some (replicate 44 0)); put_all 10 mq) demo with
  | Ok (rs, _) => rs = replicate 8 (CRet 0) ++ replicate 2 (CRet (- EPERM)) | _ => False end.
Proof. vm_compute. reflexivity. Qed.

(** the maximum of a semaphore is not kept: one made for at most one unit has
    three after three calls *)
Example sem_max_ignored :
  csi_results [CSemNew 1 0; CSemPost (Some a_handle); CSemPost (Some a_handle); CSemPost (Some a_handle); CSemWait (Some a_handle) 0;
    CSemWait (Some a_handle) 0; CSemWait (Some a_handle) 0] (mkCsi start_state heap1) = RHandle (Some a_handle) :: replicate 6 (RStat (CRet 0)).
Proof. vm_compute. reflexivity. Qed.

(** the clock counts a second when more than 1000 milliseconds have passed, and
    starts the next one at 0: its second has 1001 ticks of a millisecond *)
Example systick_second_is_long :
  Pos.iter systick_clock (mkClock 0 0 0) 1000 = mkClock 1000 0 1000 /\ Pos.iter systick_clock (mkClock 0 0 0) 1001 = mkClock 1001 1 0.
Proof. vm_compute. done. Qed.

(** 72 minutes later the product of [csi_kernel_update_tick] does not fit in 32
    bits *)
Example update_tick_wraps : csi_kernel_update_tick (72 * 60 * 1000) (mkClock 0 0 0) = mkClock 25032 25 32.
Proof. vm_compute. done. Qed.
