(* ===== verification/RwProps.v ===== *)
(** * The properties of the readers-writer lock

    For any condition variables that do what [CondVar] says; the examples run on
    a queue of threads. *)

From S2P Require Import Prelude Rwlock.
Open Scope Z_scope.

(** C18: [pthread_rwlock_t], in any interleaving of calls, wake-ups without a
    reason and, when [fails], waits that time out or fail and signals that return
    an error: no step is undefined;
    one writer has the lock, or any number of readers, and [rw_refcount] says
    which; the other counters are those of the threads that wait.  As long as no
    wait and no signal fails nobody waits in vain: when a thread sleeps and nobody has the
    lock, a writer is awake that gets it when it goes on; and readers sleep only
    while a writer has the lock or waits for it. *)
Theorem rwlock_correct {C : Type} `{CondVar C} (fails : bool) (s : rwsys (C := C)) : rw_reach fails s ->
  (forall e, rw_legal s e -> (failing s e -> fails = true) -> exists s', rw_exec e s = Ok s' /\ rw_reach fails s') /\
  ((writers s = [] /\ rw_refcount (lock s) = Z.of_nat (length (readers s))) \/
   (exists w, writers s = [w] /\ readers s = [] /\ rw_refcount (lock s) = -1)) /\
  rw_nwaitreaders (lock s) = count reads (calls s) /\ rw_nwaitwriters (lock s) = count writes (calls s) /\
  (fails = false ->
    (rw_refcount (lock s) = 0 -> asleep s <> ∅ ->
     exists t op s', calls s !! t = Some (Waiting op) /\ writes op = true /\ rw_legal s (RwResume t) /\
       rw_exec (RwResume t) s = Ok s' /\ writers s' = [t] /\ calls s' !! t = None) /\
    (0 <= rw_refcount (lock s) -> waiters (rw_condreaders (lock s)) <> ∅ -> 0 < rw_nwaitwriters (lock s))).
Proof.
  intros Hr. pose proof (rw_reach_inv _ _ Hr) as Hi. pose proof Hi as [Hok Haw]. split_and!; [|apply Hok..|].
  - intros e He Hf. destruct (rw_steps _ _ _ Hi He Hf) as (s' & E & _). exists s'. split; [done|]. by eapply rw_reach_step.
  - intros Hf. split; [by intros; apply rw_free_taken; auto|]. intros Hz Hne.
    pose proof (count_nonneg writes (calls s)). pose proof (ro_nw _ Hok).
    destruct (Z.eq_dec (rw_nwaitwriters (lock s)) 0); [|lia]. destruct Hne. by apply (ra_reader _ (Haw Hf)).
Qed.

(** ** Examples *)

#[local] Arguments klist_del : simpl never.

(** a condition variable that is a queue of threads *)
#[export] Program Instance queue_CondVar : CondVar (list nat) := {|
  condv_init := [];
  waiters := list_to_set;
  condv_wait t c := c ++ [t];
  condv_leave t c := klist_del t c;
  condv_signal c := match c with [] => [] | t :: _ => klist_del t c end;
  condv_broadcast _ := [];
  signal_result _ := 0;
  broadcast_result _ := 0
|}.
Next Obligation. done. Qed.
Next Obligation. intros t c. cbn. rewrite list_to_set_app_L. cbn. set_solver. Qed.
Next Obligation. intros t c. apply set_eq. intros u. cbn. rewrite elem_of_difference, !elem_of_list_to_set, elem_of_klist_del. set_solver. Qed.
Next Obligation. intros [|t c] u; [done|]. cbn. rewrite elem_of_list_to_set. intros Hu%elem_of_klist_del. set_solver. Qed.
Next Obligation.
  intros [|t c] _ Hne; [done|]. intros E. assert (Ht : t ∈ (list_to_set (t :: c) : gset nat)) by set_solver.
  rewrite <- E, elem_of_list_to_set in Ht. by apply elem_of_klist_del in Ht as [? _].
Qed.
Next Obligation. intros c. cbn. set_solver. Qed.
Next Obligation. done. Qed.

Definition the_lock : option nat := Some 0%nat.

(** the state after some legal steps *)
Fixpoint rw_run (es : list rw_event) (s : rwsys (C := list nat)) : option rwsys :=
  match es with
  | [] => Some s
  | e :: es => if decide (rw_legal s e) then match rw_exec e s with Ok s => rw_run es s | _ => None end else None
  end.

Lemma rw_run_reach fails es : (forall t r, RwFail t r ∈ es -> fails = true) ->
  forall s s', rw_reach fails s -> rw_run es s = Some s' -> rw_reach fails s'.
Proof.
  induction es as [|e es IH]; intros Hf s s' Hr E; cbn in E; [by injection E as <-|].
  case_decide as He; [|done]. destruct (rw_exec e s) as [s1| |] eqn:E1; [|done..]. apply (IH ltac:(set_solver) s1 s'); [|done].
  eapply rw_reach_step; [done|exact He| |exact E1]. destruct e as [t op ? ?|t|t|t r]; cbn; [destruct op; try done; by intros [?|?]|done|done|].
  intros _. apply (Hf t r). set_solver.
Qed.

(** a reader has the lock; a writer waits for it, with a timeout; another reader
    waits because of the writer *)
Definition reader_and_writer : list rw_event :=
  [RwCall 1 RdLock the_lock 0; RwCall 2 TimedWrLock the_lock 0; RwCall 3 RdLock the_lock 0].

(** when the first reader is done, the writer gets the lock, and then the other
    reader *)
Example writer_first :
  match rw_run (reader_and_writer ++ [RwCall 1 Unlock the_lock 0; RwResume 2]) rw_start with
  | Some s => writers s = [2%nat] /\ asleep s = {[3%nat]} | _ => False end /\
  match rw_run (reader_and_writer ++ [RwCall 1 Unlock the_lock 0; RwResume 2; RwCall 2 Unlock the_lock 0; RwResume 3]) rw_start with
  | Some s => writers s = [] /\ readers s = [3%nat] /\ asleep s = ∅ | _ => False end.
Proof. vm_compute. done. Qed.

Example rwlock_correct_witness :
  match rw_run (reader_and_writer ++ [RwCall 1 Unlock the_lock 0]) rw_start with
  | Some s => exists t op s', calls s !! t = Some (Waiting op) /\ rw_exec (RwResume t) s = Ok s' /\ writers s' = [t]
  | None => False end.
Proof.
  destruct (rw_run _ _) as [s|] eqn:E; [|by vm_compute in E].
  destruct (rwlock_correct false s) as (_ & _ & _ & _ & Hfree).
  - eapply rw_run_reach; [|apply rw_reach_start|exact E]. intros t r. cbn. set_solver.
  - destruct (proj1 (Hfree eq_refl)) as (t & op & s' & H1 & _ & _ & H2 & H3 & _).
    + vm_compute in E. injection E as <-. reflexivity.
    + vm_compute in E. injection E as <-. vm_compute. discriminate.
    + exists t, op, s'. done.
Defined.

(** The writer's wait times out; before it has the mutex again the first reader
    unlocks: the signal is for the writer, which returns an error, and nobody
    wakes the other reader: it sleeps, the lock is free, and no thread is
    awake. *)
Definition timed_out : list rw_event :=
  reader_and_writer ++ [RwFail 2 (-110); RwCall 1 Unlock the_lock 0; RwResume 2].

Example reader_forgotten : exists s, rw_reach true s /\ rw_refcount (lock s) = 0 /\ writers s = [] /\ readers s = [] /\
  calls s = {[3%nat := Waiting RdLock]} /\ asleep s = {[3%nat]}.
Proof.
  destruct (rw_run timed_out rw_start) as [s|] eqn:E; [|by vm_compute in E]. exists s.
  split; [by eapply rw_run_reach, E; [|apply rw_reach_start]|]. vm_compute in E. injection E as <-. vm_compute. done.
Qed.

(** [pthread_rwlock_destroy] of a lock in use says [-EBUSY] and keeps the mutex:
    no other thread can use the lock any more, not even to unlock it *)
Example destroy_keeps_mutex :
  match rw_run [RwCall 1 RdLock the_lock 0] rw_start with
  | Some s => match pthread_rwlock_destroy the_lock 2 0 (lock s) with
            | Ok (r, l) => r = Some (- EBUSY) /\ rw_mutex l = Some 2%nat | _ => False end
  | _ => False end.
Proof. vm_compute. done. Qed.
