(* ===== verification/WorkProps.v ===== *)
(** * The properties of the work queues

    For queues that were just made on any state of the kernel that keeps its
    invariant; the examples make a queue on the state [demo]. *)

From S2P Require Import Prelude Config RingBuf State Inv KInv Kernel Demo Timer TimerTask WorkQueue WorkInv.
Open Scope Z_scope.

(** C19: the work queues, in any interleaving of insertions by tasks, interrupts
    and timers, of the steps of the workers, of cancellations and of other calls
    of the kernel: no step is undefined (no list of a woken worker is empty, no
    semaphore overflows).  The works a queue accepted, in order, are those its
    worker has run, the one it runs and those in its list, where each is once.
    When a worker sleeps and no semaphore is still to be given, all works were
    run; a worker that has the processor runs all the works of its list in turn.
    [krhino_work_run] of a work without delay and the callback of the timer of
    another are the events they stand for. *)
Theorem workqueue_correct (s : wqsys) : wq_reach s ->
  (forall e, wq_legal s e -> exists s', wq_exec e s = Ok s' /\ wq_reach s') /\
  (forall q, q ∈ g_workqueue_list_head (wst s) -> exists kq, queues (wst s) !! q = Some kq /\ NoDup (work_list kq) /\
    on q (accepted s) = on q (handled (wst s)) ++ running (pcs s q) ++ work_list kq /\
    (waits (g_tasks (kst s)) q = Some q -> gives s q = 0 -> on q (accepted s) = on q (handled (wst s))) /\
    (has_cpu q s -> pcs s q = AtSem -> gives s q = 0 -> exists s', wq_run (replicate (length (work_list kq) * 4) (EvWorker q)) s = Ok s' /\
       handled (wst s') = handled (wst s) ++ (pair q <$> work_list kq)) /\
    (forall w wk, works (wst s) !! w = Some wk -> dly wk = 0 -> exists st s', insert_give q w s = Ok (st, s') /\
       (forall m, krhino_work_run (Some q) (Some w) m (ws s) = Ok (Ret st, ws s')) /\
       (forall tm, timer_priv (wst s) !! tm = Some w -> work_timer_cb tm q (ws s) = Ok (tt, ws s')))).
Proof.
  intros Hr. pose proof (wq_reach_inv _ Hr) as Hi. split; [by intros e; apply reach_steps|].
  intros q Hq. destruct (queue_of s Hi q Hq) as (kq & Hkq & HQ). exists kq. split_and!; [done|by apply (lo_nodup _ (wi_lists _ Hi) q)|apply HQ| | |].
  - intros Hw Hg. destruct (asleep_empty s q kq Hi Hkq Hw Hg) as [El Ep]. by rewrite (qo_fifo _ _ _ HQ), El, Ep, app_nil_r.
  - intros Hc Hp Hg. destruct (worker_drains s q kq Hi Hkq Hg Hp Hc) as (s' & E & Eh & _). by exists s'.
  - intros w wk Hw Hd. by eapply insert_give_run.
Qed.

(** ** A queue made on [demo] *)

Definition a_workqueue : nat := 40.

Definition no_queues : wsys := mkWsys (mkSys demo idle_timers) (mkWs ∅ ∅ [] ∅ []).

Definition made : wsys :=
  Eval vm_compute in match krhino_workqueue_create (Some a_workqueue) (Some 0%nat) 15 (Some 0%nat) 100 no_queues with
  | Ok (Ret RHINO_SUCCESS, s) => s | _ => no_queues end.

Definition ready : wqsys := mkWqs made (fun _ => AtSem) (fun _ => 0) [].

Lemma made_kernel : reachable (kern (w_sys made)).
Proof.
  apply (reachable_exec demo [SemCreate (Some a_workqueue) (Some 0%nat) 0;
    TaskCreate (Some a_workqueue) (Some 0%nat) 15 0 (Some 0%nat) 100 (Some 0%nat) 1]).
  - exact demo_reachable.
  - eapply legal_run_cons; [legal_step|vm_compute; reflexivity|]. eapply legal_run_cons; [legal_step|vm_compute; reflexivity|]. done.
  - vm_compute. reflexivity.
Qed.

Lemma ready_reach : wq_reach ready.
Proof.
  apply wq_start. split.
  - apply reachable_kinv, made_kernel.
  - done.
  - intros q Hq. assert (q = a_workqueue) as -> by (apply list_elem_of_singleton; exact Hq). split; [done|]. split; [done|].
    eexists _, _. split_and!; vm_compute; reflexivity.
  - intros q Hq. apply list_elem_of_singleton. destruct (decide (q = a_workqueue)) as [|Hne]; [done|].
    destruct Hq as [kq Hq]. change (queues (wst ready)) with ({[a_workqueue := mkWq [] None]} : gmap nat kworkqueue_t) in Hq.
    by rewrite lookup_singleton_ne in Hq.
  - done.
Qed.

(** two works, put in the list while the worker has not taken the semaphore *)
Definition two_works : list wq_event :=
  [EvInit 1 7 0 0 None []; EvInit 2 8 0 0 None []; EvInsert a_workqueue 1; EvInsert a_workqueue 2; EvGive a_workqueue; EvGive a_workqueue].

Definition queued : wqsys := Eval vm_compute in match wq_run two_works ready with Ok s => s | _ => ready end.

(** legal steps, each where it is made *)
Fixpoint wq_legal_run (es : list wq_event) (s : wqsys) : Prop :=
  match es with
  | [] => True
  | e :: es => wq_legal s e /\ match wq_exec e s with Ok s1 => wq_legal_run es s1 | _ => False end
  end.

Lemma wq_legal_cons e es s s1 : wq_legal s e -> wq_exec e s = Ok s1 -> wq_legal_run es s1 -> wq_legal_run (e :: es) s.
Proof. intros Hl E H. split; [done|]. by rewrite E. Qed.

Lemma wq_run_reach es s s' : wq_reach s -> wq_legal_run es s -> wq_run es s = Ok s' -> wq_reach s'.
Proof.
  revert s. induction es as [|e es IH]; intros s Hr Hl E; cbn in *; [by injection E as <-|].
  destruct Hl as [Hl Hes]. destruct (wq_exec e s) as [s1| |] eqn:E1; [|done..]. by apply (IH s1); [eapply wq_step| |].
Qed.

Ltac wq_legal_step :=
  unfold wq_legal; repeat match goal with
  | H : works _ !! _ = Some _ |- _ => vm_compute in H; discriminate H
  | |- _ /\ _ => split
  | |- exists _, _ => eexists
  | |- is_Some _ => eexists
  | |- ?q ∈ _ => apply list_elem_of_singleton; reflexivity
  | |- forall _, _ => intros
  end; vm_compute; first [reflexivity|congruence|lia].

Lemma queued_reach : wq_reach queued.
Proof.
  eapply (wq_run_reach two_works); [exact ready_reach| |vm_compute; reflexivity].
  repeat (eapply wq_legal_cons; [wq_legal_step|vm_compute; reflexivity|]). done.
Qed.

Example workqueue_correct_witness : exists s', wq_run (replicate 8 (EvWorker a_workqueue)) queued = Ok s' /\
  handled (wst s') = [(a_workqueue, 1); (a_workqueue, 2)]%nat /\ work_list (default (mkWq [] None) (queues (wst queued) !! a_workqueue)) = [1; 2]%nat.
Proof.
  destruct (proj2 (workqueue_correct queued queued_reach) a_workqueue) as (kq & Hkq & _ & _ & _ & Hrun & _).
  - apply list_elem_of_singleton. reflexivity.
  - assert (kq = mkWq [1; 2]%nat None) as -> by (vm_compute in Hkq; congruence). destruct Hrun as (s' & E & Eh); [done..|].
    exists s'. split_and!; [exact E|exact Eh|by rewrite Hkq].
Defined.

(** ** Cancelling *)

(** a work that waits in a list cannot be taken back: its [work_exit] is 1 there,
    and [krhino_work_cancel] refuses such works *)
Lemma cancel_refused (s : wqsys) (q w : nat) (kq : kworkqueue_t) (m : list Z) :
  wq_reach s -> queues (wst s) !! q = Some kq -> w ∈ work_list kq ->
  exists r, krhino_work_cancel (Some w) m (ws s) = Ok (Ret r, ws s) /\ r ∈ [RHINO_WORKQUEUE_WORK_RUNNING; RHINO_WORKQUEUE_WORK_EXIST].
Proof.
  intros Hr Hq Hw. destruct (lo_in _ (wi_lists _ (wq_reach_inv _ Hr)) _ _ _ Hq Hw) as (wk & Hwk & Hx & Hwq).
  unfold wst in *. destruct (ws s) as [S W]. cbn in *. unfold krhino_work_cancel, in_w, get_work, get_queue, mbind, M_bind, gets, lift, mret, M_ret. cbn.
  rewrite Hwk, Hwq. cbn. rewrite Hq. cbn. case_bool_decide; [eexists; split; [done|set_solver]|]. rewrite Hx. cbn.
  eexists. split; [done|set_solver].
Qed.

(** After a work with a delay has run it still has its queue: to cancel it when
    its timer runs again succeeds and leaves the timer alone *)
Definition ran_delayed : wsys :=
  mkWsys (mkSys demo run_timers) (mkWs {[1%nat := mkWork 7 0 10 (Some a_timer) (Some a_workqueue) 0]}
    {[a_workqueue := mkWq [] None]} [a_workqueue] {[a_timer := 1%nat]} [(a_workqueue, 1%nat)]).

Example cancel_leaves_timer :
  match krhino_work_cancel (Some 1%nat) (replicate 24 0) ran_delayed with
  | Ok (r, s) => r = Ret RHINO_SUCCESS /\ w_sys s = w_sys ran_delayed
  | _ => False end.
Proof. by vm_compute. Qed.
