(* ===== verification/SkProps.v ===== *)
(** * The properties of the socket monitor

    [sock_monitor_correct] is the refinement of [SkMonitor]; the examples are
    runs of the monitor, and what happens to callers that do not keep to the
    rule of [sk_legal]. *)

From S2P Require Import Prelude SkMonitor.
Open Scope Z_scope.

(** C20: the socket monitor, in any order of the steps of its task, its work and
    the threads that call it, does what [spec_step] says: the entries in memory
    are the watched sockets and no others, each once; [select] is given the
    enabled sockets with the events they are watched for, and a bound above them; the work calls, in the
    order of the list, those that are ready.  No step is undefined.  The
    semaphore has the task and the work take turns, so the sets of [select] do
    not change under the work, and one of the two can always go on.  A round of
    the work that nobody disturbs calls each socket that is ready, once, and
    ends.  All this as long as [select] does not fail and nobody deletes the
    socket behind the one whose function runs. *)
Theorem sock_monitor_correct (fd : Z) (es : list sk_event) (s : sksys) : fd <> -1 -> sk_reach fd es s ->
  let a := spec_run fd es in
  sk_rep fd s a /\
  (forall e, sk_legal s e -> exists s', sk_exec e s = Ok s' /\ sk_rep fd s' (spec_step fd e a)) /\
  (exists n st, sock_monitor_task (mon s) = Ok (n, st) /\ fd < n /\ Forall (fun w => w_disable w = 0 -> w_sock w < n) (a_list a)) /\
  run (mon s) + (if decide (tpc s = TSelect) then 1 else 0) + (if decide (wpc s = WIdle) then 0 else 1) = 1 /\
  (sk_legal s SkTask \/ (forall ret, 0 <= ret -> sk_legal s (SkSelect ret ∅ ∅ ∅)) \/ sk_legal s SkWork) /\
  (a_phase a = Queued -> exists s', let calls := ready_calls a (a_list a) in
    sk_reach fd (es ++ repeat SkWork (S (length calls))) s' /\
    wpc s' = WIdle /\ run (mon s') = 1 /\ called s' = called s ++ calls).
Proof.
  intros Hfd Hr. cbn zeta. pose proof (sk_reach_rep _ _ _ Hfd Hr) as Hrep. split; [done|]. split; [by intros; apply sk_steps|].
  split; [by apply (select_arg _ _ _ Hrep)|].
  destruct (sr_list _ _ _ Hrep) as (l & _ & _ & Hp).
  split; [by apply (phase_turns _ _ _ Hp)|]. split; [by apply (phase_goes_on _ _ _ Hp)|]. intros Hq.
  destruct (sk_reach_round _ _ _ _ (a_list (spec_run fd es)) Hfd Hr (or_introl (conj Hq eq_refl)) eq_refl) as (s' & Hr').
  exists s'. split; [done|]. pose proof (sk_reach_rep _ _ _ Hfd Hr') as [(l' & _ & _ & Hp') _ _ Hc'].
  rewrite (spec_run_round fd es (a_list (spec_run fd es))) in Hp', Hc' by (done || by rewrite Hq).
  destruct Hp' as (_ & ? & ?). rewrite Hc', (sr_called _ _ _ Hrep). done.
Qed.

(** ** Examples *)

(** the state after some legal steps *)
Fixpoint sk_run (es : list sk_event) (s : sksys) : option sksys :=
  match es with
  | [] => Some s
  | e :: es => if decide (sk_legal s e) then match sk_exec e s with Ok s => sk_run es s | _ => None end else None
  end.

Lemma sk_run_reach fd es : forall es0 s s', sk_reach fd es0 s -> sk_run es s = Some s' -> sk_reach fd (es0 ++ es) s'.
Proof.
  induction es as [|e es IH]; intros es0 s s' Hr E; cbn in E; [injection E as <-; by rewrite app_nil_r|].
  case_decide as He; [|done]. destruct (sk_exec e s) as [s1| |] eqn:E1; [|done..]. change (e :: es) with ([e] ++ es).
  rewrite app_assoc. eapply IH; [|exact E]. by eapply sk_reach_step.
Qed.

(** two sockets with the functions 7 and 8; [select] finds the one readable and
    the other writable *)
Definition two_ready : list sk_event :=
  [SkAdd 1 SOCK_MONITOR_READ (Some 7%nat) 100 (Some 1%nat); SkAdd 2 SOCK_MONITOR_WRITE (Some 8%nat) 200 (Some 2%nat);
   SkTask; SkSelect 2 {[1]} {[2]} ∅].

Example sock_monitor_correct_witness : exists s, sk_reach 0 (two_ready ++ repeat SkWork 3) s /\ run (mon s) = 1 /\
  called s = [mkCall 8 2 SOCK_MONITOR_WRITE 200; mkCall 7 1 SOCK_MONITOR_READ 100].
Proof.
  destruct (sk_run two_ready (sk_start 0)) as [s|] eqn:E; [|by vm_compute in E].
  destruct (sock_monitor_correct 0 two_ready s) as (_ & _ & _ & _ & _ & Hround).
  - discriminate.
  - eapply (sk_run_reach 0 two_ready []); [apply sk_reach_start|exact E].
  - destruct (Hround ltac:(by vm_compute)) as (s' & Hr & _ & Hrun & Hc). exists s'.
    split; [exact Hr|]. split; [exact Hrun|]. rewrite Hc. vm_compute in E. injection E as <-. by vm_compute.
Defined.

(** The function of the one socket deletes the other, as when a connection is
    closed together with the one it belongs to: the work goes on with an entry
    that was freed. *)
Example next_freed :
  match sk_run (two_ready ++ [SkWork]) (sk_start 0) with
  | Some s => called s = [mkCall 8 2 SOCK_MONITOR_WRITE 200] /\ ~ sk_legal s (SkDel 1) /\
      match sk_exec (SkDel 1) s with Ok s => sk_exec SkWork s = Undef | _ => False end
  | None => False end.
Proof. vm_compute. split; [done|]. split; [intros H; by apply H|done]. Qed.

(** a function may delete its own socket *)
Example own_socket_deleted :
  match sk_run (two_ready ++ [SkWork; SkDel 2; SkWork; SkDel 1; SkWork]) (sk_start 0) with
  | Some s => entrys (mon s) = None /\ entry_mem (mon s) = ∅ /\ length (called s) = 2%nat /\ run (mon s) = 1 | None => False end.
Proof. vm_compute. done. Qed.

(** [select] fails, because a socket was closed that is still watched, and leaves
    the sets as they were: the work takes all the sockets for ready.  The
    manager's own socket is among them, and [recvfrom] waits for what nobody
    sent. *)
Example failed_select_calls_all :
  match sk_run [SkAdd 1 SOCK_MONITOR_READ (Some 7%nat) 100 (Some 1%nat); SkTask] (sk_start 0) with
  | Some s => match sk_exec (SkSelect (-1) (rset (mon s)) (wset (mon s)) (eset (mon s))) s with
      | Ok s => match sk_run [SkWork; SkWork] s with
          | Some s => called s = [mkCall 7 1 SOCK_MONITOR_READ 100] /\ FD_ISSET (mgr_sock (mon s)) (rset (mon s)) = true | None => False end
      | _ => False end
  | None => False end.
Proof. vm_compute. done. Qed.
